(* ===== verification/_CoqProject ===== *)
-Q . S2P
Prelude.v
Params.v
Cstr.v
Mmu.v
Kalloc.v
Vm.v
VmBytes.v
VmSpec.v
Uspace.v
UspaceAlloc.v
UspaceKvm.v
UspaceCopy.v
UspaceDemo.v
UspaceGrow.v
UspaceWrite.v
Spinlock.v
Cpu.v
Pipe.v
Syscall.v
Proc.v
ProcSpec.v
ProcRun.v
Sysproc.v
Ports.v
Mp.v
MpSpec.v
Trap.v
Intr.v
IntrSpec.v
Main.v
MainSpec.v
TrapSpec.v
Umalloc.v
UmallocSpec.v
User.v
Asm.v
AsmSpec.v
Printf.v
Grep.v
Uprogs.v
UprogsSpec.v
Usertests.v
UtProcs.v
Console.v
ConsoleSpec.v
Fsfmt.v
Bio.v
BioSpec.v
Ide.v
IdeSpec.v
Log.v
LogCrash.v
LogTxn.v
Txn.v
Fs.v
Mkfs.v
File.v
Sysfile.v
SysfileSpec.v
ExecImage.v
Exec.v
ExecSpec.v
ExecHole.v
Bootmain.v
BootSpec.v
SysprocSpec.v
Xvsh.v
XvshSpec.v
Sh.v
ShSpec.v
ShPrint.v
FsBlock.v
FsInode.v
FsFile.v
FsWrite.v
FsWitness.v
MkfsSpec.v
MkfsImage.v
MkfsMount.v
KernOs.v
