(* ===== verification/Prelude.v ===== *)
(** * Verification of xv6 and its shells

    The sources (src/) are the xv6 teaching kernel for the x86, its user
    programs, and the shell xvsh.  The kernel's parts build on each other:
    the log (log.c) groups writes of the buffer cache (bio.c) into
    transactions, the file system (fs.c) keeps inodes, files and directories
    in them, open files (file.c, pipe.c) and the file system calls
    (sysfile.c) come on top; processes (proc.c) run over page tables (vm.c)
    whose pages come from the allocator (kalloc.c); the console (console.c,
    kbd.c, uart.c) is a device.  The boot loader (bootmain.c) reads the kernel
    and main.c sets the parts up, with the interrupt controllers (picirq.c,
    ioapic.c, lapic.c) and the other processors (mp.c).  User programs see the system calls, ulib.c,
    printf.c and umalloc.c.

    ** How code becomes definitions

    A kernel routine is a computation [M S A] of this file over the state of
    its component: it ends with a value ([Done]), in panic() with its message
    ([Panic]), or waits in sleep() ([Sleep]).  [runs m s Q] says that [m]
    ends with a value and a state in [Q]: no panic, no sleep, no lack of
    fuel.  [hoare] says the same of the runs that end.  Integers are [Z] with
    the wrap-around of their C type written out ([u8], [u16], [u32], [s32]);
    memory is a function from addresses to bytes, so that pointer structures
    (free lists, page tables, malloc's headers) are in memory as in the code.
    A user program is a computation [U W A] over the class [Os] of anything
    that answers system calls (User.v).

    ** Files

    - Prelude.v: integers, byte sequences, the monad and its rules.
      Params.v: constants of param.h, fs.h, buf.h, mmu.h and fcntl.h.
    - Cstr.v: string.c and the string routines of ulib.c.  [memmove_spec],
      [strncpy_spec], [safestrcpy_spec], [atoi_spec], [strncmp_zero].
    - Mmu.v: mmu.h, memlayout.h.  Kalloc.v: kalloc.c; [kalloc_exclusive]: a
      page is handed out to one client at a time.  Vm.v, VmSpec.v: vm.c;
      [mappages_correct]: exactly the pages of the range are mapped.
      VmBytes.v: [vm_typed], memory stays a memory of bytes.
    - Uspace.v, UspaceAlloc.v, UspaceKvm.v: the address space of a process, its
      page tables and frames apart from each other and from free memory, and
      what each routine of vm.c does to it.  UspaceCopy.v, UspaceGrow.v,
      UspaceWrite.v: [copyuvm_correct], [uvm_grow_shrink],
      [allocuvm_unmapped], [copyout_correct]; UspaceDemo.v: a small machine on
      which they apply.
    - Spinlock.v: spinlock.c with the CPUs interleaved; [spinlock_exclusion].
      Cpu.v: segments, gates and control registers (mmu.h, seginit, switchuvm
      and kvmalloc of vm.c, tvinit of trap.c); [user_enters_by_syscall].
    - Pipe.v: pipe.c; [pipe_fifo].  Syscall.v: syscall.c and its table;
      [argstr_sound], and [argptr_size] on negative sizes.
    - Proc.v, ProcSpec.v, ProcRun.v: proc.c over the interface [ProcLow] of
      memory and files.  [process_tree] is an invariant of the step relation
      whose steps are the routines; [fork_child], [scheduler_fair],
      [kill_zero].
    - Sysproc.v, SysprocSpec.v: sysproc.c; [sbrk_correct] joins it to the
      address spaces.  Trap.v, TrapSpec.v: trap.c; [trap_kills],
      [sleep_ticks].
    - Asm.v, AsmSpec.v: the instructions the assembly files use, over the
      registers and memory of a CPU, and swtch.S, trapasm.S, the vectors of
      vectors.pl, usys.S, initcode.S, entry.S and the 32-bit part of
      entryother.S as lists of them.  [swtch_roundtrip] and [trap_roundtrip]:
      swtch and a trap give back the registers they found, through the struct
      context and struct trapframe the C code reads; [proc_first_run]: how a new
      process reaches user mode; [entry_spec], [entryother_spec].
    - Ports.v: ports and device registers.  Mp.v, MpSpec.v: mp.c; [mp_table].
      Intr.v, IntrSpec.v: picirq.c, ioapic.c, lapic.c, timer.c, uart.c and the
      clock; [irq_routing]: which lines reach the kernel, [cmostime_date].
      Main.v, MainSpec.v: main.c, with pinit, fileinit and consoleinit;
      [ap_stacks]: the stacks of the other processors.  Bootmain.v, BootSpec.v:
      bootmain.c; [bootmain_loads].
    - Umalloc.v, UmallocSpec.v: umalloc.c; [malloc_exclusive] over the states
      [held] of a program that calls malloc and free and writes to its blocks.
    - User.v, Printf.v: ulib.c, printf.c and cprintf; [printint_roundtrip].
      Grep.v: grep.c; [match_correct] against the meaning of a pattern,
      [grep_file] on files, [grep_split_line] on input in pieces.
      Uprogs.v, UprogsSpec.v: the smaller programs; [cat_copies],
      [wc_correct].
    - Console.v, ConsoleSpec.v: console.c, kbd.c, kbd.h and uartputc;
      [console_refines]: the ring buffer refines two sequences; uartintr of
      uart.c, and [uartintr_spec]: it is consoleintr on the characters of the
      line.
    - Fsfmt.v: the on-disk formats of fs.h.  Bio.v, BioSpec.v: bio.c over the
      disk of memide.c.  Ide.v, IdeSpec.v: ide.c over the ports of the
      controller; [ide_in_order]: it refines a queue of block transfers with
      the effect bio.c expects.  Log.v, LogCrash.v, LogTxn.v: log.c;
      [end_op_atomic]: a crash at any disk write leaves all or nothing of a
      transaction; [log_write_admitted] and [log_reservation_short] on the
      room begin_op reserves.
    - Txn.v: the interface [BlockStore] between log.c and fs.c, and its
      instance.  Fs.v: fs.c.  FsBlock.v, FsInode.v, FsFile.v, FsWrite.v: what
      the block allocator, the inode cache, readi and writei do, proved
      against the interface.  FsWitness.v: a concrete disk on which the
      hypotheses hold.
    - Mkfs.v: mkfs.c.  MkfsSpec.v, MkfsImage.v, MkfsMount.v: the image while it
      is built, and [mkfs_mounts]: booted from it, log.c and fs.c find the
      host's files.
    - File.v, Sysfile.v, SysfileSpec.v: file.c and sysfile.c;
      [calls_keep_refs]: reference counts on every path of every call.
    - Exec.v, ExecImage.v, ExecSpec.v: exec.c; [exec_loads]: the image and the
      stack of the new program.  ExecHole.v: [exec_kernel_write].
    - Xvsh.v, XvshSpec.v: xvsh.c; the tokenizer, and what each kind of command
      runs.  Sh.v, ShSpec.v, ShPrint.v: sh.c; [sh_parse_sound]: the parser
      ends on every line, [sh_roundtrip]: it undoes printing.
    - Usertests.v: the tests of usertests.c on files and directories.  UtProcs.v:
      its tests of processes, pipes, memory and exec, and main;
      [pipe1_verdict]: what one of the tests establishes.  KernOs.v: the kernel's
      system calls, reached through syscall() and its table, as an instance of
      [Os] on which the tests run; [usertests_pass]: the kernel, booted from
      mkfs's image, passes fourteen of them.

    ** Bounds and fuel

    Loops that are not structural take a number of turns.  In the kernel it is
    the bound the code has (the size of a table, the length of a transfer) or
    one that a theorem shows to be enough: [runs] does not hold of a
    computation that runs out.  The shell's parser gets 8 turns per byte of
    the line, enough by [sh_parse_sound]; malloc and free get one turn per
    byte below the limit of the heap, enough by [malloc_exclusive].  Requests
    to malloc are at most 2^30 bytes there; [malloc_wraps] shows what happens
    close to 2^32.  Programs that read until the end of their input take the
    number of turns as an argument.

    ** Not modelled

    - The 16-bit code that enters protected mode (bootasm.S, the start of
      entryother.S).  Paging and segmentation are not applied to the addresses
      in Asm.v: the code there runs in the kernel's flat mapping.
    - The devices themselves: their ports and registers are a parameter, with
      what their manuals say as its laws where a theorem needs it.  What another
      processor does after its start-up interrupt is a parameter of main.c's
      model in the same way.
    - Locks inside one component: a routine that holds its lock throughout is
      one step.  Spinlock.v shows the exclusion this rests on.
    - Scheduling of several user processes: KernOs.v runs tests of one process.
      The tests that fork are programs over any [Os], and are not run on it. *)

From stdpp Require Export base list numbers strings gmap.
From Stdlib Require Export ZArith Lia.

#[global] Set Default Goal Selector "!".
#[global] Open Scope Z_scope.

(** ** Machine integers

    An unsigned w-bit C integer is a [Z] kept in [0, 2^w); a signed one is a
    [Z] kept in [-2^(w-1), 2^(w-1)).  The conversions write the wrap-around
    out, so that overflow is visible in the definitions that use it. *)

Definition u8 (x : Z) : Z := x mod 256.
Definition u16 (x : Z) : Z := x mod 65536.
Definition u32 (x : Z) : Z := x mod 4294967296.
Definition s8 (x : Z) : Z := (x + 128) mod 256 - 128.
Definition s16 (x : Z) : Z := (x + 32768) mod 65536 - 32768.
Definition s32 (x : Z) : Z := (x + 2147483648) mod 4294967296 - 2147483648.

(** [test f m] is the C condition [f & m] for a single-bit mask or a mask
    used as a whole. *)
Definition test (f m : Z) : bool := negb (Z.land f m =? 0).

(** ** Byte sequences *)

Definition byte_ok (b : Z) : Prop := 0 <= b < 256.

(** [nthZ l i] is the C expression [l[i]] for an index inside [l]. *)
Definition nthZ (l : list Z) (i : Z) : Z := nth (Z.to_nat i) l 0.

(** [splice l off d] is [l] with [d] written at offset [off]:
    [memmove(l + off, d, |d|)]. *)
Definition splice (l : list Z) (off : nat) (d : list Z) : list Z :=
  take off l ++ d ++ drop (off + length d) l.

(** [slice l off n] is the [n] bytes of [l] at offset [off]. *)
Definition slice (l : list Z) (off n : nat) : list Z := take n (drop off l).

(** Little-endian words, the byte order of the x86 the kernel runs on. *)
Fixpoint le_bytes (n : nat) (v : Z) : list Z :=
  match n with
  | O => []
  | S n' => v mod 256 :: le_bytes n' (v / 256)
  end.

Fixpoint le_val (l : list Z) : Z :=
  match l with
  | [] => 0
  | b :: l' => b + 256 * le_val l'
  end.

(** [get32 l off], [put32 l off v]: the word at byte offset [off]. *)
Definition get32 (l : list Z) (off : nat) : Z := le_val (slice l off 4).
Definition get16 (l : list Z) (off : nat) : Z := le_val (slice l off 2).
Definition put32 (l : list Z) (off : nat) (v : Z) : list Z := splice l off (le_bytes 4 v).
Definition put16 (l : list Z) (off : nat) (v : Z) : list Z := splice l off (le_bytes 2 v).

(** ** Sleep channels

    The addresses passed to sleep() and wakeup(): one constructor per object
    whose address the kernel uses as a channel.  Distinct objects have
    distinct addresses, so equality of channels is equality of addresses. *)
Inductive chan : Type :=
| ChBuf (i : nat)          (* &bcache.buf[i] *)
| ChLog                    (* &log *)
| ChInode (i : nat)        (* &icache.inode[i] *)
| ChProc (i : nat)         (* &ptable.proc[i] *)
| ChTicks                  (* &ticks *)
| ChInput                  (* &input.r *)
| ChPipeR (p : Z)          (* &p->nread *)
| ChPipeW (p : Z).         (* &p->nwrite *)

#[export] Instance chan_eq_dec : EqDecision chan.
Proof. solve_decision. Defined.

(** ** The kernel monad

    A kernel routine maps a state to an outcome: it returns, it panics, or
    it gives up the CPU in sleep() on a channel, leaving the state the other
    processes see.  A routine that sleeps in a loop of the form
    [while(cond) sleep(chan, lk)] re-evaluates its condition when it is woken,
    so resuming it is running it again on the state of that moment. *)
Inductive outcome (S A : Type) : Type :=
| Done (a : A) (s : S)
| Panic (msg : string)
| Sleep (c : chan) (s : S).
Arguments Done {S A} a s.
Arguments Panic {S A} msg.
Arguments Sleep {S A} c s.

Definition M (S A : Type) : Type := S -> outcome S A.

Definition ret {S A} (a : A) : M S A := fun s => Done a s.
Definition panic {S A} (msg : string) : M S A := fun _ => Panic msg.
Definition sleep_on {S A} (c : chan) : M S A := fun s => Sleep c s.
Definition bind {S A B} (m : M S A) (k : A -> M S B) : M S B := fun s =>
  match m s with
  | Done a s' => k a s'
  | Panic msg => Panic msg
  | Sleep c s' => Sleep c s'
  end.
Definition get {S} : M S S := fun s => Done s s.
Definition gets {S A} (f : S -> A) : M S A := fun s => Done (f s) s.
Definition modify {S} (f : S -> S) : M S unit := fun s => Done tt (f s).

Declare Scope kernel_scope.
Delimit Scope kernel_scope with kernel.
Notation "x <- m ;; k" := (bind m (fun x => k))
  (at level 100, m at next level, right associativity) : kernel_scope.
Notation "m ;;; k" := (bind m (fun _ => k))
  (at level 100, right associativity) : kernel_scope.
#[global] Open Scope kernel_scope.

(** [for_ l body]: the C loop over [l] whose body may leave the loop early;
    [Some r] is what the early exit carries. *)
Fixpoint for_ {S A B} (l : list A) (body : A -> M S (option B)) : M S (option B) :=
  match l with
  | [] => ret None
  | x :: l' =>
      r <- body x ;;
      match r with
      | Some b => ret (Some b)
      | None => for_ l' body
      end
  end.

(** [each l body]: the C loop over [l] that always runs to its end. *)
Fixpoint each {S A} (l : list A) (body : A -> M S unit) : M S unit :=
  match l with
  | [] => ret tt
  | x :: l' => body x ;;; each l' body
  end.

(** [lift get put m]: run a component's routine on its part of a larger
    state. *)
Definition lift {S T A} (proj : S -> T) (inj : T -> S -> S) (m : M T A) : M S A :=
  fun s => match m (proj s) with
           | Done a t => Done a (inj t s)
           | Panic msg => Panic msg
           | Sleep c t => Sleep c (inj t s)
           end.

(** ** Total correctness

    [runs m s Q]: from [s] the routine [m] returns (it neither panics nor
    sleeps), with a result and a state that satisfy [Q]. *)
Definition runs {S A} (m : M S A) (s : S) (Q : A -> S -> Prop) : Prop :=
  match m s with
  | Done a s' => Q a s'
  | _ => False
  end.

Lemma runs_done {S A} (m : M S A) s Q :
  runs m s Q <-> exists a s', m s = Done a s' /\ Q a s'.
Proof.
  unfold runs. destruct (m s) eqn:E; split; intros H; try done.
  - eauto.
  - destruct H as (a' & s' & [= <- <-] & HQ). done.
  - destruct H as (? & ? & ? & ?). done.
  - destruct H as (? & ? & ? & ?). done.
Qed.

Lemma runs_elim {S A} (m : M S A) s a s' Q : runs m s Q -> m s = Done a s' -> Q a s'.
Proof. unfold runs. intros H E. by rewrite E in H. Qed.

(** The state a run ends in, with a default where it does not end. *)
Definition final {S A} (m : M S A) (s : S) : S :=
  match m s with Done _ s' => s' | _ => s end.

Definition is_done {S A} (m : M S A) (s : S) : bool :=
  match m s with Done _ _ => true | _ => false end.

Lemma is_done_final {S A} (m : M S A) s : is_done m s = true -> exists a, m s = Done a (final m s).
Proof. unfold is_done, final. destruct (m s); [eauto|done|done]. Qed.

Lemma is_done_unit {S} (m : M S unit) s : is_done m s = true -> m s = Done tt (final m s).
Proof. intros [[] H]%is_done_final. done. Qed.

Lemma runs_final {S A} (m : M S A) s Q : runs m s Q -> exists a, Q a (final m s).
Proof. unfold runs, final. destruct (m s); [eauto|done|done]. Qed.

Lemma runs_ret {S A} (a : A) (s : S) (Q : A -> S -> Prop) : Q a s -> runs (ret a) s Q.
Proof. done. Qed.

Lemma runs_bind {S A B} (m : M S A) (k : A -> M S B) s Q :
  runs m s (fun a s' => runs (k a) s' Q) -> runs (bind m k) s Q.
Proof. unfold runs, bind. destruct (m s); done. Qed.

Lemma runs_bind_inv {S A B} (m : M S A) (k : A -> M S B) s Q :
  runs (bind m k) s Q -> runs m s (fun a s' => runs (k a) s' Q).
Proof. unfold runs, bind. destruct (m s); done. Qed.

Lemma bind_done {S A B} (m : M S A) (k : A -> M S B) s b s' :
  bind m k s = Done b s' -> exists a s1, m s = Done a s1 /\ k a s1 = Done b s'.
Proof. unfold bind. destruct (m s) as [a s1|msg|c s1]; [eauto|done|done]. Qed.

Lemma runs_mono {S A} (m : M S A) s (Q Q' : A -> S -> Prop) :
  runs m s Q -> (forall a s', Q a s' -> Q' a s') -> runs m s Q'.
Proof. unfold runs. destruct (m s); auto. Qed.

Lemma runs_seq {S A B} (m : M S A) (k : A -> M S B) s (R : A -> S -> Prop) Q :
  runs m s R -> (forall a s', R a s' -> runs (k a) s' Q) -> runs (bind m k) s Q.
Proof. intros H Hk. apply runs_bind. eapply runs_mono; eauto. Qed.

Lemma runs_assoc {S A B C} (m : M S A) (k : A -> M S B) (h : B -> M S C) s Q :
  runs (bind (bind m k) h) s Q -> runs (bind m (fun a => bind (k a) h)) s Q.
Proof. unfold runs, bind. by destruct (m s). Qed.

(** A loop that may end early, with an invariant on what is left of it. *)
Lemma runs_for {S A B} (l : list A) (body : A -> M S (option B)) (I : list A -> S -> Prop) s Q :
  I l s ->
  (forall x l' s, I (x :: l') s ->
     runs (body x) s (fun r s' => match r with Some b => Q (Some b) s' | None => I l' s' end)) ->
  (forall s', I [] s' -> Q None s') -> runs (for_ l body) s Q.
Proof.
  intros H0 Hstep Hend. revert s H0. induction l as [|x l IH]; intros s H0; cbn [for_].
  - apply runs_ret. by apply Hend.
  - eapply runs_seq; [by apply Hstep|]. cbv beta. intros [b|] s' H; [by apply runs_ret|by apply IH].
Qed.

Lemma runs_panic {S A B} (m : M S A) (k : A -> M S B) s msg :
  runs m s (fun a s' => k a s' = Panic msg) -> bind m k s = Panic msg.
Proof. unfold runs, bind. by destruct (m s). Qed.

(** A routine that ends in a unit call. *)
Lemma runs_tail {S} (m : M S unit) s (Q : unit -> S -> Prop) : runs (m ;;; ret tt) s Q -> runs m s Q.
Proof. unfold runs, bind, ret. by destruct (m s) as [[] ?|?|? ?]. Qed.
Lemma runs_tail_ret {S A} (m : M S A) s (Q : A -> S -> Prop) : runs (x <- m ;; ret x) s Q -> runs m s Q.
Proof. unfold runs, bind, ret. by destruct (m s) as [? ?|?|? ?]. Qed.
Lemma runs_assoc_ret {S A B} (m1 m2 m3 : M S unit) (a : A) (k : A -> M S B) s (Q : B -> S -> Prop) :
  runs (m1 ;;; m2 ;;; m3 ;;; k a) s Q ->
  runs (m1 ;;; m2 ;;; ret a) s (fun x s' => runs (m3 ;;; k x) s' Q).
Proof.
  unfold runs, bind, ret. destruct (m1 s) as [_ s1|?|? ?]; try done. by destruct (m2 s1) as [_ s2|?|? ?].
Qed.
Lemma runs_tail3 {S} (a b c : M S unit) s (Q : unit -> S -> Prop) :
  runs (a ;;; b ;;; c ;;; ret tt) s Q -> runs (a ;;; b ;;; c) s Q.
Proof.
  unfold runs, bind, ret. destruct (a s) as [_ s1|?|? ?]; try done. destruct (b s1) as [_ s2|?|? ?]; try done.
  by destruct (c s2) as [[] ?|?|? ?].
Qed.

Lemma runs_gets {S A} (f : S -> A) (s : S) (Q : A -> S -> Prop) :
  Q (f s) s -> runs (gets f) s Q.
Proof. done. Qed.

Lemma runs_modify {S} (f : S -> S) (s : S) (Q : unit -> S -> Prop) :
  Q tt (f s) -> runs (modify f) s Q.
Proof. done. Qed.

Lemma runs_conj {S A} (m : M S A) s (Q1 Q2 : A -> S -> Prop) :
  runs m s Q1 -> runs m s Q2 -> runs m s (fun a s' => Q1 a s' /\ Q2 a s').
Proof. unfold runs. destruct (m s); done. Qed.

Lemma runs_lift {S T A} (proj : S -> T) inj (m : M T A) s (Q : A -> S -> Prop) :
  runs m (proj s) (fun a t => Q a (inj t s)) -> runs (lift proj inj m) s Q.
Proof. unfold runs, lift. destruct (m (proj s)); done. Qed.

(** A loop that keeps an invariant [I] indexed by the elements still to do. *)
Lemma runs_each {S A} (l : list A) (body : A -> M S unit) (I : list A -> S -> Prop) s Q :
  I l s ->
  (forall x l' s, I (x :: l') s -> runs (body x) s (fun _ s' => I l' s')) ->
  (forall s', I [] s' -> Q tt s') ->
  runs (each l body) s Q.
Proof.
  intros HI Hstep Hend. revert s HI.
  induction l as [|x l IH]; intros s HI; cbn.
  - auto.
  - eapply runs_seq; [by apply Hstep|]. intros ? s' HI'. by apply IH.
Qed.

(** ** Partial correctness

    [hoare P m Q]: whenever [m] returns from a state with [P], the result and
    the final state satisfy [Q].  Used for invariants of routines that may
    also panic or sleep. *)
Definition hoare {S A} (P : S -> Prop) (m : M S A) (Q : A -> S -> Prop) : Prop :=
  forall s, P s -> match m s with Done a s' => Q a s' | _ => True end.

Lemma hoare_ret {S A} (a : A) (P : S -> Prop) Q : (forall s, P s -> Q a s) -> hoare P (ret a) Q.
Proof. intros H s. apply H. Qed.
Lemma hoare_panic {S A} msg (P : S -> Prop) (Q : A -> S -> Prop) : hoare P (panic msg) Q.
Proof. done. Qed.
Lemma hoare_bind {S A B} (m : M S A) (k : A -> M S B) P R Q :
  hoare P m R -> (forall a, hoare (R a) (k a) Q) -> hoare P (bind m k) Q.
Proof.
  intros H Hk s Hs. specialize (H s Hs). unfold bind. destruct (m s) as [a s'|msg|c s']; [|done|done].
  by apply (Hk a s').
Qed.
Lemma hoare_seq {S A B} (m : M S A) (k : A -> M S B) P (R : S -> Prop) Q :
  hoare P m (fun _ => R) -> (forall a, hoare R (k a) Q) -> hoare P (bind m k) Q.
Proof. apply hoare_bind. Qed.
Lemma hoare_gets {S A} (f : S -> A) (P : S -> Prop) Q : (forall s, P s -> Q (f s) s) -> hoare P (gets f) Q.
Proof. intros H s. apply H. Qed.
Lemma hoare_modify {S} (f : S -> S) (P : S -> Prop) (Q : unit -> S -> Prop) :
  (forall s, P s -> Q tt (f s)) -> hoare P (modify f) Q.
Proof. intros H s. apply H. Qed.
Lemma hoare_conseq {S A} (m : M S A) (P P' : S -> Prop) (Q Q' : A -> S -> Prop) :
  hoare P m Q -> (forall s, P' s -> P s) -> (forall a s, Q a s -> Q' a s) -> hoare P' m Q'.
Proof. intros H HP HQ s Hs. specialize (H s (HP s Hs)). destruct (m s); auto. Qed.
Lemma hoare_for {S A B} (l : list A) (body : A -> M S (option B)) (P : S -> Prop) :
  (forall x, hoare P (body x) (fun _ => P)) -> hoare P (for_ l body) (fun _ => P).
Proof.
  intros H. induction l as [|x l IH]; cbn [for_]; [by apply hoare_ret|].
  eapply hoare_bind; [apply H|]. intros [b|]; [by apply hoare_ret|done].
Qed.

Lemma hoare_both {S A} (m : M S A) (P P' : S -> Prop) (Q Q' : A -> S -> Prop) :
  hoare P m Q -> hoare P' m Q' -> hoare (fun s => P s /\ P' s) m (fun a s => Q a s /\ Q' a s).
Proof. intros H H' s [HP HP']. specialize (H s HP). specialize (H' s HP'). by destruct (m s). Qed.

Lemma hoare_elim {S A} (P : S -> Prop) (m : M S A) Q s0 a s1 : hoare P m Q -> P s0 -> m s0 = Done a s1 -> Q a s1.
Proof. intros H HP E. specialize (H s0 HP). by rewrite E in H. Qed.

(** ** Flag words *)

Lemma test_bit (f k : Z) : 0 <= k -> test f (2 ^ k) = Z.testbit f k.
Proof.
  intros Hk. unfold test.
  destruct (Z.testbit f k) eqn:E.
  - destruct (Z.eqb_spec (Z.land f (2 ^ k)) 0) as [H|H]; [|done].
    assert (Hb : Z.testbit (Z.land f (2 ^ k)) k = false) by (rewrite H; apply Z.bits_0).
    rewrite Z.land_spec, E, Z.pow2_bits_true in Hb by done. done.
  - destruct (Z.eqb_spec (Z.land f (2 ^ k)) 0) as [H|H]; [done|].
    exfalso. apply H. apply Z.bits_inj_iff. intros i.
    rewrite Z.bits_0, Z.land_spec.
    destruct (decide (i = k)) as [->|Hne]; [by rewrite E|].
    rewrite Z.pow2_bits_false by done. apply andb_false_r.
Qed.

Lemma test_1 f : test f 1 = Z.testbit f 0.
Proof. exact (test_bit f 0 ltac:(lia)). Qed.
Lemma test_2 f : test f 2 = Z.testbit f 1.
Proof. exact (test_bit f 1 ltac:(lia)). Qed.
Lemma test_4 f : test f 4 = Z.testbit f 2.
Proof. exact (test_bit f 2 ltac:(lia)). Qed.

(** [flag_simpl] computes the value of a flag test on an updated flag word. *)
Ltac flag_simpl :=
  rewrite ?test_1, ?test_2, ?test_4, ?Z.lor_spec, ?Z.land_spec, ?Z.lnot_spec in * by lia;
  repeat match goal with
    | |- context [Z.testbit (Zpos ?p) ?k] =>
        let v := eval vm_compute in (Z.testbit (Zpos p) k) in
        change (Z.testbit (Zpos p) k) with v
    | |- context [Z.testbit 0 ?k] => rewrite (Z.bits_0 k)
    | H : context [Z.testbit (Zpos ?p) ?k] |- _ =>
        let v := eval vm_compute in (Z.testbit (Zpos p) k) in
        change (Z.testbit (Zpos p) k) with v in H
    end;
  rewrite ?andb_true_r, ?andb_false_r, ?orb_true_r, ?orb_false_r in *; cbn [negb andb orb] in *.

(** ** Machine-integer facts *)

Lemma u32_range x : 0 <= u32 x < 4294967296.
Proof. unfold u32. apply Z.mod_pos_bound. lia. Qed.
Lemma u32_id x : 0 <= x < 4294967296 -> u32 x = x.
Proof. apply Z.mod_small. Qed.
Lemma u32_idemp x : u32 (u32 x) = u32 x.
Proof. apply u32_id, u32_range. Qed.
Lemma u32_mod n x : 0 < n -> (n | 4294967296) -> u32 x mod n = x mod n.
Proof. intros Hn Hd. unfold u32. symmetry. apply Znumtheory.Zmod_div_mod; [done|lia|done]. Qed.
Lemma u32_add a b : u32 (u32 a + b) = u32 (a + b).
Proof. unfold u32. by rewrite Zplus_mod_idemp_l. Qed.
Lemma u32_sub a b : u32 (u32 a - b) = u32 (a - b).
Proof. unfold u32. by rewrite Zminus_mod_idemp_l. Qed.
Lemma u32_diff a b : u32 (u32 a - u32 b) = u32 (a - b).
Proof. unfold u32. by rewrite <- Zminus_mod. Qed.

(** In a window of [n] offsets the residues differ. *)
Lemma mod_window n a i j : 0 <= i < n -> 0 <= j < n -> (a + i) mod n = (a + j) mod n -> i = j.
Proof.
  intros Hi Hj E. assert (H : (a + i - (a + j)) mod n = 0) by (rewrite Zminus_mod, E, Z.sub_diag; apply Zmod_0_l).
  replace (a + i - (a + j)) with (i - j) in H by lia.
  destruct (Z_lt_le_dec i j); [rewrite <- (Z.mod_add _ 1), Z.mod_small in H by lia; lia|rewrite Z.mod_small in H by lia; lia].
Qed.
Lemma s32_id x : -2147483648 <= x < 2147483648 -> s32 x = x.
Proof. intros H. unfold s32. rewrite Z.mod_small; lia. Qed.
Lemma s32_range x : -2147483648 <= s32 x < 2147483648.
Proof. unfold s32. pose proof (Z.mod_pos_bound (x + 2147483648) 4294967296). lia. Qed.

(** ** Little-endian words *)

Lemma length_le_bytes n v : length (le_bytes n v) = n.
Proof. revert v. induction n; intros; cbn; auto. Qed.

Lemma le_bytes_ok n v : Forall byte_ok (le_bytes n v).
Proof.
  revert v. induction n as [|n IH]; intros v; cbn; constructor; [|apply IH].
  unfold byte_ok. apply Z.mod_pos_bound. lia.
Qed.

Lemma le_val_bytes n v : le_val (le_bytes n v) = v mod 256 ^ Z.of_nat n.
Proof.
  revert v. induction n as [|n IH]; intros v.
  - cbn. by rewrite Z.mod_1_r.
  - cbn [le_bytes le_val]. rewrite IH, Nat2Z.inj_succ, Z.pow_succ_r by lia.
    rewrite Z.rem_mul_r by (pose proof (Z.pow_pos_nonneg 256 (Z.of_nat n)); lia).
    lia.
Qed.

Lemma le_val_range l : Forall byte_ok l -> 0 <= le_val l < 256 ^ Z.of_nat (length l).
Proof.
  induction 1 as [|b l Hb Hl IH]; [cbn; lia|].
  cbn [le_val length]. rewrite Nat2Z.inj_succ, Z.pow_succ_r by lia.
  unfold byte_ok in Hb. lia.
Qed.

Lemma le_bytes_val l : Forall byte_ok l -> le_bytes (length l) (le_val l) = l.
Proof.
  induction 1 as [|b l Hb Hl IH]; cbn [le_bytes le_val length]; [done|].
  unfold byte_ok in Hb.
  rewrite (Z.mul_comm 256), Z.mod_add, Z.div_add, Z.mod_small, Z.div_small, Z.add_0_l by lia.
  by rewrite IH.
Qed.

(** ** Overwriting a range *)

Lemma length_splice l off d :
  (off + length d <= length l)%nat -> length (splice l off d) = length l.
Proof. intros H. unfold splice. rewrite !length_app, length_take, length_drop. lia. Qed.

Lemma slice_splice_eq l off d n :
  (off + length d <= length l)%nat -> n = length d -> slice (splice l off d) off n = d.
Proof.
  intros H ->. unfold slice, splice.
  rewrite drop_app_length', take_app_length; [done|].
  rewrite length_take. lia.
Qed.

Lemma slice_splice_lt l off d o n :
  (o + n <= off)%nat -> (off + length d <= length l)%nat ->
  slice (splice l off d) o n = slice l o n.
Proof.
  intros H Hl. unfold slice, splice.
  rewrite drop_app_le by (rewrite length_take; lia).
  rewrite take_app_le by (rewrite length_drop, length_take; lia).
  rewrite skipn_firstn_comm, take_take. f_equal. lia.
Qed.

Lemma slice_splice_gt l off d o n :
  (off + length d <= o)%nat -> (off + length d <= length l)%nat ->
  slice (splice l off d) o n = slice l o n.
Proof.
  intros H Hl. unfold slice, splice. f_equal.
  rewrite app_assoc, drop_app_ge by (rewrite length_app, length_take; lia).
  rewrite drop_drop. f_equal. rewrite length_app, length_take. lia.
Qed.

Lemma lookup_splice l off d i :
  (off + length d <= length l)%nat ->
  splice l off d !! i =
    if decide ((off <= i)%nat /\ (i < off + length d)%nat) then d !! (i - off)%nat else l !! i.
Proof.
  intros Hl. unfold splice. case_decide as Hi.
  - rewrite lookup_app_r by (rewrite length_take; lia).
    rewrite lookup_app_l by (rewrite length_take; lia).
    f_equal. rewrite length_take. lia.
  - destruct (decide (i < off)%nat).
    + rewrite lookup_app_l by (rewrite length_take; lia).
      by rewrite lookup_take_lt by lia.
    + rewrite lookup_app_r by (rewrite length_take; lia).
      rewrite lookup_app_r by (rewrite length_take; lia).
      rewrite lookup_drop. f_equal. rewrite length_take. lia.
Qed.

Lemma Forall_splice (P : Z -> Prop) l off d :
  Forall P l -> Forall P d -> Forall P (splice l off d).
Proof.
  intros Hl Hd. unfold splice. rewrite !Forall_app.
  auto using Forall_take, Forall_drop.
Qed.

Lemma get32_put32_eq l off v :
  (off + 4 <= length l)%nat -> get32 (put32 l off v) off = u32 v.
Proof.
  intros H. unfold get32, put32.
  rewrite slice_splice_eq by (rewrite ?length_le_bytes; lia).
  apply (le_val_bytes 4).
Qed.

Lemma get32_put32_ne l off off' v :
  (off + 4 <= length l)%nat -> (off' + 4 <= off \/ off + 4 <= off')%nat ->
  get32 (put32 l off v) off' = get32 l off'.
Proof.
  intros H [H1|H1]; unfold get32, put32.
  - by rewrite slice_splice_lt by (rewrite ?length_le_bytes; lia).
  - by rewrite slice_splice_gt by (rewrite ?length_le_bytes; lia).
Qed.

Lemma length_put32 l off v :
  (off + 4 <= length l)%nat -> length (put32 l off v) = length l.
Proof. intros H. apply length_splice. rewrite length_le_bytes. lia. Qed.

Lemma length_slice l off n : (off + n <= length l)%nat -> length (slice l off n) = n.
Proof. intros H. unfold slice. rewrite length_take, length_drop. lia. Qed.

Lemma nthZ_slice l a m j : 0 <= j < Z.of_nat m -> 0 <= a -> nthZ (slice l (Z.to_nat a) m) j = nthZ l (a + j).
Proof.
  intros Hj Ha. unfold nthZ, slice. rewrite !nth_lookup, lookup_take_lt, lookup_drop by lia.
  by rewrite Z2Nat.inj_add by lia.
Qed.

Create HintDb kernel.
#[export] Hint Resolve u32_range le_bytes_ok Forall_splice : kernel.
#[export] Hint Rewrite length_le_bytes length_splice length_put32 : kernel.

(** ** Searching an index range *)

Lemma find_seq_some f n i : List.find f (seq 0 n) = Some i -> (i < n)%nat /\ f i = true.
Proof. intros H. apply find_some in H as [H1 H2]. apply in_seq in H1. split; [lia|done]. Qed.

Lemma find_seq_none f n i : List.find f (seq 0 n) = None -> (i < n)%nat -> f i = false.
Proof. intros H Hi. apply (find_none _ _ H). apply in_seq. lia. Qed.

Lemma filter_seq_lt f n :
  (length (List.filter f (seq 0 n)) < n)%nat -> exists i, (i < n)%nat /\ f i = false.
Proof.
  intros H. destruct (List.find (fun i => negb (f i)) (seq 0 n)) as [i|] eqn:E.
  - apply find_seq_some in E as [Hi Hp]. exists i. split; [done|]. by apply negb_true_iff.
  - exfalso. assert (Hall : List.filter f (seq 0 n) = seq 0 n).
    { apply forallb_filter_id, forallb_forall. intros i Hi.
      apply (find_none _ _ E i), negb_false_iff in Hi. done. }
    rewrite Hall, length_seq in H. lia.
Qed.

Lemma filter_seq_inj {K} (key : nat -> K) f n (ks : list K) :
  (forall i j, (i < n)%nat -> (j < n)%nat -> f i = true -> f j = true -> key i = key j -> i = j) ->
  (forall i, (i < n)%nat -> f i = true -> key i ∈ ks) ->
  (length (List.filter f (seq 0 n)) <= length ks)%nat.
Proof.
  intros Hinj Hin. rewrite <- (length_map key). apply NoDup_incl_length.
  - apply NoDup_ListNoDup, NoDup_fmap_2_strong.
    + intros i j Hi Hj. apply list_elem_of_In, filter_In in Hi as [Hi ?].
      apply list_elem_of_In, filter_In in Hj as [Hj ?]. apply in_seq in Hi, Hj.
      apply Hinj; [lia|lia|done|done].
    + apply NoDup_ListNoDup, List.NoDup_filter, NoDup_ListNoDup, NoDup_seq.
  - intros k Hk. apply in_map_iff in Hk as (i & <- & Hi). apply filter_In in Hi as [Hi Hp].
    apply in_seq in Hi. apply list_elem_of_In, Hin; [lia|done].
Qed.

Lemma size_add (b : Z) (L : gset Z) : (size ({[b]} ∪ L) <= S (size L))%nat.
Proof.
  rewrite size_union_alt, size_singleton. pose proof (subseteq_size (L ∖ {[b]}) L ltac:(set_solver)). lia.
Qed.
