(* ===== verification/Params.v ===== *)
(** * Constants of param.h, fs.h, buf.h, fcntl.h and mmu.h *)

From S2P Require Import Prelude.

(** param.h *)
Definition NPROC : nat := 64.
Definition KSTACKSIZE : Z := 4096.
Definition NCPU : nat := 8.
Definition NOFILE : nat := 16.
Definition NFILE : nat := 100.
Definition NINODE : nat := 50.
Definition NDEV : Z := 10.
Definition ROOTDEV : Z := 1.
Definition MAXARG : nat := 32.
Definition MAXOPBLOCKS : Z := 10.
Definition LOGSIZE : Z := MAXOPBLOCKS * 3.
Definition NBUF : nat := 30.
Definition FSSIZE : Z := 1000.

(** fs.h *)
Definition ROOTINO : Z := 1.
Definition BSIZE : Z := 512.
Definition NDIRECT : Z := 12.
Definition NINDIRECT : Z := 128.
Definition MAXFILE : Z := NDIRECT + NINDIRECT.
Definition DIRSIZ : nat := 14.

(** buf.h *)
Definition B_BUSY : Z := 1.
Definition B_VALID : Z := 2.
Definition B_DIRTY : Z := 4.

(** stat.h *)
Definition T_DIR : Z := 1.
Definition T_FILE : Z := 2.
Definition T_DEV : Z := 3.

(** A disk block and the block of zeroes. *)
Definition block_ok (d : list Z) : Prop := length d = 512%nat /\ Forall byte_ok d.
Definition zero_block : list Z := replicate 512 0.

Lemma zero_block_ok : block_ok zero_block.
Proof.
  split; [apply length_replicate|]. apply Forall_replicate. unfold byte_ok. lia.
Qed.
#[export] Hint Resolve zero_block_ok : kernel.

(** fcntl.h *)
Definition O_RDONLY : Z := 0.
Definition O_WRONLY : Z := 1.
Definition O_RDWR : Z := 2.
Definition O_CREATE : Z := 512.
