(* ===== verification/Cstr.v ===== *)
(** * Bytes and C strings (string.c, ulib.c)

    Memory is a function from addresses to bytes.  The routines write it the
    way the code does, byte by byte or word by word; the lemmas say what the
    memory holds afterwards. *)

From S2P Require Import Prelude.

Definition mem := Z -> Z.

(** [*a = v] for a char. *)
Definition st8 (m : mem) (a v : Z) : mem := fun x => if x =? a then u8 v else m x.

Definition mem_ok (m : mem) : Prop := forall a, byte_ok (m a).

(** The bytes from address [s] on. *)
Definition at_ (m : mem) (s : Z) : nat -> Z := fun i => m (s + Z.of_nat i).

(** ** x86.h *)

Fixpoint stosb (m : mem) (addr data : Z) (cnt : nat) : mem :=
  match cnt with
  | O => m
  | S n => stosb (st8 m addr data) (addr + 1) data n
  end.

Definition st32 (m : mem) (a v : Z) : mem :=
  st8 (st8 (st8 (st8 m a v) (a + 1) (Z.shiftr v 8)) (a + 2) (Z.shiftr v 16)) (a + 3) (Z.shiftr v 24).

Fixpoint stosl (m : mem) (addr data : Z) (cnt : nat) : mem :=
  match cnt with
  | O => m
  | S n => stosl (st32 m addr data) (addr + 4) data n
  end.

(** ** string.c *)

Definition memset (m : mem) (dst c : Z) (n : nat) : mem :=
  if (dst mod 4 =? 0) && (Z.of_nat n mod 4 =? 0) then
    let c := Z.land c 255 in
    stosl m dst (Z.lor (Z.lor (Z.lor (Z.shiftl c 24) (Z.shiftl c 16)) (Z.shiftl c 8)) c) (n / 4)
  else stosb m dst c n.

Fixpoint memcmp (m : mem) (s1 s2 : Z) (n : nat) : Z :=
  match n with
  | O => 0
  | S n => if negb (m s1 =? m s2) then m s1 - m s2 else memcmp m (s1 + 1) (s2 + 1) n
  end.

(** [while(n-- > 0) *d++ = *s++;] and the copy from the end. *)
Fixpoint copy_up (m : mem) (d s : Z) (n : nat) : mem :=
  match n with
  | O => m
  | S n => copy_up (st8 m d (m s)) (d + 1) (s + 1) n
  end.

Fixpoint copy_down (m : mem) (d s : Z) (n : nat) : mem :=
  match n with
  | O => m
  | S n => copy_down (st8 m (d - 1) (m (s - 1))) (d - 1) (s - 1) n
  end.

Definition memmove (m : mem) (dst src : Z) (n : nat) : mem :=
  if (src <? dst) && (src + Z.of_nat n >? dst)
  then copy_down m (dst + Z.of_nat n) (src + Z.of_nat n) n
  else copy_up m dst src n.

Definition memcpy (m : mem) (dst src : Z) (n : nat) : mem := memmove m dst src n.

(** [p] and [q] give the bytes the two pointers walk over. *)
Fixpoint strncmp (p q : nat -> Z) (n : nat) : Z :=
  match n with
  | O => 0
  | S n' =>
      if negb (p 0%nat =? 0) && (p 0%nat =? q 0%nat)
      then strncmp (fun i => p (S i)) (fun i => q (S i)) n'
      else p 0%nat - q 0%nat
  end.

(** The two loops of strncpy. *)
Fixpoint zero_fill (m : mem) (s : Z) (n : nat) : mem :=
  match n with
  | O => m
  | S n => zero_fill (st8 m s 0) (s + 1) n
  end.

Fixpoint strncpy (m : mem) (s t : Z) (n : nat) : mem :=
  match n with
  | O => m
  | S n =>
      let m := st8 m s (m t) in
      if m s =? 0 then zero_fill m (s + 1) n else strncpy m (s + 1) (t + 1) n
  end.

(** [while(--n > 0 && ( *s++ = *t++) != 0); *s = 0;] with [n] already
    decremented. *)
Fixpoint safe_loop (m : mem) (s t : Z) (n : nat) : mem :=
  match n with
  | O => st8 m s 0
  | S n =>
      let m := st8 m s (m t) in
      if m s =? 0 then st8 m (s + 1) 0 else safe_loop m (s + 1) (t + 1) n
  end.

Definition safestrcpy (m : mem) (s t n : Z) : mem :=
  if n <=? 0 then m else safe_loop m s t (Z.to_nat (n - 1)).

(** [for(n = 0; s[n]; n++);] looking at no more than [fuel] bytes. *)
Fixpoint strlen (fuel : nat) (s : nat -> Z) : option nat :=
  match fuel with
  | O => None
  | S f => if s 0%nat =? 0 then Some 0%nat else S <$> strlen f (fun i => s (S i))
  end.

(** ** ulib.c *)

Module Ulib.
Fixpoint strcpy (fuel : nat) (m : mem) (s t : Z) : option mem :=
  match fuel with
  | O => None
  | S f =>
      let m := st8 m s (m t) in
      if m s =? 0 then Some m else strcpy f m (s + 1) (t + 1)
  end.

Fixpoint strcmp (fuel : nat) (p q : nat -> Z) : option Z :=
  match fuel with
  | O => None
  | S f =>
      if negb (p 0%nat =? 0) && (p 0%nat =? q 0%nat)
      then strcmp f (fun i => p (S i)) (fun i => q (S i))
      else Some (p 0%nat - q 0%nat)
  end.

Definition u_memset (m : mem) (dst c : Z) (n : nat) : mem := stosb m dst c n.

(** The index of the first [c], [None] for the null pointer. *)
Fixpoint strchr (fuel : nat) (s : nat -> Z) (c : Z) : option (option nat) :=
  match fuel with
  | O => None
  | S f =>
      if s 0%nat =? 0 then Some None
      else if s 0%nat =? c then Some (Some 0%nat)
      else option_map S <$> strchr f (fun i => s (S i)) c
  end.

(** Digits accumulate in a 32-bit int. *)
Fixpoint atoi_loop (fuel : nat) (s : nat -> Z) (n : Z) : option Z :=
  match fuel with
  | O => None
  | S f =>
      if (48 <=? s 0%nat) && (s 0%nat <=? 57)
      then atoi_loop f (fun i => s (S i)) (s32 (n * 10 + s 0%nat - 48))
      else Some n
  end.
Definition atoi (fuel : nat) (s : nat -> Z) : option Z := atoi_loop fuel s 0.

Definition u_memmove (m : mem) (dst src n : Z) : mem := copy_up m dst src (Z.to_nat n).
End Ulib.

(** ** What the routines leave in memory *)

Lemma u8_ok b : byte_ok b -> u8 b = b.
Proof. intros H. apply Z.mod_small, H. Qed.

Lemma st8_eq m a v : st8 m a v a = u8 v.
Proof. unfold st8. by rewrite Z.eqb_refl. Qed.
Lemma st8_ne m a v x : x <> a -> st8 m a v x = m x.
Proof. intros H. unfold st8. by apply Z.eqb_neq in H as ->. Qed.
Lemma st8_ok m a v : mem_ok m -> mem_ok (st8 m a v).
Proof. intros H x. unfold st8, u8. destruct (_ =? _); [apply Z.mod_pos_bound; lia|apply H]. Qed.
#[export] Hint Resolve st8_ok : kernel.

(** [x] lies in the [n] bytes at [a]. *)
Definition inside (a : Z) (n : nat) (x : Z) : bool := (a <=? x) && (x <? a + Z.of_nat n).

Ltac inside_cases :=
  unfold inside; repeat match goal with
  | |- context [?a <=? ?b] => destruct (Z.leb_spec a b)
  | |- context [?a <? ?b] => destruct (Z.ltb_spec a b)
  end; cbn [andb]; try lia.

Lemma stosb_spec m a d n x : stosb m a d n x = if inside a n x then u8 d else m x.
Proof.
  revert m a. induction n as [|n IH]; intros m a; cbn [stosb]; [by inside_cases|].
  rewrite IH. destruct (Z.eq_dec x a) as [->|Hne].
  - rewrite st8_eq. by inside_cases.
  - rewrite st8_ne by done. by inside_cases.
Qed.

Lemma st32_spec m a v x : st32 m a v x = if inside a 4 x then u8 (Z.shiftr v (8 * (x - a))) else m x.
Proof.
  unfold st32, inside, st8. repeat case (Z.eqb_spec x _); intros; subst; inside_cases; try done;
    do 2 f_equal; rewrite ?Z.shiftr_0_r; f_equal; lia || idtac.
  rewrite Z.sub_diag. cbn. by rewrite Z.shiftr_0_r.
Qed.

Lemma byte4 c i : 0 <= c < 256 -> 0 <= i < 4 ->
  u8 (Z.shiftr (Z.lor (Z.lor (Z.lor (Z.shiftl c 24) (Z.shiftl c 16)) (Z.shiftl c 8)) c) (8 * i)) = c.
Proof.
  intros Hc Hi. unfold u8. change 256 with (2 ^ 8) in *. rewrite <- Z.land_ones by lia. apply Z.bits_inj'. intros k Hk.
  rewrite Z.land_spec, Z.shiftr_spec, !Z.lor_spec, !Z.shiftl_spec by lia.
  assert (Hhi : forall j, 8 <= j -> Z.testbit c j = false).
  { intros j Hj. apply Z.bits_above_log2; [lia|]. destruct (Z.eq_dec c 0) as [->|]; [cbn; lia|].
    apply Z.log2_lt_pow2; [lia|]. eapply Z.lt_le_trans; [apply Hc|]. apply Z.pow_le_mono_r; lia. }
  destruct (Z_lt_le_dec k 8) as [Hk8|Hk8].
  - rewrite Z.ones_spec_low by lia. rewrite andb_true_r.
    assert (Hl : forall j, j < 0 -> Z.testbit c j = false) by (intros j Hj; by apply Z.testbit_neg_r).
    assert (Hcase : i = 0 \/ i = 1 \/ i = 2 \/ i = 3) by lia.
    destruct Hcase as [-> | [-> | [-> | ->]]];
      rewrite ?(Hl (_ - 24)), ?(Hl (_ - 16)), ?(Hl (_ - 8)) by lia;
      rewrite ?(Hhi (k + _ - 16)), ?(Hhi (k + _ - 8)), ?(Hhi (k + 8 * _)) by lia;
      rewrite ?orb_false_l, ?orb_false_r; f_equal; lia.
  - rewrite Z.ones_spec_high, andb_false_r by lia. symmetry. by apply Hhi.
Qed.

Lemma stosl_spec m a w n x :
  stosl m a w n x = if inside a (4 * n) x then u8 (Z.shiftr w (8 * ((x - a) mod 4))) else m x.
Proof.
  revert m a. induction n as [|n IH]; intros m a; cbn [stosl]; [by inside_cases|].
  rewrite IH, st32_spec. destruct (Z_lt_le_dec x (a + 4)) as [Hx|Hx].
  - replace (inside (a + 4) (4 * n) x) with false by (symmetry; by inside_cases).
    replace (inside a (4 * S n) x) with (inside a 4 x) by (by inside_cases).
    unfold inside. destruct (Z.leb_spec a x); [|done]. cbn [andb]. destruct (_ <? _); [|done].
    by rewrite Z.mod_small by lia.
  - replace (inside a 4 x) with false by (symmetry; by inside_cases).
    replace (inside a (4 * S n) x) with (inside (a + 4) (4 * n) x) by (by inside_cases).
    replace (x - a) with (x - (a + 4) + 1 * 4) by lia. by rewrite Z.mod_add by lia.
Qed.

(** memset fills exactly the [n] bytes at [dst] with the low byte of [c],
    whether it stores words (aligned address and length) or bytes. *)
Lemma memset_bytes m dst c n x : memset m dst c n x = if inside dst n x then u8 c else m x.
Proof.
  unfold memset. destruct (_ && _) eqn:E; [|apply stosb_spec].
  apply andb_true_iff in E as [_ Hn%Z.eqb_eq]. rewrite stosl_spec.
  assert (En : (4 * (n / 4) = n)%nat).
  { apply Nat2Z.inj. rewrite Nat2Z.inj_mul, Nat2Z.inj_div. pose proof (Z.div_mod (Z.of_nat n) 4). lia. }
  rewrite En. destruct (inside dst n x); [|done].
  assert (E : Z.land c 255 = u8 c) by (unfold u8; change 255 with (Z.ones 8); by rewrite Z.land_ones by lia).
  rewrite E. apply byte4; [apply Z.mod_pos_bound; lia|]. apply Z.mod_pos_bound. lia.
Qed.

(** Copying upwards is safe unless the destination starts inside the source
    and after its start; copying downwards, unless it starts before it. *)
Lemma copy_up_spec m d s n x : mem_ok m -> d <= s \/ s + Z.of_nat n <= d ->
  copy_up m d s n x = if inside d n x then m (s + (x - d)) else m x.
Proof.
  revert m d s. induction n as [|n IH]; intros m d s Hm Hd; cbn [copy_up]; [by inside_cases|].
  rewrite IH by (auto with kernel || lia). destruct (Z.eq_dec x d) as [->|Hne].
  - rewrite st8_eq, u8_ok, Z.sub_diag, Z.add_0_r by apply Hm. by inside_cases.
  - replace (inside d (S n) x) with (inside (d + 1) n x) by (by inside_cases).
    destruct (inside (d + 1) n x) eqn:E; [|by rewrite st8_ne].
    unfold inside in E. apply andb_true_iff in E as [E1%Z.leb_le E2%Z.ltb_lt].
    rewrite st8_ne by lia. f_equal. lia.
Qed.

Lemma copy_down_spec m d s n x : mem_ok m -> s <= d ->
  copy_down m d s n x = if inside (d - Z.of_nat n) n x then m (s - (d - x)) else m x.
Proof.
  revert m d s. induction n as [|n IH]; intros m d s Hm Hd; cbn [copy_down]; [by inside_cases|].
  rewrite IH by (auto with kernel || lia). destruct (Z.eq_dec x (d - 1)) as [->|Hne].
  - rewrite st8_eq, u8_ok by apply Hm. replace (s - (d - (d - 1))) with (s - 1) by lia. by inside_cases.
  - replace (inside (d - Z.of_nat (S n)) (S n) x) with (inside (d - 1 - Z.of_nat n) n x) by (by inside_cases).
    destruct (inside (d - 1 - Z.of_nat n) n x) eqn:E; [|by rewrite st8_ne].
    unfold inside in E. apply andb_true_iff in E as [E1%Z.leb_le E2%Z.ltb_lt].
    rewrite st8_ne by lia. f_equal. lia.
Qed.

Lemma memmove_bytes m dst src n x : mem_ok m ->
  memmove m dst src n x = if inside dst n x then m (src + (x - dst)) else m x.
Proof.
  intros Hm. unfold memmove. destruct (Z.ltb_spec src dst) as [H1|H1]; cbn [andb].
  - destruct (Z.gtb_spec (src + Z.of_nat n) dst).
    + rewrite copy_down_spec by (done || lia). replace (dst + Z.of_nat n - Z.of_nat n) with dst by lia.
      destruct (inside dst n x); [f_equal; lia|done].
    + apply copy_up_spec; [done|lia].
  - apply copy_up_spec; [done|lia].
Qed.

(** memmove copies the [n] bytes at [src] as they were before the call,
    however the two areas overlap. *)
Theorem memmove_spec m dst src n : mem_ok m ->
  (forall i, 0 <= i < Z.of_nat n -> memmove m dst src n (dst + i) = m (src + i)) /\
  (forall x, ~ (dst <= x < dst + Z.of_nat n) -> memmove m dst src n x = m x).
Proof.
  intros Hm. split; intros x Hx; rewrite memmove_bytes by done.
  - replace (inside dst n (dst + x)) with true; [f_equal; lia|]. symmetry. inside_cases; lia.
  - replace (inside dst n x) with false; [done|]. symmetry. inside_cases; lia.
Qed.

Lemma memmove_spec_witness : memmove (fun a => a mod 256) 12 10 8 15 = 13.
Proof.
  destruct (memmove_spec (fun a => a mod 256) 12 10 8) as [H _]; [intros a; apply Z.mod_pos_bound; lia|].
  apply (H 3). lia.
Defined.

(** The user library's memmove only copies upwards: it is correct unless the
    destination starts inside the source. *)
Lemma ulib_memmove_spec m dst src n x : mem_ok m -> 0 <= n -> dst <= src \/ src + n <= dst ->
  Ulib.u_memmove m dst src n x = if inside dst (Z.to_nat n) x then m (src + (x - dst)) else m x.
Proof. intros Hm Hn Hd. apply copy_up_spec; [done|]. rewrite Z2Nat.id; lia. Qed.

(** ** Strings *)

(** The string a pointer denotes: its bytes before the first NUL, at most [n]. *)
Fixpoint cstr (p : nat -> Z) (n : nat) : list Z :=
  match n with
  | O => []
  | S n => if p 0%nat =? 0 then [] else p 0%nat :: cstr (fun i => p (S i)) n
  end.

Lemma cstr_ext p q n : (forall i, (i < n)%nat -> p i = q i) -> cstr p n = cstr q n.
Proof.
  revert p q. induction n as [|n IH]; intros p q H; cbn [cstr]; [done|].
  rewrite <- (H 0%nat) by lia. destruct (_ =? 0); [done|]. f_equal. apply IH. intros i Hi. apply H. lia.
Qed.

(** strncmp is zero exactly on pointers to strings with the same first
    [n] characters. *)
Theorem strncmp_zero p q n : strncmp p q n = 0 <-> cstr p n = cstr q n.
Proof.
  revert p q. induction n as [|n IH]; intros p q; cbn [strncmp cstr]; [done|].
  destruct (Z.eqb_spec (p 0%nat) 0) as [Hp|Hp]; cbn [negb andb].
  - rewrite Hp. destruct (Z.eqb_spec (q 0%nat) 0) as [Hq|Hq]; [split; [done|lia]|]. split; [lia|done].
  - destruct (Z.eqb_spec (p 0%nat) (q 0%nat)) as [E|E].
    + rewrite <- E. destruct (Z.eqb_spec (p 0%nat) 0); [done|]. rewrite IH. split; [by intros ->|by intros [= ?]].
    + split; [lia|]. destruct (Z.eqb_spec (q 0%nat) 0); [done|]. intros [= ? _]. done.
Qed.

(** The [n] bytes strncpy stores: the string, padded with NULs. *)
Fixpoint pad (t : nat -> Z) (n : nat) : list Z :=
  match n with
  | O => []
  | S n => if t 0%nat =? 0 then replicate (S n) 0 else t 0%nat :: pad (fun i => t (S i)) n
  end.

Lemma length_pad t n : length (pad t n) = n.
Proof.
  revert t. induction n as [|n IH]; intros t; cbn [pad]; [done|].
  destruct (_ =? 0); cbn [length]; [by rewrite length_replicate|by rewrite IH].
Qed.

Lemma zero_fill_spec m s n x : zero_fill m s n x = if inside s n x then 0 else m x.
Proof.
  revert m s. induction n as [|n IH]; intros m s; cbn [zero_fill]; [by inside_cases|].
  rewrite IH. destruct (Z.eq_dec x s) as [->|Hne].
  - rewrite st8_eq. by inside_cases.
  - rewrite st8_ne by done. by inside_cases.
Qed.

(** Two pointers to the same bytes. *)
Lemma pad_ext t t' n : (forall i, (i < n)%nat -> t i = t' i) -> pad t n = pad t' n.
Proof.
  revert t t'. induction n as [|n IH]; intros t t' H; cbn [pad]; [done|].
  rewrite <- (H 0%nat) by lia. destruct (_ =? 0); [done|]. f_equal. apply IH. intros i Hi. apply H. lia.
Qed.

Lemma nth_zeros n i : nth i (replicate n 0) 0 = 0.
Proof. revert i. induction n as [|n IH]; intros [|i]; cbn; auto. Qed.

(** strncpy stores the string at [t], padded with NULs to [n] bytes, at
    [s] and changes nothing else, when the two areas are disjoint. *)
Theorem strncpy_spec m s t n x : mem_ok m -> s + Z.of_nat n <= t \/ t + Z.of_nat n <= s ->
  strncpy m s t n x = if inside s n x then nth (Z.to_nat (x - s)) (pad (at_ m t) n) 0 else m x.
Proof.
  revert m s t. induction n as [|n IH]; intros m s t Hm Hd; cbn [strncpy pad]; [by inside_cases|].
  rewrite st8_eq, u8_ok by apply Hm. change (at_ m t 0) with (m (t + Z.of_nat 0)). rewrite Z.add_0_r.
  destruct (Z.eqb_spec (m t) 0) as [Ht|Ht].
  - rewrite zero_fill_spec, nth_zeros. destruct (Z.eq_dec x s) as [->|Hne].
    + rewrite st8_eq, Ht. by inside_cases.
    + rewrite st8_ne by done. by inside_cases.
  - rewrite IH by (auto with kernel || lia). destruct (Z.eq_dec x s) as [->|Hne].
    + rewrite Z.sub_diag. cbn [nth Z.to_nat]. rewrite st8_eq, u8_ok by apply Hm. by inside_cases.
    + rewrite st8_ne by done. replace (inside s (S n) x) with (inside (s + 1) n x) by (by inside_cases).
      destruct (inside (s + 1) n x) eqn:E; [|done].
      unfold inside in E. apply andb_true_iff in E as [E1%Z.leb_le E2%Z.ltb_lt].
      replace (Z.to_nat (x - s)) with (S (Z.to_nat (x - (s + 1)))) by lia. cbn [nth]. f_equal.
      apply pad_ext. intros i Hi. unfold at_. rewrite st8_ne by lia. f_equal. lia.
Qed.

Lemma strncpy_spec_witness :
  let m := fun a => if a =? 100 then 65 else if a =? 101 then 66 else if a =? 102 then 0 else 7 in
  strncpy m 0 100 14 1 = 66 /\ strncpy m 0 100 14 13 = 0.
Proof.
  intros m. assert (Hm : mem_ok m).
  { intros a. unfold m, byte_ok. repeat destruct (_ =? _); lia. }
  split; (rewrite strncpy_spec; [reflexivity|exact Hm|lia]).
Defined.

(** A copy made by [pad] denotes the same string. *)
Lemma cstr_pad t n : cstr (fun i => nth i (pad t n) 0) n = cstr t n.
Proof.
  revert t. induction n as [|n IH]; intros t; cbn [cstr pad]; [done|].
  destruct (Z.eqb_spec (t 0%nat) 0) as [E|E]; [by rewrite nth_zeros|].
  cbn [nth]. destruct (Z.eqb_spec (t 0%nat) 0); [done|]. f_equal. apply IH.
Qed.

(** safestrcpy stays inside its [n] bytes and always terminates the copy. *)
Lemma safe_loop_spec m s t n : mem_ok m -> s + Z.of_nat n < t \/ t + Z.of_nat n <= s ->
  (forall x, inside s (S n) x = false -> safe_loop m s t n x = m x) /\
  cstr (at_ (safe_loop m s t n) s) (S n) = cstr (at_ m t) n.
Proof.
  revert m s t. induction n as [|n IH]; intros m s t Hm Hd.
  - cbn [safe_loop cstr]. split.
    + intros x. unfold st8. destruct (Z.eqb_spec x s) as [->|]; [|done]. by inside_cases.
    + unfold at_. rewrite Z.add_0_r, st8_eq. done.
  - cbn [safe_loop]. rewrite st8_eq, u8_ok by apply Hm.
    assert (Hat : at_ m t 0 = m t) by (unfold at_; by rewrite Z.add_0_r).
    destruct (Z.eqb_spec (m t) 0) as [Ht|Ht].
    + split.
      * intros x Hx. rewrite !st8_ne; [done| |]; intros ->; revert Hx; by inside_cases.
      * cbn [cstr]. rewrite Hat, Ht. unfold at_. rewrite Z.add_0_r, st8_ne, st8_eq by lia. done.
    + destruct (IH (st8 m s (m t)) (s + 1) (t + 1)) as [IH1 IH2]; [auto with kernel|lia|]. split.
      * intros x Hx. rewrite IH1; [rewrite st8_ne; [done|]|]; [intros ->|]; revert Hx; by inside_cases.
      * assert (E0 : at_ (safe_loop (st8 m s (m t)) (s + 1) (t + 1) n) s 0 = m t).
        { unfold at_. rewrite Z.add_0_r, IH1 by (by inside_cases). rewrite st8_eq. by apply u8_ok, Hm. }
        change (cstr ?p (S (S n))) with (if p 0%nat =? 0 then [] else p 0%nat :: cstr (fun i => p (S i)) (S n)).
        change (cstr (at_ m t) (S n)) with (if at_ m t 0 =? 0 then [] else at_ m t 0 :: cstr (fun i => at_ m t (S i)) n).
        rewrite E0, Hat. destruct (Z.eqb_spec (m t) 0); [done|]. f_equal.
        rewrite (cstr_ext _ (at_ (safe_loop (st8 m s (m t)) (s + 1) (t + 1) n) (s + 1))), IH2.
        -- apply cstr_ext. intros i Hi. unfold at_. rewrite st8_ne by lia. f_equal. lia.
        -- intros i Hi. unfold at_. f_equal. lia.
Qed.

(** safestrcpy writes only the [n] bytes at [s] and leaves there a
    terminated copy of the first [n - 1] characters of [t]. *)
Theorem safestrcpy_spec m s t n : mem_ok m -> 0 < n -> s + n <= t \/ t + n <= s ->
  (forall x, inside s (Z.to_nat n) x = false -> safestrcpy m s t n x = m x) /\
  cstr (at_ (safestrcpy m s t n) s) (Z.to_nat n) = cstr (at_ m t) (Z.to_nat (n - 1)).
Proof.
  intros Hm Hn Hd. unfold safestrcpy. destruct (Z.leb_spec n 0); [lia|].
  replace (Z.to_nat n) with (S (Z.to_nat (n - 1))) by lia. apply safe_loop_spec; [done|lia].
Qed.

Lemma safestrcpy_spec_witness :
  cstr (at_ (safestrcpy (fun a => (a - 35) mod 256) 0 100 4) 0) 4 = [65; 66; 67].
Proof.
  destruct (safestrcpy_spec (fun a => (a - 35) mod 256) 0 100 4) as [_ E]; [|lia|lia|exact E].
  intros a. apply Z.mod_pos_bound. lia.
Defined.

(** strlen returns, and what it counts, for a terminated string. *)
Lemma strlen_spec p k fuel : (k < fuel)%nat -> p k = 0 -> (forall i, (i < k)%nat -> p i <> 0) ->
  strlen fuel p = Some k /\ length (cstr p fuel) = k.
Proof.
  revert p k. induction fuel as [|f IH]; intros p k Hk H0 Hn; [lia|]. cbn [strlen cstr].
  destruct k as [|k]; [by rewrite H0|]. destruct (Z.eqb_spec (p 0%nat) 0) as [E|_]; [by apply Hn in E; [|lia]|].
  destruct (IH (fun i => p (S i)) k) as [-> IH2]; [lia|done|intros i Hi; apply Hn; lia|].
  cbn [length]. by rewrite IH2.
Qed.

Module UlibFacts.
(** strcmp of two terminated strings returns, zero exactly when they are equal. *)
Lemma strcmp_spec p q n : p n = 0 -> exists r, Ulib.strcmp (S n) p q = Some r /\ (r = 0 <-> cstr p (S n) = cstr q (S n)).
Proof.
  revert p q. induction n as [|n IH]; intros p q H0.
  - exists (p 0%nat - q 0%nat). cbn [Ulib.strcmp cstr]. rewrite H0. cbn [Z.eqb negb andb]. split; [done|].
    destruct (Z.eqb_spec (q 0%nat) 0); split; intros; (done || lia).
  - change (Ulib.strcmp (S (S n)) p q) with (if negb (p 0%nat =? 0) && (p 0%nat =? q 0%nat)
      then Ulib.strcmp (S n) (fun i => p (S i)) (fun i => q (S i)) else Some (p 0%nat - q 0%nat)).
    change (cstr p (S (S n))) with (if p 0%nat =? 0 then [] else p 0%nat :: cstr (fun i => p (S i)) (S n)).
    change (cstr q (S (S n))) with (if q 0%nat =? 0 then [] else q 0%nat :: cstr (fun i => q (S i)) (S n)).
    destruct (Z.eqb_spec (p 0%nat) 0) as [Hp|Hp]; cbn [negb andb].
    + exists (p 0%nat - q 0%nat). split; [done|]. destruct (Z.eqb_spec (q 0%nat) 0); split; intros; (done || lia).
    + destruct (Z.eqb_spec (p 0%nat) (q 0%nat)) as [E|E].
      * rewrite <- E. destruct (Z.eqb_spec (p 0%nat) 0); [done|].
        destruct (IH (fun i => p (S i)) (fun i => q (S i)) H0) as (r & Hr & Hiff). exists r. split; [done|].
        rewrite Hiff. split; [by intros ->|by intros [= ?]].
      * exists (p 0%nat - q 0%nat). split; [done|]. destruct (Z.eqb_spec (q 0%nat) 0); split; intros; try lia; try done.
        congruence.
Qed.

Definition is_digit (c : Z) : bool := (48 <=? c) && (c <=? 57).
Definition decimal (ds : list Z) (n : Z) : Z := fold_left (fun n c => n * 10 + (c - 48)) ds n.

Lemma decimal_mod ds n n' : s32 n = s32 n' -> s32 (decimal ds n) = s32 (decimal ds n').
Proof.
  revert n n'. induction ds as [|d ds IH]; intros n n' H; [done|]. cbn [decimal fold_left]. apply IH.
  unfold s32 in *. f_equal.
  assert (E : (n + 2147483648) mod 4294967296 = (n' + 2147483648) mod 4294967296) by lia.
  replace (n * 10 + (d - 48) + 2147483648) with ((n + 2147483648) * 10 + (d - 48 - 9 * 2147483648)) by lia.
  replace (n' * 10 + (d - 48) + 2147483648) with ((n' + 2147483648) * 10 + (d - 48 - 9 * 2147483648)) by lia.
  rewrite <- Z.add_mod_idemp_l, <- (Z.add_mod_idemp_l ((n' + 2147483648) * 10)) by lia.
  rewrite <- Z.mul_mod_idemp_l, <- (Z.mul_mod_idemp_l (n' + 2147483648)) by lia. by rewrite E.
Qed.

Lemma atoi_loop_spec ds p n : Forall (fun c => is_digit c = true) ds ->
  (forall i, (i < length ds)%nat -> p i = nth i ds 0) -> is_digit (p (length ds)) = false -> s32 n = n ->
  Ulib.atoi_loop (S (length ds)) p n = Some (s32 (decimal ds n)).
Proof.
  revert p n. induction ds as [|d ds IH]; intros p n Hds Hp Hend Hn.
  - cbn [Ulib.atoi_loop length]. unfold is_digit in Hend. cbn [length] in Hend. rewrite Hend. cbn [decimal fold_left]. by rewrite Hn.
  - apply Forall_cons in Hds as [Hd Hds]. pose proof (Hp 0%nat ltac:(cbn; lia)) as H0. cbn [nth] in H0.
    change (Ulib.atoi_loop (S (length (d :: ds))) p n) with (if is_digit (p 0%nat)
      then Ulib.atoi_loop (S (length ds)) (fun i => p (S i)) (s32 (n * 10 + p 0%nat - 48)) else Some n).
    rewrite H0, Hd.
    assert (Hs : forall x, s32 (s32 x) = s32 x).
    { intros x. apply s32_id. pose proof (s32_range x). lia. }
    rewrite IH; [|done|intros i Hi; apply (Hp (S i)); cbn [length]; lia|done|apply Hs].
    f_equal. cbn [decimal fold_left]. apply decimal_mod. rewrite Hs. f_equal. lia.
Qed.
End UlibFacts.

(** atoi returns the decimal value of the leading digits, wrapped to a
    32-bit int. *)
Theorem atoi_spec ds p : Forall (fun c => UlibFacts.is_digit c = true) ds ->
  (forall i, (i < length ds)%nat -> p i = nth i ds 0) -> UlibFacts.is_digit (p (length ds)) = false ->
  Ulib.atoi (S (length ds)) p = Some (s32 (UlibFacts.decimal ds 0)).
Proof. intros. by apply UlibFacts.atoi_loop_spec. Qed.

Lemma atoi_spec_witness : Ulib.atoi 11 (fun i => nth i [52; 50; 57; 52; 57; 54; 55; 50; 57; 56] 0) = Some 2.
Proof.
  rewrite (atoi_spec [52; 50; 57; 52; 57; 54; 55; 50; 57; 56]); [reflexivity| |done|reflexivity].
  repeat constructor.
Defined.
