(* ===== verification/Mmu.v ===== *)
(** * Addresses, pages and page-table entries (mmu.h, memlayout.h)

    A pointer is its 32-bit value; words are stored in memory in little-endian
    order. *)

From S2P Require Import Prelude.
From S2P Require Import Cstr.

Definition EXTMEM : Z := 1048576.            (* 0x100000 *)
Definition PHYSTOP : Z := 234881024.         (* 0xE000000 *)
Definition DEVSPACE : Z := 4261412864.       (* 0xFE000000 *)
Definition KERNBASE : Z := 2147483648.       (* 0x80000000 *)
Definition KERNLINK : Z := KERNBASE + EXTMEM.

Definition v2p (a : Z) : Z := u32 (a - KERNBASE).
Definition p2v (a : Z) : Z := u32 (a + KERNBASE).

Definition NPDENTRIES : nat := 1024.
Definition NPTENTRIES : Z := 1024.
Definition PGSIZE : Z := 4096.

Definition PDX (va : Z) : Z := Z.land (Z.shiftr va 22) 1023.
Definition PTX (va : Z) : Z := Z.land (Z.shiftr va 12) 1023.
Definition PGROUNDUP (sz : Z) : Z := Z.land (u32 (sz + PGSIZE - 1)) (u32 (Z.lnot (PGSIZE - 1))).
Definition PGROUNDDOWN (a : Z) : Z := Z.land a (u32 (Z.lnot (PGSIZE - 1))).

Definition PTE_P : Z := 1.
Definition PTE_W : Z := 2.
Definition PTE_U : Z := 4.
Definition PTE_ADDR (pte : Z) : Z := Z.land pte (u32 (Z.lnot 4095)).
Definition PTE_FLAGS (pte : Z) : Z := Z.land pte 4095.

(** [*(uint* )a] *)
Definition ld32 (m : mem) (a : Z) : Z := le_val [m a; m (a + 1); m (a + 2); m (a + 3)].

(** ** Rounding and splitting addresses *)

Lemma land_mask a : 0 <= a < 4294967296 -> Z.land a (u32 (Z.lnot 4095)) = a / 4096 * 4096.
Proof.
  intros Ha. change (u32 (Z.lnot 4095)) with (Z.shiftl (Z.ones 20) 12). apply Z.bits_inj'. intros i Hi.
  rewrite Z.land_spec, Z.shiftl_spec by done. change 4096 with (2 ^ 12). rewrite <- Z.shiftr_div_pow2, <- Z.shiftl_mul_pow2 by lia.
  rewrite Z.shiftl_spec by done. destruct (Z_lt_le_dec i 12) as [H|H].
  - by rewrite (Z.testbit_neg_r (Z.ones 20)), andb_false_r, Z.testbit_neg_r by lia.
  - rewrite Z.shiftr_spec by lia. replace (i - 12 + 12) with i by lia.
    destruct (Z_lt_le_dec i 32) as [H'|H'].
    + rewrite Z.ones_spec_low by lia. apply andb_true_r.
    + rewrite Z.ones_spec_high by lia. rewrite andb_false_r. symmetry.
      rewrite <- (Z.mod_small a (2 ^ 32)) by (change (2 ^ 32) with 4294967296; lia). apply Z.mod_pow2_bits_high. lia.
Qed.

Lemma PGROUNDDOWN_div a : 0 <= a < 4294967296 -> PGROUNDDOWN a = a / 4096 * 4096.
Proof. apply land_mask. Qed.

Lemma PGROUNDUP_div a : 0 <= a < 4294963201 -> PGROUNDUP a = (a + 4095) / 4096 * 4096.
Proof.
  intros Ha. unfold PGROUNDUP. change (PGSIZE - 1) with 4095. replace (a + PGSIZE - 1) with (a + 4095) by (unfold PGSIZE; lia).
  rewrite u32_id by lia. by apply land_mask; lia.
Qed.

Lemma PDX_div va : 0 <= va < 4294967296 -> PDX va = va / 4194304.
Proof.
  intros Ha. unfold PDX. rewrite Z.shiftr_div_pow2 by lia. change 1023 with (Z.ones 10). rewrite Z.land_ones by lia.
  apply Z.mod_small. change (2 ^ 22) with 4194304. change (2 ^ 10) with 1024. split; [apply Z.div_pos; lia|].
  apply Z.div_lt_upper_bound; lia.
Qed.

Lemma PTX_div va : PTX va = va / 4096 mod 1024.
Proof. unfold PTX. rewrite Z.shiftr_div_pow2 by lia. change 1023 with (Z.ones 10). by rewrite Z.land_ones by lia. Qed.

Lemma lor_add a f : a mod 4096 = 0 -> 0 <= f < 4096 -> Z.lor a f = a + f.
Proof.
  intros Ha Hf. assert (Hl : Z.land a f = 0).
  { rewrite <- (Z.mod_small f (2 ^ 12)) by (change (2 ^ 12) with 4096; lia). rewrite <- Z.land_ones by lia.
    rewrite (Z.land_comm f), Z.land_assoc, Z.land_ones by lia. change (2 ^ 12) with 4096. by rewrite Ha. }
  pose proof (Z.add_lor_land a f). lia.
Qed.

Lemma PTE_split a f : a mod 4096 = 0 -> 0 <= a < 4294967296 -> 0 <= f < 4096 ->
  PTE_ADDR (Z.lor a f) = a /\ PTE_FLAGS (Z.lor a f) = f.
Proof.
  intros Ha Hr Hf. pose proof (lor_add a f Ha Hf) as E.
  rewrite E. assert (Hq : 0 <= a / 4096 < 1048576) by (split; [apply Z.div_pos|apply Z.div_lt_upper_bound]; lia).
  assert (Hb : (a + f) / 4096 * 4096 = a).
  { assert (Ek : a = a / 4096 * 4096) by (pose proof (Z.div_mod a 4096); lia). rewrite Ek at 1.
    rewrite Z.div_add_l, (Z.div_small f) by lia. lia. }
  split.
  - unfold PTE_ADDR. rewrite land_mask; [done|]. pose proof (Z.div_mod a 4096). lia.
  - unfold PTE_FLAGS. change 4095 with (Z.ones 12). rewrite Z.land_ones by lia. change (2 ^ 12) with 4096.
    rewrite Z.mod_eq, Z.mul_comm, Hb by lia. lia.
Qed.

Lemma v2p_p2v a : 0 <= a < KERNBASE -> v2p (p2v a) = a /\ p2v a = a + KERNBASE.
Proof. unfold v2p, p2v, KERNBASE. intros Ha. rewrite (u32_id (a + _)) by lia. rewrite u32_id by lia. lia. Qed.
Lemma p2v_v2p v : KERNBASE <= v < 4294967296 -> p2v (v2p v) = v /\ v2p v = v - KERNBASE.
Proof. unfold v2p, p2v, KERNBASE. intros Ha. rewrite (u32_id (v - _)) by lia. rewrite u32_id by lia. lia. Qed.

(** ** Words in memory *)

Lemma ld32_ext m m' a : (forall x, a <= x < a + 4 -> m' x = m x) -> ld32 m' a = ld32 m a.
Proof. intros H. unfold ld32. rewrite !H by lia. done. Qed.

Lemma st32_ne m a v x : x < a \/ a + 4 <= x -> st32 m a v x = m x.
Proof. intros H. rewrite st32_spec. unfold inside. destruct (Z.leb_spec a x), (Z.ltb_spec x (a + Z.of_nat 4)); cbn; done || lia. Qed.

Lemma ld32_st32_eq m a v : ld32 (st32 m a v) a = u32 v.
Proof.
  unfold ld32. rewrite !st32_spec. unfold inside.
  rewrite !(proj2 (Z.leb_le _ _)), !(proj2 (Z.ltb_lt _ _)) by lia. cbn [andb]. unfold u8.
  replace (8 * (a - a)) with 0 by lia. replace (8 * (a + 1 - a)) with 8 by lia. replace (8 * (a + 2 - a)) with 16 by lia.
  replace (8 * (a + 3 - a)) with 24 by lia. rewrite Z.shiftr_0_r, !Z.shiftr_div_pow2 by lia.
  change (2 ^ 8) with 256. change (2 ^ 16) with (256 * 256). change (2 ^ 24) with (256 * 256 * 256). rewrite <- !Z.div_div by lia.
  change (le_val (le_bytes 4 v) = u32 v). apply (le_val_bytes 4).
Qed.

Lemma ld32_st32_ne m a b v : b + 4 <= a \/ a + 4 <= b -> ld32 (st32 m a v) b = ld32 m b.
Proof. intros H. apply ld32_ext. intros x Hx. apply st32_ne. lia. Qed.

Lemma ld32_range m a : mem_ok m -> 0 <= ld32 m a < 4294967296.
Proof. intros Hm. unfold ld32. apply (le_val_range [_; _; _; _]). repeat constructor; apply Hm. Qed.

Lemma st32_ok m a v : mem_ok m -> mem_ok (st32 m a v).
Proof. intros H. unfold st32. by repeat apply st8_ok. Qed.

Lemma inside_iff a n x : inside a n x = true <-> a <= x < a + Z.of_nat n.
Proof. unfold inside. rewrite andb_true_iff, Z.leb_le, Z.ltb_lt. done. Qed.

Lemma memset_fill m v c n x : memset m v c n x = if decide (v <= x < v + Z.of_nat n) then u8 c else m x.
Proof.
  rewrite memset_bytes. destruct (inside v n x) eqn:E.
  - apply inside_iff in E. by rewrite decide_True.
  - rewrite decide_False; [done|]. intros H%inside_iff. congruence.
Qed.
