(* ===== verification/Kalloc.v ===== *)
(** * The physical page allocator (kalloc.c)

    The free list is threaded through the free pages themselves, in the memory
    [km].  [kend] is the linker's [end], the first address after the kernel. *)

From S2P Require Import Prelude.
From S2P Require Import Cstr.
From S2P Require Import Mmu.

(** [kout] collects what the memory subsystem prints with cprintf. *)
Record kmem := mkkmem {
  km : mem;
  freelist : Z;
  use_lock : bool;
  kout : list string
}.

Definition poke (f : mem -> mem) (s : kmem) : kmem := mkkmem (f (km s)) (freelist s) (use_lock s) (kout s).
Definition set_freelist (p : Z) (s : kmem) : kmem := mkkmem (km s) p (use_lock s) (kout s).
Definition set_use_lock (b : bool) (s : kmem) : kmem := mkkmem (km s) (freelist s) b (kout s).
Definition kprint (msg : string) (s : kmem) : kmem := mkkmem (km s) (freelist s) (use_lock s) (kout s ++ [msg]).
Definition load32 (a : Z) : M kmem Z := gets (fun s => ld32 (km s) a).
Definition store32 (a v : Z) : M kmem unit := modify (poke (fun m => st32 m a v)).

Section Kalloc.
Context (kend : Z).

Definition kfree (v : Z) : M kmem unit :=
  if negb (v mod PGSIZE =? 0) || (v <? kend) || (v2p v >=? PHYSTOP) then panic "kfree"
  else
    modify (poke (fun m => memset m v 1 (Z.to_nat PGSIZE))) ;;;
    r <- gets freelist ;;
    store32 v r ;;;
    modify (set_freelist v).

Definition kalloc : M kmem Z :=
  r <- gets freelist ;;
  (if negb (r =? 0) then
     next <- load32 r ;;
     modify (set_freelist next)
   else ret tt) ;;;
  ret r.

(** The loop of freerange; [vend - p] bounds the pages. *)
Fixpoint freerange_loop (fuel : nat) (p vend : Z) : M kmem unit :=
  match fuel with
  | O => ret tt
  | S fuel' => if p + PGSIZE <=? vend then kfree p ;;; freerange_loop fuel' (p + PGSIZE) vend else ret tt
  end.

Definition freerange (vstart vend : Z) : M kmem unit :=
  let p := PGROUNDUP vstart in
  freerange_loop (S (Z.to_nat ((vend - p) / PGSIZE))) p vend.

Definition kinit1 (vstart vend : Z) : M kmem unit :=
  modify (set_use_lock false) ;;;
  freerange vstart vend.

Definition kinit2 (vstart vend : Z) : M kmem unit :=
  freerange vstart vend ;;;
  modify (set_use_lock true).

(** ** The free list *)

Definition page (v : Z) : Prop := v mod 4096 = 0 /\ kend <= v /\ v < KERNBASE + PHYSTOP.

(** The pages on the list that starts at [p]. *)
Fixpoint flist (m : mem) (p : Z) (l : list Z) : Prop :=
  match l with
  | [] => p = 0
  | v :: l' => p = v /\ flist m (ld32 m v) l'
  end.

Record free_ok (s : kmem) (l : list Z) : Prop := {
  fr_list : flist (km s) (freelist s) l;
  fr_page : Forall page l;
  fr_nodup : NoDup l
}.

Hypothesis Hend : KERNBASE < kend.

Lemma page_kfree v : page v -> negb (v mod PGSIZE =? 0) || (v <? kend) || (v2p v >=? PHYSTOP) = false.
Proof.
  intros (Ha & Hk & Hp). unfold PGSIZE. rewrite Ha. cbn [Z.eqb negb orb].
  destruct (p2v_v2p v) as [_ E]; [unfold KERNBASE, PHYSTOP in *; lia|]. rewrite E.
  destruct (Z.ltb_spec v kend); [lia|]. cbn [orb]. rewrite Z.geb_leb. apply Z.leb_gt. lia.
Qed.

Lemma kfree_not_page v : 0 <= v < 4294967296 -> ~ page v ->
  negb (v mod PGSIZE =? 0) || (v <? kend) || (v2p v >=? PHYSTOP) = true.
Proof.
  intros Hv Hn. destruct (negb _ || _ || _) eqn:E; [done|]. exfalso. apply Hn.
  rewrite !orb_false_iff, negb_false_iff, Z.eqb_eq, Z.ltb_ge, Z.geb_leb, Z.leb_gt in E. destruct E as [[E1 E2] E3].
  destruct (p2v_v2p v) as [_ E]; [lia|]. unfold page, PGSIZE in *. lia.
Qed.

Lemma pages_apart v w x : page v -> page w -> v <> w -> v <= x < v + 4096 -> ~ (w <= x < w + 4096).
Proof.
  intros (Hv & _) (Hw & _) Hne Hx Hx'. apply Hne.
  pose proof (Z.div_mod v 4096). pose proof (Z.div_mod w 4096). lia.
Qed.

Lemma flist_ext m m' p l : (forall v, v ∈ l -> ld32 m' v = ld32 m v) -> flist m p l -> flist m' p l.
Proof.
  revert p. induction l as [|v l IH]; intros p H Hf; [done|]. destruct Hf as [-> Hf]. split; [done|].
  rewrite H by (by left). apply IH; [|done]. intros w Hw. apply H. by right.
Qed.

(** Memory changed only inside a page that is not free. *)
Lemma flist_page m m' p l v : page v -> Forall page l -> v ∉ l -> (forall x, ~ (v <= x < v + 4096) -> m' x = m x) ->
  flist m p l -> flist m' p l.
Proof.
  intros Hv Hl Hn Hm. apply flist_ext. intros w Hw. apply ld32_ext. intros x Hx. apply Hm.
  rewrite Forall_forall in Hl. apply (pages_apart w v); [auto|done|set_solver|lia].
Qed.

Lemma kfree_spec v s l : free_ok s l -> page v -> v ∉ l ->
  runs (kfree v) s (fun _ s' => free_ok s' (v :: l) /\ use_lock s' = use_lock s /\
    (mem_ok (km s) -> mem_ok (km s')) /\ forall x, ~ (v <= x < v + 4096) -> km s' x = km s x).
Proof.
  intros [Hl Hp Hn] Hv Hnv. unfold kfree. rewrite page_kfree by done.
  apply runs_bind, runs_modify, runs_bind, runs_gets, runs_bind, runs_modify, runs_modify. cbn [poke set_freelist km freelist use_lock].
  assert (Hx : forall x, ~ (v <= x < v + 4096) -> st32 (memset (km s) v 1 (Z.to_nat PGSIZE)) v (freelist s) x = km s x).
  { intros x Hx. rewrite st32_ne by lia. rewrite memset_fill. change (Z.of_nat (Z.to_nat PGSIZE)) with 4096. by rewrite decide_False. }
  split_and!; [split|done| |done].
  - cbn [flist poke set_freelist km freelist]. split; [done|]. rewrite ld32_st32_eq, u32_id.
    + by eapply flist_page.
    + destruct l as [|w l]; cbn in Hl; [subst; lia|]. destruct Hl as [-> _]. inversion Hp as [|? ? (_ & H1 & H2)]. unfold PHYSTOP, KERNBASE in *. lia.
  - by constructor.
  - by constructor.
  - intros Hm. apply st32_ok. intros x. rewrite memset_fill. case_decide; [done|apply Hm].
Qed.

Lemma kalloc_spec s l : free_ok s l ->
  kalloc s = match l with
             | [] => Done 0 s
             | v :: _ => Done v (set_freelist (ld32 (km s) v) s)
             end /\
  match l with [] => True | v :: l' => free_ok (set_freelist (ld32 (km s) v) s) l' /\ page v /\ v ∉ l' end.
Proof.
  intros [Hl Hp Hn]. destruct l as [|v l]; cbn in Hl.
  - unfold kalloc, bind, gets. rewrite Hl. by destruct s.
  - destruct Hl as [Hf Hl]. inversion Hp as [|? ? Hv Hp']. inversion Hn. subst.
    split; [|by split]. unfold kalloc, load32, bind, gets, modify. destruct (Z.eqb_spec (freelist s) 0) as [E|E]; [|done].
    destruct Hv as (_ & Hv & _). unfold KERNBASE in *. lia.
Qed.

(** ** Initialisation *)

(** The pages from [p] on that end by [vend]. *)
Definition npages (p vend : Z) : nat := Z.to_nat ((vend - p) / 4096).
Fixpoint pages (p : Z) (n : nat) : list Z :=
  match n with
  | O => []
  | S n' => p :: pages (p + 4096) n'
  end.

Lemma elem_of_pages p n v : v ∈ pages p n <-> exists k, 0 <= k < Z.of_nat n /\ v = p + 4096 * k.
Proof.
  revert p. induction n as [|n IH]; intros p; cbn [pages].
  - split; [by intros ?%elem_of_nil|intros (k & Hk & _); lia].
  - rewrite elem_of_cons, IH. split.
    + intros [->|(k & Hk & ->)]; [exists 0; lia|]. exists (k + 1). lia.
    + intros (k & Hk & ->). destruct (decide (k = 0)); [left; lia|right]. exists (k - 1). lia.
Qed.

Lemma freerange_loop_spec fuel p vend s l : (npages p vend < fuel)%nat -> free_ok s l -> p mod 4096 = 0 -> kend <= p ->
  vend <= KERNBASE + PHYSTOP -> (forall v, v ∈ l -> v < p) -> mem_ok (km s) ->
  runs (freerange_loop fuel p vend) s (fun _ s' => free_ok s' (reverse (pages p (npages p vend)) ++ l) /\
    use_lock s' = use_lock s /\ mem_ok (km s') /\
    forall x, x < p \/ vend <= x -> km s' x = km s x).
Proof.
  revert p s l. induction fuel as [|fuel IH]; intros p s l Hf Hs Ha Hk He Hl Hm; [lia|]. cbn [freerange_loop]. unfold PGSIZE.
  destruct (Z.leb_spec (p + 4096) vend) as [Hle|Hgt].
  - assert (En : npages p vend = S (npages (p + 4096) vend)).
    { unfold npages. replace (vend - p) with (vend - (p + 4096) + 1 * 4096) by lia. rewrite Z.div_add by lia.
      assert (0 <= (vend - (p + 4096)) / 4096) by (apply Z.div_pos; lia). lia. }
    assert (Hpg : page p) by (split_and!; [done|done|lia]).
    eapply runs_seq; [apply (kfree_spec p s l); try done; intros Hin; specialize (Hl _ Hin); lia|].
    cbv beta. intros _ s1 (Hs1 & Hu1 & Hm1 & Hx1). eapply runs_mono; [apply (IH (p + 4096) s1 (p :: l)); try done|].
    + lia.
    + rewrite <- Z.add_mod_idemp_r, Z.mod_same, Z.add_0_r by lia. done.
    + lia.
    + intros v [->|Hv]%elem_of_cons; [lia|]. specialize (Hl _ Hv). lia.
    + auto.
    + cbv beta. intros _ s2 (Hs2 & Hu2 & Hm2 & Hx2). rewrite En. cbn [pages]. rewrite reverse_cons, <- app_assoc.
      split_and!; [done|congruence|done|]. intros x Hx. rewrite Hx2, Hx1 by lia. done.
  - assert (En : npages p vend = 0%nat).
    { unfold npages. destruct (Z_lt_le_dec vend p); [pose proof (Z.div_lt_upper_bound (vend - p) 4096 0); lia|].
      by rewrite Z.div_small by lia. }
    rewrite En. apply runs_ret. by split_and!.
Qed.

(** ** Clients

    [O] is the set of pages handed out and not yet freed.  Clients allocate,
    free a page they were given, and write into their pages. *)
Inductive kstep : kmem * gset Z -> kmem * gset Z -> Prop :=
| k_alloc s s' O v : kalloc s = Done v s' -> v <> 0 -> kstep (s, O) (s', {[v]} ∪ O)
| k_none s s' O : kalloc s = Done 0 s' -> kstep (s, O) (s', O)
| k_free s s' O v : v ∈ O -> kfree v s = Done tt s' -> kstep (s, O) (s', O ∖ {[v]})
| k_write s O v a b : v ∈ O -> v <= a < v + 4096 -> kstep (s, O) (poke (fun m => st8 m a b) s, O).

(** The free list and the pages handed out partition the pages [A]. *)
Definition partition (A : gset Z) (s : kmem) (O : gset Z) : Prop :=
  exists l, free_ok s l /\ A = list_to_set l ∪ O /\ list_to_set l ## O /\ (forall v, v ∈ O -> page v).

Lemma kstep_partition A s O s' O' : kstep (s, O) (s', O') -> partition A s O -> partition A s' O'.
Proof.
  intros Hst (l & Hl & HA & Hd & HO). inversion Hst as [? ? ? v Hk Hv|? ? ? Hk|? ? ? v Hv Hk|? ? v a b Hv Ha]; subst.
  - destruct (kalloc_spec s l Hl) as [E H]. rewrite Hk in E. destruct l as [|w l]; [by injection E as -> ->|].
    injection E as -> ->. destruct H as (Hl' & Hw & Hn). exists l. split_and!; [done|set_solver|set_solver|].
    intros v [->%elem_of_singleton|Hv']%elem_of_union; auto.
  - destruct (kalloc_spec s l Hl) as [E H]. rewrite Hk in E. destruct l as [|w l]; [injection E as ->; by exists []|].
    injection E as <- _. destruct H as (_ & (_ & H & _) & _). unfold KERNBASE in *. lia.
  - assert (Hnl : v ∉ l) by set_solver. pose proof (runs_elim _ _ _ _ _ (kfree_spec v s l Hl (HO _ Hv) Hnl) Hk) as (Hl' & _).
    exists (v :: l). split_and!; [done| |set_solver|set_solver]. apply set_eq. intros x. destruct (decide (x = v)); set_solver.
  - exists l. split_and!; [|done|done|done]. destruct Hl as [L1 L2 L3]. split; try done. cbn [poke km freelist].
    eapply (flist_page _ _ _ _ v); [auto|done|set_solver| |done]. intros x Hx. apply st8_ne. lia.
Qed.

Lemma rtc_partition A x y : rtc kstep x y -> partition A (fst x) (snd x) -> partition A (fst y) (snd y).
Proof. induction 1 as [|[s O] [s' O'] z Hst _ IH]; [done|]. intros H. by apply IH, (kstep_partition A s O). Qed.

(** What the partition gives the next call. *)
Lemma partition_calls A s O : partition A s O ->
  runs kalloc s (fun v _ => if decide (v = 0) then O = A else v ∈ A ∖ O) /\
  (forall v, v ∈ O -> runs (kfree v) s (fun _ s' => freelist s' = v)).
Proof.
  intros (l & Hl & HA & Hd & HO). split.
  - destruct (kalloc_spec s l Hl) as [E H]. unfold runs. rewrite E. destruct l as [|v l].
    + rewrite decide_True by done. subst A. set_solver.
    + destruct H as (_ & (_ & Hv & _) & _). rewrite decide_False by (unfold KERNBASE in *; lia). subst A. set_solver.
  - intros v Hv. eapply runs_mono; [apply (kfree_spec v s l); [done|auto|set_solver]|]. cbv beta.
    intros _ s' (Hf & _). by destruct (fr_list _ _ Hf).
Qed.

(** C12: Every page between the rounded-up [vstart] and [vend] is handed out
    to at most one client at a time: after kinit1 and any sequence of kalloc,
    kfree of pages handed out and writes into such pages, kalloc returns a
    page of the range that no client has, returns null only when clients have
    them all, and kfree accepts every page handed out. *)
Theorem kalloc_exclusive m vstart vend : mem_ok m -> kend <= vstart -> vend <= KERNBASE + PHYSTOP ->
  vstart < KERNBASE + PHYSTOP ->
  let A := list_to_set (pages (PGROUNDUP vstart) (npages (PGROUNDUP vstart) vend)) in
  runs (kinit1 vstart vend) (mkkmem m 0 true []) (fun _ s0 => forall s O, rtc kstep (s0, ∅) (s, O) ->
    runs kalloc s (fun v _ => if decide (v = 0) then O = A else v ∈ A ∖ O) /\
    (forall v, v ∈ O -> runs (kfree v) s (fun _ s' => freelist s' = v))).
Proof.
  intros Hm Hs Hv Hs' A. unfold kinit1. apply runs_bind, runs_modify. unfold freerange.
  assert (Hp : PGROUNDUP vstart mod 4096 = 0 /\ vstart <= PGROUNDUP vstart).
  { rewrite PGROUNDUP_div by (unfold KERNBASE, PHYSTOP in *; lia). rewrite Z.mod_mul by lia.
    pose proof (Z.div_mod (vstart + 4095) 4096). pose proof (Z.mod_pos_bound (vstart + 4095) 4096). lia. }
  eapply runs_mono; [apply (freerange_loop_spec _ _ _ _ []); try done; try lia|].
  - unfold npages, PGSIZE. lia.
  - split; [done|constructor|constructor].
  - by intros v ?%elem_of_nil.
  - cbv beta. intros _ s0 (Hf & _) s O Hr. apply partition_calls.
    apply (rtc_partition A (s0, ∅) (s, O) Hr). exists (reverse (pages (PGROUNDUP vstart) (npages (PGROUNDUP vstart) vend)) ++ []).
    cbn [fst snd]. split_and!; [done| |set_solver|set_solver]. unfold A. rewrite app_nil_r. set_solver.
Qed.
End Kalloc.

Lemma kalloc_exclusive_witness :
  runs (kinit1 2148564992 2148564993 2148581376) (mkkmem (fun _ => 0) 0 true [])
    (fun _ s0 => runs kalloc s0 (fun v _ => if decide (v = 0) then (∅ : gset Z) = list_to_set (pages 2148569088 3)
                                            else v ∈ (list_to_set (pages 2148569088 3) ∖ ∅ : gset Z))).
Proof.
  assert (Hm : mem_ok (fun _ => 0)) by (intros a; unfold byte_ok; lia).
  refine (runs_mono _ _ _ _ (kalloc_exclusive 2148564992 _ (fun _ => 0) 2148564993 2148581376 Hm _ _ _) _);
    [unfold KERNBASE, PHYSTOP; lia..|].
  intros _ s0 H. exact (proj1 (H s0 ∅ (rtc_refl _ _))).
Defined.
