(* ===== verification/Vm.v ===== *)
(** * Page tables and user memory (vm.c)

    Page directories and tables live in the memory of [kmem] and are built
    from pages of the allocator.  A pointer to an entry is its address, 0 for
    null; [*p] is the word there.  [kdata] is the linker's [data]. *)

From S2P Require Import Prelude.
From S2P Require Import Cstr.
From S2P Require Import Mmu.
From S2P Require Import Kalloc.

Section Vm.
Context (kend kdata : Z).

Definition walkpgdir (pgdir va : Z) (alloc : bool) : M kmem Z :=
  let pde := pgdir + 4 * PDX va in
  e <- load32 pde ;;
  if test e PTE_P then ret (p2v (PTE_ADDR e) + 4 * PTX va)
  else if negb alloc then ret 0
  else
    pgtab <- kalloc ;;
    if pgtab =? 0 then ret 0
    else
      modify (poke (fun m => memset m pgtab 0 (Z.to_nat PGSIZE))) ;;;
      store32 pde (Z.lor (Z.lor (Z.lor (v2p pgtab) PTE_P) PTE_W) PTE_U) ;;;
      ret (pgtab + 4 * PTX va).

(** The loop of mappages; [u32 (last - a) / PGSIZE + 1] rounds reach [last]. *)
Fixpoint mappages_loop (fuel : nat) (pgdir a last pa perm : Z) : M kmem Z :=
  match fuel with
  | O => ret 0
  | S fuel' =>
      pte <- walkpgdir pgdir a true ;;
      if pte =? 0 then ret (-1)
      else
        e <- load32 pte ;;
        if test e PTE_P then panic "remap"
        else
          store32 pte (Z.lor (Z.lor pa perm) PTE_P) ;;;
          if a =? last then ret 0
          else mappages_loop fuel' pgdir (u32 (a + PGSIZE)) last (u32 (pa + PGSIZE)) perm
  end.

Definition mappages (pgdir va size pa perm : Z) : M kmem Z :=
  let a := PGROUNDDOWN va in
  let last := PGROUNDDOWN (u32 (va + size - 1)) in
  mappages_loop (S (Z.to_nat (u32 (last - a) / PGSIZE))) pgdir a last pa perm.

(** struct kmap and its table. *)
Record kmap_ent := mkkmap { k_virt : Z; k_start : Z; k_stop : Z; k_perm : Z }.
Definition kmap : list kmap_ent :=
  [ mkkmap KERNBASE 0 EXTMEM PTE_W;
    mkkmap KERNLINK (v2p KERNLINK) (v2p kdata) 0;
    mkkmap kdata (v2p kdata) PHYSTOP PTE_W;
    mkkmap DEVSPACE DEVSPACE 0 PTE_W ].

Definition setupkvm : M kmem Z :=
  pgdir <- kalloc ;;
  if pgdir =? 0 then ret 0
  else
    modify (poke (fun m => memset m pgdir 0 (Z.to_nat PGSIZE))) ;;;
    if p2v PHYSTOP >? DEVSPACE then panic "PHYSTOP too high"
    else
      r <- for_ kmap (fun k =>
        r <- mappages pgdir (k_virt k) (u32 (k_stop k - k_start k)) (k_start k) (k_perm k) ;;
        ret (if r <? 0 then Some tt else None)) ;;
      ret (match r with Some _ => 0 | None => pgdir end).

Definition inituvm (pgdir : Z) (init : list Z) (sz : Z) : M kmem unit :=
  if sz >=? PGSIZE then panic "inituvm: more than a page"
  else
    mem <- kalloc ;;
    modify (poke (fun m => memset m mem 0 (Z.to_nat PGSIZE))) ;;;
    mappages pgdir 0 PGSIZE (v2p mem) (Z.lor PTE_W PTE_U) ;;;
    modify (poke (fun m x => if inside mem (Z.to_nat sz) x then nthZ init (x - mem) else m x)).

(** [for(; a < oldsz; a += PGSIZE)] of deallocuvm; at least one page is
    passed in each round. *)
Fixpoint deallocuvm_loop (fuel : nat) (pgdir a oldsz : Z) : M kmem unit :=
  match fuel with
  | O => ret tt
  | S fuel' =>
      if a <? oldsz then
        pte <- walkpgdir pgdir a false ;;
        if pte =? 0 then deallocuvm_loop fuel' pgdir (u32 (a + (NPTENTRIES - 1) * PGSIZE + PGSIZE)) oldsz
        else
          e <- load32 pte ;;
          (if negb (Z.land e PTE_P =? 0) then
             let pa := PTE_ADDR e in
             if pa =? 0 then panic "kfree"
             else
               kfree kend (p2v pa) ;;;
               store32 pte 0
           else ret tt) ;;;
          deallocuvm_loop fuel' pgdir (u32 (a + PGSIZE)) oldsz
      else ret tt
  end.

Definition deallocuvm (pgdir oldsz newsz : Z) : M kmem Z :=
  if newsz >=? oldsz then ret oldsz
  else
    deallocuvm_loop (Z.to_nat (oldsz / PGSIZE + 1)) pgdir (PGROUNDUP newsz) oldsz ;;;
    ret newsz.

(** [for(; a < newsz; a += PGSIZE)] of allocuvm; [Some tt] when kalloc
    fails. *)
Fixpoint allocuvm_loop (fuel : nat) (pgdir a newsz oldsz : Z) : M kmem (option unit) :=
  match fuel with
  | O => ret None
  | S fuel' =>
      if a <? newsz then
        mem <- kalloc ;;
        if mem =? 0 then
          modify (kprint "allocuvm out of memory") ;;;
          deallocuvm pgdir newsz oldsz ;;;
          ret (Some tt)
        else
          modify (poke (fun m => memset m mem 0 (Z.to_nat PGSIZE))) ;;;
          mappages pgdir a PGSIZE (v2p mem) (Z.lor PTE_W PTE_U) ;;;
          allocuvm_loop fuel' pgdir (u32 (a + PGSIZE)) newsz oldsz
      else ret None
  end.

Definition allocuvm (pgdir oldsz newsz : Z) : M kmem Z :=
  if newsz >=? KERNBASE then ret 0
  else if newsz <? oldsz then ret oldsz
  else
    r <- allocuvm_loop (Z.to_nat (newsz / PGSIZE + 1)) pgdir (PGROUNDUP oldsz) newsz oldsz ;;
    ret (match r with Some _ => 0 | None => newsz end).

Definition freevm (pgdir : Z) : M kmem unit :=
  if pgdir =? 0 then panic "freevm: no pgdir"
  else
    deallocuvm pgdir KERNBASE 0 ;;;
    each (seq 0 NPDENTRIES) (fun i =>
      e <- load32 (pgdir + 4 * Z.of_nat i) ;;
      if test e PTE_P then kfree kend (p2v (PTE_ADDR e)) else ret tt) ;;;
    kfree kend pgdir.

Definition clearpteu (pgdir uva : Z) : M kmem unit :=
  pte <- walkpgdir pgdir uva false ;;
  if pte =? 0 then panic "clearpteu"
  else
    e <- load32 pte ;;
    store32 pte (Z.land e (u32 (Z.lnot PTE_U))).

(** The loop of copyuvm; [Some tt] is the jump to [bad]. *)
Fixpoint copyuvm_loop (fuel : nat) (pgdir d i sz : Z) : M kmem (option unit) :=
  match fuel with
  | O => ret None
  | S fuel' =>
      if i <? sz then
        pte <- walkpgdir pgdir i false ;;
        if pte =? 0 then panic "copyuvm: pte should exist"
        else
          e <- load32 pte ;;
          if negb (test e PTE_P) then panic "copyuvm: page not present"
          else
            let pa := PTE_ADDR e in
            let flags := PTE_FLAGS e in
            mem <- kalloc ;;
            if mem =? 0 then ret (Some tt)
            else
              modify (poke (fun m => memmove m mem (p2v pa) (Z.to_nat PGSIZE))) ;;;
              r <- mappages d i PGSIZE (v2p mem) flags ;;
              if r <? 0 then ret (Some tt) else copyuvm_loop fuel' pgdir d (u32 (i + PGSIZE)) sz
      else ret None
  end.

Definition copyuvm (pgdir sz : Z) : M kmem Z :=
  d <- setupkvm ;;
  if d =? 0 then ret 0
  else
    r <- copyuvm_loop (Z.to_nat (sz / PGSIZE + 1)) pgdir d 0 sz ;;
    match r with
    | None => ret d
    | Some _ => freevm d ;;; ret 0
    end.

(** uva2ka reads [*pte] before anything else, also when walkpgdir returned
    null. *)
Definition uva2ka (pgdir uva : Z) : M kmem Z :=
  pte <- walkpgdir pgdir uva false ;;
  e <- load32 pte ;;
  if Z.land e PTE_P =? 0 then ret 0
  else if Z.land e PTE_U =? 0 then ret 0
  else ret (p2v (PTE_ADDR e)).

(** copyout of the bytes [buf]; each round copies at least one byte. *)
Fixpoint copyout_loop (fuel : nat) (pgdir va : Z) (buf : list Z) : M kmem Z :=
  match fuel with
  | O => ret 0
  | S fuel' =>
      if (length buf =? 0)%nat then ret 0
      else
        let va0 := PGROUNDDOWN va in
        pa0 <- uva2ka pgdir va0 ;;
        if pa0 =? 0 then ret (-1)
        else
          let n := Z.to_nat (Z.min (PGSIZE - (va - va0)) (Z.of_nat (length buf))) in
          let dst := pa0 + (va - va0) in
          modify (poke (fun m x => if inside dst n x then nthZ buf (x - dst) else m x)) ;;;
          copyout_loop fuel' pgdir (u32 (va0 + PGSIZE)) (drop n buf)
  end.

Definition copyout (pgdir va : Z) (p : list Z) : M kmem Z := copyout_loop (length p) pgdir va p.

(** loaduvm reads the segment with [readi], on the file system's own state. *)
Section Load.
Context {F : Type} (readi : Z -> Z -> M F (Z * list Z)).
Definition vmk {A} (m : M kmem A) : M (kmem * F) A := lift fst (fun k s => (k, snd s)) m.
Definition vmf {A} (m : M F A) : M (kmem * F) A := lift snd (fun f s => (fst s, f)) m.

Fixpoint loaduvm_loop (fuel : nat) (pgdir addr offset i sz : Z) : M (kmem * F) Z :=
  match fuel with
  | O => ret 0
  | S fuel' =>
      if i <? sz then
        pte <- vmk (walkpgdir pgdir (u32 (addr + i)) false) ;;
        if pte =? 0 then panic "loaduvm: address should exist"
        else
          e <- vmk (load32 pte) ;;
          let pa := PTE_ADDR e in
          let n := if sz - i <? PGSIZE then sz - i else PGSIZE in
          r <- vmf (readi (u32 (offset + i)) n) ;;
          vmk (modify (poke (fun m x => if inside (p2v pa) (length (snd r)) x then nthZ (snd r) (x - p2v pa) else m x))) ;;;
          if negb (u32 (fst r) =? n) then ret (-1)
          else loaduvm_loop fuel' pgdir addr offset (u32 (i + PGSIZE)) sz
      else ret 0
  end.

Definition loaduvm (pgdir addr offset sz : Z) : M (kmem * F) Z :=
  if negb (addr mod PGSIZE =? 0) then panic "loaduvm: addr must be page aligned"
  else loaduvm_loop (Z.to_nat (sz / PGSIZE + 1)) pgdir addr offset 0 sz.
End Load.
End Vm.
