(* ===== verification/VmBytes.v ===== *)
(** * Memory holds bytes (kalloc.c, vm.c)

    The type invariant of the memory the page routines work on: whatever they
    do, on every path, each cell holds a byte, so that the words read from it
    are 32-bit numbers. *)

From S2P Require Import Prelude.
From S2P Require Import Cstr.
From S2P Require Import Mmu.
From S2P Require Import Kalloc.
From S2P Require Import Vm.

Definition typed {A} (m : M kmem A) : Prop := hoare (fun s => mem_ok (km s)) m (fun _ s => mem_ok (km s)).

Lemma typed_ret {A} (a : A) : typed (ret a).
Proof. by apply hoare_ret. Qed.
Lemma typed_panic {A} msg : typed (panic msg : M kmem A).
Proof. apply hoare_panic. Qed.
Lemma typed_bind {A B} (m : M kmem A) (k : A -> M kmem B) : typed m -> (forall a, typed (k a)) -> typed (bind m k).
Proof. intros H Hk. by eapply hoare_bind. Qed.
Lemma typed_load a : typed (load32 a).
Proof. by apply hoare_gets. Qed.
Lemma typed_gets {A} (f : kmem -> A) : typed (gets f).
Proof. by apply hoare_gets. Qed.
Lemma typed_store a v : typed (store32 a v).
Proof. apply hoare_modify. intros s Hs. cbn. by apply st32_ok. Qed.
Lemma typed_freelist r : typed (modify (set_freelist r)).
Proof. by apply hoare_modify. Qed.
Lemma typed_lock b : typed (modify (set_use_lock b)).
Proof. by apply hoare_modify. Qed.
Lemma typed_print msg : typed (modify (kprint msg)).
Proof. by apply hoare_modify. Qed.
Lemma typed_memset v c n : typed (modify (poke (fun m => memset m v c n))).
Proof. apply hoare_modify. intros s Hs a. cbn. rewrite memset_fill. case_decide; [unfold byte_ok, u8; by apply Z.mod_pos_bound|apply Hs]. Qed.
Lemma typed_memmove d v n : typed (modify (poke (fun m => memmove m d v n))).
Proof. apply hoare_modify. intros s Hs a. cbn. rewrite memmove_bytes by done. destruct (inside d n a); apply Hs. Qed.
Lemma typed_copy v n buf : Forall byte_ok buf -> typed (modify (poke (fun m x => if inside v n x then nthZ buf (x - v) else m x))).
Proof.
  intros Hb. apply hoare_modify. intros s Hs a. cbn. destruct (inside v n a); [|apply Hs]. unfold nthZ.
  destruct (nth_in_or_default (Z.to_nat (a - v)) buf 0) as [Hin| ->]; [|done]. rewrite Forall_forall in Hb. by apply Hb, list_elem_of_In.
Qed.
Lemma typed_for {A B} (l : list A) (body : A -> M kmem (option B)) : (forall x, typed (body x)) -> typed (for_ l body).
Proof. intros H. by apply hoare_for. Qed.
Lemma typed_each {A} (l : list A) (body : A -> M kmem unit) : (forall x, typed (body x)) -> typed (each l body).
Proof. intros H. induction l as [|x l IH]; [apply typed_ret|]. cbn [each]. apply typed_bind; [apply H|done]. Qed.

(** What a routine does, together with its type. *)
Lemma runs_typed {A} (m : M kmem A) s Q : typed m -> mem_ok (km s) -> runs m s Q -> runs m s (fun a s' => Q a s' /\ mem_ok (km s')).
Proof. intros Ht Hs. unfold runs. specialize (Ht s Hs). by destruct (m s). Qed.

Create HintDb typed.
#[export] Hint Resolve typed_ret typed_panic typed_load typed_gets typed_store typed_freelist typed_lock typed_print typed_memset typed_memmove
  typed_copy : typed.

(** Straight-line code and its conditions. *)
Ltac typed_steps :=
  repeat first
    [ progress auto with typed
    | apply typed_each; intros ?
    | apply typed_for; intros ?
    | apply typed_bind; [|intros ?]
    | match goal with
      | |- typed (if ?b then _ else _) => destruct b
      | |- typed (match ?x with _ => _ end) => destruct x
      | |- typed (let _ := _ in _) => cbv zeta
      end ].

Section Bytes.
Context (kend kdata : Z).

Lemma typed_kfree v : typed (kfree kend v).
Proof. unfold kfree. typed_steps. Qed.
Lemma typed_kalloc : typed kalloc.
Proof. unfold kalloc. typed_steps. Qed.
#[local] Hint Resolve typed_kfree typed_kalloc : typed.

Lemma typed_freerange vstart vend : typed (freerange kend vstart vend).
Proof.
  assert (H : forall n p, typed (freerange_loop kend n p vend)); [|apply H].
  induction n as [|n IH]; intros p; cbn [freerange_loop]; typed_steps.
Qed.

Lemma typed_walk pgdir va alloc : typed (walkpgdir pgdir va alloc).
Proof. unfold walkpgdir. typed_steps. Qed.
#[local] Hint Resolve typed_walk : typed.

Lemma typed_mappages pgdir va size pa perm : typed (mappages pgdir va size pa perm).
Proof.
  assert (H : forall n a last p, typed (mappages_loop n pgdir a last p perm)); [|apply H].
  induction n as [|n IH]; intros a last p; cbn [mappages_loop]; typed_steps.
Qed.
#[local] Hint Resolve typed_mappages : typed.

Lemma typed_setupkvm : typed (setupkvm kdata).
Proof. unfold setupkvm. typed_steps. Qed.

Lemma typed_inituvm pgdir init sz : Forall byte_ok init -> typed (inituvm pgdir init sz).
Proof. intros Hi. unfold inituvm. typed_steps. Qed.

Lemma typed_deallocuvm pgdir oldsz newsz : typed (deallocuvm kend pgdir oldsz newsz).
Proof.
  unfold deallocuvm. destruct (newsz >=? oldsz); [apply typed_ret|]. apply typed_bind; [|intros _; apply typed_ret].
  assert (H : forall n a, typed (deallocuvm_loop kend n pgdir a oldsz)); [|apply H].
  induction n as [|n IH]; intros a; cbn [deallocuvm_loop]; typed_steps.
Qed.
#[local] Hint Resolve typed_setupkvm typed_deallocuvm : typed.

Lemma typed_allocuvm pgdir oldsz newsz : typed (allocuvm kend pgdir oldsz newsz).
Proof.
  assert (H : forall n a, typed (allocuvm_loop kend n pgdir a newsz oldsz)).
  { induction n as [|n IH]; intros a; cbn [allocuvm_loop]; typed_steps. }
  unfold allocuvm. typed_steps.
Qed.

Lemma typed_freevm pgdir : typed (freevm kend pgdir).
Proof. unfold freevm. typed_steps. Qed.
#[local] Hint Resolve typed_freevm : typed.

Lemma typed_copyuvm pgdir sz : typed (copyuvm kend kdata pgdir sz).
Proof.
  assert (H : forall n d i, typed (copyuvm_loop n pgdir d i sz)).
  { induction n as [|n IH]; intros d i; cbn [copyuvm_loop]; typed_steps. }
  unfold copyuvm. typed_steps.
Qed.

Lemma typed_copyout pgdir va buf : Forall byte_ok buf -> typed (copyout pgdir va buf).
Proof.
  assert (H : forall n va buf, Forall byte_ok buf -> typed (copyout_loop n pgdir va buf)); [|apply H].
  induction n as [|n IH]; intros va' buf' Hb; cbn [copyout_loop]; unfold uva2ka; typed_steps. apply IH. by apply Forall_drop.
Qed.

Lemma typed_clearpteu pgdir uva : typed (clearpteu pgdir uva).
Proof. unfold clearpteu. typed_steps. Qed.

(** The routines of kalloc.c and vm.c. *)
Inductive vroutine : forall {A}, M kmem A -> Prop :=
| v_kalloc : vroutine kalloc
| v_kfree v : vroutine (kfree kend v)
| v_freerange vstart vend : vroutine (freerange kend vstart vend)
| v_walk pgdir va alloc : vroutine (walkpgdir pgdir va alloc)
| v_mappages pgdir va size pa perm : vroutine (mappages pgdir va size pa perm)
| v_setupkvm : vroutine (setupkvm kdata)
| v_inituvm pgdir init sz : Forall byte_ok init -> vroutine (inituvm pgdir init sz)
| v_allocuvm pgdir oldsz newsz : vroutine (allocuvm kend pgdir oldsz newsz)
| v_deallocuvm pgdir oldsz newsz : vroutine (deallocuvm kend pgdir oldsz newsz)
| v_freevm pgdir : vroutine (freevm kend pgdir)
| v_clearpteu pgdir uva : vroutine (clearpteu pgdir uva)
| v_copyuvm pgdir sz : vroutine (copyuvm kend kdata pgdir sz)
| v_copyout pgdir va buf : Forall byte_ok buf -> vroutine (copyout pgdir va buf).

(** A call of one of them that returned. *)
Inductive vcall : kmem -> kmem -> Prop :=
| v_run {A} (m : M kmem A) a s s' : vroutine m -> m s = Done a s' -> vcall s s'.

Lemma vroutine_typed {A} (m : M kmem A) : vroutine m -> typed m.
Proof. destruct 1; auto using typed_freerange, typed_inituvm, typed_allocuvm, typed_clearpteu, typed_copyuvm, typed_copyout with typed. Qed.
End Bytes.



