(* ===== verification/VmSpec.v ===== *)
(** * What vm.c does to address spaces

    [pte m pgdir va] is the entry the hardware would find for [va].  The
    lemmas describe walkpgdir, mappages and the loops built on them by their
    effect on [pte], on the free list and on the rest of memory. *)

From S2P Require Import Prelude.
From S2P Require Import Cstr.
From S2P Require Import Mmu.
From S2P Require Import Kalloc.
From S2P Require Import Vm.

Definition pde (m : mem) (pgdir i : Z) : Z := ld32 m (pgdir + 4 * i).
Definition tab (m : mem) (pgdir i : Z) : Z := p2v (PTE_ADDR (pde m pgdir i)).
Definition pte_at (m : mem) (pgdir va : Z) : Z :=
  if test (pde m pgdir (PDX va)) PTE_P then tab m pgdir (PDX va) + 4 * PTX va else 0.
Definition pte (m : mem) (pgdir va : Z) : Z :=
  if pte_at m pgdir va =? 0 then 0 else ld32 m (pte_at m pgdir va).

(** [x] lies in none of the pages [X]. *)
Definition outside (X : gset Z) (x : Z) : Prop := forall v, v ∈ X -> ~ (v <= x < v + 4096).
Definition va_ok (va : Z) : Prop := 0 <= va < 4294967296.

Lemma PDX_range va : 0 <= PDX va < 1024.
Proof. unfold PDX. change 1023 with (Z.ones 10). rewrite Z.land_ones by lia. apply Z.mod_pos_bound. lia. Qed.
Lemma PTX_range va : 0 <= PTX va < 1024.
Proof. rewrite PTX_div. apply Z.mod_pos_bound. lia. Qed.

Lemma same_page va va' : va_ok va -> va_ok va' -> PDX va = PDX va' -> PTX va = PTX va' -> va / 4096 = va' / 4096.
Proof.
  intros H H'. rewrite !PDX_div, !PTX_div by done. change 4194304 with (4096 * 1024). rewrite <- !Z.div_div by lia.
  intros E1 E2. rewrite (Z.div_mod (va / 4096) 1024), (Z.div_mod (va' / 4096) 1024) by lia. by rewrite E1, E2.
Qed.

Lemma page_idx va va' : va / 4096 = va' / 4096 -> va_ok va -> va_ok va' -> PDX va = PDX va' /\ PTX va = PTX va'.
Proof.
  intros E H H'. rewrite !PDX_div, !PTX_div by done. change 4194304 with (4096 * 1024). rewrite <- !Z.div_div by lia. by rewrite E.
Qed.

(** The entry walkpgdir installs for a new page table. *)
Lemma new_pde v : v mod 4096 = 0 -> KERNBASE <= v < KERNBASE + PHYSTOP ->
  let e := Z.lor (Z.lor (Z.lor (v2p v) PTE_P) PTE_W) PTE_U in
  0 <= e < 4294967296 /\ test e PTE_P = true /\ p2v (PTE_ADDR e) = v.
Proof.
  intros Ha Hr e. destruct (p2v_v2p v) as [E1 E2]; [unfold KERNBASE, PHYSTOP in *; lia|].
  assert (Ee : e = Z.lor (v2p v) 7) by (unfold e, PTE_P, PTE_W, PTE_U; by rewrite <- !Z.lor_assoc).
  assert (Hm : v2p v mod 4096 = 0).
  { rewrite E2. unfold KERNBASE. rewrite <- (Z.mod_add _ 524288) by lia. by replace (v - 2147483648 + 524288 * 4096) with v by lia. }
  destruct (PTE_split (v2p v) 7 Hm ltac:(unfold KERNBASE, PHYSTOP in *; lia) ltac:(lia)) as [H1 H2].
  rewrite Ee. split_and!.
  - apply Z.lor_nonneg. lia.
  - assert (Hl : Z.lor (v2p v) 7 < 2 ^ 32); [|done].
    destruct (Z.eq_dec (v2p v) 0) as [->|Hz]; [done|].
    assert (0 < Z.lor (v2p v) 7) by (assert (Z.lor (v2p v) 7 <> 0) by (intros [? ?]%Z.lor_eq_0_iff; lia); pose proof (proj2 (Z.lor_nonneg (v2p v) 7)); lia).
    apply Z.log2_lt_pow2; [done|]. rewrite Z.log2_lor by (unfold KERNBASE in *; lia).
    apply Z.max_lub_lt; [apply Z.log2_lt_pow2; unfold KERNBASE, PHYSTOP in *; lia|done].
  - rewrite test_1, Z.lor_spec. change (Z.testbit 7 0) with true. apply orb_true_r.
  - by rewrite H1.
Qed.

Section Spec.
Context (kend : Z).
Hypothesis Hend : KERNBASE < kend.

(** The page tables of [pgdir] are distinct pages of the set [T]. *)
Record ptable (m : mem) (pgdir : Z) (T : gset Z) : Prop := {
  pt_dir : page kend pgdir;
  pt_dirT : pgdir ∉ T;
  pt_pages : forall t, t ∈ T -> page kend t;
  pt_in : forall i, 0 <= i < 1024 -> test (pde m pgdir i) PTE_P = true -> tab m pgdir i ∈ T;
  pt_inj : forall i j, 0 <= i < 1024 -> 0 <= j < 1024 -> test (pde m pgdir i) PTE_P = true ->
    test (pde m pgdir j) PTE_P = true -> tab m pgdir i = tab m pgdir j -> i = j;
  pt_all : forall t, t ∈ T -> exists i, 0 <= i < 1024 /\ test (pde m pgdir i) PTE_P = true /\ tab m pgdir i = t
}.

(** [pgdir] with tables [T] and the free list [l] do not overlap. *)
Record vspace (s : kmem) (l : list Z) (pgdir : Z) (T : gset Z) : Prop := {
  vs_tab : ptable (km s) pgdir T;
  vs_free : free_ok kend s l;
  vs_disj : forall v, v ∈ l -> v <> pgdir /\ v ∉ T
}.

Lemma size_set_le (l : list Z) : (size (list_to_set l : gset Z) <= length l)%nat.
Proof.
  induction l as [|x l IH]; [done|]. cbn [list_to_set length]. rewrite size_union_alt, size_singleton.
  assert (Hs : (size ((list_to_set l : gset Z) ∖ {[x]}) <= size (list_to_set l : gset Z))%nat) by (apply subseteq_size; set_solver). lia.
Qed.

(** A directory has at most as many tables as entries. *)
Lemma ptable_size m pgdir T : ptable m pgdir T -> (size T <= 1024)%nat.
Proof.
  intros Ht. assert (Hsub : T ⊆ list_to_set ((fun i => tab m pgdir (Z.of_nat i)) <$> seq 0 1024)).
  { intros t Hin. destruct (pt_all _ _ _ Ht t Hin) as (i & Hi & _ & <-). apply elem_of_list_to_set, list_elem_of_fmap. exists (Z.to_nat i).
    split; [by rewrite Z2Nat.id by lia|]. apply elem_of_seq. lia. }
  apply subseteq_size in Hsub. etrans; [exact Hsub|]. etrans; [apply size_set_le|]. by rewrite length_fmap, length_seq.
Qed.

Lemma page_pos v : page kend v -> 0 < v /\ v + 4096 <= 4294967296 /\ KERNBASE <= v < KERNBASE + PHYSTOP.
Proof.
  intros (H1 & H2 & H3). unfold KERNBASE, PHYSTOP in *. split; [lia|]. split; [|lia].
  pose proof (Z.div_mod v 4096). lia.
Qed.

(** An entry of a page directory or table lies in its page. *)
Lemma entry_in v i x : 0 <= i < 1024 -> v + 4 * i <= x < v + 4 * i + 4 -> v <= x < v + 4096.
Proof. lia. Qed.

Lemma pde_frame m m' pgdir i X : 0 <= i < 1024 -> page kend pgdir -> (forall v, v ∈ X -> page kend v) -> pgdir ∉ X ->
  (forall x, outside X x -> m' x = m x) -> pde m' pgdir i = pde m pgdir i.
Proof.
  intros Hi Hp HX Hn Hx. apply ld32_ext. intros x Hr. apply Hx. intros v Hv Hv'.
  apply (pages_apart kend pgdir v x); [done|auto|by intros ->|lia|done].
Qed.

(** Pages outside a page table and its entries do not matter to it. *)
Lemma ptable_frame m m' pgdir T X : ptable m pgdir T -> (forall v, v ∈ X -> page kend v) -> pgdir ∉ X ->
  (forall x, outside X x -> m' x = m x) -> ptable m' pgdir T.
Proof.
  intros [H1 H2 H3 H4 H5 H6] HX Hn Hx.
  assert (E : forall i, 0 <= i < 1024 -> pde m' pgdir i = pde m pgdir i) by (intros i Hi; by eapply pde_frame).
  assert (E' : forall i, 0 <= i < 1024 -> tab m' pgdir i = tab m pgdir i) by (intros i Hi; unfold tab; by rewrite E).
  split; try done.
  - intros i Hi. rewrite E, E' by done. auto.
  - intros i j Hi Hj. rewrite !E, !E' by done. auto.
  - intros t Ht. destruct (H6 t Ht) as (i & Hi & Hp & Et). exists i. by rewrite E, E' by done.
Qed.

Lemma pte_frame m m' pgdir T X va : ptable m pgdir T -> (forall v, v ∈ X -> page kend v) -> pgdir ∉ X -> T ## X ->
  (forall x, outside X x -> m' x = m x) -> pte_at m' pgdir va = pte_at m pgdir va /\ pte m' pgdir va = pte m pgdir va.
Proof.
  intros Ht HX Hn HT Hx. pose proof (PDX_range va) as Hr. assert (E : pte_at m' pgdir va = pte_at m pgdir va).
  { unfold pte_at, tab. rewrite (pde_frame m m' pgdir (PDX va) X) by (done || apply Ht). done. }
  split; [done|]. unfold pte. rewrite E. destruct (Z.eqb_spec (pte_at m pgdir va) 0); [done|].
  apply ld32_ext. intros x Hx'. apply Hx. intros v Hv Hv'. unfold pte_at in *.
  destruct (test (pde m pgdir (PDX va)) PTE_P) eqn:Ep; [|done]. pose proof (pt_in _ _ _ Ht _ Hr Ep) as Hin.
  apply (pages_apart kend (tab m pgdir (PDX va)) v x); [by apply (pt_pages _ _ _ Ht)|auto|set_solver| |done].
  pose proof (PTX_range va). lia.
Qed.

Lemma walk_eq pgdir va s : walkpgdir pgdir va false s = Done (pte_at (km s) pgdir va) s.
Proof. unfold walkpgdir, load32, bind, gets, ret, pte_at, tab, pde. by destruct (test _ _). Qed.
(** ** Adding a page table *)

Section NewTable.
Context (m : mem) (pgdir v i : Z) (T : gset Z).
Hypotheses (Ht : ptable m pgdir T) (Hi : 0 <= i < 1024) (Hv : page kend v) (Hvd : v <> pgdir) (HvT : v ∉ T)
  (Hn : test (pde m pgdir i) PTE_P = false).

Let e := Z.lor (Z.lor (Z.lor (v2p v) PTE_P) PTE_W) PTE_U.
Let m' := st32 (memset m v 0 (Z.to_nat PGSIZE)) (pgdir + 4 * i) e.

Lemma nt_frame x : outside {[pgdir; v]} x -> m' x = m x.
Proof.
  intros Hx. unfold m'. rewrite st32_ne, memset_fill.
  - change (Z.of_nat (Z.to_nat PGSIZE)) with 4096. rewrite decide_False; [done|]. apply Hx. set_solver.
  - specialize (Hx pgdir ltac:(set_solver)). lia.
Qed.

Lemma nt_pde j : 0 <= j < 1024 -> pde m' pgdir j = if decide (j = i) then e else pde m pgdir j.
Proof.
  intros Hj. unfold pde, m'. destruct (page_pos _ Hv) as (_ & _ & Hr). destruct Hv as (Ha & _).
  destruct (new_pde v Ha Hr) as (He & _). fold e in He. case_decide as E.
  - subst. by rewrite ld32_st32_eq, u32_id.
  - rewrite ld32_st32_ne by lia. apply ld32_ext. intros x Hx. rewrite memset_fill.
    change (Z.of_nat (Z.to_nat PGSIZE)) with 4096. rewrite decide_False; [done|].
    apply (pages_apart kend pgdir v); [apply Ht|done|done|lia].
Qed.

Lemma nt_tab j : 0 <= j < 1024 -> tab m' pgdir j = if decide (j = i) then v else tab m pgdir j.
Proof.
  intros Hj. unfold tab. rewrite nt_pde by done. case_decide; [|done]. destruct (page_pos _ Hv) as (_ & _ & Hr).
  by apply (new_pde v); [apply Hv|].
Qed.

Lemma nt_test j : 0 <= j < 1024 -> test (pde m' pgdir j) PTE_P = if decide (j = i) then true else test (pde m pgdir j) PTE_P.
Proof.
  intros Hj. rewrite nt_pde by done. case_decide; [|done]. destruct (page_pos _ Hv) as (_ & _ & Hr).
  by apply (new_pde v); [apply Hv|].
Qed.

Lemma nt_ptable : ptable m' pgdir ({[v]} ∪ T).
Proof.
  destruct Ht as [H1 H2 H3 H4 H5 H6]. split; [done|set_solver| | | |].
  - intros t [->%elem_of_singleton|Hin]%elem_of_union; auto.
  - intros j Hj. rewrite nt_test, nt_tab by done. case_decide; [set_solver|]. intros Hp. specialize (H4 j Hj Hp). set_solver.
  - intros j k Hj Hk. rewrite !nt_test, !nt_tab by done. repeat case_decide; intros Hp Hq E; try congruence.
    + exfalso. specialize (H4 k Hk Hq). congruence.
    + exfalso. specialize (H4 j Hj Hp). congruence.
    + auto.
  - intros t [->%elem_of_singleton|Hin]%elem_of_union.
    + exists i. by rewrite nt_test, nt_tab, !decide_True by done.
    + destruct (H6 t Hin) as (j & Hj & Hp & Et). exists j. rewrite nt_test, nt_tab by done. case_decide as E; [by rewrite E, Hn in Hp|done].
Qed.

Lemma nt_pte va : pte m' pgdir va = pte m pgdir va.
Proof.
  pose proof (PDX_range va) as Hr. pose proof (PTX_range va) as Hr'. destruct (page_pos _ Hv) as (Hv0 & _).
  unfold pte, pte_at. rewrite nt_test, nt_tab by done. case_decide as E.
  - rewrite E, Hn. cbn [Z.eqb]. destruct (Z.eqb_spec (v + 4 * PTX va) 0); [done|].
    unfold m', ld32. assert (Hz : forall k, 0 <= k < 4 -> st32 (memset m v 0 (Z.to_nat PGSIZE)) (pgdir + 4 * i) e (v + 4 * PTX va + k) = 0).
    { intros k Hk. rewrite st32_ne, memset_fill.
      - change (Z.of_nat (Z.to_nat PGSIZE)) with 4096. by rewrite decide_True by lia.
      - destruct (Z_lt_le_dec (v + 4 * PTX va + k) (pgdir + 4 * i)); [by left|]. right.
        destruct (Z_lt_le_dec (v + 4 * PTX va + k) (pgdir + 4 * i + 4)); [|done]. exfalso.
        apply (pages_apart kend v pgdir (v + 4 * PTX va + k)); [done|apply Ht|done|lia|lia]. }
    rewrite <- (Z.add_0_r (v + 4 * PTX va)) at 1. rewrite !Hz by lia. done.
  - destruct (test (pde m pgdir (PDX va)) PTE_P) eqn:Ep; [|done]. destruct (_ =? 0); [done|]. apply ld32_ext.
    intros x Hx. apply nt_frame. pose proof (pt_in _ _ _ Ht _ Hr Ep) as Hin. intros w Hw Hw'.
    apply (pages_apart kend (tab m pgdir (PDX va)) w x); [by apply (pt_pages _ _ _ Ht)| | |lia|done].
    + destruct (decide (w = v)) as [->|]; [done|]. assert (w = pgdir) as -> by set_solver. apply Ht.
    + intros E'. rewrite E' in Hin. apply elem_of_union in Hw as [Ew%elem_of_singleton|Ew%elem_of_singleton]; rewrite Ew in Hin; [|done].
      by apply (pt_dirT _ _ _ Ht).
Qed.
End NewTable.

Lemma walk_alloc s l pgdir T va : vspace s l pgdir T ->
  runs (walkpgdir pgdir va true) s (fun a s' =>
    (a = 0 /\ l = [] /\ s' = s) \/
    (a <> 0 /\ a = pte_at (km s') pgdir va /\ exists k l', l = k ++ l' /\ (length k <= 1)%nat /\ vspace s' l' pgdir (list_to_set k ∪ T) /\
       (forall va', pte (km s') pgdir va' = pte (km s) pgdir va') /\
       (forall x, outside ({[pgdir]} ∪ list_to_set k) x -> km s' x = km s x))).
Proof.
  intros [Ht Hf Hd]. pose proof (PDX_range va) as Hr. pose proof (PTX_range va) as Hr'. unfold walkpgdir.
  apply runs_bind, runs_gets. change (ld32 (km s) (pgdir + 4 * PDX va)) with (pde (km s) pgdir (PDX va)).
  destruct (test (pde (km s) pgdir (PDX va)) PTE_P) eqn:Ep.
  - apply runs_ret. right. pose proof (pt_in _ _ _ Ht _ Hr Ep) as Hin.
    destruct (page_pos _ (pt_pages _ _ _ Ht _ Hin)) as (Hp & _). unfold pte_at. rewrite Ep. fold (tab (km s) pgdir (PDX va)).
    split; [lia|]. split; [done|]. exists [], l. split; [done|]. split; [cbn; lia|]. split; [|done].
    replace (list_to_set [] ∪ T) with T by set_solver. done.
  - cbn [negb]. destruct (kalloc_spec kend Hend s l Hf) as [Ek Hk]. apply runs_bind. unfold runs at 1. rewrite Ek.
    destruct l as [|v l]; [by left|]. destruct Hk as (Hf' & Hv & Hvl). destruct (page_pos _ Hv) as (Hv0 & _).
    destruct (Z.eqb_spec v 0); [lia|]. destruct (Hd v ltac:(set_solver)) as [Hvd HvT].
    apply runs_bind, runs_modify, runs_bind, runs_modify, runs_ret. right. cbn [poke set_freelist km freelist].
    split; [lia|]. split.
    { unfold pte_at. rewrite (nt_test (km s) pgdir v (PDX va) T), (nt_tab (km s) pgdir v (PDX va) T) by done. by rewrite !decide_True. }
    exists [v], l. split; [done|]. split; [done|]. replace (list_to_set [v] ∪ T) with ({[v]} ∪ T) by set_solver. split; [split|split].
    + by apply nt_ptable.
    + destruct Hf' as [F1 F2 F3]. split; try done. cbn [poke set_freelist km freelist] in *.
      eapply flist_ext; [|exact F1]. intros w Hw. apply ld32_ext. intros x Hx. apply (nt_frame (km s) pgdir v (PDX va) T); try done.
      intros u Hu. rewrite Forall_forall in F2. apply (pages_apart kend w u); [auto| | |lia].
      * destruct (decide (u = v)) as [->|]; [done|]. assert (u = pgdir) as -> by set_solver. apply Ht.
      * intros ->. destruct (Hd u ltac:(set_solver)). set_solver.
    + intros w Hw. destruct (Hd w ltac:(set_solver)). split; [done|]. intros [->%elem_of_singleton|?]%elem_of_union; done.
    + intros va'. by apply (nt_pte (km s) pgdir v (PDX va) T).
    + intros x Hx. apply (nt_frame (km s) pgdir v (PDX va) T); try done. intros u Hu. apply Hx. set_solver.
Qed.
(** ** Storing an entry *)

Lemma pte_at_in s l pgdir T va : vspace s l pgdir T -> pte_at (km s) pgdir va <> 0 ->
  tab (km s) pgdir (PDX va) ∈ T /\ pte_at (km s) pgdir va = tab (km s) pgdir (PDX va) + 4 * PTX va /\
  test (pde (km s) pgdir (PDX va)) PTE_P = true.
Proof.
  intros Hs Hn. unfold pte_at in *. destruct (test _ _) eqn:E; [|done]. split; [|done].
  by apply (pt_in _ _ _ (vs_tab _ _ _ _ Hs)); [apply PDX_range|].
Qed.

Lemma free_frame s m' l X : free_ok kend s l -> (forall v, v ∈ X -> page kend v /\ v ∉ l) ->
  (forall x, outside X x -> m' x = km s x) -> free_ok kend (poke (fun _ => m') s) l.
Proof.
  intros [F1 F2 F3] HX Hx. split; try done. cbn [poke km freelist]. eapply flist_ext; [|exact F1].
  intros w Hw. apply ld32_ext. intros x Hr. apply Hx. intros u Hu. destruct (HX u Hu) as [Hp Hn]. rewrite Forall_forall in F2.
  apply (pages_apart kend w u); [auto|done|by intros ->|lia].
Qed.

Lemma set_pte s l pgdir T va v : vspace s l pgdir T -> va_ok va -> pte_at (km s) pgdir va <> 0 -> 0 <= v < 4294967296 ->
  let s' := poke (fun m => st32 m (pte_at (km s) pgdir va) v) s in
  vspace s' l pgdir T /\
  (forall va', va_ok va' -> pte (km s') pgdir va' = if decide (va' / 4096 = va / 4096) then v else pte (km s) pgdir va') /\
  (forall va', pte_at (km s') pgdir va' = pte_at (km s) pgdir va') /\
  (forall x, outside T x -> km s' x = km s x).
Proof.
  intros Hs Hva Hn Hv s'. destruct (pte_at_in s l pgdir T va Hs Hn) as (Hin & Ea & Ep). pose proof (PTX_range va) as Hx.
  destruct Hs as [Ht Hf Hd]. set (t := tab (km s) pgdir (PDX va)) in *.
  assert (Hfr : forall x, outside {[t]} x -> km s' x = km s x).
  { intros x Ho. cbn. apply st32_ne. rewrite Ea. specialize (Ho t ltac:(set_solver)). lia. }
  assert (Hpg : forall w, w ∈ ({[t]} : gset Z) -> page kend w) by (intros w ->%elem_of_singleton; by apply (pt_pages _ _ _ Ht)).
  assert (Hnt : pgdir ∉ ({[t]} : gset Z)) by (intros E%elem_of_singleton; apply (pt_dirT _ _ _ Ht); by rewrite E).
  assert (Hpde : forall i, 0 <= i < 1024 -> pde (km s') pgdir i = pde (km s) pgdir i).
  { intros i Hi. apply (pde_frame _ _ _ _ {[t]}); try done. apply Ht. }
  assert (Hat : forall va', pte_at (km s') pgdir va' = pte_at (km s) pgdir va').
  { intros va'. unfold pte_at, tab. by rewrite Hpde by apply PDX_range. }
  split_and!; [split| |done|].
  - by apply (ptable_frame (km s) _ pgdir T {[t]}).
  - apply (free_frame s (km s') l {[t]} Hf); [|done]. intros w Hw. split; [auto|]. intros Hl. apply elem_of_singleton in Hw as ->.
    by destruct (Hd _ Hl).
  - done.
  - intros va' Hva'. unfold pte. rewrite Hat. case_decide as E.
    + destruct (page_idx va' va E Hva' Hva) as [E1 E2]. assert (Eq : pte_at (km s) pgdir va' = pte_at (km s) pgdir va) by (unfold pte_at; by rewrite E1, E2).
      rewrite Eq. destruct (Z.eqb_spec (pte_at (km s) pgdir va) 0); [done|]. unfold s'. cbn [poke km]. by rewrite ld32_st32_eq, u32_id.
    + destruct (Z.eqb_spec (pte_at (km s) pgdir va') 0) as [|Hn']; [done|]. unfold s'. cbn [poke km]. apply ld32_st32_ne.
      assert (Hs : vspace s l pgdir T) by done. destruct (pte_at_in s l pgdir T va' Hs Hn') as (Hin' & Ea' & Ep').
      rewrite Ea, Ea'. pose proof (PTX_range va'). destruct (decide (PDX va' = PDX va)) as [Ed|Ed].
      * rewrite Ed in *. fold t. assert (PTX va' <> PTX va); [|lia]. intros Et. by apply E, same_page.
      * assert (Htt : tab (km s) pgdir (PDX va') <> t).
        { intros Et. apply Ed. apply (pt_inj _ _ _ Ht); [apply PDX_range|apply PDX_range|done|done|done]. }
        destruct (pt_pages _ _ _ Ht _ Hin) as (M1 & _). destruct (pt_pages _ _ _ Ht _ Hin') as (M2 & _).
        pose proof (Z.div_mod t 4096). pose proof (Z.div_mod (tab (km s) pgdir (PDX va')) 4096). lia.
  - intros x Ho. apply Hfr. intros w ->%elem_of_singleton. by apply Ho.
Qed.

(** ** mappages *)

(** [n] pages from [a] on are mapped to [pa] on; other entries stay. *)
Definition maps (m m' : mem) (pgdir a : Z) (n : nat) (pa perm : Z) : Prop := forall va, va_ok va ->
  pte m' pgdir va = if decide (a <= va < a + 4096 * Z.of_nat n) then Z.lor (Z.lor (pa + (va / 4096 * 4096 - a)) perm) PTE_P
                    else pte m pgdir va.

Lemma pte_val_range pa perm : pa mod 4096 = 0 -> 0 <= pa < 4294967296 -> 0 <= perm < 4096 ->
  0 <= Z.lor (Z.lor pa perm) PTE_P < 4294967296.
Proof.
  intros Ha Hp Hm. assert (E : Z.lor (Z.lor pa perm) PTE_P = pa + Z.lor perm PTE_P).
  { rewrite <- Z.lor_assoc. assert (Hl : Z.land pa (Z.lor perm PTE_P) = 0).
    { rewrite Z.land_lor_distr_r. apply Z.lor_eq_0_iff.
      assert (Hx : forall f, 0 <= f < 4096 -> Z.land pa f = 0); [|split; apply Hx; unfold PTE_P; lia].
      intros f Hf. rewrite <- (Z.mod_small f (2 ^ 12)) by (change (2 ^ 12) with 4096; lia). rewrite <- Z.land_ones by lia.
      rewrite (Z.land_comm f), Z.land_assoc, Z.land_ones by lia. change (2 ^ 12) with 4096. by rewrite Ha. }
    pose proof (Z.add_lor_land pa (Z.lor perm PTE_P)). lia. }
  rewrite E. assert (Hlo : 0 <= Z.lor perm PTE_P) by (apply Z.lor_nonneg; unfold PTE_P; lia).
  assert (Hle : Z.lor perm PTE_P < 4096).
  { destruct (Z.eq_dec (Z.lor perm PTE_P) 0); [lia|]. change 4096 with (2 ^ 12). apply Z.log2_lt_pow2; [lia|].
    rewrite Z.log2_lor by (unfold PTE_P; lia). apply Z.max_lub_lt; [|done].
    destruct (Z.eq_dec perm 0) as [->|]; [done|]. apply Z.log2_lt_pow2; lia. }
  pose proof (Z.div_mod pa 4096). lia.
Qed.
(** [j] pages have been mapped, with tables taken from the front of the free
    list [l]. *)
Definition map_result (s : kmem) (l : list Z) (pgdir : Z) (T : gset Z) (a pa perm : Z) (j : nat) (s' : kmem) (l' : list Z) : Prop :=
  exists k, l = k ++ l' /\ (length k <= j)%nat /\ vspace s' l' pgdir (list_to_set k ∪ T) /\ maps (km s) (km s') pgdir a j pa perm /\
  forall x, outside ({[pgdir]} ∪ (list_to_set k ∪ T)) x -> km s' x = km s x.

Lemma maps_first m m1 m2 pgdir a pa perm v : a mod 4096 = 0 -> va_ok a ->
  (forall va, pte m1 pgdir va = pte m pgdir va) -> v = Z.lor (Z.lor pa perm) PTE_P ->
  (forall va, va_ok va -> pte m2 pgdir va = if decide (va / 4096 = a / 4096) then v else pte m1 pgdir va) ->
  maps m m2 pgdir a 1 pa perm.
Proof.
  intros Ha Hv E1 -> E2 va Hva. rewrite E2, E1 by done. pose proof (Z.div_mod a 4096). pose proof (Z.div_mod va 4096).
  pose proof (Z.mod_pos_bound va 4096). destruct (decide (va / 4096 = a / 4096)) as [E|E].
  - rewrite decide_True by lia. do 2 f_equal. lia.
  - rewrite decide_False by lia. done.
Qed.

Lemma maps_cons m m1 m2 pgdir a pa perm n : a mod 4096 = 0 -> maps m m1 pgdir a 1 pa perm ->
  maps m1 m2 pgdir (a + 4096) n (pa + 4096) perm -> maps m m2 pgdir a (S n) pa perm.
Proof.
  intros Ha H1 H2 va Hva. rewrite H2, H1 by done. destruct (decide (a + 4096 <= va < a + 4096 + 4096 * Z.of_nat n)) as [E|E].
  - rewrite decide_True by lia. do 2 f_equal. lia.
  - destruct (decide (a <= va < a + 4096 * Z.of_nat 1)); [rewrite decide_True by lia; done|]. rewrite decide_False by lia. done.
Qed.

Lemma maps_nil m pgdir a pa perm : maps m m pgdir a 0 pa perm.
Proof. intros va _. by rewrite decide_False by lia. Qed.

(** One round: the entry for [a] is found or its table created, and set. *)
Lemma map_one {A} s l pgdir T a pa perm (k : M kmem A) Q (q : A) : vspace s l pgdir T -> a mod 4096 = 0 -> va_ok a ->
  pa mod 4096 = 0 -> 0 <= pa < 4294967296 -> 0 <= perm < 4096 -> test (pte (km s) pgdir a) PTE_P = false ->
  (l = [] -> Q q s) ->
  (forall s1 l1, map_result s l pgdir T a pa perm 1 s1 l1 -> runs k s1 Q) ->
  runs (pte <- walkpgdir pgdir a true ;;
        if pte =? 0 then ret q
        else
          e <- load32 pte ;;
          if test e PTE_P then panic "remap"
          else store32 pte (Z.lor (Z.lor pa perm) PTE_P) ;;; k) s Q.
Proof.
  intros Hs Ha Hva Hpa Hpr Hperm Hnp Hfail Hok. eapply runs_seq; [by apply walk_alloc|]. cbv beta.
  intros e s1 [(-> & Hl & ->)|(Hne & He & k1 & l1 & -> & Hk1 & Hs1 & Hp1 & Hx1)]; [apply runs_ret; auto|].
  destruct (Z.eqb_spec e 0); [done|]. apply runs_bind, runs_gets.
  assert (Hld : ld32 (km s1) e = pte (km s) pgdir a) by (rewrite <- Hp1; unfold pte; rewrite <- He; by destruct (Z.eqb_spec e 0)).
  rewrite Hld, Hnp. apply runs_bind, runs_modify. rewrite He in *. eapply Hok. exists k1. split; [done|]. split; [done|].
  destruct (set_pte s1 l1 pgdir _ a (Z.lor (Z.lor pa perm) PTE_P) Hs1 Hva Hne (pte_val_range pa perm Hpa Hpr Hperm)) as (H1 & H2 & _ & H4).
  split; [exact H1|]. split; [by eapply maps_first|]. intros x Ho. rewrite H4, Hx1; [done| |]; intros v Hv; apply Ho; set_solver.
Qed.

Lemma mappages_loop_spec n fuel s l pgdir T a pa perm : vspace s l pgdir T -> a mod 4096 = 0 -> pa mod 4096 = 0 ->
  0 <= a -> 0 <= pa -> a + 4096 * Z.of_nat (S n) <= 4294967296 -> pa + 4096 * Z.of_nat (S n) <= 4294967296 -> 0 <= perm < 4096 ->
  (forall va, a <= va < a + 4096 * Z.of_nat (S n) -> test (pte (km s) pgdir va) PTE_P = false) -> (n < fuel)%nat ->
  runs (mappages_loop fuel pgdir a (a + 4096 * Z.of_nat n) pa perm) s (fun r s' => exists j l',
    (r = 0 /\ j = S n \/ r = -1 /\ (j <= n)%nat /\ l' = []) /\ map_result s l pgdir T a pa perm j s' l').
Proof.
  revert fuel s l T a pa. induction n as [|n IH]; intros fuel s l T a pa Hs Ha Hpa Ha0 Hp0 Har Hpr Hperm Hnp Hf;
    (destruct fuel as [|fuel]; [lia|]); cbn [mappages_loop];
    (apply (map_one s l pgdir T); try done; [unfold va_ok; lia|lia|apply Hnp; lia| |]).
  - intros ->. exists 0%nat, []. split; [by right|]. exists []. split_and!; [done|cbn; lia| |apply maps_nil|done].
    by replace (list_to_set [] ∪ T) with T by set_solver.
  - intros s1 l1 H1. rewrite (proj2 (Z.eqb_eq _ _)) by lia. apply runs_ret. exists 1%nat, l1. split; [by left|done].
  - intros ->. exists 0%nat, []. split; [right; split_and!; [done|lia|done]|]. exists []. split_and!; [done|cbn; lia| |apply maps_nil|done].
    by replace (list_to_set [] ∪ T) with T by set_solver.
  - intros s1 l1 H1. rewrite (proj2 (Z.eqb_neq _ _)) by lia. unfold PGSIZE. rewrite !u32_id by lia.
    replace (a + 4096 * Z.of_nat (S n)) with (a + 4096 + 4096 * Z.of_nat n) by lia.
    destruct (H1) as (k & El & Hk & Hs1 & Hm1 & Hx1).
    eapply runs_mono; [apply (IH fuel s1 l1 _ (a + 4096) (pa + 4096) Hs1)|].
    + by rewrite <- Z.add_mod_idemp_r, Z.mod_same, Z.add_0_r by lia.
    + by rewrite <- Z.add_mod_idemp_r, Z.mod_same, Z.add_0_r by lia.
    + lia.
    + lia.
    + lia.
    + lia.
    + done.
    + intros va Hva. rewrite Hm1 by (unfold va_ok; lia). rewrite decide_False by lia. apply Hnp. lia.
    + lia.
    + cbv beta. intros r s' (j & l' & Hr & Hm). exists (S j), l'. split; [destruct Hr as [[-> ->]|(-> & ? & ->)]; [by left|right; split_and!; [done|lia|done]]|].
      destruct Hm as (k' & E' & Hk' & Hs' & Hm' & Hx'). subst l1 l. exists (k ++ k'). rewrite app_assoc. split; [done|].
      split; [rewrite length_app; lia|]. rewrite list_to_set_app_L.
      replace (list_to_set k ∪ list_to_set k' ∪ T) with (list_to_set k' ∪ (list_to_set k ∪ T)) by set_solver.
      split_and!; [done|by eapply maps_cons|]. intros x Ho. rewrite Hx', Hx1; [done| |done]. intros v Hv. apply Ho. set_solver.
Qed.
(** The pages a range of addresses touches. *)
Definition last_page (va size : Z) : Z := (va + size - 1) / 4096.
Definition range_pages (va size : Z) : nat := Z.to_nat (last_page va size - va / 4096 + 1).

Lemma mappages_spec s l pgdir T va size pa perm : vspace s l pgdir T -> 0 <= va -> 0 < size -> va + size <= 4294967296 ->
  pa mod 4096 = 0 -> 0 <= pa -> pa + 4096 * Z.of_nat (range_pages va size) <= 4294967296 -> 0 <= perm < 4096 ->
  (forall x, va / 4096 * 4096 <= x < va / 4096 * 4096 + 4096 * Z.of_nat (range_pages va size) -> test (pte (km s) pgdir x) PTE_P = false) ->
  runs (mappages pgdir va size pa perm) s (fun r s' => exists j l',
    (r = 0 /\ j = range_pages va size \/ r = -1 /\ (j < range_pages va size)%nat /\ l' = []) /\
    map_result s l pgdir T (va / 4096 * 4096) pa perm j s' l').
Proof.
  intros Hs Hva Hsz Hend' Hpa Hp0 Hpr Hperm Hnp. unfold mappages. cbv zeta. rewrite (u32_id (va + size - 1)) by lia. rewrite !PGROUNDDOWN_div by lia.
  fold (last_page va size). set (q := va / 4096) in *. set (q' := last_page va size) in *.
  assert (Hq : 0 <= q <= q').
  { unfold q, q', last_page. split; [apply Z.div_pos; lia|]. apply Z.div_le_mono; lia. }
  assert (Hq' : q' < 1048576) by (unfold q', last_page; apply Z.div_lt_upper_bound; lia).
  unfold range_pages in *. fold q' q in Hnp, Hpr |- *. assert (En : exists n, Z.to_nat (q' - q + 1) = S n) by (exists (Z.to_nat (q' - q)); lia).
  destruct En as [n En]. rewrite En in Hpr, Hnp |- *. replace (q' * 4096) with (q * 4096 + 4096 * Z.of_nat n) by lia.
  rewrite u32_id by lia. replace (q * 4096 + 4096 * Z.of_nat n - q * 4096) with (Z.of_nat n * 4096) by lia.
  unfold PGSIZE. rewrite Z.div_mul, Nat2Z.id by lia.
  eapply runs_mono; [apply (mappages_loop_spec n (S n) s l pgdir T (q * 4096) pa perm); try done; try lia; by rewrite Z.mod_mul|].
  cbv beta. intros r s' (j & l' & Hr & Hm). exists j, l'. split; [|done]. destruct Hr as [?|(? & ? & ?)]; [by left|right]. split_and!; [done|lia|done].
Qed.

(** C14: mappages maps every page that overlaps [va, va + size) to
    consecutive physical pages from [pa] with the permissions and the present
    bit, and leaves the translation of every other address as it was; new
    page tables come off the free list, and no other memory changes.  It
    returns -1 only when the free list is empty. *)
Theorem mappages_correct s l pgdir T va size pa perm : vspace s l pgdir T -> 0 <= va -> 0 < size -> va + size <= 4294967296 ->
  pa mod 4096 = 0 -> 0 <= pa -> pa + 4096 * Z.of_nat (range_pages va size) <= 4294967296 -> 0 <= perm < 4096 ->
  (forall x, va / 4096 * 4096 <= x < va / 4096 * 4096 + 4096 * Z.of_nat (range_pages va size) -> test (pte (km s) pgdir x) PTE_P = false) ->
  runs (mappages pgdir va size pa perm) s (fun r s' => exists k l', l = k ++ l' /\ free_ok kend s' l' /\
    (r = 0 \/ r = -1 /\ l' = []) /\
    (r = 0 -> forall x, va_ok x -> pte (km s') pgdir x =
       if decide (va / 4096 <= x / 4096 <= last_page va size) then Z.lor (Z.lor (pa + (x / 4096 - va / 4096) * 4096) perm) PTE_P
       else pte (km s) pgdir x) /\
    forall x, outside ({[pgdir]} ∪ (list_to_set k ∪ T)) x -> km s' x = km s x).
Proof.
  intros Hs Hva Hsz He Hpa Hp0 Hpr Hperm Hnp. eapply runs_mono; [by apply (mappages_spec s l pgdir T)|]. cbv beta.
  intros r s' (j & l' & Hr & k & -> & _ & Hs' & Hm & Hx). exists k, l'. split; [done|]. split; [apply Hs'|].
  split; [destruct Hr as [[-> _]|(-> & _ & ->)]; [by left|by right]|]. split; [|done].
  intros -> x Hxo. destruct Hr as [[_ ->]|[? _]]; [|done]. rewrite Hm by done. unfold range_pages.
  assert (0 <= va / 4096 <= last_page va size).
  { unfold last_page. split; [apply Z.div_pos; lia|]. apply Z.div_le_mono; lia. }
  pose proof (Z.div_mod x 4096). pose proof (Z.mod_pos_bound x 4096).
  destruct (decide (va / 4096 <= x / 4096 <= last_page va size)) as [E|E].
  - rewrite decide_True by lia. do 2 f_equal. lia.
  - rewrite decide_False by lia. done.
Qed.
End Spec.

Module MapDemo.
Definition kend0 : Z := 2148564992.
Definition dir0 : Z := 2148569088.
Definition s0 : kmem := mkkmem (fun _ => 0) 2148573184 false [].

Lemma zero_word a : ld32 (fun _ => 0) a = 0.
Proof. reflexivity. Qed.
Lemma zero_pde i : test (pde (fun _ => 0) dir0 i) PTE_P = false.
Proof. unfold pde. by rewrite zero_word. Qed.

Lemma s0_space : vspace kend0 s0 [2148573184] dir0 ∅.
Proof.
  split.
  - split; [unfold page, KERNBASE, PHYSTOP, dir0, kend0; split; [reflexivity|lia]|set_solver|set_solver| | |].
    + intros i _ H. change (km s0) with (fun _ : Z => 0) in H. by rewrite zero_pde in H.
    + intros i j _ _ H. change (km s0) with (fun _ : Z => 0) in H. by rewrite zero_pde in H.
    + set_solver.
  - split; [split; [done|by cbn]|constructor; [unfold page, KERNBASE, PHYSTOP, kend0; split; [reflexivity|lia]|constructor]|apply NoDup_singleton].
  - intros v ->%list_elem_of_singleton. split; [done|set_solver].
Qed.

Lemma mappages_correct_witness :
  runs (mappages dir0 8192 4096 16384 6) s0 (fun r s' => exists k l', [2148573184] = k ++ l' /\ free_ok kend0 s' l' /\
    (r = 0 \/ r = -1 /\ l' = []) /\
    (r = 0 -> forall x, va_ok x -> pte (km s') dir0 x =
       if decide (8192 / 4096 <= x / 4096 <= last_page 8192 4096) then Z.lor (Z.lor (16384 + (x / 4096 - 8192 / 4096) * 4096) 6) PTE_P
       else pte (km s0) dir0 x) /\
    forall x, outside ({[dir0]} ∪ (list_to_set k ∪ ∅)) x -> km s' x = km s0 x).
Proof.
  apply (mappages_correct kend0 ltac:(unfold kend0, KERNBASE; lia) s0 [2148573184] dir0 ∅ 8192 4096 16384 6 s0_space); try lia.
  - reflexivity.
  - change (range_pages 8192 4096) with 1%nat. lia.
  - intros x _. unfold pte, pte_at. cbn [s0 km]. by rewrite zero_pde.
Defined.
End MapDemo.
