(* ===== verification/Uspace.v ===== *)
(** * User address spaces (vm.c)

    The user half of a page directory as a finite map from page numbers to
    frames and permissions.  [uspace] ties it to the entries in memory: every
    user page has a frame of its own that is neither free nor part of the page
    tables.  The lemmas say what mapping, unmapping and writing a page do to
    the map, for one address space and for those beside it. *)

From S2P Require Import Prelude.
From S2P Require Import Cstr.
From S2P Require Import Mmu.
From S2P Require Import Kalloc.
From S2P Require Import Vm.
From S2P Require Import VmSpec.

(** Page number to frame (its kernel address) and flags. *)
Notation upages := (gmap Z (Z * Z)).

Definition entry (o : option (Z * Z)) : Z := match o with Some (v, f) => Z.lor (v2p v) f | None => 0 end.
Definition framed (um : upages) (v : Z) : Prop := exists i f, um !! i = Some (v, f).

(** The byte a process sees at [va]. *)
Definition ubyte (m : mem) (um : upages) (va : Z) : option Z :=
  match um !! (va / 4096) with Some (v, _) => Some (m (v + va mod 4096)) | None => None end.

(** The pages below KERNBASE. *)
Definition upage (i : Z) : Prop := 0 <= i < 524288.

Section Uspace.
Context (kend : Z).
Hypothesis Hend : KERNBASE < kend.

Record uspace (s : kmem) (l : list Z) (pgdir : Z) (T : gset Z) (um : upages) : Prop := {
  us_vs : vspace kend s l pgdir T;
  us_pte : forall i, upage i -> pte (km s) pgdir (4096 * i) = entry (um !! i);
  us_dom : forall i v f, um !! i = Some (v, f) -> upage i /\ 0 <= f < 4096 /\ test f PTE_P = true;
  us_own : forall v, framed um v -> page kend v /\ v ∉ l /\ v <> pgdir /\ v ∉ T;
  us_inj : forall i j v f g, um !! i = Some (v, f) -> um !! j = Some (v, g) -> i = j
}.

(** ** Entries *)

Lemma pte_same_page m pgdir va va' : va_ok va -> va_ok va' -> va / 4096 = va' / 4096 -> pte m pgdir va = pte m pgdir va'.
Proof. intros H H' E. destruct (page_idx va va' E H H') as [E1 E2]. unfold pte, pte_at. by rewrite E1, E2. Qed.

Lemma upage_va i : upage i -> va_ok (4096 * i).
Proof. unfold upage, va_ok. lia. Qed.

Lemma us_pte_va s l pgdir T um va : uspace s l pgdir T um -> 0 <= va < KERNBASE -> pte (km s) pgdir va = entry (um !! (va / 4096)).
Proof.
  intros Hu Hva. assert (Hi : upage (va / 4096)).
  { unfold upage, KERNBASE in *. split; [apply Z.div_pos; lia|apply Z.div_lt_upper_bound; lia]. }
  rewrite <- (us_pte _ _ _ _ _ Hu _ Hi). apply pte_same_page; [unfold va_ok, KERNBASE in *; lia|by apply upage_va|].
  by rewrite Z.mul_comm, Z.div_mul.
Qed.

Lemma entry_frame v f : page kend v -> 0 <= f < 4096 ->
  PTE_ADDR (entry (Some (v, f))) = v2p v /\ PTE_FLAGS (entry (Some (v, f))) = f /\ p2v (v2p v) = v /\ v2p v = v - KERNBASE /\ 0 < v2p v /\
  v2p v mod 4096 = 0.
Proof.
  intros Hv Hf. destruct (page_pos kend Hend v Hv) as (Hv0 & Hv1 & Hv2). destruct (p2v_v2p v) as [E1 E2]; [unfold KERNBASE, PHYSTOP in *; lia|].
  destruct Hv as (Ha & Hk & _). assert (Hm : v2p v mod 4096 = 0).
  { rewrite E2. unfold KERNBASE. rewrite <- (Z.mod_add _ 524288) by lia. by replace (v - 2147483648 + 524288 * 4096) with v by lia. }
  destruct (PTE_split (v2p v) f Hm) as [P1 P2]; [unfold KERNBASE, PHYSTOP in *; lia|done|]. cbn [entry]. split_and!; try done. lia.
Qed.

Lemma lor_low a f k : a mod 4096 = 0 -> 0 <= k < 12 -> Z.testbit (Z.lor a f) k = Z.testbit f k.
Proof.
  intros Ha Hk. rewrite Z.lor_spec. replace (Z.testbit a k) with false; [done|]. symmetry. apply Z.mod_divide in Ha as [c ->]; [|done].
  change 4096 with (2 ^ 12). rewrite Z.mul_pow2_bits_low by lia. done.
Qed.

Lemma entry_present v f : page kend v -> 0 <= f < 4096 -> test (entry (Some (v, f))) PTE_P = test f PTE_P /\ test (entry (Some (v, f))) PTE_U = test f PTE_U.
Proof.
  intros Hv Hf. destruct (entry_frame v f Hv Hf) as (_ & _ & _ & _ & _ & Hm). unfold PTE_P, PTE_U. rewrite !test_1, !test_4. cbn [entry].
  by rewrite !lor_low by (done || lia).
Qed.

Lemma entry_absent um i s l pgdir T : uspace s l pgdir T um -> um !! i = None <-> test (entry (um !! i)) PTE_P = false.
Proof.
  intros Hu. destruct (um !! i) as [[v f]|] eqn:E; [|done]. destruct (us_dom _ _ _ _ _ Hu i v f E) as (_ & Hf & Hp).
  destruct (us_own _ _ _ _ _ Hu v) as (Hv & _); [by exists i, f|]. destruct (entry_present v f Hv Hf) as [-> _]. rewrite Hp. done.
Qed.

Lemma outside_page v (X : gset Z) x : page kend v -> (forall w, w ∈ X -> page kend w) -> v ∉ X -> v <= x < v + 4096 -> outside X x.
Proof. intros Hv HX Hn Hx w Hw. apply (pages_apart kend v w); [done|auto|by intros ->|done]. Qed.

(** ** Memory changes that leave an address space alone *)

(** The pages of an address space: directory, tables and frames. *)
Definition owned (pgdir : Z) (T : gset Z) (um : upages) (v : Z) : Prop := v = pgdir \/ v ∈ T \/ framed um v.

Lemma uspace_frame s l s' l' pgdir T um (X : gset Z) : uspace s l pgdir T um -> free_ok kend s' l' -> (forall v, v ∈ l' -> v ∈ l \/ ~ owned pgdir T um v) ->
  (forall v, v ∈ X -> page kend v) -> pgdir ∉ X -> T ## X -> (forall x, outside X x -> km s' x = km s x) -> uspace s' l' pgdir T um.
Proof.
  intros [[Ht Hf Hd] Hp Hdom Hown Hinj] Hf' Hl HX Hn HT Hx. split; [split| |done| |done].
  - by apply (ptable_frame kend (km s) (km s') pgdir T X).
  - done.
  - intros v Hv. destruct (Hl v Hv) as [Hv'|Hv']; [by apply Hd|]. unfold owned in Hv'. split; [intros ->; tauto|tauto].
  - intros i Hi. rewrite <- (Hp i Hi). by apply (pte_frame kend Hend (km s) (km s') pgdir T X).
  - intros v Hv. destruct (Hown v Hv) as (H1 & H2 & H3 & H4). split_and!; try done. intros Hin. destruct (Hl v Hin) as [?|Hv']; [done|].
    apply Hv'. right. by right.
Qed.

(** Writing to a page that is not free. *)
Lemma free_poke s l v g : free_ok kend s l -> page kend v -> v ∉ l -> (forall x, ~ (v <= x < v + 4096) -> g (km s) x = km s x) -> free_ok kend (poke g s) l.
Proof.
  intros Hf Hv Hl Hg. apply (free_frame kend s (km (poke g s)) l {[v]}); [done|set_solver|]. intros x Ho. cbn. apply Hg, Ho. set_solver.
Qed.

(** Writing to a page that belongs to nobody's tables and is not free. *)
Lemma uspace_poke s l pgdir T um v g : uspace s l pgdir T um -> page kend v -> v ∉ l -> v <> pgdir -> v ∉ T ->
  (forall x, ~ (v <= x < v + 4096) -> g (km s) x = km s x) -> uspace (poke g s) l pgdir T um.
Proof.
  intros Hu Hv Hl Hd HT Hg. assert (Hx : forall x, outside {[v]} x -> km (poke g s) x = km s x) by (intros x Ho; cbn; apply Hg, Ho; set_solver).
  eapply (uspace_frame s l _ l pgdir T um {[v]}); try done; [|auto|set_solver|set_solver|set_solver].
  apply (free_poke s l v); [apply Hu|done..].
Qed.

(** kalloc takes the first free page. *)
Lemma uspace_kalloc s v l pgdir T um : uspace s (v :: l) pgdir T um ->
  let s' := set_freelist (ld32 (km s) v) s in
  kalloc s = Done v s' /\ uspace s' l pgdir T um /\ km s' = km s /\ page kend v /\ v ∉ l /\ ~ owned pgdir T um v.
Proof.
  intros Hu s'. destruct (kalloc_spec kend Hend s (v :: l) (vs_free _ _ _ _ _ (us_vs _ _ _ _ _ Hu))) as (E & Hf & Hv & Hn).
  split_and!; try done.
  - eapply (uspace_frame s (v :: l) s' l pgdir T um ∅); try done; [|set_solver..]. intros w Hw. left. by constructor.
  - destruct (vs_disj _ _ _ _ _ (us_vs _ _ _ _ _ Hu) v) as [H1 H2]; [constructor|]. intros [->|[?|Hfr]]; [done|done|].
    destruct (us_own _ _ _ _ _ Hu v Hfr) as (_ & H3 & _). apply H3. constructor.
Qed.

Lemma uspace_kalloc_none s pgdir T um : uspace s [] pgdir T um -> kalloc s = Done 0 s.
Proof. intros Hu. by destruct (kalloc_spec kend Hend s [] (vs_free _ _ _ _ _ (us_vs _ _ _ _ _ Hu))). Qed.

(** ** Mapping and unmapping a page *)

(** The kernel half is as it was. *)
Definition khalf (m m' : mem) (pgdir : Z) : Prop := forall va, KERNBASE <= va -> va_ok va -> pte m' pgdir va = pte m pgdir va.

Lemma khalf_refl m pgdir : khalf m m pgdir.
Proof. done. Qed.
Lemma khalf_trans m1 m2 m3 pgdir : khalf m1 m2 pgdir -> khalf m2 m3 pgdir -> khalf m1 m3 pgdir.
Proof. intros H1 H2 va Hk Hva. by rewrite H2, H1. Qed.

Lemma khalf_frame m m' pgdir T X : ptable kend m pgdir T -> (forall v, v ∈ X -> page kend v) -> pgdir ∉ X -> T ## X ->
  (forall x, outside X x -> m' x = m x) -> khalf m m' pgdir.
Proof. intros Ht HX Hn HT Hx va _ _. by apply (pte_frame kend Hend m m' pgdir T X). Qed.

Lemma one_page i : upage i -> last_page (4096 * i) PGSIZE = i /\ range_pages (4096 * i) PGSIZE = 1%nat /\ 4096 * i / 4096 = i.
Proof.
  intros Hi. assert (E : last_page (4096 * i) PGSIZE = i).
  { unfold last_page, PGSIZE. replace (4096 * i + 4096 - 1) with (i * 4096 + 4095) by lia.
    rewrite Z.div_add_l by lia. change (4095 / 4096) with 0. lia. }
  assert (E2 : 4096 * i / 4096 = i) by (by rewrite Z.mul_comm, Z.div_mul). split_and!; [done| |done]. unfold range_pages. rewrite E, E2. lia.
Qed.

Lemma lor_perm perm : 0 <= perm < 4096 -> 0 <= Z.lor perm PTE_P < 4096 /\ test (Z.lor perm PTE_P) PTE_P = true.
Proof.
  intros Hperm. split.
  - split; [apply Z.lor_nonneg; unfold PTE_P; lia|]. assert (Hlt : Z.lor perm PTE_P < 2 ^ 12); [|done].
    destruct (Z.eq_dec (Z.lor perm PTE_P) 0) as [->|Hz]; [done|]. assert (0 <= Z.lor perm PTE_P) by (apply Z.lor_nonneg; unfold PTE_P; lia).
    apply Z.log2_lt_pow2; [lia|]. rewrite Z.log2_lor by (unfold PTE_P; lia). apply Z.max_lub_lt; [|done].
    destruct (Z.eq_dec perm 0) as [->|]; [done|]. apply Z.log2_lt_pow2; lia.
  - unfold PTE_P. rewrite test_1, Z.lor_spec. apply orb_true_r.
Qed.

(** New page tables from the front of the free list. *)
Lemma uspace_tables s k l s' pgdir T um : uspace s (k ++ l) pgdir T um -> vspace kend s' l pgdir (list_to_set k ∪ T) ->
  (forall i, upage i -> pte (km s') pgdir (4096 * i) = pte (km s) pgdir (4096 * i)) -> uspace s' l pgdir (list_to_set k ∪ T) um.
Proof.
  intros Hu Hs' Hp. split; [done| |apply Hu| |apply Hu].
  - intros i Hi. rewrite Hp by done. by apply (us_pte _ _ _ _ _ Hu).
  - intros v Hv. destruct (us_own _ _ _ _ _ Hu v Hv) as (H1 & H2 & H3 & H4). split_and!; [done|set_solver|done|set_solver].
Qed.

(** An entry for a page that had none. *)
Lemma uspace_insert s k l pgdir T um s' i v f : uspace s (k ++ l) pgdir T um -> upage i -> um !! i = None -> page kend v -> v ∉ k ++ l -> ~ owned pgdir T um v ->
  0 <= f < 4096 -> test f PTE_P = true -> vspace kend s' l pgdir (list_to_set k ∪ T) ->
  (forall j, upage j -> pte (km s') pgdir (4096 * j) = if decide (j = i) then Z.lor (v2p v) f else pte (km s) pgdir (4096 * j)) ->
  uspace s' l pgdir (list_to_set k ∪ T) (<[i := (v, f)]> um).
Proof.
  intros Hu Hi Hum Hv Hvl Hno Hf Hfp Hs' Hp. unfold owned in Hno. split; [done| | | |].
  - intros j Hj. rewrite Hp by done. destruct (decide (j = i)) as [->|Hne]; [by rewrite lookup_insert_eq|]. rewrite lookup_insert_ne by done. by apply (us_pte _ _ _ _ _ Hu).
  - intros j w g [[<- [= <- <-]]|[_ Hj]]%lookup_insert_Some; [done|by apply (us_dom _ _ _ _ _ Hu j w)].
  - intros w (j & g & [[<- [= <- <-]]|[_ Hj]]%lookup_insert_Some); [split_and!; [done|set_solver|tauto|set_solver]|].
    destruct (us_own _ _ _ _ _ Hu w) as (W1 & W2 & W3 & W4); [by exists j, g|]. split_and!; [done|set_solver|done|set_solver].
  - intros i1 i2 w g h [[<- [= <- <-]]|[Hn1 H1]]%lookup_insert_Some [[<- E]|[Hn2 H2]]%lookup_insert_Some; [done| | |by apply (us_inj _ _ _ _ _ Hu i1 i2 w g h)].
    + exfalso. apply Hno. right. right. by exists i2, h.
    + exfalso. injection E as -> <-. apply Hno. right. right. by exists i1, g.
Qed.

Lemma map_user s l pgdir T um i v perm : uspace s l pgdir T um -> upage i -> um !! i = None -> page kend v -> v ∉ l -> ~ owned pgdir T um v ->
  0 <= perm < 4096 ->
  runs (mappages pgdir (4096 * i) PGSIZE (v2p v) perm) s (fun r s' => exists k l', l = k ++ l' /\ (length k <= 1)%nat /\
    (r = 0 /\ uspace s' l' pgdir (list_to_set k ∪ T) (<[i := (v, Z.lor perm PTE_P)]> um) \/ r = -1 /\ l = [] /\ uspace s' l' pgdir (list_to_set k ∪ T) um) /\
    khalf (km s) (km s') pgdir /\ (forall x, outside ({[pgdir]} ∪ (list_to_set k ∪ T)) x -> km s' x = km s x)).
Proof.
  intros Hu Hi Hum Hv Hvl Hno Hperm. destruct (one_page i Hi) as (E1 & E2 & E3). destruct (entry_frame v 1 Hv ltac:(lia)) as (_ & _ & _ & Ev & Hv0 & Hvm).
  destruct (page_pos kend Hend v Hv) as (_ & Hv1 & Hv2).
  eapply runs_mono; [apply (mappages_spec kend Hend s l pgdir T (4096 * i) PGSIZE (v2p v) perm (us_vs _ _ _ _ _ Hu)); rewrite ?E2, ?E3; try done|].
  - unfold upage in Hi. lia.
  - unfold upage, PGSIZE in *. lia.
  - lia.
  - unfold KERNBASE, PHYSTOP in *. lia.
  - intros x Hx. rewrite (us_pte_va s l pgdir T um x Hu) by (unfold upage, KERNBASE in *; lia).
    replace (x / 4096) with i by (apply Z.div_unique with (x - 4096 * i); lia). by rewrite Hum.
  - cbv beta. rewrite E2, E3. intros r s' (j & l' & Hr & k & -> & Hk & Hs' & Hm & Hx).
    replace (i * 4096) with (4096 * i) in Hm by lia. exists k, l'. split; [done|].
    assert (Hk1 : (length k <= 1)%nat) by (destruct Hr as [[_ ->]|(_ & ? & _)]; lia). split; [done|].
    assert (Hpte : forall va, va_ok va -> va / 4096 <> i -> pte (km s') pgdir va = pte (km s) pgdir va).
    { intros va Hva Hne. rewrite Hm by done. rewrite decide_False; [done|]. intros Hin. apply Hne. symmetry. apply Z.div_unique with (va - 4096 * i); [left|]; lia. }
    split; [|split; [|done]].
    + assert (Hpg : forall j', upage j' -> 4096 * j' / 4096 = j') by (intros j' Hj'; by apply one_page). destruct Hr as [[-> ->]|(-> & Hj & ->)]; [left|right].
      * split; [done|]. destruct (lor_perm perm Hperm) as [Hp1 Hp2].
        apply (uspace_insert s k l' pgdir T um s'); try done. intros j' Hj'. destruct (decide (j' = i)) as [->|Hne].
        -- rewrite Hm by (by apply upage_va). rewrite decide_True by lia. rewrite E3.
           replace (v2p v + (i * 4096 - 4096 * i)) with (v2p v) by lia. by rewrite <- Z.lor_assoc.
        -- apply Hpte; [by apply upage_va|by rewrite Hpg].
      * split; [done|]. assert (j = 0%nat) as -> by lia. assert (k = []) as -> by (destruct k; [done|cbn in Hk; lia]). split; [done|].
        apply (uspace_tables s [] [] s' pgdir T um Hu Hs'). intros j' Hj'.
        rewrite Hm by (by apply upage_va). by rewrite decide_False by lia.
    + intros va Hkb Hva. apply Hpte; [done|]. intros E. assert (524288 <= va / 4096) by (apply Z.div_le_lower_bound; unfold KERNBASE in *; lia).
      unfold upage in Hi. lia.
Qed.

Lemma mapped_entry s l pgdir T um i v f : uspace s l pgdir T um -> um !! i = Some (v, f) ->
  pte_at (km s) pgdir (4096 * i) <> 0 /\ ld32 (km s) (pte_at (km s) pgdir (4096 * i)) = entry (Some (v, f)).
Proof.
  intros Hu E. destruct (us_dom _ _ _ _ _ Hu i v f E) as (Hi & Hf & Hp). pose proof (us_pte _ _ _ _ _ Hu i Hi) as Ep. rewrite E in Ep. unfold pte in Ep.
  destruct (us_own _ _ _ _ _ Hu v) as (Hv & _); [by exists i, f|]. destruct (entry_present v f Hv Hf) as [Ht _].
  destruct (Z.eqb_spec (pte_at (km s) pgdir (4096 * i)) 0) as [E0|E0]; [|done]. exfalso. rewrite <- Ep, Hp in Ht. done.
Qed.

Lemma unmap_user s l pgdir T um i v f : uspace s l pgdir T um -> um !! i = Some (v, f) ->
  runs (kfree kend v ;;; store32 (pte_at (km s) pgdir (4096 * i)) 0) s (fun _ s' => uspace s' (v :: l) pgdir T (delete i um) /\
    khalf (km s) (km s') pgdir /\ (forall x, outside ({[v]} ∪ T) x -> km s' x = km s x)).
Proof.
  intros Hu E. destruct (us_dom _ _ _ _ _ Hu i v f E) as (Hi & Hf & _). destruct (us_own _ _ _ _ _ Hu v) as (Hv & Hvl & Hvd & HvT); [by exists i, f|].
  destruct (mapped_entry s l pgdir T um i v f Hu E) as [Hat _]. destruct (us_vs _ _ _ _ _ Hu) as [Ht Hfr Hdj].
  apply runs_bind. eapply runs_mono; [by apply (kfree_spec kend Hend v s l)|]. intros [] s1 (Hf1 & _ & _ & Hx1).
  assert (Ho1 : forall x, outside {[v]} x -> km s1 x = km s x) by (intros x Ho; apply Hx1, Ho; set_solver).
  assert (Hs1 : vspace kend s1 (v :: l) pgdir T).
  { split; [by apply (ptable_frame kend (km s) (km s1) pgdir T {[v]}); [|set_solver..|]|done|]. intros w [-> |Hw]%elem_of_cons; [done|by apply Hdj]. }
  assert (Hp1 : forall va, pte_at (km s1) pgdir va = pte_at (km s) pgdir va /\ pte (km s1) pgdir va = pte (km s) pgdir va).
  { intros va. by apply (pte_frame kend Hend (km s) (km s1) pgdir T {[v]}); [|set_solver..|]. }
  pose proof (upage_va i Hi) as Hva. destruct (Hp1 (4096 * i)) as [Ea _]. rewrite <- Ea in *.
  destruct (set_pte kend Hend s1 (v :: l) pgdir T (4096 * i) 0 Hs1 Hva Hat ltac:(lia)) as (Hs2 & Hp2 & _ & Hx2).
  destruct (one_page i Hi) as (_ & _ & Ei). rewrite Ei in Hp2. apply runs_modify. split; [|split].
  - split; [done| | | |].
    + intros j Hj. rewrite Hp2 by (by apply upage_va). destruct (one_page j Hj) as (_ & _ & Ej). rewrite Ej. destruct (decide (j = i)) as [->|Hne].
      * by rewrite lookup_delete_eq.
      * rewrite lookup_delete_ne by done. destruct (Hp1 (4096 * j)) as [_ ->]. by apply (us_pte _ _ _ _ _ Hu).
    + intros j w g [_ Hj]%lookup_delete_Some. by apply (us_dom _ _ _ _ _ Hu j w).
    + intros w (j & g & [Hne Hj]%lookup_delete_Some). destruct (us_own _ _ _ _ _ Hu w) as (W1 & W2 & W3 & W4); [by exists j, g|].
      split_and!; [done| |done|done]. intros [-> |?]%elem_of_cons; [|done]. apply Hne. by apply (us_inj _ _ _ _ _ Hu i j v f g).
    + intros j1 j2 w g h [_ H1]%lookup_delete_Some [_ H2]%lookup_delete_Some. by apply (us_inj _ _ _ _ _ Hu j1 j2 w g h).
  - intros va Hk Hvo. rewrite Hp2 by done. rewrite decide_False; [by apply Hp1|]. intros E'.
    assert (524288 <= va / 4096) by (apply Z.div_le_lower_bound; unfold KERNBASE in *; lia). unfold upage in Hi. lia.
  - intros x Ho. rewrite Hx2, Ho1; [done| |]; intros w Hw; apply Ho; set_solver.
Qed.

(** ** deallocuvm *)

(** The pages from [i] on are those below [n]. *)
Definition pages_upto (um : upages) (i n : Z) : Prop := forall j, i <= j -> is_Some (um !! j) <-> j < n.
Definition below (i : Z) (um : upages) : upages := filter (fun p => fst p < i) um.

Lemma below_all um i : (forall j, i <= j -> um !! j = None) -> below i um = um.
Proof. intros H. apply map_filter_id. intros j x Hj. cbn. destruct (Z_lt_le_dec j i) as [|Hl]; [done|]. by rewrite H in Hj. Qed.

Lemma below_delete um i : below (i + 1) (delete i um) = below i um.
Proof.
  apply map_eq. intros j. apply option_eq. intros x. unfold below. rewrite !map_lookup_filter_Some, lookup_delete_Some. cbn. split.
  - intros [[H1 H2] H3]. split; [done|lia].
  - intros [H1 H2]. split; [split; [lia|done]|lia].
Qed.

(** No page from [i] on: nothing happens. *)
Lemma dealloc_none fuel s l pgdir T um i oldsz : uspace s l pgdir T um -> 0 <= i -> oldsz <= KERNBASE -> (forall j, i <= j -> um !! j = None) ->
  deallocuvm_loop kend fuel pgdir (4096 * i) oldsz s = Done tt s.
Proof.
  intros Hu. revert i. induction fuel as [|n IH]; intros i Hi Ho Hn; [done|]. cbn [deallocuvm_loop]. destruct (Z.ltb_spec (4096 * i) oldsz) as [Hl|Hl]; [|done].
  unfold KERNBASE, PGSIZE, NPTENTRIES in *. unfold bind at 1. rewrite walk_eq. destruct (Z.eqb_spec (pte_at (km s) pgdir (4096 * i)) 0) as [E|E].
  - rewrite u32_id by lia. replace (4096 * i + (1024 - 1) * 4096 + 4096) with (4096 * (i + 1024)) by lia. apply IH; [lia|lia|]. intros j Hj. apply Hn. lia.
  - unfold bind at 1, load32, gets. assert (Hup : upage i) by (unfold upage; lia). pose proof (us_pte _ _ _ _ _ Hu i Hup) as Ep.
    rewrite Hn in Ep by lia. cbn [entry] in Ep. unfold pte in Ep. rewrite (proj2 (Z.eqb_neq _ _) E) in Ep. rewrite Ep. cbn [Z.land Z.eqb negb].
    unfold bind at 1, ret. rewrite u32_id by lia. replace (4096 * i + 4096) with (4096 * (i + 1)) by lia. apply IH; [lia|lia|]. intros j Hj. apply Hn. lia.
Qed.

(** The pages from [i] on went to the free list. *)
Record released (s s' : kmem) (pgdir : Z) (T : gset Z) (um : upages) (l l' : list Z) (i n : Z) : Prop := {
  rl_space : uspace s' l' pgdir T (below i um);
  rl_list : exists fr, l' = fr ++ l /\ Z.of_nat (length fr) = n - i /\ (forall v, v ∈ fr <-> exists j f, i <= j /\ um !! j = Some (v, f));
  rl_khalf : khalf (km s) (km s') pgdir;
  rl_mem : forall x, outside T x -> (forall j v f, i <= j -> um !! j = Some (v, f) -> ~ (v <= x < v + 4096)) -> km s' x = km s x
}.

Lemma released_none s l pgdir T um n : uspace s l pgdir T um -> (forall j, n <= j -> um !! j = None) -> released s s pgdir T um l l n n.
Proof.
  intros Hu Hn. split; [by rewrite below_all| |apply khalf_refl|done]. exists []. cbn. split_and!; [done|lia|]. intros v. split; [by intros ?%elem_of_nil|].
  intros (j & f & Hj & E). by rewrite Hn in E.
Qed.

Lemma released_step s s1 s' l l' pgdir T um i n v f : uspace s l pgdir T um -> um !! i = Some (v, f) -> khalf (km s) (km s1) pgdir ->
  (forall x, outside ({[v]} ∪ T) x -> km s1 x = km s x) -> released s1 s' pgdir T (delete i um) (v :: l) l' (i + 1) n -> released s s' pgdir T um l l' i n.
Proof.
  intros Hu E Hk Hx [R1 (fr & -> & Hlen & Hfr) R3 R4]. split.
  - by rewrite <- below_delete.
  - exists (fr ++ [v]). rewrite <- app_assoc. split_and!; [done|rewrite length_app; cbn [length]; lia|]. intros w. rewrite elem_of_app, Hfr, list_elem_of_singleton. split.
    + intros [(j & g & Hj & [_ Hw]%lookup_delete_Some)| ->]; [exists j, g; split; [lia|done]|by exists i, f].
    + intros (j & g & Hj & Hw). destruct (decide (j = i)) as [->|Hne]; [right; by simplify_eq|]. left. exists j, g. split; [lia|]. by apply lookup_delete_Some.
  - by eapply khalf_trans.
  - intros x Ho Hfx. rewrite R4, Hx; [done| |done|].
    + intros w [->%elem_of_singleton|Hw]%elem_of_union; [by apply (Hfx i v f)|by apply Ho].
    + intros j w g Hj [_ Hw]%lookup_delete_Some. apply (Hfx j w g); [lia|done].
Qed.

Lemma dealloc_loop fuel s l pgdir T um i n oldsz : uspace s l pgdir T um -> 0 <= i <= n -> pages_upto um i n -> 4096 * (n - 1) < oldsz \/ i = n -> oldsz <= KERNBASE ->
  oldsz <= 4096 * (i + Z.of_nat fuel) ->
  runs (deallocuvm_loop kend fuel pgdir (4096 * i) oldsz) s (fun _ s' => exists l', released s s' pgdir T um l l' i n).
Proof.
  revert s l um i. induction fuel as [|fuel IH]; intros s l um i Hu Hi Hn Ho Hk Hf.
  all: destruct (decide (i = n)) as [->|Hne];
    [assert (Hnone : forall j, n <= j -> um !! j = None) by (intros j Hj; apply eq_None_not_Some; intros Hs; apply (Hn j Hj) in Hs; lia);
     unfold runs; rewrite (dealloc_none _ s l pgdir T um) by (done || lia); exists l; by apply released_none|].
  { lia. }
  cbn [deallocuvm_loop]. destruct Ho as [Ho|]; [|done]. destruct (Z.ltb_spec (4096 * i) oldsz) as [_|]; [|lia].
  destruct (proj2 (Hn i ltac:(lia)) ltac:(lia)) as [[v f] E]. destruct (us_dom _ _ _ _ _ Hu i v f E) as (Hup & Hff & Hfp).
  destruct (us_own _ _ _ _ _ Hu v) as (Hv & _); [by exists i, f|]. destruct (mapped_entry s l pgdir T um i v f Hu E) as [Hat Hld].
  destruct (entry_frame v f Hv Hff) as (Ea & _ & Ev & _ & Hv0 & _). destruct (entry_present v f Hv Hff) as [Ep _]. rewrite Hfp in Ep.
  apply runs_bind. unfold runs at 1. rewrite walk_eq, (proj2 (Z.eqb_neq _ _) Hat). apply runs_bind, runs_gets. rewrite Hld. unfold test in Ep. rewrite Ep, Ea.
  rewrite (proj2 (Z.eqb_neq (v2p v) 0)) by lia. rewrite Ev. apply runs_bind. eapply runs_mono; [by apply (unmap_user s l pgdir T um i v f)|].
  intros [] s1 (Hu1 & Hk1 & Hx1). unfold PGSIZE, KERNBASE, upage in *. rewrite u32_id by lia. replace (4096 * i + 4096) with (4096 * (i + 1)) by lia.
  eapply runs_mono; [apply (IH s1 (v :: l) (delete i um) (i + 1) Hu1); [lia| |by left|lia|lia]|].
  - intros j Hj. rewrite lookup_delete_ne by lia. apply Hn. lia.
  - intros [] s' (l' & Hr). exists l'. by apply (released_step s s1 s' l l' pgdir T um i n v f).
Qed.

Lemma deallocuvm_spec s l pgdir T um n oldsz newsz : uspace s l pgdir T um -> 0 <= newsz < oldsz -> oldsz <= KERNBASE ->
  let i := (newsz + 4095) / 4096 in i <= n -> pages_upto um i n -> 4096 * (n - 1) < oldsz \/ i = n ->
  runs (deallocuvm kend pgdir oldsz newsz) s (fun r s' => r = newsz /\ exists l', released s s' pgdir T um l l' i n).
Proof.
  intros Hu Hsz Hk i Hi Hn Ho. unfold deallocuvm. replace (newsz >=? oldsz) with false by lia. apply runs_bind.
  rewrite PGROUNDUP_div by (unfold KERNBASE in *; lia). fold i. rewrite (Z.mul_comm i). assert (0 <= i) by (apply Z.div_pos; lia).
  eapply runs_mono; [apply (dealloc_loop _ s l pgdir T um i n oldsz Hu); try done|].
  - unfold PGSIZE. pose proof (Z.div_mod oldsz 4096). pose proof (Z.mod_pos_bound oldsz 4096). lia.
  - intros [] s' Hr. by apply runs_ret.
Qed.
End Uspace.
