(* ===== verification/UspaceAlloc.v ===== *)
(** * Growing an address space (allocuvm of vm.c)

    New pages come zeroed and are mapped one after the other; the pages the
    process had keep their frames and their bytes. *)

From S2P Require Import Prelude.
From S2P Require Import Cstr.
From S2P Require Import Mmu.
From S2P Require Import Kalloc.
From S2P Require Import Vm.
From S2P Require Import VmSpec.
From S2P Require Import Uspace.

Section Alloc.
Context (kend : Z).
Hypothesis Hend : KERNBASE < kend.

(** Pages taken from the free list [l] and from nowhere else. *)
Record grown (s s' : kmem) (pgdir : Z) (T : gset Z) (um um' : upages) (l : list Z) (i n : Z) : Prop := {
  gr_space : exists l' T', uspace kend s' l' pgdir T' um' /\ (forall v, v ∈ l' -> v ∈ l) /\ (forall v, v ∈ T' -> v ∈ T \/ v ∈ l) /\
    (Z.of_nat (length l) <= Z.of_nat (length l') + 2 * (n - i));
  gr_old : forall j, j < i \/ n <= j -> um' !! j = um !! j;
  gr_new : forall j, i <= j < n -> exists v, um' !! j = Some (v, 7) /\ v ∈ l /\ forall x, v <= x < v + 4096 -> km s' x = 0;
  gr_khalf : khalf (km s) (km s') pgdir;
  gr_mem : forall x, outside ({[pgdir]} ∪ (T ∪ list_to_set l)) x -> km s' x = km s x
}.

Lemma grown_refl s l pgdir T um i : uspace kend s l pgdir T um -> grown s s pgdir T um um l i i.
Proof.
  intros Hu. split; [exists l, T; split_and!; [done|done|by left|lia]|done| |apply khalf_refl|done]. intros j Hj. lia.
Qed.

(** One page: kalloc, memset, mappages. *)
Lemma alloc_page s l pgdir T um i : uspace kend s l pgdir T um -> upage i -> um !! i = None -> (2 <= length l)%nat ->
  exists v l1, l = v :: l1 /\ v <> 0 /\ kalloc s = Done v (set_freelist (ld32 (km s) v) s) /\
  runs (mappages pgdir (4096 * i) PGSIZE (v2p v) (Z.lor PTE_W PTE_U)) (poke (fun m => memset m v 0 (Z.to_nat PGSIZE)) (set_freelist (ld32 (km s) v) s))
    (fun _ s' => grown s s' pgdir T um (<[i := (v, 7)]> um) l i (i + 1)).
Proof.
  intros Hu Hi Hum Hlen. destruct l as [|v l1]; [cbn in Hlen; lia|]. destruct (uspace_kalloc kend Hend s v l1 pgdir T um Hu) as (Ek & Hu1 & Em & Hv & Hvl & Hno).
  set (s1 := set_freelist (ld32 (km s) v) s) in *. destruct (page_pos kend Hend v Hv) as (Hv0 & _). exists v, l1. split_and!; [done|lia|done|].
  set (s2 := poke (fun m => memset m v 0 (Z.to_nat PGSIZE)) s1). assert (Hms : forall x, km s2 x = if decide (v <= x < v + 4096) then 0 else km s1 x).
  { intros x. cbn. rewrite memset_fill. done. }
  assert (Hno' := Hno). unfold owned in Hno'. assert (Hu2 : uspace kend s2 l1 pgdir T um).
  { apply (uspace_poke kend Hend s1 l1 pgdir T um v); try done; [tauto|tauto|]. intros x Hx. change (memset (km s1) v 0 (Z.to_nat PGSIZE) x) with (km s2 x).
    by rewrite Hms, decide_False. }
  eapply runs_mono; [apply (map_user kend Hend s2 l1 pgdir T um i v (Z.lor PTE_W PTE_U)); try done|].
  cbv beta. intros r s' (k & l' & El & Hk & Hr & Hkh & Hx). change (Z.lor (Z.lor PTE_W PTE_U) PTE_P) with 7 in Hr. cbn [length] in Hlen.
  destruct Hr as [[-> Hu']|(-> & -> & _)]; [|cbn in Hlen; lia].
  assert (Hsame : forall x, outside ({[pgdir]} ∪ (list_to_set k ∪ T)) x -> km s' x = if decide (v <= x < v + 4096) then 0 else km s x).
  { intros x Ho. rewrite Hx by done. by rewrite Hms, Em. }
  split.
  - exists l', (list_to_set k ∪ T). split_and!; [done|set_solver|set_solver|]. rewrite El. cbn [length]. rewrite length_app. lia.
  - intros j Hj. by rewrite lookup_insert_ne by lia.
  - intros j Hj. assert (j = i) as -> by lia. exists v. rewrite lookup_insert_eq. split_and!; [done|constructor|]. intros x Hxv.
    rewrite Hsame; [by rewrite decide_True|]. destruct (us_own _ _ _ _ _ _ Hu' v) as (_ & _ & W3 & W4); [exists i, 7; by rewrite lookup_insert_eq|].
    intros w Hw. apply (pages_apart kend v w); [done| |intros ->; set_solver|done]. apply elem_of_union in Hw as [->%elem_of_singleton|Hw].
    + apply (vs_tab _ _ _ _ _ (us_vs _ _ _ _ _ _ Hu')).
    + by apply (pt_pages _ _ _ _ (vs_tab _ _ _ _ _ (us_vs _ _ _ _ _ _ Hu'))).
  - eapply khalf_trans; [|exact Hkh]. apply (khalf_frame kend Hend (km s) (km s2) pgdir T {[v]}); [apply (us_vs _ _ _ _ _ _ Hu)|set_solver..|].
    intros x Ho. rewrite Hms, decide_False; [by rewrite Em|]. apply Ho. set_solver.
  - intros x Ho. rewrite Hsame; [rewrite decide_False; [done|apply Ho; set_solver]|]. intros w Hw. apply Ho. set_solver.
Qed.

Lemma grown_trans s s1 s' pgdir T T1 um um1 um' l l1 i n : uspace kend s1 l1 pgdir T1 um1 -> i < n ->
  (forall v, v ∈ l1 -> v ∈ l) -> (forall v, v ∈ T1 -> v ∈ T \/ v ∈ l) -> Z.of_nat (length l) <= Z.of_nat (length l1) + 2 ->
  grown s s1 pgdir T um um1 l i (i + 1) -> grown s1 s' pgdir T1 um1 um' l1 (i + 1) n -> grown s s' pgdir T um um' l i n.
Proof.
  intros Hu1 Hin Hl HT Hlen [_ A2 A3 A4 A5] [(l' & T' & B1 & B1l & B1T & B1n) B2 B3 B4 B5].
  assert (Hout : forall x, outside ({[pgdir]} ∪ (T ∪ list_to_set l)) x -> outside ({[pgdir]} ∪ (T1 ∪ list_to_set l1)) x).
  { intros x Ho w Hw. apply Ho. apply elem_of_union in Hw as [?|[Hw|Hw]%elem_of_union]; [set_solver|destruct (HT w Hw); set_solver|]. apply elem_of_list_to_set, Hl in Hw. set_solver. }
  split.
  - exists l', T'. split_and!; [done|auto| |lia]. intros v Hv. destruct (B1T v Hv) as [?|?]; auto.
  - intros j Hj. rewrite B2, A2 by lia. done.
  - intros j Hj. destruct (decide (j = i)) as [->|Hne].
    + destruct (A3 i ltac:(lia)) as (v & E & Hv & Hz). exists v. rewrite B2 by lia. split_and!; [done|done|]. intros x Hx. rewrite B5, Hz; [done|done|].
      destruct (us_own _ _ _ _ _ _ Hu1 v) as (V1 & V2 & V3 & V4); [by exists i, 7|]. destruct (us_vs _ _ _ _ _ _ Hu1) as [Vt Vf _].
      intros w Hw. apply (pages_apart kend v w); [done| |intros ->; set_solver|done].
      apply elem_of_union in Hw as [->%elem_of_singleton|[Hw|Hw]%elem_of_union]; [apply Vt|by apply (pt_pages _ _ _ _ Vt)|].
      pose proof (fr_page _ _ _ Vf) as Hp. rewrite Forall_forall in Hp. apply Hp. set_solver.
    + destruct (B3 j ltac:(lia)) as (v & E & Hv & Hz). exists v. split_and!; [done|auto|done].
  - by eapply khalf_trans.
  - intros x Ho. rewrite B5, A5; [done|done|auto].
Qed.

Lemma alloc_loop fuel s l pgdir T um i n newsz oldsz : uspace kend s l pgdir T um -> 0 <= i <= n -> 4096 * (n - 1) < newsz <= 4096 * n \/ i = n /\ newsz <= 4096 * n ->
  n <= 524288 -> (forall j, i <= j -> um !! j = None) -> newsz <= 4096 * (i + Z.of_nat fuel) -> 2 * (n - i) <= Z.of_nat (length l) ->
  runs (allocuvm_loop kend fuel pgdir (4096 * i) newsz oldsz) s (fun r s' => r = None /\ exists um', grown s s' pgdir T um um' l i n).
Proof.
  revert s l T um i. induction fuel as [|fuel IH]; intros s l T um i Hu Hi Hn Hk Hnone Hf Hlen.
  { apply runs_ret. split; [done|]. exists um. assert (i = n) as -> by lia. by apply grown_refl. }
  cbn [allocuvm_loop]. destruct (Z.ltb_spec (4096 * i) newsz) as [Hl|Hl].
  2: { apply runs_ret. split; [done|]. exists um. assert (i = n) as -> by lia. by apply grown_refl. }
  assert (Hin : i < n) by lia. assert (Hup : upage i) by (unfold upage; lia).
  destruct (alloc_page s l pgdir T um i Hu Hup (Hnone i ltac:(lia)) ltac:(lia)) as (v & l1 & -> & Hv & Ek & Hrun).
  apply runs_bind. unfold runs at 1. rewrite Ek, (proj2 (Z.eqb_neq _ _) Hv). apply runs_bind, runs_modify, runs_bind. eapply runs_mono; [exact Hrun|].
  intros r s1 Hg. destruct (gr_space _ _ _ _ _ _ _ _ _ Hg) as (l' & T' & Hu1 & Hl1 & HT1 & Hn1). unfold PGSIZE. rewrite u32_id by (unfold upage in Hup; lia).
  replace (4096 * i + 4096) with (4096 * (i + 1)) by lia. eapply runs_mono; [apply (IH s1 l' T' (<[i := (v, 7)]> um) (i + 1) Hu1); [lia|lia|lia| |lia|lia]|].
  - intros j Hj. rewrite lookup_insert_ne by lia. apply Hnone. lia.
  - cbv beta. intros r' s' (-> & um' & Hg'). split; [done|]. exists um'. eapply (grown_trans s s1 s' pgdir T T' um _ um' _ l' i n); try done. lia.
Qed.

Lemma allocuvm_spec s l pgdir T um oldsz newsz : uspace kend s l pgdir T um -> 0 <= oldsz <= newsz -> newsz < KERNBASE ->
  let i := (oldsz + 4095) / 4096 in let n := (newsz + 4095) / 4096 in
  (forall j, i <= j -> um !! j = None) -> 2 * (n - i) <= Z.of_nat (length l) ->
  runs (allocuvm kend pgdir oldsz newsz) s (fun r s' => r = newsz /\ exists um', grown s s' pgdir T um um' l i n).
Proof.
  intros Hu Hsz Hk i n Hnone Hlen. unfold allocuvm. replace (newsz >=? KERNBASE) with false by lia. replace (newsz <? oldsz) with false by lia.
  rewrite PGROUNDUP_div by (unfold KERNBASE in *; lia). fold i. rewrite (Z.mul_comm i). assert (0 <= i) by (apply Z.div_pos; lia).
  assert (Hin : i <= n) by (apply Z.div_le_mono; lia). pose proof (Z.div_mod (newsz + 4095) 4096 ltac:(lia)) as D1. pose proof (Z.mod_pos_bound (newsz + 4095) 4096 ltac:(lia)) as D2.
  fold n in D1. apply runs_bind. eapply runs_mono; [apply (alloc_loop _ s l pgdir T um i n newsz oldsz Hu); try done|].
  - left. lia.
  - unfold KERNBASE in *. lia.
  - unfold PGSIZE. pose proof (Z.div_mod newsz 4096). pose proof (Z.mod_pos_bound newsz 4096). lia.
  - cbv beta. intros r s' (-> & Hg). by apply runs_ret.
Qed.
End Alloc.
