(* ===== verification/UspaceKvm.v ===== *)
(** * The kernel half of an address space, and giving one up (setupkvm and
    freevm of vm.c) *)

From S2P Require Import Prelude.
From S2P Require Import Cstr.
From S2P Require Import Mmu.
From S2P Require Import Kalloc.
From S2P Require Import Vm.
From S2P Require Import VmSpec.
From S2P Require Import Uspace.

(** ** The kernel's mappings *)

Definition ksize (k : kmap_ent) : Z := u32 (k_stop k - k_start k).
Definition inrange (k : kmap_ent) (va : Z) : Prop := k_virt k <= va < k_virt k + ksize k.
#[export] Instance inrange_dec k va : Decision (inrange k va).
Proof. unfold inrange. apply _. Defined.

(** The entry the ranges [ks] give to [va]. *)
Fixpoint kval (ks : list kmap_ent) (va : Z) : Z :=
  match ks with
  | [] => 0
  | k :: ks' => if decide (inrange k va) then Z.lor (Z.lor (k_start k + (va / 4096 * 4096 - k_virt k)) (k_perm k)) PTE_P else kval ks' va
  end.

Lemma kval_snoc ks k va : Forall (fun k' => ~ inrange k' va) ks \/ ~ inrange k va ->
  kval (ks ++ [k]) va = if decide (inrange k va) then Z.lor (Z.lor (k_start k + (va / 4096 * 4096 - k_virt k)) (k_perm k)) PTE_P else kval ks va.
Proof.
  intros H. induction ks as [|k' ks IH]; [done|]. cbn [app kval]. destruct (decide (inrange k' va)) as [Hin|Hin].
  - destruct H as [H|H]; [by inversion H|]. by rewrite (decide_False _ _ H).
  - apply IH. destruct H as [H|H]; [left; by inversion H|by right].
Qed.

Lemma kval_none ks va : Forall (fun k' => ~ inrange k' va) ks -> kval ks va = 0.
Proof. induction 1 as [|k ks Hk _ IH]; [done|]. cbn [kval]. by rewrite decide_False. Qed.

Section Kvm.
Context (kend kdata : Z).
Hypothesis Hend : KERNBASE < kend.
Hypothesis Hdata : KERNLINK < kdata < KERNBASE + PHYSTOP.
Hypothesis Hpage : kdata mod 4096 = 0.

(** A range of whole pages, inside the kernel half and inside 32 bits. *)
Definition krange (k : kmap_ent) : Prop :=
  k_virt k mod 4096 = 0 /\ k_start k mod 4096 = 0 /\ ksize k mod 4096 = 0 /\ 0 < ksize k /\ KERNBASE <= k_virt k /\
  k_virt k + ksize k <= 4294967296 /\ 0 <= k_start k /\ k_start k + ksize k <= 4294967296 /\ 0 <= k_perm k < 4096.

Lemma data_v2p : v2p kdata = kdata - KERNBASE.
Proof. apply p2v_v2p. unfold KERNLINK, EXTMEM, PHYSTOP, KERNBASE in *. lia. Qed.

Lemma kmap_ranges : exists a b c d, kmap kdata = [a; b; c; d] /\ krange a /\ krange b /\ krange c /\ krange d /\
  k_virt a + ksize a <= k_virt b /\ k_virt b + ksize b <= k_virt c /\ k_virt c + ksize c <= k_virt d.
Proof.
  do 4 eexists. split; [reflexivity|]. unfold krange, ksize. cbn [k_virt k_start k_stop k_perm]. rewrite data_v2p.
  change (v2p KERNLINK) with 1048576. unfold KERNLINK, EXTMEM, PHYSTOP, DEVSPACE, PTE_W in *. unfold KERNBASE in *.
  assert (Hm : (kdata - 2147483648) mod 4096 = 0) by (rewrite <- (Z.mod_add _ 524288) by lia; by replace (kdata - 2147483648 + 524288 * 4096) with kdata by lia).
  change (u32 (1048576 - 0)) with 1048576. change (u32 (0 - 4261412864)) with 33554432.
  rewrite (u32_id (kdata - 2147483648 - 1048576)), (u32_id (234881024 - (kdata - 2147483648))) by lia.
  assert (Hm2 : (kdata - 2147483648 - 1048576) mod 4096 = 0).
  { rewrite <- (Z.mod_add _ 256) by lia. by replace (kdata - 2147483648 - 1048576 + 256 * 4096) with (kdata - 2147483648) by lia. }
  assert (Hm3 : (234881024 - (kdata - 2147483648)) mod 4096 = 0).
  { rewrite Zminus_mod, Hm. reflexivity. }
  split_and!; try done; lia.
Qed.

(** The ranges are disjoint: one range does not contain what an earlier one has. *)
Lemma kmap_step ks k rem : kmap kdata = ks ++ k :: rem -> krange k /\ forall va, inrange k va -> Forall (fun k' => ~ inrange k' va) ks.
Proof.
  destruct kmap_ranges as (a & b & c & d & E & Ha & Hb & Hc & Hd & H1 & H2 & H3). rewrite E. clear E. intros E.
  assert (Hpos : 0 < ksize a /\ 0 < ksize b /\ 0 < ksize c /\ 0 < ksize d) by (unfold krange in *; tauto).
  destruct ks as [|k1 ks]; [injection E as <- _; split; [done|constructor]|]. injection E as <- E.
  destruct ks as [|k2 ks]; [injection E as <- _; split; [done|]; intros va Hva; repeat constructor; unfold inrange in *; lia|]. injection E as <- E.
  destruct ks as [|k3 ks]; [injection E as <- _; split; [done|]; intros va Hva; repeat constructor; unfold inrange in *; lia|]. injection E as <- E.
  destruct ks as [|k4 ks]; [injection E as <- _; split; [done|]; intros va Hva; repeat constructor; unfold inrange in *; lia|]. injection E as <- E.
  by destruct ks.
Qed.

(** One range. *)
Lemma map_range s l pgdir T ks k rem : kmap kdata = ks ++ k :: rem -> vspace kend s l pgdir T -> (forall va, va_ok va -> pte (km s) pgdir va = kval ks va) ->
  runs (mappages pgdir (k_virt k) (ksize k) (k_start k) (k_perm k)) s (fun r s' => exists k' l', l = k' ++ l' /\ vspace kend s' l' pgdir (list_to_set k' ∪ T) /\
    (r = 0 /\ (forall va, va_ok va -> pte (km s') pgdir va = kval (ks ++ [k]) va) \/ r = -1 /\ l' = []) /\
    forall x, outside ({[pgdir]} ∪ (list_to_set k' ∪ T)) x -> km s' x = km s x).
Proof.
  intros E Hs Hp. destruct (kmap_step ks k rem E) as [(K1 & K2 & K3 & K4 & K5 & K6 & K7 & K8 & K9) Hdis].
  apply Z.mod_divide in K1 as [v Ev]; [|done]. apply Z.mod_divide in K3 as [n En]; [|done].
  assert (El : last_page (k_virt k) (ksize k) = v + n - 1).
  { unfold last_page. replace (k_virt k + ksize k - 1) with ((v + n - 1) * 4096 + 4095) by lia. rewrite Z.div_add_l by lia. change (4095 / 4096) with 0. lia. }
  assert (Ed : k_virt k / 4096 = v) by (by rewrite Ev, Z.div_mul). assert (Er : Z.of_nat (range_pages (k_virt k) (ksize k)) = n) by (unfold range_pages; rewrite El, Ed; lia).
  eapply runs_mono; [apply (mappages_spec kend Hend s l pgdir T (k_virt k) (ksize k) (k_start k) (k_perm k) Hs); rewrite ?Er, ?Ed; try done; try lia|].
  - unfold KERNBASE in K5. lia.
  - intros x Hx. unfold KERNBASE in K5. rewrite Hp by (unfold va_ok; lia). rewrite kval_none; [done|]. apply Hdis. unfold inrange. lia.
  - cbv beta. rewrite Ed. intros r s' (j & l' & Hr & k' & -> & _ & Hs' & Hm & Hx). exists k', l'. split_and!; try done.
    destruct Hr as [[-> ->]|(-> & _ & ->)]; [left|by right]. split; [done|]. intros va Hva. rewrite Hm, Er by done. rewrite kval_snoc.
    + replace (v * 4096) with (k_virt k) by lia. replace (4096 * n) with (ksize k) by lia.
      destruct (decide (inrange k va)) as [Hin|Hin]; [by rewrite decide_True|]. rewrite decide_False by done. by apply Hp.
    + destruct (decide (inrange k va)) as [Hin|Hin]; [left; by apply Hdis|by right].
Qed.

(** ** setupkvm *)

Lemma zero_dir m pgdir : page kend pgdir -> (forall x, pgdir <= x < pgdir + 4096 -> m x = 0) -> ptable kend m pgdir ∅ /\ forall va, pte m pgdir va = 0.
Proof.
  intros Hp Hz. assert (Hpde : forall i, 0 <= i < 1024 -> pde m pgdir i = 0).
  { intros i Hi. unfold pde, ld32. by rewrite !Hz by lia. }
  split.
  - split; [done|set_solver|set_solver| | |set_solver]; intros i; [intros Hi; by rewrite Hpde|intros j Hi _; by rewrite Hpde].
  - intros va. unfold pte, pte_at. by rewrite Hpde by apply PDX_range.
Qed.

(** What it gives: an empty user half under the kernel's mappings, or 0 when
    the free list ran out. *)
Definition kvm_result (s : kmem) (l : list Z) (d : Z) (s' : kmem) : Prop :=
  (forall x, outside (list_to_set l) x -> km s' x = km s x) /\
  (d = 0 /\ (length l <= 1025)%nat /\ (exists l', free_ok kend s' l' /\ (forall v, v ∈ l' -> v ∈ l)) \/
   d <> 0 /\ exists k l', l = d :: k ++ l' /\ uspace kend s' l' d (list_to_set k) ∅ /\
     forall va, KERNBASE <= va -> va_ok va -> pte (km s') d va = kval (kmap kdata) va).

Lemma user_none va ks : 0 <= va < KERNBASE -> (forall k, k ∈ ks -> krange k) -> kval ks va = 0.
Proof.
  intros Hva Hks. apply kval_none, Forall_forall. intros k Hk Hin. destruct (Hks k Hk) as (_ & _ & _ & _ & ? & _). unfold inrange in Hin. lia.
Qed.

Lemma kmap_krange k : k ∈ kmap kdata -> krange k.
Proof. intros Hk. apply list_elem_of_split in Hk as (ks & rem & E). by apply (kmap_step ks k rem). Qed.

Lemma setupkvm_spec s l : free_ok kend s l -> runs (setupkvm kdata) s (kvm_result s l).
Proof.
  intros Hf. unfold setupkvm. destruct (kalloc_spec kend Hend s l Hf) as [Ek Hk]. apply runs_bind. unfold runs at 1. rewrite Ek.
  destruct l as [|d l]; [apply runs_ret; split; [done|left; split_and!; [done|cbn; lia|]]; by exists []|]. destruct Hk as (Hf1 & Hd & Hdl).
  destruct (page_pos kend Hend d Hd) as (Hd0 & _). rewrite (proj2 (Z.eqb_neq d 0)) by lia. apply runs_bind, runs_modify.
  change (p2v PHYSTOP >? DEVSPACE) with false. set (s1 := poke _ _).
  assert (Hms : forall x, km s1 x = if decide (d <= x < d + 4096) then 0 else km s x) by (intros x; cbn; by rewrite memset_fill).
  destruct (zero_dir (km s1) d Hd) as [Hpt Hpte]; [intros x Hx; by rewrite Hms, decide_True|].
  assert (Hs1 : vspace kend s1 l d ∅).
  { split; [done| |intros v Hv; split; [by intros ->|set_solver]]. apply (free_poke kend Hend (set_freelist (ld32 (km s) d) s) l d); [done..|].
    intros x Hx. change (km s1 x = km s x). by rewrite Hms, decide_False. }
  pose (I := fun (rem : list kmap_ent) (s' : kmem) => exists ks k' l', kmap kdata = ks ++ rem /\ l = k' ++ l' /\ vspace kend s' l' d (list_to_set k') /\
    (forall va, va_ok va -> pte (km s') d va = kval ks va) /\ forall x, outside (list_to_set (d :: l)) x -> km s' x = km s x).
  apply runs_bind, (runs_for _ _ I).
  - exists [], [], l. split_and!; try done. intros x Ho. rewrite Hms, decide_False; [done|]. apply Ho. set_solver.
  - intros k rem s2 (ks & k1 & l1 & E & El & Hs2 & Hp2 & Hx2). apply runs_bind. fold (ksize k). eapply runs_mono; [by apply (map_range s2 l1 d (list_to_set k1) ks k rem)|].
    cbv beta. intros r s3 (k2 & l2 & -> & Hs3 & Hr & Hx3). apply runs_ret.
    assert (Hx : forall x, outside (list_to_set (d :: l)) x -> km s3 x = km s x).
    { intros x Ho. rewrite Hx3, Hx2; [done|done|]. intros w Hw. apply Ho. set_solver. }
    destruct Hr as [[-> Hp3]|[-> ->]]; cbn.
    + exists (ks ++ [k]), (k1 ++ k2), l2. rewrite list_to_set_app_L, (union_comm_L (list_to_set k1)). split_and!; try done; [by rewrite <- app_assoc|by rewrite <- app_assoc].
    + apply runs_ret. split; [done|]. left. split; [done|]. split; [|exists []; split; [apply Hs3|by intros v ?%elem_of_nil]].
      rewrite app_nil_r in El. pose proof (ptable_size kend Hend _ _ _ (vs_tab _ _ _ _ _ Hs3)) as Hsz. pose proof (fr_nodup _ _ _ Hf) as Hnd. apply NoDup_cons in Hnd as [_ Hnd].
      rewrite El in Hnd. rewrite (union_comm_L (list_to_set k2)), <- list_to_set_app_L, size_list_to_set in Hsz by done. cbn [length]. rewrite El. lia.
  - intros s2 (ks & k1 & l1 & E & El & Hs2 & Hp2 & Hx2). rewrite app_nil_r in E. subst ks. apply runs_ret. split; [done|]. right. split; [lia|]. exists k1, l1.
    split; [by rewrite El|]. split; [|intros va _ Hva; by apply Hp2]. split; [done| |by intros i v f|by intros v (i & f & ?)|by intros i j v f g].
    intros i Hi. rewrite Hp2 by (by apply upage_va). apply user_none; [unfold upage, KERNBASE in *; lia|apply kmap_krange].
Qed.

(** ** freevm *)

(** After the tables of the entries below [k] were freed. *)
Record tables_freed (s s' : kmem) (pgdir : Z) (T : gset Z) (l l' : list Z) (k : nat) : Prop := {
  tf_free : free_ok kend s' l';
  tf_dir : pgdir ∉ l';
  tf_todo : forall i, Z.of_nat k <= i < 1024 -> test (pde (km s) pgdir i) PTE_P = true -> tab (km s) pgdir i ∉ l';
  tf_from : forall v, v ∈ l' -> v ∈ l \/ v ∈ T;
  tf_keep : forall v, v ∈ l -> v ∈ l';
  tf_mem : forall x, outside T x -> km s' x = km s x
}.

Lemma free_tables s l pgdir T : vspace kend s l pgdir T ->
  runs (each (seq 0 NPDENTRIES) (fun i => e <- load32 (pgdir + 4 * Z.of_nat i) ;; if test e PTE_P then kfree kend (p2v (PTE_ADDR e)) else ret tt)) s
    (fun _ s' => exists l', tables_freed s s' pgdir T l l' 1024).
Proof.
  intros [Ht Hf Hd]. apply (runs_each _ _ (fun rem s' => exists k l', rem = seq k (1024 - k) /\ (k <= 1024)%nat /\ tables_freed s s' pgdir T l l' k)).
  - exists 0%nat, l. split_and!; [done|lia|]. split; try done; [by intros Hin; destruct (Hd pgdir Hin)| |by left].
    intros i Hi Hp Hin. destruct (Hd _ Hin) as [_ Hn]. apply Hn. by apply (pt_in _ _ _ _ Ht).
  - intros i rem s' (k & l' & E & Hk & [F1 F2 F3 F4 F5 F6]). destruct (1024 - k)%nat as [|m] eqn:Em; [done|]. injection E as -> ->.
    assert (Hi : 0 <= Z.of_nat k < 1024) by lia. assert (Epde : pde (km s') pgdir (Z.of_nat k) = pde (km s) pgdir (Z.of_nat k)).
    { apply (pde_frame kend (km s) (km s') pgdir _ T); [done|apply Ht|apply Ht|apply Ht|done]. }
    apply runs_bind, runs_gets. fold (pde (km s') pgdir (Z.of_nat k)). rewrite Epde. fold (tab (km s) pgdir (Z.of_nat k)).
    destruct (test (pde (km s) pgdir (Z.of_nat k)) PTE_P) eqn:Ep.
    + pose proof (pt_in _ _ _ _ Ht _ Hi Ep) as HinT. pose proof (pt_pages _ _ _ _ Ht _ HinT) as Hpg.
      eapply runs_mono; [apply (kfree_spec kend Hend _ s' l' F1 Hpg); apply F3; [lia|done]|]. intros [] s2 (G1 & _ & _ & G4).
      exists (S k), (tab (km s) pgdir (Z.of_nat k) :: l'). split; [f_equal; lia|]. split; [lia|]. split; [done| | | | |].
      * intros [E|?]%elem_of_cons; [|done]. apply (pt_dirT _ _ _ _ Ht). by rewrite E.
      * intros i Hi' Hp' [E|?]%elem_of_cons; [|by apply (F3 i); [lia|done|]].
        apply (pt_inj _ _ _ _ Ht) in E; [lia|lia|done|done|done].
      * intros v [-> |Hv]%elem_of_cons; [by right|auto].
      * intros v Hv. right. auto.
      * intros x Ho. rewrite G4, F6; [done|done|]. by apply Ho.
    + apply runs_ret. exists (S k), l'. split; [f_equal; lia|]. split; [lia|]. split; try done. intros i Hi'. apply F3. lia.
  - intros s' (k & l' & E & Hk & Hfr). exists l'. assert (k = 1024)%nat as -> by (destruct (1024 - k)%nat eqn:Em; [lia|done]). done.
Qed.

(** freevm gives back the directory, its tables and every page; memory
    outside them is unchanged. *)
Lemma freevm_spec s l pgdir T um n : uspace kend s l pgdir T um -> pages_upto um 0 n -> 0 <= n <= 524288 ->
  runs (freevm kend pgdir) s (fun _ s' => exists l', free_ok kend s' l' /\ (forall v, v ∈ l' -> v ∈ l \/ owned pgdir T um v) /\
    (forall v, v ∈ l \/ v = pgdir \/ framed um v -> v ∈ l') /\
    (forall x, (forall v, owned pgdir T um v -> ~ (v <= x < v + 4096)) -> km s' x = km s x)).
Proof.
  intros Hu Hn Hn'. unfold freevm. destruct (us_vs _ _ _ _ _ _ Hu) as [Ht _ _]. pose proof (pt_dir _ _ _ _ Ht) as Hdir.
  destruct (page_pos kend Hend pgdir Hdir) as (Hd0 & _). rewrite (proj2 (Z.eqb_neq _ _)) by lia.
  apply runs_bind. eapply runs_mono.
  { apply (deallocuvm_spec kend Hend s l pgdir T um n KERNBASE 0 Hu); [unfold KERNBASE; lia|done|change ((0 + 4095) / 4096) with 0; lia|done|left; unfold KERNBASE; lia]. }
  cbv beta. change ((0 + 4095) / 4096) with 0. intros r s1 (_ & l1 & [R1 (fr & -> & _ & Hfr) _ R4]).
  assert (Hdom : forall j v f, um !! j = Some (v, f) -> 0 <= j) by (intros j v f E; destruct (us_dom _ _ _ _ _ _ Hu j v f E) as (Hj & _); unfold upage in Hj; lia).
  apply runs_bind. eapply runs_mono; [apply (free_tables s1 (fr ++ l) pgdir T), (us_vs _ _ _ _ _ _ R1)|].
  intros [] s2 (l2 & [F1 F2 _ F4 F5 F6]). eapply runs_mono; [by apply (kfree_spec kend Hend pgdir s2 l2)|]. intros [] s3 (G1 & _ & _ & G4).
  assert (Hframed : forall v, v ∈ fr <-> framed um v).
  { intros v. rewrite Hfr. split; [intros (j & f & _ & E); by exists j, f|]. intros (j & f & E). exists j, f. split; [by eapply Hdom|done]. }
  exists (pgdir :: l2). split; [done|]. split; [|split].
  - intros v [-> |Hv]%elem_of_cons; [right; by left|]. destruct (F4 v Hv) as [[Hv'|Hv']%elem_of_app|Hv'];
      [right; right; right; by apply Hframed|by left|right; right; by left].
  - intros v Hv. apply elem_of_cons. destruct Hv as [Hv|[-> |Hv]]; [right; apply F5, elem_of_app; by right|by left|right; apply F5, elem_of_app; left; by apply Hframed].
  - intros x Hx. assert (Ho : outside T x) by (intros v Hv; apply Hx; right; by left). rewrite G4, F6, R4; [done|done| |done|apply Hx; by left].
    intros j v f _ E. apply Hx. right. right. by exists j, f.
Qed.
End Kvm.
