(* ===== verification/UspaceCopy.v ===== *)
(** * Copying an address space (copyuvm of vm.c)

    fork's child gets the bytes and the permissions of its parent in frames of
    its own; whatever happens on the way, the parent keeps its pages. *)

From S2P Require Import Prelude.
From S2P Require Import Cstr.
From S2P Require Import Mmu.
From S2P Require Import Kalloc.
From S2P Require Import Vm.
From S2P Require Import VmBytes.
From S2P Require Import VmSpec.
From S2P Require Import Uspace.
From S2P Require Import UspaceKvm.

Lemma lor_present f : test f PTE_P = true -> Z.lor f PTE_P = f.
Proof.
  unfold PTE_P. rewrite test_1. intros Hf. apply Z.bits_inj_iff. intros b. rewrite Z.lor_spec. destruct (decide (b = 0)) as [->|Hb]; [by rewrite Hf|].
  replace (Z.testbit 1 b) with false; [apply orb_false_r|]. symmetry. change 1 with (2 ^ 0). by apply Z.pow2_bits_false.
Qed.

Section Kept.
Context (kend : Z).
Hypothesis Hend : KERNBASE < kend.
Context (s : kmem) (l : list Z) (pgdir : Z) (T : gset Z) (um : upages).
Hypothesis Hu : uspace kend s l pgdir T um.

Lemma l_pages v : v ∈ l -> page kend v.
Proof. intros Hv. pose proof (fr_page _ _ _ (vs_free _ _ _ _ _ (us_vs _ _ _ _ _ _ Hu))) as Hp. rewrite Forall_forall in Hp. auto. Qed.

(** The parent, as long as only pages that were free are written. *)
Lemma parent_kept s' l' : free_ok kend s' l' -> (forall v, v ∈ l' -> v ∈ l) -> (forall x, outside (list_to_set l) x -> km s' x = km s x) ->
  uspace kend s' l' pgdir T um /\ forall va, ubyte (km s') um va = ubyte (km s) um va.
Proof.
  intros Hf Hl Hx. destruct (us_vs _ _ _ _ _ _ Hu) as [_ _ Hd]. split.
  - apply (uspace_frame kend Hend s l s' l' pgdir T um (list_to_set l)); try done.
    + intros v Hv. left. auto.
    + intros v Hv. apply l_pages. set_solver.
    + intros Hin%elem_of_list_to_set. by destruct (Hd _ Hin).
    + intros t Ht Hin%elem_of_list_to_set. by destruct (Hd _ Hin).
  - intros va. unfold ubyte. destruct (um !! (va / 4096)) as [[v f]|] eqn:E; [|done]. f_equal. apply Hx.
    destruct (us_own _ _ _ _ _ _ Hu v) as (Hv & Hvl & _); [by exists (va / 4096), f|]. apply (outside_page kend v); [done| |set_solver|].
    + intros w Hw. apply l_pages. set_solver.
    + pose proof (Z.mod_pos_bound va 4096). lia.
Qed.

End Kept.

Section Copy.
Context (kend kdata : Z).
Hypothesis Hend : KERNBASE < kend.

Context (s : kmem) (l : list Z) (pgdir : Z) (T : gset Z) (um : upages) (n : Z).
Hypothesis Hu : uspace kend s l pgdir T um.
Hypothesis Hn : pages_upto um 0 n.
Hypothesis Hn' : 0 <= n <= 524288.

Let l_pages := l_pages kend s l pgdir T um Hu.
Let parent_kept := parent_kept kend Hend s l pgdir T um Hu.

(** [i] pages have been copied into the directory [d]. *)
Record copied (s' : kmem) (d i : Z) (D : gset Z) (l' : list Z) (cm : upages) : Prop := {
  cp_space : uspace kend s' l' d D cm;
  cp_from : forall v, v ∈ l' \/ owned d D cm v -> v ∈ l;
  cp_upto : pages_upto cm 0 i;
  cp_bytes : forall j v f, j < i -> um !! j = Some (v, f) -> exists w, cm !! j = Some (w, f) /\ forall x, 0 <= x < 4096 -> km s' (w + x) = km s (v + x);
  cp_count : Z.of_nat (length l) = 1 + Z.of_nat (size D) + i + Z.of_nat (length l');
  cp_khalf : forall va, KERNBASE <= va -> va_ok va -> pte (km s') d va = kval (kmap kdata) va;
  cp_mem : forall x, outside (list_to_set l) x -> km s' x = km s x;
  cp_ok : mem_ok (km s')
}.

(** A copy given up: the child is still an address space of its own. *)
Definition abandoned (s' : kmem) (d : Z) : Prop :=
  Z.of_nat (length l) <= 1025 + n /\ exists i D l' cm, 0 <= i <= n /\ uspace kend s' l' d D cm /\ (forall v, v ∈ l' \/ owned d D cm v -> v ∈ l) /\
    pages_upto cm 0 i /\ forall x, outside (list_to_set l) x -> km s' x = km s x.

Lemma copied_short s' d i D cm : copied s' d i D [] cm -> 0 <= i < n -> abandoned s' d.
Proof.
  intros [C1 C2 C3 _ C5 _ C7 _] Hi. pose proof (ptable_size kend Hend _ _ _ (vs_tab _ _ _ _ _ (us_vs _ _ _ _ _ _ C1))) as Hsz. cbn [length] in C5.
  split; [lia|]. exists i, D, [], cm. split_and!; try done; lia.
Qed.

(** The bytes of a frame of the parent, and those the child already has. *)
Lemma frame_bytes s' v x : (forall x, outside (list_to_set l) x -> km s' x = km s x) -> framed um v -> 0 <= x < 4096 -> km s' (v + x) = km s (v + x).
Proof.
  intros Hx Hv Hr. apply Hx. destruct (us_own _ _ _ _ _ _ Hu v Hv) as (Hp & Hvl & _). apply (outside_page kend v); [done| |set_solver|lia].
  intros w Hw. apply l_pages. set_solver.
Qed.

(** One page: kalloc, memmove, mappages. *)
Lemma copy_page s' d i D w l1 cm v f : copied s' d i D (w :: l1) cm -> 0 <= i < n -> um !! i = Some (v, f) ->
  w <> 0 /\ kalloc s' = Done w (set_freelist (ld32 (km s') w) s') /\
  runs (mappages d (4096 * i) PGSIZE (v2p w) f) (poke (fun m => memmove m w v (Z.to_nat PGSIZE)) (set_freelist (ld32 (km s') w) s'))
    (fun r s2 => r = 0 /\ (exists D' l' cm', copied s2 d (i + 1) D' l' cm') \/ r = -1 /\ abandoned s2 d).
Proof.
  intros [C1 C2 C3 C4 C5 C6 C7 C8] Hi E. destruct (us_dom _ _ _ _ _ _ Hu i v f E) as (Hup & Hf & Hfp).
  destruct (uspace_kalloc kend Hend s' w l1 d D cm C1) as (Ek & Hu1 & Em & Hw & Hwl & Hno). set (s1 := set_freelist (ld32 (km s') w) s') in *.
  destruct (page_pos kend Hend w Hw) as (Hw0 & _). split; [lia|]. split; [done|]. set (s2 := poke (fun m => memmove m w v (Z.to_nat PGSIZE)) s1).
  assert (Hmv : forall x, km s2 x = if decide (w <= x < w + 4096) then km s' (v + (x - w)) else km s' x).
  { intros x. change (km s2 x) with (memmove (km s1) w v (Z.to_nat PGSIZE) x). rewrite memmove_bytes, Em by (by rewrite Em). destruct (inside w (Z.to_nat PGSIZE) x) eqn:Ei.
    - apply inside_iff in Ei. by rewrite decide_True.
    - rewrite decide_False; [done|]. intros Hin. change 4096 with (Z.of_nat (Z.to_nat PGSIZE)) in Hin. apply inside_iff in Hin. congruence. }
  assert (Hno' := Hno). unfold owned in Hno'. assert (Hu2 : uspace kend s2 l1 d D cm).
  { apply (uspace_poke kend Hend s1 l1 d D cm w); try done; [tauto|tauto|]. intros x Hx. change (km s2 x = km s1 x). by rewrite Hmv, decide_False, Em. }
  assert (Hok2 : mem_ok (km s2)) by (intros x; rewrite Hmv; case_decide; apply C8).
  assert (Hci : cm !! i = None) by (apply eq_None_not_Some; intros Hs; apply (C3 i) in Hs; lia).
  assert (Hwin : w ∈ l) by (apply C2; left; constructor).
  eapply runs_mono; [eapply runs_typed; [apply typed_mappages|exact Hok2|by apply (map_user kend Hend s2 l1 d D cm i w f)]|].
  cbv beta. intros r s3 [(k & l' & -> & Hk & Hr & Hkh & Hx) Hok3].
  assert (HX : forall u, u ∈ {[d]} ∪ (list_to_set k ∪ D) -> u ∈ l).
  { intros u [->%elem_of_singleton|[Hu'|Hu']%elem_of_union]%elem_of_union; apply C2; [right; by left|left; set_solver|right; right; by left]. }
  assert (Hmem : forall x, outside (list_to_set l) x -> km s3 x = km s x).
  { intros x Ho. rewrite Hx by (intros u Hu'; apply Ho; apply elem_of_list_to_set; auto). rewrite Hmv, decide_False; [by apply C7|]. apply Ho. set_solver. }
  destruct Hr as [[-> Hu3]|(-> & Hnil & Hu3)].
  - left. split; [done|]. rewrite (lor_present f Hfp) in Hu3. exists (list_to_set k ∪ D), l', (<[i := (w, f)]> cm).
    assert (Hpg : forall u, u ∈ {[d]} ∪ (list_to_set k ∪ D) -> page kend u) by (intros u Hu'; apply l_pages; auto). split; try done.
    + intros u [Hu'|[-> |[Hu'|(j & g & Hj)]]]; [apply C2; left; set_solver|apply C2; right; by left|apply HX; set_solver|].
      apply lookup_insert_Some in Hj as [[_ [= <- _]]|[_ Hj]]; [done|]. apply C2. right. right. right. by exists j, g.
    + intros j Hj. destruct (decide (j = i)) as [->|Hne]; [rewrite lookup_insert_eq; split; [lia|by eexists]|]. rewrite lookup_insert_ne, (C3 j Hj) by done. lia.
    + intros j v' f' Hj Ej. destruct (decide (j = i)) as [->|Hne].
      * rewrite E in Ej. injection Ej as <- <-. exists w. rewrite lookup_insert_eq. split; [done|]. intros x Hr. destruct (us_own _ _ _ _ _ _ Hu3 w) as (_ & _ & W3 & W4).
        { exists i, f. by rewrite lookup_insert_eq. }
        rewrite Hx by (apply (outside_page kend w); [done|done|set_solver|lia]). rewrite Hmv, decide_True by lia. replace (v + (w + x - w)) with (v + x) by lia.
        apply frame_bytes; [done|by exists i, f|done].
      * destruct (C4 j v' f' ltac:(lia) Ej) as (w' & Ew & Hw'). exists w'. rewrite lookup_insert_ne by done. split; [done|]. intros x Hr.
        assert (Hfr : framed cm w') by (by exists j, f'). destruct (us_own _ _ _ _ _ _ Hu3 w') as (P1 & _ & W3 & W4); [exists j, f'; by rewrite lookup_insert_ne|].
        rewrite Hx by (apply (outside_page kend w'); [done|done|set_solver|lia]). rewrite Hmv, decide_False; [by apply Hw'|].
        apply (pages_apart kend w' w); [done|done|intros ->; tauto|lia].
    + cbn [length] in C5. rewrite length_app in C5. rewrite size_union, size_list_to_set; [lia| |].
      * pose proof (fr_nodup _ _ _ (vs_free _ _ _ _ _ (us_vs _ _ _ _ _ _ Hu2))) as Hnd. by apply NoDup_app in Hnd as (? & _).
      * intros u Hu1' Hu2'. apply elem_of_list_to_set in Hu1'. destruct (vs_disj _ _ _ _ _ (us_vs _ _ _ _ _ _ Hu2) u); [set_solver|done].
    + intros va Hva Hvo. rewrite Hkh, <- C6 by done. apply (pte_frame kend Hend (km s') (km s2) d D {[w]}); [apply (us_vs _ _ _ _ _ _ C1)|set_solver..|].
      intros x Ho. rewrite Hmv, decide_False; [done|]. apply Ho. set_solver.
  - right. split; [done|]. pose proof (ptable_size kend Hend _ _ _ (vs_tab _ _ _ _ _ (us_vs _ _ _ _ _ _ C1))) as Hsz. rewrite Hnil in C5. cbn [length] in C5.
    split; [lia|]. exists i, (list_to_set k ∪ D), l', cm. split_and!; [lia|lia|done| |done|done].
    intros u [Hu'|[-> |[Hu'|Hu']]]; [apply C2; left; set_solver|apply C2; right; by left|apply HX; set_solver|apply C2; right; right; by right].
Qed.

(** The loop, from page [i] on. *)
Lemma copy_loop fuel s' d i D l' cm sz : copied s' d i D l' cm -> 0 <= i <= n -> 4096 * (n - 1) < sz <= 4096 * n -> n - i <= Z.of_nat fuel ->
  runs (copyuvm_loop fuel pgdir d (4096 * i) sz) s' (fun r s2 =>
    r = None /\ (exists D l' cm, copied s2 d n D l' cm) \/ r = Some tt /\ abandoned s2 d).
Proof.
  revert s' i D l' cm. induction fuel as [|fuel IH]; intros s' i D l' cm Hc Hi Hsz Hfuel; cbn [copyuvm_loop];
    [replace i with n in Hc by lia; apply runs_ret; left; split; [done|by exists D, l', cm]|].
  destruct (Z.ltb_spec (4096 * i) sz) as [Hlt|Hge]; [|replace i with n in Hc by lia; apply runs_ret; left; split; [done|by exists D, l', cm]].
  assert (Hs : is_Some (um !! i)) by (apply Hn; lia). destruct Hs as [[v f] E].
  assert (Hfree : free_ok kend s' l') by apply Hc. destruct (parent_kept s' l' Hfree (fun v Hv => cp_from _ _ _ _ _ _ Hc v (or_introl Hv)) (cp_mem _ _ _ _ _ _ Hc)) as [Hp _].
  destruct (us_dom _ _ _ _ _ _ Hu i v f E) as (Hup & Hf & Hfp). destruct (us_own _ _ _ _ _ _ Hu v) as (Hv & _); [by exists i, f|].
  destruct (mapped_entry kend Hend s' l' pgdir T um i v f Hp E) as [Hat Hld]. destruct (entry_frame kend Hend v f Hv Hf) as (Ea & Eg & Ev & _).
  destruct (entry_present kend Hend v f Hv Hf) as [Ep _]. rewrite Hfp in Ep.
  apply runs_bind. unfold runs at 1. rewrite walk_eq, (proj2 (Z.eqb_neq _ _) Hat). apply runs_bind, runs_gets. rewrite Hld, Ep, Ea, Eg, Ev. cbn [negb].
  destruct l' as [|w l1].
  - apply runs_bind. unfold runs at 1. rewrite (uspace_kalloc_none kend Hend s' d D cm) by apply Hc. apply runs_ret. right. split; [done|].
    apply (copied_short s' d i D cm); [done|lia].
  - destruct (copy_page s' d i D w l1 cm v f Hc ltac:(lia) E) as (Hw & Ek & Hm). apply runs_bind. unfold runs at 1. rewrite Ek, (proj2 (Z.eqb_neq _ _) Hw).
    apply runs_bind, runs_modify, runs_bind. eapply runs_mono; [exact Hm|]. cbv beta. intros r s2 [[-> (D2 & l2 & cm2 & Hc2)]|[-> Hab]].
    + change (0 <? 0) with false. cbv iota. unfold PGSIZE, upage in *. rewrite u32_id by lia. replace (4096 * i + 4096) with (4096 * (i + 1)) by lia.
      eapply IH; [done|lia..].
    + change (-1 <? 0) with true. apply runs_ret. by right.
Qed.

(** What copyuvm promises fork. *)
Definition copy_result (d : Z) (s' : kmem) : Prop := exists l',
  (uspace kend s' l' pgdir T um /\ forall va, ubyte (km s') um va = ubyte (km s) um va) /\
  (d = 0 /\ Z.of_nat (length l) <= 1025 + n \/
   d <> 0 /\ exists D cm, uspace kend s' l' d D cm /\ (forall v, owned d D cm v -> ~ owned pgdir T um v) /\
     (forall i, snd <$> cm !! i = snd <$> um !! i) /\ (forall va, ubyte (km s') cm va = ubyte (km s) um va) /\
     forall va, KERNBASE <= va -> va_ok va -> pte (km s') d va = kval (kmap kdata) va).

Lemma copied_result s' d D l' cm : copied s' d n D l' cm -> copy_result d s'.
Proof.
  intros [C1 C2 C3 C4 C5 C6 C7 C8]. exists l'. split; [apply parent_kept; [apply C1|auto|done]|]. right.
  destruct (page_pos kend Hend d (l_pages d (C2 d (or_intror (or_introl eq_refl))))) as (Hd0 & _). split; [lia|]. exists D, cm.
  assert (Hsame : forall i, match um !! i with Some (v, f) => exists w, cm !! i = Some (w, f) /\ forall x, 0 <= x < 4096 -> km s' (w + x) = km s (v + x) | None => cm !! i = None end).
  { intros i. assert (Hlow : forall k (m : upages), (forall v f, m !! k = Some (v, f) -> upage k) -> k < 0 -> m !! k = None).
    { intros k m Hm Hk. destruct (m !! k) as [[v f]|] eqn:E; [|done]. destruct (Hm v f eq_refl). lia. }
    destruct (decide (i < 0)) as [Hi|Hi].
    - rewrite !Hlow; try done; intros v f E; [apply (us_dom _ _ _ _ _ _ C1 i v f E)|apply (us_dom _ _ _ _ _ _ Hu i v f E)].
    - destruct (um !! i) as [[v f]|] eqn:E; [apply (C4 i v f); [apply (Hn i); [lia|by rewrite E]|done]|].
      apply eq_None_not_Some. rewrite (C3 i), <- (Hn i), E by lia. by intros [? ?]. }
  split_and!; [done| | | |done].
  - intros v Hv Hpv. assert (Hvl : v ∈ l) by auto. destruct (vs_disj _ _ _ _ _ (us_vs _ _ _ _ _ _ Hu) v Hvl). destruct Hpv as [->|[?|Hfr]]; [done..|].
    by destruct (us_own _ _ _ _ _ _ Hu v Hfr) as (_ & ? & _).
  - intros i. specialize (Hsame i). destruct (um !! i) as [[v f]|]; [|by rewrite Hsame]. by destruct Hsame as (w & -> & _).
  - intros va. unfold ubyte. specialize (Hsame (va / 4096)). destruct (um !! (va / 4096)) as [[v f]|]; [|by rewrite Hsame].
    destruct Hsame as (w & -> & Hw). f_equal. apply Hw. pose proof (Z.mod_pos_bound va 4096). lia.
Qed.

(** Giving up frees what the child had. *)
Lemma abandoned_result s' d : abandoned s' d -> runs (freevm kend d ;;; ret 0) s' copy_result.
Proof.
  intros (Hl & i & D & l' & cm & Hi & C1 & C2 & C3 & C7). apply runs_bind. eapply runs_mono; [apply (freevm_spec kend Hend s' l' d D cm i); [done|done|lia]|].
  intros [] s2 (l2 & Hf & Hin & _ & Hx). apply runs_ret. exists l2. split; [|by left]. apply parent_kept; [done|intros v Hv; apply C2; auto|].
  intros x Ho. rewrite Hx by (intros v Hv; apply Ho; apply elem_of_list_to_set; auto). by apply C7.
Qed.
End Copy.

