(* ===== verification/UspaceDemo.v ===== *)
(** * A concrete address space

    The allocator filled by kinit1 from zeroed memory, a directory from
    setupkvm and two pages from allocuvm: the starting point of the witnesses
    of the address-space theorems. *)

From S2P Require Import Prelude.
From S2P Require Import Cstr.
From S2P Require Import Mmu.
From S2P Require Import Kalloc.
From S2P Require Import Vm.
From S2P Require Import VmBytes.
From S2P Require Import VmSpec.
From S2P Require Import Uspace.
From S2P Require Import UspaceAlloc.
From S2P Require Import UspaceKvm.
From S2P Require Import UspaceCopy.

Module UspaceDemo.
Definition dend : Z := 2148564992.
Definition ddata : Z := 2148536320.
Definition dtop : Z := 2148569088 + 4096 * 3000.
Definition blank : kmem := mkkmem (fun _ => 0) 0 true [].

(** A directory with a user half of two pages. *)
Definition launch : M kmem Z :=
  kinit1 dend (dend + 1) dtop ;;;
  d <- setupkvm ddata ;;
  _ <- allocuvm dend d 0 8192 ;;
  ret d.

Lemma pages_length p k : length (pages p k) = k.
Proof. revert p. induction k as [|k IH]; intros p; [done|]. cbn [pages length]. by rewrite IH. Qed.

Lemma kinit_demo : runs (kinit1 dend (dend + 1) dtop) blank (fun _ s => mem_ok (km s) /\ exists l, free_ok dend s l /\ length l = 3000%nat).
Proof.
  unfold kinit1. apply runs_bind, runs_modify. unfold freerange. change (PGROUNDUP (dend + 1)) with 2148569088.
  assert (En : npages 2148569088 dtop = 3000%nat) by (vm_compute; reflexivity).
  eapply runs_mono; [apply (freerange_loop_spec dend ltac:(unfold dend, KERNBASE; lia) _ 2148569088 dtop _ []); try done|].
  - unfold npages, PGSIZE. lia.
  - split; [done|constructor|constructor].
  - by intros v ?%elem_of_nil.
  - cbv beta. intros _ s (Hf & _ & Hm & _). split; [done|]. rewrite En, app_nil_r in Hf. eexists. split; [exact Hf|]. by rewrite length_reverse, pages_length.
Qed.

Lemma launch_runs : runs launch blank (fun d s => mem_ok (km s) /\ exists l T um, uspace dend s l d T um /\ pages_upto um 0 2 /\ (1900 <= length l)%nat /\
  forall j, 0 <= j < 2 -> exists v, um !! j = Some (v, 7)).
Proof.
  assert (Hend : KERNBASE < dend) by (unfold dend, KERNBASE; lia). unfold launch. apply runs_bind. eapply runs_mono; [apply kinit_demo|].
  intros [] s0 (Hm0 & l0 & Hf0 & Hl0). apply runs_bind. eapply runs_mono.
  { eapply runs_typed; [apply typed_setupkvm|exact Hm0|]. apply (setupkvm_spec dend ddata Hend); [unfold ddata, KERNLINK, KERNBASE, EXTMEM, PHYSTOP; lia|done|exact Hf0]. }
  intros d s1 [[_ [(_ & Hl & _)|(Hd & k & l & -> & Hu1 & _)]] Hm1]; [lia|].
  assert (Hk : (length k <= 1024)%nat).
  { pose proof (ptable_size dend Hend _ _ _ (vs_tab _ _ _ _ _ (us_vs _ _ _ _ _ _ Hu1))) as Hsz. rewrite size_list_to_set in Hsz; [done|].
    pose proof (fr_nodup _ _ _ Hf0) as Hnd. apply NoDup_cons in Hnd as [_ Hnd]. by apply NoDup_app in Hnd as (? & _). }
  cbn [length] in Hl0. rewrite length_app in Hl0. apply runs_bind. eapply runs_mono.
  { eapply runs_typed; [apply typed_allocuvm|exact Hm1|]. apply (allocuvm_spec dend Hend s1 l d (list_to_set k) ∅ 0 8192 Hu1); [lia|done|done|].
    change ((8192 + 4095) / 4096) with 2. change ((0 + 4095) / 4096) with 0. lia. }
  cbv beta zeta. change ((8192 + 4095) / 4096) with 2. change ((0 + 4095) / 4096) with 0.
  intros r s2 [(_ & um & [(l' & T' & Hu2 & _ & _ & Hl') Hold Hnew _ _]) Hm2]. apply runs_ret. split; [done|]. exists l', T', um. split; [done|]. split; [|split; [lia|intros j Hj; destruct (Hnew j Hj) as (v & -> & _); by exists v]].
  intros j Hj. destruct (decide (j < 2)) as [H2|H2].
  - destruct (Hnew j ltac:(lia)) as (v & -> & _). split; [done|by eexists].
  - rewrite Hold by lia. rewrite lookup_empty. split; [by intros [? ?]|lia].
Qed.

End UspaceDemo.
