(* ===== verification/UspaceGrow.v ===== *)
(** * Growing and shrinking (allocuvm and deallocuvm of vm.c)

    What sbrk does to the bytes a process sees, and what happens when the
    page table for a new page cannot be had. *)

From S2P Require Import Prelude.
From S2P Require Import Cstr.
From S2P Require Import Mmu.
From S2P Require Import Kalloc.
From S2P Require Import Vm.
From S2P Require Import VmBytes.
From S2P Require Import VmSpec.
From S2P Require Import Uspace.
From S2P Require Import UspaceAlloc.
From S2P Require Import UspaceKvm.
From S2P Require Import UspaceCopy.
From S2P Require Import UspaceDemo.

Section Grow.
Context (kend : Z).
Hypothesis Hend : KERNBASE < kend.

(** A frame of the user half lies outside the tables and the free pages. *)
Lemma frame_outside s l pgdir T um v x : uspace kend s l pgdir T um -> framed um v -> v <= x < v + 4096 -> outside ({[pgdir]} ∪ (T ∪ list_to_set l)) x.
Proof.
  intros Hu Hv Hx. destruct (us_own _ _ _ _ _ _ Hu v Hv) as (V1 & V2 & V3 & V4). destruct (us_vs _ _ _ _ _ _ Hu) as [Vt Vf _].
  apply (outside_page kend v); [done| |set_solver|done]. intros w [->%elem_of_singleton|[Hw|Hw]%elem_of_union]%elem_of_union; [apply Vt|by apply (pt_pages _ _ _ _ Vt)|].
  pose proof (fr_page _ _ _ Vf) as Hp. rewrite Forall_forall in Hp. apply Hp. set_solver.
Qed.

Lemma mod_page va : 0 <= va mod 4096 < 4096.
Proof. apply Z.mod_pos_bound. lia. Qed.

Lemma ubyte_kept s s' l pgdir T um va : uspace kend s l pgdir T um -> (forall x, outside ({[pgdir]} ∪ (T ∪ list_to_set l)) x -> km s' x = km s x) ->
  ubyte (km s') um va = ubyte (km s) um va.
Proof.
  intros Hu Hx. unfold ubyte. destruct (um !! (va / 4096)) as [[v f]|] eqn:E; [|done]. f_equal. apply Hx. pose proof (mod_page va).
  apply (frame_outside s l pgdir T um v); [done|by exists (va / 4096), f|lia].
Qed.

(** The bytes after growing. *)
Lemma grown_bytes s s' pgdir T um um' l i n va : uspace kend s l pgdir T um -> grown kend s s' pgdir T um um' l i n -> va < 4096 * n ->
  ubyte (km s') um' va = if decide (va < 4096 * i) then ubyte (km s) um va else Some 0.
Proof.
  intros Hu [_ G2 G3 _ G5] Hva. pose proof (Z.div_mod va 4096 ltac:(lia)). pose proof (mod_page va). case_decide as Hi.
  - rewrite <- (ubyte_kept s s' l pgdir T um va Hu G5). unfold ubyte. rewrite G2 by lia. done.
  - unfold ubyte. destruct (G3 (va / 4096) ltac:(lia)) as (v & -> & _ & Hz). rewrite Hz by lia. done.
Qed.

(** The bytes left after shrinking. *)
Lemma released_bytes s s' pgdir T um l l' i n va : uspace kend s l pgdir T um -> released kend s s' pgdir T um l l' i n ->
  ubyte (km s') (below i um) va = if decide (va < 4096 * i) then ubyte (km s) um va else None.
Proof.
  intros Hu [_ _ _ R4]. pose proof (Z.div_mod va 4096 ltac:(lia)). pose proof (mod_page va). unfold ubyte.
  destruct (below i um !! (va / 4096)) as [[v f]|] eqn:E.
  - unfold below in E. apply map_lookup_filter_Some in E as [E Hlt]. cbn in Hlt. rewrite decide_True, E by lia. f_equal. apply R4.
    + assert (Ho := frame_outside s l pgdir T um v (v + va mod 4096) Hu ltac:(by exists (va / 4096), f) ltac:(lia)). intros w Hw. apply Ho. set_solver.
    + intros j w g Hj Ej. destruct (us_own _ _ _ _ _ _ Hu v) as (V1 & _); [by exists (va / 4096), f|]. destruct (us_own _ _ _ _ _ _ Hu w) as (W1 & _); [by exists j, g|].
      apply (pages_apart kend v w); [done|done| |lia]. intros ->. pose proof (us_inj _ _ _ _ _ _ Hu _ _ _ _ _ E Ej). lia.
  - case_decide; [|done]. destruct (um !! (va / 4096)) as [[v f]|] eqn:E2; [|done]. exfalso. unfold below in E. apply map_lookup_filter_None in E as [E|E]; [congruence|].
    apply (E (v, f) E2). cbn. lia.
Qed.

(** Without a free page, a page whose page table is missing is not mapped. *)
Lemma map_no_table s pgdir T um i v perm : uspace kend s [] pgdir T um -> upage i -> test (pde (km s) pgdir (PDX (4096 * i))) PTE_P = false ->
  mappages pgdir (4096 * i) PGSIZE (v2p v) perm s = Done (-1) s.
Proof.
  intros Hu Hi Hat. pose proof (uspace_kalloc_none kend Hend s pgdir T um Hu) as Ek.
  assert (Er : PGROUNDDOWN (4096 * i) = 4096 * i).
  { rewrite PGROUNDDOWN_div by (unfold upage in Hi; lia). rewrite (Z.mul_comm 4096 i), Z.div_mul by lia. lia. }
  unfold mappages. rewrite Er. cbn [mappages_loop]. unfold bind at 1. unfold walkpgdir, load32, bind, gets. fold (pde (km s) pgdir (PDX (4096 * i))).
  rewrite Hat. cbn [negb]. by rewrite Ek.
Qed.
End Grow.

(** C15: allocuvm and deallocuvm do to the bytes of a process what sbrk
    promises.  Growing from oldsz to newsz with enough free pages returns newsz;
    the process then sees its old bytes below the old top page and zeros in
    every page added.  Shrinking back returns oldsz, restores the mappings and
    shows every old byte unchanged. *)
Theorem uvm_grow_shrink kend s l pgdir T um oldsz newsz : KERNBASE < kend -> uspace kend s l pgdir T um -> 0 <= oldsz <= newsz -> newsz < KERNBASE ->
  let i := (oldsz + 4095) / 4096 in let n := (newsz + 4095) / 4096 in
  (forall j, i <= j -> um !! j = None) -> 2 * (n - i) <= Z.of_nat (length l) ->
  runs (allocuvm kend pgdir oldsz newsz) s (fun r s1 => r = newsz /\
    (exists l1 T1 um1, uspace kend s1 l1 pgdir T1 um1 /\
      forall va, va < 4096 * n -> ubyte (km s1) um1 va = if decide (va < 4096 * i) then ubyte (km s) um va else Some 0) /\
    runs (deallocuvm kend pgdir newsz oldsz) s1 (fun r s2 => r = oldsz /\
      exists l2 T2, uspace kend s2 l2 pgdir T2 um /\ forall va, ubyte (km s2) um va = ubyte (km s) um va)).
Proof.
  intros Hend Hu Hsz Hk i n Hnone Hlen. assert (Hin : i <= n) by (apply Z.div_le_mono; lia). assert (Hi0 : 0 <= i) by (apply Z.div_pos; lia).
  eapply runs_mono; [by apply (allocuvm_spec kend Hend s l pgdir T um oldsz newsz)|]. cbv beta zeta. fold i n. intros r s1 (-> & um1 & Hg).
  assert (Hg' := Hg). destruct Hg' as [(l1 & T1 & Hu1 & _) G2 G3 _ G5]. split; [done|]. split.
  { exists l1, T1, um1. split; [done|]. intros va Hva. by apply (grown_bytes kend Hend s s1 pgdir T um um1 l i n). }
  assert (Hup : pages_upto um1 i n).
  { intros j Hj. destruct (decide (j < n)) as [Hjn|Hjn]; [destruct (G3 j ltac:(lia)) as (v & -> & _); split; [done|by eexists]|].
    rewrite G2, Hnone by lia. split; [by intros [? ?]|lia]. }
  assert (Eb : below i um1 = um).
  { apply map_eq. intros j. destruct (decide (j < i)) as [Hj|Hj].
    - unfold below. rewrite <- (G2 j) by lia. destruct (um1 !! j) as [x|] eqn:E; [by apply map_lookup_filter_Some|]. apply map_lookup_filter_None. by left.
    - rewrite Hnone by lia. unfold below. apply map_lookup_filter_None. right. intros x _ Hx. cbn in Hx. lia. }
  assert (Hold : forall va, ~ va < 4096 * i -> ubyte (km s) um va = None).
  { intros va Hva. unfold ubyte. rewrite Hnone; [done|]. apply Z.div_le_lower_bound; lia. }
  destruct (decide (newsz = oldsz)) as [->|Hne].
  - unfold deallocuvm. replace (oldsz >=? oldsz) with true by lia. apply runs_ret. split; [done|]. exists l1, T1.
    assert (Em : um1 = um). { rewrite <- Eb. symmetry. apply below_all. intros j Hj. rewrite G2, Hnone by (fold i in n; unfold n in *; lia). done. }
    rewrite <- Em at 1. split; [done|]. intros va. by apply (ubyte_kept kend Hend s s1 l pgdir T um).
  - eapply runs_mono; [apply (deallocuvm_spec kend Hend s1 l1 pgdir T1 um1 n newsz oldsz Hu1); fold i; try done; try lia|].
    + left. pose proof (Z.div_mod (newsz + 4095) 4096 ltac:(lia)) as D1. pose proof (mod_page (newsz + 4095)). fold n in D1. lia.
    + cbv beta. fold i. intros r s2 (-> & l2 & Hr). split; [done|]. exists l2, T1. split; [rewrite <- Eb; apply Hr|]. intros va.
      rewrite <- Eb at 1. rewrite (released_bytes kend Hend s1 s2 pgdir T1 um1 l1 l2 i n va Hu1 Hr). case_decide as Hva; [|by rewrite Hold].
      rewrite (grown_bytes kend Hend s s1 pgdir T um um1 l i n va Hu Hg); [by rewrite decide_True|lia].
Qed.

(** Allocuvm does not look at what mappages returns.  When one page is left
    and the page added has no page table yet, allocuvm returns the new size, the
    page it took is lost and nothing is mapped at the address it reported. *)
Theorem allocuvm_unmapped kend s w pgdir T um i : KERNBASE < kend -> uspace kend s [w] pgdir T um -> upage i -> i < 524287 ->
  test (pde (km s) pgdir (PDX (4096 * i))) PTE_P = false ->
  runs (allocuvm kend pgdir (4096 * i) (4096 * (i + 1))) s (fun r s' => r = 4096 * (i + 1) /\
    uspace kend s' [] pgdir T um /\ ~ owned pgdir T um w /\ ubyte (km s') um (4096 * i) = None).
Proof.
  intros Hend Hu Hi Hlt Hat. destruct (uspace_kalloc kend Hend s w [] pgdir T um Hu) as (Ek & Hu1 & Em & Hw & Hwl & Hno).
  destruct (page_pos kend Hend w Hw) as (Hw0 & _). set (s1 := set_freelist (ld32 (km s) w) s) in *.
  set (s2 := poke (fun m => memset m w 0 (Z.to_nat PGSIZE)) s1).
  assert (Hms : forall x, outside {[w]} x -> km s2 x = km s x).
  { intros x Ho. change (memset (km s1) w 0 (Z.to_nat PGSIZE) x = km s x). rewrite memset_fill. rewrite decide_False; [by rewrite Em|]. apply Ho. set_solver. }
  assert (Hno' := Hno). unfold owned in Hno'. assert (Hu2 : uspace kend s2 [] pgdir T um).
  { apply (uspace_poke kend Hend s1 [] pgdir T um w); try done; [tauto|tauto|]. intros x Hx. change (km s2 x = km s1 x). rewrite Hms, Em; [done|]. by intros v ->%elem_of_singleton. }
  assert (Hpde : pde (km s2) pgdir (PDX (4096 * i)) = pde (km s) pgdir (PDX (4096 * i))).
  { apply (pde_frame kend (km s) (km s2) pgdir _ {[w]}); try done; [apply PDX_range|apply (us_vs _ _ _ _ _ _ Hu)|set_solver..]. }
  assert (Ei : PGROUNDUP (4096 * i) = 4096 * i).
  { unfold upage in Hi. rewrite PGROUNDUP_div by (unfold KERNBASE in *; lia). rewrite (Z.mul_comm 4096 i), Z.div_add_l by lia. change (4095 / 4096) with 0. lia. }
  assert (Hum : um !! i = None).
  { destruct (um !! i) as [[v f]|] eqn:E; [|done]. destruct (mapped_entry kend Hend s [w] pgdir T um i v f Hu E) as [Ha _]. unfold pte_at in Ha. by rewrite Hat in Ha. }
  unfold upage in Hi. unfold allocuvm. replace (4096 * (i + 1) >=? KERNBASE) with false by (unfold KERNBASE; lia). replace (4096 * (i + 1) <? 4096 * i) with false by lia.
  rewrite Ei. replace (Z.to_nat (4096 * (i + 1) / PGSIZE + 1)) with (S (S (Z.to_nat i))).
  2: { unfold PGSIZE. rewrite (Z.mul_comm 4096), Z.div_mul by lia. lia. }
  apply runs_bind. set (k := S (Z.to_nat i)). cbn [allocuvm_loop]. replace (4096 * i <? 4096 * (i + 1)) with true by lia.
  apply runs_bind. unfold runs at 1. rewrite Ek, (proj2 (Z.eqb_neq w 0)) by lia. apply runs_bind, runs_modify. fold s2. apply runs_bind. unfold runs at 1.
  rewrite (map_no_table kend Hend s2 pgdir T um i w _ Hu2) by (done || by rewrite Hpde). unfold PGSIZE. rewrite u32_id by lia. unfold k. cbn [allocuvm_loop].
  replace (4096 * i + 4096 <? 4096 * (i + 1)) with false by lia. apply runs_ret, runs_ret. split_and!; [done|done|done|].
  unfold ubyte. rewrite (Z.mul_comm 4096 i), Z.div_mul by lia. by rewrite Hum.
Qed.

Module GrowDemo.
Import UspaceDemo.

Lemma uvm_grow_shrink_witness : runs (d <- launch ;; allocuvm dend d 8192 10000) blank (fun r s => r = 10000 /\
  exists d um l T, uspace dend s l d T um /\ ubyte (km s) um 9999 = Some 0).
Proof.
  apply runs_bind. eapply runs_mono; [apply launch_runs|]. intros d s (Hm & l & T & um & Hu & Hn & Hl & _). eapply runs_mono.
  { apply (uvm_grow_shrink dend s l d T um 8192 10000); [done|exact Hu|lia|done| |].
    - change ((8192 + 4095) / 4096) with 2. intros j Hj. apply eq_None_not_Some. intros Hs. apply Hn in Hs; lia.
    - change ((8192 + 4095) / 4096) with 2. change ((10000 + 4095) / 4096) with 3. lia. }
  cbv beta zeta. change ((8192 + 4095) / 4096) with 2. change ((10000 + 4095) / 4096) with 3.
  intros r s1 (-> & (l1 & T1 & um1 & Hu1 & Hb) & _). split; [done|]. exists d, um1, l1, T1. split; [done|]. by rewrite Hb by lia.
Defined.

(** A zeroed directory and one free page after it. *)
Definition lone : kmem := mkkmem (fun _ => 0) 2148573184 false [].

Lemma lone_space : uspace dend lone [2148573184] 2148569088 ∅ ∅.
Proof.
  assert (Hd : page dend 2148569088) by (vm_compute; done). destruct (zero_dir dend ddata eq_refl (conj eq_refl eq_refl) eq_refl (fun _ => 0) 2148569088 Hd) as [Ht Hp]; [done|]. split.
  - split; [exact Ht| |].
    + split; [done| |apply NoDup_singleton]. constructor; [|constructor]. vm_compute. done.
    + intros v ->%list_elem_of_singleton. done.
  - intros i Hi. rewrite Hp. done.
  - intros i v f E. done.
  - intros v (i & f & E). done.
  - intros i j v f g E. done.
Qed.

Lemma allocuvm_unmapped_witness : runs (allocuvm dend 2148569088 (4096 * 0) (4096 * (0 + 1))) lone (fun r s' => r = 4096 /\ ubyte (km s') ∅ 0 = None).
Proof.
  eapply runs_mono.
  { apply (allocuvm_unmapped dend lone 2148573184 2148569088 ∅ ∅ 0); [done|apply lone_space|unfold upage; lia|lia|done]. }
  cbv beta. intros r s' (-> & _ & _ & Hb). done.
Defined.
End GrowDemo.
