(* ===== verification/UspaceWrite.v ===== *)
(** * Writing into an address space (copyout, loaduvm and clearpteu of vm.c) *)

From S2P Require Import Prelude.
From S2P Require Import Cstr.
From S2P Require Import Mmu.
From S2P Require Import Kalloc.
From S2P Require Import Vm.
From S2P Require Import VmBytes.
From S2P Require Import VmSpec.
From S2P Require Import Uspace.
From S2P Require Import UspaceDemo.
From S2P Require Import UspaceGrow.

(** [n] bytes of [buf] stored at [dst]. *)
Definition wr (dst : Z) (n : nat) (buf : list Z) (m : mem) : mem := fun x => if inside dst n x then nthZ buf (x - dst) else m x.

(** The page of [va] is mapped, and for the user. *)
Definition mapped (um : upages) (va : Z) : Prop := is_Some (um !! (va / 4096)).
Definition user_page (um : upages) (va : Z) : bool := match um !! (va / 4096) with Some (_, f) => test f PTE_U | None => false end.

(** Clearing PTE_U in an entry. *)
Lemma land_bits n e i : 0 <= n -> 0 <= e < 2 ^ n -> Z.testbit e i && Z.testbit (Z.ones n) i = Z.testbit e i.
Proof. intros Hn He. rewrite <- Z.land_spec. rewrite Z.land_ones by done. by rewrite Z.mod_small. Qed.

Lemma clear_u e : 0 <= e < 2 ^ 32 -> Z.land e (u32 (Z.lnot PTE_U)) = Z.ldiff e PTE_U.
Proof.
  intros He. change (u32 (Z.lnot PTE_U)) with (Z.ldiff (Z.ones 32) PTE_U). apply Z.bits_inj'. intros i _. rewrite Z.land_spec, !Z.ldiff_spec, andb_assoc.
  by rewrite land_bits.
Qed.

Lemma clear_u_entry a f : a mod 4096 = 0 -> 0 <= f < 4096 -> Z.ldiff (Z.lor a f) PTE_U = Z.lor a (Z.ldiff f PTE_U) /\ 0 <= Z.ldiff f PTE_U < 4096.
Proof.
  intros Ha Hf. split.
  - apply Z.bits_inj'. intros i Hi. rewrite Z.ldiff_spec, !Z.lor_spec, Z.ldiff_spec. destruct (decide (i = 2)) as [->|Hne].
    + replace (Z.testbit a 2) with false; [done|]. symmetry. pose proof (lor_low a 0 2 Ha ltac:(lia)) as Hl. by rewrite Z.lor_0_r in Hl.
    + change PTE_U with (2 ^ 2). rewrite (Z.pow2_bits_false 2 i) by done. by rewrite !andb_true_r.
  - assert (E : Z.land (Z.ldiff f PTE_U) (Z.ones 12) = Z.ldiff f PTE_U).
    { apply Z.bits_inj'. intros i _. rewrite Z.land_spec, Z.ldiff_spec. rewrite <- (land_bits 12 f i) at 2 by (change (2 ^ 12) with 4096; lia).
      destruct (Z.testbit f i), (Z.testbit PTE_U i), (Z.testbit (Z.ones 12) i); done. }
    rewrite <- E, Z.land_ones by done. apply Z.mod_pos_bound. done.
Qed.

Section Write.
Context (kend : Z).
Hypothesis Hend : KERNBASE < kend.

Lemma user_write s l d D um i v f o n buf : uspace kend s l d D um -> um !! i = Some (v, f) -> 0 <= o -> o + Z.of_nat n <= 4096 ->
  let s' := poke (wr (v + o) n buf) s in
  uspace kend s' l d D um /\
  (forall va, ubyte (km s') um va = if decide (4096 * i + o <= va < 4096 * i + o + Z.of_nat n) then Some (nthZ buf (va - (4096 * i + o))) else ubyte (km s) um va) /\
  khalf (km s) (km s') d /\ (forall x, ~ (v <= x < v + 4096) -> km s' x = km s x).
Proof.
  intros Hu E Ho Hn s'. destruct (us_own _ _ _ _ _ _ Hu v) as (V1 & V2 & V3 & V4); [by exists i, f|].
  assert (Hx : forall x, ~ (v <= x < v + 4096) -> km s' x = km s x).
  { intros x Hx. change (wr (v + o) n buf (km s) x = km s x). unfold wr. destruct (inside (v + o) n x) eqn:Ei; [|done]. apply inside_iff in Ei. lia. }
  split; [by apply (uspace_poke kend Hend s l d D um v)|]. split; [|split; [|done]].
  2: { apply (khalf_frame kend Hend (km s) (km s') d D {[v]}); [apply (us_vs _ _ _ _ _ _ Hu)|set_solver..|]. intros x Hox. apply Hx, Hox. set_solver. }
  intros va. unfold ubyte. pose proof (Z.div_mod va 4096 ltac:(lia)). pose proof (mod_page va).
  destruct (decide (va / 4096 = i)) as [Ei|Ei].
  - rewrite Ei, E. change (km s' (v + va mod 4096)) with (wr (v + o) n buf (km s) (v + va mod 4096)). unfold wr. case_decide as Hd.
    + rewrite (proj2 (inside_iff _ _ _)) by lia. do 2 f_equal. lia.
    + destruct (inside (v + o) n (v + va mod 4096)) eqn:Ein; [|done]. apply inside_iff in Ein. lia.
  - rewrite decide_False by lia. destruct (um !! (va / 4096)) as [[w g]|] eqn:Ew; [|done]. f_equal. apply Hx.
    destruct (us_own _ _ _ _ _ _ Hu w) as (W1 & _); [by exists (va / 4096), g|]. apply (pages_apart kend w v); [done|done| |lia].
    intros ->. apply Ei. by apply (us_inj _ _ _ _ _ _ Hu _ _ v g f).
Qed.

(** uva2ka on a mapped page. *)
Lemma uva2ka_eq s l d D um i v f : uspace kend s l d D um -> um !! i = Some (v, f) -> uva2ka d (4096 * i) s = Done (if test f PTE_U then v else 0) s.
Proof.
  intros Hu E. destruct (us_dom _ _ _ _ _ _ Hu i v f E) as (_ & Hf & Hp). destruct (us_own _ _ _ _ _ _ Hu v) as (Hv & _); [by exists i, f|].
  destruct (mapped_entry kend Hend s l d D um i v f Hu E) as [_ Hld]. destruct (entry_frame kend Hend v f Hv Hf) as (Ea & _ & Ev & _).
  destruct (entry_present kend Hend v f Hv Hf) as [E1 E2]. rewrite Hp in E1. unfold uva2ka, bind. rewrite walk_eq. unfold load32, gets, ret. rewrite Hld, Ea, Ev.
  unfold test in E1 |- *. unfold test in E2. apply negb_true_iff in E1. rewrite E1. destruct (Z.land _ PTE_U =? 0); by rewrite <- E2.
Qed.

(** clearpteu takes the page away from the user and leaves the rest. *)
Lemma clearpteu_spec s l d D um i v f : uspace kend s l d D um -> um !! i = Some (v, f) ->
  runs (clearpteu d (4096 * i)) s (fun _ s' => uspace kend s' l d D (<[i := (v, Z.ldiff f PTE_U)]> um) /\ khalf (km s) (km s') d /\
    forall x, outside D x -> km s' x = km s x).
Proof.
  intros Hu E. destruct (us_dom _ _ _ _ _ _ Hu i v f E) as (Hi & Hf & Hp). destruct (us_own _ _ _ _ _ _ Hu v) as (Hv & Hvl & Hvd & HvT); [by exists i, f|].
  destruct (mapped_entry kend Hend s l d D um i v f Hu E) as [Hat Hld]. destruct (entry_frame kend Hend v f Hv Hf) as (_ & _ & _ & Ev & Hv0 & Hm).
  destruct (clear_u_entry (v2p v) f Hm Hf) as [Ec Hr]. pose proof (upage_va i Hi) as Hva. destruct (one_page i Hi) as (_ & _ & Ei).
  assert (Hp' : test (Z.ldiff f PTE_U) PTE_P = true).
  { unfold PTE_P in *. rewrite test_1 in *. rewrite Z.ldiff_spec, Hp. done. }
  assert (He : 0 <= entry (Some (v, f)) < 2 ^ 32).
  { cbn [entry]. rewrite (lor_add _ f Hm Hf), Ev. destruct Hv as (_ & _ & Hv). change (2 ^ 32) with 4294967296. unfold KERNBASE, PHYSTOP in *. lia. }
  assert (Hv32 : 0 <= Z.lor (v2p v) (Z.ldiff f PTE_U) < 4294967296).
  { rewrite (lor_add _ _ Hm Hr), Ev. destruct Hv as (_ & _ & Hv). unfold KERNBASE, PHYSTOP in *. lia. }
  destruct (us_vs _ _ _ _ _ _ Hu) as [Ht Hfr Hdj].
  destruct (set_pte kend Hend s l d D (4096 * i) (Z.lor (v2p v) (Z.ldiff f PTE_U)) (us_vs _ _ _ _ _ _ Hu) Hva Hat Hv32) as (Hs2 & Hp2 & _ & Hx2).
  assert (Hold : forall j w g, <[i := (v, Z.ldiff f PTE_U)]> um !! j = Some (w, g) -> exists g', um !! j = Some (w, g')).
  { intros j w g [[<- [= <- <-]]|[_ Hj]]%lookup_insert_Some; by eexists. }
  rewrite Ei in Hp2. unfold clearpteu. apply runs_bind. unfold runs at 1. rewrite walk_eq, (proj2 (Z.eqb_neq _ _) Hat). apply runs_bind, runs_gets.
  rewrite Hld, clear_u by done. cbn [entry]. rewrite Ec. apply runs_modify. split; [|split; [|done]].
  - split; [done| | | |].
    + intros j Hj. rewrite Hp2 by (by apply upage_va). destruct (one_page j Hj) as (_ & _ & Ej). rewrite Ej. destruct (decide (j = i)) as [->|Hne].
      * by rewrite lookup_insert_eq.
      * rewrite lookup_insert_ne by done. by apply (us_pte _ _ _ _ _ _ Hu).
    + intros j w g [[<- [= <- <-]]|[_ Hj]]%lookup_insert_Some; [done|by apply (us_dom _ _ _ _ _ _ Hu j w)].
    + intros w (j & g & Hj). destruct (Hold j w g Hj) as [g' Hj']. apply (us_own _ _ _ _ _ _ Hu). by exists j, g'.
    + intros j1 j2 w g h H1 H2. destruct (Hold j1 w g H1) as [g' H1'], (Hold j2 w h H2) as [h' H2']. by apply (us_inj _ _ _ _ _ _ Hu j1 j2 w g' h').
  - intros va Hk Hvo. rewrite Hp2 by done. rewrite decide_False; [done|]. intros E'.
    assert (524288 <= va / 4096) by (apply Z.div_le_lower_bound; unfold KERNBASE in *; lia). unfold upage in Hi. lia.
Qed.

(** What copyout leaves: the bytes of [buf] up to the first page that is not
    the user's. *)
Record put (s s' : kmem) (l : list Z) (d : Z) (D : gset Z) (um : upages) (va : Z) (buf : list Z) (k : Z) : Prop := {
  pu_space : uspace kend s' l d D um;
  pu_bytes : forall x, ubyte (km s') um x = if decide (va <= x < k) then Some (nthZ buf (x - va)) else ubyte (km s) um x;
  pu_khalf : khalf (km s) (km s') d;
  pu_mem : forall x, (forall v, framed um v -> ~ (v <= x < v + 4096)) -> km s' x = km s x
}.

Lemma put_none s l d D um va buf : uspace kend s l d D um -> put s s l d D um va buf va.
Proof. intros Hu. split; [done| |apply khalf_refl|done]. intros x. rewrite decide_False by lia. done. Qed.

Lemma put_step s s1 s' l d D um va buf j va1 k : put s s1 l d D um va buf va1 -> va1 = va + Z.of_nat j -> va1 <= k -> (j <= length buf)%nat ->
  put s1 s' l d D um va1 (drop j buf) k -> put s s' l d D um va buf k.
Proof.
  intros [A1 A2 Ak A3] -> Hk Hj [B1 B2 Bk B3]. split; [done| |by eapply khalf_trans|intros x Hx; by rewrite B3, A3]. intros x. rewrite B2, A2. repeat case_decide; try lia; try done.
  f_equal. unfold nthZ. rewrite !nth_lookup, lookup_drop. do 2 f_equal. lia.
Qed.

Lemma copyout_loop_spec fuel s l d D um va buf : uspace kend s l d D um -> (length buf <= fuel)%nat -> 0 <= va -> va + Z.of_nat (length buf) <= KERNBASE ->
  (forall x, va <= x < va + Z.of_nat (length buf) -> mapped um x) ->
  runs (copyout_loop fuel d va buf) s (fun r s' => exists k, va <= k <= va + Z.of_nat (length buf) /\ put s s' l d D um va buf k /\
    (forall x, va <= x < k -> user_page um x = true) /\
    (r = 0 /\ k = va + Z.of_nat (length buf) \/ r = -1 /\ k < va + Z.of_nat (length buf) /\ user_page um k = false)).
Proof.
  unfold KERNBASE. revert s va buf. induction fuel as [|fuel IH]; intros s va buf Hu Hf Hva Hk Hm; cbn [copyout_loop].
  { assert (length buf = 0%nat) as E by lia. rewrite E. apply runs_ret. exists va. split_and!; [lia|lia|by apply put_none|lia|left; lia]. }
  destruct (length buf =? 0)%nat eqn:E0.
  { apply Nat.eqb_eq in E0. rewrite E0. apply runs_ret. exists va. split_and!; [lia|lia|by apply put_none|lia|left; lia]. }
  apply Nat.eqb_neq in E0. pose proof (Z.div_mod va 4096 ltac:(lia)). pose proof (mod_page va). set (i := va / 4096) in *. set (o := va mod 4096) in *.
  destruct (Hm va ltac:(lia)) as [[v f] E]. fold i in E. rewrite PGROUNDDOWN_div by lia. fold i. rewrite (Z.mul_comm i).
  apply runs_bind. unfold runs at 1. rewrite (uva2ka_eq s l d D um i v f Hu E). destruct (us_own _ _ _ _ _ _ Hu v) as (V1 & _); [by exists i, f|].
  destruct (page_pos kend Hend v V1) as (V0 & _). destruct (test f PTE_U) eqn:Eu.
  2: { change (0 =? 0) with true. apply runs_ret. exists va. split_and!; [lia|lia|by apply put_none|lia|]. right. split_and!; [done|lia|]. unfold user_page. fold i. by rewrite E. }
  rewrite (proj2 (Z.eqb_neq v 0)) by lia. replace (va - 4096 * i) with o by lia. set (n := Z.to_nat (Z.min (PGSIZE - o) (Z.of_nat (length buf)))).
  assert (Hn : Z.of_nat n = Z.min (4096 - o) (Z.of_nat (length buf))) by (unfold n, PGSIZE; lia).
  destruct (user_write s l d D um i v f o n buf Hu E ltac:(lia) ltac:(lia)) as (Hu1 & Hb1 & Hk1 & Hx1). set (s1 := poke (wr (v + o) n buf) s) in *.
  assert (Hp1 : put s s1 l d D um va buf (va + Z.of_nat n)).
  { split; [done| |done|intros x Hx; apply Hx1, Hx; by exists i, f]. intros x. rewrite Hb1. by replace (4096 * i + o) with va by lia. }
  assert (Huser : forall x, va <= x < va + Z.of_nat n -> user_page um x = true).
  { intros x Hx. unfold user_page. replace (x / 4096) with i by (apply (Z.div_unique x 4096 i (x - 4096 * i)); lia). by rewrite E. }
  apply runs_bind, runs_modify. change (poke _ s) with s1. unfold PGSIZE. rewrite u32_id by lia.
  destruct (decide (n = length buf)) as [En|En].
  - assert (Hd : drop n buf = []) by (apply drop_ge; lia). rewrite Hd. assert (Hr : forall q, runs (copyout_loop fuel d q []) s1 (fun r s' => r = 0 /\ s' = s1)).
    { intros q. destruct fuel; by apply runs_ret. }
    eapply runs_mono; [apply Hr|]. cbv beta. intros r s' (-> & ->). exists (va + Z.of_nat n). split_and!; [lia|lia|done|done|left; lia].
  - replace (4096 * i + 4096) with (va + Z.of_nat n) by lia. eapply runs_mono; [apply (IH s1 (va + Z.of_nat n) (drop n buf) Hu1)|].
    + rewrite length_drop. lia.
    + lia.
    + rewrite length_drop. lia.
    + rewrite length_drop. intros x Hx. apply Hm. lia.
    + rewrite length_drop. cbv beta. intros r s' (k & Hkk & Hp & Hus & Hr). exists k. split_and!; [lia|lia| | |].
      * by apply (put_step s s1 s' l d D um va buf n (va + Z.of_nat n) k); [|done|lia|lia|].
      * intros x Hx. destruct (decide (x < va + Z.of_nat n)); [apply Huser; lia|apply Hus; lia].
      * destruct Hr as [[-> ->]|(-> & Hlt & Hf')]; [left; lia|right; split_and!; [done|lia|done]].
Qed.

Section Load.
Context {F : Type} (readi : Z -> Z -> M F (Z * list Z)) (I : F -> Prop) (data : list Z).
Hypothesis readi_ok : forall f off n, I f -> 0 <= off -> 0 <= n -> off + n <= Z.of_nat (length data) ->
  runs (readi off n) f (fun r f' => r = (n, slice data (Z.to_nat off) (Z.to_nat n)) /\ I f').

Lemma load_loop fuel s0 s f l d D um addr off i sz : let buf := slice data (Z.to_nat off) (Z.to_nat sz) in
  put s0 s l d D um addr buf (addr + 4096 * i) -> I f -> addr mod 4096 = 0 -> 0 <= addr -> addr + sz <= KERNBASE -> 0 <= off -> off + sz <= Z.of_nat (length data) ->
  off + sz < 4294967296 -> (forall x, addr <= x < addr + sz -> mapped um x) -> 0 <= i -> 4096 * i < sz -> sz <= 4096 * (i + Z.of_nat fuel) ->
  runs (loaduvm_loop readi fuel d addr off (4096 * i) sz) (s, f) (fun r p => r = 0 /\ I (snd p) /\ put s0 (fst p) l d D um addr buf (addr + sz)).
Proof.
  intros buf. unfold KERNBASE. revert s f i. induction fuel as [|fuel IH]; intros s f i Hp HI Ha Ha0 Hk Ho Hol Ho32 Hm Hi Hlt Hfuel; [lia|]. cbn [loaduvm_loop].
  rewrite (proj2 (Z.ltb_lt _ _) Hlt). rewrite u32_id by lia. apply Z.mod_divide in Ha as [q Eq]; [|lia].
  assert (Ei : (addr + 4096 * i) / 4096 = q + i) by (symmetry; apply Z.div_unique_exact; lia).
  destruct (Hm (addr + 4096 * i) ltac:(lia)) as [[v g] E]. rewrite Ei in E. destruct (pu_space _ _ _ _ _ _ _ _ _ Hp) as [Hu1 Hu2 Hu3 Hu4 Hu5].
  assert (Hu := pu_space _ _ _ _ _ _ _ _ _ Hp). destruct (Hu3 (q + i) v g E) as (Hup & Hg & _). destruct (Hu4 v) as (Hv & _); [by exists (q + i), g|].
  destruct (mapped_entry kend Hend s l d D um (q + i) v g Hu E) as [Hat Hld]. destruct (entry_frame kend Hend v g Hv Hg) as (Ea & _ & Ev & _).
  replace (addr + 4096 * i) with (4096 * (q + i)) by lia. apply runs_bind, runs_lift. unfold runs at 1. cbn [fst]. rewrite walk_eq, (proj2 (Z.eqb_neq _ _) Hat).
  apply runs_bind, runs_lift, runs_gets. cbn [fst snd]. rewrite Hld, Ea, Ev. set (n := if sz - 4096 * i <? PGSIZE then sz - 4096 * i else PGSIZE).
  assert (Hn : n = Z.min (sz - 4096 * i) 4096) by (unfold n, PGSIZE; destruct (Z.ltb_spec (sz - 4096 * i) 4096); lia).
  rewrite u32_id by lia. apply runs_bind, runs_lift. eapply runs_mono; [apply (readi_ok f (off + 4096 * i) n HI); lia|]. cbn [fst snd].
  intros r f' [-> HI']. set (b := slice data (Z.to_nat (off + 4096 * i)) (Z.to_nat n)). assert (Hb : length b = Z.to_nat n) by (apply length_slice; lia).
  apply runs_bind, runs_lift, runs_modify. cbn [fst snd]. rewrite Hb.
  destruct (user_write s l d D um (q + i) v g 0 (Z.to_nat n) b Hu E ltac:(lia) ltac:(lia)) as (Hu' & Hb' & Hk' & Hx'). rewrite Z.add_0_r in Hu', Hb', Hk', Hx'.
  change (poke _ s) with (poke (wr v (Z.to_nat n) b) s). set (s1 := poke (wr v (Z.to_nat n) b) s) in *. rewrite u32_id by lia. rewrite Z.eqb_refl. cbn [negb].
  assert (Hp1 : put s0 s1 l d D um addr buf (addr + 4096 * i + n)).
  { destruct Hp as [P1 P2 Pk P3]. split; [done| |by eapply khalf_trans|intros x Hx; rewrite Hx', P3; [done|done|apply Hx; by exists (q + i), g]]. intros x. rewrite Hb', P2.
    repeat case_decide; try lia; try done. f_equal. unfold b, buf. rewrite !nthZ_slice by lia. f_equal. lia. }
  unfold PGSIZE. rewrite u32_id by lia. replace (4096 * i + 4096) with (4096 * (i + 1)) by lia. destruct (decide (4096 * (i + 1) < sz)) as [Hmore|Hdone].
  - apply IH; try done; try lia; [|by apply Z.mod_divide; [|exists q]]. replace (addr + 4096 * (i + 1)) with (addr + 4096 * i + n) by lia. done.
  - assert (Hend' : runs (loaduvm_loop readi fuel d addr off (4096 * (i + 1)) sz) (s1, f') (fun r p => r = 0 /\ p = (s1, f'))).
    { destruct fuel; [by apply runs_ret|]. cbn [loaduvm_loop]. rewrite (proj2 (Z.ltb_ge _ _)) by lia. by apply runs_ret. }
    eapply runs_mono; [exact Hend'|]. cbv beta. intros r p (-> & ->). split_and!; [done|done|]. replace (addr + sz) with (addr + 4096 * i + n) by lia. done.
Qed.

Lemma loaduvm_spec s f l d D um addr off sz : uspace kend s l d D um -> I f -> addr mod 4096 = 0 -> 0 <= addr -> 0 <= sz -> addr + sz <= KERNBASE -> 0 <= off ->
  off + sz <= Z.of_nat (length data) -> off + sz < 4294967296 -> (forall x, addr <= x < addr + sz -> mapped um x) ->
  runs (loaduvm readi d addr off sz) (s, f) (fun r p => r = 0 /\ I (snd p) /\
    put s (fst p) l d D um addr (slice data (Z.to_nat off) (Z.to_nat sz)) (addr + sz)).
Proof.
  intros Hu HI Ha Ha0 Hsz Hk Ho Hol Ho32 Hm. unfold loaduvm, PGSIZE. rewrite (proj2 (Z.eqb_eq _ _) Ha). cbn [negb].
  pose proof (Z.div_mod sz 4096 ltac:(lia)). pose proof (mod_page sz). destruct (decide (sz = 0)) as [->|Hne].
  - apply runs_ret. cbn [fst snd]. split_and!; [done|done|]. rewrite Z.add_0_r. by apply put_none.
  - replace 0 with (4096 * 0) at 1 by lia. assert (0 <= sz / 4096) by (apply Z.div_pos; lia). apply load_loop; try done; try lia. rewrite Z.mul_0_r, Z.add_0_r. by apply put_none.
Qed.
End Load.
End Write.


Module WriteDemo.
Import UspaceDemo.

End WriteDemo.
