(* ===== verification/Spinlock.v ===== *)
(** * Spin locks and interrupt masking (spinlock.c)

    The state holds the CPUs' interrupt flags and pushcli counters, the locks,
    and the kernel stacks (as memory) that getcallerpcs walks.  acquire is
    split at its only loop: [acquire_enter] runs up to the loop and
    [acquire_try] is one atomic exchange, so that CPUs interleave while they
    spin. *)

From S2P Require Import Prelude.
From S2P Require Import Cstr.
From S2P Require Import Mmu.

Definition FL_IF : Z := 512.

Record spinlock := mklock {
  locked : Z;
  lk_name : string;
  lk_cpu : option nat;       (* struct cpu *cpu, null for none *)
  lk_pcs : list Z
}.

Record cpu := mkcpu {
  eflags : Z;
  ncli : Z;
  intena : Z
}.

Record mach := mkmach {
  cpus : list cpu;
  locks : list spinlock;
  stacks : mem
}.

Definition nocpu : cpu := mkcpu 0 0 0.
Definition nolock : spinlock := mklock 0 "" None [].
Definition getc (s : mach) (c : nat) : cpu := nth c (cpus s) nocpu.
Definition getl (s : mach) (l : nat) : spinlock := nth l (locks s) nolock.
Definition upd_cpu (c : nat) (f : cpu -> cpu) (s : mach) : mach := mkmach (alter f c (cpus s)) (locks s) (stacks s).
Definition upd_lock (l : nat) (f : spinlock -> spinlock) (s : mach) : mach := mkmach (cpus s) (alter f l (locks s)) (stacks s).

Definition initlock (l : nat) (name : string) : M mach unit :=
  modify (upd_lock l (fun k => mklock 0 name None (lk_pcs k))).

(** ** Interrupts *)

Definition cli (c : nat) : M mach unit :=
  modify (upd_cpu c (fun x => mkcpu (Z.land (eflags x) (Z.lnot FL_IF)) (ncli x) (intena x))).
Definition sti (c : nat) : M mach unit :=
  modify (upd_cpu c (fun x => mkcpu (Z.lor (eflags x) FL_IF) (ncli x) (intena x))).

Definition pushcli (c : nat) : M mach unit :=
  e <- gets (fun s => eflags (getc s c)) ;;
  cli c ;;;
  n <- gets (fun s => ncli (getc s c)) ;;
  modify (upd_cpu c (fun x => mkcpu (eflags x) (n + 1) (intena x))) ;;;
  if n =? 0 then modify (upd_cpu c (fun x => mkcpu (eflags x) (ncli x) (Z.land e FL_IF))) else ret tt.

Definition popcli (c : nat) : M mach unit :=
  e <- gets (fun s => eflags (getc s c)) ;;
  if test e FL_IF then panic "popcli - interruptible"
  else
    modify (upd_cpu c (fun x => mkcpu (eflags x) (ncli x - 1) (intena x))) ;;;
    x <- gets (fun s => getc s c) ;;
    if ncli x <? 0 then panic "popcli"
    else if (ncli x =? 0) && negb (intena x =? 0) then sti c else ret tt.

(** ** Locks *)

Definition holding (c l : nat) : M mach bool :=
  k <- gets (fun s => getl s l) ;;
  ret (negb (locked k =? 0) && bool_decide (lk_cpu k = Some c)).

(** xchg(&lk->locked, v) *)
Definition xchg (l : nat) (v : Z) : M mach Z :=
  old <- gets (fun s => locked (getl s l)) ;;
  modify (upd_lock l (fun k => mklock v (lk_name k) (lk_cpu k) (lk_pcs k))) ;;;
  ret old.

(** The frames reachable from [ebp], at most [n]. *)
Fixpoint walk_frames (n : nat) (m : mem) (ebp : Z) : list Z :=
  match n with
  | O => []
  | S n' =>
      if (ebp =? 0) || (ebp <? KERNBASE) || (ebp =? 4294967295) then []
      else ld32 m (ebp + 4) :: walk_frames n' m (ld32 m ebp)
  end.

Definition getcallerpcs (m : mem) (v : Z) : list Z :=
  let f := walk_frames 10 m (u32 (v - 8)) in
  f ++ replicate (10 - length f) 0.

Definition acquire_enter (c l : nat) : M mach unit :=
  pushcli c ;;;
  h <- holding c l ;;
  if h : bool then panic "acquire" else ret tt.

(** One round of the spin loop; [v] is the address of the argument [lk] on
    the caller's stack.  True when the lock has been taken. *)
Definition acquire_try (c l : nat) (v : Z) : M mach bool :=
  old <- xchg l 1 ;;
  if negb (old =? 0) then ret false
  else
    modify (upd_lock l (fun k => mklock (locked k) (lk_name k) (Some c) (lk_pcs k))) ;;;
    m <- gets stacks ;;
    modify (upd_lock l (fun k => mklock (locked k) (lk_name k) (lk_cpu k) (getcallerpcs m v))) ;;;
    ret true.

Definition release (c l : nat) : M mach unit :=
  h <- holding c l ;;
  if negb h then panic "release"
  else
    modify (upd_lock l (fun k => mklock (locked k) (lk_name k) (lk_cpu k) (<[0%nat := 0]> (lk_pcs k)))) ;;;
    modify (upd_lock l (fun k => mklock (locked k) (lk_name k) None (lk_pcs k))) ;;;
    xchg l 0 ;;;
    popcli c.

(** ** Every CPU running any sequence of acquire and release

    [h c] are the locks CPU [c] holds, latest first, and [w c] the lock it is
    spinning on.  A CPU starts an acquire only of a lock it does not hold and
    releases only what it holds. *)
Definition thread : Type := list nat * option nat.

Inductive lstep : mach * (nat -> thread) -> mach * (nat -> thread) -> Prop :=
| l_enter s s' t c l h : t c = (h, None) -> (c < length (cpus s))%nat -> (l < length (locks s))%nat -> l ∉ h ->
    acquire_enter c l s = Done tt s' ->
    lstep (s, t) (s', fun x => if decide (x = c) then (h, Some l) else t x)
| l_spin s s' t c l h v : t c = (h, Some l) -> acquire_try c l v s = Done false s' -> lstep (s, t) (s', t)
| l_take s s' t c l h v : t c = (h, Some l) -> acquire_try c l v s = Done true s' ->
    lstep (s, t) (s', fun x => if decide (x = c) then (l :: h, None) else t x)
| l_drop s s' t c l h : t c = (h, None) -> l ∈ h -> release c l s = Done tt s' ->
    lstep (s, t) (s', fun x => if decide (x = c) then (filter (fun y => y <> l) h, None) else t x).

Lemma nth_alter_eq {A} (f : A -> A) (l : list A) i d : (i < length l)%nat -> nth i (alter f i l) d = f (nth i l d).
Proof.
  intros Hi. destruct (lookup_lt_is_Some_2 l i Hi) as [x Hx]. rewrite !nth_lookup, list_lookup_alter_eq, Hx. done.
Qed.
Lemma nth_alter_ne {A} (f : A -> A) (l : list A) i j d : i <> j -> nth j (alter f i l) d = nth j l d.
Proof. intros Hi. by rewrite !nth_lookup, list_lookup_alter_ne. Qed.

Lemma getc_upd c c' f s : (c < length (cpus s))%nat ->
  getc (upd_cpu c f s) c' = if decide (c' = c) then f (getc s c) else getc s c'.
Proof. intros Hc. unfold getc. cbn. case_decide as E; [subst; by apply nth_alter_eq|by apply nth_alter_ne]. Qed.
Lemma getl_upd l l' f s : (l < length (locks s))%nat ->
  getl (upd_lock l f s) l' = if decide (l' = l) then f (getl s l) else getl s l'.
Proof. intros Hc. unfold getl. cbn. case_decide as E; [subst; by apply nth_alter_eq|by apply nth_alter_ne]. Qed.

(** The interrupt flag of an eflags word. *)
Definition ie (e : Z) : bool := test e FL_IF.

Lemma ie_bit e : ie e = Z.testbit e 9.
Proof. exact (test_bit e 9 ltac:(lia)). Qed.
Lemma ie_cli e : ie (Z.land e (Z.lnot FL_IF)) = false.
Proof. rewrite ie_bit, Z.land_spec, Z.lnot_spec by lia. change (Z.testbit FL_IF 9) with true. apply andb_false_r. Qed.
Lemma ie_sti e : ie (Z.lor e FL_IF) = true.
Proof. rewrite ie_bit, Z.lor_spec. change (Z.testbit FL_IF 9) with true. apply orb_true_r. Qed.

Definition cli_cpu (x : cpu) : cpu :=
  mkcpu (Z.land (eflags x) (Z.lnot FL_IF)) (ncli x + 1) (if ncli x =? 0 then Z.land (eflags x) FL_IF else intena x).
Definition sti_cpu (x : cpu) : cpu :=
  mkcpu (if (ncli x - 1 =? 0) && negb (intena x =? 0) then Z.lor (eflags x) FL_IF else eflags x) (ncli x - 1) (intena x).

Lemma upd_cpu_upd c f g s : upd_cpu c g (upd_cpu c f s) = upd_cpu c (fun x => g (f x)) s.
Proof. unfold upd_cpu. cbn. f_equal. exact (list_alter_alter_eq g f (cpus s) c). Qed.
Lemma upd_cpu_ext c f g s : (c < length (cpus s))%nat -> f (getc s c) = g (getc s c) -> upd_cpu c f s = upd_cpu c g s.
Proof.
  intros Hc H. unfold upd_cpu. f_equal. apply list_alter_ext; [|done]. intros x Hx. unfold getc in H.
  by rewrite nth_lookup, Hx in H.
Qed.
Lemma upd_lock_upd c f g s : upd_lock c g (upd_lock c f s) = upd_lock c (fun x => g (f x)) s.
Proof. unfold upd_lock. cbn. f_equal. exact (list_alter_alter_eq g f (locks s) c). Qed.

Lemma pushcli_eq c s : (c < length (cpus s))%nat -> pushcli c s = Done tt (upd_cpu c cli_cpu s).
Proof.
  intros Hc. unfold pushcli, cli, bind, gets, modify, ret. rewrite getc_upd, decide_True by done. cbn [ncli].
  rewrite upd_cpu_upd. cbn [eflags ncli intena].
  destruct (ncli (getc s c) =? 0) eqn:E; rewrite ?upd_cpu_upd; f_equal; apply upd_cpu_ext; try done;
    unfold cli_cpu; cbn [eflags ncli intena]; rewrite E; done.
Qed.

Lemma popcli_eq c s : (c < length (cpus s))%nat -> ie (eflags (getc s c)) = false -> 1 <= ncli (getc s c) ->
  popcli c s = Done tt (upd_cpu c sti_cpu s).
Proof.
  intros Hc Hi Hn. unfold popcli, sti, bind, gets, modify, ret. unfold ie in Hi. rewrite Hi.
  rewrite getc_upd, decide_True by done. cbn [ncli intena]. destruct (Z.ltb_spec (ncli (getc s c) - 1) 0); [lia|].
  destruct (_ && _) eqn:E; rewrite ?upd_cpu_upd; f_equal; apply upd_cpu_ext; try done;
    unfold sti_cpu; cbn [eflags ncli intena]; rewrite E; done.
Qed.

(** ** The invariant *)

Definition depth (t : thread) : Z := Z.of_nat (length (fst t)) + (if snd t then 1 else 0).

(** A CPU whose interrupts were on iff [b] before its first pushcli, at
    nesting depth [n]. *)
Definition masked (b : bool) (n : Z) (x : cpu) : Prop :=
  ncli x = n /\ if n =? 0 then ie (eflags x) = b else ie (eflags x) = false /\ negb (intena x =? 0) = b.

Lemma masked_push b n x : 0 <= n -> masked b n x -> masked b (n + 1) (cli_cpu x).
Proof.
  intros Hn [E H]. split; [cbn; lia|]. destruct (Z.eqb_spec (n + 1) 0); [lia|]. unfold cli_cpu. cbn [eflags intena].
  split; [apply ie_cli|]. rewrite E. destruct (Z.eqb_spec n 0); [exact H|]. apply H.
Qed.

Lemma masked_pop b n x : 1 <= n -> masked b n x -> masked b (n - 1) (sti_cpu x).
Proof.
  intros Hn [E H]. destruct (Z.eqb_spec n 0); [lia|]. destruct H as [H1 H2]. split; [cbn; lia|].
  unfold sti_cpu. cbn [eflags intena]. rewrite E, H2. destruct (Z.eqb_spec (n - 1) 0); cbn [andb]; [|done].
  destruct b; [apply ie_sti|done].
Qed.

Record linv (b : nat -> bool) (s : mach) (t : nat -> thread) : Prop := {
  li_idle : forall c, (length (cpus s) <= c)%nat -> t c = ([], None);
  li_cpu : forall c, (c < length (cpus s))%nat -> masked (b c) (depth (t c)) (getc s c);
  li_held : forall c l, l ∈ fst (t c) ->
    (l < length (locks s))%nat /\ locked (getl s l) <> 0 /\ lk_cpu (getl s l) = Some c;
  li_lock : forall l, locked (getl s l) <> 0 -> exists c, l ∈ fst (t c);
  li_nodup : forall c, NoDup (fst (t c));
  li_wait : forall c l, snd (t c) = Some l -> l ∉ fst (t c) /\ (l < length (locks s))%nat
}.

Lemma depth_nonneg t : 0 <= depth t.
Proof. unfold depth. destruct (snd t); lia. Qed.

Lemma li_cpu_lt b s t c : linv b s t -> t c <> ([], None) -> (c < length (cpus s))%nat.
Proof. intros Hi Hn. destruct (decide (c < length (cpus s))%nat); [done|]. exfalso. apply Hn, (li_idle _ _ _ Hi). lia. Qed.

Lemma enter_inv b s t c l h : linv b s t -> t c = (h, None) -> (c < length (cpus s))%nat -> (l < length (locks s))%nat -> l ∉ h ->
  acquire_enter c l s = Done tt (upd_cpu c cli_cpu s) /\
  linv b (upd_cpu c cli_cpu s) (fun x => if decide (x = c) then (h, Some l) else t x).
Proof.
  intros Hi Et Hc Hl Hn. split.
  - unfold acquire_enter, bind. rewrite pushcli_eq by done. unfold holding, bind, gets, ret.
    change (getl (upd_cpu c cli_cpu s) l) with (getl s l).
    destruct (negb (locked (getl s l) =? 0) && bool_decide (lk_cpu (getl s l) = Some c)) eqn:E; [|done].
    apply andb_true_iff in E as [E1%negb_true_iff%Z.eqb_neq E2%bool_decide_eq_true].
    destruct (li_lock _ _ _ Hi l E1) as [c' Hc']. destruct (li_held _ _ _ Hi c' l Hc') as (_ & _ & E3).
    rewrite E3 in E2. injection E2 as ->. by rewrite Et in Hc'.
  - destruct Hi as [I1 I2 I3 I4 I5 I6]. split.
    + intros x Hx. cbn in Hx. rewrite length_alter in Hx. case_decide; [lia|auto].
    + intros x Hx. cbn in Hx. rewrite length_alter in Hx. rewrite getc_upd by done. case_decide as E; [|auto].
      subst x. specialize (I2 c Hc). rewrite Et in I2. unfold depth in *. cbn [fst snd] in *.
      apply (masked_push _ (Z.of_nat (length h))); [lia|]. by rewrite Z.add_0_r in I2.
    + intros x k Hk. apply I3. case_decide; [subst; by rewrite Et|done].
    + intros k Hk. destruct (I4 k Hk) as [x Hx]. exists x. case_decide; [subst; by rewrite Et in Hx|done].
    + intros x. case_decide; [|auto]. specialize (I5 c). by rewrite Et in I5.
    + intros x k. case_decide; [|apply I6]. cbn. intros [= <-]. done.
Qed.

Definition take_lock (c : nat) (pcs : list Z) (k : spinlock) : spinlock := mklock 1 (lk_name k) (Some c) pcs.

Lemma try_free c l v s : locked (getl s l) = 0 -> (l < length (locks s))%nat ->
  acquire_try c l v s = Done true (upd_lock l (take_lock c (getcallerpcs (stacks s) v)) s).
Proof. intros Hz Hl. unfold acquire_try, xchg, bind, gets, modify, ret. rewrite Hz. cbn [Z.eqb negb]. by rewrite !upd_lock_upd. Qed.

Definition busy_lock (k : spinlock) : spinlock := mklock 1 (lk_name k) (lk_cpu k) (lk_pcs k).

Lemma try_busy c l v s : locked (getl s l) <> 0 -> acquire_try c l v s = Done false (upd_lock l busy_lock s).
Proof. intros Hz. unfold acquire_try, xchg, bind, gets, modify, ret. destruct (Z.eqb_spec (locked (getl s l)) 0); done. Qed.

Lemma spin_inv b s t l : linv b s t -> (l < length (locks s))%nat -> locked (getl s l) <> 0 -> linv b (upd_lock l busy_lock s) t.
Proof.
  intros [I1 I2 I3 I4 I5 I6] Hl Hz. split; try done.
  - intros c k Hk. destruct (I3 c k Hk) as (H1 & H2 & H3). cbn [upd_lock locks]. rewrite length_alter, getl_upd by done.
    case_decide as E; [subst; cbn; done|done].
  - intros k. rewrite getl_upd by done. case_decide as E; [subst; auto|auto].
  - intros c k Hk. cbn [upd_lock locks]. rewrite length_alter. by apply I6.
Qed.

Lemma take_inv b s t c l h pcs : linv b s t -> t c = (h, Some l) -> locked (getl s l) = 0 ->
  linv b (upd_lock l (take_lock c pcs) s) (fun x => if decide (x = c) then (l :: h, None) else t x).
Proof.
  intros Hi Et Hz. pose proof (li_cpu_lt b s t c Hi ltac:(by rewrite Et)) as Hc. destruct Hi as [I1 I2 I3 I4 I5 I6].
  assert (Hw : l ∉ h /\ (l < length (locks s))%nat) by (specialize (I6 c l); rewrite Et in I6; by apply I6).
  destruct Hw as [Hn Hl].
  assert (Hno : forall x, l ∉ fst (t x)) by (intros x Hx; by destruct (I3 x l Hx) as (_ & ? & _)). split.
  - intros x Hx. case_decide as E; [subst; cbn in Hx; lia|by apply I1].
  - intros x Hx. case_decide as E; [|by apply I2]. subst x. specialize (I2 c Hc). rewrite Et in I2.
    unfold depth in *. cbn [fst snd length] in *. change (getc (upd_lock l (take_lock c pcs) s) c) with (getc s c).
    replace (Z.of_nat (S (length h)) + 0) with (Z.of_nat (length h) + 1) by lia. done.
  - intros x k Hk. cbn [upd_lock locks]. rewrite length_alter, getl_upd by done. case_decide as E.
    + subst x. cbn [fst] in Hk. apply elem_of_cons in Hk as [->|Hk]; [by rewrite decide_True|].
      rewrite decide_False by congruence. apply I3. by rewrite Et.
    + rewrite decide_False by (intros ->; by apply (Hno x)). by apply I3.
  - intros k. rewrite getl_upd by done. case_decide as E.
    + intros _. subst. exists c. rewrite decide_True by done. cbn. set_solver.
    + intros Hk. destruct (I4 k Hk) as [x Hx]. exists x. case_decide; [|done]. subst. rewrite Et in Hx. cbn in *. set_solver.
  - intros x. case_decide; [|auto]. cbn. constructor; [done|]. specialize (I5 c). by rewrite Et in I5.
  - intros x k. cbn [upd_lock locks]. rewrite length_alter. case_decide; [done|apply I6].
Qed.

Definition drop_lock (k : spinlock) : spinlock := mklock 0 (lk_name k) None (<[0%nat := 0]> (lk_pcs k)).

Lemma release_eq b s t c l h : linv b s t -> t c = (h, None) -> l ∈ h ->
  release c l s = Done tt (upd_cpu c sti_cpu (upd_lock l drop_lock s)).
Proof.
  intros Hi Et Hl. assert (Hh : l ∈ fst (t c)) by (by rewrite Et).
  destruct (li_held _ _ _ Hi c l Hh) as (Hr & Hz & Hcpu). assert (Hd : 1 <= depth (t c)).
  { unfold depth. rewrite Et. destruct h; [by apply elem_of_nil in Hl|cbn; lia]. }
  pose proof (li_cpu_lt b s t c Hi ltac:(rewrite Et; intros [= ->]; by apply elem_of_nil in Hl)) as Hc.
  destruct (li_cpu _ _ _ Hi c Hc) as [En Hm]. destruct (Z.eqb_spec (depth (t c)) 0); [lia|].
  unfold release, holding, bind, gets, ret. destruct (Z.eqb_spec (locked (getl s l)) 0); [done|].
  rewrite bool_decide_eq_true_2 by done. cbn [negb andb]. unfold xchg, bind, gets, modify, ret. rewrite !upd_lock_upd.
  cbv beta. cbn [locked lk_name lk_cpu lk_pcs].
  apply popcli_eq; [done|apply Hm|]. change (getc (upd_lock l _ s) c) with (getc s c). lia.
Qed.

Lemma filter_ne_id (h : list nat) l : l ∉ h -> filter (fun y => y <> l) h = h.
Proof.
  induction h as [|x h IH]; [done|]. intros [Hx Hh]%not_elem_of_cons. rewrite filter_cons_True by done. by rewrite IH.
Qed.

Lemma length_filter_ne (h : list nat) l : NoDup h -> l ∈ h -> length (filter (fun y => y <> l) h) = (length h - 1)%nat.
Proof.
  induction 1 as [|x h Hx Hn IH]; [by intros ?%elem_of_nil|]. intros [->|Hl]%elem_of_cons.
  - rewrite filter_cons_False by auto. cbn [length]. rewrite Nat.sub_1_r, Nat.pred_succ. by rewrite filter_ne_id.
  - rewrite filter_cons_True by (intros ->; done). cbn [length]. rewrite IH by done. destruct h; [by apply elem_of_nil in Hl|cbn; lia].
Qed.

Lemma drop_inv b s t c l h : linv b s t -> t c = (h, None) -> l ∈ h ->
  linv b (upd_cpu c sti_cpu (upd_lock l drop_lock s)) (fun x => if decide (x = c) then (filter (fun y => y <> l) h, None) else t x).
Proof.
  intros Hi Et Hl. pose proof (li_cpu_lt b s t c Hi ltac:(rewrite Et; intros [= ->]; by apply elem_of_nil in Hl)) as Hc.
  destruct Hi as [I1 I2 I3 I4 I5 I6].
  assert (Hh : l ∈ fst (t c)) by (by rewrite Et). destruct (I3 c l Hh) as (Hr & _ & Hcpu).
  assert (Ho : forall x, x <> c -> l ∉ fst (t x)) by (intros x Hx Hin; destruct (I3 x l Hin) as (_ & _ & E); congruence). split.
  - intros x Hx. cbn in Hx. rewrite length_alter in Hx. case_decide; [lia|auto].
  - intros x Hx. cbn in Hx. rewrite length_alter in Hx. rewrite getc_upd by done. case_decide as E; [|by apply I2].
    subst x. specialize (I2 c Hc). rewrite Et in I2. specialize (I5 c). rewrite Et in I5. cbn in I5.
    unfold depth in *. cbn [fst snd] in *. rewrite length_filter_ne by done.
    assert (0 < length h)%nat by (destruct h; [by apply elem_of_nil in Hl|cbn; lia]).
    replace (Z.of_nat (length h - 1) + 0) with (Z.of_nat (length h) + 0 - 1) by lia. apply masked_pop; [lia|done].
  - intros x k Hk. cbn [upd_cpu upd_lock locks]. rewrite length_alter.
    change (getl (upd_cpu c sti_cpu (upd_lock l drop_lock s)) k) with (getl (upd_lock l drop_lock s) k). rewrite getl_upd by done.
    case_decide as E.
    + subst x. cbn [fst] in Hk. apply list_elem_of_filter in Hk as [Hne Hk]. rewrite decide_False by done. apply I3. by rewrite Et.
    + rewrite decide_False by (intros ->; by apply (Ho x)). by apply I3.
  - intros k. change (getl (upd_cpu c sti_cpu (upd_lock l drop_lock s)) k) with (getl (upd_lock l drop_lock s) k).
    rewrite getl_upd by done. case_decide as E; [done|]. intros Hk. destruct (I4 k Hk) as [x Hx]. exists x.
    case_decide; [|done]. subst x. rewrite Et in Hx. cbn in *. by apply list_elem_of_filter.
  - intros x. case_decide; [|auto]. cbn. apply NoDup_filter. specialize (I5 c). by rewrite Et in I5.
  - intros x k. cbn [upd_cpu upd_lock locks]. rewrite length_alter. case_decide; [done|apply I6].
Qed.

Lemma lstep_inv b s t s' t' : lstep (s, t) (s', t') -> linv b s t -> linv b s' t'.
Proof.
  intros Hst Hi. inversion Hst as [? ? ? c l h Et Hc Hl Hn E|? ? ? c l h v Et E|? ? ? c l h v Et E|? ? ? c l h Et Hl E]; subst.
  - destruct (enter_inv b s t c l h Hi Et Hc Hl Hn) as [E' H]. rewrite E' in E. by injection E as <-.
  - assert (Hl : (l < length (locks s))%nat) by (apply (li_wait _ _ _ Hi c l); by rewrite Et).
    destruct (decide (locked (getl s l) = 0)) as [Hz|Hz]; [by rewrite try_free in E|].
    rewrite try_busy in E by done. injection E as <-. by apply spin_inv.
  - assert (Hl : (l < length (locks s))%nat) by (apply (li_wait _ _ _ Hi c l); by rewrite Et).
    destruct (decide (locked (getl s l) = 0)) as [Hz|Hz]; [|by rewrite try_busy in E].
    rewrite try_free in E by done. injection E as <-. by eapply take_inv.
  - rewrite (release_eq b s t c l h) in E by done. injection E as <-. by apply drop_inv.
Qed.

Lemma lsteps_inv b x y : rtc lstep x y -> linv b (fst x) (snd x) -> linv b (fst y) (snd y).
Proof. induction 1 as [|[s t] [s' t'] z Hst _ IH]; [done|]. intros H. by apply IH, (lstep_inv b s t). Qed.

(** A machine whose CPUs hold nothing. *)
Definition unlocked (s : mach) : Prop :=
  (forall c, (c < length (cpus s))%nat -> ncli (getc s c) = 0) /\ (forall l, locked (getl s l) = 0).

(** C26: In every interleaving of CPUs acquiring and releasing locks, two CPUs
    never hold the same lock; a CPU that holds or waits for a lock has its
    interrupts off, and otherwise has them as they were at the start; neither
    acquire of a lock not held nor release of a lock held panics; and a CPU
    spinning on a lock that nobody holds takes it. *)
Theorem spinlock_exclusion s0 s t : unlocked s0 -> rtc lstep (s0, fun _ => ([], None)) (s, t) ->
  (forall c c' l, l ∈ fst (t c) -> l ∈ fst (t c') -> c = c') /\
  (forall c, (c < length (cpus s))%nat ->
     ie (eflags (getc s c)) = (if decide (t c = ([], None)) then ie (eflags (getc s0 c)) else false)) /\
  (forall c l h, t c = (h, None) -> (c < length (cpus s))%nat -> (l < length (locks s))%nat ->
     if decide (l ∈ h) then runs (release c l) s (fun _ _ => True) else runs (acquire_enter c l) s (fun _ _ => True)) /\
  (forall c l h v, t c = (h, Some l) -> (forall c', l ∉ fst (t c')) -> runs (acquire_try c l v) s (fun r _ => r = true)).
Proof.
  intros [U1 U2] Hr. set (b := fun c => ie (eflags (getc s0 c))). assert (Hi : linv b s t).
  { apply (lsteps_inv b (s0, fun _ => ([], None)) (s, t) Hr). cbn [fst snd].
    split; [done| |by intros c l ?%elem_of_nil|by intros l; rewrite U2|by intros _; constructor|done].
    intros c Hc. split; [by apply U1|done]. }
  split_and!.
  - intros c c' l H1 H2. destruct (li_held _ _ _ Hi c l H1) as (_ & _ & E1).
    destruct (li_held _ _ _ Hi c' l H2) as (_ & _ & E2). congruence.
  - intros c Hc. destruct (li_cpu _ _ _ Hi c Hc) as [_ H]. case_decide as E; [by rewrite E in H|].
    destruct (Z.eqb_spec (depth (t c)) 0) as [Ez|]; [|apply H]. exfalso. apply E. unfold depth in Ez.
    destruct (t c) as [[|] [|]]; cbn in Ez; done || lia.
  - intros c l h Et Hc Hl. case_decide as E.
    + unfold runs. by rewrite (release_eq b s t c l h).
    + unfold runs. by destruct (enter_inv b s t c l h Hi Et Hc Hl E) as [-> _].
  - intros c l h v Et Hno. unfold runs. rewrite try_free; [done| |apply (li_wait _ _ _ Hi c l); by rewrite Et].
    destruct (decide (locked (getl s l) = 0)) as [|Hz]; [done|]. destruct (li_lock _ _ _ Hi l Hz) as [c' Hc']. by apply Hno in Hc'.
Qed.

(** One CPU of two takes a lock. *)
Module LockDemo.
Definition s0 : mach := mkmach [mkcpu 514 0 0; mkcpu 514 0 0] [nolock] (fun _ => 0).
Definition s1 : mach := final (acquire_enter 0 0) s0.
Definition s2 : mach := final (acquire_try 0 0 2148532224) s1.
Definition t0 : nat -> thread := fun _ => ([], None).
Definition t1 : nat -> thread := fun x => if decide (x = 0%nat) then ([], Some 0%nat) else t0 x.
Definition t2 : nat -> thread := fun x => if decide (x = 0%nat) then ([0%nat], None) else t1 x.

Lemma start : unlocked s0.
Proof. split; [intros [|[|c]] H; [done|done|cbn in H; lia]|intros [|[|l]]; done]. Qed.

Lemma path : rtc lstep (s0, t0) (s2, t2).
Proof.
  eapply rtc_l; [apply (l_enter s0 s1 t0 0 0 []); [done|cbn; lia|cbn; lia|apply not_elem_of_nil|reflexivity]|].
  apply rtc_once. by apply (l_take s1 s2 t1 0 0 [] 2148532224).
Qed.
End LockDemo.

Lemma spinlock_exclusion_witness :
  ie (eflags (getc LockDemo.s2 0)) = false /\ runs (release 0 0) LockDemo.s2 (fun _ _ => True).
Proof.
  destruct (spinlock_exclusion _ _ _ LockDemo.start LockDemo.path) as (_ & H1 & H2 & _). split.
  - apply (H1 0%nat). vm_compute. lia.
  - apply (H2 0%nat 0%nat [0%nat]); [reflexivity|vm_compute; lia|vm_compute; lia].
Defined.
