(* ===== verification/Cpu.v ===== *)
(** * Segments, gates and the switch of address space (mmu.h, seginit,
    switchkvm and switchuvm of vm.c, tvinit and idtinit of trap.c)

    The part of a CPU the kernel programs and does not read back: its segment
    descriptors, the task state the processor takes the kernel stack from, the
    page-table register and the interrupt table. *)

From S2P Require Import Prelude.
From S2P Require Import Params.
From S2P Require Import Cstr.
From S2P Require Import Mmu.
From S2P Require Import Spinlock.
From S2P Require Import Kalloc.
From S2P Require Import Vm.

(** ** Descriptors (mmu.h) *)

Record segdesc := mkseg {
  sd_lim_15_0 : Z; sd_base_15_0 : Z; sd_base_23_16 : Z; sd_type : Z; sd_s : Z; sd_dpl : Z; sd_p : Z;
  sd_lim_19_16 : Z; sd_avl : Z; sd_rsv1 : Z; sd_db : Z; sd_g : Z; sd_base_31_24 : Z
}.

Definition SEG (type base lim dpl : Z) : segdesc :=
  mkseg (Z.land (Z.shiftr lim 12) 65535) (Z.land base 65535) (Z.land (Z.shiftr base 16) 255) type 1 dpl 1
    (Z.shiftr lim 28) 0 0 1 1 (Z.shiftr base 24).
Definition SEG16 (type base lim dpl : Z) : segdesc :=
  mkseg (Z.land lim 65535) (Z.land base 65535) (Z.land (Z.shiftr base 16) 255) type 1 dpl 1
    (Z.shiftr lim 16) 0 0 1 0 (Z.shiftr base 24).

Definition set_sd_s (v : Z) (d : segdesc) : segdesc :=
  mkseg (sd_lim_15_0 d) (sd_base_15_0 d) (sd_base_23_16 d) (sd_type d) v (sd_dpl d) (sd_p d)
    (sd_lim_19_16 d) (sd_avl d) (sd_rsv1 d) (sd_db d) (sd_g d) (sd_base_31_24 d).

Record gatedesc := mkgate {
  gd_off_15_0 : Z; gd_cs : Z; gd_args : Z; gd_rsv1 : Z; gd_type : Z; gd_s : Z; gd_dpl : Z; gd_p : Z; gd_off_31_16 : Z
}.

Definition STA_X : Z := 8.
Definition STA_W : Z := 2.
Definition STA_R : Z := 2.
Definition STS_T32A : Z := 9.
Definition STS_IG32 : Z := 14.
Definition STS_TG32 : Z := 15.
Definition SEG_KCODE : Z := 1.
Definition SEG_KDATA : Z := 2.
Definition SEG_KCPU : Z := 3.
Definition SEG_UCODE : Z := 4.
Definition SEG_UDATA : Z := 5.
Definition SEG_TSS : Z := 6.
Definition NSEGS : nat := 7.
Definition DPL_USER : Z := 3.
Definition T_SYSCALL : Z := 64.

Definition SETGATE (istrap : bool) (sel off d : Z) : gatedesc :=
  mkgate (Z.land off 65535) sel 0 0 (if istrap then STS_TG32 else STS_IG32) 0 d 1 (Z.shiftr off 16).

(** ** A CPU *)

Record segcpu := mksc {
  c_gdt : list segdesc;
  c_gdtr : bool;                             (* lgdt has loaded this table *)
  c_gs : Z;
  c_tr : Z;
  c_ss0 : Z;                                 (* struct taskstate *)
  c_esp0 : Z;
  c_cr3 : Z;
  c_self : option nat;                       (* cpu, at %gs:0 *)
  c_proc : option nat                        (* proc, at %gs:4 *)
}.

Record hw := mkhw {
  hw_mach : mach;
  hw_seg : list segcpu;
  hw_kpgdir : Z;
  hw_idt : list gatedesc;
  hw_idtr : list nat                         (* the CPUs that loaded the IDT *)
}.

Definition nosd : segdesc := mkseg 0 0 0 0 0 0 0 0 0 0 0 0 0.
Definition nosc : segcpu := mksc (replicate NSEGS nosd) false 0 0 0 0 0 None None.
Definition getsc (s : hw) (c : nat) : segcpu := nth c (hw_seg s) nosc.
Definition set_mach (m : mach) (s : hw) : hw := mkhw m (hw_seg s) (hw_kpgdir s) (hw_idt s) (hw_idtr s).
Definition set_kpgdir (d : Z) (s : hw) : hw := mkhw (hw_mach s) (hw_seg s) d (hw_idt s) (hw_idtr s).
Definition set_idt (t : list gatedesc) (s : hw) : hw := mkhw (hw_mach s) (hw_seg s) (hw_kpgdir s) t (hw_idtr s).
Definition upd_seg (c : nat) (f : segcpu -> segcpu) (s : hw) : hw :=
  mkhw (hw_mach s) (alter f c (hw_seg s)) (hw_kpgdir s) (hw_idt s) (hw_idtr s).

Definition set_gdt (i : Z) (d : segdesc) (x : segcpu) : segcpu :=
  mksc (<[Z.to_nat i := d]> (c_gdt x)) (c_gdtr x) (c_gs x) (c_tr x) (c_ss0 x) (c_esp0 x) (c_cr3 x) (c_self x) (c_proc x).
Definition set_ts (ss0 esp0 : Z) (x : segcpu) : segcpu :=
  mksc (c_gdt x) (c_gdtr x) (c_gs x) (c_tr x) ss0 esp0 (c_cr3 x) (c_self x) (c_proc x).
Definition ltr (sel : Z) (x : segcpu) : segcpu :=
  mksc (c_gdt x) (c_gdtr x) (c_gs x) sel (c_ss0 x) (c_esp0 x) (c_cr3 x) (c_self x) (c_proc x).
Definition lcr3 (v : Z) (x : segcpu) : segcpu :=
  mksc (c_gdt x) (c_gdtr x) (c_gs x) (c_tr x) (c_ss0 x) (c_esp0 x) v (c_self x) (c_proc x).
Definition load_segs (c : nat) (x : segcpu) : segcpu :=
  mksc (c_gdt x) true (Z.shiftl SEG_KCPU 3) (c_tr x) (c_ss0 x) (c_esp0 x) (c_cr3 x) (Some c) None.

Definition hwm {A} (m : M mach A) : M hw A := lift hw_mach set_mach m.

Section Cpu.
(** The addresses of the field [cpu] and of the task state of each CPU, and
    the entry points of vectors.S. *)
Context (cpu_addr ts_addr : nat -> Z) (vectors : Z -> Z).

(** sizeof(struct taskstate) - 1 *)
Definition TS_LIM : Z := 103.

(** seginit on CPU [c] (cpunum()). *)
Definition seginit (c : nat) : M hw unit :=
  modify (upd_seg c (set_gdt SEG_KCODE (SEG (Z.lor STA_X STA_R) 0 4294967295 0))) ;;;
  modify (upd_seg c (set_gdt SEG_KDATA (SEG STA_W 0 4294967295 0))) ;;;
  modify (upd_seg c (set_gdt SEG_UCODE (SEG (Z.lor STA_X STA_R) 0 4294967295 DPL_USER))) ;;;
  modify (upd_seg c (set_gdt SEG_UDATA (SEG STA_W 0 4294967295 DPL_USER))) ;;;
  modify (upd_seg c (set_gdt SEG_KCPU (SEG STA_W (cpu_addr c) 8 0))) ;;;
  modify (upd_seg c (load_segs c)).

Definition switchkvm (c : nat) : M hw unit :=
  d <- gets hw_kpgdir ;;
  modify (upd_seg c (lcr3 (v2p d))).

(** switchuvm(p) on CPU [c]: [kstack] is proc->kstack, of the current process,
    and [pgdir] is p->pgdir. *)
Definition switchuvm (c : nat) (kstack pgdir : Z) : M hw unit :=
  hwm (pushcli c) ;;;
  modify (upd_seg c (set_gdt SEG_TSS (SEG16 STS_T32A (ts_addr c) TS_LIM 0))) ;;;
  modify (upd_seg c (fun x => set_gdt SEG_TSS (set_sd_s 0 (nth (Z.to_nat SEG_TSS) (c_gdt x) nosd)) x)) ;;;
  modify (upd_seg c (set_ts (Z.shiftl SEG_KDATA 3) (u32 (kstack + KSTACKSIZE)))) ;;;
  modify (upd_seg c (ltr (Z.shiftl SEG_TSS 3))) ;;;
  if pgdir =? 0 then panic "switchuvm: no pgdir"
  else
    modify (upd_seg c (lcr3 (v2p pgdir))) ;;;
    hwm (popcli c).

(** kvmalloc, on the machine and the memory. *)
Definition kvmalloc (kdata : Z) (c : nat) : M (hw * kmem) unit :=
  d <- lift snd (fun k s => (fst s, k)) (setupkvm kdata) ;;
  modify (fun s => (set_kpgdir d (fst s), snd s)) ;;;
  lift fst (fun h s => (h, snd s)) (switchkvm c).

Definition tvinit (tickslock : nat) : M hw unit :=
  each (seq 0 256) (fun i => modify (fun s => set_idt (<[i := SETGATE false (Z.shiftl SEG_KCODE 3) (vectors (Z.of_nat i)) 0]> (hw_idt s)) s)) ;;;
  modify (fun s => set_idt (<[Z.to_nat T_SYSCALL := SETGATE true (Z.shiftl SEG_KCODE 3) (vectors T_SYSCALL) DPL_USER]> (hw_idt s)) s) ;;;
  hwm (initlock tickslock "time").

Definition idtinit (c : nat) : M hw unit :=
  modify (fun s => mkhw (hw_mach s) (hw_seg s) (hw_kpgdir s) (hw_idt s) (hw_idtr s ++ [c])).

(** ** What the descriptors say *)

Definition gate_off (g : gatedesc) : Z := gd_off_15_0 g + 65536 * gd_off_31_16 g.
Definition seg_base (d : segdesc) : Z := sd_base_15_0 d + 65536 * sd_base_23_16 d + 16777216 * sd_base_31_24 d.

Lemma halves v : 0 <= v -> Z.land v 65535 + 65536 * Z.shiftr v 16 = v.
Proof.
  intros Hv. change 65535 with (Z.ones 16). rewrite Z.land_ones, Z.shiftr_div_pow2 by lia. change (2 ^ 16) with 65536.
  pose proof (Z.div_mod v 65536). lia.
Qed.

Lemma seg_base_split v : 0 <= v -> Z.land v 65535 + 65536 * Z.land (Z.shiftr v 16) 255 + 16777216 * Z.shiftr v 24 = v.
Proof.
  intros Hv. rewrite <- (halves v Hv) at 4. change 255 with (Z.ones 8). rewrite Z.land_ones by lia. replace (Z.shiftr v 24) with (Z.shiftr (Z.shiftr v 16) 8) by (by rewrite Z.shiftr_shiftr).
  rewrite (Z.shiftr_div_pow2 _ 8) by lia. change (2 ^ 8) with 256. pose proof (Z.div_mod (Z.shiftr v 16) 256). lia.
Qed.

Lemma getsc_upd c c' f s : (c < length (hw_seg s))%nat -> getsc (upd_seg c f s) c' = if decide (c' = c) then f (getsc s c) else getsc s c'.
Proof. intros Hc. unfold getsc. cbn. case_decide as E; [subst; by apply nth_alter_eq|by apply nth_alter_ne]. Qed.

Lemma upd_seg_upd c f g s : upd_seg c g (upd_seg c f s) = upd_seg c (fun x => g (f x)) s.
Proof. unfold upd_seg. cbn. f_equal. exact (list_alter_alter_eq g f (hw_seg s) c). Qed.

Lemma getsc_mach m s c : getsc (set_mach m s) c = getsc s c.
Proof. done. Qed.

(** switchuvm loads the page table and the kernel stack, and leaves the
    interrupt state as it was. *)
Definition switched (c : nat) (kstack pgdir : Z) (s s' : hw) : Prop :=
  c_cr3 (getsc s' c) = v2p pgdir /\ c_esp0 (getsc s' c) = u32 (kstack + KSTACKSIZE) /\ c_ss0 (getsc s' c) = Z.shiftl SEG_KDATA 3 /\
  c_tr (getsc s' c) = Z.shiftl SEG_TSS 3 /\ c_gdt (getsc s' c) = <[Z.to_nat SEG_TSS := set_sd_s 0 (SEG16 STS_T32A (ts_addr c) TS_LIM 0)]> (c_gdt (getsc s c)) /\
  ncli (getc (hw_mach s') c) = ncli (getc (hw_mach s) c) /\ hw_idt s' = hw_idt s /\ forall c', c' <> c -> getsc s' c' = getsc s c'.

Lemma switchuvm_spec c kstack pgdir s : (c < length (cpus (hw_mach s)))%nat -> (c < length (hw_seg s))%nat -> 0 <= ncli (getc (hw_mach s) c) -> pgdir <> 0 ->
  length (c_gdt (getsc s c)) = NSEGS -> runs (switchuvm c kstack pgdir) s (fun _ s' => switched c kstack pgdir s s').
Proof.
  intros Hc Hs Hn Hd Hg. unfold switchuvm, hwm. apply runs_bind, runs_lift. unfold runs at 1. rewrite pushcli_eq by done.
  do 4 (apply runs_bind, runs_modify). rewrite (proj2 (Z.eqb_neq _ _) Hd). apply runs_bind, runs_modify. rewrite !upd_seg_upd. set (s1 := upd_seg c _ _).
  assert (Em : hw_mach s1 = upd_cpu c cli_cpu (hw_mach s)) by done.
  apply runs_lift. unfold runs. rewrite Em. rewrite popcli_eq.
  - unfold switched. rewrite !getsc_mach. unfold s1. rewrite !getsc_upd by done. rewrite !decide_True by done. rewrite !getsc_mach. split_and!; try done.
    + cbn. unfold set_gdt. cbn. rewrite nth_lookup, list_lookup_insert_eq by (rewrite Hg; vm_compute; lia). by rewrite list_insert_insert_eq.
    + change (hw_mach (set_mach _ _)) with (upd_cpu c sti_cpu (upd_cpu c cli_cpu (hw_mach s))). rewrite upd_cpu_upd, getc_upd, decide_True by done. cbn. lia.
    + intros c' Hne. rewrite getsc_mach, getsc_upd by done. by rewrite decide_False.
  - unfold upd_cpu. cbn. by rewrite length_alter.
  - rewrite getc_upd, decide_True by done. apply ie_cli.
  - rewrite getc_upd, decide_True by done. cbn. lia.
Qed.

(** ** The interrupt table *)

(** The gate tvinit leaves at vector [i]. *)
Definition gate_of (i : Z) : gatedesc :=
  if i =? T_SYSCALL then SETGATE true (Z.shiftl SEG_KCODE 3) (vectors i) DPL_USER else SETGATE false (Z.shiftl SEG_KCODE 3) (vectors i) 0.

Lemma tvinit_idt lk s : length (hw_idt s) = 256%nat -> runs (tvinit lk) s (fun _ s' => hw_seg s' = hw_seg s /\ length (hw_idt s') = 256%nat /\
  forall i, 0 <= i < 256 -> hw_idt s' !! Z.to_nat i = Some (gate_of i)).
Proof.
  intros Hl. unfold tvinit. apply runs_bind.
  pose (I := fun (rem : list nat) (s' : hw) => hw_seg s' = hw_seg s /\ length (hw_idt s') = 256%nat /\ exists k, rem = seq k (256 - k) /\ (k <= 256)%nat /\
    forall i, (i < k)%nat -> hw_idt s' !! i = Some (SETGATE false (Z.shiftl SEG_KCODE 3) (vectors (Z.of_nat i)) 0)).
  apply (runs_each _ _ I).
  - split_and!; [done|done|]. exists 0%nat. split_and!; [done|lia|intros i Hi; lia].
  - intros j rem s1 (H1 & H2 & k & Ek & Hk & Hi). apply runs_modify. assert (Hlt : (k < 256)%nat).
    { destruct (decide (k < 256)%nat) as [|Hge]; [done|]. replace (256 - k)%nat with 0%nat in Ek by lia. done. }
    replace (256 - k)%nat with (S (256 - S k)) in Ek by lia. cbn [seq] in Ek. injection Ek as -> ->. split_and!; [done|cbn; by rewrite length_insert|].
    exists (S k). split_and!; [done|lia|]. intros i Hi'. cbn [set_idt hw_idt]. destruct (decide (i = k)) as [->|Hne].
    + by rewrite list_lookup_insert_eq by lia.
    + rewrite list_lookup_insert_ne by done. apply Hi. lia.
  - intros s1 (H1 & H2 & k & Ek & Hk & Hi). assert (k = 256%nat) as ->.
    { destruct (decide (k = 256%nat)) as [|Hne]; [done|]. replace (256 - k)%nat with (S (255 - k)) in Ek by lia. done. }
    apply runs_bind, runs_modify. unfold hwm. apply runs_lift, runs_modify. split_and!; [done|cbn; by rewrite length_insert|].
    intros i Hr. cbn [set_idt set_mach hw_idt]. unfold gate_of. destruct (Z.eqb_spec i T_SYSCALL) as [->|Hne].
    + rewrite list_lookup_insert_eq; [done|]. rewrite H2. vm_compute. lia.
    + rewrite list_lookup_insert_ne by (unfold T_SYSCALL in *; lia). rewrite Hi by lia. by rewrite Z2Nat.id by lia.
Qed.
End Cpu.

(** C22: after tvinit every vector has a gate into the kernel's code at its
    entry of vectors.S, and user code can raise only T_SYSCALL itself: that gate
    alone has privilege level 3, and it alone leaves interrupts enabled.
    seginit gives the CPU flat segments over the whole address space, of level 3
    for user code and data and of level 0 for the kernel's. *)
Theorem user_enters_by_syscall cpu_addr vectors lk c s : length (hw_idt s) = 256%nat -> (c < length (hw_seg s))%nat -> length (c_gdt (getsc s c)) = NSEGS ->
  (forall i, 0 <= vectors i < 4294967296) ->
  runs (tvinit vectors lk ;;; seginit cpu_addr c) s (fun _ s' =>
    (forall i, 0 <= i < 256 -> exists g, hw_idt s' !! Z.to_nat i = Some g /\ gate_off g = vectors i /\ gd_cs g = Z.shiftl SEG_KCODE 3 /\ gd_p g = 1 /\
      (gd_dpl g = DPL_USER <-> i = T_SYSCALL) /\ (gd_type g = STS_TG32 <-> i = T_SYSCALL)) /\
    (forall i d, c_gdt (getsc s' c) !! i = Some d -> i <> 0%nat -> i <> 3%nat -> i <> 6%nat ->
      seg_base d = 0 /\ sd_lim_15_0 d + 65536 * sd_lim_19_16 d = 1048575 /\ sd_g d = 1 /\
      (sd_dpl d = DPL_USER <-> (i = 4 \/ i = 5)%nat))).
Proof.
  intros Hi Hc Hg Hv. apply runs_bind. eapply runs_mono; [by apply tvinit_idt|]. intros [] s1 (E1 & E2 & E3). unfold seginit.
  do 5 (apply runs_bind, runs_modify). apply runs_modify. rewrite !upd_seg_upd. split.
  - intros i Hr. exists (gate_of vectors i). split; [by apply E3|]. unfold gate_of. destruct (Z.eqb_spec i T_SYSCALL) as [->|Hne].
    + split_and!; try done. apply halves, Hv.
    + split_and!; try done; apply halves, Hv.
  - intros i d. rewrite getsc_upd by (by rewrite E1). rewrite decide_True by done. cbn [load_segs c_gdt set_gdt].
    assert (E4 : getsc s1 c = getsc s c) by (unfold getsc; by rewrite E1). rewrite E4.
    destruct (c_gdt (getsc s c)) as [|d0 [|d1 [|d2 [|d3 [|d4 [|d5 [|d6 [|]]]]]]]]; try done. clear.
    intros E H0 H3 H6. do 7 (destruct i as [|i]; [first [done|injection E as <-; split_and!; [done..|vm_compute; lia]]|]). by destruct i.
Qed.

Module CpuDemo.
Definition hw0 : hw := mkhw (mkmach [nocpu] [nolock] (fun _ => 0)) [nosc] 0 (replicate 256 (mkgate 0 0 0 0 0 0 0 0 0)) [].

Lemma user_enters_by_syscall_witness : runs (tvinit (fun i => 2148532224 + 10 * (i mod 256)) 0 ;;; seginit (fun _ => 2148600000) 0) hw0 (fun _ s' =>
  exists g, hw_idt s' !! 14%nat = Some g /\ gate_off g = 2148532364 /\ gd_dpl g <> DPL_USER).
Proof.
  eapply runs_mono.
  { apply (user_enters_by_syscall (fun _ => 2148600000) (fun i => 2148532224 + 10 * (i mod 256)) 0 0 hw0); [done|cbn; lia|done|].
    intros i. pose proof (Z.mod_pos_bound i 256). lia. }
  intros [] s' [Hg _]. destruct (Hg 14 ltac:(lia)) as (g & E & Eo & _ & _ & Hd & _). exists g. split_and!; [done|by rewrite Eo|]. rewrite Hd. unfold T_SYSCALL. lia.
Defined.
End CpuDemo.
