(* ===== verification/Pipe.v ===== *)
(** * Pipes (pipe.c)

    A pipe is a ring of PIPESIZE bytes with 32-bit counters that wrap around.
    The state of one pipe is [pst]: the structure, and the channels its
    operations have passed to wakeup().  [p] is the address of the structure.
    A pipewrite that finds the ring full goes to sleep in the middle of its
    loop; it returns what is left to write, and continues with that. *)

From S2P Require Import Prelude.

Definition PIPESIZE : Z := 512.

Record pipe := mkpipe {
  p_data : list Z;
  nread : Z;
  nwrite : Z;
  readopen : Z;
  writeopen : Z
}.

Record pst := mkpst { pp : pipe; pwoken : list chan }.

Definition pwake (c : chan) : M pst unit := modify (fun s => mkpst (pp s) (pwoken s ++ [c])).
Definition upd_pipe (f : pipe -> pipe) : M pst unit := modify (fun s => mkpst (f (pp s)) (pwoken s)).

Definition push_byte (b : Z) (x : pipe) : pipe :=
  mkpipe (<[Z.to_nat (nwrite x mod PIPESIZE) := b]> (p_data x)) (nread x) (u32 (nwrite x + 1)) (readopen x) (writeopen x).
Definition pop_byte (x : pipe) : pipe :=
  mkpipe (p_data x) (u32 (nread x + 1)) (nwrite x) (readopen x) (writeopen x).

(** The loop of pipewrite over the bytes still to write: [inl] its return
    value, [inr] what is left when it sleeps on [&p->nwrite]. *)
Fixpoint pipewrite_loop (p : Z) (killed : bool) (n : Z) (rest : list Z) : M pst (Z + list Z) :=
  match rest with
  | [] => pwake (ChPipeR p) ;;; ret (inl n)
  | b :: rest' =>
      x <- gets pp ;;
      if nwrite x =? u32 (nread x + PIPESIZE) then
        if (readopen x =? 0) || killed then ret (inl (-1))
        else pwake (ChPipeR p) ;;; ret (inr rest)
      else
        upd_pipe (push_byte b) ;;;
        pipewrite_loop p killed n rest'
  end.

Definition pipewrite (p : Z) (killed : bool) (addr : list Z) : M pst (Z + list Z) :=
  pipewrite_loop p killed (Z.of_nat (length addr)) addr.

(** [for(i = 0; i < n; i++)] of piperead. *)
Fixpoint piperead_loop (n : nat) (acc : list Z) : M pst (list Z) :=
  match n with
  | O => ret acc
  | S n' =>
      x <- gets pp ;;
      if nread x =? nwrite x then ret acc
      else
        upd_pipe pop_byte ;;;
        piperead_loop n' (acc ++ [nthZ (p_data x) (nread x mod PIPESIZE)])
  end.

(** piperead: the return value and the bytes stored at [addr]. *)
Definition piperead (p : Z) (killed : bool) (n : Z) : M pst (Z * list Z) :=
  x <- gets pp ;;
  if (nread x =? nwrite x) && negb (writeopen x =? 0) then
    if killed then ret (-1, []) else sleep_on (ChPipeR p)
  else
    bytes <- piperead_loop (Z.to_nat n) [] ;;
    pwake (ChPipeW p) ;;;
    ret (Z.of_nat (length bytes), bytes).

(** pipeclose, up to the release: true when both ends are closed and the
    structure is to be freed. *)
Definition pipeclose_ends (p : Z) (writable : bool) : M pst bool :=
  (if writable then
     upd_pipe (fun x => mkpipe (p_data x) (nread x) (nwrite x) (readopen x) 0) ;;;
     pwake (ChPipeR p)
   else
     upd_pipe (fun x => mkpipe (p_data x) (nread x) (nwrite x) 0 (writeopen x)) ;;;
     pwake (ChPipeW p)) ;;;
  x <- gets pp ;;
  ret ((readopen x =? 0) && (writeopen x =? 0)).

(** ** The queue a pipe holds *)

Record holds_queue (x : pipe) (q : list Z) : Prop := {
  hq_len : length (p_data x) = 512%nat;
  hq_read : 0 <= nread x < 4294967296;
  hq_write : nwrite x = u32 (nread x + Z.of_nat (length q));
  hq_size : (length q <= 512)%nat;
  hq_data : forall i, (i < length q)%nat -> nthZ (p_data x) ((nread x + Z.of_nat i) mod 512) = nth i q 0
}.

Lemma u32_mod512 a : u32 a mod 512 = a mod 512.
Proof. apply u32_mod; [lia|by exists 8388608]. Qed.

Lemma hq_full x q : holds_queue x q -> (nwrite x =? u32 (nread x + PIPESIZE)) = (512 =? Z.of_nat (length q)).
Proof.
  intros [_ Hr -> Hs _]. unfold PIPESIZE, u32. destruct (Z.eqb_spec 512 (Z.of_nat (length q))) as [<-|Hne]; [apply Z.eqb_refl|].
  apply Z.eqb_neq. intros E. apply Hne. symmetry.
  assert (H : (nread x + Z.of_nat (length q) - (nread x + 512)) mod 4294967296 = 0).
  { rewrite Zminus_mod, E, Z.sub_diag. done. }
  replace (nread x + Z.of_nat (length q) - (nread x + 512)) with (Z.of_nat (length q) - 512) in H by lia.
  destruct (decide (Z.of_nat (length q) = 512)); [done|]. rewrite <- (Z.mod_add _ 1), Z.mod_small in H by lia. lia.
Qed.

Lemma hq_empty x q : holds_queue x q -> (nread x =? nwrite x) = (length q =? 0)%nat.
Proof.
  intros [_ Hr -> Hs _]. unfold u32. destruct q as [|b q]; cbn [length Nat.eqb].
  - rewrite Z.add_0_r, Z.mod_small by done. apply Z.eqb_refl.
  - apply Z.eqb_neq. cbn [length] in Hs. destruct (Z_lt_le_dec (nread x + Z.of_nat (S (length q))) 4294967296).
    + rewrite Z.mod_small by lia. lia.
    + rewrite <- (Z.mod_add _ (-1)), Z.mod_small by lia. lia.
Qed.

Lemma mod512_inj a i j : 0 <= i < 512 -> 0 <= j < 512 -> (a + i) mod 512 = (a + j) mod 512 -> i = j.
Proof. apply mod_window. Qed.

Lemma push_queue x q b : holds_queue x q -> (length q < 512)%nat -> holds_queue (push_byte b x) (q ++ [b]).
Proof.
  intros [H1 H2 H3 H4 H5] Hl. assert (Em : nwrite x mod PIPESIZE = (nread x + Z.of_nat (length q)) mod 512).
  { rewrite H3. apply u32_mod512. }
  pose proof (Z.mod_pos_bound (nread x + Z.of_nat (length q)) 512 ltac:(lia)) as Hb.
  split; cbn [push_byte p_data nread nwrite]; rewrite ?length_insert, ?length_app; cbn [length]; try done; [| |].
  - rewrite H3. unfold u32. rewrite Z.add_mod_idemp_l by lia. f_equal. lia.
  - lia.
  - intros i Hi. rewrite Em. unfold nthZ. pose proof (Z.mod_pos_bound (nread x + Z.of_nat i) 512 ltac:(lia)) as Hbi.
    rewrite nth_lookup. destruct (decide (i = length q)) as [->|Hne].
    + rewrite list_lookup_insert_eq by lia. by rewrite nth_middle.
    + rewrite list_lookup_insert_ne.
      * rewrite app_nth1 by lia. rewrite <- nth_lookup. apply H5. lia.
      * intros E. apply Hne. apply Nat2Z.inj, (mod512_inj (nread x)); lia.
Qed.

Lemma pop_queue x b q : holds_queue x (b :: q) -> holds_queue (pop_byte x) q /\ nthZ (p_data x) (nread x mod PIPESIZE) = b.
Proof.
  intros [H1 H2 H3 H4 H5]. cbn [length] in *. split.
  - split; cbn [pop_byte p_data nread nwrite]; try done; [apply u32_range| |lia|].
    + rewrite H3. unfold u32. rewrite Z.add_mod_idemp_l by lia. f_equal. lia.
    + intros i Hi. specialize (H5 (S i) ltac:(lia)). cbn [nth] in H5. rewrite <- H5. f_equal.
      rewrite <- Z.add_mod_idemp_l, u32_mod512, Z.add_mod_idemp_l by lia. f_equal. lia.
  - specialize (H5 0%nat ltac:(lia)). cbn in H5. by rewrite Z.add_0_r in H5.
Qed.

(** ** pipewrite and piperead on the queue *)

Definition ends_same (x y : pipe) : Prop := readopen y = readopen x /\ writeopen y = writeopen x.

(** What pipewrite returns when it could store all of [rest] but [left]. *)
Definition write_result (x : pipe) (killed : bool) (n : Z) (left : list Z) : Z + list Z :=
  match left with
  | [] => inl n
  | _ => if (readopen x =? 0) || killed then inl (-1) else inr left
  end.

Lemma pipewrite_loop_spec p killed n rest s q : holds_queue (pp s) q ->
  let k := (512 - length q)%nat in
  runs (pipewrite_loop p killed n rest) s (fun r s' =>
    r = write_result (pp s) killed n (drop k rest) /\ holds_queue (pp s') (q ++ take k rest) /\ ends_same (pp s) (pp s') /\
    pwoken s' = pwoken s ++ (if decide (drop k rest <> [] /\ (readopen (pp s) =? 0) || killed = true) then [] else [ChPipeR p])).
Proof.
  revert s q. induction rest as [|b rest IH]; intros s q Hq k; cbn [pipewrite_loop].
  - apply runs_bind, runs_modify, runs_ret. rewrite drop_nil, take_nil, app_nil_r. split_and!; [done|done|done|].
    cbn [pwoken]. rewrite decide_False; [done|]. by intros [? _].
  - apply runs_bind, runs_gets. rewrite (hq_full _ _ Hq). destruct (Z.eqb_spec 512 (Z.of_nat (length q))) as [E|E].
    + assert (k = 0%nat) as -> by lia. rewrite drop_0, take_0, app_nil_r. unfold write_result.
      destruct ((readopen (pp s) =? 0) || killed) eqn:Ek.
      * apply runs_ret. split_and!; [done|done|done|]. rewrite decide_True by done. by rewrite app_nil_r.
      * apply runs_bind, runs_modify, runs_ret. split_and!; [done|done|done|]. cbn [pwoken]. rewrite decide_False; [done|]. by intros [_ ?].
    + pose proof (hq_size _ _ Hq). apply runs_bind, runs_modify. cbn [pp pwoken]. set (s1 := mkpst _ _).
      assert (Hq1 : holds_queue (pp s1) (q ++ [b])) by (apply push_queue; [done|lia]).
      eapply runs_mono; [apply (IH s1 (q ++ [b]) Hq1)|]. cbv beta. intros r s'.
      assert (Ek : k = S (512 - length (q ++ [b]))) by (rewrite length_app; cbn; lia). rewrite Ek.
      cbn [drop take]. rewrite <- app_assoc. done.
Qed.

Lemma piperead_loop_spec n s q acc : holds_queue (pp s) q ->
  runs (piperead_loop n acc) s (fun r s' => r = acc ++ take n q /\ holds_queue (pp s') (drop n q) /\
    ends_same (pp s) (pp s') /\ pwoken s' = pwoken s).
Proof.
  revert s q acc. induction n as [|n IH]; intros s q acc Hq; cbn [piperead_loop].
  - apply runs_ret. rewrite take_0, drop_0, app_nil_r. done.
  - apply runs_bind, runs_gets. rewrite (hq_empty _ _ Hq). destruct q as [|b q]; cbn [length Nat.eqb].
    + apply runs_ret. rewrite take_nil, drop_nil, app_nil_r. done.
    + apply runs_bind, runs_modify. cbn [pp pwoken]. set (s1 := mkpst _ _). destruct (pop_queue _ _ _ Hq) as [Hq1 ->].
      eapply runs_mono; [by apply (IH s1 q)|]. cbv beta. intros r s'. rewrite <- app_assoc. done.
Qed.

(** piperead: it sleeps or fails on an empty pipe with a writer; otherwise it
    takes the first bytes. *)
Lemma piperead_spec p killed n s q : holds_queue (pp s) q ->
  if (length q =? 0)%nat && negb (writeopen (pp s) =? 0)
  then piperead p killed n s = (if killed then Done (-1, []) s else Sleep (ChPipeR p) s)
  else runs (piperead p killed n) s (fun r s' =>
    r = (Z.of_nat (length (take (Z.to_nat n) q)), take (Z.to_nat n) q) /\ holds_queue (pp s') (drop (Z.to_nat n) q) /\
    ends_same (pp s) (pp s') /\ pwoken s' = pwoken s ++ [ChPipeW p]).
Proof.
  intros Hq. pose proof (hq_empty _ _ Hq) as Ee. destruct ((length q =? 0)%nat && negb (writeopen (pp s) =? 0)) eqn:E.
  - unfold piperead, bind, gets. rewrite Ee, E. by destruct killed.
  - unfold piperead. apply runs_bind, runs_gets. rewrite Ee, E.
    eapply runs_seq; [by apply (piperead_loop_spec _ s q)|]. cbv beta. intros r s' (-> & Hq' & He & Hw).
    apply runs_bind, runs_modify, runs_ret. cbn [pp pwoken]. rewrite Hw. done.
Qed.

Lemma pipeclose_queue p writable s q : holds_queue (pp s) q ->
  runs (pipeclose_ends p writable) s (fun r s' => holds_queue (pp s') q /\
    readopen (pp s') = (if writable then readopen (pp s) else 0) /\
    writeopen (pp s') = (if writable then 0 else writeopen (pp s)) /\
    r = ((readopen (pp s') =? 0) && (writeopen (pp s') =? 0)) /\
    pwoken s' = pwoken s ++ [if writable then ChPipeR p else ChPipeW p]).
Proof. intros [H1 H2 H3 H4 H5]. by destruct writable. Qed.

(** ** Readers and writers sharing a pipe

    A step is one call, or the continuation of a pipewrite that slept, with
    the bytes it put into the pipe and the bytes it returned to a reader.
    What a pipewrite put is counted by [nwrite]. *)
Inductive pipe_step (p : Z) : pst -> list Z -> list Z -> pst -> Prop :=
| ps_write killed n rest r s s' : pipewrite_loop p killed n rest s = Done r s' ->
    pipe_step p s (take (Z.to_nat (u32 (nwrite (pp s') - nwrite (pp s)))) rest) [] s'
| ps_read killed n r bytes s s' : piperead p killed n s = Done (r, bytes) s' -> pipe_step p s [] bytes s'
| ps_sleep killed n c s s' : piperead p killed n s = Sleep c s' -> pipe_step p s [] [] s'
| ps_close writable r s s' : pipeclose_ends p writable s = Done r s' -> pipe_step p s [] [] s'.

Inductive pipe_run (p : Z) (s0 : pst) : list Z -> list Z -> pst -> Prop :=
| pr_start : pipe_run p s0 [] [] s0
| pr_step W R s w r s' : pipe_run p s0 W R s -> pipe_step p s w r s' -> pipe_run p s0 (W ++ w) (R ++ r) s'.

Lemma put_count x q x' d : holds_queue x q -> holds_queue x' (q ++ d) -> nread x' = nread x ->
  u32 (nwrite x' - nwrite x) = Z.of_nat (length d).
Proof.
  intros H H' E. rewrite (hq_write _ _ H), (hq_write _ _ H'), E, length_app. pose proof (hq_size _ _ H') as Hs.
  rewrite length_app in Hs. unfold u32. rewrite <- Zminus_mod.
  replace (nread x + Z.of_nat (length q + length d) - (nread x + Z.of_nat (length q))) with (Z.of_nat (length d)) by lia.
  apply Z.mod_small. lia.
Qed.

Lemma pipewrite_nread p killed n rest s r s' : pipewrite_loop p killed n rest s = Done r s' -> nread (pp s') = nread (pp s).
Proof.
  revert s. induction rest as [|b rest IH]; intros s; cbn [pipewrite_loop].
  - by intros [= _ <-].
  - intros (x & s1 & [= <- <-] & H)%bind_done. destruct (_ =? _).
    + destruct (_ || _); [by injection H as _ <-|]. by injection H as _ <-.
    + apply bind_done in H as (u & s2 & [= _ <-] & H). by apply IH in H.
Qed.

Lemma pipe_step_queue p s w r s' q : pipe_step p s w r s' -> holds_queue (pp s) q ->
  exists q', holds_queue (pp s') q' /\ q ++ w = r ++ q'.
Proof.
  intros Hst Hq. destruct Hst as [killed n rest r s s' E|killed n r bytes s s' E|killed n c s s' E|wr r s s' E].
  - pose proof (runs_elim _ _ _ _ _ (pipewrite_loop_spec p killed n rest s q Hq) E) as (_ & Hq' & _). cbv zeta in Hq'.
    rewrite (put_count _ q _ (take (512 - length q) rest)) by (done || by eapply pipewrite_nread).
    rewrite Nat2Z.id, length_take. exists (q ++ take (512 - length q) rest). split; [done|]. cbn. f_equal.
    destruct (Nat.le_gt_cases (512 - length q) (length rest)); [by rewrite Nat.min_l by lia|].
    by rewrite Nat.min_r, !take_ge by lia.
  - pose proof (piperead_spec p killed n s q Hq) as H. destruct (_ && _).
    + rewrite E in H. destruct killed; [|done]. injection H as -> -> <-. exists q. by rewrite app_nil_r.
    + pose proof (runs_elim _ _ _ _ _ H E) as ([= -> ->] & Hq' & _). exists (drop (Z.to_nat n) q). split; [done|].
      by rewrite app_nil_r, take_drop.
  - pose proof (piperead_spec p killed n s q Hq) as H. destruct (_ && _).
    + rewrite E in H. destruct killed; [done|]. injection H as _ <-. exists q. by rewrite app_nil_r.
    + unfold runs in H. by rewrite E in H.
  - pose proof (runs_elim _ _ _ _ _ (pipeclose_queue p wr s q Hq) E) as (Hq' & _). exists q. by rewrite app_nil_r.
Qed.

(** The pipe as pipealloc leaves it. *)
Definition new_pipe (data : list Z) : pipe := mkpipe data 0 0 1 1.

(** C27: A pipe is a FIFO of at most PIPESIZE bytes, for any interleaving of
    readers, writers and closes and also after the 32-bit counters wrap: the
    bytes returned to readers followed by those in the ring are the bytes
    written, in order.  The next read returns the oldest bytes, the next write
    stores as much as fits, a writer sleeps only on a full ring after waking
    the readers, and a reader sleeps only on an empty one: never both. *)
Theorem pipe_fifo p data W R s : length data = 512%nat -> pipe_run p (mkpst (new_pipe data) []) W R s ->
  exists q, W = R ++ q /\ (length q <= 512)%nat /\
  (forall n, 0 <= n -> q <> [] -> runs (piperead p false n) s (fun r s' =>
     r = (Z.min n (Z.of_nat (length q)), take (Z.to_nat n) q) /\ pwoken s' = pwoken s ++ [ChPipeW p])) /\
  (forall n rest, readopen (pp s) <> 0 -> runs (pipewrite_loop p false n rest) s (fun r s' =>
     r = (if decide (length q + length rest <= 512)%nat then inl n else inr (drop (512 - length q) rest)) /\
     pwoken s' = pwoken s ++ [ChPipeR p])) /\
  (forall n c s', piperead p false n s = Sleep c s' -> q = []).
Proof.
  intros Hd Hr. assert (Hex : exists q, holds_queue (pp s) q /\ W = R ++ q).
  { induction Hr as [|W R s w r s' _ IH Hst].
    - exists []. split; [|done]. split; cbn; try done; lia.
    - destruct IH as (q & Hq & ->). destruct (pipe_step_queue p s w r s' q Hst Hq) as (q' & Hq' & E).
      exists q'. split; [done|]. by rewrite <- !app_assoc, E. }
  destruct Hex as (q & Hq & ->). exists q. split; [done|]. split; [apply Hq|]. split_and!.
  - intros n Hn Hne. pose proof (piperead_spec p false n s q Hq) as H. destruct q as [|b q]; [done|]. cbn [length Nat.eqb andb] in H.
    eapply runs_mono; [exact H|]. cbv beta. intros r s' (-> & _ & _ & Hw). split; [|done]. rewrite length_take. f_equal. lia.
  - intros n rest Ho. eapply runs_mono; [apply (pipewrite_loop_spec p false n rest s q Hq)|]. cbv beta zeta.
    intros r s' (-> & _ & _ & Hw). apply Z.eqb_neq in Ho. unfold write_result. rewrite Ho in *. cbn [orb] in *.
    rewrite decide_False in Hw by (by intros [_ ?]). split; [|done]. case_decide as E.
    + by rewrite drop_ge by lia.
    + destruct (drop (512 - length q) rest) eqn:Ed; [|done]. apply (f_equal length) in Ed. rewrite length_drop in Ed. cbn [length] in Ed. pose proof (hq_size _ _ Hq). lia.
  - intros n c s' E. pose proof (piperead_spec p false n s q Hq) as H. destruct q as [|b q]; [done|].
    cbn [length Nat.eqb andb] in H. unfold runs in H. by rewrite E in H.
Qed.

Lemma pipe_fifo_witness :
  let s := mkpst (new_pipe (replicate 512 0)) [] in
  let s1 := final (pipewrite_loop 4096 false 3 [104; 105; 10]) s in
  exists q, [104; 105; 10] = q /\ (length q <= 512)%nat /\
    runs (piperead 4096 false 2) s1 (fun r _ => r = (2, [104; 105])).
Proof.
  intros s s1. assert (Hr : pipe_run 4096 s ([] ++ [104; 105; 10]) ([] ++ []) s1).
  { eapply pr_step; [apply pr_start|]. exact (ps_write 4096 false 3 [104; 105; 10] (inl 3) s s1 eq_refl). }
  destruct (pipe_fifo 4096 (replicate 512 0) _ _ s1 eq_refl Hr) as (q & E & Hl & H & _). cbn in E. subst q.
  exists [104; 105; 10]. split_and!; [done|done|]. eapply runs_mono; [apply H; done || lia|]. by intros r s' [-> _].
Defined.
