(* ===== verification/Syscall.v ===== *)
(** * System-call arguments and dispatch (syscall.c)

    [uproc] is what the system calls use of the current process: its memory
    as the process sees it, its size, the saved user registers, its open
    files and its directory. *)

From S2P Require Import Prelude.
From S2P Require Import Params.
From S2P Require Import Cstr.
From S2P Require Import Mmu.

Record uproc := mkuproc {
  u_sz : Z;
  u_mem : mem;
  u_esp : Z;                       (* proc->tf->esp *)
  u_eax : Z;                       (* proc->tf->eax *)
  u_ofile : list (option nat);
  u_cwd : nat;
  u_killed : bool;
  u_pid : Z
}.

(** Fetches return the value stored through the pointer argument, [None] for
    the return value -1. *)
Definition fetchint (p : uproc) (addr : Z) : option Z :=
  if (addr >=? u_sz p) || (u32 (addr + 4) >? u_sz p) then None
  else Some (s32 (ld32 (u_mem p) addr)).

(** [for(s = *pp; s < ep; s++)] over the [n] bytes below [ep]. *)
Fixpoint scan_nul (m : mem) (s : Z) (n : nat) : option Z :=
  match n with
  | O => None
  | S n' => if m s =? 0 then Some 0 else Z.succ <$> scan_nul m (s + 1) n'
  end.

(** fetchstr: the pointer and the length of the string. *)
Definition fetchstr (p : uproc) (addr : Z) : option (Z * Z) :=
  if addr >=? u_sz p then None
  else (fun len => (addr, len)) <$> scan_nul (u_mem p) addr (Z.to_nat (u_sz p - addr)).

Definition argint (p : uproc) (n : Z) : option Z := fetchint p (u32 (u_esp p + 4 + 4 * n)).

Definition argptr (p : uproc) (n size : Z) : option Z :=
  match argint p n with
  | None => None
  | Some i => if (u32 i >=? u_sz p) || (u32 (u32 i + size) >? u_sz p) then None else Some (u32 i)
  end.

Definition argstr (p : uproc) (n : Z) : option (Z * Z) :=
  match argint p n with
  | None => None
  | Some addr => fetchstr p (u32 addr)
  end.

(** The bytes of the string at [addr] of length [len]. *)
Definition ustr (p : uproc) (r : Z * Z) : list Z :=
  List.map (fun k => u_mem p (fst r + Z.of_nat k)) (seq 0 (Z.to_nat (snd r))).

(** syscall: [table] is [syscalls], indexed by the number in eax. *)
Definition syscall {S} (cur : S -> uproc) (set_eax : Z -> S -> S) (unknown : Z -> S -> S)
    (table : list (option (M S Z))) : M S unit :=
  num <- gets (fun s => s32 (u_eax (cur s))) ;;
  match (if (num >? 0) && (num <? Z.of_nat (length table)) then nth (Z.to_nat num) table None else None) with
  | Some f => r <- f ;; modify (set_eax (u32 r))
  | None => modify (unknown num) ;;; modify (set_eax (u32 (-1)))
  end.

(** The functions behind the system calls, and the table [syscalls], whose entry
    0 is empty. *)
Record handlers (S : Type) := mkhandlers {
  h_fork : M S Z; h_exit : M S Z; h_wait : M S Z; h_pipe : M S Z; h_read : M S Z; h_kill : M S Z; h_exec : M S Z; h_fstat : M S Z;
  h_chdir : M S Z; h_dup : M S Z; h_getpid : M S Z; h_sbrk : M S Z; h_sleep : M S Z; h_uptime : M S Z; h_open : M S Z; h_write : M S Z;
  h_mknod : M S Z; h_unlink : M S Z; h_link : M S Z; h_mkdir : M S Z; h_close : M S Z; h_enable_sched_trace : M S Z; h_uprog_shut : M S Z
}.
Arguments mkhandlers {S}.
Definition syscalls {S} (h : handlers S) : list (option (M S Z)) :=
  None :: List.map (fun f => Some (f h))
    [h_fork S; h_exit S; h_wait S; h_pipe S; h_read S; h_kill S; h_exec S; h_fstat S; h_chdir S; h_dup S; h_getpid S; h_sbrk S; h_sleep S; h_uptime S;
     h_open S; h_write S; h_mknod S; h_unlink S; h_link S; h_mkdir S; h_close S; h_enable_sched_trace S; h_uprog_shut S].

(** ** The arguments the kernel accepts *)

Lemma scan_nul_spec m s n r : scan_nul m s n = Some r ->
  0 <= r < Z.of_nat n /\ m (s + r) = 0 /\ forall k, 0 <= k < r -> m (s + k) <> 0.
Proof.
  revert s r. induction n as [|n IH]; intros s r; cbn [scan_nul]; [done|].
  destruct (Z.eqb_spec (m s) 0) as [E|E].
  - intros [= <-]. rewrite Z.add_0_r. split_and!; [lia|lia|done|intros k Hk; lia].
  - intros (r' & H & ->)%fmap_Some. apply IH in H as (H1 & H2 & H3).
    replace (s + Z.succ r') with (s + 1 + r') by lia. split_and!; [lia|lia|done|].
    intros k Hk. destruct (decide (k = 0)) as [->|]; [by rewrite Z.add_0_r|].
    replace (s + k) with (s + 1 + (k - 1)) by lia. apply H3. lia.
Qed.

Lemma scan_nul_none m s n : scan_nul m s n = None -> forall k, 0 <= k < Z.of_nat n -> m (s + k) <> 0.
Proof.
  revert s. induction n as [|n IH]; intros s; cbn [scan_nul]; [intros _ k Hk; lia|].
  destruct (Z.eqb_spec (m s) 0) as [E|E]; [done|]. intros H%fmap_None k Hk.
  destruct (decide (k = 0)) as [->|]; [by rewrite Z.add_0_r|].
  replace (s + k) with (s + 1 + (k - 1)) by lia. apply (IH _ H). lia.
Qed.

(** A process whose memory is below the kernel. *)
Definition uproc_ok (p : uproc) : Prop := 0 <= u_sz p <= KERNBASE /\ mem_ok (u_mem p).

(** C36: argstr accepts exactly the pointers below the size of the process at
    which a NUL follows within its memory, and returns the length up to the
    first NUL; the argument word itself must lie in the process. *)
Theorem argstr_sound p n : uproc_ok p ->
  match argstr p n with
  | Some (a, len) => 0 <= a /\ 0 <= len /\ a + len < u_sz p /\ u_mem p (a + len) = 0 /\
      (forall k, 0 <= k < len -> u_mem p (a + k) <> 0) /\
      u32 (u_esp p + 4 + 4 * n) + 4 <= u_sz p /\ a = ld32 (u_mem p) (u32 (u_esp p + 4 + 4 * n))
  | None => u_sz p < u32 (u_esp p + 4 + 4 * n) + 4 \/
      (let a := ld32 (u_mem p) (u32 (u_esp p + 4 + 4 * n)) in forall k, a <= k < u_sz p -> u_mem p k <> 0)
  end.
Proof.
  intros [Hsz Hm]. unfold argstr, argint, fetchint. set (w := u32 (u_esp p + 4 + 4 * n)).
  assert (Hw : 0 <= w < 4294967296) by apply u32_range. unfold KERNBASE in Hsz.
  destruct ((w >=? u_sz p) || (u32 (w + 4) >? u_sz p)) eqn:E.
  - left. apply orb_true_iff in E as [E|E].
    + rewrite Z.geb_leb in E. apply Z.leb_le in E. lia.
    + rewrite Z.gtb_ltb in E. apply Z.ltb_lt in E. destruct (Z_lt_le_dec (w + 4) 4294967296); [rewrite u32_id in E; lia|lia].
  - apply orb_false_iff in E as [E1 E2]. rewrite Z.geb_leb in E1. apply Z.leb_gt in E1.
    rewrite Z.gtb_ltb in E2. apply Z.ltb_ge in E2. rewrite u32_id in E2 by lia.
    pose proof (ld32_range (u_mem p) w Hm) as Ha.
    assert (Ea : u32 (s32 (ld32 (u_mem p) w)) = ld32 (u_mem p) w).
    { unfold u32, s32. rewrite Zminus_mod, Z.mod_mod, <- Zminus_mod by lia.
      replace (ld32 (u_mem p) w + 2147483648 - 2147483648) with (ld32 (u_mem p) w) by lia. by apply Z.mod_small. }
    rewrite Ea. set (a := ld32 (u_mem p) w) in *. unfold fetchstr.
    destruct (a >=? u_sz p) eqn:E3; [right; intros k Hk; rewrite Z.geb_leb in E3; apply Z.leb_le in E3; lia|].
    rewrite Z.geb_leb in E3. apply Z.leb_gt in E3. destruct (scan_nul (u_mem p) a (Z.to_nat (u_sz p - a))) as [r|] eqn:Es; cbn [fmap option_fmap option_map].
    + apply scan_nul_spec in Es as (H1 & H2 & H3). split_and!; [lia|lia|lia|done|done|lia|done].
    + right. intros k Hk. pose proof (scan_nul_none _ _ _ Es (k - a) ltac:(lia)) as H. by replace (a + (k - a)) with k in H by lia.
Qed.

(** For a size that is not negative, argptr accepts a pointer exactly when
    the block lies within the process.  A negative size wraps around: it is
    accepted for every pointer from [-size] up to the process size, so the
    caller of read() or write() gets past the check with a length of -1. *)
Theorem argptr_size p n i size : uproc_ok p -> argint p n = Some i ->
  let v := u32 i in
  (0 <= size < 2147483648 -> argptr p n size = if decide (v < u_sz p /\ v + size <= u_sz p) then Some v else None) /\
  (-2147483648 <= size < 0 -> - size <= v < u_sz p -> argptr p n size = Some v).
Proof.
  intros [Hsz _] Hi v. unfold argptr. rewrite Hi. fold v. pose proof (u32_range i) as Hv. fold v in Hv. unfold KERNBASE in Hsz. split.
  - intros Hs. destruct (Z.geb_spec v (u_sz p)); cbn [orb].
    + by rewrite decide_False by lia.
    + rewrite u32_id by lia. destruct (Z.gtb_spec (v + size) (u_sz p)); [by rewrite decide_False by lia|by rewrite decide_True by lia].
  - intros Hs Hr. destruct (Z.geb_spec v (u_sz p)); [lia|]. cbn [orb]. rewrite u32_id by lia.
    destruct (Z.gtb_spec (v + size) (u_sz p)); [lia|done].
Qed.

Module ArgDemo.
(** A process of 100 bytes: at 80 its stack (a return address and the
    arguments 60 and 50) and at 60 the string "hi". *)
Definition m (a : Z) : Z := if a =? 84 then 60 else if a =? 88 then 50 else if a =? 60 then 104 else if a =? 61 then 105 else 0.
Definition p : uproc := mkuproc 100 m 80 0 [] 0 false 3.
Lemma p_ok : uproc_ok p.
Proof. split; [vm_compute; split; discriminate|]. intros a. unfold byte_ok. change (u_mem p a) with (m a). unfold m. repeat case_match; lia. Qed.
End ArgDemo.

Lemma argstr_sound_witness : argstr ArgDemo.p 0 = Some (60, 2) /\ u_mem ArgDemo.p 62 = 0.
Proof.
  assert (E : argstr ArgDemo.p 0 = Some (60, 2)) by (vm_compute; reflexivity). split; [exact E|].
  pose proof (argstr_sound ArgDemo.p 0 ArgDemo.p_ok) as H. rewrite E in H. destruct H as (_ & _ & _ & H & _). exact H.
Defined.

Lemma argptr_size_witness : argptr ArgDemo.p 0 40 = Some 60 /\ argptr ArgDemo.p 0 41 = None /\ argptr ArgDemo.p 0 (-1) = Some 60.
Proof.
  destruct (argptr_size ArgDemo.p 0 60 40 ArgDemo.p_ok) as [H _]; [vm_compute; reflexivity|].
  destruct (argptr_size ArgDemo.p 0 60 41 ArgDemo.p_ok) as [H' _]; [vm_compute; reflexivity|].
  destruct (argptr_size ArgDemo.p 0 60 (-1) ArgDemo.p_ok) as [_ H'']; [vm_compute; reflexivity|].
  rewrite H, H', H''; [done|lia|vm_compute; done|lia|lia].
Defined.
