(* ===== verification/Proc.v ===== *)
(** * Processes (proc.c)

    The process table over a lower layer [K] (memory, files, inodes), which is
    named by [ProcLow].  A [struct proc *] is an index into the table and
    [me] the current process of the CPU that runs the routine.  The routines
    that give up the CPU end in the state they hand to the scheduler; what
    they do when they run again is the [..._resume] part. *)

From S2P Require Import Prelude.
From S2P Require Import Params.
From S2P Require Import Cstr.
From S2P Require Import Mmu.
From S2P Require Import Spinlock.
From S2P Require Import Cpu.

Inductive procstate := UNUSED | EMBRYO | SLEEPING | RUNNABLE | RUNNING | ZOMBIE.

#[export] Instance procstate_eq_dec : EqDecision procstate.
Proof. solve_decision. Defined.

(** struct trapframe *)
Record trapframe := mktf {
  tf_edi : Z; tf_esi : Z; tf_ebp : Z; tf_oesp : Z; tf_ebx : Z; tf_edx : Z; tf_ecx : Z; tf_eax : Z;
  tf_gs : Z; tf_fs : Z; tf_es : Z; tf_ds : Z; tf_trapno : Z;
  tf_err : Z; tf_eip : Z; tf_cs : Z; tf_eflags : Z; tf_esp : Z; tf_ss : Z
}.
Definition zero_tf : trapframe := mktf 0 0 0 0 0 0 0 0 0 0 0 0 0 0 0 0 0 0 0.

(** struct context *)
Record context := mkctx { cx_edi : Z; cx_esi : Z; cx_ebx : Z; cx_ebp : Z; cx_eip : Z }.

(** struct proc *)
Record proc := mkproc {
  p_sz : Z;
  p_pgdir : Z;
  p_kstack : Z;
  p_state : procstate;
  p_pid : Z;
  p_parent : option nat;
  p_tf : trapframe;
  p_ctx : context;
  p_chan : option chan;
  p_killed : Z;
  p_ofile : list (option nat);
  p_cwd : option nat;
  p_name : list Z
}.

Definition noproc : proc :=
  mkproc 0 0 0 UNUSED 0 None zero_tf (mkctx 0 0 0 0 0) None 0 (replicate NOFILE None) None (replicate 16 0).

Definition set_pstate (x : procstate) (p : proc) : proc :=
  mkproc (p_sz p) (p_pgdir p) (p_kstack p) x (p_pid p) (p_parent p) (p_tf p) (p_ctx p) (p_chan p) (p_killed p)
    (p_ofile p) (p_cwd p) (p_name p).
Definition set_kstack (k : Z) (p : proc) : proc :=
  mkproc (p_sz p) (p_pgdir p) k (p_state p) (p_pid p) (p_parent p) (p_tf p) (p_ctx p) (p_chan p) (p_killed p)
    (p_ofile p) (p_cwd p) (p_name p).
Definition set_parent (q : option nat) (p : proc) : proc :=
  mkproc (p_sz p) (p_pgdir p) (p_kstack p) (p_state p) (p_pid p) q (p_tf p) (p_ctx p) (p_chan p) (p_killed p)
    (p_ofile p) (p_cwd p) (p_name p).
Definition set_chan (c : option chan) (p : proc) : proc :=
  mkproc (p_sz p) (p_pgdir p) (p_kstack p) (p_state p) (p_pid p) (p_parent p) (p_tf p) (p_ctx p) c (p_killed p)
    (p_ofile p) (p_cwd p) (p_name p).
Definition set_killed (k : Z) (p : proc) : proc :=
  mkproc (p_sz p) (p_pgdir p) (p_kstack p) (p_state p) (p_pid p) (p_parent p) (p_tf p) (p_ctx p) (p_chan p) k
    (p_ofile p) (p_cwd p) (p_name p).
Definition set_files (o : list (option nat)) (c : option nat) (p : proc) : proc :=
  mkproc (p_sz p) (p_pgdir p) (p_kstack p) (p_state p) (p_pid p) (p_parent p) (p_tf p) (p_ctx p) (p_chan p) (p_killed p)
    o c (p_name p).
Definition set_vm (sz pgdir : Z) (p : proc) : proc :=
  mkproc sz pgdir (p_kstack p) (p_state p) (p_pid p) (p_parent p) (p_tf p) (p_ctx p) (p_chan p) (p_killed p)
    (p_ofile p) (p_cwd p) (p_name p).
Definition set_tf (t : trapframe) (p : proc) : proc :=
  mkproc (p_sz p) (p_pgdir p) (p_kstack p) (p_state p) (p_pid p) (p_parent p) t (p_ctx p) (p_chan p) (p_killed p)
    (p_ofile p) (p_cwd p) (p_name p).
Definition set_name (n : list Z) (p : proc) : proc :=
  mkproc (p_sz p) (p_pgdir p) (p_kstack p) (p_state p) (p_pid p) (p_parent p) (p_tf p) (p_ctx p) (p_chan p) (p_killed p)
    (p_ofile p) (p_cwd p) n.
Definition set_ctx (c : context) (p : proc) : proc :=
  mkproc (p_sz p) (p_pgdir p) (p_kstack p) (p_state p) (p_pid p) (p_parent p) (p_tf p) c (p_chan p) (p_killed p)
    (p_ofile p) (p_cwd p) (p_name p).
Definition set_pid (n : Z) (p : proc) : proc :=
  mkproc (p_sz p) (p_pgdir p) (p_kstack p) (p_state p) n (p_parent p) (p_tf p) (p_ctx p) (p_chan p) (p_killed p)
    (p_ofile p) (p_cwd p) (p_name p).
Definition set_eax (v : Z) (t : trapframe) : trapframe :=
  mktf (tf_edi t) (tf_esi t) (tf_ebp t) (tf_oesp t) (tf_ebx t) (tf_edx t) (tf_ecx t) v (tf_gs t) (tf_fs t) (tf_es t)
    (tf_ds t) (tf_trapno t) (tf_err t) (tf_eip t) (tf_cs t) (tf_eflags t) (tf_esp t) (tf_ss t).

(** What proc.c calls in the other parts of the kernel. *)
Class ProcLow (K : Type) := {
  l_kalloc : M K Z;
  l_kfree : Z -> M K unit;
  l_setupkvm : M K Z;
  l_inituvm : Z -> M K unit;                 (* initcode into a page table *)
  l_copyuvm : Z -> Z -> M K Z;
  l_freevm : Z -> M K unit;
  l_allocuvm : Z -> Z -> Z -> M K Z;
  l_deallocuvm : Z -> Z -> Z -> M K Z;
  l_switchuvm : Z -> Z -> M K unit;          (* page table and kernel stack *)
  l_filedup : nat -> M K nat;
  l_fileclose : nat -> M K unit;
  l_idup : nat -> M K nat;
  l_begin_op : M K unit;
  l_iput : nat -> M K unit;
  l_end_op : M K unit;
  l_namei : list Z -> M K (option nat);
  l_fsinit : M K unit;                       (* iinit and initlog in forkret *)
  l_mem : K -> mem
}.

Record pstate (K : Type) := mkps {
  ptab : list proc;
  nextpid : Z;
  initproc : option nat;
  sched_trace_enabled : Z;
  first : bool;                              (* static int first of forkret *)
  pout : list (Z * string * list Z);         (* cprintf: a pid with what else it prints *)
  low : K
}.
Arguments mkps {K}.
Arguments ptab {K}.
Arguments nextpid {K}.
Arguments initproc {K}.
Arguments sched_trace_enabled {K}.
Arguments first {K}.
Arguments pout {K}.
Arguments low {K}.

Section Proc.
Context {K : Type} {L : ProcLow K} (forkret_addr : Z).
Implicit Types s : pstate K.

Definition upd (p : nat) (f : proc -> proc) s : pstate K :=
  mkps (alter f p (ptab s)) (nextpid s) (initproc s) (sched_trace_enabled s) (first s) (pout s) (low s).
Definition set_ptab (t : list proc) s : pstate K :=
  mkps t (nextpid s) (initproc s) (sched_trace_enabled s) (first s) (pout s) (low s).
Definition set_nextpid (n : Z) s : pstate K :=
  mkps (ptab s) n (initproc s) (sched_trace_enabled s) (first s) (pout s) (low s).
Definition set_initproc (p : option nat) s : pstate K :=
  mkps (ptab s) (nextpid s) p (sched_trace_enabled s) (first s) (pout s) (low s).
Definition set_first (b : bool) s : pstate K :=
  mkps (ptab s) (nextpid s) (initproc s) (sched_trace_enabled s) b (pout s) (low s).
Definition pprint (pid : Z) (msg : string) (xs : list Z) s : pstate K :=
  mkps (ptab s) (nextpid s) (initproc s) (sched_trace_enabled s) (first s) (pout s ++ [(pid, msg, xs)]) (low s).
Definition set_low (k : K) s : pstate K :=
  mkps (ptab s) (nextpid s) (initproc s) (sched_trace_enabled s) (first s) (pout s) k.
Definition getp s (p : nat) : proc := nth p (ptab s) noproc.
Definition lw {A} (m : M K A) : M (pstate K) A := lift low set_low m.

(** safestrcpy(old, t, 16) on a name. *)
Definition copy_name (old : list Z) (t : list Z) : list Z :=
  let c := cstr (fun i => nth i t 0) 15 in
  if (length c <? 15)%nat then c ++ [0; 0] ++ drop (length c + 2) old else c ++ [0].

(** switchuvm *)
Definition switch_to (x : proc) : M (pstate K) unit :=
  if p_pgdir x =? 0 then panic "switchuvm: no pgdir" else lw (l_switchuvm (p_pgdir x) (p_kstack x)).

Definition allocproc : M (pstate K) (option nat) :=
  t <- gets ptab ;;
  match list_find (fun p => p_state p = UNUSED) t with
  | None => ret None
  | Some (p, _) =>
      n <- gets nextpid ;;
      modify (upd p (fun x => set_pid n (set_pstate EMBRYO x))) ;;;
      modify (set_nextpid (s32 (n + 1))) ;;;
      k <- lw l_kalloc ;;
      modify (upd p (set_kstack k)) ;;;
      if k =? 0 then modify (upd p (set_pstate UNUSED)) ;;; ret None
      else
        modify (upd p (set_ctx (mkctx 0 0 0 0 forkret_addr))) ;;;
        ret (Some p)
  end.

(** A failed allocproc leaves a null pointer, which faults. *)
Definition userinit : M (pstate K) unit :=
  r <- allocproc ;;
  match r with
  | None => panic "trap"
  | Some p =>
      modify (set_initproc (Some p)) ;;;
      d <- lw l_setupkvm ;;
      modify (upd p (fun x => set_vm (p_sz x) d x)) ;;;
      if d =? 0 then panic "userinit: out of memory?"
      else
        lw (l_inituvm d) ;;;
        modify (upd p (set_vm PGSIZE d)) ;;;
        let ds := Z.lor (Z.shiftl SEG_UDATA 3) DPL_USER in
        modify (upd p (set_tf (mktf 0 0 0 0 0 0 0 0 0 0 ds ds 0 0 0 (Z.lor (Z.shiftl SEG_UCODE 3) DPL_USER) FL_IF PGSIZE ds))) ;;;
        modify (upd p (fun x => set_name (copy_name (p_name x) [105; 110; 105; 116; 99; 111; 100; 101]) x)) ;;;
        c <- lw (l_namei [47]) ;;
        modify (upd p (fun x => set_files (p_ofile x) c x)) ;;;
        modify (upd p (set_pstate RUNNABLE))
  end.

Definition growproc (me : nat) (n : Z) : M (pstate K) Z :=
  x <- gets (fun s => getp s me) ;;
  sz <- (if n >? 0 then lw (l_allocuvm (p_pgdir x) (p_sz x) (u32 (p_sz x + n)))
         else if n <? 0 then lw (l_deallocuvm (p_pgdir x) (p_sz x) (u32 (p_sz x + n)))
         else ret (p_sz x)) ;;
  if negb (n =? 0) && (sz =? 0) then ret (-1)
  else
    modify (upd me (set_vm sz (p_pgdir x))) ;;;
    switch_to x ;;;
    ret 0.

(** [for(i = 0; i < NOFILE; i++)] of fork: the child's descriptors; an empty
    slot of the parent leaves the child's as it is. *)
Fixpoint dup_files (os cs : list (option nat)) : M (pstate K) (list (option nat)) :=
  match os, cs with
  | o :: os', c :: cs' =>
      o' <- match o with Some f => g <- lw (l_filedup f) ;; ret (Some g) | None => ret c end ;;
      r <- dup_files os' cs' ;;
      ret (o' :: r)
  | _, _ => ret cs
  end.

(** fork once it has a new entry [np]. *)
Definition fork_into (me np : nat) : M (pstate K) Z :=
  x <- gets (fun s => getp s me) ;;
  d <- lw (l_copyuvm (p_pgdir x) (p_sz x)) ;;
  modify (upd np (fun y => set_vm (p_sz y) d y)) ;;;
  if d =? 0 then
    y <- gets (fun s => getp s np) ;;
    lw (l_kfree (p_kstack y)) ;;;
    modify (upd np (set_kstack 0)) ;;;
    modify (upd np (set_pstate UNUSED)) ;;;
    ret (-1)
  else
    modify (upd np (fun y => set_tf (set_eax 0 (p_tf x)) (set_parent (Some me) (set_vm (p_sz x) d y)))) ;;;
    y <- gets (fun s => getp s np) ;;
    o <- dup_files (p_ofile x) (p_ofile y) ;;
    modify (upd np (fun y => set_files o (p_cwd y) y)) ;;;
    c <- (match p_cwd x with Some ip => j <- lw (l_idup ip) ;; ret (Some j) | None => ret None end) ;;
    modify (upd np (fun y => set_files (p_ofile y) c y)) ;;;
    modify (upd np (fun y => set_name (copy_name (p_name y) (p_name x)) y)) ;;;
    pid <- gets (fun s => p_pid (getp s np)) ;;
    modify (upd np (set_pstate RUNNABLE)) ;;;
    ret pid.

Definition fork (me : nat) : M (pstate K) Z :=
  r <- allocproc ;;
  match r with
  | None => ret (-1)
  | Some np => fork_into me np
  end.

(** ** Sleeping and waking *)

Definition wakeup1 (c : chan) s : pstate K :=
  set_ptab (List.map (fun p => if bool_decide (p_state p = SLEEPING) && bool_decide (p_chan p = Some c)
                               then set_pstate RUNNABLE p else p) (ptab s)) s.

Definition wakeup (c : chan) : M (pstate K) unit := modify (wakeup1 c).

(** sched on a CPU in state [c] that holds ptable.lock iff [h]: it panics or
    passes the CPU to the scheduler. *)
Definition sched (h : bool) (c : cpu) (me : nat) : M (pstate K) unit :=
  x <- gets (fun s => p_state (getp s me)) ;;
  if negb h then panic "sched ptable.lock"
  else if negb (ncli c =? 1) then panic "sched locks"
  else if bool_decide (x = RUNNING) then panic "sched running"
  else if test (eflags c) FL_IF then panic "sched interruptible"
  else ret tt.

(** sleep, up to sched; [lk] says whether a lock was passed. *)
Definition sleep (h : bool) (c : cpu) (me : option nat) (lk : bool) (ch : chan) : M (pstate K) unit :=
  match me with
  | None => panic "sleep"
  | Some me =>
      if negb lk then panic "sleep without lk"
      else
        modify (upd me (set_chan (Some ch))) ;;;
        modify (upd me (set_pstate SLEEPING)) ;;;
        sched h c me
  end.
Definition sleep_resume (me : nat) : M (pstate K) unit := modify (upd me (set_chan None)).

Definition yield (h : bool) (c : cpu) (me : nat) : M (pstate K) unit :=
  t <- gets sched_trace_enabled ;;
  (if negb (t =? 0) then pid <- gets (fun s => p_pid (getp s me)) ;; modify (pprint pid "[%d]" []) else ret tt) ;;;
  modify (upd me (set_pstate RUNNABLE)) ;;;
  sched h c me.

(** ** exit and wait *)

Definition close_files (me : nat) : M (pstate K) unit :=
  each (seq 0 NOFILE) (fun fd =>
    x <- gets (fun s => getp s me) ;;
    match nth fd (p_ofile x) None with
    | Some f =>
        lw (l_fileclose f) ;;;
        modify (upd me (fun x => set_files (<[fd := None]> (p_ofile x)) (p_cwd x) x))
    | None => ret tt
    end).

(** "Pass abandoned children to init." *)
Definition abandon (me : nat) : M (pstate K) unit :=
  each (seq 0 NPROC) (fun p =>
    x <- gets (fun s => getp s p) ;;
    i <- gets initproc ;;
    if bool_decide (p_parent x = Some me) then
      modify (upd p (set_parent i)) ;;;
      if bool_decide (p_state x = ZOMBIE) then match i with Some i => modify (wakeup1 (ChProc i)) | None => ret tt end
      else ret tt
    else ret tt).

(** exit, up to sched; it does not return. *)
Definition exit (h : bool) (c : cpu) (me : nat) : M (pstate K) unit :=
  i <- gets initproc ;;
  if bool_decide (i = Some me) then panic "init exiting"
  else
    close_files me ;;;
    lw l_begin_op ;;;
    x <- gets (fun s => getp s me) ;;
    (match p_cwd x with Some ip => lw (l_iput ip) | None => ret tt end) ;;;
    lw l_end_op ;;;
    modify (upd me (fun x => set_files (p_ofile x) None x)) ;;;
    q <- gets (fun s => p_parent (getp s me)) ;;
    (match q with Some q => modify (wakeup1 (ChProc q)) | None => ret tt end) ;;;
    abandon me ;;;
    modify (upd me (set_pstate ZOMBIE)) ;;;
    sched h c me.

Definition is_child (me : nat) (p : proc) : bool := bool_decide (p_parent p = Some me).
Definition is_zombie (p : proc) : bool := bool_decide (p_state p = ZOMBIE).

Definition reap (p : nat) : M (pstate K) Z :=
  x <- gets (fun s => getp s p) ;;
  lw (l_kfree (p_kstack x)) ;;;
  modify (upd p (set_kstack 0)) ;;;
  lw (l_freevm (p_pgdir x)) ;;;
  modify (upd p (fun y => set_killed 0 (set_name (<[0%nat := 0]> (p_name y)) (set_parent None (set_pid 0 (set_pstate UNUSED y)))))) ;;;
  ret (p_pid x).

(** One round of wait's loop: [Some] its return value, [None] when it sleeps on
    the process itself, to go round again when woken. *)
Definition wait (h : bool) (c : cpu) (me : nat) : M (pstate K) (option Z) :=
  t <- gets ptab ;;
  match list_find (fun p => is_child me p && is_zombie p = true) t with
  | Some (p, _) => r <- reap p ;; ret (Some r)
  | None =>
      x <- gets (fun s => getp s me) ;;
      if negb (existsb (is_child me) t) || negb (p_killed x =? 0) then ret (Some (-1))
      else sleep h c (Some me) true (ChProc me) ;;; ret None
  end.

(** ** Scheduler *)

(** The first RUNNABLE process from index [i] on. *)
Definition sched_next (i : nat) (t : list proc) : option nat :=
  (fun r => (i + fst r)%nat) <$> list_find (fun p => p_state p = RUNNABLE) (drop i t).

(** The inner loop of scheduler from index [i] on: switch to the next process
    to run, or come to the end of the table. *)
Definition scheduler_pick (i : nat) : M (pstate K) (option nat) :=
  t <- gets ptab ;;
  match sched_next i t with
  | None => ret None
  | Some p =>
      x <- gets (fun s => getp s p) ;;
      switch_to x ;;;
      modify (upd p (set_pstate RUNNING)) ;;;
      ret (Some p)
  end.

(** The next process the CPU runs after the one at index [i - 1]: at the end
    of the table the outer loop starts again from the beginning; [None] when
    no process is runnable, and the CPU halts until an interrupt. *)
Definition scheduler_round (i : nat) : M (pstate K) (option nat) :=
  r <- scheduler_pick i ;;
  match r with
  | Some p => ret (Some p)
  | None => scheduler_pick 0
  end.

Definition forkret : M (pstate K) unit :=
  b <- gets first ;;
  if b : bool then modify (set_first false) ;;; lw l_fsinit else ret tt.

(** ** kill and procdump *)

Definition kill (pid : Z) : M (pstate K) Z :=
  t <- gets ptab ;;
  match list_find (fun p => p_pid p = pid) t with
  | None => ret (-1)
  | Some (p, x) =>
      modify (upd p (set_killed 1)) ;;;
      (if bool_decide (p_state x = SLEEPING) then modify (upd p (set_pstate RUNNABLE)) else ret tt) ;;;
      ret 0
  end.

Definition state_name (x : procstate) : string :=
  match x with
  | UNUSED => "unused" | EMBRYO => "embryo" | SLEEPING => "sleep " | RUNNABLE => "runble" | RUNNING => "run   " | ZOMBIE => "zombie"
  end.

(** The program counters printed: up to the first 0. *)
Fixpoint until0 (l : list Z) : list Z :=
  match l with
  | [] => []
  | x :: l' => if x =? 0 then [] else x :: until0 l'
  end.

Definition procdump : M (pstate K) unit :=
  t <- gets ptab ;;
  each t (fun p =>
    match p_state p with
    | UNUSED => ret tt
    | st =>
        m <- gets (fun s => l_mem (low s)) ;;
        modify (pprint (p_pid p) (state_name st)
                  (p_name p ++ match st with SLEEPING => until0 (getcallerpcs m (cx_ebp (p_ctx p) + 8)) | _ => [] end))
    end).
End Proc.
