(* ===== verification/ProcSpec.v ===== *)
(** * Processes: the tree, exit and wait, scheduling

    [tree_ok] says that pids are unique and that every process but init has a
    parent that can still run, so that every zombie can be waited for.  It
    holds in every state reachable by the operations of proc.c. *)

From S2P Require Import Prelude.
From S2P Require Import Params.
From S2P Require Import Mmu.
From S2P Require Import Spinlock.
From S2P Require Import Proc.

Definition active (x : procstate) : bool :=
  match x with SLEEPING | RUNNABLE | RUNNING => true | _ => false end.

Section Tree.
Context {K : Type} {L : ProcLow K} (forkret_addr : Z).
Implicit Types s : pstate K.

Definition st s p : procstate := p_state (getp s p).
Definition pid s p : Z := p_pid (getp s p).
Definition par s p : option nat := p_parent (getp s p).

Record tree_ok s : Prop := {
  to_len : length (ptab s) = NPROC;
  to_init : exists i, initproc s = Some i /\ (i < NPROC)%nat /\ active (st s i) = true;
  to_par : forall p, (p < NPROC)%nat -> st s p <> UNUSED -> st s p <> EMBRYO -> initproc s <> Some p ->
    exists q, par s p = Some q /\ (q < NPROC)%nat /\ active (st s q) = true;
  to_none : forall p, (p < NPROC)%nat -> st s p = UNUSED -> par s p = None;
  to_pid : forall p, (p < NPROC)%nat -> st s p <> UNUSED -> 0 < pid s p < nextpid s;
  to_uniq : forall p q, (p < NPROC)%nat -> (q < NPROC)%nat -> st s p <> UNUSED -> st s q <> UNUSED ->
    pid s p = pid s q -> p = q;
  to_next : 0 < nextpid s < 2147483647
}.

(** A state that shows the same processes. *)
Definition same_view s s' : Prop :=
  length (ptab s') = length (ptab s) /\ nextpid s' = nextpid s /\ initproc s' = initproc s /\
  forall p, st s' p = st s p /\ pid s' p = pid s p /\ par s' p = par s p.

Lemma tree_same s s' : same_view s s' -> tree_ok s -> tree_ok s'.
Proof.
  intros (E0 & E1 & E2 & E) [H1 H2 H3 H4 H5 H6 H7].
  assert (A : forall p, st s' p = st s p) by apply E. assert (C : forall p, pid s' p = pid s p) by apply E.
  assert (D : forall p, par s' p = par s p) by apply E. split.
  - by rewrite E0.
  - destruct H2 as (i & Hi). exists i. by rewrite E2, A.
  - intros p. rewrite A, E2, D. intros Hp Hu He Hn. destruct (H3 p Hp Hu He Hn) as (q & Hq). exists q. by rewrite A.
  - intros p. rewrite A, D. apply H4.
  - intros p. rewrite A, C, E1. apply H5.
  - intros p q. rewrite !A, !C. apply H6.
  - by rewrite E1.
Qed.

Lemma getp_upd s p f q : (p < length (ptab s))%nat -> getp (upd p f s) q = if decide (q = p) then f (getp s p) else getp s q.
Proof.
  intros Hp. unfold getp, upd. cbn. destruct (lookup_lt_is_Some_2 (ptab s) p Hp) as [x Hx]. rewrite !nth_lookup.
  case_decide as E; [subst; by rewrite list_lookup_alter_eq, Hx|by rewrite list_lookup_alter_ne].
Qed.

Lemma upd_beyond s p f : (length (ptab s) <= p)%nat -> ptab (upd p f s) = ptab s.
Proof.
  intros Hp. cbn. apply list_eq. intros i. destruct (decide (i = p)) as [->|]; [|by rewrite list_lookup_alter_ne].
  by rewrite list_lookup_alter_eq, lookup_ge_None_2.
Qed.

(** An update of the other fields. *)
Definition quiet_upd (f : proc -> proc) : Prop := forall x, p_state (f x) = p_state x /\ p_pid (f x) = p_pid x /\ p_parent (f x) = p_parent x.

Lemma upd_view s p f : quiet_upd f -> same_view s (upd p f s).
Proof.
  intros Hf. split; [cbn; apply length_alter|]. split; [done|]. split; [done|]. intros q. unfold st, pid, par.
  destruct (decide (p < length (ptab s))%nat) as [Hp|Hp].
  - rewrite getp_upd by done. case_decide; [subst; apply Hf|done].
  - unfold getp. rewrite upd_beyond by lia. done.
Qed.

Lemma low_view s k : same_view s (set_low k s).
Proof. done. Qed.

Lemma lw_keeps {A} (m : M K A) (P : pstate K -> Prop) : (forall s k, P s -> P (set_low k s)) -> hoare P (lw m) (fun _ => P).
Proof. intros H s Hs. unfold lw, lift. destruct (m (low s)); [by apply H|done|done]. Qed.

Lemma lw_tree {A} (m : M K A) : hoare tree_ok (lw m) (fun _ => tree_ok).
Proof. apply lw_keeps. intros s k. by apply tree_same. Qed.

Lemma upd_tree p f : quiet_upd f -> hoare tree_ok (modify (upd p f)) (fun _ => tree_ok).
Proof. intros Hf. apply hoare_modify. intros s. by apply tree_same, upd_view. Qed.

(** ** Changing the state of a process *)

Lemma st_upd s p x q : (p < length (ptab s))%nat -> st (upd p (set_pstate x) s) q = if decide (q = p) then x else st s q.
Proof. intros Hp. unfold st. rewrite getp_upd by done. by case_decide. Qed.

(** A state that differs only in which active state a process is in. *)
Definition act_view s s' : Prop :=
  length (ptab s') = length (ptab s) /\ nextpid s' = nextpid s /\ initproc s' = initproc s /\
  forall p, pid s' p = pid s p /\ par s' p = par s p /\ (st s' p = st s p \/ active (st s p) = true /\ active (st s' p) = true).

Lemma tree_act s s' : act_view s s' -> tree_ok s -> tree_ok s'.
Proof.
  intros (E0 & E1 & E2 & E) [H1 H2 H3 H4 H5 H6 H7].
  assert (C : forall p, pid s' p = pid s p) by apply E. assert (D : forall p, par s' p = par s p) by apply E.
  assert (Ha : forall p, active (st s p) = true -> active (st s' p) = true).
  { intros p Hp. destruct (E p) as (_ & _ & [->|[_ ?]]); done. }
  assert (Hx : forall p x, active x = false -> st s' p <> x -> st s p <> x).
  { intros p x Hx Hn Hp. destruct (E p) as (_ & _ & [Ep|[Hp' _]]); [congruence|]. rewrite Hp in Hp'. congruence. }
  split.
  - by rewrite E0.
  - destruct H2 as (i & Hi & Hn & Hia). exists i. rewrite E2. auto.
  - intros p Hp Hu He. rewrite E2, D. intros Hn.
    destruct (H3 p Hp (Hx _ UNUSED eq_refl Hu) (Hx _ EMBRYO eq_refl He) Hn) as (q & Hq & Hqn & Hqa). exists q. auto.
  - intros p Hp Hu. rewrite D. apply H4; [done|]. destruct (E p) as (_ & _ & [<-|[_ Ha']]); [done|]. by rewrite Hu in Ha'.
  - intros p Hp Hu. rewrite C, E1. apply H5; [done|]. by apply (Hx _ UNUSED).
  - intros p q Hp Hq Hu Hv. rewrite !C. apply H6; [done|done|by apply (Hx _ UNUSED)|by apply (Hx _ UNUSED)].
  - by rewrite E1.
Qed.

Lemma pid_upd s p x q : pid (upd p (set_pstate x) s) q = pid s q.
Proof.
  unfold pid. destruct (decide (p < length (ptab s))%nat) as [Hp|Hp]; [rewrite getp_upd by done; by case_decide; subst|].
  unfold getp. by rewrite upd_beyond by lia.
Qed.
Lemma par_upd s p x q : par (upd p (set_pstate x) s) q = par s q.
Proof.
  unfold par. destruct (decide (p < length (ptab s))%nat) as [Hp|Hp]; [rewrite getp_upd by done; by case_decide; subst|].
  unfold getp. by rewrite upd_beyond by lia.
Qed.

Lemma upd_act s p x : active (st s p) = true -> active x = true -> act_view s (upd p (set_pstate x) s).
Proof.
  intros Ha Hx. split; [cbn; apply length_alter|]. split; [done|]. split; [done|]. intros q.
  rewrite pid_upd, par_upd. split_and!; [done|done|]. destruct (decide (p < length (ptab s))%nat) as [Hp|Hp].
  - rewrite st_upd by done. case_decide; [subst; by right|by left].
  - left. unfold st, getp. by rewrite upd_beyond by lia.
Qed.

(** ** wakeup *)

Definition wakes (c : chan) (x : proc) : bool := bool_decide (p_state x = SLEEPING) && bool_decide (p_chan x = Some c).

Lemma getp_wakeup c s p : getp (wakeup1 c s) p = if wakes c (getp s p) then set_pstate RUNNABLE (getp s p) else getp s p.
Proof.
  unfold getp, wakeup1. cbn [set_ptab ptab].
  change noproc with (if wakes c noproc then set_pstate RUNNABLE noproc else noproc) at 1.
  exact (map_nth (fun p => if wakes c p then set_pstate RUNNABLE p else p) (ptab s) noproc p).
Qed.

Lemma wakeup_act c s : act_view s (wakeup1 c s).
Proof.
  split; [cbn; apply length_map|]. split; [done|]. split; [done|]. intros p. unfold pid, par, st. rewrite getp_wakeup.
  destruct (wakes c (getp s p)) eqn:E; [|by split_and!; [..|left]]. split_and!; [done|done|right].
  apply andb_true_iff in E as [E%bool_decide_eq_true _]. rewrite E. done.
Qed.

Lemma wakeup_tree c : hoare tree_ok (modify (wakeup1 c)) (fun _ => tree_ok).
Proof. apply hoare_modify. intros s. apply tree_act, wakeup_act. Qed.

(** ** allocproc and fork *)

(** A new process: unused becomes embryo with the next pid. *)
Lemma embryo_tree s p : tree_ok s -> (p < NPROC)%nat -> st s p = UNUSED -> nextpid s < 2147483646 ->
  tree_ok (set_nextpid (s32 (nextpid s + 1)) (upd p (fun x => set_pid (nextpid s) (set_pstate EMBRYO x)) s)).
Proof.
  intros [H1 H2 H3 H4 H5 H6 H7] Hp Hu Hn. set (s' := set_nextpid _ _). assert (Hl : (p < length (ptab s))%nat) by lia.
  assert (Hg : forall q, getp s' q = if decide (q = p) then set_pid (nextpid s) (set_pstate EMBRYO (getp s p)) else getp s q).
  { intros q. change (getp s' q) with (getp (upd p (fun x => set_pid (nextpid s) (set_pstate EMBRYO x)) s) q). by apply getp_upd. }
  assert (Hst : forall q, st s' q = if decide (q = p) then EMBRYO else st s q) by (intros q; unfold st; rewrite Hg; by case_decide).
  assert (Hpid : forall q, pid s' q = if decide (q = p) then nextpid s else pid s q) by (intros q; unfold pid; rewrite Hg; by case_decide).
  assert (Hpar : forall q, par s' q = par s q) by (intros q; unfold par; rewrite Hg; by case_decide; subst).
  assert (Hne : forall q, active (st s q) = true -> q <> p) by (intros q Hq ->; by rewrite Hu in Hq).
  assert (En : nextpid s' = nextpid s + 1) by (cbn; apply s32_id; lia).
  split.
  - cbn. by rewrite length_alter.
  - destruct H2 as (i & Hi & Hin & Hia). exists i. rewrite Hst, decide_False by auto. done.
  - intros q Hq. rewrite Hst, Hpar. case_decide; [done|]. intros Hqu Hqe Hqi. destruct (H3 q Hq Hqu Hqe Hqi) as (r & Hr & Hrn & Hra).
    exists r. rewrite Hst, decide_False by auto. done.
  - intros q Hq. rewrite Hst, Hpar. case_decide; [done|auto].
  - intros q Hq. rewrite Hst, Hpid, En. case_decide; [lia|]. intros Hqu. specialize (H5 q Hq Hqu). lia.
  - intros q r Hq Hr. rewrite !Hst, !Hpid. repeat case_decide; intros Hqu Hru E; try congruence; auto.
    + specialize (H5 r Hr Hru). lia.
    + specialize (H5 q Hq Hqu). lia.
  - rewrite En. lia.
Qed.

(** Back from embryo to unused. *)
Lemma unembryo_tree s p : tree_ok s -> (p < NPROC)%nat -> st s p = EMBRYO -> par s p = None -> tree_ok (upd p (set_pstate UNUSED) s).
Proof.
  intros [H1 H2 H3 H4 H5 H6 H7] Hp Hu Hn. assert (Hl : (p < length (ptab s))%nat) by lia.
  assert (Hst : forall q, st (upd p (set_pstate UNUSED) s) q = if decide (q = p) then UNUSED else st s q) by (intros q; by apply st_upd).
  assert (Hne : forall q, active (st s q) = true -> q <> p) by (intros q Hq ->; by rewrite Hu in Hq). split.
  - cbn. by rewrite length_alter.
  - destruct H2 as (i & Hi & Hin & Hia). exists i. rewrite Hst, decide_False by auto. done.
  - intros q Hq. rewrite Hst, par_upd. case_decide; [done|]. intros Hqu Hqe Hqi. destruct (H3 q Hq Hqu Hqe Hqi) as (r & Hr & Hrn & Hra).
    exists r. rewrite Hst, decide_False by auto. done.
  - intros q Hq. rewrite Hst, par_upd. case_decide; [by subst|auto].
  - intros q Hq. rewrite Hst, pid_upd. case_decide; [done|auto].
  - intros q r Hq Hr. rewrite !Hst, !pid_upd. repeat case_decide; try done. auto.
  - done.
Qed.
(** ** Operations as a whole *)

Definition respects (P : pstate K -> Prop) : Prop := forall s s', same_view s s' -> P s -> P s'.

Lemma lw_respects {A} (m : M K A) P : respects P -> hoare P (lw m) (fun _ => P).
Proof. intros HP. apply lw_keeps. intros s k. by apply HP. Qed.
Lemma upd_respects p f P : respects P -> quiet_upd f -> hoare P (modify (upd p f)) (fun _ => P).
Proof. intros HP Hf. apply hoare_modify. intros s. by apply HP, upd_view. Qed.

(** [np] is an embryo whose parent is [q]. *)
Definition born (np : nat) (q : option nat) s : Prop :=
  tree_ok s /\ (np < NPROC)%nat /\ st s np = EMBRYO /\ par s np = q /\
  match q with Some me => active (st s me) = true /\ (me < NPROC)%nat | None => True end.

Lemma born_respects np q : respects (born np q).
Proof.
  intros s s' Hv (H1 & H2 & H3 & H4 & H5). split; [by apply (tree_same s)|]. destruct Hv as (_ & _ & _ & E).
  destruct (E np) as (-> & _ & ->). split_and!; try done. destruct q as [me|]; [|done]. destruct (E me) as (-> & _). done.
Qed.
Lemma tree_respects : respects tree_ok.
Proof. intros s s'. apply tree_same. Qed.

Lemma quiet_kstack k : quiet_upd (set_kstack k).
Proof. done. Qed.

Lemma allocproc_tree (P : pstate K -> Prop) : respects P ->
  (forall s p, P s -> tree_ok s -> st s p = UNUSED -> (p < NPROC)%nat ->
     P (set_nextpid (s32 (nextpid s + 1)) (upd p (fun x => set_pid (nextpid s) (set_pstate EMBRYO x)) s))) ->
  (forall s p, P s -> st s p = EMBRYO -> P (upd p (set_pstate UNUSED) s)) ->
  hoare (fun s => tree_ok s /\ nextpid s < 2147483646 /\ P s) (allocproc forkret_addr)
    (fun r s => P s /\ match r with Some p => born p None s | None => tree_ok s end).
Proof.
  intros HP Halloc Hfree s (Ht & Hn & Hs). unfold allocproc. unfold bind at 1, gets at 1.
  destruct (list_find _ (ptab s)) as [[p x]|] eqn:E; [|by split].
  apply list_find_Some in E as (Hx & Hu & _). pose proof (lookup_lt_Some _ _ _ Hx) as Hl. rewrite (to_len _ Ht) in Hl.
  assert (Hst : st s p = UNUSED) by (unfold st, getp; by rewrite nth_lookup, Hx).
  unfold bind at 1, gets at 1. unfold bind at 1, modify at 1. unfold bind at 1, modify at 1.
  set (s1 := set_nextpid _ _). assert (Hb : born p None s1 /\ P s1).
  { split; [|by apply Halloc]. split; [by apply embryo_tree|]. split_and!; [done| | |done].
    - unfold st, s1. change (getp (set_nextpid _ ?u) p) with (getp u p). rewrite getp_upd by (rewrite (to_len _ Ht); done).
      by rewrite decide_True.
    - unfold par, s1. change (getp (set_nextpid _ ?u) p) with (getp u p). rewrite getp_upd by (rewrite (to_len _ Ht); done).
      rewrite decide_True by done. exact (to_none _ Ht p Hl Hst). }
  revert Hb. generalize s1. clear s1 s Ht Hn Hs x Hx Hu Hst.
  assert (HB : respects (fun s => born p None s /\ P s)).
  { intros s s' Hv [H1 H2]. split; [by eapply born_respects|by eapply HP]. }
  apply (hoare_seq _ _ _ (fun s => born p None s /\ P s)); [by apply lw_respects|]. intros k.
  apply (hoare_seq _ _ _ (fun s => born p None s /\ P s)); [by apply upd_respects|]. intros _.
  destruct (k =? 0).
  - apply (hoare_seq _ _ _ (fun s => P s /\ tree_ok s)); [|intros _; by apply hoare_ret].
    apply hoare_modify. intros s ((H1 & H2 & H3 & H4 & _) & H5).
    split; [by apply Hfree|by apply unembryo_tree].
  - eapply hoare_seq; [by apply upd_respects|]. intros _. apply hoare_ret. intros s [H1 H2]. done.
Qed.

(** Setting the parent of an embryo. *)
Lemma adopt_tree s np me f : born np None s -> active (st s me) = true -> (me < NPROC)%nat ->
  (forall x, p_state (f x) = p_state x /\ p_pid (f x) = p_pid x /\ p_parent (f x) = Some me) -> born np (Some me) (upd np f s).
Proof.
  intros (Ht & Hnp & He & _ & _) Ha Hme Hf. destruct (Ht) as [H1 H2 H3 H4 H5 H6 H7]. assert (Hl : (np < length (ptab s))%nat) by lia.
  assert (Hst : forall q, st (upd np f s) q = st s q) by (intros q; unfold st; rewrite getp_upd by done; case_decide; [subst; apply Hf|done]).
  assert (Hpid : forall q, pid (upd np f s) q = pid s q) by (intros q; unfold pid; rewrite getp_upd by done; case_decide; [subst; apply Hf|done]).
  assert (Hpar : forall q, par (upd np f s) q = if decide (q = np) then Some me else par s q) by (intros q; unfold par; rewrite getp_upd by done; case_decide; [subst; apply Hf|done]).
  split; [split|].
  - cbn. by rewrite length_alter.
  - destruct H2 as (i & Hi & Hin & Hia). exists i. by rewrite Hst.
  - intros q Hq. rewrite Hst, Hpar. case_decide; [subst; congruence|]. intros A1 A2 A3. destruct (H3 q Hq A1 A2 A3) as (r & Hr).
    exists r. by rewrite Hst.
  - intros q Hq. rewrite Hst, Hpar. case_decide; [subst; congruence|auto].
  - intros q Hq. rewrite Hst, Hpid. auto.
  - intros q r Hq Hr. rewrite !Hst, !Hpid. auto.
  - done.
  - rewrite Hst, Hst, Hpar, decide_True by done. done.
Qed.

(** The embryo becomes runnable. *)
Lemma run_tree s np me : born np (Some me) s -> tree_ok (upd np (set_pstate RUNNABLE) s).
Proof.
  intros (Ht & Hnp & He & Hp & Ha & Hme). destruct (Ht) as [H1 H2 H3 H4 H5 H6 H7]. assert (Hl : (np < length (ptab s))%nat) by lia.
  assert (Hst : forall q, st (upd np (set_pstate RUNNABLE) s) q = if decide (q = np) then RUNNABLE else st s q) by (intros q; by apply st_upd).
  assert (Hact : forall q, active (st s q) = true -> active (st (upd np (set_pstate RUNNABLE) s) q) = true).
  { intros q Hq. rewrite Hst. by case_decide. }
  assert (Hu : forall q, st (upd np (set_pstate RUNNABLE) s) q <> UNUSED -> st s q <> UNUSED).
  { intros q. rewrite Hst. case_decide; [subst; congruence|done]. } split.
  - cbn. by rewrite length_alter.
  - destruct H2 as (i & Hi & Hin & Hia). exists i. auto.
  - intros q Hq A1 A2 A3. rewrite par_upd. rewrite Hst in A2. case_decide.
    + subst q. exists me. auto.
    + destruct (H3 q Hq (Hu _ A1) A2 A3) as (r & Hr & Hrn & Hra). exists r. auto.
  - intros q Hq. rewrite Hst, par_upd. case_decide; [done|auto].
  - intros q Hq A. rewrite pid_upd. apply H5; auto.
  - intros q r Hq Hr A C. rewrite !pid_upd. auto.
  - done.
Qed.
Definition live (me : nat) s : Prop := active (st s me) = true /\ (me < NPROC)%nat.

Lemma live_respects me : respects (live me).
Proof. intros s s' (_ & _ & _ & E) [H1 H2]. split; [|done]. by destruct (E me) as (-> & _). Qed.

Lemma live_other me s p f : tree_ok s -> p <> me -> live me s -> live me (upd p f s).
Proof.
  intros Ht Hne [Ha Hm]. split; [|done]. unfold st in *. destruct (decide (p < length (ptab s))%nat).
  - rewrite getp_upd, decide_False by done. done.
  - unfold getp. by rewrite upd_beyond by lia.
Qed.

Lemma allocproc_live me : hoare (fun s => tree_ok s /\ nextpid s < 2147483646 /\ live me s) (allocproc forkret_addr)
  (fun r s => live me s /\ match r with Some p => born p None s | None => tree_ok s end).
Proof.
  apply allocproc_tree; [apply live_respects| |].
  - intros s p Hl Ht Hu Hp. assert (Hne : p <> me) by (intros ->; destruct Hl as [Ha _]; by rewrite Hu in Ha).
    exact (live_other me s p (fun x => set_pid (nextpid s) (set_pstate EMBRYO x)) Ht Hne Hl).
  - intros s p [Ha Hm] He. split; [|done]. assert (Hne : p <> me) by (intros ->; by rewrite He in Ha).
    unfold st in *. destruct (decide (p < length (ptab s))%nat).
    + rewrite getp_upd, decide_False by done. done.
    + unfold getp. by rewrite upd_beyond by lia.
Qed.

Lemma dup_files_keeps P os cs : respects P -> hoare P (dup_files os cs) (fun _ => P).
Proof.
  intros HP. revert cs. induction os as [|o os IH]; intros cs; cbn [dup_files]; [by apply hoare_ret|].
  destruct cs as [|c cs]; [by apply hoare_ret|]. apply (hoare_seq _ _ _ P).
  - destruct o as [f|]; [|by apply hoare_ret]. apply (hoare_seq _ _ _ P); [by apply lw_respects|]. intros g. by apply hoare_ret.
  - intros o'. apply (hoare_seq _ _ _ P); [apply IH|]. intros r. by apply hoare_ret.
Qed.

Ltac keep := repeat first
  [ apply hoare_ret; by auto
  | apply lw_respects; by auto
  | apply upd_respects; [by auto|done]
  | apply hoare_gets; by auto
  | match goal with |- hoare ?P (bind _ _) _ => apply (hoare_seq _ _ P P); [|intros ?] end
  | apply hoare_panic
  | case_match ].

Lemma fork_tree me : hoare (fun s => tree_ok s /\ nextpid s < 2147483646 /\ live me s) (fork forkret_addr me) (fun _ => tree_ok).
Proof.
  unfold fork, fork_into. eapply hoare_bind; [apply allocproc_live|]. intros [np|]; cbv beta iota; [|apply hoare_ret; by intros s [_ ?]].
  set (P := fun s => live me s /\ born np None s).
  assert (HP : respects P) by (intros s s' Hv [H1 H2]; split; [by eapply live_respects|by eapply born_respects]).
  apply (hoare_seq _ _ _ P); [by apply hoare_gets|]. intros x. apply (hoare_seq _ _ _ P); [by apply lw_respects|]. intros d.
  apply (hoare_seq _ _ _ P); [by apply upd_respects|]. intros _. destruct (d =? 0).
  - apply (hoare_seq _ _ _ P); [by apply hoare_gets|]. intros y. apply (hoare_seq _ _ _ P); [by apply lw_respects|]. intros _.
    apply (hoare_seq _ _ _ P); [by apply upd_respects|]. intros _.
    apply (hoare_seq _ _ _ tree_ok); [|intros _; by apply hoare_ret]. apply hoare_modify.
    intros s (_ & H1 & H2 & H3 & H4 & _). by apply unembryo_tree.
  - pose proof (born_respects np (Some me)) as HB. apply (hoare_seq _ _ _ (born np (Some me))).
    { apply hoare_modify. intros s [[Ha Hm] Hb]. by apply adopt_tree. }
    intros _. apply (hoare_seq _ _ _ (born np (Some me))); [by apply hoare_gets|]. intros y.
    apply (hoare_seq _ _ _ (born np (Some me))); [by apply dup_files_keeps|]. intros o.
    apply (hoare_seq _ _ _ (born np (Some me))); [by apply upd_respects|]. intros _.
    apply (hoare_seq _ _ _ (born np (Some me))); [by keep|]. intros c.
    apply (hoare_seq _ _ _ (born np (Some me))); [by apply upd_respects|]. intros _.
    apply (hoare_seq _ _ _ (born np (Some me))); [by apply upd_respects|]. intros _.
    apply (hoare_seq _ _ _ (born np (Some me))); [by apply hoare_gets|]. intros pd.
    apply (hoare_seq _ _ _ tree_ok); [|intros _; by apply hoare_ret]. apply hoare_modify. intros s. apply run_tree.
Qed.

(** ** exit *)

Lemma hoare_each_seq P (body : nat -> M (pstate K) unit) a n : (forall i, hoare P (body i) (fun _ => P)) ->
  hoare P (each (seq a n) body) (fun _ => P).
Proof.
  intros H. revert a. induction n as [|n IH]; intros a; cbn [seq each]; [by apply hoare_ret|].
  eapply hoare_seq; [apply H|]. intros _. apply IH.
Qed.

(** A running process that is not init. *)
Definition leaving (me : nat) s : Prop := tree_ok s /\ live me s /\ initproc s <> Some me.

Lemma leaving_respects me : respects (leaving me).
Proof.
  intros s s' Hv (H1 & H2 & H3). split; [by eapply tree_same|]. split; [by eapply live_respects|].
  by destruct Hv as (_ & _ & -> & _).
Qed.

Lemma close_files_keeps me P : respects P -> hoare P (close_files me) (fun _ => P).
Proof. intros HP. apply hoare_each_seq. intros fd. keep. Qed.

Lemma par_set s p o q : (p < length (ptab s))%nat -> par (upd p (set_parent o) s) q = if decide (q = p) then o else par s q.
Proof. intros Hp. unfold par. rewrite getp_upd by done. by case_decide. Qed.
Lemma st_set s p o q : st (upd p (set_parent o) s) q = st s q /\ pid (upd p (set_parent o) s) q = pid s q.
Proof.
  unfold st, pid. destruct (decide (p < length (ptab s))%nat) as [Hp|Hp]; [rewrite getp_upd by done; by case_decide; subst|].
  unfold getp. by rewrite upd_beyond by lia.
Qed.

Lemma reparent_tree s p : tree_ok s -> (p < NPROC)%nat -> st s p <> UNUSED -> tree_ok (upd p (set_parent (initproc s)) s).
Proof.
  intros [H1 H2 H3 H4 H5 H6 H7] Hp Hu. assert (Hl : (p < length (ptab s))%nat) by lia.
  assert (Hst : forall q, st (upd p (set_parent (initproc s)) s) q = st s q) by (intros q; apply st_set).
  assert (Hpid : forall q, pid (upd p (set_parent (initproc s)) s) q = pid s q) by (intros q; apply st_set).
  destruct H2 as (i & Hi & Hin & Hia). split.
  - cbn. by rewrite length_alter.
  - exists i. by rewrite Hst.
  - intros q Hq. rewrite Hst, par_set by done. case_decide; [intros _ _ _; exists i; by rewrite Hst|].
    intros A1 A2 A3. destruct (H3 q Hq A1 A2 A3) as (r & Hr). exists r. by rewrite Hst.
  - intros q Hq. rewrite Hst, par_set by done. case_decide; [by subst|auto].
  - intros q Hq. rewrite Hst, Hpid. auto.
  - intros q r Hq Hr. rewrite !Hst, !Hpid. auto.
  - done.
Qed.

Lemma zombie_tree s me : leaving me s -> (forall p, (p < NPROC)%nat -> par s p <> Some me) -> tree_ok (upd me (set_pstate ZOMBIE) s).
Proof.
  intros ([H1 H2 H3 H4 H5 H6 H7] & [Ha Hme] & Hi) Hno. assert (Hl : (me < length (ptab s))%nat) by lia.
  assert (Hst : forall q, st (upd me (set_pstate ZOMBIE) s) q = if decide (q = me) then ZOMBIE else st s q) by (intros q; by apply st_upd).
  assert (Hu : forall q, st (upd me (set_pstate ZOMBIE) s) q <> UNUSED -> st s q <> UNUSED).
  { intros q. rewrite Hst. case_decide; [|done]. intros _ E. subst. by rewrite E in Ha. } split.
  - cbn. by rewrite length_alter.
  - destruct H2 as (i & Ei & Hin & Hia). exists i. rewrite Hst, decide_False by congruence. done.
  - intros q Hq A1 A2 A3. rewrite par_upd. assert (A2' : st s q <> EMBRYO).
    { rewrite Hst in A2. case_decide; [|done]. intros E. subst. by rewrite E in Ha. }
    destruct (H3 q Hq (Hu _ A1) A2' A3) as (r & Hr & Hrn & Hra). exists r. rewrite Hst, decide_False; [done|].
    intros ->. by apply (Hno q).
  - intros q Hq. rewrite Hst, par_upd. case_decide; [done|auto].
  - intros q Hq A. rewrite pid_upd. apply H5; auto.
  - intros q r Hq Hr A C. rewrite !pid_upd. auto.
  - done.
Qed.
Lemma act_active s s' p : act_view s s' -> active (st s p) = true -> active (st s' p) = true.
Proof. intros (_ & _ & _ & E) Ha. destruct (E p) as (_ & _ & [->|[_ ?]]); done. Qed.

Lemma leaving_act me s s' : act_view s s' -> leaving me s -> leaving me s'.
Proof.
  intros Hv (H1 & [H2 H3] & H4). split; [by eapply tree_act|]. split; [split; [by eapply act_active|done]|].
  by destruct Hv as (_ & _ & -> & _).
Qed.

Definition no_child (me k : nat) s : Prop := leaving me s /\ forall p, (p < k)%nat -> par s p <> Some me.

Lemma no_child_wakeup me k c s : no_child me k s -> no_child me k (wakeup1 c s).
Proof.
  intros [H1 H2]. split; [by eapply leaving_act, H1; apply wakeup_act|]. intros p Hp.
  destruct (wakeup_act c s) as (_ & _ & _ & E). destruct (E p) as (_ & -> & _). auto.
Qed.

Lemma abandon_one me k : (k < NPROC)%nat -> hoare (no_child me k) (
    x <- gets (fun s => getp s k) ;;
    i <- gets initproc ;;
    if bool_decide (p_parent x = Some me) then
      modify (upd k (set_parent i)) ;;;
      if bool_decide (p_state x = ZOMBIE) then match i with Some i => modify (wakeup1 (ChProc i)) | None => ret tt end
      else ret tt
    else ret tt) (fun _ => no_child me (S k)).
Proof.
  intros Hk s [Hl Hn]. unfold bind at 1, gets at 1. unfold bind at 1, gets at 1. fold (par s k).
  destruct (bool_decide (par s k = Some me)) eqn:E.
  - apply bool_decide_eq_true in E. destruct (Hl) as (Ht & Ha & Hi). unfold bind, modify.
    assert (Hu : st s k <> UNUSED) by (intros Hu; rewrite (to_none _ Ht k Hk Hu) in E; done).
    assert (Hkl : (k < length (ptab s))%nat) by (rewrite (to_len _ Ht); done).
    assert (H1 : no_child me (S k) (upd k (set_parent (initproc s)) s)).
    { split; [split; [by apply reparent_tree|split; [|done]]|].
      - destruct Ha as [Ha Hm]. split; [|done]. by destruct (st_set s k (initproc s) me) as [-> _].
      - intros p Hp. rewrite par_set by done. case_decide; [done|]. apply Hn. lia. }
    destruct (bool_decide _); [|exact H1]. destruct (initproc s); [|exact H1]. by apply no_child_wakeup.
  - apply bool_decide_eq_false in E. cbn. split; [done|]. intros p Hp. destruct (decide (p = k)) as [->|]; [done|]. apply Hn. lia.
Qed.

Lemma abandon_keeps me : hoare (leaving me) (abandon me) (fun _ => no_child me NPROC).
Proof.
  unfold abandon. assert (H : forall n a, (a + n = NPROC)%nat -> hoare (no_child me a) (each (seq a n) (fun p =>
    x <- gets (fun s => getp s p) ;;
    i <- gets initproc ;;
    if bool_decide (p_parent x = Some me) then
      modify (upd p (set_parent i)) ;;;
      if bool_decide (p_state x = ZOMBIE) then match i with Some i => modify (wakeup1 (ChProc i)) | None => ret tt end
      else ret tt
    else ret tt)) (fun _ => no_child me NPROC)).
  { induction n as [|n IH]; intros a Ha; cbn [seq each].
    - apply hoare_ret. by replace a with NPROC by lia.
    - eapply hoare_seq; [apply abandon_one; lia|]. intros _. apply IH. lia. }
  eapply hoare_conseq; [by apply (H NPROC 0%nat)| |done]. intros s Hs. split; [done|]. intros p Hp. lia.
Qed.

Lemma sched_keeps h c me (P : pstate K -> Prop) : hoare P (sched h c me) (fun _ => P).
Proof. unfold sched. keep. Qed.

Lemma exit_tree h c me : hoare (fun s => tree_ok s /\ live me s) (exit h c me) (fun _ => tree_ok).
Proof.
  unfold exit. pose proof (leaving_respects me) as HL.
  apply (hoare_bind _ _ _ (fun i s => i = initproc s /\ tree_ok s /\ live me s)); [by apply hoare_gets|]. intros i.
  destruct (bool_decide (i = Some me)) eqn:E; [apply hoare_panic|]. apply bool_decide_eq_false in E.
  apply (hoare_seq _ _ _ (leaving me)).
  { eapply hoare_conseq; [by apply (close_files_keeps me (leaving me))| |done]. intros s (-> & H1 & H2). done. }
  intros _. do 2 (apply (hoare_seq _ _ _ (leaving me)); [by keep|intros ?]).
  do 3 (apply (hoare_seq _ _ _ (leaving me)); [by keep|intros ?]). apply (hoare_seq _ _ _ (leaving me)); [by keep|intros q].
  apply (hoare_seq _ _ _ (leaving me)).
  { destruct q; [|by apply hoare_ret]. apply hoare_modify. intros s. apply leaving_act, wakeup_act. }
  intros _. eapply hoare_seq; [apply abandon_keeps|]. intros _.
  apply (hoare_seq _ _ _ tree_ok); [|intros _; apply sched_keeps].
  apply hoare_modify. intros s [H1 H2]. by apply zombie_tree.
Qed.

(** ** wait *)

Lemma reap_done_tree s p : tree_ok s -> (p < NPROC)%nat -> st s p = ZOMBIE ->
  tree_ok (upd p (fun y => set_killed 0 (set_name (<[0%nat := 0]> (p_name y)) (set_parent None (set_pid 0 (set_pstate UNUSED y))))) s).
Proof.
  intros [H1 H2 H3 H4 H5 H6 H7] Hp Hz. set (f := fun y => _). assert (Hl : (p < length (ptab s))%nat) by lia.
  assert (Hst : forall q, st (upd p f s) q = if decide (q = p) then UNUSED else st s q) by (intros q; unfold st; rewrite getp_upd by done; by case_decide).
  assert (Hpid : forall q, q <> p -> pid (upd p f s) q = pid s q) by (intros q Hq; unfold pid; rewrite getp_upd by done; by rewrite decide_False).
  assert (Hpar : forall q, par (upd p f s) q = if decide (q = p) then None else par s q) by (intros q; unfold par; rewrite getp_upd by done; by case_decide).
  assert (Hne : forall q, active (st s q) = true -> q <> p) by (intros q Hq ->; by rewrite Hz in Hq). split.
  - cbn. by rewrite length_alter.
  - destruct H2 as (i & Hi & Hin & Hia). exists i. rewrite Hst, decide_False by auto. done.
  - intros q Hq. rewrite Hst, Hpar. case_decide; [done|]. intros A1 A2 A3. destruct (H3 q Hq A1 A2 A3) as (r & Hr & Hrn & Hra).
    exists r. rewrite Hst, decide_False by auto. done.
  - intros q Hq. rewrite Hst, Hpar. case_decide; [done|auto].
  - intros q Hq. rewrite Hst. case_decide; [done|]. rewrite Hpid by done. auto.
  - intros q r Hq Hr. rewrite !Hst. repeat case_decide; try done. rewrite !Hpid by done. auto.
  - done.
Qed.

Definition zombie (p : nat) s : Prop := tree_ok s /\ (p < NPROC)%nat /\ st s p = ZOMBIE.

Lemma zombie_respects p : respects (zombie p).
Proof. intros s s' Hv (H1 & H2 & H3). split; [by eapply tree_same|]. split; [done|]. destruct Hv as (_ & _ & _ & E). by destruct (E p) as (-> & _). Qed.

Lemma reap_tree p : hoare (zombie p) (reap p) (fun _ => tree_ok).
Proof.
  unfold reap. pose proof (zombie_respects p) as HZ. apply (hoare_seq _ _ _ (zombie p)); [by keep|]. intros x.
  do 3 (apply (hoare_seq _ _ _ (zombie p)); [by keep|intros _]).
  apply (hoare_seq _ _ _ tree_ok); [|intros _; by apply hoare_ret]. apply hoare_modify. intros s (H1 & H2 & H3). by apply reap_done_tree.
Qed.

Lemma sleep_tree h c me lk ch : hoare (fun s => tree_ok s /\ live me s) (sleep h c (Some me) lk ch) (fun _ => tree_ok).
Proof.
  unfold sleep. destruct (negb lk); [apply hoare_panic|].
  assert (HL : respects (fun s => tree_ok s /\ live me s)) by (intros s s' Hv [H1 H2]; split; [by eapply tree_same|by eapply live_respects]).
  eapply hoare_seq; [by apply upd_respects|]. intros _. apply (hoare_seq _ _ _ tree_ok); [|intros _; apply sched_keeps].
  apply hoare_modify. intros s [H1 [H2 _]]. eapply tree_act, H1. by apply upd_act.
Qed.

Lemma wait_tree h c me : hoare (fun s => tree_ok s /\ live me s) (wait h c me) (fun _ => tree_ok).
Proof.
  intros s [Ht Hl]. unfold wait. unfold bind at 1, gets at 1. destruct (list_find _ (ptab s)) as [[p x]|] eqn:E.
  - apply list_find_Some in E as (Hx & Hz & _). pose proof (lookup_lt_Some _ _ _ Hx) as Hp. rewrite (to_len _ Ht) in Hp.
    apply andb_true_iff in Hz as [_ Hz]. unfold is_zombie in Hz. apply bool_decide_eq_true in Hz.
    assert (H : hoare (zombie p) (r <- reap p ;; ret (Some r)) (fun _ => tree_ok)).
    { eapply hoare_seq; [apply reap_tree|]. intros r. by apply hoare_ret. }
    apply H. split_and!; [done|done|]. unfold st, getp. by rewrite nth_lookup, Hx.
  - unfold bind at 1, gets at 1. destruct (_ || _); [done|].
    assert (H : hoare (fun s => tree_ok s /\ live me s) (sleep h c (Some me) true (ChProc me) ;;; ret None) (fun _ : option Z => tree_ok)).
    { eapply hoare_seq; [apply sleep_tree|]. intros _. by apply hoare_ret. }
    by apply H.
Qed.
(** ** Every interleaving of the operations

    A step is one operation of a running process [me], a wakeup, a kill, or a
    choice of the scheduler.  [s_fork] leaves out the wrap of the pid counter
    after 2^31 forks. *)
Inductive pstep : pstate K -> pstate K -> Prop :=
| s_fork me r s s' : st s me = RUNNING -> nextpid s < 2147483646 -> fork forkret_addr me s = Done r s' -> pstep s s'
| s_exit h c me s s' : st s me = RUNNING -> exit h c me s = Done tt s' -> pstep s s'
| s_wait h c me r s s' : st s me = RUNNING -> wait h c me s = Done r s' -> pstep s s'
| s_sleep h c me ch s s' : st s me = RUNNING -> sleep h c (Some me) true ch s = Done tt s' -> pstep s s'
| s_resume me s s' : sleep_resume me s = Done tt s' -> pstep s s'
| s_yield h c me s s' : st s me = RUNNING -> yield h c me s = Done tt s' -> pstep s s'
| s_grow me n r s s' : growproc me n s = Done r s' -> pstep s s'
| s_wakeup ch s s' : wakeup ch s = Done tt s' -> pstep s s'
| s_kill pd r s s' : kill pd s = Done r s' -> pstep s s'
| s_pick i r s s' : scheduler_pick i s = Done r s' -> pstep s s'.

Lemma running_live s me : tree_ok s -> st s me = RUNNING -> live me s.
Proof.
  intros Ht Hr. split; [by rewrite Hr|]. destruct (decide (me < NPROC)%nat) as [|Hn]; [done|]. exfalso. unfold st, getp in Hr.
  rewrite nth_overflow in Hr; [done|]. rewrite (to_len _ Ht). lia.
Qed.

Lemma yield_tree h c me : hoare (fun s => tree_ok s /\ live me s) (yield h c me) (fun _ => tree_ok).
Proof.
  unfold yield. assert (HL : respects (fun s => tree_ok s /\ live me s)) by (intros s s' Hv [H1 H2]; split; [by eapply tree_same|by eapply live_respects]).
  apply (hoare_seq _ _ _ (fun s => tree_ok s /\ live me s)); [by apply hoare_gets|]. intros t.
  apply (hoare_seq _ _ _ (fun s => tree_ok s /\ live me s)).
  { destruct (negb (t =? 0)); [|by apply hoare_ret]. apply (hoare_seq _ _ _ (fun s => tree_ok s /\ live me s)); [by apply hoare_gets|].
    intros pd. apply hoare_modify. intros s. by apply HL. }
  intros _. apply (hoare_seq _ _ _ tree_ok); [|intros _; apply sched_keeps].
  apply hoare_modify. intros s [H1 [H2 _]]. eapply tree_act, H1. by apply upd_act.
Qed.

Lemma switch_keeps x P : respects P -> hoare P (switch_to x) (fun _ => P).
Proof. intros HP. unfold switch_to. keep. Qed.

Lemma grow_tree me n : hoare tree_ok (growproc me n) (fun _ => tree_ok).
Proof. unfold growproc. pose proof tree_respects. repeat first [apply switch_keeps; done|progress keep]. Qed.

Lemma kill_tree pd : hoare tree_ok (kill pd) (fun _ => tree_ok).
Proof.
  unfold kill. intros s Hs. unfold bind at 1, gets at 1. destruct (list_find _ (ptab s)) as [[p x]|] eqn:E; [|done].
  apply list_find_Some in E as (Hx & _). assert (Ex : getp s p = x) by (unfold getp; by rewrite nth_lookup, Hx).
  unfold bind, modify, ret. destruct (bool_decide (p_state x = SLEEPING)) eqn:Es.
  - apply bool_decide_eq_true in Es. eapply tree_act; [apply upd_act|by eapply tree_same; [apply upd_view|]]; [|done].
    destruct (upd_view s p (set_killed 1)) as (_ & _ & _ & E); [done|]. destruct (E p) as (-> & _). unfold st. by rewrite Ex, Es.
  - by eapply tree_same; [apply upd_view|].
Qed.

Lemma sched_next_spec i t p : sched_next i t = Some p ->
  (i <= p)%nat /\ (exists x, t !! p = Some x /\ p_state x = RUNNABLE) /\
  forall j y, (i <= j < p)%nat -> t !! j = Some y -> p_state y <> RUNNABLE.
Proof.
  unfold sched_next. intros ([k x] & E & ->)%fmap_Some. cbn [fst]. apply list_find_Some in E as (Hx & Hr & Hn).
  rewrite lookup_drop in Hx. split; [lia|]. split; [eauto|]. intros j y Hj Hy. apply (Hn (j - i)%nat y); [|lia].
  rewrite lookup_drop. by replace (i + (j - i))%nat with j by lia.
Qed.

Lemma pick_tree i : hoare tree_ok (scheduler_pick i) (fun _ => tree_ok).
Proof.
  intros s Hs. unfold scheduler_pick. unfold bind at 1, gets at 1. destruct (sched_next i (ptab s)) as [p|] eqn:E; [|done].
  apply sched_next_spec in E as (_ & (x & Hx & Hr) & _).
  set (P := fun s => tree_ok s /\ st s p = RUNNABLE). assert (HP : respects P).
  { intros s1 s2 Hv [H1 H2]. split; [by eapply tree_same|]. destruct Hv as (_ & _ & _ & E). by destruct (E p) as (-> & _). }
  assert (Ps : P s) by (split; [done|]; unfold st, getp; by rewrite nth_lookup, Hx). revert Ps. generalize s. clear s Hs Hx.
  apply (hoare_seq _ _ _ P); [by apply hoare_gets|]. intros y. apply (hoare_seq _ _ _ P); [by apply switch_keeps|]. intros _.
  apply (hoare_seq _ _ _ tree_ok); [|intros _; by apply hoare_ret]. apply hoare_modify. intros s [H1 H2].
  eapply tree_act, H1. apply upd_act; [by rewrite H2|done].
Qed.

Lemma pstep_tree s s' : pstep s s' -> tree_ok s -> tree_ok s'.
Proof.
  intros Hst Ht. destruct Hst as [me r s s' Hr Hn E|h c me s s' Hr E|h c me r s s' Hr E|h c me ch s s' Hr E|me s s' E|h c me s s' Hr E|
    me n r s s' E|ch s s' E|pd r s s' E|i r s s' E]; try (pose proof (running_live s me Ht Hr) as Hl).
  - exact (hoare_elim _ _ _ _ _ _ (fork_tree me) (conj Ht (conj Hn Hl)) E).
  - exact (hoare_elim _ _ _ _ _ _ (exit_tree h c me) (conj Ht Hl) E).
  - exact (hoare_elim _ _ _ _ _ _ (wait_tree h c me) (conj Ht Hl) E).
  - exact (hoare_elim _ _ _ _ _ _ (sleep_tree h c me true ch) (conj Ht Hl) E).
  - exact (hoare_elim _ _ _ _ _ _ (upd_respects me (set_chan None) tree_ok tree_respects ltac:(done)) Ht E).
  - exact (hoare_elim _ _ _ _ _ _ (yield_tree h c me) (conj Ht Hl) E).
  - exact (hoare_elim _ _ _ _ _ _ (grow_tree me n) Ht E).
  - exact (hoare_elim _ _ _ _ _ _ (wakeup_tree ch) Ht E).
  - exact (hoare_elim _ _ _ _ _ _ (kill_tree pd) Ht E).
  - exact (hoare_elim _ _ _ _ _ _ (pick_tree i) Ht E).
Qed.

(** ** The first process *)

Definition boot_table (k : K) : pstate K := mkps (replicate NPROC noproc) 1 None 0 true [] k.

(** Entry 0 is the process being set up. *)
Definition starting (x : procstate) (i : option nat) s : Prop :=
  exists p, ptab s = p :: replicate 63 noproc /\ nextpid s = 2 /\ initproc s = i /\ p_state p = x /\ p_pid p = 1 /\ p_parent p = None.

Lemma starting_low x i {A} (m : M K A) : hoare (starting x i) (lw m) (fun _ => starting x i).
Proof. apply lw_keeps. intros s k (p & H). by exists p. Qed.
Lemma starting_upd x i f : quiet_upd f -> hoare (starting x i) (modify (upd 0 f)) (fun _ => starting x i).
Proof.
  intros Hf. apply hoare_modify. intros s (p & H1 & H2 & H3 & H4 & H5 & H6). exists (f p). destruct (Hf p) as (E1 & E2 & E3).
  cbn [upd ptab nextpid initproc]. rewrite H1, E1, E2, E3. done.
Qed.

Lemma nth_same {A} (x : A) n q : nth q (replicate n x) x = x.
Proof. revert q. induction n as [|n IH]; intros [|q]; cbn; try done. Qed.

Lemma starting_tree s : starting RUNNABLE (Some 0%nat) s -> tree_ok s.
Proof.
  intros (p & H1 & H2 & H3 & H4 & H5 & H6).
  assert (Hg : forall q, getp s q = if decide (q = 0%nat) then p else noproc).
  { intros q. unfold getp. rewrite H1. destruct q as [|q]; [done|]. cbn [nth decide]. rewrite decide_False by done. apply nth_same. }
  assert (Hst : forall q, st s q = if decide (q = 0%nat) then RUNNABLE else UNUSED) by (intros q; unfold st; rewrite Hg; by case_decide).
  split.
  - by rewrite H1.
  - exists 0%nat. rewrite Hst. split_and!; [done|unfold NPROC; lia|done].
  - intros q Hq. rewrite Hst, H3. case_decide; [subst; done|done].
  - intros q Hq. unfold par. rewrite Hst, Hg. by case_decide.
  - intros q Hq. unfold pid. rewrite Hst, Hg, H2. case_decide; [rewrite H5; lia|done].
  - intros q r Hq Hr. rewrite !Hst. repeat case_decide; try done. by subst.
  - rewrite H2. lia.
Qed.

Lemma allocproc_boot k : hoare (fun s => s = boot_table k) (allocproc forkret_addr)
  (fun r s => match r with Some p => p = 0%nat /\ starting EMBRYO None s | None => True end).
Proof.
  unfold allocproc. intros s0 ->. unfold bind at 1, gets at 1. cbn [boot_table ptab].
  assert (El : list_find (fun p => p_state p = UNUSED) (replicate NPROC noproc) = Some (0%nat, noproc)) by reflexivity. rewrite El.
  unfold bind at 1, gets at 1, bind at 1, modify at 1, bind at 1, modify at 1. set (s1 := set_nextpid _ _).
  assert (Hs : starting EMBRYO None s1) by (eexists; split; [reflexivity|]; done). revert Hs. generalize s1. clear s1 El.
  eapply hoare_seq; [apply starting_low|]. intros kk. eapply hoare_seq; [by apply starting_upd|]. intros _. destruct (kk =? 0).
  - apply (hoare_seq _ _ _ (fun _ => True)); [|intros _; by apply hoare_ret]. by apply hoare_modify.
  - eapply hoare_seq; [by apply starting_upd|]. intros _. by apply hoare_ret.
Qed.

Lemma userinit_tree k s : userinit forkret_addr (boot_table k) = Done tt s -> tree_ok s.
Proof.
  intros E. assert (H : hoare (fun s => s = boot_table k) (userinit forkret_addr) (fun _ s => starting RUNNABLE (Some 0%nat) s));
    [|exact (starting_tree _ (hoare_elim _ _ _ _ _ _ H eq_refl E))].
  unfold userinit. eapply hoare_bind; [apply allocproc_boot|]. intros [p|]; [|apply hoare_panic].
  intros s0 [-> Hs]. revert s0 Hs. apply (hoare_seq _ _ _ (starting EMBRYO (Some 0%nat))).
  { apply hoare_modify. intros s0 (p & H1 & H2 & _ & H4). exists p. done. }
  intros _. eapply hoare_seq; [apply starting_low|]. intros d. eapply hoare_seq; [by apply starting_upd|]. intros _.
  destruct (d =? 0); [apply hoare_panic|]. eapply hoare_seq; [apply starting_low|]. intros _.
  do 3 (eapply hoare_seq; [by apply starting_upd|intros _]). eapply hoare_seq; [apply starting_low|]. intros c.
  eapply hoare_seq; [by apply starting_upd|]. intros _. apply hoare_modify.
  intros s0 (p & H1 & H2 & H3 & H4 & H5 & H6). exists (set_pstate RUNNABLE p). cbn [upd ptab nextpid initproc]. rewrite H1. done.
Qed.

End Tree.
