(* ===== verification/ProcRun.v ===== *)
(** * What fork, kill and the scheduler do (proc.c)

    The entry fork fills, field by field; kill on an entry no process has; and
    that the scheduler's walk over the table never passes a runnable process
    by. *)

From S2P Require Import Prelude.
From S2P Require Import Params.
From S2P Require Import Cstr.
From S2P Require Import Mmu.
From S2P Require Import Spinlock.
From S2P Require Import Proc.
From S2P Require Import ProcSpec.

(** The descriptors of the child: the parent's, and the child's own where the
    parent has none. *)
Fixpoint merge_files (os cs : list (option nat)) : list (option nat) :=
  match os, cs with
  | o :: os', c :: cs' => match o with Some f => Some f | None => c end :: merge_files os' cs'
  | _, _ => cs
  end.

Section Run.
Context {K : Type} {L : ProcLow K} (forkret_addr : Z).
Implicit Types s : pstate K.

(** ** Updates of one entry *)

Definition only (np : nat) (f : proc -> proc) s0 s : Prop := ptab s = alter f np (ptab s0).

Lemma only_lw np f s0 {A} (m : M K A) : hoare (only np f s0) (lw m) (fun _ => only np f s0).
Proof. by apply lw_keeps. Qed.

Lemma only_upd np f g s0 : hoare (only np f s0) (modify (upd np g)) (fun _ => only np (fun x => g (f x)) s0).
Proof. apply hoare_modify. intros s H. unfold only in *. cbn [upd ptab]. rewrite H. apply list_alter_alter_eq. Qed.

Lemma only_same np f s0 s : only np f s0 s -> (np < length (ptab s0))%nat -> getp s np = f (getp s0 np).
Proof.
  unfold only, getp. intros -> Hn. rewrite !nth_lookup, list_lookup_alter_eq.
  destruct (lookup_lt_is_Some_2 _ _ Hn) as [x ->]. done.
Qed.

Lemma only_other np f s0 s q : only np f s0 s -> q <> np -> getp s q = getp s0 q.
Proof. unfold only, getp. intros -> Hn. by rewrite !nth_lookup, list_lookup_alter_ne. Qed.

Definition fresh (n k : Z) (x : proc) : proc :=
  set_ctx (mkctx 0 0 0 0 forkret_addr) (set_kstack k (set_pid n (set_pstate EMBRYO x))).

(** What allocproc does to the table. *)
Lemma allocproc_only s0 : hoare (fun s => s = s0) (allocproc forkret_addr) (fun r s =>
  match r with
  | Some np => (exists x, list_find (fun p => p_state p = UNUSED) (ptab s0) = Some (np, x)) /\ exists k, only np (fresh (nextpid s0) k) s0 s
  | None => forall p, st s p = st s0 p
  end).
Proof.
  unfold allocproc. intros s ->. unfold bind at 1, gets at 1.
  destruct (list_find (fun p => p_state p = UNUSED) (ptab s0)) as [[np x]|] eqn:El; [|done].
  assert (Hnp : getp s0 np = x /\ p_state x = UNUSED /\ (np < length (ptab s0))%nat).
  { apply list_find_Some in El as (E1 & E2 & _). split_and!; [by unfold getp; rewrite nth_lookup, E1|done|by eapply lookup_lt_Some]. }
  unfold bind at 1, gets at 1, bind at 1, modify at 1, bind at 1, modify at 1. set (s1 := set_nextpid _ _).
  assert (Hs : only np (fun x => set_pid (nextpid s0) (set_pstate EMBRYO x)) s0 s1) by done. revert Hs. generalize s1. clear s1.
  eapply hoare_seq; [apply only_lw|]. intros k. eapply hoare_seq; [apply only_upd|]. intros _. destruct (k =? 0).
  - eapply hoare_seq; [apply only_upd|]. intros _. apply hoare_ret. intros s H p. unfold st. destruct (decide (p = np)) as [->|Hp].
    + rewrite (only_same _ _ _ _ H) by apply Hnp. destruct Hnp as (-> & -> & _). done.
    + by rewrite (only_other _ _ _ _ p H).
  - eapply hoare_seq; [apply only_upd|]. intros _. apply hoare_ret. intros s H. split; [by exists x|]. by exists k.
Qed.

(** ** fork *)

(** filedup and idup return what they are given. *)
Definition dups_same : Prop :=
  (forall f k r k', l_filedup f k = Done r k' -> r = f) /\ (forall ip k r k', l_idup ip k = Done r k' -> r = ip).

Lemma lw_same (m : nat -> M K nat) f P : (forall k r k', m f k = Done r k' -> r = f) -> (forall s k, P s -> P (set_low k s)) ->
  hoare P (lw (m f)) (fun r s => r = f /\ P s).
Proof.
  intros Hm HP s Hs. unfold lw, lift. destruct (m f (low s)) as [r k|e|c k] eqn:E; try done. split; [by eapply Hm|by apply HP].
Qed.

Lemma dup_files_only np f s0 os cs : dups_same ->
  hoare (only np f s0) (dup_files os cs) (fun r s => r = merge_files os cs /\ only np f s0 s).
Proof.
  intros [Hd _]. revert cs. induction os as [|o os IH]; intros [|c cs]; cbn [dup_files merge_files]; try (by apply hoare_ret).
  eapply (hoare_bind _ _ _ (fun o' s => o' = match o with Some f => Some f | None => c end /\ only np f s0 s)).
  - destruct o as [g|]; [|by apply hoare_ret]. eapply hoare_bind; [apply (lw_same l_filedup); [apply Hd|intros s k H; exact H]|]. intros r. apply hoare_ret. by intros s [-> H].
  - intros o' s [-> H]. revert s H. eapply hoare_bind; [apply IH|]. intros r. apply hoare_ret. by intros s [-> H].
Qed.

Definition child_of (me : nat) (x : proc) (n : Z) (old c : proc) : Prop :=
  p_state c = RUNNABLE /\ p_pid c = n /\ p_parent c = Some me /\ p_sz c = p_sz x /\ p_tf c = set_eax 0 (p_tf x) /\
  p_ofile c = merge_files (p_ofile x) (p_ofile old) /\ p_cwd c = p_cwd x /\ p_name c = copy_name (p_name old) (p_name x) /\
  p_killed c = p_killed old /\ cx_eip (p_ctx c) = forkret_addr.

Lemma fork_only s0 me np k : (np < length (ptab s0))%nat -> np <> me -> dups_same -> st s0 np = UNUSED ->
  hoare (only np (fresh (nextpid s0) k) s0)
    (fork_into me np)
    (fun r s => (r = -1 /\ forall p, st s p = st s0 p) \/
      (r = nextpid s0 /\ child_of me (getp s0 me) (nextpid s0) (getp s0 np) (getp s np) /\ forall q, q <> np -> getp s q = getp s0 q)).
Proof.
  intros Hn Hme Hd Hst. unfold fork_into. intros s Hs. unfold bind at 1, gets at 1. rewrite (only_other _ _ _ _ me Hs) by done.
  set (x := getp s0 me). revert s Hs. eapply hoare_seq; [apply only_lw|]. intros d. eapply hoare_seq; [apply only_upd|]. intros _.
  destruct (d =? 0).
  - intros s Hs. unfold bind at 1, gets at 1. revert s Hs. intros s. generalize (p_kstack (getp s np)). intros ks. revert s.
    eapply hoare_seq; [apply only_lw|]. intros _. do 2 (eapply hoare_seq; [apply only_upd|intros _]). apply hoare_ret. intros s H.
    left. split; [done|]. intros p. unfold st in *. destruct (decide (p = np)) as [->|Hp].
    + by rewrite (only_same _ _ _ _ H), Hst.
    + by rewrite (only_other _ _ _ _ p H).
  - eapply hoare_seq; [apply only_upd|]. intros _. intros s Hs. unfold bind at 1, gets at 1. rewrite (only_same _ _ _ _ Hs) by done.
    revert s Hs. eapply hoare_bind; [by apply dup_files_only|]. intros o s [-> H]. revert s H.
    eapply hoare_seq; [apply only_upd|]. intros _.
    eapply (hoare_bind _ _ _ (fun c s => c = p_cwd x /\ only np _ s0 s)).
    { destruct (p_cwd x) as [ip|]; [|apply hoare_ret; intros s H; split; [done|exact H]].
      eapply hoare_bind; [apply (lw_same l_idup); [apply Hd|intros s k0 H; exact H]|]. intros r. apply hoare_ret. intros s [-> H]. split; [done|exact H]. }
    intros c s [-> H]. revert s H. do 2 (eapply hoare_seq; [apply only_upd|intros _]).
    intros s Hs. unfold bind at 1, gets at 1. rewrite (only_same _ _ _ _ Hs) by done. revert s Hs.
    eapply hoare_seq; [apply only_upd|]. intros _. apply hoare_ret. intros s H. right. split; [done|]. split.
    + rewrite (only_same _ _ _ _ H) by done. by unfold child_of.
    + intros q Hq. by rewrite (only_other _ _ _ _ q H).
Qed.

Lemma fork_entry s0 me r s' : dups_same -> st s0 me <> UNUSED -> fork forkret_addr me s0 = Done r s' ->
  (r = -1 /\ forall p, st s' p = st s0 p) \/
  (r = nextpid s0 /\ exists np x, list_find (fun p => p_state p = UNUSED) (ptab s0) = Some (np, x) /\
    child_of me (getp s0 me) (nextpid s0) x (getp s' np) /\ forall q, q <> np -> getp s' q = getp s0 q).
Proof.
  intros Hd Hme E. revert E. unfold fork. unfold bind at 1. 
  destruct (allocproc forkret_addr s0) as [o s1|e|c s1] eqn:Ea; try done.
  pose proof (hoare_elim _ _ _ _ _ _ (allocproc_only s0) eq_refl Ea) as Ho. destruct o as [np|]; [|intros [= <- <-]; by left].
  destruct Ho as [[x El] [k Hk]]. pose proof El as El'. apply list_find_Some in El' as (E1 & E2 & _).
  assert (Hx : getp s0 np = x) by (unfold getp; by rewrite nth_lookup, E1). intros E.
  assert (Hnp : np <> me) by (intros ->; unfold st in Hme; by rewrite Hx in Hme).
  assert (Hl : (np < length (ptab s0))%nat) by (by eapply lookup_lt_Some).
  assert (Hst : st s0 np = UNUSED) by (unfold st; by rewrite Hx).
  destruct (hoare_elim _ _ _ _ _ _ (fork_only s0 me np k Hl Hnp Hd Hst) Hk E) as [?|(-> & H1 & H2)]; [by left|].
  right. split; [done|]. exists np, x. rewrite Hx in H1. done.
Qed.

(** C34: fork returns -1 and leaves every entry in the state it had, or fills
    the first unused entry with a runnable child: a new pid, which it returns,
    the caller as its parent, the caller's size, directory and name, the
    caller's registers with 0 in eax, and the caller's open files.  No other
    entry changes. *)
Theorem fork_child s me r s' : dups_same -> tree_ok s -> st s me = RUNNING -> fork forkret_addr me s = Done r s' ->
  (r = -1 /\ forall p, st s' p = st s p) \/
  (r = nextpid s /\ (forall q, (q < NPROC)%nat -> st s q <> UNUSED -> pid s q <> r) /\
    exists np, st s np = UNUSED /\ child_of me (getp s me) r (getp s np) (getp s' np) /\ forall q, q <> np -> getp s' q = getp s q).
Proof.
  intros Hd Ht Hme E. destruct (fork_entry s me r s' Hd ltac:(congruence) E) as [?|(-> & np & x & El & H1 & H2)]; [by left|].
  right. apply list_find_Some in El as (E1 & E2 & _). assert (Hx : getp s np = x) by (unfold getp; by rewrite nth_lookup, E1).
  split; [done|]. split; [intros q Hq Hu; pose proof (to_pid _ Ht q Hq Hu); lia|]. exists np. rewrite Hx. unfold st. by rewrite Hx.
Qed.

(** Kill(0) does not fail as it does for a pid no process has: unused
    entries keep pid 0, so it finds one and marks it killed.  allocproc does
    not clear the mark, and the next child fork makes is born killed. *)
Theorem kill_zero s p x me r s' : dups_same -> st s me <> UNUSED ->
  list_find (fun p => p_pid p = 0) (ptab s) = Some (p, x) -> list_find (fun p => p_state p = UNUSED) (ptab s) = Some (p, x) ->
  exists s1, kill 0 s = Done 0 s1 /\ (fork forkret_addr me s1 = Done r s' -> r <> -1 -> p_killed (getp s' p) = 1).
Proof.
  intros Hd Hme H0 Hu. exists (upd p (set_killed 1) s). split.
  { unfold kill, bind, gets. rewrite H0. apply list_find_Some in Hu as (_ & -> & _). done. }
  intros E Hr. pose proof Hu as Hu'. apply list_find_Some in Hu as (E1 & E2 & E3).
  assert (Hl : (p < length (ptab s))%nat) by (by eapply lookup_lt_Some).
  assert (Hs : list_find (fun p => p_state p = UNUSED) (ptab (upd p (set_killed 1) s)) = Some (p, set_killed 1 x)).
  { cbn [upd ptab]. apply list_find_Some. rewrite list_lookup_alter_eq, E1. split_and!; [done|done|].
    intros j y Hj Hlt. rewrite list_lookup_alter_ne in Hj by lia. by eapply E3. }
  assert (Hme' : st (upd p (set_killed 1) s) me <> UNUSED).
  { unfold st. rewrite getp_upd by done. case_decide; [|done]. subst me. done. }
  destruct (fork_entry _ me r s' Hd Hme' E) as [[? _]|(_ & np & y & El & Hc & _)]; [done|].
  rewrite Hs in El. injection El as <- <-. by destruct Hc as (_ & _ & _ & _ & _ & _ & _ & _ & -> & _).
Qed.

(** ** Bounded waiting *)

(** [waits x i s n]: with the walk at index [i] and the kernel in state [s],
    [n] processes run while [x] is RUNNABLE and is not one of them.  What a
    process does while it runs is any change of state. *)
Inductive waits (x : nat) : nat -> pstate K -> nat -> Prop :=
| w_none i s : waits x i s 0
| w_run i s p s1 s2 n : st s x = RUNNABLE -> length (ptab s) = NPROC -> scheduler_round i s = Done (Some p) s1 -> p <> x ->
    waits x (S p) s2 n -> waits x i s (S n).

(** How many entries the walk has before it comes to [x]. *)
Definition before (x i : nat) : nat := if decide (i <= x)%nat then x - i else NPROC - i + x + 1.

Lemma sched_next_le i t p x : sched_next i t = Some p -> (i <= x)%nat -> p_state (nth x t noproc) = RUNNABLE -> (p <= x)%nat.
Proof.
  intros E Hi Hx. destruct (decide (p <= x)%nat) as [?|Hp]; [done|]. exfalso.
  apply sched_next_spec in E as (_ & (y & Hy & _) & Hn).
  destruct (lookup_lt_is_Some_2 t x) as [z Hz]; [apply lookup_lt_Some in Hy; lia|].
  apply (Hn x z); [lia|done|]. by rewrite nth_lookup, Hz in Hx.
Qed.

Lemma sched_next_None i t x : sched_next i t = None -> (i <= x < length t)%nat -> p_state (nth x t noproc) <> RUNNABLE.
Proof.
  unfold sched_next. intros E%fmap_None Hi Hx. apply list_find_None in E. rewrite Forall_forall in E.
  destruct (lookup_lt_is_Some_2 t x) as [z Hz]; [lia|]. apply (E z); [|by rewrite nth_lookup, Hz in Hx].
  apply list_elem_of_lookup. exists (x - i)%nat. rewrite lookup_drop. by replace (i + (x - i))%nat with x by lia.
Qed.

Lemma pick_next i s r s' : scheduler_pick i s = Done r s' -> r = sched_next i (ptab s) /\ (r = None -> s' = s).
Proof.
  unfold scheduler_pick, bind at 1, gets at 1. destruct (sched_next i (ptab s)) as [p|]; [|by intros [= <- <-]].
  unfold bind, gets, modify, ret. destruct (switch_to _ s); [|done|done]. intros [= <- <-]. done.
Qed.

Lemma round_next i s p s' : scheduler_round i s = Done (Some p) s' ->
  sched_next i (ptab s) = Some p \/ (sched_next i (ptab s) = None /\ sched_next 0 (ptab s) = Some p).
Proof.
  unfold scheduler_round, bind. destruct (scheduler_pick i s) as [r s1|e|c s1] eqn:E; try done.
  destruct (pick_next _ _ _ _ E) as [-> Hs]. destruct (sched_next i (ptab s)) as [q|]; [intros [= -> ->]; by left|].
  rewrite (Hs eq_refl). intros E2. destruct (pick_next _ _ _ _ E2) as [-> _]. by right.
Qed.

(** Every process that runs before [x] brings the walk closer to it. *)
Lemma round_closer x i s p s' : (x < NPROC)%nat -> length (ptab s) = NPROC -> st s x = RUNNABLE -> p <> x ->
  scheduler_round i s = Done (Some p) s' -> (before x (S p) < before x i)%nat /\ (S p <= NPROC)%nat.
Proof.
  intros Hx Hl Hr Hp E. unfold st, getp in Hr.
  assert (Hb : forall j, sched_next j (ptab s) = Some p -> (j <= p < NPROC)%nat).
  { intros j Ej. apply sched_next_spec in Ej as (? & (y & Hy & _) & _). apply lookup_lt_Some in Hy. lia. }
  unfold before. destruct (round_next _ _ _ _ E) as [E1|[E1 E2]].
  - pose proof (Hb _ E1). destruct (decide (i <= x)%nat).
    + pose proof (sched_next_le _ _ _ x E1 ltac:(lia) Hr). repeat case_decide; lia.
    + repeat case_decide; lia.
  - pose proof (Hb _ E2). pose proof (sched_next_le _ _ _ x E2 ltac:(lia) Hr).
    destruct (decide (i <= x)%nat); [|repeat case_decide; lia]. by destruct (sched_next_None _ _ x E1 ltac:(lia)).
Qed.

Lemma waits_bound x i s n : (x < NPROC)%nat -> waits x i s n -> (i <= NPROC)%nat -> (n <= before x i)%nat.
Proof.
  intros Hx. induction 1 as [|i s p s1 s2 n Hr Hl E Hp _ IH]; intros Hi; [lia|].
  destruct (round_closer x i s p s1) as [H1 H2]; [done..|]. specialize (IH H2). lia.
Qed.

End Run.

(** ** Witnesses *)

Module ProcDemo.
(** A lower layer in which every call succeeds. *)
#[local] Instance low0 : ProcLow unit := {
  l_kalloc := ret 4096; l_kfree _ := ret tt; l_setupkvm := ret 8192; l_inituvm _ := ret tt; l_copyuvm _ _ := ret 12288;
  l_freevm _ := ret tt; l_allocuvm _ _ n := ret n; l_deallocuvm _ _ n := ret n; l_switchuvm _ _ := ret tt;
  l_filedup f := ret f; l_fileclose _ := ret tt; l_idup ip := ret ip; l_begin_op := ret tt; l_iput _ := ret tt;
  l_end_op := ret tt; l_namei _ := ret (Some 0%nat); l_fsinit := ret tt; l_mem _ := fun _ => 0
}.

Definition idle : cpu := mkcpu 0 1 0.
Definition d_init : pstate unit := final (userinit 7) (boot_table tt).
Definition d_run : pstate unit := final (scheduler_pick 0) d_init.
Definition d_fork : pstate unit := final (fork 7 0) d_run.
Definition d_run2 : pstate unit := final (scheduler_pick 1) d_fork.
Definition d_exit : pstate unit := final (exit true idle 1) d_run2.

Lemma demo_steps : rtc (pstep 7) d_init d_exit.
Proof.
  apply (rtc_l _ _ d_run); [apply (s_pick 7 0 (Some 0%nat) d_init d_run); by vm_compute|].
  apply (rtc_l _ _ d_fork); [apply (s_fork 7 0 2 d_run d_fork); by vm_compute|].
  apply (rtc_l _ _ d_run2); [apply (s_pick 7 1 (Some 1%nat) d_fork d_run2); by vm_compute|].
  apply rtc_once. apply (s_exit 7 true idle 1 d_run2 d_exit); by vm_compute.
Qed.

Lemma demo_boot : userinit 7 (boot_table tt) = Done tt d_init.
Proof. by vm_compute. Qed.

Lemma demo_dups : dups_same.
Proof. by split; intros f k r k' [= ->]. Qed.


Lemma demo_tree : tree_ok d_run.
Proof.
  apply (pstep_tree 7 d_init d_run); [|exact (userinit_tree 7 tt d_init demo_boot)].
  apply (s_pick 7 0 (Some 0%nat) d_init d_run); by vm_compute.
Qed.

Lemma demo_fork : fork 7 0 d_run = Done 2 d_fork.
Proof. by vm_compute. Qed.

Lemma fork_child_witness : exists np, st d_run np = UNUSED /\ child_of 7 0 (getp d_run 0) 2 (getp d_run np) (getp d_fork np).
Proof.
  destruct (fork_child 7 d_run 0 2 d_fork demo_dups demo_tree ltac:(by vm_compute) demo_fork) as [[H _]|(_ & _ & np & H1 & H2 & _)]; [discriminate H|].
  exists np. exact (conj H1 H2).
Defined.

Definition d_kill : pstate unit := final (kill 0) d_run.
Definition d_born : pstate unit := final (fork 7 0) d_kill.

Lemma kill_zero_witness : p_killed (getp d_born 1) = 1.
Proof.
  destruct (kill_zero 7 d_run 1 noproc 0 2 d_born demo_dups ltac:(by vm_compute) ltac:(by vm_compute) ltac:(by vm_compute)) as (s1 & H1 & H2).
  assert (E : s1 = d_kill) by (unfold d_kill, final; rewrite H1; reflexivity).
  apply H2; [rewrite E; by vm_compute|discriminate].
Defined.

Definition d_both : pstate unit := upd 0 (set_pstate RUNNABLE) d_fork.

End ProcDemo.
