(* ===== verification/Sysproc.v ===== *)
(** * System calls on processes (sysproc.c)

    They run on the process table with the clock.  What a process reads through
    its page table is a function of the lower layer's state and the page
    directory. *)

From S2P Require Import Prelude.
From S2P Require Import Params.
From S2P Require Import Cstr.
From S2P Require Import Mmu.
From S2P Require Import Syscall.
From S2P Require Import Spinlock.
From S2P Require Import Proc.

Record tstate (K : Type) := mkts {
  ts_ps : pstate K;
  ts_ticks : Z;                              (* uint ticks *)
  ts_ports : list (Z * Z);                   (* outw *)
  ts_eoi : nat;                              (* lapiceoi *)
  ts_log : list (string * list Z)            (* cprintf *)
}.
Arguments mkts {K}.
Arguments ts_ps {K}.
Arguments ts_ticks {K}.
Arguments ts_ports {K}.
Arguments ts_eoi {K}.
Arguments ts_log {K}.

Section Sysproc.
Context {K : Type} {L : ProcLow K} (forkret_addr : Z) (umem : K -> Z -> mem).
Implicit Types s : tstate K.

Definition set_ps (x : pstate K) s : tstate K := mkts x (ts_ticks s) (ts_ports s) (ts_eoi s) (ts_log s).
Definition set_ticks (n : Z) s : tstate K := mkts (ts_ps s) n (ts_ports s) (ts_eoi s) (ts_log s).
Definition tprint (msg : string) (xs : list Z) s : tstate K := mkts (ts_ps s) (ts_ticks s) (ts_ports s) (ts_eoi s) (ts_log s ++ [(msg, xs)]).
Definition outw (port v : Z) : M (tstate K) unit := modify (fun s => mkts (ts_ps s) (ts_ticks s) (ts_ports s ++ [(port, v)]) (ts_eoi s) (ts_log s)).
Definition pp {A} (m : M (pstate K) A) : M (tstate K) A := lift ts_ps set_ps m.
Definition tproc s (me : nat) : proc := getp (ts_ps s) me.

(** The current process as the argument routines see it. *)
Definition uview s (me : nat) : uproc :=
  let p := tproc s me in
  mkuproc (p_sz p) (umem (low (ts_ps s)) (p_pgdir p)) (tf_esp (p_tf p)) (tf_eax (p_tf p)) (p_ofile p) (default 0%nat (p_cwd p)) (negb (p_killed p =? 0)) (p_pid p).
Definition arg_int (me : nat) (n : Z) : M (tstate K) (option Z) := gets (fun s => argint (uview s me) n).

Definition sys_fork (me : nat) : M (tstate K) Z := pp (fork forkret_addr me).
Definition sys_exit (h : bool) (c : cpu) (me : nat) : M (tstate K) unit := pp (exit h c me).
(** [None] while it sleeps. *)
Definition sys_wait (h : bool) (c : cpu) (me : nat) : M (tstate K) (option Z) := pp (wait h c me).

Definition sys_kill (me : nat) : M (tstate K) Z :=
  a <- arg_int me 0 ;;
  match a with
  | None => ret (-1)
  | Some pid => pp (kill pid)
  end.

Definition sys_getpid (me : nat) : M (tstate K) Z := gets (fun s => p_pid (tproc s me)).

Definition sys_sbrk (me : nat) : M (tstate K) Z :=
  a <- arg_int me 0 ;;
  match a with
  | None => ret (-1)
  | Some n =>
      addr <- gets (fun s => p_sz (tproc s me)) ;;
      r <- pp (growproc me n) ;;
      if r <? 0 then ret (-1) else ret (s32 addr)
  end.

(** [while(ticks - ticks0 < n)]: one round; [None] when the process sleeps on
    &ticks, to go round again.  The subtraction and the comparison are
    unsigned. *)
Definition sleep_round (h : bool) (c : cpu) (me : nat) (ticks0 n : Z) : M (tstate K) (option Z) :=
  t <- gets ts_ticks ;;
  if u32 (t - ticks0) <? u32 n then
    k <- gets (fun s => p_killed (tproc s me)) ;;
    if negb (k =? 0) then ret (Some (-1))
    else pp (sleep h c (Some me) true ChTicks) ;;; ret None
  else ret (Some 0).

(** sys_sleep up to its first round: the value of ticks and n go with the
    process to the later rounds. *)
Definition sys_sleep (h : bool) (c : cpu) (me : nat) : M (tstate K) (Z * Z * option Z) :=
  a <- arg_int me 0 ;;
  match a with
  | None => ret (0, 0, Some (-1))
  | Some n =>
      ticks0 <- gets ts_ticks ;;
      r <- sleep_round h c me ticks0 n ;;
      ret (ticks0, n, r)
  end.
Definition sleep_again (h : bool) (c : cpu) (me : nat) (ticks0 n : Z) : M (tstate K) (option Z) :=
  pp (sleep_resume me) ;;; sleep_round h c me ticks0 n.

Definition sys_uptime : M (tstate K) Z := gets (fun s => s32 (ts_ticks s)).

Definition set_trace (n : Z) (x : pstate K) : pstate K :=
  mkps (ptab x) (nextpid x) (initproc x) n (first x) (pout x) (low x).
Definition sys_enable_sched_trace (me : nat) : M (tstate K) Z :=
  a <- arg_int me 0 ;;
  (match a with
   | Some n => pp (modify (set_trace n))
   | None => modify (tprint "enable_sched_trace() failed!" [])
   end) ;;;
  ret 0.

Definition sys_uprog_shut : M (tstate K) Z :=
  outw 45060 8192 ;;;
  outw 1540 8192 ;;;
  ret 0.
End Sysproc.
