(* ===== verification/Ports.v ===== *)
(** * I/O ports and the variables of the device code

    The devices are not part of the sources: [PortIo] is what the code does to
    ports and to the registers of the local APIC and the I/O APIC, which are
    memory-mapped words.  [devs] has the variables of mp.c, lapic.c, ioapic.c,
    picirq.c and uart.c next to the devices. *)

From S2P Require Import Prelude.
From S2P Require Import Params.
From S2P Require Import Cstr.

Class PortIo (H : Type) := {
  io_in : Z -> H -> Z * H;
  io_out : Z -> Z -> H -> H;
  mm_read : Z -> H -> Z * H;
  mm_write : Z -> Z -> H -> H
}.

Record devs (H : Type) := mkdevs {
  dv_hw : H;
  dv_ids : list Z;                         (* cpus[].id *)
  dv_bcpu : Z;                             (* bcpu - cpus *)
  dv_ismp : bool;
  dv_ncpu : Z;
  dv_ioapicid : Z;
  dv_lapic : Z;
  dv_irqmask : Z;
  dv_uart : bool;
  dv_asked : Z;                            (* the static n of cpunum *)
  dv_out : list (string * list Z)          (* cprintf: the format without its line ends, the arguments *)
}.
Arguments mkdevs {H}.
Arguments dv_hw {H}.
Arguments dv_ids {H}.
Arguments dv_bcpu {H}.
Arguments dv_ismp {H}.
Arguments dv_ncpu {H}.
Arguments dv_ioapicid {H}.
Arguments dv_lapic {H}.
Arguments dv_irqmask {H}.
Arguments dv_uart {H}.
Arguments dv_asked {H}.
Arguments dv_out {H}.

Section Ports.
Context {H : Type} {IO : PortIo H}.
Implicit Types s : devs H.

Definition set_dhw (h : H) s : devs H :=
  mkdevs h (dv_ids s) (dv_bcpu s) (dv_ismp s) (dv_ncpu s) (dv_ioapicid s) (dv_lapic s) (dv_irqmask s) (dv_uart s) (dv_asked s) (dv_out s).
Definition set_ids (l : list Z) s : devs H :=
  mkdevs (dv_hw s) l (dv_bcpu s) (dv_ismp s) (dv_ncpu s) (dv_ioapicid s) (dv_lapic s) (dv_irqmask s) (dv_uart s) (dv_asked s) (dv_out s).
Definition set_bcpu (c : Z) s : devs H :=
  mkdevs (dv_hw s) (dv_ids s) c (dv_ismp s) (dv_ncpu s) (dv_ioapicid s) (dv_lapic s) (dv_irqmask s) (dv_uart s) (dv_asked s) (dv_out s).
Definition set_ismp (b : bool) s : devs H :=
  mkdevs (dv_hw s) (dv_ids s) (dv_bcpu s) b (dv_ncpu s) (dv_ioapicid s) (dv_lapic s) (dv_irqmask s) (dv_uart s) (dv_asked s) (dv_out s).
Definition set_ncpu (n : Z) s : devs H :=
  mkdevs (dv_hw s) (dv_ids s) (dv_bcpu s) (dv_ismp s) n (dv_ioapicid s) (dv_lapic s) (dv_irqmask s) (dv_uart s) (dv_asked s) (dv_out s).
Definition set_ioapicid (i : Z) s : devs H :=
  mkdevs (dv_hw s) (dv_ids s) (dv_bcpu s) (dv_ismp s) (dv_ncpu s) i (dv_lapic s) (dv_irqmask s) (dv_uart s) (dv_asked s) (dv_out s).
Definition set_lapic (a : Z) s : devs H :=
  mkdevs (dv_hw s) (dv_ids s) (dv_bcpu s) (dv_ismp s) (dv_ncpu s) (dv_ioapicid s) a (dv_irqmask s) (dv_uart s) (dv_asked s) (dv_out s).
Definition set_irqmask (v : Z) s : devs H :=
  mkdevs (dv_hw s) (dv_ids s) (dv_bcpu s) (dv_ismp s) (dv_ncpu s) (dv_ioapicid s) (dv_lapic s) v (dv_uart s) (dv_asked s) (dv_out s).
Definition set_uart (b : bool) s : devs H :=
  mkdevs (dv_hw s) (dv_ids s) (dv_bcpu s) (dv_ismp s) (dv_ncpu s) (dv_ioapicid s) (dv_lapic s) (dv_irqmask s) b (dv_asked s) (dv_out s).
Definition set_asked (n : Z) s : devs H :=
  mkdevs (dv_hw s) (dv_ids s) (dv_bcpu s) (dv_ismp s) (dv_ncpu s) (dv_ioapicid s) (dv_lapic s) (dv_irqmask s) (dv_uart s) n (dv_out s).
Definition dprint (msg : string) (xs : list Z) : M (devs H) unit := modify (fun s =>
  mkdevs (dv_hw s) (dv_ids s) (dv_bcpu s) (dv_ismp s) (dv_ncpu s) (dv_ioapicid s) (dv_lapic s) (dv_irqmask s) (dv_uart s) (dv_asked s) (dv_out s ++ [(msg, xs)])).

(** A port is read and written as an unsigned char. *)
Definition d_inb (p : Z) : M (devs H) Z :=
  s <- get ;; modify (set_dhw (snd (io_in p (dv_hw s)))) ;;; ret (fst (io_in p (dv_hw s))).
Definition d_outb (p v : Z) : M (devs H) unit := modify (fun s => set_dhw (io_out p (u8 v) (dv_hw s)) s).
Definition mmio_read (a : Z) : M (devs H) Z :=
  s <- get ;; modify (set_dhw (snd (mm_read a (dv_hw s)))) ;;; ret (fst (mm_read a (dv_hw s))).
Definition mmio_write (a v : Z) : M (devs H) unit := modify (fun s => set_dhw (mm_write a (u32 v) (dv_hw s)) s).
End Ports.
