(* ===== verification/MpSpec.v ===== *)
(** * What mpinit makes of the tables *)

From S2P Require Import Prelude.
From S2P Require Import Params.
From S2P Require Import Cstr.
From S2P Require Import Mmu.
From S2P Require Import Ports.
From S2P Require Import Mp.

(** ** Tables *)

(** The entries of a table. *)
Inductive mpentry :=
| EProc (apicid flags : Z)
| EIoapic (apicno : Z)
| EOther (ty : Z).                         (* bus, interrupt assignments *)

Definition esize (e : mpentry) : Z := match e with EProc _ _ => MPPROC_SZ | _ => 8 end.
Fixpoint esizes (es : list mpentry) : Z := match es with [] => 0 | e :: es' => esize e + esizes es' end.

Definition entry_at (m : mem) (p : Z) (e : mpentry) : Prop :=
  match e with
  | EProc apicid flags => m p = MPPROC /\ m (p + 1) = apicid /\ m (p + 3) = flags
  | EIoapic n => m p = MPIOAPIC /\ m (p + 1) = n
  | EOther ty => m p = ty /\ (ty = MPBUS \/ ty = MPIOINTR \/ ty = MPLINTR)
  end.
Fixpoint entries_at (m : mem) (p : Z) (es : list mpentry) : Prop :=
  match es with
  | [] => True
  | e :: es' => entry_at m p e /\ entries_at m (p + esize e) es'
  end.

(** What the entries say of the machine: the APIC ids of the processors, which
    of them is the one that booted, and the id of the I/O APIC. *)
Definition procs (es : list mpentry) : list (Z * Z) := omap (fun e => match e with EProc a f => Some (a, f) | _ => None end) es.
Definition last_ioapic (es : list mpentry) (d : Z) : Z := fold_left (fun x e => match e with EIoapic n => n | _ => x end) es d.
Fixpoint boot_cpu (ps : list (Z * Z)) (i d : Z) : Z :=
  match ps with
  | [] => d
  | (_, f) :: ps' => boot_cpu ps' (i + 1) (if test f MPBOOT then i else d)
  end.
Fixpoint in_order (ps : list (Z * Z)) (i : Z) : bool :=
  match ps with
  | [] => true
  | (a, _) :: ps' => (i =? a) && in_order ps' (i + 1)
  end.

Lemma esizes_pos es : 0 <= esizes es.
Proof. induction es as [|[] es IH]; cbn; unfold MPPROC_SZ; lia. Qed.

(** ** The loop *)

Section Loop.
Context {H : Type} {IO : PortIo H} (m : mem).
Implicit Types s : devs H.

(** The variables after the entries [es], from [s]. *)
Record read_entries (es : list mpentry) s s' : Prop := {
  re_ncpu : dv_ncpu s' = dv_ncpu s + Z.of_nat (length (procs es));
  re_ismp : dv_ismp s' = dv_ismp s && in_order (procs es) (dv_ncpu s);
  re_bcpu : dv_bcpu s' = boot_cpu (procs es) (dv_ncpu s) (dv_bcpu s);
  re_ioapic : dv_ioapicid s' = last_ioapic es (dv_ioapicid s);
  re_ids : length (dv_ids s') = length (dv_ids s) /\
    forall i, 0 <= i < dv_ncpu s' -> (forall j, 0 <= j < dv_ncpu s -> dv_ids s !! Z.to_nat j = Some j) -> dv_ids s' !! Z.to_nat i = Some i;
  re_rest : dv_hw s' = dv_hw s /\ dv_lapic s' = dv_lapic s /\ dv_irqmask s' = dv_irqmask s
}.

Lemma mp_proc_spec p a f s : m (p + 1) = a -> m (p + 3) = f -> 0 <= dv_ncpu s < Z.of_nat NCPU -> length (dv_ids s) = NCPU ->
  runs (mp_proc m p) s (fun _ s' => read_entries [EProc a f] s s').
Proof.
  intros <- <- Hn Hl. unfold mp_proc, bind, gets, runs. assert (E : (Z.of_nat NCPU <=? dv_ncpu s) = false) by (apply Z.leb_gt; lia).
  destruct (Z.eqb_spec (dv_ncpu s) (m (p + 1))) as [Ea|Ea]; cbn [negb]; unfold dprint, modify, ret;
    destruct (test (m (p + 3)) MPBOOT) eqn:Ef; cbn [dv_ncpu set_bcpu set_ismp]; rewrite E;
    (split; cbn [procs omap list_omap length boot_cpu in_order last_ioapic fold_left dv_ncpu dv_ismp dv_bcpu dv_ioapicid dv_ids dv_hw dv_lapic dv_irqmask set_ncpu set_ids set_bcpu set_ismp];
      [lia|rewrite ?(proj2 (Z.eqb_eq _ _) Ea), ?(proj2 (Z.eqb_neq _ _) Ea), ?andb_true_r, ?andb_false_r; done|by rewrite Ef|done| |done];
      split; [by rewrite length_insert|]; intros i Hi Hids; destruct (decide (i = dv_ncpu s)) as [->|]; [apply list_lookup_insert_eq; lia|rewrite list_lookup_insert_ne by lia; apply Hids; lia]).
Qed.

Lemma read_cons e es s s1 s2 : 0 <= dv_ncpu s -> read_entries [e] s s1 -> read_entries es s1 s2 -> read_entries (e :: es) s s2.
Proof.
  intros H0 [A1 A2 A3 A4 [A5 A5'] A6] [B1 B2 B3 B4 [B5 B5'] B6].
  assert (Hp : procs (e :: es) = procs [e] ++ procs es) by (by destruct e). split.
  - rewrite Hp, length_app. lia.
  - rewrite B2, A2, A1, Hp, <- andb_assoc. f_equal. destruct e; cbn; rewrite ?Z.add_0_r, ?andb_true_r; done.
  - rewrite B3, A3, A1, Hp. destruct e; cbn; rewrite ?Z.add_0_r; done.
  - rewrite B4, A4. by destruct e.
  - split; [congruence|]. intros i Hi Hids. apply B5'; [done|]. intros j Hj. by apply A5'.
  - destruct A6 as (-> & -> & ->) in B6. exact B6.
Qed.

Lemma read_refl s : 0 <= dv_ncpu s -> read_entries [] s s.
Proof.
  intros H0. split; cbn; [lia|by rewrite andb_true_r|done|done| |done]. split; [done|]. auto.
Qed.

(** One known entry. *)
Lemma mpinit_step n p e end_ s : entry_at m p e -> p < end_ -> 0 <= dv_ncpu s -> dv_ncpu s + Z.of_nat (length (procs [e])) <= Z.of_nat NCPU -> length (dv_ids s) = NCPU ->
  exists s1, mpinit_loop m (S n) p end_ s = mpinit_loop m n (p + esize e) end_ s1 /\ read_entries [e] s s1.
Proof.
  intros He Hp H0 Hn Hl. cbn [mpinit_loop]. rewrite (proj2 (Z.ltb_lt _ _) Hp). destruct e as [a f|i|ty]; cbn [entry_at esize] in *.
  - destruct He as (-> & Ha & Hf). change (MPPROC =? MPPROC) with true. cbv iota. cbn in Hn.
    destruct (proj1 (runs_done _ _ _) (mp_proc_spec p a f s Ha Hf ltac:(lia) Hl)) as (? & s1 & E & Hr). unfold bind. rewrite E. by exists s1.
  - destruct He as (-> & <-). change (MPIOAPIC =? MPPROC) with false. change (MPIOAPIC =? MPIOAPIC) with true. cbv iota. unfold bind, modify.
    eexists. split; [done|]. split; cbn; [lia|by rewrite andb_true_r|done|done| |done]. split; [done|]. auto.
  - destruct He as (-> & Hty). exists s. split; [|split; cbn; [lia|by rewrite andb_true_r|done|done| |done]; split; [done|]; auto].
    by destruct Hty as [-> | [-> | ->]].
Qed.

Lemma mpinit_loop_spec es : forall fuel p s, entries_at m p es -> (length es < fuel)%nat -> 0 <= dv_ncpu s ->
  dv_ncpu s + Z.of_nat (length (procs es)) <= Z.of_nat NCPU -> length (dv_ids s) = NCPU ->
  runs (mpinit_loop m fuel p (p + esizes es)) s (fun _ s' => read_entries es s s').
Proof.
  induction es as [|e es IH]; intros [|fuel] p s Hes Hf H0 Hn Hl; cbn [length] in Hf; [lia| |lia|].
  { cbn [mpinit_loop esizes]. rewrite (proj2 (Z.ltb_ge _ _)) by lia. apply runs_ret. by apply read_refl. }
  cbn [entries_at esizes] in *. destruct Hes as [He Hes]. assert (Hp : procs (e :: es) = procs [e] ++ procs es) by (by destruct e). rewrite Hp, length_app in Hn.
  pose proof (esizes_pos es). assert (0 < esize e) by (destruct e; cbn; unfold MPPROC_SZ; lia).
  destruct (mpinit_step fuel p e (p + (esize e + esizes es)) s He ltac:(lia) H0 ltac:(lia) Hl) as (s1 & E & Hr). unfold runs. rewrite E. fold (runs (mpinit_loop m fuel (p + esize e) (p + (esize e + esizes es))) s1 (fun _ s' => read_entries (e :: es) s s')).
  pose proof (re_ncpu _ _ _ Hr) as Hn1. pose proof (proj1 (re_ids _ _ _ Hr)) as Hl1. rewrite Z.add_assoc.
  eapply runs_mono; [apply (IH fuel (p + esize e) s1 Hes); [lia|lia|lia|congruence]|]. cbv beta. intros _ s2 Hr2. by eapply read_cons.
Qed.

(** An entry type mpinit does not know. *)
Definition unknown (ty : Z) : Prop := ty <> MPPROC /\ ty <> MPBUS /\ ty <> MPIOAPIC /\ ty <> MPIOINTR /\ ty <> MPLINTR.

Lemma mpinit_stuck fuel : forall p e s, unknown (m p) -> p < e -> mpinit_loop m fuel p e s = Panic "out of fuel".
Proof.
  induction fuel as [|fuel IH]; intros p e s Hu Hp; [done|]. pose proof Hu as (H1 & H2 & H3 & H4 & H5). cbn [mpinit_loop]. rewrite (proj2 (Z.ltb_lt _ _) Hp).
  apply Z.eqb_neq in H1, H2, H3, H4, H5. rewrite H1, H2, H3, H4, H5. cbn [orb]. unfold bind, dprint, modify. by apply IH.
Qed.

Lemma mpinit_never es : forall fuel p e s, entries_at m p es -> p + esizes es < e -> unknown (m (p + esizes es)) -> 0 <= dv_ncpu s ->
  dv_ncpu s + Z.of_nat (length (procs es)) <= Z.of_nat NCPU -> length (dv_ids s) = NCPU -> mpinit_loop m fuel p e s = Panic "out of fuel".
Proof.
  induction es as [|x es IH]; intros [|fuel] p e s Hes He Hu H0 Hn Hl; [done| |done|].
  { cbn [esizes] in *. rewrite Z.add_0_r in *. by apply mpinit_stuck. }
  cbn [entries_at esizes] in *. destruct Hes as [Hx Hes]. assert (Hp : procs (x :: es) = procs [x] ++ procs es) by (by destruct x). rewrite Hp, length_app in Hn.
  pose proof (esizes_pos es). assert (0 < esize x) by (destruct x; cbn; unfold MPPROC_SZ; lia).
  destruct (mpinit_step fuel p x e s Hx ltac:(lia) H0 ltac:(lia) Hl) as (s1 & -> & Hr). pose proof (re_ncpu _ _ _ Hr) as Hn1. pose proof (proj1 (re_ids _ _ _ Hr)) as Hl1.
  apply (IH fuel (p + esize x) e s1 Hes); [lia|by rewrite <- Z.add_assoc|lia|lia|congruence].
Qed.
End Loop.

(** ** mpinit *)

(** The variables mpinit leaves for the table [es]. *)
Definition machine (es : list mpentry) (lapicaddr ioapic0 : Z) {H} (s : devs H) : Prop :=
  if in_order (procs es) 0 then
    dv_ismp s = true /\ dv_ncpu s = Z.of_nat (length (procs es)) /\ dv_bcpu s = boot_cpu (procs es) 0 0 /\
    dv_lapic s = lapicaddr /\ dv_ioapicid s = last_ioapic es ioapic0 /\ forall i, 0 <= i < dv_ncpu s -> dv_ids s !! Z.to_nat i = Some i
  else dv_ismp s = false /\ dv_ncpu s = 1 /\ dv_lapic s = 0 /\ dv_ioapicid s = 0.

(** C21: mpinit reads the firmware's table right when it knows every entry, and
    never returns when it does not.  Booted with the table [es] of at most NCPU
    processors, it counts the processors and records the boot processor, the I/O
    APIC and the local APIC's address, falling back to one processor when the
    APIC ids are not 0, 1, ... in order; one turn per entry is enough.  At an
    entry of another type the loop does not advance: no number of turns is
    enough. *)
Theorem mp_table {H} {IO : PortIo H} m es mp conf (s : devs H) : mpconfig m = Some (mp, conf) -> entries_at m (conf + MPCONF_SZ) es ->
  (length (procs es) <= NCPU)%nat -> dv_ncpu s = 0 -> length (dv_ids s) = NCPU ->
  (conf_length m conf = MPCONF_SZ + esizes es -> forall fuel, (length es < fuel)%nat ->
     runs (mpinit m fuel) s (fun _ s' => machine es (conf_lapicaddr m conf) (dv_ioapicid s) s')) /\
  (MPCONF_SZ + esizes es < conf_length m conf -> unknown (m (conf + MPCONF_SZ + esizes es)) -> forall fuel, mpinit m fuel s = Panic "out of fuel").
Proof.
  intros Hc Hes Hp H0 Hl. split.
  - intros Hlen fuel Hf. unfold mpinit. rewrite Hc. apply runs_bind, runs_modify, runs_bind, runs_modify, runs_bind, runs_modify.
    set (s0 := set_lapic _ _). rewrite Hlen, Z.add_assoc. eapply runs_seq; [apply (mpinit_loop_spec m es fuel (conf + MPCONF_SZ) s0 Hes Hf); cbn; [lia|lia|done]|].
    intros _ s1 [R1 R2 R3 R4 [R5 R5'] R6]. cbn in R1, R2, R3, R4, R5'. rewrite H0 in *. apply runs_bind, runs_gets. rewrite R2. unfold machine. destruct (in_order (procs es) 0); cbn [negb andb] in *.
    + assert (Hm : forall h, let s2 := set_dhw h s1 in dv_ismp s2 = true /\ dv_ncpu s2 = Z.of_nat (length (procs es)) /\ dv_bcpu s2 = boot_cpu (procs es) 0 0 /\
        dv_lapic s2 = conf_lapicaddr m conf /\ dv_ioapicid s2 = last_ioapic es (dv_ioapicid s) /\ forall i, 0 <= i < dv_ncpu s2 -> dv_ids s2 !! Z.to_nat i = Some i).
      { intros h. cbn. destruct R6 as (_ & R6 & _). split_and!; try done. intros i Hi. apply R5'; [done|lia]. }
      destruct (m (mp + 12) =? 0); cbn [negb].
      * apply runs_ret. specialize (Hm (dv_hw s1)). by destruct s1.
      * unfold d_outb, d_inb, bind, get, modify, ret, runs. apply Hm.
    + done.
  - intros Hlen Hu fuel. unfold mpinit. rewrite Hc. unfold bind at 1, modify. unfold bind at 1. unfold bind at 1. unfold bind at 1.
    rewrite (mpinit_never m es fuel (conf + MPCONF_SZ)); [done|done|lia|done|cbn; lia|cbn; lia|done].
Qed.

(** ** A machine with two processors *)

Module MpDemo.
#[export] Instance no_ports : PortIo unit := {| io_in _ h := (0, h); io_out _ _ h := h; mm_read _ h := (0, h); mm_write _ _ h := h |}.

Definition fp : list Z := [95; 77; 80; 95; 16; 0; 15; 0; 1; 4; 129; 0; 0; 0; 0; 0].
Definition table : list Z :=
  [80; 67; 77; 80; 100; 0; 4; 132] ++ replicate 20 0 ++ [0; 0; 0; 0; 0; 0; 4; 0; 0; 0; 224; 254; 0; 0; 0; 0] ++
  [0; 0; 20; 3] ++ replicate 16 0 ++ [0; 1; 20; 1] ++ replicate 16 0 ++ [1; 0; 0; 0; 0; 0; 0; 0] ++ [2; 2; 17; 1; 0; 0; 192; 254].

Definition rom : mem := fun a => if a <? 2148466688 then 0 else nth (Z.to_nat (a - 2148466688)) (fp ++ table) 0.
Definition dv0 : devs unit := mkdevs tt (replicate NCPU 0) 0 false 0 0 0 65531 false 0 [].

Lemma mp_table_witness : runs (mpinit rom 5) dv0 (fun _ s' =>
  dv_ismp s' = true /\ dv_ncpu s' = 2 /\ dv_bcpu s' = 0 /\ dv_lapic s' = 4276092928 /\ dv_ioapicid s' = 2).
Proof.
  destruct (mp_table rom [EProc 0 3; EProc 1 1; EOther 1; EIoapic 2] 2148466688 2148466704 dv0) as [Hr _].
  - vm_compute. reflexivity.
  - vm_compute. auto 10.
  - vm_compute. auto 10.
  - reflexivity.
  - reflexivity.
  - assert (El : conf_length rom 2148466704 = MPCONF_SZ + esizes [EProc 0 3; EProc 1 1; EOther 1; EIoapic 2]) by (vm_compute; reflexivity).
    assert (Ea : conf_lapicaddr rom 2148466704 = 4276092928) by (vm_compute; reflexivity). rewrite Ea in Hr.
    eapply runs_mono; [exact (Hr El 5%nat ltac:(repeat constructor))|]. cbv beta. intros a s' Hm. unfold machine in Hm.
    assert (Eo : in_order (procs [EProc 0 3; EProc 1 1; EOther 1; EIoapic 2]) 0 = true) by reflexivity. rewrite Eo in Hm.
    destruct Hm as (H1 & H2 & H3 & H4 & H5 & _). split_and!; assumption.
Defined.
End MpDemo.
