(* ===== verification/Trap.v ===== *)
(** * Traps (trap.c)

    [trap] runs on the state of the system calls.  It ends by returning to the
    interrupted code, by leaving the CPU in yield (what it does when it runs
    again is [trap_tail]) or in exit, which does not return. *)

From S2P Require Import Prelude.
From S2P Require Import Params.
From S2P Require Import Cstr.
From S2P Require Import Mmu.
From S2P Require Import Spinlock.
From S2P Require Import Cpu.
From S2P Require Import Proc.
From S2P Require Import Sysproc.

Definition T_IRQ0 : Z := 32.
Definition IRQ_TIMER : Z := 0.
Definition IRQ_KBD : Z := 1.
Definition IRQ_COM1 : Z := 4.
Definition IRQ_IDE : Z := 14.
Definition IRQ_SPURIOUS : Z := 31.

Inductive tret := TReturn | TExit | TYield.

#[export] Instance tret_eq_dec : EqDecision tret.
Proof. solve_decision. Defined.

(** The drivers' interrupt routines. *)
Class TrapLow (K : Type) := {
  l_ideintr : M K unit;
  l_kbdintr : M K unit;
  l_uartintr : M K unit;
  l_rcr2 : K -> Z
}.

Section Trap.
Context {K : Type} {L : ProcLow K} {D : TrapLow K} (h : bool) (c : cpu) (cpuid : Z).
(** syscall() of the process: true when it came back. *)
Context (syscall : nat -> M (tstate K) bool).
Implicit Types s : tstate K.

Definition dev (m : M K unit) : M (tstate K) unit := pp (lw m).
Definition lapiceoi : M (tstate K) unit := modify (fun s => mkts (ts_ps s) (ts_ticks s) (ts_ports s) (S (ts_eoi s)) (ts_log s)).
Definition tkilled (me : nat) : M (tstate K) bool := gets (fun s => negb (p_killed (tproc s me) =? 0)).

(** [if(proc->killed) exit();] *)
Definition exit_killed (me : nat) (k : M (tstate K) tret) : M (tstate K) tret :=
  b <- tkilled me ;;
  if b : bool then pp (exit h c me) ;;; ret TExit else k.

Definition clock_tick : M (tstate K) unit :=
  modify (fun s => set_ticks (u32 (ts_ticks s + 1)) s) ;;;
  pp (wakeup ChTicks).

(** The switch on tf->trapno. *)
Definition dispatch (me : option nat) (tf : trapframe) : M (tstate K) unit :=
  let no := tf_trapno tf in
  if no =? T_IRQ0 + IRQ_TIMER then
    (if cpuid =? 0 then clock_tick else ret tt) ;;;
    lapiceoi
  else if no =? T_IRQ0 + IRQ_IDE then dev l_ideintr ;;; lapiceoi
  else if no =? T_IRQ0 + IRQ_IDE + 1 then ret tt
  else if no =? T_IRQ0 + IRQ_KBD then dev l_kbdintr ;;; lapiceoi
  else if no =? T_IRQ0 + IRQ_COM1 then dev l_uartintr ;;; lapiceoi
  else if (no =? T_IRQ0 + 7) || (no =? T_IRQ0 + IRQ_SPURIOUS) then
    modify (tprint "cpu%d: spurious interrupt at %x:%x" [cpuid; tf_cs tf; tf_eip tf]) ;;;
    lapiceoi
  else
    r <- gets (fun s => l_rcr2 (low (ts_ps s))) ;;
    match me with
    | None =>
        modify (tprint "unexpected trap %d from cpu %d eip %x (cr2=0x%x)" [no; cpuid; tf_eip tf; r]) ;;;
        panic "trap"
    | Some p =>
        if Z.land (tf_cs tf) 3 =? 0 then
          modify (tprint "unexpected trap %d from cpu %d eip %x (cr2=0x%x)" [no; cpuid; tf_eip tf; r]) ;;;
          panic "trap"
        else
          x <- gets (fun s => tproc s p) ;;
          modify (tprint "pid %d %s: trap %d err %d on cpu %d eip 0x%x addr 0x%x--kill proc"
                    ([p_pid x] ++ p_name x ++ [no; tf_err tf; cpuid; tf_eip tf; r])) ;;;
          pp (modify (upd p (set_killed 1)))
    end.

Definition user_mode (tf : trapframe) : bool := Z.land (tf_cs tf) 3 =? DPL_USER.

(** [if(proc && proc->killed && (tf->cs&3) == DPL_USER) exit();] *)
Definition exit_if_killed (me : option nat) (tf : trapframe) (k : M (tstate K) tret) : M (tstate K) tret :=
  match me with
  | Some p => if user_mode tf then exit_killed p k else k
  | None => k
  end.

(** After the process comes back from yield. *)
Definition trap_tail (me : option nat) (tf : trapframe) : M (tstate K) tret := exit_if_killed me tf (ret TReturn).

Definition trap_yield (me : option nat) (tf : trapframe) : M (tstate K) tret :=
  match me with
  | Some p =>
      x <- gets (fun s => p_state (tproc s p)) ;;
      if bool_decide (x = RUNNING) && (tf_trapno tf =? T_IRQ0 + IRQ_TIMER) then pp (yield h c p) ;;; ret TYield
      else trap_tail me tf
  | None => trap_tail me tf
  end.

Definition trap (me : option nat) (tf : trapframe) : M (tstate K) tret :=
  if tf_trapno tf =? T_SYSCALL then
    match me with
    | None => panic "trap"                   (* proc->killed would fault *)
    | Some p =>
        exit_killed p (
          pp (modify (upd p (set_tf tf))) ;;;
          b <- syscall p ;;
          if b : bool then exit_killed p (ret TReturn) else ret TYield)
    end
  else
    dispatch me tf ;;;
    exit_if_killed me tf (trap_yield me tf).
End Trap.
