(* ===== verification/Intr.v ===== *)
(** * Interrupt controllers, timer, clock and serial line (picirq.c, ioapic.c,
    timer.c, lapic.c, uart.c) *)

From S2P Require Import Prelude.
From S2P Require Import Params.
From S2P Require Import Cstr.
From S2P Require Import Mmu.
From S2P Require Import Kalloc.
From S2P Require Import Spinlock.
From S2P Require Import Sysproc.
From S2P Require Import Trap.
From S2P Require Import Ports.

Definition IRQ_ERROR : Z := 19.

(** picirq.c *)
Definition IO_PIC1 : Z := 32.
Definition IO_PIC2 : Z := 160.
Definition IRQ_SLAVE : Z := 2.
Definition irqmask0 : Z := Z.land 65535 (Z.lnot (Z.shiftl 1 IRQ_SLAVE)).

(** ioapic.c *)
Definition IOAPIC : Z := 4273995776.
Definition REG_ID : Z := 0.
Definition REG_VER : Z := 1.
Definition REG_TABLE : Z := 16.
Definition INT_DISABLED : Z := 65536.

(** timer.c *)
Definition IO_TIMER1 : Z := 64.
Definition TIMER_FREQ : Z := 1193182.
Definition TIMER_DIV (x : Z) : Z := (TIMER_FREQ + x / 2) / x.
Definition TIMER_MODE : Z := IO_TIMER1 + 3.
Definition TIMER_SEL0 : Z := 0.
Definition TIMER_RATEGEN : Z := 4.
Definition TIMER_16BIT : Z := 48.

(** lapic.c: register numbers and bits *)
Definition L_ID : Z := 32 / 4.
Definition L_VER : Z := 48 / 4.
Definition L_TPR : Z := 128 / 4.
Definition L_EOI : Z := 176 / 4.
Definition L_SVR : Z := 240 / 4.
Definition ENABLE : Z := 256.
Definition L_ESR : Z := 640 / 4.
Definition L_ICRLO : Z := 768 / 4.
Definition INIT : Z := 1280.
Definition STARTUP : Z := 1536.
Definition DELIVS : Z := 4096.
Definition ASSERT : Z := 16384.
Definition LEVEL : Z := 32768.
Definition BCAST : Z := 524288.
Definition L_ICRHI : Z := 784 / 4.
Definition L_TIMER : Z := 800 / 4.
Definition X1 : Z := 11.
Definition PERIODIC : Z := 131072.
Definition L_PCINT : Z := 832 / 4.
Definition L_LINT0 : Z := 848 / 4.
Definition L_LINT1 : Z := 864 / 4.
Definition L_ERROR : Z := 880 / 4.
Definition MASKED : Z := 65536.
Definition L_TICR : Z := 896 / 4.
Definition L_TDCR : Z := 992 / 4.

Definition CMOS_PORT : Z := 112.
Definition CMOS_RETURN : Z := 113.
Definition CMOS_STATA : Z := 10.
Definition CMOS_STATB : Z := 11.
Definition CMOS_UIP : Z := 128.

(** uart.c *)
Definition COM1 : Z := 1016.

Section Intr.
Context {H : Type} {IO : PortIo H}.
Implicit Types s : devs H.

(** ** picirq.c *)

Definition picsetmask (mask : Z) : M (devs H) unit :=
  modify (set_irqmask (u16 mask)) ;;;
  d_outb (IO_PIC1 + 1) (u16 mask) ;;;
  d_outb (IO_PIC2 + 1) (Z.shiftr (u16 mask) 8).

Definition picenable (irq : Z) : M (devs H) unit :=
  m <- gets dv_irqmask ;;
  picsetmask (Z.land m (Z.lnot (Z.shiftl 1 irq))).

Definition picinit : M (devs H) unit :=
  d_outb (IO_PIC1 + 1) 255 ;;;
  d_outb (IO_PIC2 + 1) 255 ;;;
  d_outb IO_PIC1 17 ;;;
  d_outb (IO_PIC1 + 1) T_IRQ0 ;;;
  d_outb (IO_PIC1 + 1) (Z.shiftl 1 IRQ_SLAVE) ;;;
  d_outb (IO_PIC1 + 1) 3 ;;;
  d_outb IO_PIC2 17 ;;;
  d_outb (IO_PIC2 + 1) (T_IRQ0 + 8) ;;;
  d_outb (IO_PIC2 + 1) IRQ_SLAVE ;;;
  d_outb (IO_PIC2 + 1) 3 ;;;
  d_outb IO_PIC1 104 ;;;
  d_outb IO_PIC1 10 ;;;
  d_outb IO_PIC2 104 ;;;
  d_outb IO_PIC2 10 ;;;
  m <- gets dv_irqmask ;;
  if negb (m =? 65535) then picsetmask m else ret tt.

(** ** ioapic.c *)

Definition ioapicread (reg : Z) : M (devs H) Z :=
  mmio_write IOAPIC reg ;;;
  mmio_read (IOAPIC + 16).
Definition ioapicwrite (reg data : Z) : M (devs H) unit :=
  mmio_write IOAPIC reg ;;;
  mmio_write (IOAPIC + 16) data.

Definition ioapicinit : M (devs H) unit :=
  b <- gets dv_ismp ;;
  if negb b then ret tt
  else
    v <- ioapicread REG_VER ;;
    let maxintr := Z.land (Z.shiftr v 16) 255 in
    i <- ioapicread REG_ID ;;
    id <- gets dv_ioapicid ;;
    (if negb (Z.shiftr i 24 =? id) then dprint "ioapicinit: id isn't equal to ioapicid; not a MP" [] else ret tt) ;;;
    each (seq 0 (Z.to_nat (maxintr + 1))) (fun i =>
      ioapicwrite (REG_TABLE + 2 * Z.of_nat i) (Z.lor INT_DISABLED (T_IRQ0 + Z.of_nat i)) ;;;
      ioapicwrite (REG_TABLE + 2 * Z.of_nat i + 1) 0).

Definition ioapicenable (irq cpunum : Z) : M (devs H) unit :=
  b <- gets dv_ismp ;;
  if negb b then ret tt
  else
    ioapicwrite (REG_TABLE + 2 * irq) (T_IRQ0 + irq) ;;;
    ioapicwrite (REG_TABLE + 2 * irq + 1) (Z.shiftl cpunum 24).

(** ** timer.c *)

Definition timerinit : M (devs H) unit :=
  d_outb TIMER_MODE (Z.lor (Z.lor TIMER_SEL0 TIMER_RATEGEN) TIMER_16BIT) ;;;
  d_outb IO_TIMER1 (TIMER_DIV 100 mod 256) ;;;
  d_outb IO_TIMER1 (TIMER_DIV 100 / 256) ;;;
  picenable IRQ_TIMER.

(** ** lapic.c *)

(** [lapic[index]] *)
Definition lapicr (index : Z) : M (devs H) Z :=
  a <- gets dv_lapic ;; mmio_read (a + 4 * index).
Definition lapicw (index value : Z) : M (devs H) unit :=
  a <- gets dv_lapic ;;
  mmio_write (a + 4 * index) value ;;;
  lapicr L_ID ;;; ret tt.

(** [while(lapic[ICRLO] & DELIVS)] *)
Fixpoint lapic_wait (fuel : nat) : M (devs H) unit :=
  match fuel with
  | O => panic "out of fuel"
  | S n => v <- lapicr L_ICRLO ;; if test v DELIVS then lapic_wait n else ret tt
  end.

Definition lapicinit (fuel : nat) : M (devs H) unit :=
  l <- gets dv_lapic ;;
  if l =? 0 then ret tt
  else
    lapicw L_SVR (Z.lor ENABLE (T_IRQ0 + IRQ_SPURIOUS)) ;;;
    lapicw L_TDCR X1 ;;;
    lapicw L_TIMER (Z.lor PERIODIC (T_IRQ0 + IRQ_TIMER)) ;;;
    lapicw L_TICR 10000000 ;;;
    lapicw L_LINT0 MASKED ;;;
    lapicw L_LINT1 MASKED ;;;
    v <- lapicr L_VER ;;
    (if Z.land (Z.shiftr v 16) 255 >=? 4 then lapicw L_PCINT MASKED else ret tt) ;;;
    lapicw L_ERROR (T_IRQ0 + IRQ_ERROR) ;;;
    lapicw L_ESR 0 ;;;
    lapicw L_ESR 0 ;;;
    lapicw L_EOI 0 ;;;
    lapicw L_ICRHI 0 ;;;
    lapicw L_ICRLO (Z.lor (Z.lor BCAST INIT) LEVEL) ;;;
    lapic_wait fuel ;;;
    lapicw L_TPR 0.

(** cpunum with the flags register and the caller's address. *)
Definition cpunum (eflags caller : Z) : M (devs H) Z :=
  (if test eflags FL_IF then
     n <- gets dv_asked ;;
     modify (set_asked (n + 1)) ;;;
     (if n =? 0 then dprint "cpu called from %x with interrupts enabled" [caller] else ret tt)
   else ret tt) ;;;
  l <- gets dv_lapic ;;
  if negb (l =? 0) then v <- lapicr L_ID ;; ret (Z.shiftr v 24) else ret 0.

Definition lapic_eoi : M (devs H) unit :=
  l <- gets dv_lapic ;;
  if negb (l =? 0) then lapicw L_EOI 0 else ret tt.

Definition microdelay (us : Z) : M (devs H) unit := ret tt.

(** lapicstartap also writes the warm reset vector in memory. *)
Definition in_dev {A} (m : M (devs H) A) : M (kmem * devs H) A := lift snd (fun d p => (fst p, d)) m.
Definition in_mem {A} (m : M kmem A) : M (kmem * devs H) A := lift fst (fun k p => (k, snd p)) m.

Definition st16 (m : mem) (a v : Z) : mem := fun x => if x =? a then u8 v else if x =? a + 1 then u8 (Z.shiftr v 8) else m x.

Definition lapicstartap (apicid addr : Z) : M (kmem * devs H) unit :=
  in_dev (d_outb CMOS_PORT 15) ;;;
  in_dev (d_outb (CMOS_PORT + 1) 10) ;;;
  let wrv := p2v (Z.lor (Z.shiftl 64 4) 103) in
  in_mem (modify (poke (fun m => st16 m wrv 0))) ;;;
  in_mem (modify (poke (fun m => st16 m (wrv + 2) (Z.shiftr addr 4)))) ;;;
  in_dev (lapicw L_ICRHI (Z.shiftl apicid 24)) ;;;
  in_dev (lapicw L_ICRLO (Z.lor (Z.lor INIT LEVEL) ASSERT)) ;;;
  in_dev (microdelay 200) ;;;
  in_dev (lapicw L_ICRLO (Z.lor INIT LEVEL)) ;;;
  in_dev (microdelay 100) ;;;
  each (seq 0 2) (fun _ =>
    in_dev (lapicw L_ICRHI (Z.shiftl apicid 24)) ;;;
    in_dev (lapicw L_ICRLO (Z.lor STARTUP (Z.shiftr addr 12))) ;;;
    in_dev (microdelay 200)).

(** struct rtcdate *)
Record rtcdate := mkrtc { r_second : Z; r_minute : Z; r_hour : Z; r_day : Z; r_month : Z; r_year : Z }.

Definition cmos_read (reg : Z) : M (devs H) Z :=
  d_outb CMOS_PORT reg ;;;
  microdelay 200 ;;;
  d_inb CMOS_RETURN.

Definition fill_rtcdate : M (devs H) rtcdate :=
  sec <- cmos_read 0 ;;
  min <- cmos_read 2 ;;
  hour <- cmos_read 4 ;;
  day <- cmos_read 7 ;;
  month <- cmos_read 8 ;;
  year <- cmos_read 9 ;;
  ret (mkrtc sec min hour day month year).

#[local] Instance rtcdate_dec : EqDecision rtcdate.
Proof. solve_decision. Defined.

(** [for(;;)]: two readings that agree, with no update between them. *)
Fixpoint cmos_loop (fuel : nat) : M (devs H) rtcdate :=
  match fuel with
  | O => panic "out of fuel"
  | S n =>
      t1 <- fill_rtcdate ;;
      a <- cmos_read CMOS_STATA ;;
      if test a CMOS_UIP then cmos_loop n
      else
        t2 <- fill_rtcdate ;;
        if decide (t1 = t2) then ret t1 else cmos_loop n
  end.

Definition CONV (x : Z) : Z := Z.shiftr x 4 * 10 + Z.land x 15.

Definition cmostime (fuel : nat) : M (devs H) rtcdate :=
  sb <- cmos_read CMOS_STATB ;;
  let bcd := Z.land sb (Z.shiftl 1 2) =? 0 in
  t1 <- cmos_loop fuel ;;
  let t1 := if bcd then mkrtc (CONV (r_second t1)) (CONV (r_minute t1)) (CONV (r_hour t1)) (CONV (r_day t1)) (CONV (r_month t1)) (CONV (r_year t1)) else t1 in
  ret (mkrtc (r_second t1) (r_minute t1) (r_hour t1) (r_day t1) (r_month t1) (r_year t1 + 2000)).

(** ** uart.c *)

(** [for(i = 0; i < 128 && !(inb(COM1+5) & 0x20); i++) microdelay(10);] *)
Fixpoint uart_ready (left : nat) : M (devs H) unit :=
  match left with
  | O => ret tt
  | S n => v <- d_inb (COM1 + 5) ;; if test v 32 then ret tt else microdelay 10 ;;; uart_ready n
  end.
Definition uart_putc (c : Z) : M (devs H) unit :=
  u <- gets dv_uart ;;
  if negb u then ret tt
  else
    uart_ready 128 ;;;
    d_outb COM1 c.

Definition uartinit : M (devs H) unit :=
  d_outb (COM1 + 2) 0 ;;;
  d_outb (COM1 + 3) 128 ;;;
  d_outb COM1 (115200 / 9600) ;;;
  d_outb (COM1 + 1) 0 ;;;
  d_outb (COM1 + 3) 3 ;;;
  d_outb (COM1 + 4) 0 ;;;
  d_outb (COM1 + 1) 1 ;;;
  v <- d_inb (COM1 + 5) ;;
  if v =? 255 then ret tt
  else
    modify (set_uart true) ;;;
    d_inb (COM1 + 2) ;;;
    d_inb COM1 ;;;
    picenable IRQ_COM1 ;;;
    ioapicenable IRQ_COM1 0 ;;;
    each [120; 118; 54; 46; 46; 46; 10] uart_putc.

Definition uartgetc : M (devs H) Z :=
  u <- gets dv_uart ;;
  if negb u then ret (-1)
  else
    v <- d_inb (COM1 + 5) ;;
    if negb (test v 1) then ret (-1) else d_inb COM1.
End Intr.
