(* ===== verification/IntrSpec.v ===== *)
(** * Which interrupts reach the kernel, and as which trap

    The two 8259A controllers and the I/O APIC are not part of the sources;
    [PicOk] and [IoapicOk] state their programming model, and the theorem what
    picirq.c and ioapic.c make of them. *)

From S2P Require Import Prelude.
From S2P Require Import Params.
From S2P Require Import Cstr.
From S2P Require Import Mmu.
From S2P Require Import Trap.
From S2P Require Import Ports.
From S2P Require Import Intr.

(** ** The controllers *)

(** An 8259A: its mask, its vector base, and how far an initialisation that
    ICW1 has started has come. *)
Record picst := mkpic { pc_mask : Z; pc_base : Z; pc_step : nat; pc_link : Z; pc_mode : Z }.

Definition pic_cmd (v : Z) (st : picst) : picst :=
  if test v 16 then mkpic 0 (pc_base st) 1 (pc_link st) (pc_mode st) else st.
Definition pic_data (v : Z) (st : picst) : picst :=
  match pc_step st with
  | 1%nat => mkpic (pc_mask st) v 2 (pc_link st) (pc_mode st)
  | 2%nat => mkpic (pc_mask st) (pc_base st) 3 v (pc_mode st)
  | 3%nat => mkpic (pc_mask st) (pc_base st) 0 (pc_link st) v
  | _ => mkpic v (pc_base st) (pc_step st) (pc_link st) (pc_mode st)
  end.

Definition pic_port (slave : bool) : Z := if slave then IO_PIC2 else IO_PIC1.

Class PicOk (H : Type) (IO : PortIo H) := {
  pic : bool -> H -> picst;
  pic_out b p v h : pic b (io_out p v h) =
    if p =? pic_port b then pic_cmd v (pic b h) else if p =? pic_port b + 1 then pic_data v (pic b h) else pic b h;
  pic_mmr b a h : pic b (snd (mm_read a h)) = pic b h;
  pic_mmw b a v h : pic b (mm_write a v h) = pic b h
}.

(** The I/O APIC: registers behind a register select and a data window. *)
Class IoapicOk (H : Type) (IO : PortIo H) := {
  ioregs : H -> Z -> Z;
  iosel : H -> Z;
  io_select r h : iosel (mm_write IOAPIC r h) = r /\ forall x, ioregs (mm_write IOAPIC r h) x = ioregs h x;
  io_store d h : REG_TABLE <= iosel h -> iosel (mm_write (IOAPIC + 16) d h) = iosel h /\
    forall x, ioregs (mm_write (IOAPIC + 16) d h) x = if x =? iosel h then d else ioregs h x;
  io_fetch h : fst (mm_read (IOAPIC + 16) h) = ioregs h (iosel h) /\ forall x, ioregs (snd (mm_read (IOAPIC + 16) h)) x = ioregs h x;
  io_ports p v h : forall x, ioregs (io_out p v h) x = ioregs h x
}.

Section Spec.
Context {H : Type} {IO : PortIo H} {PO : PicOk H IO} {AO : IoapicOk H IO}.
Implicit Types s : devs H.

(** Decides which port is meant. *)
Ltac eval_ports := repeat match goal with |- context [?a =? ?b] => let v := eval vm_compute in (a =? b) in change (a =? b) with v end; cbv iota.

(** ** The 8259As *)

(** Both are initialised and have the mask [m]. *)
Record pics_at (m : Z) (h : H) : Prop := {
  pa_base b : pc_base (pic b h) = if b then T_IRQ0 + 8 else T_IRQ0;
  pa_step b : pc_step (pic b h) = 0%nat;
  pa_mask b : pc_mask (pic b h) = if b then u8 (Z.shiftr m 8) else u8 m
}.

Lemma picsetmask_eq mask s : picsetmask mask s =
  Done tt (set_dhw (io_out 161 (u8 (Z.shiftr (u16 mask) 8)) (io_out 33 (u8 (u16 mask)) (dv_hw s))) (set_irqmask (u16 mask) s)).
Proof. done. Qed.

Lemma pics_set m v w h : pics_at m h -> v = u8 w -> pics_at w (io_out 161 (u8 (Z.shiftr w 8)) (io_out 33 v h)).
Proof.
  intros [H1 H2 H3] ->. split; intros b; rewrite !pic_out; destruct b; eval_ports; unfold pic_data; rewrite H2; done || apply (H1 true) || apply (H1 false).
Qed.

Lemma u8_id v : 0 <= v < 256 -> u8 v = v.
Proof. apply Z.mod_small. Qed.

(** A sequence of port writes, and what one controller makes of it. *)
Definition outs (l : list (Z * Z)) (h : H) : H := fold_left (fun h x => io_out (fst x) (snd x) h) l h.
Definition pic_one (b : bool) (st : picst) (x : Z * Z) : picst :=
  if fst x =? pic_port b then pic_cmd (snd x) st else if fst x =? pic_port b + 1 then pic_data (snd x) st else st.

Lemma pic_outs b l h : pic b (outs l h) = fold_left (pic_one b) l (pic b h).
Proof. revert h. induction l as [|x l IH]; intros h; [done|]. cbn. unfold outs in IH. rewrite IH, pic_out. done. Qed.

Lemma regs_outs l h x : ioregs (outs l h) x = ioregs h x.
Proof. revert h. induction l as [|y l IH]; intros h; [done|]. cbn. unfold outs in IH. by rewrite IH, io_ports. Qed.

(** What picinit writes. *)
Definition init_words : list (Z * Z) :=
  [(33, 255); (161, 255); (32, 17); (33, 32); (33, 4); (33, 3); (160, 17); (161, 40); (161, 2); (161, 3); (32, 104); (32, 10); (160, 104); (160, 10);
   (33, 251); (161, 255)].

Lemma init_pics h : pics_at irqmask0 (outs init_words h).
Proof.
  split; intros b; rewrite pic_outs; destruct (pic b h) as [m v k l mo], b; destruct k as [|[|[|[|k]]]]; vm_compute; reflexivity.
Qed.

Lemma picinit_spec s : dv_irqmask s = irqmask0 -> runs picinit s (fun _ s' =>
  pics_at irqmask0 (dv_hw s') /\ dv_irqmask s' = irqmask0 /\ dv_ismp s' = dv_ismp s /\ (forall x, ioregs (dv_hw s') x = ioregs (dv_hw s) x)).
Proof.
  intros Hm. unfold picinit, d_outb, bind, modify, gets, runs. cbn [set_dhw dv_irqmask]. rewrite Hm. change (negb (irqmask0 =? 65535)) with true. cbv iota.
  rewrite picsetmask_eq. cbn [set_dhw set_irqmask dv_hw dv_ismp dv_irqmask].
  split_and!; [exact (init_pics (dv_hw s))|done|done|exact (regs_outs init_words (dv_hw s))].
Qed.

(** ** The I/O APIC *)

Lemma ioapicwrite_spec reg data s : REG_TABLE <= reg < 4294967296 -> exists h, ioapicwrite reg data s = Done tt (set_dhw h s) /\
  (forall x, ioregs h x = if x =? reg then u32 data else ioregs (dv_hw s) x) /\ (forall b, pic b h = pic b (dv_hw s)).
Proof.
  intros Hr. unfold ioapicwrite, mmio_write, bind, modify. cbn [set_dhw dv_hw]. eexists. split; [done|]. rewrite (u32_id reg) by (unfold REG_TABLE in Hr; lia).
  destruct (io_select reg (dv_hw s)) as [E1 E2]. destruct (io_store (u32 data) (mm_write IOAPIC reg (dv_hw s))) as [_ E3]; [rewrite E1; lia|]. split.
  - intros x. rewrite E3, E1. destruct (x =? reg); [done|apply E2].
  - intros b. by rewrite !pic_mmw.
Qed.

Lemma ioapicread_spec reg s : 0 <= reg < 4294967296 -> exists h, ioapicread reg s = Done (ioregs (dv_hw s) reg) (set_dhw h s) /\
  (forall x, ioregs h x = ioregs (dv_hw s) x) /\ (forall b, pic b h = pic b (dv_hw s)).
Proof.
  intros Hr. unfold ioapicread, mmio_write, mmio_read, bind, modify, get, ret. cbn [set_dhw dv_hw]. rewrite (u32_id reg) by lia.
  destruct (io_select reg (dv_hw s)) as [E1 E2]. destruct (io_fetch (mm_write IOAPIC reg (dv_hw s))) as [E3 E4]. rewrite E3, E1, E2. eexists. split; [done|]. split.
  - intros x. by rewrite E4.
  - intros b. by rewrite pic_mmr, pic_mmw.
Qed.

(** The low and the high word of a redirection entry. *)
Definition redir (h : H) (i : Z) : Z * Z := (ioregs h (REG_TABLE + 2 * i), ioregs h (REG_TABLE + 2 * i + 1)).

(** Both words of entry [j] are written. *)
Lemma write_redir j lo hi s : 0 <= j < 1000 -> 0 <= lo < 4294967296 -> 0 <= hi < 4294967296 -> exists h,
  (ioapicwrite (REG_TABLE + 2 * j) lo ;;; ioapicwrite (REG_TABLE + 2 * j + 1) hi) s = Done tt (set_dhw h s) /\
  (forall i, redir h i = if i =? j then (lo, hi) else redir (dv_hw s) i) /\ (forall b, pic b h = pic b (dv_hw s)) /\ (forall x, x < REG_TABLE -> ioregs h x = ioregs (dv_hw s) x).
Proof.
  intros Hj Hlo Hhi. unfold REG_TABLE. destruct (ioapicwrite_spec (16 + 2 * j) lo s) as (h1 & E1 & R1 & P1); [unfold REG_TABLE; lia|].
  destruct (ioapicwrite_spec (16 + 2 * j + 1) hi (set_dhw h1 s)) as (h2 & E2 & R2 & P2); [unfold REG_TABLE; lia|]. exists h2. unfold bind. rewrite E1, E2. split; [done|].
  cbn [set_dhw dv_hw] in *. rewrite u32_id in R1, R2 by lia. split; [|split].
  - intros i. unfold redir, REG_TABLE. rewrite !R2, !R1. destruct (Z.eqb_spec i j) as [->|Hij].
    + rewrite !Z.eqb_refl, (proj2 (Z.eqb_neq (16 + 2 * j) (16 + 2 * j + 1))) by lia. done.
    + rewrite !(proj2 (Z.eqb_neq _ _)) by lia. done.
  - intros b. by rewrite P2, P1.
  - intros x Hx. rewrite R2, R1, !(proj2 (Z.eqb_neq _ _)) by lia. done.
Qed.

(** The number of entries the version register reports. *)
Definition nentries (h : H) : Z := Z.land (Z.shiftr (ioregs h REG_VER) 16) 255 + 1.

Lemma nentries_range h : 1 <= nentries h <= 256.
Proof.
  unfold nentries. change 255 with (Z.ones 8). rewrite Z.land_ones by lia. pose proof (Z.mod_pos_bound (Z.shiftr (ioregs h REG_VER) 16) (2 ^ 8) ltac:(lia)).
  change (2 ^ 8) with 256 in *. lia.
Qed.

(** The low word of entry [i] when it is disabled. *)
Definition masked (i : Z) : Z := INT_DISABLED + (T_IRQ0 + i).

Lemma ioapicinit_spec s : dv_ismp s = true -> runs ioapicinit s (fun _ s' =>
  (forall i, 0 <= i < nentries (dv_hw s) -> redir (dv_hw s') i = (masked i, 0)) /\ (forall b, pic b (dv_hw s') = pic b (dv_hw s)) /\
  dv_irqmask s' = dv_irqmask s /\ dv_ismp s' = true).
Proof.
  intros Hmp. unfold ioapicinit. apply runs_bind, runs_gets. rewrite Hmp. cbn [negb]. pose proof (nentries_range (dv_hw s)) as Hne.
  destruct (ioapicread_spec REG_VER s) as (h1 & E1 & R1 & P1); [by vm_compute|]. apply runs_bind. unfold runs at 1. rewrite E1.
  destruct (ioapicread_spec REG_ID (set_dhw h1 s)) as (h2 & E2 & R2 & P2); [by vm_compute|]. apply runs_bind. unfold runs at 1. rewrite E2. apply runs_bind, runs_gets.
  fold (nentries (dv_hw s)). set (n := nentries (dv_hw s)) in *. set (s2 := set_dhw h2 _). eapply (runs_seq _ _ _ (fun _ s3 => dv_hw s3 = h2 /\ dv_irqmask s3 = dv_irqmask s /\ dv_ismp s3 = true)).
  { destruct (negb _); [|by apply runs_ret]. unfold dprint. by apply runs_modify. }
  intros _ s3 (Hh3 & Hm3 & Hp3).
  apply (runs_each _ _ (fun l s' => exists k, l = seq k (length l) /\ Z.of_nat k + Z.of_nat (length l) = n /\ (forall i, 0 <= i < Z.of_nat k -> redir (dv_hw s') i = (masked i, 0)) /\
    (forall b, pic b (dv_hw s') = pic b (dv_hw s)) /\ dv_irqmask s' = dv_irqmask s /\ dv_ismp s' = true)).
  - exists 0%nat. rewrite length_seq. split; [done|]. split; [lia|]. split; [lia|]. split; [|done]. intros b. rewrite Hh3, P2. apply P1.
  - intros j l s' (k & Hl & Hk & Hd & Hp & Hm & Hs). cbn [length seq] in *. injection Hl as -> Hl.
    destruct (write_redir (Z.of_nat k) (Z.lor INT_DISABLED (T_IRQ0 + Z.of_nat k)) 0 s') as (h & E & R & P & _); [lia| |lia|].
    { rewrite lor_add; unfold INT_DISABLED, T_IRQ0; [lia|done|lia]. }
    unfold runs. rewrite E. exists (S k). split; [done|]. split; [lia|]. split; [|split; [intros b; cbn; by rewrite P|done]].
    intros i Hi. cbn [set_dhw dv_hw]. rewrite R. destruct (Z.eqb_spec i (Z.of_nat k)) as [->|]; [|apply Hd; lia].
    rewrite lor_add by (unfold INT_DISABLED, T_IRQ0; (done || lia)). done.
  - intros s' (k & _ & Hk & Hd & Hp & Hm & Hs). cbn in Hk. split_and!; [|done|done|done]. intros i Hi. apply Hd. lia.
Qed.

(** ** Enabling an interrupt *)

Definition enable (x : Z * Z) : M (devs H) unit := picenable (fst x) ;;; ioapicenable (fst x) (snd x).

(** The interrupts [en] are enabled, each at its CPU, and no other. *)
Record routed (n : Z) (en : list (Z * Z)) s : Prop := {
  rt_ismp : dv_ismp s = true;
  rt_range : 0 <= dv_irqmask s < 65536;
  rt_bits i : 0 <= i < 16 -> Z.testbit (dv_irqmask s) i = negb (bool_decide (i = IRQ_SLAVE \/ i ∈ en.*1));
  rt_pics : pics_at (dv_irqmask s) (dv_hw s);
  rt_on i c : (i, c) ∈ en -> redir (dv_hw s) i = (T_IRQ0 + i, Z.shiftl c 24);
  rt_off i : 0 <= i < n -> i ∉ en.*1 -> redir (dv_hw s) i = (masked i, 0)
}.

Lemma clear_bit m irq i : 0 <= i -> 0 <= irq -> Z.testbit (Z.land m (Z.lnot (Z.shiftl 1 irq))) i = Z.testbit m i && negb (i =? irq).
Proof.
  intros Hi Hq. rewrite Z.land_spec, Z.lnot_spec, Z.shiftl_1_l by lia. f_equal. rewrite Z.pow2_bits_eqb by lia. by rewrite Z.eqb_sym.
Qed.

Lemma land_range m x : 0 <= m < 65536 -> 0 <= Z.land m x < 65536.
Proof.
  intros Hm. split; [apply Z.land_nonneg; lia|]. replace m with (Z.land m (Z.ones 16)) by (rewrite Z.land_ones by lia; apply Z.mod_small; change (2 ^ 16) with 65536; lia).
  rewrite <- Z.land_assoc, (Z.land_comm (Z.ones 16)), Z.land_assoc, Z.land_ones by lia. apply (Z.mod_pos_bound _ (2 ^ 16)). lia.
Qed.

Lemma enable_spec n en i c s : routed n en s -> 0 <= i < 16 -> 0 <= c < 256 -> i ∉ en.*1 -> runs (enable (i, c)) s (fun _ s' => routed n (en ++ [(i, c)]) s').
Proof.
  intros [R1 R2 R3 R4 R5 R6] Hi Hc Hn. unfold enable, picenable. cbn [fst snd]. apply runs_bind, runs_bind, runs_gets. set (m' := Z.land _ _). unfold runs at 1. rewrite picsetmask_eq.
  assert (Hm' : 0 <= m' < 65536) by (by apply land_range). assert (Eu : u16 m' = m') by (apply Z.mod_small; lia). rewrite Eu. set (s1 := set_dhw _ _).
  unfold ioapicenable. apply runs_bind, runs_gets. change (dv_ismp s1) with (dv_ismp s). rewrite R1. cbn [negb].
  assert (Hsh : 0 <= Z.shiftl c 24 < 4294967296) by (rewrite Z.shiftl_mul_pow2 by lia; change (2 ^ 24) with 16777216; lia).
  destruct (write_redir i (T_IRQ0 + i) (Z.shiftl c 24) s1) as (h & E & R & P & _); [lia|unfold T_IRQ0; lia|done|]. unfold runs. rewrite E.
  assert (Hreg : forall j, redir (dv_hw s1) j = redir (dv_hw s) j) by (intros j; unfold redir, s1; cbn [set_dhw dv_hw]; by rewrite !io_ports).
  split; cbn [set_dhw dv_ismp dv_irqmask dv_hw].
  - done.
  - done.
  - intros j Hj. change (dv_irqmask s1) with m'. unfold m'. rewrite clear_bit, R3 by lia. rewrite fmap_app, <- negb_orb. f_equal. apply eq_true_iff_eq.
    rewrite orb_true_iff, !bool_decide_eq_true, Z.eqb_eq, elem_of_app. cbn. rewrite list_elem_of_singleton. tauto.
  - pose proof (pics_set (dv_irqmask s) (u8 m') m' (dv_hw s) R4 eq_refl) as [Q1 Q2 Q3]. split; intros b; rewrite P; [apply Q1|apply Q2|apply Q3].
  - intros j cj Hj. rewrite R. apply elem_of_app in Hj as [Hj|Hj].
    + destruct (Z.eqb_spec j i) as [->|]; [|rewrite Hreg; by apply R5]. exfalso. apply Hn. apply list_elem_of_fmap. by exists (i, cj).
    + apply list_elem_of_singleton in Hj as [= -> ->]. by rewrite Z.eqb_refl.
  - intros j Hj Hnj. rewrite R. rewrite fmap_app, not_elem_of_app in Hnj. destruct Hnj as [Hnj Hne]. destruct (Z.eqb_spec j i) as [->|]; [exfalso; apply Hne; by apply list_elem_of_singleton|].
    rewrite Hreg. by apply R6.
Qed.

(** ** The vector an interrupt line raises *)

Definition pic_vector (h : H) (i : Z) : option Z :=
  let st := pic (8 <=? i) h in
  if Z.testbit (pc_mask st) (i mod 8) then None else Some (pc_base st + i mod 8).
Definition ioapic_vector (h : H) (i : Z) : option (Z * Z) :=
  if test (fst (redir h i)) INT_DISABLED then None else Some (Z.land (fst (redir h i)) 255, Z.shiftr (snd (redir h i)) 24).

Lemma routed_pic n en s i : routed n en s -> 0 <= i < 16 -> i <> IRQ_SLAVE -> pic_vector (dv_hw s) i = if bool_decide (i ∈ en.*1) then Some (T_IRQ0 + i) else None.
Proof.
  intros [_ _ R3 [Q1 _ Q3] _ _] Hi Hs. unfold pic_vector. rewrite Q1, Q3. specialize (R3 i Hi).
  assert (Eb : bool_decide (i = IRQ_SLAVE \/ i ∈ en.*1) = bool_decide (i ∈ en.*1)) by (apply bool_decide_ext; tauto). rewrite Eb in R3.
  assert (Ht : Z.testbit (if 8 <=? i then u8 (Z.shiftr (dv_irqmask s) 8) else u8 (dv_irqmask s)) (i mod 8) = Z.testbit (dv_irqmask s) i).
  { unfold u8. change 256 with (2 ^ 8). destruct (Z.leb_spec 8 i).
    - assert (i mod 8 = i - 8) as -> by (rewrite <- (Z.mod_add i (-1)), Z.mod_small; lia). rewrite Z.mod_pow2_bits_low, Z.shiftr_spec by lia. f_equal. lia.
    - rewrite (Z.mod_small i 8), Z.mod_pow2_bits_low by lia. done. }
  rewrite Ht, R3. destruct (bool_decide (i ∈ en.*1)); cbn [negb]; [|done]. f_equal. unfold T_IRQ0. destruct (Z.leb_spec 8 i).
  - assert (i mod 8 = i - 8) as -> by (rewrite <- (Z.mod_add i (-1)), Z.mod_small; lia). lia.
  - rewrite Z.mod_small; lia.
Qed.

Lemma routed_on n en s i c : routed n en s -> (i, c) ∈ en -> 0 <= i < 224 -> ioapic_vector (dv_hw s) i = Some (T_IRQ0 + i, c).
Proof.
  intros [_ _ _ _ R5 _] Hin Hi. unfold ioapic_vector. rewrite (R5 _ _ Hin). cbn [fst snd]. unfold test, INT_DISABLED, T_IRQ0.
  assert (E : Z.land (32 + i) 65536 = 0).
  { change 65536 with (2 ^ 16). apply Z.bits_inj'. intros k Hk. rewrite Z.land_spec, Z.pow2_bits_eqb, Z.bits_0 by lia. destruct (Z.eqb_spec 16 k) as [<-|]; [|apply andb_false_r].
    rewrite andb_true_r. apply Z.bits_above_log2; [lia|]. apply Z.log2_lt_pow2; [lia|]. change (2 ^ 16) with 65536. lia. }
  rewrite E. cbn [Z.eqb negb]. f_equal. f_equal.
  - change 255 with (Z.ones 8). rewrite Z.land_ones by lia. apply Z.mod_small. change (2 ^ 8) with 256. lia.
  - rewrite Z.shiftr_shiftl_l by lia. apply Z.shiftl_0_r.
Qed.

Lemma routed_off n en s i : routed n en s -> 0 <= i < n -> i < 224 -> i ∉ en.*1 -> ioapic_vector (dv_hw s) i = None.
Proof.
  intros [_ _ _ _ _ R6] Hi Hlt Hn. unfold ioapic_vector. rewrite (R6 _ Hi Hn). cbn [fst]. unfold test, masked.
  rewrite <- lor_add by (unfold INT_DISABLED, T_IRQ0; (done || lia)). rewrite Z.land_lor_distr_l, Z.land_diag. destruct (Z.eqb_spec (Z.lor INT_DISABLED (Z.land (T_IRQ0 + i) INT_DISABLED)) 0) as [E|]; [|done].
  apply Z.lor_eq_0_iff in E as [E _]. done.
Qed.

End Spec.

(** ** Concrete controllers *)

Module IntrDemo.
Record chips := mkchips { ch_pic : bool -> picst; ch_regs : Z -> Z; ch_sel : Z }.

#[export] Instance chips_io : PortIo chips := {|
  io_in _ h := (0, h);
  io_out p v h := mkchips (fun b => if p =? pic_port b then pic_cmd v (ch_pic h b) else if p =? pic_port b + 1 then pic_data v (ch_pic h b) else ch_pic h b) (ch_regs h) (ch_sel h);
  mm_read a h := (if a =? IOAPIC + 16 then ch_regs h (ch_sel h) else 0, h);
  mm_write a v h :=
    if a =? IOAPIC then mkchips (ch_pic h) (ch_regs h) v
    else if (a =? IOAPIC + 16) && (REG_TABLE <=? ch_sel h) then mkchips (ch_pic h) (fun x => if x =? ch_sel h then v else ch_regs h x) (ch_sel h)
    else h
|}.

#[export] Instance chips_pic : PicOk chips chips_io.
Proof.
  refine {| pic b h := ch_pic h b |}; [done|done|]. intros b a v h. cbn [mm_write chips_io]. by repeat case_match.
Defined.

#[export] Instance chips_ioapic : IoapicOk chips chips_io.
Proof.
  refine {| ioregs := ch_regs; iosel := ch_sel |}; cbn [mm_write mm_read io_out chips_io].
  - intros r h. by rewrite Z.eqb_refl.
  - intros d h Hs. change (IOAPIC + 16 =? IOAPIC) with false. rewrite Z.eqb_refl, (proj2 (Z.leb_le _ _) Hs). done.
  - intros h. by rewrite Z.eqb_refl.
  - done.
Defined.

(** An I/O APIC of 24 lines. *)
Definition chips0 : chips := mkchips (fun _ => mkpic 0 0 0 0 0) (fun x => if x =? REG_VER then 1507345 else 0) 0.
Definition dv1 : devs chips := mkdevs chips0 (replicate NCPU 0) 0 true 2 0 4276092928 irqmask0 false 0 [].

End IntrDemo.

(** ** The clock *)

(** The registers of the real-time clock, between two updates. *)
Class RtcOk (H : Type) (IO : PortIo H) := {
  rtc : H -> Z -> Z;
  rtc_sel : H -> Z;
  rtc_out r h : rtc_sel (io_out CMOS_PORT r h) = r /\ forall x, rtc (io_out CMOS_PORT r h) x = rtc h x;
  rtc_in h : fst (io_in CMOS_RETURN h) = rtc h (rtc_sel h) /\ forall x, rtc (snd (io_in CMOS_RETURN h)) x = rtc h x
}.

Section Rtc.
Context {H : Type} {IO : PortIo H} {RO : RtcOk H IO}.
Implicit Types s : devs H.

Definition to_bcd (v : Z) : Z := 16 * (v / 10) + v mod 10.

Lemma CONV_bcd v : 0 <= v < 100 -> CONV (to_bcd v) = v.
Proof.
  intros Hv. unfold CONV, to_bcd. pose proof (Z.mod_pos_bound v 10 ltac:(lia)). assert (0 <= v / 10 < 10) by (split; [apply Z.div_pos; lia|apply Z.div_lt_upper_bound; lia]).
  rewrite Z.shiftr_div_pow2 by lia. change (2 ^ 4) with 16. change 15 with (Z.ones 4). rewrite Z.land_ones by lia. change (2 ^ 4) with 16.
  rewrite (Z.mul_comm 16), Z.div_add_l, (Z.div_small (v mod 10) 16) by lia. rewrite (Z.add_comm (v / 10 * 16)), Z.mod_add, (Z.mod_small (v mod 10) 16) by lia.
  pose proof (Z.div_mod v 10 ltac:(lia)). lia.
Qed.

Lemma cmos_read_spec reg s : 0 <= reg < 256 -> exists h, cmos_read reg s = Done (rtc (dv_hw s) reg) (set_dhw h s) /\ forall x, rtc h x = rtc (dv_hw s) x.
Proof.
  intros Hr. unfold cmos_read, microdelay, d_outb, d_inb, bind, get, modify, ret. cbn [set_dhw dv_hw]. rewrite u8_id by lia.
  destruct (rtc_out reg (dv_hw s)) as [E1 E2]. destruct (rtc_in (io_out CMOS_PORT reg (dv_hw s))) as [E3 E4]. rewrite E3, E1, E2. eexists. split; [done|]. intros x. by rewrite E4.
Qed.

Definition reading (r : Z -> Z) : rtcdate := mkrtc (r 0) (r 2) (r 4) (r 7) (r 8) (r 9).

Ltac read_reg := match goal with |- context [cmos_read ?r ?s] =>
  let h := fresh "h" in let E := fresh "E" in let R := fresh "R" in destruct (cmos_read_spec r s) as (h & E & R); [by vm_compute|]; rewrite E; cbn [set_dhw dv_hw] in R |- * end.

Lemma fill_spec s : exists h, fill_rtcdate s = Done (reading (rtc (dv_hw s))) (set_dhw h s) /\ forall x, rtc h x = rtc (dv_hw s) x.
Proof.
  unfold fill_rtcdate, bind. do 6 read_reg. eexists. split; [unfold ret, reading; do 2 f_equal; congruence|]. intros x. congruence.
Qed.

(** cmostime returns the date the clock shows, in binary, for a clock that
    counts in BCD as for one that counts in binary. *)
Lemma cmostime_date fuel s (d : rtcdate) (bcd : bool) : let r := rtc (dv_hw s) in let enc v := if bcd then to_bcd v else v in
  test (r CMOS_STATA) CMOS_UIP = false -> Z.land (r CMOS_STATB) 4 = (if bcd then 0 else 4) ->
  Forall (fun v => 0 <= v < 100) [r_second d; r_minute d; r_hour d; r_day d; r_month d; r_year d] ->
  reading r = mkrtc (enc (r_second d)) (enc (r_minute d)) (enc (r_hour d)) (enc (r_day d)) (enc (r_month d)) (enc (r_year d)) ->
  runs (cmostime (S fuel)) s (fun t _ => t = mkrtc (r_second d) (r_minute d) (r_hour d) (r_day d) (r_month d) (r_year d + 2000)).
Proof.
  intros r enc Hu Hb Hd Hr. unfold cmostime, runs. unfold bind at 1. read_reg. fold r. change (Z.shiftl 1 2) with 4. rewrite Hb.
  assert (Hl : exists h', cmos_loop (S fuel) (set_dhw h s) = Done (reading r) (set_dhw h' s)).
  { cbn [cmos_loop]. unfold bind. destruct (fill_spec (set_dhw h s)) as (h1 & E1 & R1). rewrite E1. cbn [set_dhw dv_hw] in *. read_reg. rewrite R1, R. fold r. rewrite Hu.
    destruct (fill_spec (set_dhw h0 (set_dhw h1 (set_dhw h s)))) as (h2 & E2 & R2). rewrite E2. cbn [set_dhw dv_hw] in *.
    assert (Es : forall f g : Z -> Z, (forall x, f x = g x) -> reading f = reading g) by (intros f g Hfg; unfold reading; by rewrite !Hfg).
    rewrite decide_True by (apply Es; congruence). exists h2. unfold ret. f_equal. by apply Es. }
  destruct Hl as [h' Hl]. unfold bind. rewrite Hl, Hr. unfold ret. cbn [r_second r_minute r_hour r_day r_month r_year].
  apply Forall_cons in Hd as [D1 Hd]. apply Forall_cons in Hd as [D2 Hd]. apply Forall_cons in Hd as [D3 Hd]. apply Forall_cons in Hd as [D4 Hd]. apply Forall_cons in Hd as [D5 Hd]. apply Forall_cons in Hd as [D6 _].
  destruct bcd; cbn [Z.eqb r_second r_minute r_hour r_day r_month r_year]; unfold enc; rewrite ?CONV_bcd by done; done.
Qed.
End Rtc.
