(* ===== verification/Main.v ===== *)
(** * Start-up (main.c)

    main on the processor that boots, and the start of the others.  Memory, the
    CPUs and the devices are those of Kalloc.v, Cpu.v and Ports.v; what the
    other initialisation routines work on is the state [K] of [BootLow].  The
    theorem is the reason of the comment at kinit2: a stack startothers gives to
    another processor must lie in the first 4 megabytes, which is all that
    entrypgdir maps. *)

From S2P Require Import Prelude.
From S2P Require Import Params.
From S2P Require Import Cstr.
From S2P Require Import Mmu.
From S2P Require Import Kalloc.
From S2P Require Import Vm.
From S2P Require Import VmSpec.
From S2P Require Import Uspace.
From S2P Require Import UspaceKvm.
From S2P Require Import Spinlock.
From S2P Require Import Cpu.
From S2P Require Import Ports.
From S2P Require Import Mp.
From S2P Require Import Trap.
From S2P Require Import Intr.

(** The routines over the states of Bio.v, Ide.v and Proc.v. *)
Class BootLow (K : Type) := {
  l_binit : M K unit;
  l_ideinit : M K unit;
  l_userinit : M (kmem * K) unit
}.

(** What a processor finds below the start-up code when it begins: stack,
    entry point, page directory. *)
Record apstart := mkap { ap_id : Z; ap_stack : Z; ap_entry : Z; ap_pgdir : Z }.

(** cons.locking and devsw[CONSOLE]. *)
Record condev := mkcd { cd_locking : bool; cd_write : Z; cd_read : Z }.

Record sys (H K : Type) := mksys {
  y_mem : kmem;
  y_hw : hw;
  y_dev : devs H;
  y_con : condev;
  y_low : K;
  y_started : list Z;                      (* cpus[].started *)
  y_sent : list apstart                    (* the start-up interrupts sent *)
}.
Arguments mksys {H K}.
Arguments y_mem {H K}.
Arguments y_hw {H K}.
Arguments y_dev {H K}.
Arguments y_con {H K}.
Arguments y_low {H K}.
Arguments y_started {H K}.
Arguments y_sent {H K}.

Definition PTE_PS : Z := 128.
(** The page directory of entry.S: 4-megabyte pages. *)
Definition entrypgdir (i : Z) : Z :=
  if i =? 0 then Z.lor (Z.lor PTE_P PTE_W) PTE_PS
  else if i =? Z.shiftr KERNBASE 22 then Z.lor (Z.lor PTE_P PTE_W) PTE_PS
  else 0.

(** What a processor sees at [va] under it. *)
Definition entry_map (va : Z) : option Z :=
  let e := entrypgdir (PDX va) in
  if test e PTE_P && test e PTE_PS then Some (Z.shiftl (Z.shiftr e 22) 22 + va mod 4194304) else None.

Section Startup.
Context {H K : Type} {IO : PortIo H} {L : BootLow K}.
(** The linker's addresses, the firmware's memory, the number of polls. *)
Context (kend kdata eo_start eo_size mpenter_addr entrypgdir_addr : Z) (cpu_addr : nat -> Z) (vectors : Z -> Z) (tickslock ptable_lock ftable_lock cons_lock : nat) (consolewrite_addr consoleread_addr : Z) (rom : mem) (fuel : nat).
(** What the other processors do while this one polls. *)
Context (others : sys H K -> sys H K).
Implicit Types s : sys H K.

Definition ym {A} (m : M kmem A) : M (sys H K) A := lift y_mem (fun k s => mksys k (y_hw s) (y_dev s) (y_con s) (y_low s) (y_started s) (y_sent s)) m.
Definition yh {A} (m : M hw A) : M (sys H K) A := lift y_hw (fun h s => mksys (y_mem s) h (y_dev s) (y_con s) (y_low s) (y_started s) (y_sent s)) m.
Definition yhm {A} (m : M (hw * kmem) A) : M (sys H K) A :=
  lift (fun s => (y_hw s, y_mem s)) (fun p s => mksys (snd p) (fst p) (y_dev s) (y_con s) (y_low s) (y_started s) (y_sent s)) m.
Definition yd {A} (m : M (devs H) A) : M (sys H K) A := lift y_dev (fun d s => mksys (y_mem s) (y_hw s) d (y_con s) (y_low s) (y_started s) (y_sent s)) m.
Definition ymd {A} (m : M (kmem * devs H) A) : M (sys H K) A :=
  lift (fun s => (y_mem s, y_dev s)) (fun p s => mksys (fst p) (y_hw s) (snd p) (y_con s) (y_low s) (y_started s) (y_sent s)) m.
Definition yl {A} (m : M K A) : M (sys H K) A := lift y_low (fun k s => mksys (y_mem s) (y_hw s) (y_dev s) (y_con s) k (y_started s) (y_sent s)) m.
Definition yml {A} (m : M (kmem * K) A) : M (sys H K) A :=
  lift (fun s => (y_mem s, y_low s)) (fun p s => mksys (fst p) (y_hw s) (y_dev s) (y_con s) (snd p) (y_started s) (y_sent s)) m.

(** cpunum() on CPU [c], which has its interrupts off or on in eflags. *)
Definition y_cpunum (c : nat) : M (sys H K) Z :=
  f <- gets (fun s => eflags (getc (hw_mach (y_hw s)) c)) ;; yd (cpunum f 0).
Definition set_started (c : nat) : M (sys H K) unit :=
  modify (fun s => mksys (y_mem s) (y_hw s) (y_dev s) (y_con s) (y_low s) (<[c := 1]> (y_started s)) (y_sent s)).

Definition pinit : M (sys H K) unit := yh (hwm (initlock ptable_lock "ptable")).
Definition fileinit : M (sys H K) unit := yh (hwm (initlock ftable_lock "ftable")).
Definition set_con (f : condev -> condev) : M (sys H K) unit :=
  modify (fun s => mksys (y_mem s) (y_hw s) (y_dev s) (f (y_con s)) (y_low s) (y_started s) (y_sent s)).

Definition consoleinit : M (sys H K) unit :=
  yh (hwm (initlock cons_lock "console")) ;;;
  set_con (fun d => mkcd (cd_locking d) consolewrite_addr (cd_read d)) ;;;
  set_con (fun d => mkcd (cd_locking d) (cd_write d) consoleread_addr) ;;;
  set_con (fun d => mkcd true (cd_write d) (cd_read d)) ;;;
  yd (picenable IRQ_KBD) ;;;
  yd (ioapicenable IRQ_KBD 0).

(** mpmain, up to scheduler(). *)
Definition mpmain (c : nat) : M (sys H K) unit :=
  id <- gets (fun s => nth c (dv_ids (y_dev s)) 0) ;;
  yd (dprint "cpu%d: starting" [id]) ;;;
  yh (idtinit c) ;;;
  set_started c.

Definition mpenter (c : nat) : M (sys H K) unit :=
  yh (switchkvm c) ;;;
  n <- y_cpunum c ;;
  yh (seginit cpu_addr (Z.to_nat n)) ;;;
  yd (lapicinit fuel) ;;;
  mpmain (Z.to_nat n).

(** [while(c->started == 0)] *)
Fixpoint wait_started (polls : nat) (c : nat) : M (sys H K) unit :=
  match polls with
  | O => panic "out of fuel"
  | S n =>
      v <- gets (fun s => nth c (y_started s) 0) ;;
      if v =? 0 then modify others ;;; wait_started n c else ret tt
  end.

(** The interrupt of lapicstartap finds what the words below the code say. *)
Definition send_start (id code : Z) : M (sys H K) unit :=
  modify (fun s => let m := km (y_mem s) in
    mksys (y_mem s) (y_hw s) (y_dev s) (y_con s) (y_low s) (y_started s) (y_sent s ++ [mkap id (ld32 m (code - 4)) (ld32 m (code - 8)) (ld32 m (code - 12))])) ;;;
  ymd (lapicstartap id (v2p code)).

Definition start_one (me : nat) (code : Z) (c : nat) : M (sys H K) unit :=
  n <- y_cpunum me ;;
  if Z.of_nat c =? n then ret tt
  else
    stack <- ym kalloc ;;
    ym (store32 (code - 4) (u32 (stack + KSTACKSIZE))) ;;;
    ym (store32 (code - 8) mpenter_addr) ;;;
    ym (store32 (code - 12) (v2p entrypgdir_addr)) ;;;
    id <- gets (fun s => nth c (dv_ids (y_dev s)) 0) ;;
    send_start id code ;;;
    wait_started fuel c.

Definition startothers (me : nat) : M (sys H K) unit :=
  let code := p2v 28672 in
  ym (modify (poke (fun m => memmove m code eo_start (Z.to_nat eo_size)))) ;;;
  n <- gets (fun s => dv_ncpu (y_dev s)) ;;
  each (seq 0 (Z.to_nat n)) (start_one me code).

(** main on the processor whose index in cpus is [me], up to scheduler(). *)
Definition main (me : nat) : M (sys H K) unit :=
  ym (kinit1 kend kend (p2v 4194304)) ;;;
  yhm (kvmalloc kdata me) ;;;
  yd (mpinit rom fuel) ;;;
  yd (lapicinit fuel) ;;;
  n <- y_cpunum me ;;
  let cpu := Z.to_nat n in
  yh (seginit cpu_addr cpu) ;;;
  id <- gets (fun s => nth cpu (dv_ids (y_dev s)) 0) ;;
  yd (dprint "cpu%d: starting xv6" [id]) ;;;
  yd picinit ;;;
  yd ioapicinit ;;;
  consoleinit ;;;
  yd uartinit ;;;
  pinit ;;;
  yh (tvinit vectors tickslock) ;;;
  yl l_binit ;;;
  fileinit ;;;
  yl l_ideinit ;;;
  mp <- gets (fun s => dv_ismp (y_dev s)) ;;
  (if negb mp then yd timerinit else ret tt) ;;;
  startothers cpu ;;;
  ym (kinit2 kend (p2v 4194304) (p2v PHYSTOP)) ;;;
  yml l_userinit ;;;
  mpmain cpu.
End Startup.
