(* ===== verification/MainSpec.v ===== *)
(** * The stacks of the other processors (main.c)

    startothers gives each of the other processors a stack of its own that
    entrypgdir maps, because the free list then holds only pages below 4
    megabytes, and it returns when they have all come up. *)

From S2P Require Import Prelude.
From S2P Require Import Params.
From S2P Require Import Cstr.
From S2P Require Import Mmu.
From S2P Require Import Kalloc.
From S2P Require Import Vm.
From S2P Require Import VmBytes.
From S2P Require Import VmSpec.
From S2P Require Import Uspace.
From S2P Require Import UspaceKvm.
From S2P Require Import Spinlock.
From S2P Require Import Cpu.
From S2P Require Import Ports.
From S2P Require Import Mp.
From S2P Require Import Intr.
From S2P Require Import Main.

(** ** What entrypgdir maps *)

Definition low (v : Z) : Prop := v < KERNBASE + 4194304.

(** A stack a processor can use under entrypgdir: its page is where the kernel
    has it. *)
Definition usable (top : Z) : Prop := forall x, top - 4096 <= x < top -> entry_map x = Some (v2p x).

Lemma entry_low x : KERNBASE <= x < KERNBASE + 4194304 -> entry_map x = Some (v2p x).
Proof.
  intros Hx. destruct (p2v_v2p x) as [_ E]; [unfold KERNBASE in *; lia|]. rewrite E. unfold entry_map. rewrite PDX_div by (unfold KERNBASE in *; lia).
  assert (Ed : x / 4194304 = 512) by (symmetry; apply (Z.div_unique _ _ _ (x - KERNBASE)); unfold KERNBASE in *; lia). rewrite Ed.
  change (entrypgdir 512) with 131. change (test 131 PTE_P && test 131 PTE_PS) with true. change (Z.shiftl (Z.shiftr 131 22) 22) with 0. cbv beta iota zeta.
  f_equal. rewrite Z.mod_eq, Ed by lia. unfold KERNBASE. lia.
Qed.

Lemma entry_high x : KERNBASE + 4194304 <= x < 4294967296 -> entry_map x = None.
Proof.
  intros Hx. unfold entry_map. rewrite PDX_div by (unfold KERNBASE in *; lia).
  assert (Hd : 513 <= x / 4194304) by (apply Z.div_le_lower_bound; unfold KERNBASE in *; lia). unfold entrypgdir.
  rewrite (proj2 (Z.eqb_neq _ 0)) by lia. rewrite (proj2 (Z.eqb_neq _ _)); [reflexivity|]. change (Z.shiftr KERNBASE 22) with 512. lia.
Qed.

Lemma usable_low kend v : KERNBASE < kend -> page kend v -> usable (v + 4096) <-> low v.
Proof.
  intros Hk (Ha & Hv & Hp). unfold usable, low. split.
  - intros H. destruct (Z_lt_le_dec v (KERNBASE + 4194304)) as [|Hge]; [done|]. specialize (H v ltac:(lia)).
    rewrite entry_high in H; [done|]. unfold KERNBASE, PHYSTOP in *. lia.
  - intros H x Hx. apply entry_low. pose proof (Z.div_mod v 4096). unfold KERNBASE in *. lia.
Qed.

(** The free list only depends on its own pages. *)
Lemma free_ext kend s s' l : free_ok kend s l -> freelist s' = freelist s -> (forall v x, v ∈ l -> v <= x < v + 4096 -> km s' x = km s x) -> free_ok kend s' l.
Proof.
  intros [F1 F2 F3] Ef Hx. split; try done. rewrite Ef. eapply flist_ext; [|exact F1]. intros v Hv. apply ld32_ext. intros x Hr. apply (Hx v); [done|lia].
Qed.

(** ** The devices keep what mpinit found *)

Section Devs.
Context {H : Type} {IO : PortIo H}.

Definition dsame (d d' : devs H) : Prop := dv_lapic d' = dv_lapic d /\ dv_ids d' = dv_ids d /\ dv_ncpu d' = dv_ncpu d.

(** The ID register of this processor, as cpunum reads it. *)
Definition my_id (lapic : Z) (me : nat) : Prop :=
  forall h, (if lapic =? 0 then 0 else Z.shiftr (fst (mm_read (lapic + 4 * L_ID) h)) 24) = Z.of_nat me.

Lemma dsame_refl d : dsame d d.
Proof. done. Qed.
Lemma dsame_trans d1 d2 d3 : dsame d1 d2 -> dsame d2 d3 -> dsame d1 d3.
Proof. unfold dsame. intuition congruence. Qed.

Lemma cpunum_me f a d me : my_id (dv_lapic d) me -> runs (cpunum f a) d (fun r d' => r = Z.of_nat me /\ dsame d d').
Proof.
  intros Hid. unfold cpunum. apply runs_bind.
  assert (Hrest : forall d', dsame d d' -> runs (l <- gets dv_lapic ;; if negb (l =? 0) then v <- lapicr L_ID ;; ret (Z.shiftr v 24) else ret 0) d' (fun r d2 => r = Z.of_nat me /\ dsame d d2)).
  { intros d' (E1 & E2 & E3). apply runs_bind, runs_gets. rewrite E1. specialize (Hid (dv_hw d')). destruct (dv_lapic d =? 0); cbn [negb]; [by apply runs_ret|].
    unfold runs, lapicr, mmio_read, bind, gets, get, modify, ret. rewrite E1. done. }
  destruct (test f FL_IF); [|apply runs_ret; by apply Hrest]. apply runs_bind, runs_gets, runs_bind, runs_modify.
  destruct (dv_asked d =? 0); [apply runs_modify|apply runs_ret]; by apply Hrest.
Qed.

(** The start-up interrupts touch memory only at the warm reset vector. *)
Definition sent_same (s s' : kmem * devs H) : Prop :=
  dsame (snd s) (snd s') /\ freelist (fst s') = freelist (fst s) /\ forall x, KERNBASE + 4096 <= x -> km (fst s') x = km (fst s) x.

Lemma runs_lapicw i v (s s0 : kmem * devs H) : sent_same s0 s -> runs (in_dev (lapicw i v)) s (fun _ s' => sent_same s0 s').
Proof. destruct s as [k d]. intros Hs. exact Hs. Qed.

Lemma lapicstartap_same id a (s : kmem * devs H) : runs (lapicstartap id a) s (fun _ s' => sent_same s s').
Proof.
  unfold lapicstartap. do 2 (apply runs_bind; unfold in_dev at 1; apply runs_lift, runs_modify). cbv zeta.
  do 2 (apply runs_bind; unfold in_mem at 1; apply runs_lift, runs_modify). set (s1 := (_, _)).
  assert (Hs : sent_same s s1).
  { split_and!; [done|done|]. intros x Hx. subst s1. cbn [fst snd poke km]. change (p2v (Z.lor (Z.shiftl 64 4) 103)) with (KERNBASE + 1127). unfold st16.
    by rewrite !(proj2 (Z.eqb_neq x _)) by lia. }
  clearbody s1. apply runs_bind. eapply runs_mono; [by apply (runs_lapicw _ _ s1 s)|]. cbv beta. intros _ s2 H2.
  apply runs_bind. eapply runs_mono; [by apply (runs_lapicw _ _ s2 s)|]. cbv beta. intros _ s3 H3. apply runs_bind. destruct s3 as [k3 d3]. apply runs_lift, runs_ret. cbn [fst snd].
  apply runs_bind. eapply runs_mono; [by apply (runs_lapicw _ _ (k3, d3) s)|]. cbv beta. intros _ [k4 d4] H4. apply runs_bind, runs_lift, runs_ret. cbn [fst snd].
  apply (runs_each _ _ (fun _ s' => sent_same s s')); [done| |done]. intros _ _ s5 H5.
  apply runs_bind. eapply runs_mono; [by apply (runs_lapicw _ _ s5 s)|]. cbv beta. intros _ s6 H6.
  apply runs_bind. eapply runs_mono; [by apply (runs_lapicw _ _ s6 s)|]. cbv beta. intros _ [k7 d7] H7. exact H7.
Qed.
End Devs.

(** ** startothers *)

Section Start.
Context {H K : Type} {IO : PortIo H} {L : BootLow K}.
Context (kend kdata eo_start eo_size mpenter_addr entrypgdir_addr : Z) (fuel : nat) (others : sys H K -> sys H K).
Implicit Types s : sys H K.

(** What a processor needs to come up. *)
Definition good_start (a : apstart) : Prop :=
  usable (ap_stack a) /\ ap_entry a = mpenter_addr /\ ap_pgdir a = v2p entrypgdir_addr.
Definition on_stack (a : apstart) (x : Z) : Prop := ap_stack a - 4096 <= x < ap_stack a.

(** A step of the other processors: they write only on the stacks they were
    given, and one that was started well reaches mpmain within [fuel] steps. *)
Record aps_ok : Prop := {
  ao_sent : forall s, y_sent (others s) = y_sent s;
  ao_free : forall s, freelist (y_mem (others s)) = freelist (y_mem s);
  ao_dev : forall s, dsame (y_dev s) (y_dev (others s));
  ao_len : forall s, length (y_started (others s)) = length (y_started s);
  ao_stay : forall s c, nth c (y_started s) 0 <> 0 -> nth c (y_started (others s)) 0 <> 0;
  ao_mem : forall s x, (forall a, a ∈ y_sent s -> ~ on_stack a x) -> km (y_mem (others s)) x = km (y_mem s) x;
  ao_up : forall s c a, a ∈ y_sent s -> good_start a -> ap_id a = nth c (dv_ids (y_dev s)) 0 -> (c < length (y_started s))%nat ->
    exists n, (n < fuel)%nat /\ nth c (y_started (Nat.iter n others s)) 0 <> 0
}.

Context (me : nat) (lapic : Z) (ids : list Z).
Hypothesis Hend : KERNBASE + 1048576 <= kend.
Hypothesis Heo : 0 <= eo_size <= 1048576 - 28672.
Hypothesis Hentry : 0 <= mpenter_addr < 4294967296.
Hypothesis Hap : aps_ok.
Hypothesis Hid : my_id lapic me.

(** After the processors [cs] were started, [sent] having gone out. *)
Record progress (l : list Z) (n : nat) (cs : list nat) s : Prop := {
  pr_free : exists l', l = map (fun a => ap_stack a - 4096) (y_sent s) ++ l' /\ free_ok kend (y_mem s) l';
  pr_dev : dv_lapic (y_dev s) = lapic /\ dv_ids (y_dev s) = ids;
  pr_len : (n <= length (y_started s))%nat;
  pr_ids : map ap_id (y_sent s) = map (fun c => nth c ids 0) (filter (fun c => c <> me) cs);
  pr_good : Forall good_start (y_sent s);
  pr_up : Forall (fun c => nth c (y_started s) 0 <> 0) (filter (fun c => c <> me) cs)
}.

(** The same, while the last of them is coming up. *)
Record waiting (l : list Z) (n : nat) (cs : list nat) (c : nat) s : Prop := {
  wt_free : exists l', l = map (fun a => ap_stack a - 4096) (y_sent s) ++ l' /\ free_ok kend (y_mem s) l';
  wt_dev : dv_lapic (y_dev s) = lapic /\ dv_ids (y_dev s) = ids;
  wt_len : (n <= length (y_started s))%nat;
  wt_ids : map ap_id (y_sent s) = map (fun c => nth c ids 0) (filter (fun c => c <> me) cs ++ [c]);
  wt_good : Forall good_start (y_sent s);
  wt_up : Forall (fun c => nth c (y_started s) 0 <> 0) (filter (fun c => c <> me) cs)
}.

Lemma waiting_others l n cs c s : NoDup l -> Forall (page kend) l -> waiting l n cs c s -> waiting l n cs c (others s).
Proof.
  intros Hnd Hpg [(l' & El & Hf) [D1 D2] W3 W4 W5 W6]. destruct (ao_dev Hap s) as (E1 & E2 & _). pose proof (ao_sent Hap s) as Es.
  split; rewrite ?Es, ?(ao_len Hap s), ?E1, ?E2; try done.
  - exists l'. split; [done|]. apply (free_ext kend (y_mem s)); [done|apply (ao_free Hap)|]. intros v x Hv Hx. apply (ao_mem Hap). intros a Ha Hon.
    rewrite El in Hnd, Hpg. apply NoDup_app in Hnd as (_ & Hdis & _). rewrite Forall_app, !Forall_forall in Hpg. destruct Hpg as [P1 P2].
    assert (Hin : ap_stack a - 4096 ∈ map (fun a => ap_stack a - 4096) (y_sent s)) by (apply list_elem_of_fmap; by exists a).
    apply (pages_apart kend v (ap_stack a - 4096) x); [auto|auto| |done|unfold on_stack in Hon; lia]. intros ->. by apply (Hdis _ Hin).
  - eapply Forall_impl; [exact W6|]. intros c'. apply (ao_stay Hap).
Qed.

Lemma wait_started_up (I : sys H K -> Prop) c polls s : (forall s, I s -> I (others s)) -> I s ->
  (exists n, (n < polls)%nat /\ nth c (y_started (Nat.iter n others s)) 0 <> 0) ->
  runs (wait_started others polls c) s (fun _ s' => I s' /\ nth c (y_started s') 0 <> 0).
Proof.
  intros HI. revert s. induction polls as [|p IH]; intros s Hs (n & Hn & Hup); [lia|]. cbn [wait_started]. apply runs_bind, runs_gets.
  destruct (Z.eqb_spec (nth c (y_started s) 0) 0) as [E|E]; [|by apply runs_ret].
  destruct n as [|n]; [done|]. apply runs_bind, runs_modify, IH; [by apply HI|]. exists n. split; [lia|]. by rewrite <- Nat.iter_succ_r.
Qed.

(** The words below the start-up code. *)
Lemma start_words m st e d : 0 <= st < 4294967296 -> 0 <= e < 4294967296 -> 0 <= d < 4294967296 ->
  let m' := st32 (st32 (st32 m (p2v 28672 - 4) st) (p2v 28672 - 8) e) (p2v 28672 - 12) d in
  ld32 m' (p2v 28672 - 4) = st /\ ld32 m' (p2v 28672 - 8) = e /\ ld32 m' (p2v 28672 - 12) = d.
Proof.
  intros Hs He Hd. cbv zeta. split_and!.
  - by rewrite !ld32_st32_ne, ld32_st32_eq, u32_id by lia.
  - by rewrite ld32_st32_ne, ld32_st32_eq, u32_id by lia.
  - by rewrite ld32_st32_eq, u32_id by lia.
Qed.

(** Writing the words and sending the interrupts. *)
Definition sent_one (v : Z) (l' : list Z) (c : nat) s s' : Prop :=
  free_ok kend (y_mem s') l' /\ dsame (y_dev s) (y_dev s') /\ y_started s' = y_started s /\
  exists a, y_sent s' = y_sent s ++ [a] /\ ap_id a = nth c (dv_ids (y_dev s)) 0 /\ ap_stack a = v + 4096 /\ good_start a.

Lemma start_sent v l' c s (k : M (sys H K) unit) Q : free_ok kend (y_mem s) l' -> page kend v -> low v -> (forall s', sent_one v l' c s s' -> runs k s' Q) ->
  runs (ym (store32 (p2v 28672 - 4) (u32 (v + KSTACKSIZE))) ;;; ym (store32 (p2v 28672 - 8) mpenter_addr) ;;; ym (store32 (p2v 28672 - 12) (v2p entrypgdir_addr)) ;;;
        id <- gets (fun s => nth c (dv_ids (y_dev s)) 0) ;; send_start id (p2v 28672) ;;; k) s Q.
Proof.
  intros Hf Hv Hl Hk. assert (Hvr : KERNBASE + 1048576 <= v < KERNBASE + 4194304) by (destruct Hv as (_ & ? & _); unfold low in Hl; lia).
  assert (Est : u32 (v + KSTACKSIZE) = v + 4096) by (unfold KSTACKSIZE; apply u32_id; unfold KERNBASE in *; lia). rewrite Est.
  do 3 (apply runs_bind; unfold ym at 1; apply runs_lift, runs_modify). apply runs_bind, runs_gets, runs_bind. unfold send_start. apply runs_bind, runs_modify. unfold ymd. apply runs_lift.
  cbn [y_mem y_hw y_dev y_low y_started y_sent poke km]. eapply runs_mono; [apply lapicstartap_same|]. cbv beta. intros _ [m d] (Hd & Hm & Hx). apply Hk. unfold sent_one. cbn [fst snd y_mem y_dev y_started y_sent] in *.
  assert (Hu : 0 <= v2p entrypgdir_addr < 4294967296) by apply Z.mod_pos_bound, eq_refl.
  destruct (start_words (km (y_mem s)) (v + 4096) mpenter_addr (v2p entrypgdir_addr)) as (W1 & W2 & W3); [unfold KERNBASE in *; lia|done|done|].
  rewrite W1, W2, W3. split_and!; [|done|done|].
  - apply (free_ext kend (y_mem s)); [done|done|]. intros w x Hw Hr. pose proof (fr_page _ _ _ Hf) as Hpg. rewrite Forall_forall in Hpg. destruct (Hpg w Hw) as (_ & Hw' & _).
    rewrite Hx by lia. cbn [poke km]. change (p2v 28672) with (KERNBASE + 28672). by rewrite !st32_ne by lia.
  - eexists. split_and!; [done|done|done|]. split_and!; [|done|done]. by apply (usable_low kend); [lia|done|].
Qed.

Lemma start_one_runs l n cs c s : NoDup l -> Forall (page kend) l -> Forall low l -> (c < n)%nat ->
  (length (filter (fun c => c <> me) (cs ++ [c])) <= length l)%nat -> progress l n cs s ->
  runs (start_one mpenter_addr entrypgdir_addr fuel others me (p2v 28672) c) s (fun _ s' => progress l n (cs ++ [c]) s').
Proof.
  intros Hnd Hpg Hlow Hc Hlen [(l' & El & Hf) [D1 D2] P3 P4 P5 P6]. unfold start_one. apply runs_bind. unfold y_cpunum. apply runs_bind, runs_gets. unfold yd at 1. apply runs_lift.
  eapply runs_mono; [apply (cpunum_me _ _ _ me); by rewrite D1|]. cbv beta. intros r d' [-> (E1 & E2 & E3)].
  set (s1 := mksys _ _ d' _ _ _ _). destruct (Z.eqb_spec (Z.of_nat c) (Z.of_nat me)) as [Ec|Ec].
  { apply runs_ret. split; rewrite ?filter_app, ?filter_cons_False, ?filter_nil, ?app_nil_r by lia; try done; [by exists l'|cbn; by rewrite E1, E2]. }
  assert (Hcm : c <> me) by lia. rewrite filter_app, filter_cons_True, filter_nil, length_app in Hlen by done. cbn [length] in Hlen.
  assert (Hsl : length (y_sent s) = length (filter (fun c => c <> me) cs)) by (by rewrite <- (length_map ap_id), P4, length_map).
  destruct l' as [|v l']; [rewrite El, app_nil_r, length_map in Hlen; lia|].
  destruct (kalloc_spec kend ltac:(unfold KERNBASE in *; lia) (y_mem s) (v :: l') Hf) as (Ek & Hf' & Hv & Hvl).
  apply runs_bind. unfold ym at 1. apply runs_lift. unfold runs at 1. change (y_mem s1) with (y_mem s). rewrite Ek.
  assert (Hlv : low v) by (rewrite Forall_forall in Hlow; apply Hlow; rewrite El; set_solver).
  apply (start_sent v l' c); [exact Hf'|done|done|]. intros s2 (Hf2 & (G1 & G2 & _) & Es & a & Ea & Ei & Eas & Hg).
  subst s1. cbn [y_mem y_hw y_dev y_started y_sent] in *.
  assert (Hw : waiting l n cs c s2).
  { split; rewrite ?Ea, ?Es, ?G1, ?G2; try done.
    - exists l'. split; [|done]. rewrite map_app, <- app_assoc, El. cbn [map app]. rewrite Eas. repeat f_equal. lia.
    - by rewrite E1, E2.
    - rewrite !map_app, P4. cbn [map]. rewrite Ei. by rewrite E2, D2.
    - apply Forall_app; split; [done|by apply Forall_singleton]. }
  eapply runs_mono; [apply (wait_started_up (waiting l n cs c)); [intros s3; by apply waiting_others|done|]|].
  - apply (ao_up Hap s2 c a); [rewrite Ea; set_solver|done| |rewrite Es; lia]. rewrite Ei, G2. done.
  - cbv beta. intros _ s3 [[W1 W2 W3 W4 W5 W6] Hup]. split; rewrite ?filter_app, ?filter_cons_True, ?filter_nil by done; try done. apply Forall_app; split; [done|by apply Forall_singleton].
Qed.

Lemma startothers_runs l n s : mem_ok (km (y_mem s)) -> free_ok kend (y_mem s) l -> Forall low l -> y_sent s = [] -> dv_lapic (y_dev s) = lapic -> dv_ids (y_dev s) = ids ->
  dv_ncpu (y_dev s) = Z.of_nat n -> (n <= length (y_started s))%nat -> (length (filter (fun c => c <> me) (seq 0 n)) <= length l)%nat ->
  runs (startothers eo_start eo_size mpenter_addr entrypgdir_addr fuel others me) s (fun _ s' => progress l n (seq 0 n) s').
Proof.
  intros Hm Hf Hlow Es El Ei En Hst Hlen. destruct Hf as [F1 F2 F3] eqn:Ef. clear Ef. unfold startothers. apply runs_bind. unfold ym at 1. apply runs_lift, runs_modify.
  apply runs_bind, runs_gets. cbn [y_dev]. rewrite En, Nat2Z.id.
  apply (runs_each _ _ (fun rem s' => exists cs, seq 0 n = cs ++ rem /\ progress l n cs s')).
  - exists []. split; [done|]. split; cbn [y_mem y_dev y_started y_sent]; rewrite ?Es; try done. exists l. split; [done|]. apply (free_ext kend (y_mem s)); [done|done|].
    intros v x Hv Hx. cbn [poke km]. rewrite memmove_bytes by done. rewrite Forall_forall in F2. destruct (F2 v Hv) as (_ & Hk & _).
    change (p2v 28672) with (KERNBASE + 28672). unfold inside. rewrite Z2Nat.id by lia. rewrite (proj2 (Z.ltb_ge x _)) by lia. by rewrite andb_false_r.
  - intros c rem s' (cs & E & Hp). eapply runs_mono; [apply (start_one_runs l n cs c); try done|].
    + assert (Hin : c ∈ seq 0 n) by (rewrite E; set_solver). apply elem_of_seq in Hin. lia.
    + rewrite E in Hlen. rewrite (cons_middle c cs rem), app_assoc, filter_app, length_app in Hlen. lia.
    + cbv beta. intros _ s2 H2. exists (cs ++ [c]). by rewrite <- app_assoc.
  - intros s' (cs & E & Hp). by rewrite E, app_nil_r.
Qed.
End Start.

(** ** What is free after kvmalloc *)

Section Low.
Context {H K : Type}.
Context (kend kdata : Z).
Hypothesis Hend : KERNBASE < kend < KERNBASE + PHYSTOP.
Hypothesis Hdata : KERNLINK < kdata < KERNBASE + PHYSTOP.
Hypothesis Hpage : kdata mod 4096 = 0.

Lemma pages_low p v : v ∈ pages p (npages p (KERNBASE + 4194304)) -> low v.
Proof.
  intros (k & Hk & ->)%elem_of_pages. unfold npages, low in *. pose proof (Z.div_mod (KERNBASE + 4194304 - p) 4096). pose proof (Z.mod_pos_bound (KERNBASE + 4194304 - p) 4096).
  destruct (Z_lt_le_dec ((KERNBASE + 4194304 - p) / 4096) 0); lia.
Qed.

Lemma kinit1_low (k : kmem) : mem_ok (km k) -> freelist k = 0 ->
  runs (kinit1 kend kend (p2v 4194304)) k (fun _ k' => mem_ok (km k') /\ exists l, free_ok kend k' l /\ Forall low l).
Proof.
  intros Hm Hk. unfold kinit1. apply runs_bind, runs_modify. unfold freerange. change (p2v 4194304) with (KERNBASE + 4194304).
  assert (Hp : PGROUNDUP kend mod 4096 = 0 /\ kend <= PGROUNDUP kend).
  { rewrite PGROUNDUP_div by (unfold KERNBASE, PHYSTOP in *; lia). rewrite Z.mod_mul by lia.
    pose proof (Z.div_mod (kend + 4095) 4096). pose proof (Z.mod_pos_bound (kend + 4095) 4096). lia. }
  eapply runs_mono; [apply (freerange_loop_spec kend ltac:(lia) _ _ _ _ []); try done; try lia|].
  - unfold npages, PGSIZE. lia.
  - split; [done|constructor|constructor].
  - by intros v ?%elem_of_nil.
  - cbv beta. intros _ s (Hf & _ & Hm' & _). split; [done|]. eexists. split; [exact Hf|]. rewrite app_nil_r. apply Forall_forall. intros v Hv. apply (pages_low (PGROUNDUP kend)). set_solver.
Qed.

Lemma kvmalloc_low c (h : hw) (k : kmem) l : mem_ok (km k) -> free_ok kend k l -> Forall low l ->
  runs (kvmalloc kdata c) (h, k) (fun _ s => mem_ok (km (snd s)) /\ exists l', free_ok kend (snd s) l' /\ Forall low l').
Proof.
  intros Hm Hf Hl. unfold kvmalloc. apply runs_bind, runs_lift. cbn [fst snd]. eapply runs_mono.
  { eapply runs_typed; [apply typed_setupkvm|exact Hm|]. by apply (setupkvm_spec kend kdata ltac:(lia)). }
  cbv beta. intros d k1 [Hr Hm1]. apply runs_bind, runs_modify. cbn [fst snd]. apply runs_lift. unfold switchkvm. apply runs_bind, runs_gets, runs_modify. cbn [fst snd]. split; [done|].
  rewrite Forall_forall in Hl. destruct Hr as [_ [(_ & _ & l' & Hf' & Hs)|(_ & t & l' & -> & Hu & _)]]; exists l'.
  - split; [done|]. apply Forall_forall. auto.
  - split; [apply Hu|]. apply Forall_forall. intros v Hv. apply Hl. set_solver.
Qed.

Lemma boot_low c (s : sys H K) : mem_ok (km (y_mem s)) -> freelist (y_mem s) = 0 ->
  runs (ym (kinit1 kend kend (p2v 4194304)) ;;; yhm (kvmalloc kdata c)) s
    (fun _ s' => mem_ok (km (y_mem s')) /\ exists l, free_ok kend (y_mem s') l /\ Forall low l).
Proof.
  intros Hm Hf. apply runs_bind. unfold ym. apply runs_lift. eapply runs_mono; [by apply kinit1_low|]. cbv beta. intros _ k (Hm' & l & Hl & Hlow).
  unfold yhm. apply runs_lift. cbn [y_hw y_mem]. eapply runs_mono; [by apply (kvmalloc_low c _ k l)|]. cbv beta. by intros _ [h' k'].
Qed.
End Low.


Module MainDemo.
#[local] Instance quiet : PortIo unit := {| io_in _ h := (0, h); io_out _ _ h := h; mm_read _ h := (0, h); mm_write _ _ h := h |}.

Definition dend : Z := 2149580800.
Definition two_pages : kmem := mkkmem (st32 (fun _ => 0) dend (dend + 4096)) dend false [].
Definition boot0 (k : kmem) : sys unit unit :=
  mksys k (mkhw (mkmach [nocpu; nocpu] [] (fun _ => 0)) [nosc; nosc] 0 [] []) (mkdevs tt [0; 1] 0 true 2 0 4276092928 0 false 0 []) (mkcd false 0 0) tt [0; 0] [].
(** The others reach mpmain at once. *)
Definition come_up (s : sys unit unit) : sys unit unit := mksys (y_mem s) (y_hw s) (y_dev s) (y_con s) (y_low s) (map (fun _ => 1) (y_started s)) (y_sent s).

Lemma come_up_ok : aps_ok 2148532300 2148540416 2 come_up.
Proof.
  assert (Hup : forall (l : list Z) c, (c < length l)%nat -> nth c (map (fun _ => 1) l) 0 <> 0).
  { induction l as [|z l IH]; intros c Hc; cbn in Hc; [lia|]. destruct c as [|c]; [done|]. apply (IH c). lia. }
  split; try done.
  - intros s. apply length_map.
  - intros s c Hc. apply Hup. destruct (Nat.lt_ge_cases c (length (y_started s))) as [|Hge]; [done|]. by rewrite nth_overflow in Hc.
  - intros s c a _ _ _ Hc. exists 1%nat. split; [lia|]. by apply Hup.
Qed.

End MainDemo.
