(* ===== verification/TrapSpec.v ===== *)
(** * What traps guarantee *)

From S2P Require Import Prelude.
From S2P Require Import Params.
From S2P Require Import Cstr.
From S2P Require Import Mmu.
From S2P Require Import Spinlock.
From S2P Require Import Cpu.
From S2P Require Import Proc.
From S2P Require Import ProcRun.
From S2P Require Import Sysproc.
From S2P Require Import Trap.

(** The vectors trap knows. *)
Definition known (no : Z) : bool :=
  existsb (Z.eqb no) [T_SYSCALL; T_IRQ0 + IRQ_TIMER; T_IRQ0 + IRQ_IDE; T_IRQ0 + IRQ_IDE + 1; T_IRQ0 + IRQ_KBD; T_IRQ0 + IRQ_COM1; T_IRQ0 + 7; T_IRQ0 + IRQ_SPURIOUS].

Section Spec.
Context {K : Type} {L : ProcLow K} {D : TrapLow K} (h : bool) (c : cpu) (cpuid : Z) (syscall : nat -> M (tstate K) bool).
Implicit Types s : tstate K.

Lemma exit_killed_keeps p k (Q : tret -> tstate K -> Prop) : (forall s, Q TExit s) -> hoare (fun s => p_killed (tproc s p) = 0) k Q ->
  hoare (fun _ => True) (exit_killed h c p k) Q.
Proof.
  intros HQ Hk. unfold exit_killed. eapply hoare_bind; [by apply (hoare_gets _ _ (fun b s => b = negb (p_killed (tproc s p) =? 0)))|].
  intros [|]; cbv beta.
  - apply (hoare_seq _ _ _ (fun _ => True)); [intros s _; by destruct (pp (exit h c p) s)|]. intros _. apply hoare_ret. auto.
  - eapply hoare_conseq; [exact Hk| |done]. intros s Hs. symmetry in Hs. apply negb_false_iff in Hs. by apply Z.eqb_eq.
Qed.

Lemma dispatch_fault s p tf : known (tf_trapno tf) = false -> user_mode tf = true ->
  runs (dispatch cpuid (Some p) tf) s (fun _ s' => ts_ps s' = upd p (set_killed 1) (ts_ps s) /\ ts_ticks s' = ts_ticks s).
Proof.
  intros Hk Hu. unfold known in Hk. cbn [existsb] in Hk. unfold dispatch. repeat (apply orb_false_iff in Hk as [?H Hk]).
  rewrite H0, H1, H2, H3, H4, H5, H6. cbn [orb]. apply runs_bind, runs_gets. unfold user_mode in Hu. apply Z.eqb_eq in Hu. rewrite Hu. change (DPL_USER =? 0) with false. cbv iota.
  apply runs_bind, runs_gets, runs_bind, runs_modify, runs_lift, runs_modify. done.
Qed.

(** What a clock tick does to a process. *)
Definition ticked (p : proc) : proc := if bool_decide (p_state p = SLEEPING) && bool_decide (p_chan p = Some ChTicks) then set_pstate RUNNABLE p else p.

Lemma clock_tick_eq s : clock_tick s = Done tt (set_ps (set_ptab (List.map ticked (ptab (ts_ps s))) (ts_ps s)) (set_ticks (u32 (ts_ticks s + 1)) s)).
Proof. done. Qed.
End Spec.


(** ** The clock and sleep *)

(** C24: sys_sleep wakes at every tick and ends on the right one.  For a process
    asleep on &ticks since ticks0, a clock tick makes it runnable, and when it
    runs it sleeps again while fewer than n ticks have passed since ticks0 and
    otherwise returns 0, or -1 when it has been killed before that.  Both counts
    are taken modulo 2^32, so sleep(-1) sleeps for 2^32 - 1 ticks. *)
Theorem sleep_ticks {K} {L : ProcLow K} (c : cpu) me (s : tstate K) ticks0 n : (me < length (ptab (ts_ps s)))%nat ->
  p_state (tproc s me) = SLEEPING -> p_chan (tproc s me) = Some ChTicks -> ncli c = 1 -> test (eflags c) FL_IF = false ->
  runs clock_tick s (fun _ s1 => p_state (tproc s1 me) = RUNNABLE /\ ts_ticks s1 = u32 (ts_ticks s + 1) /\
    runs (sleep_again true c me ticks0 n) s1 (fun r s2 => ts_ticks s2 = ts_ticks s1 /\
      if u32 (ts_ticks s1 - ticks0) <? u32 n
      then if p_killed (tproc s me) =? 0 then r = None /\ p_state (tproc s2 me) = SLEEPING /\ p_chan (tproc s2 me) = Some ChTicks else r = Some (-1)
      else r = Some 0)).
Proof.
  intros Hme Hst Hch Hc Hf. unfold runs at 1. rewrite clock_tick_eq. set (s1 := set_ps _ _).
  assert (E1 : tproc s1 me = ticked (tproc s me)).
  { unfold tproc, getp, s1. cbn [set_ps ts_ps set_ptab ptab]. rewrite <- (map_nth ticked). done. }
  assert (E1' : tproc s1 me = set_pstate RUNNABLE (tproc s me)) by (rewrite E1; unfold ticked; by rewrite !bool_decide_true).
  split; [by rewrite E1'|]. split; [done|]. unfold sleep_again. apply runs_bind, runs_lift, runs_modify. set (s2 := set_ps _ s1).
  assert (Hlen : (me < length (ptab (ts_ps s2)))%nat) by (unfold s2, s1; cbn; by rewrite length_alter, length_map).
  assert (E2 : tproc s2 me = set_chan None (tproc s1 me)).
  { unfold tproc, getp, s2. cbn [set_ps ts_ps upd ptab]. apply nth_alter_eq. unfold s1. cbn. by rewrite length_map. }
  unfold sleep_round. apply runs_bind, runs_gets. change (ts_ticks s2) with (ts_ticks s1). destruct (u32 (ts_ticks s1 - ticks0) <? u32 n); [|by apply runs_ret].
  apply runs_bind, runs_gets. rewrite E2, E1'. cbn [set_chan set_pstate p_killed]. destruct (p_killed (tproc s me) =? 0); cbn [negb]; [|by apply runs_ret].
  apply runs_bind, runs_lift. unfold sleep. cbn [negb]. apply runs_bind, runs_modify, runs_bind, runs_modify. unfold sched.
  set (s3 := upd me (set_pstate SLEEPING) (upd me (set_chan (Some ChTicks)) (ts_ps s2))).
  assert (E3 : getp s3 me = set_pstate SLEEPING (set_chan (Some ChTicks) (tproc s2 me))).
  { unfold s3, getp. cbn [upd ptab]. rewrite nth_alter_eq by (by rewrite length_alter). by rewrite nth_alter_eq. }
  apply runs_bind, runs_gets. cbn [negb]. rewrite Hc, E3, Hf. cbn. apply runs_ret. apply runs_ret. split; [done|]. unfold tproc. cbn [set_ps ts_ps]. rewrite E3. done.
Qed.

Module TrapDemo.
Import ProcDemo.
#[local] Existing Instance low0.
#[local] Instance dev0 : TrapLow unit := { l_ideintr := ret tt; l_kbdintr := ret tt; l_uartintr := ret tt; l_rcr2 _ := 0 }.

(** A page fault of process 1 in user mode. *)
Definition fault : trapframe := mktf 0 0 0 0 0 0 0 0 0 0 0 0 14 6 4660 35 512 4000 43.
Definition t0 : tstate unit := mkts d_run2 100 [] 0 [].


(** Process 1 asleep since tick 100. *)
Definition asleep : tstate unit := mkts (upd 1 (set_pstate SLEEPING) (upd 1 (set_chan (Some ChTicks)) d_run2)) 100 [] 0 [].

Lemma sleep_ticks_witness :
  runs clock_tick asleep (fun _ s1 => runs (sleep_again true idle 1 100 1) s1 (fun r _ => r = Some 0)) /\
  runs clock_tick asleep (fun _ s1 => runs (sleep_again true idle 1 100 (-1)) s1 (fun r _ => r = None)).
Proof.
  split.
  - eapply runs_mono; [apply (sleep_ticks idle 1 asleep 100 1); vm_compute; first [lia|done]|]. intros [] s1 (_ & E & Hr). rewrite E in Hr.
    eapply runs_mono; [exact Hr|]. cbv beta. intros r s2 [_ H]. exact H.
  - eapply runs_mono; [apply (sleep_ticks idle 1 asleep 100 (-1)); vm_compute; first [lia|done]|]. intros [] s1 (_ & E & Hr). rewrite E in Hr.
    eapply runs_mono; [exact Hr|]. cbv beta. intros r s2 [_ [H _]]. exact H.
Defined.
End TrapDemo.
