(* ===== verification/Umalloc.v ===== *)
(** * The user-level allocator (umalloc.c)

    The circular free list in the process's memory, a header of two words at
    the start of every block, sizes in headers of 8 bytes.  [base] is the
    address of the static header; sbrk moves the break up to what the kernel
    has to give. *)

From S2P Require Import Prelude.
From S2P Require Import Cstr.
From S2P Require Import Mmu.

Record uheap := mkuh { um : mem; freep : Z; brk : Z; lim : Z }.

Definition hptr (m : mem) (a : Z) : Z := ld32 m a.
Definition hsize (m : mem) (a : Z) : Z := ld32 m (a + 4).
Definition get_ptr (a : Z) : M uheap Z := gets (fun s => hptr (um s) a).
Definition get_size (a : Z) : M uheap Z := gets (fun s => hsize (um s) a).
Definition set_um (m : mem) (s : uheap) : uheap := mkuh m (freep s) (brk s) (lim s).
Definition set_ptr (a v : Z) : M uheap unit := modify (fun s => set_um (st32 (um s) a v) s).
Definition set_size (a v : Z) : M uheap unit := modify (fun s => set_um (st32 (um s) (a + 4) v) s).
Definition set_freep (p : Z) : M uheap unit := modify (fun s => mkuh (um s) p (brk s) (lim s)).

(** sbrk(n): the old break, or -1. *)
Definition usbrk (n : Z) : M uheap Z :=
  s <- get ;;
  if (0 <=? brk s + n) && (brk s + n <=? lim s) then
    modify (fun s => mkuh (um s) (freep s) (brk s + n) (lim s)) ;;; ret (brk s)
  else ret 4294967295.

Section Umalloc.
Context (base : Z).

(** The loop that finds the place of [bp] in the list. *)
Fixpoint free_walk (fuel : nat) (bp p : Z) : M uheap Z :=
  match fuel with
  | O => panic "out of fuel"
  | S n =>
      q <- get_ptr p ;;
      if (bp >? p) && (bp <? q) then ret p
      else if (p >=? q) && ((bp >? p) || (bp <? q)) then ret p
      else free_walk n bp q
  end.

Definition free (fuel : nat) (ap : Z) : M uheap unit :=
  let bp := u32 (ap - 8) in
  f <- gets freep ;;
  p <- free_walk fuel bp f ;;
  q <- get_ptr p ;;
  bs <- get_size bp ;;
  (if u32 (bp + 8 * bs) =? q then
     qs <- get_size q ;;
     set_size bp (bs + qs) ;;;
     qn <- get_ptr q ;;
     set_ptr bp qn
   else set_ptr bp q) ;;;
  ps <- get_size p ;;
  (if u32 (p + 8 * ps) =? bp then
     bs <- get_size bp ;;
     set_size p (ps + bs) ;;;
     bn <- get_ptr bp ;;
     set_ptr p bn
   else set_ptr p bp) ;;;
  set_freep p.

Definition morecore (fuel : nat) (nu : Z) : M uheap Z :=
  let nu := if nu <? 4096 then 4096 else nu in
  p <- usbrk (s32 (nu * 8)) ;;
  if p =? 4294967295 then ret 0
  else
    set_size p nu ;;;
    free fuel (u32 (p + 8)) ;;;
    gets freep.

Fixpoint malloc_loop (fuel : nat) (nunits prevp p : Z) : M uheap Z :=
  match fuel with
  | O => panic "out of fuel"
  | S n =>
      ps <- get_size p ;;
      if ps >=? nunits then
        p' <- (if ps =? nunits then
                 q <- get_ptr p ;;
                 set_ptr prevp q ;;;
                 ret p
               else
                 set_size p (ps - nunits) ;;;
                 let p' := u32 (p + 8 * (ps - nunits)) in
                 set_size p' nunits ;;;
                 ret p') ;;
        set_freep prevp ;;;
        ret (u32 (p' + 8))
      else
        f <- gets freep ;;
        if p =? f then
          r <- morecore n nunits ;;
          if r =? 0 then ret 0
          else q <- get_ptr r ;; malloc_loop n nunits r q
        else q <- get_ptr p ;; malloc_loop n nunits p q
  end.

Definition malloc (fuel : nat) (nbytes : Z) : M uheap Z :=
  let nunits := u32 (nbytes + 7) / 8 + 1 in
  f <- gets freep ;;
  (if f =? 0 then
     set_freep base ;;;
     set_ptr base base ;;;
     set_size base 0
   else ret tt) ;;;
  prevp <- gets freep ;;
  p <- get_ptr prevp ;;
  malloc_loop fuel nunits prevp p.
End Umalloc.
