(* ===== verification/UmallocSpec.v ===== *)
(** * malloc and free (umalloc.c)

    The free list as a list of blocks in address order, starting with the
    static header; the blocks handed out lie outside it and apart from each
    other, over any sequence of calls. *)

From S2P Require Import Prelude.
From S2P Require Import Cstr.
From S2P Require Import Mmu.
From S2P Require Import Umalloc.

(** ** Blocks *)

(** Address and size in headers. *)
Notation block := (Z * Z)%type.

(** The static header has size 0 but takes 8 bytes. *)
Definition bend (b : block) : Z := fst b + 8 * Z.max 1 (snd b).
Definition apart (b c : block) : Prop := bend b <= fst c \/ bend c <= fst b.

(** Blocks in ascending order between [lo] and [hi]. *)
Fixpoint asc (lo : Z) (F : list block) (hi : Z) : Prop :=
  match F with
  | [] => lo <= hi
  | b :: F' => lo <= fst b /\ 0 <= snd b /\ asc (bend b) F' hi
  end.

Definition nx (F : list block) (e : Z) : Z := match F with b :: _ => fst b | [] => e end.

(** The headers of [F] link it, the last one to [e]. *)
Fixpoint seg (m : mem) (F : list block) (e : Z) : Prop :=
  match F with
  | [] => True
  | b :: F' => hsize m (fst b) = snd b /\ hptr m (fst b) = nx F' e /\ seg m F' e
  end.

Lemma nx_app X Y e : nx (X ++ Y) e = nx X (nx Y e).
Proof. by destruct X. Qed.

Lemma seg_app m X Y e : seg m (X ++ Y) e <-> seg m X (nx Y e) /\ seg m Y e.
Proof. induction X as [|b X IH]; cbn [app seg]; [tauto|]. rewrite nx_app, IH. tauto. Qed.

Lemma asc_bound lo F hi : asc lo F hi -> lo <= hi.
Proof. revert lo. induction F as [|b F IH]; intros lo; cbn [asc]; [done|]. intros (H1 & H2 & H3%IH). unfold bend in H3. lia. Qed.

Lemma asc_app lo X b Y hi : asc lo (X ++ b :: Y) hi <-> asc lo X (fst b) /\ 0 <= snd b /\ asc (bend b) Y hi.
Proof.
  revert lo. induction X as [|c X IH]; intros lo; cbn [app asc]; [tauto|]. rewrite IH. tauto.
Qed.

Lemma asc_weaken lo lo' F hi hi' : asc lo F hi -> lo' <= lo -> hi <= hi' -> asc lo' F hi'.
Proof.
  revert lo lo'. induction F as [|b F IH]; intros lo lo'; cbn [asc]; [lia|]. intros (H1 & H2 & H3) Hl Hh. split_and!; [lia|done|]. by eapply IH; [| |done].
Qed.

Lemma asc_in lo F hi b : asc lo F hi -> b ∈ F -> lo <= fst b /\ bend b <= hi /\ 0 <= snd b.
Proof.
  revert lo. induction F as [|c F IH]; intros lo; cbn [asc]; [by intros _ ?%elem_of_nil|]. intros (H1 & H2 & H3) [->|Hb]%elem_of_cons.
  - split_and!; [done|by apply asc_bound in H3|done].
  - destruct (IH _ H3 Hb) as (? & ? & ?). unfold bend in *. split_and!; lia.
Qed.

(** ** Headers in memory *)

Definition hdr_same (m m' : mem) (a : Z) : Prop := forall x, a <= x < a + 8 -> m' x = m x.

Lemma hdr_ptr m m' a : hdr_same m m' a -> hptr m' a = hptr m a.
Proof. intros H. apply ld32_ext. intros x Hx. apply H. lia. Qed.
Lemma hdr_size m m' a : hdr_same m m' a -> hsize m' a = hsize m a.
Proof. intros H. apply ld32_ext. intros x Hx. apply H. lia. Qed.

Lemma seg_same m m' F e : (forall b, b ∈ F -> hdr_same m m' (fst b)) -> seg m F e -> seg m' F e.
Proof.
  induction F as [|b F IH]; intros H; cbn [seg]; [done|]. intros (H1 & H2 & H3).
  rewrite (hdr_size m m'), (hdr_ptr m m') by (apply H; constructor). split_and!; [done|done|]. apply IH; [|done]. intros c Hc. apply H. by constructor.
Qed.

Lemma ptr_eq m a v : 0 <= v < 4294967296 -> hptr (st32 m a v) a = v.
Proof. intros H. unfold hptr. by rewrite ld32_st32_eq, u32_id. Qed.
Lemma size_eq m a v : 0 <= v < 4294967296 -> hsize (st32 m (a + 4) v) a = v.
Proof. intros H. unfold hsize. by rewrite ld32_st32_eq, u32_id. Qed.
Lemma ptr_keeps_size m a v : hsize (st32 m a v) a = hsize m a.
Proof. unfold hsize. by rewrite ld32_st32_ne by lia. Qed.
Lemma size_keeps_ptr m a v : hptr (st32 m (a + 4) v) a = hptr m a.
Proof. unfold hptr. by rewrite ld32_st32_ne by lia. Qed.

(** A store into the header at [a]. *)
Definition into (a x : Z) : Prop := a <= x < a + 8.
Lemma ptr_out m a v x : ~ into a x -> st32 m a v x = m x.
Proof. intros H. apply st32_ne. unfold into in H. lia. Qed.
Lemma size_out m a v x : ~ into a x -> st32 m (a + 4) v x = m x.
Proof. intros H. apply st32_ne. unfold into in H. lia. Qed.

Section Heap.
Context (base hs : Z).
Hypothesis Hbase : 0 < base.
Hypothesis Hhs : base + 8 <= hs.

(** The free list [L] after the static header, and the blocks handed out. *)
Record heap_ok (s : uheap) (L : list block) (A : gset block) : Prop := {
  ho_brk : hs <= brk s <= lim s /\ lim s <= 2147483648;
  ho_seg : seg (um s) ((base, 0) :: L) base;
  ho_asc : asc hs L (brk s);
  ho_pos : forall b, b ∈ L -> 1 <= snd b;
  ho_freep : exists b, b ∈ (base, 0) :: L /\ freep s = fst b;
  ho_in : forall b, b ∈ A -> hs <= fst b /\ 1 <= snd b /\ bend b <= brk s /\ hsize (um s) (fst b) = snd b;
  ho_free : forall b c, b ∈ A -> c ∈ L -> apart b c;
  ho_apart : forall b c, b ∈ A -> c ∈ A -> b <> c -> apart b c
}.

Lemma full_asc s L A : heap_ok s L A -> asc base ((base, 0) :: L) (brk s).
Proof.
  intros H. cbn [asc fst snd]. split_and!; [lia|lia|]. eapply asc_weaken; [apply (ho_asc _ _ _ H)| |lia]. unfold bend. cbn. lia.
Qed.

(** ** The walk of free *)

Section Walk.
Context (s : uheap) (bp : Z) (X : list block) (p : block) (Y : list block).
Hypothesis Hseg : seg (um s) (X ++ p :: Y) base.
Hypothesis Hasc : asc base (X ++ p :: Y) (brk s).
Hypothesis Hlo : fst p < bp.
Hypothesis Hhi : forall b, b ∈ Y -> bp < fst b.
Hypothesis Hb : base < bp.

Lemma walk_here n : free_walk (S n) bp (fst p) s = Done (fst p) s.
Proof.
  apply seg_app in Hseg as [_ (_ & Hp & _)]. cbn [free_walk]. unfold bind, get_ptr, gets. rewrite Hp.
  destruct Y as [|q Y']; cbn [nx].
  - assert (Hpb : base <= fst p) by (apply asc_app in Hasc as (H & _); by apply asc_bound in H).
    replace ((bp >? fst p) && (bp <? base)) with false by (symmetry; apply andb_false_iff; right; lia).
    replace ((fst p >=? base) && ((bp >? fst p) || (bp <? base))) with true; [done|].
    symmetry. apply andb_true_iff. split; [lia|]. apply orb_true_iff. left. lia.
  - specialize (Hhi q ltac:(constructor)). replace ((bp >? fst p) && (bp <? fst q)) with true; [done|]. symmetry. apply andb_true_iff. lia.
Qed.

(** Through the blocks below. *)
Lemma walk_below X1 X2 n : X = X1 ++ X2 -> (length X2 < n)%nat -> free_walk n bp (nx (X2 ++ [p]) base) s = Done (fst p) s.
Proof.
  revert X1 n. induction X2 as [|b X2 IH]; intros X1 n E Hn; (destruct n as [|n]; [cbn in Hn; lia|]); [apply walk_here|].
  cbn [app nx]. pose proof Hseg as Hs. pose proof Hasc as Ha. rewrite E, <- app_assoc in Hs, Ha. cbn [app] in Hs, Ha.
  apply seg_app in Hs as [_ (_ & Hp & _)]. apply asc_app in Ha as (_ & Hs0 & Ha).
  assert (Hnx : fst b < nx (X2 ++ [p]) base <= fst p /\ nx (X2 ++ p :: Y) base = nx (X2 ++ [p]) base).
  { destruct X2 as [|c X2]; cbn [app nx]; (split; [|done]); cbn [app asc] in Ha; unfold bend in Ha; [lia|].
    destruct Ha as (H1 & H2 & H3). destruct (asc_in _ _ _ p H3) as (H4 & _); [apply elem_of_app; right; constructor|]. unfold bend in H4. lia. }
  destruct Hnx as [Hnx En]. cbn [free_walk]. unfold bind, get_ptr, gets. rewrite Hp, En.
  replace ((bp >? fst b) && (bp <? nx (X2 ++ [p]) base)) with false by (symmetry; apply andb_false_iff; right; lia).
  replace ((fst b >=? nx (X2 ++ [p]) base) && _) with false by (symmetry; apply andb_false_iff; left; lia).
  apply (IH (X1 ++ [b])); [by rewrite <- app_assoc|cbn [length] in Hn; lia].
Qed.

(** Through the blocks above, and around. *)
Lemma walk_above Y1 Y2 n : Y = Y1 ++ Y2 -> Y2 <> [] -> nx (X ++ [p]) base = base -> (length Y2 + length X < n)%nat ->
  free_walk n bp (nx Y2 base) s = Done (fst p) s.
Proof.
  revert Y1 n. induction Y2 as [|b Y2 IH]; intros Y1 n E Hne Hx Hn; [done|]. clear Hne. destruct n as [|n]; [lia|]. cbn [nx length] in *.
  pose proof Hseg as Hs. pose proof Hasc as Ha. rewrite E in Hs, Ha.
  change (X ++ p :: Y1 ++ b :: Y2) with (X ++ (p :: Y1) ++ b :: Y2) in Hs, Ha. rewrite app_assoc in Hs, Ha.
  apply seg_app in Hs as [_ (_ & Hp & _)]. apply asc_app in Ha as (Hab & Hs0 & Ha). apply asc_bound in Hab.
  assert (Hbb : bp < fst b) by (apply Hhi; rewrite E; apply elem_of_app; right; constructor).
  cbn [free_walk]. unfold bind, get_ptr, gets. rewrite Hp. replace (bp >? fst b) with false by lia. cbn [andb orb].
  destruct Y2 as [|c Y2].
  - cbn [nx]. replace ((fst b >=? base) && (bp <? base)) with false by (symmetry; apply andb_false_iff; right; lia).
    rewrite <- Hx. apply (walk_below [] X); [done|cbn [length] in Hn; lia].
  - cbn [nx asc] in *. replace ((fst b >=? fst c) && (bp <? fst c)) with false by (symmetry; apply andb_false_iff; left; unfold bend in Ha; lia).
    apply (IH (Y1 ++ [b])); [by rewrite <- app_assoc|done|done|lia].
Qed.
End Walk.

(** The place of a block in the list. *)
Lemma find_place b F lo hi : asc lo F hi -> (forall c, c ∈ F -> apart b c) -> 1 <= snd b -> bend b <= hi ->
  nx F (fst b) < fst b -> exists X p Y, F = X ++ p :: Y /\ bend p <= fst b /\ asc (bend b) Y hi.
Proof.
  revert lo. induction F as [|c F IH]; intros lo; cbn [asc nx]; [lia|]. intros (H1 & H2 & H3) Hap Hb Hhi Hlt.
  assert (Hc : bend c <= fst b) by (destruct (Hap c ltac:(constructor)) as [H|H]; [unfold bend in H; lia|done]).
  destruct (decide (nx F (fst b) < fst b)) as [Hn|Hn].
  - destruct (IH _ H3) as (X & p & Y & -> & Hp & HY); [intros d Hd; apply Hap; by constructor|done|done|done|]. by exists (c :: X), p, Y.
  - exists [], c, F. split_and!; [done|done|]. destruct F as [|d F]; [done|]. cbn [nx asc] in *. destruct H3 as (H4 & H5 & H6).
    split_and!; [|done|done]. destruct (Hap d) as [H|H]; [by do 2 constructor|done|unfold bend in H; lia].
Qed.

(** ** The two merges of free *)

(** [s'] is [s] but for the header at [a]. *)
Record at_hdr (s s' : uheap) (a : Z) : Prop := {
  ah_mem : forall x, ~ into a x -> um s' x = um s x;
  ah_freep : freep s' = freep s;
  ah_brk : brk s' = brk s;
  ah_lim : lim s' = lim s
}.

Lemma at_hdr_same s s' a b : at_hdr s s' a -> b + 8 <= a \/ a + 8 <= b -> hdr_same (um s) (um s') b.
Proof. intros H Hb x Hx. apply (ah_mem _ _ _ H). unfold into. lia. Qed.

(** A new header, merged with the block that follows it or linked to it. *)
Definition merged (b : block) (Y : list block) (B : block) (Y' : list block) : Prop :=
  fst B = fst b /\ (B = b /\ Y' = Y \/ exists q, Y = q :: Y' /\ bend b = fst q /\ snd B = snd b + snd q).

Lemma merge_next s b Y hi : hi <= 2147483648 -> base < fst b -> 1 <= snd b -> hsize (um s) (fst b) = snd b -> asc (bend b) Y hi -> seg (um s) Y base ->
  runs (bs <- get_size (fst b) ;;
        if u32 (fst b + 8 * bs) =? nx Y base then
          qs <- get_size (nx Y base) ;;
          set_size (fst b) (bs + qs) ;;;
          qn <- get_ptr (nx Y base) ;;
          set_ptr (fst b) qn
        else set_ptr (fst b) (nx Y base)) s (fun _ s' => at_hdr s s' (fst b) /\ exists B Y', merged b Y B Y' /\
    hsize (um s') (fst b) = snd B /\ hptr (um s') (fst b) = nx Y' base).
Proof.
  intros Hhi Hbb Hb1 Hsz Hasc Hseg. apply runs_bind, runs_gets. rewrite Hsz. pose proof (asc_bound _ _ _ Hasc) as Hbd.
  assert (Hbe : bend b = fst b + 8 * snd b) by (unfold bend; lia). rewrite <- Hbe, u32_id by lia.
  destruct Y as [|q Y'].
  - cbn [nx]. rewrite (proj2 (Z.eqb_neq _ _)) by lia. apply runs_modify. split.
    + split; cbn; try done. intros x Hx. by apply ptr_out.
    + exists b, []. split_and!; [split; [done|by left]|cbn [um set_um]; by rewrite ptr_keeps_size|cbn [um set_um]; rewrite ptr_eq by lia; done].
  - cbn [nx seg asc] in *. destruct Hseg as (Hqs & Hqp & Hseg). destruct Hasc as (Hq1 & Hq2 & Hasc). pose proof (asc_bound _ _ _ Hasc) as Hbd'.
    assert (Hnx : 0 <= nx Y' base < 4294967296).
    { destruct Y' as [|r Y']; cbn [nx asc] in *; [lia|]. destruct Hasc as (? & ? & Ha%asc_bound). unfold bend in *. lia. }
    destruct (Z.eqb_spec (bend b) (fst q)) as [E|E].
    + apply runs_bind, runs_gets, runs_bind, runs_modify, runs_bind, runs_gets, runs_modify. cbn [set_um um].
      assert (Hsame : hptr (st32 (um s) (fst b + 4) (snd b + snd q)) (fst q) = hptr (um s) (fst q)).
      { apply hdr_ptr. intros x Hx. apply size_out. unfold into, bend in *. lia. }
      unfold bend in Hbd', Hq1. split.
      * split; cbn; try done. intros x Hx. rewrite ptr_out, size_out by done. done.
      * exists (fst b, snd b + snd q), Y'. split_and!; [split; [done|right; by exists q]| |].
        -- cbn [fst snd um set_um]. rewrite ptr_keeps_size, Hqs, size_eq by lia. done.
        -- rewrite ptr_eq by (rewrite Hqs, Hsame, Hqp; lia). rewrite Hqs, Hsame, Hqp. done.
    + apply runs_modify. unfold bend in Hbd'. split.
      * split; cbn; try done. intros x Hx. by apply ptr_out.
      * exists b, (q :: Y'). split_and!; [split; [done|by left]|cbn [um set_um]; by rewrite ptr_keeps_size|cbn [um set_um]; rewrite ptr_eq by lia; done].
Qed.

(** The block before it, merged with it or linked to it. *)
Definition linked (p B : block) (Y' T : list block) : Prop :=
  T = p :: B :: Y' \/ fst p + 8 * snd p = fst B /\ T = (fst p, snd p + snd B) :: Y'.

Lemma merge_prev s p B Y' hi : hi <= 2147483648 -> 0 < fst p -> 0 <= snd p -> bend p <= fst B -> 1 <= snd B -> bend B <= hi ->
  hsize (um s) (fst p) = snd p -> hsize (um s) (fst B) = snd B -> hptr (um s) (fst B) = nx Y' base -> 0 <= nx Y' base < 4294967296 ->
  runs (ps <- get_size (fst p) ;;
        if u32 (fst p + 8 * ps) =? fst B then
          bs <- get_size (fst B) ;;
          set_size (fst p) (ps + bs) ;;;
          bn <- get_ptr (fst B) ;;
          set_ptr (fst p) bn
        else set_ptr (fst p) (fst B)) s (fun _ s' => at_hdr s s' (fst p) /\ exists h T, linked p B Y' (h :: T) /\
    fst h = fst p /\ hsize (um s') (fst p) = snd h /\ hptr (um s') (fst p) = nx T base).
Proof.
  intros Hhi Hp0 Hp1 HpB HB1 HBe Hps HBs HBp Hnx. apply runs_bind, runs_gets. rewrite Hps. unfold bend in HpB, HBe.
  rewrite u32_id by lia. destruct (Z.eqb_spec (fst p + 8 * snd p) (fst B)) as [E|E].
  - apply runs_bind, runs_gets, runs_bind, runs_modify, runs_bind, runs_gets, runs_modify. cbn [set_um um].
    assert (Hsame : hptr (st32 (um s) (fst p + 4) (snd p + snd B)) (fst B) = hptr (um s) (fst B)).
    { apply hdr_ptr. intros x Hx. apply size_out. unfold into. lia. }
    rewrite HBs. split.
    + split; cbn; try done. intros x Hx. rewrite ptr_out, size_out by done. done.
    + exists (fst p, snd p + snd B), Y'. split_and!; [by right|done| |].
      * cbn [fst snd um set_um]. rewrite ptr_keeps_size, size_eq by lia. done.
      * cbn [um set_um]. rewrite ptr_eq by (rewrite Hsame, HBp; lia). by rewrite Hsame.
  - apply runs_modify. split.
    + split; cbn; try done. intros x Hx. by apply ptr_out.
    + exists p, (B :: Y'). split_and!; [by left|done|cbn [um set_um]; by rewrite ptr_keeps_size|cbn [um set_um nx]; by rewrite ptr_eq by lia].
Qed.

(** ** free *)

(** Memory of the blocks [A] is as it was. *)
Definition kept (A : gset block) (s s' : uheap) : Prop := forall c x, c ∈ A -> fst c <= x < bend c -> um s' x = um s x.

Lemma asc_merged b Y B Y' hi : 1 <= snd b -> asc (bend b) Y hi -> merged b Y B Y' -> asc (bend B) Y' hi /\ 1 <= snd B /\ bend b <= bend B.
Proof.
  intros Hb Ha [Ef [[-> ->]|(q & -> & E & Es)]]; [split_and!; [done|done|lia]|]. cbn [asc] in Ha. destruct Ha as (H1 & H2 & H3).
  assert (bend B <= bend q) by (unfold bend in *; lia). split_and!; [eapply asc_weaken; [exact H3|done|lia]|lia|unfold bend in *; lia].
Qed.

Lemma asc_linked p B Y' T lo hi : lo <= fst p -> 0 <= snd p -> (snd p = 0 \/ 1 <= snd p) -> bend p <= fst B -> 1 <= snd B -> asc (bend B) Y' hi ->
  linked p B Y' T -> asc lo T hi.
Proof.
  intros H1 H2 H2' H3 H4 H5 [-> |[E ->]]; cbn [asc fst snd].
  - split_and!; [done|done|done|lia|done].
  - split_and!; [done|lia|]. eapply asc_weaken; [exact H5| |lia]. unfold bend in *. cbn [fst snd]. lia.
Qed.

(** The blocks of the new list are made of those of the old one and [b]. *)
Lemma apart_merged c b Y B Y' : 1 <= snd c -> 1 <= snd b -> merged b Y B Y' -> apart c b -> (forall d, d ∈ Y -> 0 <= snd d /\ apart c d) -> apart c B.
Proof.
  intros Hc Hb [Ef [[-> _]|(q & -> & E & Es)]] H1 H2; [done|]. destruct (H2 q ltac:(constructor)) as [Hq H3]. unfold apart, bend in *. lia.
Qed.

Lemma apart_linked c p B Y' T d : 1 <= snd c -> 0 <= snd p -> 1 <= snd B -> linked p B Y' T -> apart c p -> apart c B ->
  (forall e, e ∈ Y' -> apart c e) -> d ∈ T -> apart c d.
Proof.
  intros Hc Hp HB [-> |[E ->]] H1 H2 H3; [intros [-> |[-> |Hd]%elem_of_cons]%elem_of_cons; auto|].
  intros [-> |Hd]%elem_of_cons; [|auto]. unfold apart, bend in *. cbn [fst snd]. lia.
Qed.

Lemma walk_spec s (L : list block) A (X : list block) (p : block) (Y : list block) bp n : heap_ok s L A -> (base, 0) :: L = X ++ p :: Y -> fst p < bp -> (forall b, b ∈ Y -> bp < fst b) ->
  (length L + 1 < n)%nat -> free_walk n bp (freep s) s = Done (fst p) s.
Proof.
  intros Hok E Hlo Hhi Hn. pose proof (ho_seg _ _ _ Hok) as Hseg. pose proof (full_asc _ _ _ Hok) as Hasc. rewrite E in Hseg, Hasc.
  assert (Hx : nx (X ++ [p]) base = base) by (destruct X; injection E as <- _; done).
  assert (Hb : base < bp).
  { apply asc_app in Hasc as (Hasc & _). apply asc_bound in Hasc. lia. }
  assert (Hlen : length (X ++ p :: Y) = S (length L)) by (by rewrite <- E). rewrite length_app in Hlen. cbn [length] in Hlen.
  destruct (ho_freep _ _ _ Hok) as (f & Hf & ->). rewrite E in Hf. apply elem_of_app in Hf as [Hf|[->|Hf]%elem_of_cons].
  - apply list_elem_of_split in Hf as (X1 & X2 & EX). apply (walk_below s bp X p Y Hseg Hasc Hlo Hhi Hb X1 (f :: X2) n EX).
    rewrite EX, length_app in Hlen. cbn [length] in *. lia.
  - destruct n as [|n]; [lia|]. by apply (walk_here s bp X p Y).
  - apply list_elem_of_split in Hf as (Y1 & Y2 & EY). apply (walk_above s bp X p Y Hseg Hasc Hlo Hhi Hb Y1 (f :: Y2) n EY); [done|done|].
    rewrite EY, length_app in Hlen. cbn [length] in *. lia.
Qed.

Lemma asc_raise lo lo' F hi : asc lo F hi -> lo' <= hi -> (forall b, b ∈ F -> lo' <= fst b) -> asc lo' F hi.
Proof. destruct F as [|b F]; cbn [asc]; [done|]. intros (H1 & H2 & H3) Hh H. split_and!; [apply H; constructor|done|done]. Qed.

(** The list of blocks after [b] was put between [p] and [Y]. *)
Lemma free_list (L : list block) (b : block) (X : list block) (p : block) (Y : list block) B Y' h T hi :
  (base, 0) :: L = X ++ p :: Y -> asc base (X ++ p :: Y) hi -> (forall d, d ∈ L -> hs <= fst d /\ 1 <= snd d) -> hs <= fst b -> 1 <= snd b ->
  bend p <= fst b -> asc (bend b) Y hi -> merged b Y B Y' -> linked p B Y' (h :: T) -> fst h = fst p ->
  exists L', X ++ h :: T = (base, 0) :: L' /\ asc hs L' hi /\ (forall d, d ∈ L' -> 1 <= snd d) /\ (length L' <= S (length L))%nat /\
    exists c, c ∈ L' /\ snd b <= snd c.
Proof.
  intros E (HX & Hp0 & HY)%asc_app HL Hbh Hb1 Hpb HbY Hm Hl Hh. destruct (asc_merged b Y B Y' _ Hb1 HbY Hm) as (HY' & HB1 & HBb).
  assert (HBf : fst B = fst b) by apply Hm. assert (HBs : snd b <= snd B).
  { destruct Hm as [_ [[-> _]|(q & -> & _ & ->)]]; [lia|]. destruct HY as (_ & ? & _). lia. }
  assert (HaT : asc (fst p) (h :: T) hi) by (apply (asc_linked p B Y'); try done; lia).
  assert (Hlen : (length T <= S (length Y))%nat).
  { assert (length Y' <= length Y)%nat by (destruct Hm as [_ [[_ ->]|(q & -> & _)]]; cbn [length]; lia).
    destruct Hl as [Hl|[_ Hl]]; injection Hl as -> ->; cbn [length]; lia. }
  assert (Hin : forall d, base < fst d -> d ∈ X ++ p :: Y -> hs <= fst d /\ 1 <= snd d).
  { intros d Hd Hd'. rewrite <- E in Hd'. apply elem_of_cons in Hd' as [->|Hd']; [cbn in Hd; lia|by apply HL]. }
  assert (Hnew : forall d, base < fst d -> d ∈ X ++ h :: T -> hs <= fst d /\ 1 <= snd d).
  { intros d Hd [Hd'|[-> |Hd']%elem_of_cons]%elem_of_app; [apply Hin; [done|apply elem_of_app; by left]| |].
    - assert (hs <= fst p /\ 1 <= snd p) by (apply Hin; [lia|apply elem_of_app; right; constructor]).
      destruct Hl as [Hl|[_ Hl]]; injection Hl as -> _; cbn [fst snd]; lia.
    - assert (Hd2 : d = B \/ d ∈ Y) by (destruct Hm as [_ [[_ ->]|(q & -> & _)]], Hl as [Hl|[_ Hl]]; injection Hl as -> ->; set_solver).
      destruct Hd2 as [-> |Hd2]; [lia|]. apply Hin; [done|]. apply elem_of_app. right. by constructor. }
  assert (E' : exists L', X ++ h :: T = (base, 0) :: L').
  { destruct X as [|x X]; injection E as <- ->; [|by eexists]. exists T. cbn [app]. f_equal. unfold bend in Hpb. cbn [fst snd] in *.
    destruct Hl as [Hl|[? Hl]]; [by injection Hl as ->|cbn [fst snd] in *; lia]. }
  destruct E' as [L' E']. assert (HaL : asc (base + 8) L' hi).
  { assert (Ha : asc base (X ++ h :: T) hi) by (apply asc_app; rewrite Hh; split; [done|]; apply HaT). rewrite E' in Ha. by destruct Ha as (_ & _ & Ha). }
  assert (HL' : forall d, d ∈ L' -> hs <= fst d /\ 1 <= snd d).
  { intros d Hd. destruct (asc_in _ _ _ d HaL Hd). apply Hnew; [lia|]. rewrite E'. by constructor. }
  exists L'. split_and!; [done| |intros d Hd; by apply HL'| |].
  - eapply asc_raise; [exact HaL|unfold bend in *; apply asc_bound in HbY; lia|]. intros d Hd. by apply HL'.
  - apply (f_equal length) in E, E'. rewrite length_app in E, E'. cbn [length] in *. lia.
  - assert (Hc : exists c, c ∈ X ++ h :: T /\ snd b <= snd c).
    { destruct Hl as [Hl|[_ Hl]]; injection Hl as -> ->; eexists; (split; [|]); [| |apply elem_of_app; right; constructor|cbn [snd]; lia].
      - apply elem_of_app. right. right. left.
      - lia. }
    destruct Hc as (c & Hc & Hcs). exists c. split; [|done]. rewrite E' in Hc. apply elem_of_cons in Hc as [->|Hc]; [cbn in Hcs; lia|done].
Qed.

(** The heap after the block [b] was put between [p] and [Y]. *)
Section Freed.
Context (s s1 s2 : uheap) (L : list block) (A : gset block) (b : block) (X : list block) (p : block) (Y : list block) (B : block) (Y' : list block).
Context (h : block) (T : list block).
Hypothesis Hok : heap_ok s L A.
Hypothesis Hb : b ∈ A.
Hypothesis E : (base, 0) :: L = X ++ p :: Y.
Hypothesis Hpb : bend p <= fst b.
Hypothesis HbY : asc (bend b) Y (brk s).
Hypothesis H1 : at_hdr s s1 (fst b).
Hypothesis Hm : merged b Y B Y'.
Hypothesis HB : hsize (um s1) (fst b) = snd B /\ hptr (um s1) (fst b) = nx Y' base.
Hypothesis H2 : at_hdr s1 s2 (fst p).
Hypothesis Hl : linked p B Y' (h :: T).
Hypothesis Hh : fst h = fst p.
Hypothesis Hhd : hsize (um s2) (fst p) = snd h /\ hptr (um s2) (fst p) = nx T base.

Lemma freed_apart c d : c ∈ A -> d ∈ X ++ p :: Y -> 0 <= snd d /\ apart c d.
Proof.
  intros Hc Hd. rewrite <- E in Hd. destruct (asc_in _ _ _ d (full_asc _ _ _ Hok) Hd) as (_ & _ & Hd0). split; [done|].
  apply elem_of_cons in Hd as [-> |Hd]; [|by apply (ho_free _ _ _ Hok)]. right. apply (ho_in _ _ _ Hok) in Hc. unfold bend. cbn. lia.
Qed.

Lemma freed_kept : kept (A ∖ {[b]}) s s2.
Proof.
  intros c x [Hc Hcb]%elem_of_difference Hx. assert (Hcb' : c <> b) by set_solver. pose proof (ho_apart _ _ _ Hok c b Hc Hb Hcb') as Ha1.
  destruct (ho_in _ _ _ Hok c Hc) as (_ & Hc2 & _). destruct (freed_apart c p Hc) as [_ Ha2]; [apply elem_of_app; right; constructor|].
  unfold apart, bend in *. rewrite (ah_mem _ _ _ H2), (ah_mem _ _ _ H1); [done|unfold into; lia..].
Qed.

Lemma freed_seg : seg (um s2) (X ++ h :: T) base.
Proof.
  pose proof (full_asc _ _ _ Hok) as Hfull. rewrite E in Hfull. apply asc_app in Hfull as (HX & Hp0 & HY).
  pose proof (ho_seg _ _ _ Hok) as Hseg. rewrite E in Hseg. apply seg_app in Hseg as (HsX & _ & _ & HsY). cbn [nx] in HsX.
  pose proof (ho_in _ _ _ Hok b Hb) as (_ & Hb1 & _). destruct (asc_merged b Y B Y' _ Hb1 HbY Hm) as (HY' & HB3 & HBb).
  assert (HBf : fst B = fst b) by apply Hm.
  assert (Hsame : forall a, a + 8 <= fst p \/ fst p + 8 <= a -> a + 8 <= fst b \/ fst b + 8 <= a -> hdr_same (um s) (um s2) a).
  { intros a Ha1 Ha2 x Hx. rewrite (ah_mem _ _ _ H2), (ah_mem _ _ _ H1); [done|unfold into; lia..]. }
  apply seg_app. cbn [nx seg]. rewrite Hh. destruct Hhd as [-> ->]. split_and!; [|done|done|].
  - eapply seg_same; [|exact HsX]. intros c Hc. destruct (asc_in _ _ _ c HX Hc) as (_ & Hce & _). unfold bend in *. apply Hsame; lia.
  - assert (HsY' : seg (um s2) Y' base).
    { assert (HsY1 : seg (um s) Y' base) by (destruct Hm as [_ [[_ ->]|(q & -> & _)]]; [done|apply HsY]).
      eapply seg_same; [|exact HsY1]. intros c Hc. destruct (asc_in _ _ _ c HY' Hc) as (Hc1 & _). unfold bend in *. apply Hsame; lia. }
    destruct Hl as [Hl'|[_ Hl']]; injection Hl' as -> ->; [|done]. cbn [seg]. rewrite HBf.
    assert (Hsb : hdr_same (um s1) (um s2) (fst b)) by (apply (at_hdr_same _ _ _ _ H2); unfold bend in Hpb; lia).
    rewrite (hdr_size _ _ _ Hsb), (hdr_ptr _ _ _ Hsb). destruct HB. done.
Qed.

Lemma freed_free c d : c ∈ A ∖ {[b]} -> d ∈ X ++ h :: T -> apart c d.
Proof.
  intros [Hc Hcb]%elem_of_difference Hd. pose proof (ho_in _ _ _ Hok b Hb) as (_ & Hb1 & _). pose proof (ho_in _ _ _ Hok c Hc) as (_ & Hc1 & _).
  destruct (asc_merged b Y B Y' _ Hb1 HbY Hm) as (_ & HB3 & _).
  assert (Hold : forall d, d ∈ p :: Y -> 0 <= snd d /\ apart c d) by (intros e He; apply freed_apart; [done|apply elem_of_app; by right]).
  apply elem_of_app in Hd as [Hd|Hd]; [apply freed_apart; [done|apply elem_of_app; by left]|].
  destruct (Hold p ltac:(constructor)) as [Hp0 Hp]. apply (apart_linked c p B Y' (h :: T) d); try done.
  - apply (apart_merged c b Y B Y'); try done; [apply (ho_apart _ _ _ Hok); set_solver|]. intros e He. apply Hold. by constructor.
  - intros e He. apply Hold. destruct Hm as [_ [[_ ->]|(q & -> & _)]]; set_solver.
Qed.

Lemma freed_ok : exists L', let s' := mkuh (um s2) (fst p) (brk s2) (lim s2) in
  heap_ok s' L' (A ∖ {[b]}) /\ brk s' = brk s /\ lim s' = lim s /\ kept (A ∖ {[b]}) s s' /\ (length L' <= S (length L))%nat /\
    exists c, c ∈ L' /\ snd b <= snd c.
Proof.
  pose proof (ho_in _ _ _ Hok b Hb) as (Hbh & Hb1 & _). pose proof (full_asc _ _ _ Hok) as Hfull. rewrite E in Hfull.
  assert (Hbrk : brk s2 = brk s /\ lim s2 = lim s) by (rewrite (ah_brk _ _ _ H2), (ah_brk _ _ _ H1), (ah_lim _ _ _ H2), (ah_lim _ _ _ H1); done).
  destruct Hbrk as [Hbrk Hlim]. destruct (free_list L b X p Y B Y' h T (brk s)) as (L' & E' & Ha & Hpos & Hlen & Hc); try done.
  { intros d Hd. destruct (asc_in _ _ _ d (ho_asc _ _ _ Hok) Hd). split; [done|by apply (ho_pos _ _ _ Hok)]. }
  pose proof freed_kept as Hk. pose proof freed_seg as Hseg. pose proof freed_free as Hfree. rewrite E' in Hseg, Hfree.
  exists L'. cbn [brk lim um freep]. split_and!; try done. split; cbn [brk lim um freep]; try done.
  - rewrite Hbrk, Hlim. apply Hok.
  - by rewrite Hbrk.
  - exists h. rewrite <- E', <- Hh. split; [|done]. apply elem_of_app. right. constructor.
  - intros c Hcb. pose proof Hcb as [Hca _]%elem_of_difference. destruct (ho_in _ _ _ Hok c Hca) as (Hc1 & Hc2 & Hc3 & Hc4).
    split_and!; [done|done|by rewrite Hbrk|]. rewrite <- Hc4. apply hdr_size. intros x Hx. apply (Hk c); [done|unfold bend; lia].
  - intros c d Hc' Hd. apply Hfree; [done|]. by constructor.
  - intros c d [Hc1 _]%elem_of_difference [Hd1 _]%elem_of_difference. by apply (ho_apart _ _ _ Hok).
Qed.
End Freed.

Lemma nx_range lo Y hi : 0 <= lo -> hi <= 2147483648 -> asc lo Y hi -> base < 2147483648 -> 0 <= nx Y base < 4294967296.
Proof.
  intros Hlo Hhi Ha Hb. destruct Y as [|q Y]; cbn [nx]; [lia|]. destruct (asc_in _ _ _ q Ha ltac:(constructor)) as (H1 & H2 & H3). unfold bend in H2. lia.
Qed.

(** free puts the block back: the other blocks and their bytes are untouched. *)
Lemma free_spec s L A b n : heap_ok s L A -> b ∈ A -> (length L + 1 < n)%nat ->
  runs (free n (fst b + 8)) s (fun _ s' => exists L', heap_ok s' L' (A ∖ {[b]}) /\ brk s' = brk s /\ lim s' = lim s /\ kept (A ∖ {[b]}) s s' /\
    (length L' <= S (length L))%nat /\ exists c, c ∈ L' /\ snd b <= snd c).
Proof.
  intros Hok Hb Hn. destruct (ho_in _ _ _ Hok b Hb) as (Hbh & Hb1 & Hbe & Hbs). destruct (ho_brk _ _ _ Hok) as [Hbk Hlim].
  destruct (find_place b ((base, 0) :: L) base (brk s)) as (X & p & Y & E & Hp & HY).
  { by apply full_asc with A. }
  { intros c [->|Hc]%elem_of_cons; [right; unfold bend; cbn; lia|by apply (ho_free _ _ _ Hok)]. }
  { done. } { done. } { cbn [nx fst]. lia. }
  pose proof (full_asc _ _ _ Hok) as Hfull. rewrite E in Hfull. apply asc_app in Hfull as (HX & Hp0 & HpY). apply asc_bound in HX.
  pose proof (ho_seg _ _ _ Hok) as Hseg. rewrite E in Hseg. apply seg_app in Hseg as (_ & Hps & Hpp & HsY).
  assert (Hpb : fst p < fst b) by (unfold bend in Hp; lia).
  unfold free. replace (u32 (fst b + 8 - 8)) with (fst b) by (rewrite u32_id; unfold bend in *; lia).
  apply runs_bind, runs_gets, runs_bind. unfold runs at 1. rewrite (walk_spec s L A X p Y) by
    (try done; intros c Hc; destruct (asc_in _ _ _ c HY Hc); unfold bend in *; lia).
  apply runs_bind, runs_gets. rewrite Hpp. apply runs_assoc, runs_bind. eapply runs_mono.
  { apply (merge_next s b Y (brk s)); try done; lia. }
  intros [] s1 (H1 & B & Y' & Hm & HB). destruct (asc_merged b Y B Y' _ Hb1 HY Hm) as (HY' & HB3 & HBb). assert (HBf : fst B = fst b) by apply Hm.
  apply runs_assoc, runs_bind. rewrite <- HBf in HB |- *. eapply runs_mono.
  { apply (merge_prev s1 p B Y' (brk s)); try apply HB; try lia.
    - by apply asc_bound in HY'.
    - rewrite <- Hps. apply hdr_size. apply (at_hdr_same _ _ _ _ H1). unfold bend in *; lia.
    - apply (nx_range (bend B) Y' (brk s)); [unfold bend; lia|lia|done|lia]. }
  intros [] s2 (H2 & h & T & Hl & Hh & Hhd). rewrite HBf in HB. apply runs_modify. by apply (freed_ok s s1 s2 L A b X p Y B Y' h T).
Qed.

(** ** Taking a block *)

(** What malloc leaves: the block [r] is handed out. *)
Definition given (s : uheap) (L : list block) (A : gset block) (nu a : Z) (s' : uheap) : Prop :=
  exists r L', a = fst r + 8 /\ snd r = nu /\ heap_ok s' L' ({[r]} ∪ A) /\ brk s' = brk s /\ lim s' = lim s /\ kept A s s' /\
    (forall c, c ∈ A -> apart r c).

Definition take_block (nu prevp p : Z) : M uheap Z :=
  ps <- get_size p ;;
  p' <- (if ps =? nu then
           q <- get_ptr p ;;
           set_ptr prevp q ;;;
           ret p
         else
           set_size p (ps - nu) ;;;
           let p' := u32 (p + 8 * (ps - nu)) in
           set_size p' nu ;;;
           ret p') ;;
  set_freep prevp ;;;
  ret (u32 (p' + 8)).

Lemma asc_drop lo X b Y hi : asc lo (X ++ b :: Y) hi -> asc lo (X ++ Y) hi.
Proof.
  revert lo. induction X as [|c X IH]; intros lo; cbn [app asc].
  - intros (H1 & H2 & H3). eapply asc_weaken; [exact H3|unfold bend; lia|lia].
  - intros (H1 & H2 & H3). split_and!; [done|done|by apply IH].
Qed.

Section Take.
Context (s : uheap) (A : gset block) (W : list block) (pv c : block) (Zs : list block) (K : list block).
Hypothesis EK : W ++ [pv] = (base, 0) :: K.
Hypothesis Hok : heap_ok s (K ++ c :: Zs) A.

Lemma take_lists : (base, 0) :: K ++ c :: Zs = W ++ pv :: c :: Zs.
Proof. change ((base, 0) :: K ++ c :: Zs) with (((base, 0) :: K) ++ c :: Zs). by rewrite <- EK, <- app_assoc. Qed.

Lemma take_pos : hs <= fst c /\ 1 <= snd c /\ bend c <= brk s /\ bend pv <= fst c /\ base <= fst pv.
Proof.
  assert (Hc : c ∈ K ++ c :: Zs) by (apply elem_of_app; right; constructor). destruct (asc_in _ _ _ c (ho_asc _ _ _ Hok) Hc) as (H1 & H2 & _).
  pose proof (full_asc _ _ _ Hok) as Ha. rewrite take_lists in Ha. apply asc_app in Ha as (Hw & _ & Ha). cbn [asc] in Ha. apply asc_bound in Hw.
  split_and!; [done|by apply (ho_pos _ _ _ Hok)|done|apply Ha|done].
Qed.

(** A block carved out of [c] is apart from the blocks handed out. *)
Lemma take_apart r d : d ∈ A -> fst c <= fst r -> bend r <= bend c -> 1 <= snd r -> apart r d.
Proof.
  intros Hd H1 H2 H3. destruct (ho_free _ _ _ Hok d c Hd) as [H|H]; [apply elem_of_app; right; constructor|right; lia|left; lia].
Qed.

Lemma take_kept s' : (forall x, ~ into (fst pv) x -> x < fst c \/ bend c <= x -> um s' x = um s x) -> kept A s s'.
Proof.
  intros H d x Hd Hx. destruct take_pos as (H1 & H2 & H3 & H4 & H5). pose proof (ho_in _ _ _ Hok d Hd) as (Hdh & Hd1 & _).
  assert (Hpv : pv ∈ (base, 0) :: K ++ c :: Zs) by (rewrite take_lists; apply elem_of_app; right; constructor).
  assert (Ha1 : bend d <= fst pv \/ fst pv + 8 <= fst d).
  { apply elem_of_cons in Hpv as [-> |Hpv]; [right; cbn; lia|]. destruct (ho_free _ _ _ Hok d pv Hd Hpv) as [?|Hq]; [by left|right; unfold bend in Hq; lia]. }
  destruct (ho_free _ _ _ Hok d c Hd) as [Ha2|Ha2]; [apply elem_of_app; right; constructor| |]; apply H; unfold into, bend in *; lia.
Qed.

Lemma take_ok s' L' r : brk s' = brk s -> lim s' = lim s -> freep s' = fst pv -> kept A s s' -> seg (um s') ((base, 0) :: L') base -> asc hs L' (brk s) ->
  (forall d, d ∈ L' -> 1 <= snd d /\ apart r d /\ (d ∈ K ++ c :: Zs \/ fst c <= fst d /\ bend d <= bend c)) ->
  (exists h, h ∈ (base, 0) :: L' /\ fst h = fst pv) ->
  fst c <= fst r -> bend r <= bend c -> 1 <= snd r -> hsize (um s') (fst r) = snd r -> given s (K ++ c :: Zs) A (snd r) (fst r + 8) s'.
Proof.
  intros Hb Hl Hf Hk Hseg Ha HL (h & Hh & Eh) Hr1 Hr2 Hr3 Hr4. destruct take_pos as (H1 & H2 & H3 & _).
  assert (Hap : forall d, d ∈ A -> apart r d) by (intros d Hd; by apply take_apart).
  exists r, L'. split_and!; try done. split.
  - rewrite Hb, Hl. apply Hok.
  - done.
  - by rewrite Hb.
  - intros d Hd. by apply HL.
  - exists h. split; [done|congruence].
  - intros d [->%elem_of_singleton|Hd]%elem_of_union; [split_and!; [lia|done|rewrite Hb; lia|done]|].
    destruct (ho_in _ _ _ Hok d Hd) as (Hd1 & Hd2 & Hd3 & Hd4). split_and!; [done|done|by rewrite Hb|].
    rewrite <- Hd4. apply hdr_size. intros x Hx. apply (Hk d); [done|unfold bend; lia].
  - intros d e [->%elem_of_singleton|Hd]%elem_of_union He; [by apply HL|]. destruct (HL e He) as (He1 & _ & [He2|He2]).
    + by apply (ho_free _ _ _ Hok).
    + destruct (take_apart e d Hd) as [?|?]; [lia|lia|done|by right|by left].
  - intros d e [->%elem_of_singleton|Hd]%elem_of_union [->%elem_of_singleton|He]%elem_of_union Hne; [done|by apply Hap| |by apply (ho_apart _ _ _ Hok)].
    destruct (Hap d Hd); [by right|by left].
Qed.

Lemma take_seg m' : (forall x, ~ into (fst pv) x -> x < fst c \/ bend c <= x -> m' x = um s x) -> seg m' W (fst pv) /\ seg m' Zs base.
Proof.
  intros H. pose proof (ho_seg _ _ _ Hok) as Hs. pose proof (full_asc _ _ _ Hok) as Ha. rewrite take_lists in Hs, Ha.
  apply seg_app in Hs as (Hs1 & _ & _ & _ & _ & Hs2). cbn [nx] in Hs1. apply asc_app in Ha as (Ha1 & Ha2 & Ha3 & Ha4 & Ha5).
  split; (eapply seg_same; [|first [exact Hs1|exact Hs2]]); intros d Hd x Hx.
  - destruct (asc_in _ _ _ d Ha1 Hd) as (_ & Hd1 & _). unfold bend in *. apply H; unfold into; lia.
  - destruct (asc_in _ _ _ d Ha5 Hd) as (Hd1 & _). unfold bend in *. apply H; unfold into; lia.
Qed.

Lemma take_hdrs : hsize (um s) (fst pv) = snd pv /\ hptr (um s) (fst pv) = fst c /\ hsize (um s) (fst c) = snd c /\ hptr (um s) (fst c) = nx Zs base.
Proof. pose proof (ho_seg _ _ _ Hok) as Hs. rewrite take_lists in Hs. apply seg_app in Hs as (_ & H1 & H2 & H3 & H4 & _). done. Qed.

Lemma take_asc d : d ∈ K ++ Zs -> apart c d /\ d ∈ K ++ c :: Zs.
Proof.
  intros Hd. pose proof (ho_asc _ _ _ Hok) as Ha. apply asc_app in Ha as (Ha1 & _ & Ha2). apply elem_of_app in Hd as [Hd|Hd].
  - destruct (asc_in _ _ _ d Ha1 Hd) as (? & ? & _). split; [by right|set_solver].
  - destruct (asc_in _ _ _ d Ha2 Hd) as (? & _). split; [by left|set_solver].
Qed.

Lemma take_prev L' : exists h, h ∈ (base, 0) :: K ++ L' /\ fst h = fst pv.
Proof. exists pv. split; [|done]. change ((base, 0) :: K ++ L') with (((base, 0) :: K) ++ L'). rewrite <- EK. set_solver. Qed.

Lemma take_lists' L' : (base, 0) :: K ++ L' = W ++ pv :: L'.
Proof. change ((base, 0) :: K ++ L') with (((base, 0) :: K) ++ L'). by rewrite <- EK, <- app_assoc. Qed.

Lemma take_nx : 0 <= nx Zs base < 4294967296.
Proof.
  pose proof (ho_asc _ _ _ Hok) as Ha. apply asc_app in Ha as (_ & _ & Ha2). destruct take_pos as (H1 & H2 & H3 & H4 & H5). destruct (ho_brk _ _ _ Hok).
  apply (nx_range (bend c) Zs (brk s)); [unfold bend; lia|lia|done|unfold bend in *; lia].
Qed.

Lemma take_exact : runs (take_block (snd c) (fst pv) (fst c)) s (given s (K ++ c :: Zs) A (snd c)).
Proof.
  destruct take_hdrs as (Hp1 & Hp2 & Hc1 & Hc2). destruct take_pos as (H1 & H2 & H3 & H4 & H5). destruct (ho_brk _ _ _ Hok) as [Hb1 Hb2]. pose proof take_nx as Hn.
  unfold take_block. apply runs_bind, runs_gets. rewrite Hc1, Z.eqb_refl. apply runs_bind, runs_bind, runs_gets, runs_bind, runs_modify, runs_ret.
  rewrite Hc2. apply runs_bind, runs_modify, runs_ret. rewrite u32_id by (unfold bend in *; lia).
  assert (Hout : forall x, ~ into (fst pv) x -> x < fst c \/ bend c <= x -> st32 (um s) (fst pv) (nx Zs base) x = um s x) by (intros x Hx _; by apply ptr_out).
  destruct (take_seg _ Hout) as [Hs1 Hs2]. apply (take_ok _ (K ++ Zs) c); cbn [um brk lim freep set_um]; try done.
  - by apply take_kept.
  - rewrite take_lists'. apply seg_app. cbn [nx seg]. rewrite ptr_keeps_size, ptr_eq by done. done.
  - eapply asc_drop. apply (ho_asc _ _ _ Hok).
  - intros d Hd. destruct (take_asc d Hd) as [Hd1 Hd2]. split_and!; [by apply (ho_pos _ _ _ Hok)|done|by left].
  - apply take_prev.
  - rewrite <- Hc1. apply hdr_size. intros x Hx. apply ptr_out. unfold into, bend in *. lia.
Qed.

Lemma take_split nu : 1 <= nu < snd c -> runs (take_block nu (fst pv) (fst c)) s (given s (K ++ c :: Zs) A nu).
Proof.
  intros Hnu. destruct take_hdrs as (Hp1 & Hp2 & Hc1 & Hc2). destruct take_pos as (H1 & H2 & H3 & H4 & H5). destruct (ho_brk _ _ _ Hok) as [Hb1 Hb2].
  assert (Hbe : bend c = fst c + 8 * snd c) by (unfold bend; lia).
  unfold take_block. apply runs_bind, runs_gets. rewrite Hc1, (proj2 (Z.eqb_neq _ _)) by lia. apply runs_bind, runs_bind, runs_modify.
  set (r := (fst c + 8 * (snd c - nu), nu)). rewrite (u32_id (fst c + _)) by lia.
  apply runs_bind, runs_modify, runs_ret, runs_bind, runs_modify, runs_ret. rewrite u32_id by lia. cbn [um set_um].
  set (m1 := st32 (um s) (fst c + 4) (snd c - nu)). set (m2 := st32 m1 _ nu).
  assert (Hr : fst r = fst c + 8 * (snd c - nu) /\ snd r = nu /\ bend r = bend c) by (unfold r, bend; cbn [fst snd]; lia). destruct Hr as (Hr1 & Hr2 & Hr3).
  assert (Hm2 : forall x, x < fst r \/ fst r + 8 <= x -> m2 x = m1 x) by (intros x Hx; apply (size_out m1 (fst r)); unfold into; lia).
  assert (Hm1 : forall x, x < fst c \/ fst c + 8 <= x -> m1 x = um s x) by (intros x Hx; apply size_out; unfold into; lia).
  assert (Hout : forall x, ~ into (fst pv) x -> x < fst c \/ bend c <= x -> m2 x = um s x) by (intros x _ Hx; rewrite Hm2, Hm1 by lia; done).
  destruct (take_seg _ Hout) as [Hs1 Hs2]. rewrite <- Hr1, <- Hr2.
  assert (Hsc : hdr_same m1 m2 (fst c)) by (intros x Hx; apply Hm2; lia).
  assert (Hsp : hdr_same (um s) m2 (fst pv)) by (intros x Hx; unfold bend in H4; rewrite Hm2, Hm1 by lia; done).
  apply (take_ok _ (K ++ (fst c, snd c - nu) :: Zs) r); cbn [um brk lim freep set_um]; try done; try lia.
  - by apply take_kept.
  - rewrite take_lists'. apply seg_app. cbn [nx seg fst snd]. rewrite (hdr_size _ _ _ Hsc), (hdr_ptr _ _ _ Hsc), (hdr_size _ _ _ Hsp), (hdr_ptr _ _ _ Hsp).
    unfold m1. rewrite size_keeps_ptr, size_eq by lia. done.
  - pose proof (ho_asc _ _ _ Hok) as Ha. apply asc_app in Ha as (Ha1 & _ & Ha2). apply asc_app. cbn [fst snd]. split_and!; [done|lia|].
    eapply asc_weaken; [exact Ha2|unfold bend in *; cbn [fst snd]; lia|lia].
  - intros d [Hd|[-> |Hd]%elem_of_cons]%elem_of_app.
    2: { cbn [fst snd]. unfold apart, bend in *. cbn [fst snd]. split_and!; [lia|right; lia|right; lia]. }
    all: destruct (take_asc d ltac:(set_solver)) as [Hd1 Hd2]; pose proof (ho_pos _ _ _ Hok d Hd2); (split_and!; [done|unfold apart in *; lia|by left]).
  - apply take_prev.
  - rewrite Hr1, Hr2. apply (size_eq m1). lia.
Qed.

Lemma take_spec nu : 1 <= nu <= snd c -> runs (take_block nu (fst pv) (fst c)) s (given s (K ++ c :: Zs) A nu).
Proof. intros H. destruct (decide (nu = snd c)) as [-> |Hn]; [apply take_exact|apply take_split; lia]. Qed.
End Take.

(** ** The search of malloc *)

Definition more (n : nat) (nu : Z) : M uheap Z :=
  r <- morecore n nu ;; if r =? 0 then ret 0 else q <- get_ptr r ;; malloc_loop n nu r q.

Lemma loop_take s n nu pv p : nu <= hsize (um s) p -> malloc_loop (S n) nu pv p s = take_block nu pv p s.
Proof. intros H. cbn [malloc_loop]. unfold take_block, bind at 1 5, get_size, gets. by rewrite (proj2 (Z.geb_le _ _)). Qed.

Lemma loop_next s n nu pv p : hsize (um s) p < nu -> p <> freep s -> malloc_loop (S n) nu pv p s = malloc_loop n nu p (hptr (um s) p) s.
Proof.
  intros H Hf. cbn [malloc_loop]. unfold bind, get_size, get_ptr, gets. replace (hsize (um s) p >=? nu) with false by lia. by rewrite (proj2 (Z.eqb_neq _ _)).
Qed.

Lemma loop_more s n nu pv p : hsize (um s) p < nu -> p = freep s -> malloc_loop (S n) nu pv p s = more n nu s.
Proof.
  intros H ->. cbn [malloc_loop]. unfold bind at 1, get_size, gets. replace (hsize (um s) (freep s) >=? nu) with false by lia.
  unfold bind at 1. by rewrite Z.eqb_refl.
Qed.

Section Search.
Context (s : uheap) (L : list block) (A : gset block) (nu : Z) (Q : Z -> uheap -> Prop) (k : nat).
Hypothesis Hok : heap_ok s L A.
Hypothesis Hnu : 1 <= nu.
Hypothesis Htake : forall W pv c Zs, (base, 0) :: L = W ++ pv :: c :: Zs -> nu <= snd c -> runs (take_block nu (fst pv) (fst c)) s Q.
Hypothesis Hmore : forall n, (k <= n)%nat -> (forall c, c ∈ L -> snd c < nu) -> runs (more n nu) s Q.

Lemma at_block X c Y : (base, 0) :: L = X ++ c :: Y -> hsize (um s) (fst c) = snd c /\ hptr (um s) (fst c) = nx Y base /\
  (forall d, d ∈ X -> fst d <> fst c) /\ (forall d, d ∈ Y -> fst d <> fst c).
Proof.
  intros E. pose proof (ho_seg _ _ _ Hok) as Hs. pose proof (full_asc _ _ _ Hok) as Ha. rewrite E in Hs, Ha. apply seg_app in Hs as (_ & H1 & H2 & _).
  apply asc_app in Ha as (Ha1 & _ & Ha2). split_and!; [done|done| |]; intros d Hd.
  - destruct (asc_in _ _ _ d Ha1 Hd) as (_ & H & _). unfold bend in H. lia.
  - destruct (asc_in _ _ _ d Ha2 Hd) as (H & _). unfold bend in H. lia.
Qed.

Notation small l := (forall c, c ∈ l -> snd c < nu).

(** From the static header up to the block where the search started. *)
Lemma search_front f Y X2 W pv n : (base, 0) :: L = W ++ pv :: X2 ++ f :: Y -> freep s = fst f -> small (W ++ [pv]) -> small Y ->
  (length X2 + k < n)%nat -> runs (malloc_loop n nu (fst pv) (nx (X2 ++ [f]) base)) s Q.
Proof.
  intros E Hf HW HY. revert W pv n E HW. induction X2 as [|c X2 IH]; intros W pv n E HW Hn; (destruct n as [|n]; [lia|]); cbn [app nx length] in *.
  - pose proof E as E2. rewrite (app_assoc W [pv] (f :: Y) : W ++ pv :: f :: Y = _) in E2. destruct (at_block _ f Y E2) as (H1 & H2 & _).
    unfold runs. destruct (decide (nu <= snd f)) as [Hc|Hc].
    + rewrite loop_take by lia. by apply (Htake W pv f Y).
    + rewrite loop_more by (try done; lia). apply Hmore; [lia|]. intros c Hc'. assert (Hc2 : c ∈ (W ++ [pv]) ++ f :: Y) by (rewrite <- E2; by constructor).
      apply elem_of_app in Hc2 as [Hc2|[-> |Hc2]%elem_of_cons]; [by apply HW|lia|by apply HY].
  - pose proof E as E2. rewrite (app_assoc W [pv] (c :: X2 ++ f :: Y) : W ++ pv :: c :: X2 ++ f :: Y = _) in E2.
    destruct (at_block _ c _ E2) as (H1 & H2 & _ & H4). unfold runs. destruct (decide (nu <= snd c)) as [Hc|Hc].
    + rewrite loop_take by lia. by apply (Htake W pv c (X2 ++ f :: Y)).
    + rewrite loop_next; [|lia|rewrite Hf; intros E'; apply (H4 f); [set_solver|done]]. rewrite H2, nx_app. cbn [nx].
      replace (nx X2 (fst f)) with (nx (X2 ++ [f]) base) by (by rewrite nx_app). apply (IH (W ++ [pv])); [done| |lia].
      intros d [Hd| ->%list_elem_of_singleton]%elem_of_app; [by apply HW|lia].
Qed.

(** From the block where the search starts to the end of the list, and around. *)
Lemma search_end f X Y V W pv n : (base, 0) :: L = W ++ pv :: Y -> W ++ [pv] = X ++ f :: V -> freep s = fst f -> small V ->
  (length Y + length L + 1 + k < n)%nat -> runs (malloc_loop n nu (fst pv) (nx Y base)) s Q.
Proof.
  revert V W pv n. induction Y as [|c Y IH]; intros V W pv n E EX Hf HV Hn; (destruct n as [|n]; [lia|]); cbn [nx length] in *.
  - assert (E2 : (base, 0) :: L = X ++ f :: V) by (by rewrite <- EX). destruct (at_block [] (base, 0) L eq_refl) as (H1 & H2 & _ & H4).
    cbn [fst snd] in *. unfold runs. destruct X as [|x X]; injection E2 as E3 EL.
    + rewrite loop_more by (try lia; by rewrite Hf, <- E3). apply Hmore; [lia|]. by rewrite EL.
    + rewrite loop_next; [|lia|rewrite Hf; intros E'; apply (H4 f); [rewrite EL; set_solver|done]]. rewrite H2, EL, nx_app. cbn [nx].
      replace (nx X (fst f)) with (nx (X ++ [f]) base) by (by rewrite nx_app).
      apply (search_front f V X [] (base, 0)); [by rewrite EL|done| |done|rewrite EL, length_app in Hn; lia]. intros c ->%list_elem_of_singleton. cbn. lia.
  - pose proof E as E2. rewrite (app_assoc W [pv] (c :: Y) : W ++ pv :: c :: Y = _) in E2. destruct (at_block _ c Y E2) as (H1 & H2 & H3 & _).
    unfold runs. destruct (decide (nu <= snd c)) as [Hc|Hc].
    + rewrite loop_take by lia. by apply (Htake W pv c Y).
    + rewrite loop_next; [|lia|rewrite Hf; intros E'; apply (H3 f); [rewrite EX; set_solver|done]]. rewrite H2.
      apply (IH (V ++ [c]) (W ++ [pv])); [done|by rewrite EX, <- app_assoc|done| |lia]. intros d [Hd| ->%list_elem_of_singleton]%elem_of_app; [by apply HV|lia].
Qed.

Lemma search n : (2 * length L + 2 + k < n)%nat -> runs (malloc_loop n nu (freep s) (hptr (um s) (freep s))) s Q.
Proof.
  intros Hn. destruct (ho_freep _ _ _ Hok) as (f & Hf & Ef). apply list_elem_of_split in Hf as (X & Y & E). destruct (at_block X f Y E) as (_ & H2 & _).
  rewrite Ef, H2. apply (search_end f X Y [] X f); [done|done|done|by intros c ?%elem_of_nil|].
  apply (f_equal length) in E. rewrite length_app in E. cbn [length] in E. lia.
Qed.
End Search.

(** ** malloc *)

Lemma ok_grow s L A nu : heap_ok s L A -> 1 <= nu -> brk s + 8 * nu <= lim s ->
  heap_ok (mkuh (st32 (um s) (brk s + 4) nu) (freep s) (brk s + 8 * nu) (lim s)) L ({[(brk s, nu)]} ∪ A).
Proof.
  intros Hok Hnu Hl. destruct (ho_brk _ _ _ Hok) as [Hb1 Hb2]. assert (Hbe : bend (brk s, nu) = brk s + 8 * nu) by (unfold bend; cbn [fst snd]; lia).
  assert (Hout : forall d x, bend d <= brk s -> fst d <= x < fst d + 8 -> st32 (um s) (brk s + 4) nu x = um s x).
  { intros d x Hd Hx. apply size_out. unfold into, bend in *. lia. }
  assert (HA : forall d, d ∈ A -> bend d <= brk s) by (intros d Hd; by apply (ho_in _ _ _ Hok)).
  assert (HL : forall d, d ∈ L -> bend d <= brk s) by (intros d Hd; by destruct (asc_in _ _ _ d (ho_asc _ _ _ Hok) Hd) as (_ & ? & _)).
  split; cbn [um brk lim freep].
  - lia.
  - eapply seg_same; [|apply (ho_seg _ _ _ Hok)]. intros d Hd x Hx. apply (Hout d); [|done].
    apply elem_of_cons in Hd as [-> |Hd]; [unfold bend; cbn; lia|by apply HL].
  - eapply asc_weaken; [apply (ho_asc _ _ _ Hok)|lia|lia].
  - apply Hok.
  - apply Hok.
  - intros d [->%elem_of_singleton|Hd]%elem_of_union; [rewrite Hbe; cbn [fst snd]; split_and!; try lia; apply size_eq; lia|].
    destruct (ho_in _ _ _ Hok d Hd) as (H1 & H2 & H3 & H4). split_and!; [done|done|lia|]. rewrite <- H4. apply hdr_size. intros x Hx. by apply (Hout d).
  - intros d e [->%elem_of_singleton|Hd]%elem_of_union He; [right; cbn [fst]; by apply HL|by apply (ho_free _ _ _ Hok)].
  - intros d e [->%elem_of_singleton|Hd]%elem_of_union [->%elem_of_singleton|He]%elem_of_union Hne; [done|right; cbn [fst]; by apply HA|left; cbn [fst]; by apply HA|].
    by apply (ho_apart _ _ _ Hok).
Qed.

Lemma morecore_spec s L A nu n : heap_ok s L A -> 1 <= nu -> nu < 268435456 -> (length L + 1 < n)%nat ->
  runs (morecore n nu) s (fun r s' => r = 0 /\ s' = s /\ lim s < brk s + 8 * Z.max 4096 nu \/
    r = freep s' /\ r <> 0 /\ lim s' = lim s /\ kept A s s' /\ exists L', heap_ok s' L' A /\ (length L' <= S (length L))%nat /\ exists c, c ∈ L' /\ nu <= snd c).
Proof.
  intros Hok Hnu Hnu2 Hn. destruct (ho_brk _ _ _ Hok) as [Hb1 Hb2]. unfold morecore. set (nu' := if nu <? 4096 then 4096 else nu).
  assert (Hn' : nu' = Z.max 4096 nu) by (unfold nu'; destruct (Z.ltb_spec nu 4096); lia). rewrite <- Hn'.
  rewrite s32_id by lia. unfold usbrk. apply runs_bind, runs_bind, runs_gets. replace (0 <=? brk s + nu' * 8) with true by lia. cbn [andb].
  destruct (Z.leb_spec (brk s + nu' * 8) (lim s)) as [Hl|Hl]; [|apply runs_ret; left; split_and!; [done|done|lia]].
  apply runs_bind, runs_modify, runs_ret. rewrite (proj2 (Z.eqb_neq _ _)) by lia. apply runs_bind, runs_modify. cbn [set_um um freep brk lim].
  rewrite u32_id by lia. set (s1 := set_um _ _). assert (Hok1 : heap_ok s1 L ({[(brk s, nu')]} ∪ A)).
  { unfold s1, set_um. cbn [um brk lim freep]. replace (brk s + nu' * 8) with (brk s + 8 * nu') by lia. apply ok_grow; [done|lia|lia]. }
  assert (Hnew : (brk s, nu') ∉ A) by (intros H; apply (ho_in _ _ _ Hok) in H; unfold bend in H; cbn [fst snd] in H; lia).
  apply runs_bind. eapply runs_mono; [apply (free_spec s1 L _ (brk s, nu') n Hok1); [set_solver|done]|].
  intros [] s2 (L' & Hok2 & Hb & Hl2 & Hk & Hlen & c & Hc & Hcs). replace (({[(brk s, nu')]} ∪ A) ∖ {[(brk s, nu')]}) with A in * by set_solver.
  apply runs_gets. right. split_and!; [done| |by rewrite Hl2| |].
  - destruct (ho_freep _ _ _ Hok2) as (f & Hf & ->). destruct (asc_in _ _ _ f (full_asc _ _ _ Hok2) Hf). lia.
  - intros d x Hd Hx. rewrite (Hk d x Hd Hx). apply size_out. pose proof (ho_in _ _ _ Hok d Hd) as (_ & _ & Hd1 & _). unfold into. lia.
  - exists L'. split_and!; [done|done|]. exists c. split; [done|]. cbn [snd] in Hcs. lia.
Qed.

(** malloc either hands out a block of [nu] headers, or sbrk had no room. *)
Definition mallocd (s : uheap) (A : gset block) (nu a : Z) (s' : uheap) : Prop :=
  a = 0 /\ lim s < brk s + 8 * Z.max 4096 nu /\ (exists L', heap_ok s' L' A) /\ lim s' = lim s /\ kept A s s' \/
  exists r L', a = fst r + 8 /\ snd r = nu /\ heap_ok s' L' ({[r]} ∪ A) /\ lim s' = lim s /\ kept A s s' /\ forall c, c ∈ A -> apart r c.

Lemma take_from s L A nu W pv c Zs : heap_ok s L A -> 1 <= nu -> (base, 0) :: L = W ++ pv :: c :: Zs -> nu <= snd c ->
  runs (take_block nu (fst pv) (fst c)) s (given s L A nu).
Proof.
  intros Hok Hnu E Hc. assert (EK : exists K, W ++ [pv] = (base, 0) :: K /\ L = K ++ c :: Zs).
  { destruct W as [|w W]; injection E as <- ->; [by exists []|]. exists (W ++ [pv]). split; [done|by rewrite <- app_assoc]. }
  destruct EK as (K & EK & ->). by apply (take_spec s A W pv c Zs K).
Qed.

Lemma loop_spec s L A nu n : heap_ok s L A -> 1 <= nu < 268435456 -> (4 * length L + 8 < n)%nat ->
  runs (malloc_loop n nu (freep s) (hptr (um s) (freep s))) s (mallocd s A nu).
Proof.
  intros Hok Hnu Hn. assert (Hg : forall s1 L1 a s2, lim s1 = lim s -> kept A s s1 -> given s1 L1 A nu a s2 -> mallocd s A nu a s2).
  { intros s1 L1 a s2 H1 H2 (r & L' & -> & Hr & Hok2 & Hb & Hl & Hk & Hap). right. exists r, L'. split_and!; try done; [by rewrite Hl|].
    intros d x Hd Hx. by rewrite (Hk d x Hd Hx), (H2 d x Hd Hx). }
  apply (search s L A nu _ (2 * length L + 5) Hok); [lia| | |lia].
  - intros W pv c Zs E Hc. eapply runs_mono; [by apply (take_from s L A nu W pv c Zs); [|lia| |]|]. intros a s2 H. by apply (Hg s L).
  - intros m Hm _. unfold more. apply runs_bind. eapply runs_mono; [apply (morecore_spec s L A); [done|lia|lia|lia]|].
    intros r s1 [(-> & -> & Hl)|(-> & Hr & Hl & Hk & L' & Hok' & Hlen & c & Hc & Hcs)].
    + apply runs_ret. left. split_and!; [done|done|by exists L|done|done].
    + rewrite (proj2 (Z.eqb_neq _ _)) by done. apply runs_bind, runs_gets. apply (search s1 L' A nu _ 0 Hok'); [lia| | |lia].
      * intros W pv d Zs E Hd. eapply runs_mono; [by apply (take_from s1 L' A nu W pv d Zs); [|lia| |]|]. intros a s2 H. by apply (Hg s1 L').
      * intros m' _ Hsm. specialize (Hsm c Hc). lia.
Qed.

Definition units (nbytes : Z) : Z := (nbytes + 7) / 8 + 1.

Lemma units_range nbytes : 0 <= nbytes <= 1073741824 -> 1 <= units nbytes < 268435456 /\ nbytes <= 8 * (units nbytes - 1).
Proof. intros H. unfold units. pose proof (Z.div_mod (nbytes + 7) 8 ltac:(done)). pose proof (Z.mod_pos_bound (nbytes + 7) 8 ltac:(done)). lia. Qed.

Lemma malloc_spec s L A nbytes n : heap_ok s L A -> 0 <= nbytes <= 1073741824 -> (4 * length L + 8 < n)%nat ->
  runs (malloc base n nbytes) s (mallocd s A (units nbytes)).
Proof.
  intros Hok Hnb Hn. unfold malloc. rewrite u32_id by lia. fold (units nbytes). apply runs_bind, runs_gets. rewrite (proj2 (Z.eqb_neq _ _)).
  - apply runs_bind, runs_ret, runs_bind, runs_gets, runs_bind, runs_gets. apply (loop_spec s L A); [done|by apply units_range|done].
  - destruct (ho_freep _ _ _ Hok) as (f & Hf & ->). destruct (asc_in _ _ _ f (full_asc _ _ _ Hok) Hf). lia.
Qed.

(** The first call sets the static header up. *)
Lemma malloc_first s nbytes n : freep s = 0 -> hs <= brk s <= lim s -> lim s <= 2147483648 -> 0 <= nbytes <= 1073741824 -> (8 < n)%nat ->
  runs (malloc base n nbytes) s (mallocd s ∅ (units nbytes)).
Proof.
  intros Hf Hb Hl Hnb Hn. unfold malloc. rewrite u32_id by lia. fold (units nbytes). apply runs_bind, runs_gets. rewrite Hf, Z.eqb_refl.
  apply runs_bind, runs_bind, runs_modify, runs_bind, runs_modify, runs_modify, runs_bind, runs_gets, runs_bind, runs_gets.
  match goal with |- runs _ ?x _ => set (s1 := x) end.
  assert (Hok : heap_ok s1 [] ∅).
  { split; unfold s1; cbn [um freep brk lim set_um]; try set_solver.
    cbn [seg fst snd nx]. rewrite size_eq, size_keeps_ptr, ptr_eq by lia. done. }
  eapply runs_mono; [apply (loop_spec s1 [] ∅ (units nbytes) n Hok); [by apply units_range|cbn; lia]|].
  intros a s2 [(-> & H1 & H2 & H3 & H4)|(r & L' & H)]; [left|right; exists r, L']; split_and!; try apply H; try done; try (intros ? ? ?; set_solver).
Qed.

(** ** The program's calls *)

(** The states of a program that calls malloc and free on what malloc gave it,
    and writes where it likes in the blocks it holds. *)
Inductive held : uheap -> gset block -> Prop :=
| held_init s : freep s = 0 -> hs <= brk s <= lim s -> lim s <= 2147483648 -> held s ∅
| held_malloc s A nbytes n a s' : held s A -> 0 <= nbytes <= 1073741824 -> malloc base n nbytes s = Done a s' -> (Z.to_nat (lim s) <= n)%nat ->
    held s' (if a =? 0 then A else {[(a - 8, units nbytes)]} ∪ A)
| held_free s A b n s' : held s A -> b ∈ A -> free n (fst b + 8) s = Done tt s' -> (Z.to_nat (lim s) <= n)%nat -> held s' (A ∖ {[b]})
| held_write s A m : held s A -> (forall x, (forall b, b ∈ A -> ~ (fst b + 8 <= x < bend b)) -> m x = um s x) -> held (set_um m s) A.

Lemma asc_length lo F hi : asc lo F hi -> lo + 8 * Z.of_nat (length F) <= hi.
Proof. revert lo. induction F as [|b F IH]; intros lo; cbn [asc length]; [lia|]. intros (H1 & H2 & H3%IH). unfold bend in H3. lia. Qed.

Lemma fuel_ok s L A n : heap_ok s L A -> (Z.to_nat (lim s) <= n)%nat -> (4 * length L + 8 < n)%nat.
Proof. intros Hok Hn. pose proof (asc_length _ _ _ (ho_asc _ _ _ Hok)). destruct (ho_brk _ _ _ Hok). lia. Qed.

Lemma ok_write s L A m : heap_ok s L A -> (forall x, (forall b, b ∈ A -> ~ (fst b + 8 <= x < bend b)) -> m x = um s x) -> heap_ok (set_um m s) L A.
Proof.
  intros Hok Hm. split; cbn [set_um um brk lim freep]; try apply Hok.
  - eapply seg_same; [|apply (ho_seg _ _ _ Hok)]. intros d Hd x Hx. apply Hm. intros b Hb Hbx. destruct (ho_in _ _ _ Hok b Hb) as (H1 & _).
    apply elem_of_cons in Hd as [-> |Hd]; [cbn in Hx; lia|]. destruct (ho_free _ _ _ Hok b d Hb Hd); unfold bend in *; lia.
  - intros b Hb. destruct (ho_in _ _ _ Hok b Hb) as (H1 & H2 & H3 & H4). split_and!; [done|done|done|]. rewrite <- H4. apply hdr_size. intros x Hx. apply Hm.
    intros c Hc Hcx. destruct (decide (b = c)) as [-> |Hne]; [lia|]. destruct (ho_apart _ _ _ Hok b c Hb Hc Hne); unfold bend in *; lia.
Qed.

(** A program that holds blocks has a well-formed heap; before its first call
    it holds none. *)
Definition heap_or_fresh (s : uheap) (A : gset block) : Prop :=
  (exists L, heap_ok s L A) \/ freep s = 0 /\ hs <= brk s <= lim s /\ lim s <= 2147483648 /\ A = ∅.

Lemma malloc_any s A nbytes n : heap_or_fresh s A -> 0 <= nbytes <= 1073741824 -> (Z.to_nat (lim s) <= n)%nat ->
  runs (malloc base n nbytes) s (mallocd s A (units nbytes)).
Proof.
  intros [[L Hok]|(H1 & H2 & H3 & ->)] Hnb Hn; [by apply (malloc_spec s L A); [| |eapply fuel_ok]|]. apply malloc_first; try done. lia.
Qed.

Lemma held_ok s A : held s A -> heap_or_fresh s A.
Proof.
  induction 1 as [s H1 H2 H3|s A nbytes n a s' _ IH Hnb E Hn|s A b n s' _ IH Hb E Hn|s A m _ IH Hm].
  - right. done.
  - left. pose proof (runs_elim _ _ _ _ _ (malloc_any s A nbytes n IH Hnb Hn) E) as [(-> & _ & HL & _)|(r & L' & -> & Hr & Hok & _)]; [done|].
    destruct (ho_in _ _ _ Hok r ltac:(set_solver)) as (Hr1 & _). rewrite (proj2 (Z.eqb_neq _ _)) by lia. exists L'.
    replace (fst r + 8 - 8, units nbytes) with r by (destruct r; cbn [fst snd] in *; f_equal; lia). done.
  - destruct IH as [[L Hok]|(_ & _ & _ & ->)]; [|set_solver]. left.
    destruct (runs_elim _ _ _ _ _ (free_spec s L A b n Hok Hb ltac:(pose proof (fuel_ok s L A n Hok Hn); lia)) E) as (L' & H & _). by exists L'.
  - destruct IH as [[L Hok]|(H1 & H2 & H3 & ->)]; [left; exists L; by apply ok_write|right; done].
Qed.

End Heap.

(** ** A program's first calls *)

Module HeapDemo.
(** A program of one page with room for 60 KB more. *)
Definition s0 : uheap := mkuh (fun _ => 0) 0 4096 65536.
Definition fuel : nat := Z.to_nat 65536.

Lemma first_call : exists s1, malloc 16 fuel 100 s0 = Done 36760 s1 /\ lim s1 = 65536.
Proof.
  assert (H : match malloc 16 fuel 100 s0 with Done a s => (a =? 36760) && (lim s =? 65536) | _ => false end = true) by (vm_compute; reflexivity).
  destruct (malloc 16 fuel 100 s0) as [a s1| |]; [|done|done]. apply andb_true_iff in H as [->%Z.eqb_eq H%Z.eqb_eq]. by exists s1.
Qed.


(** A request close to 2^32 bytes wraps around: malloc hands out a block that
    is only its header. *)
Lemma malloc_wraps : exists a s1, malloc 16 fuel 4294967295 s0 = Done a s1 /\ a <> 0 /\ hsize (um s1) (a - 8) = 1.
Proof.
  assert (H : match malloc 16 fuel 4294967295 s0 with Done a s => negb (a =? 0) && (hsize (um s) (a - 8) =? 1) | _ => false end = true) by (vm_compute; reflexivity).
  destruct (malloc 16 fuel 4294967295 s0) as [a s1| |]; [|done|done]. apply andb_true_iff in H as [Ha%negb_true_iff%Z.eqb_neq H%Z.eqb_eq]. by exists a, s1.
Qed.
End HeapDemo.
