(* ===== verification/User.v ===== *)
(** * User programs and their system calls (user.h, ulib.c)

    A user program is a computation over the system [W] that answers its
    system calls.  The answer to a call is what it returns and the bytes it
    stores through its pointer argument; a call that never returns (exit, an
    exec that succeeds, a read that blocks for ever) ends the computation.
    After fork the same program goes on in the parent, which gets the pid, and
    in the child, which gets 0: a computation follows one of them. *)

From S2P Require Import Prelude.
From S2P Require Import Cstr.

Inductive sys :=
| Sfork | Sexit | Swait | Spipe
| Swrite (fd : Z) (d : list Z)
| Sread (fd n : Z)
| Sclose (fd : Z)
| Skill (pid : Z)
| Sexec (path : list Z) (argv : list (list Z))
| Sopen (path : list Z) (mode : Z)
| Smknod (path : list Z) (major minor : Z)
| Sunlink (path : list Z)
| Sfstat (fd : Z)
| Slink (old new : list Z)
| Smkdir (path : list Z)
| Schdir (path : list Z)
| Sdup (fd : Z)
| Sgetpid
| Ssbrk (n : Z)
| Ssleep (n : Z)
| Suptime
| Suprog_shut
| Senable_sched_trace (b : Z).

#[export] Instance sys_eq_dec : EqDecision sys.
Proof. solve_decision. Defined.

(** The numbers of syscall.h. *)
Definition sysnum (e : sys) : Z :=
  match e with
  | Sfork => 1 | Sexit => 2 | Swait => 3 | Spipe => 4 | Sread _ _ => 5 | Skill _ => 6 | Sexec _ _ => 7 | Sfstat _ => 8 | Schdir _ => 9 | Sdup _ => 10
  | Sgetpid => 11 | Ssbrk _ => 12 | Ssleep _ => 13 | Suptime => 14 | Sopen _ _ => 15 | Swrite _ _ => 16 | Smknod _ _ _ => 17 | Sunlink _ => 18
  | Slink _ _ => 19 | Smkdir _ => 20 | Sclose _ => 21 | Senable_sched_trace _ => 22 | Suprog_shut => 23
  end.

Definition ans : Type := Z * list Z.

(** The system: [None] for a call that does not return, with the state it
    leaves. *)
Class Os (W : Type) := os_call : sys -> W -> option ans * W.

Inductive ures (W A : Type) :=
| UDone (a : A) (w : W)
| UGone (w : W)        (* the process is gone, or waits for ever *)
| UStuck.              (* out of fuel, or the C program's behaviour is undefined *)
Arguments UDone {W A}.
Arguments UGone {W A}.
Arguments UStuck {W A}.

Definition U (W A : Type) : Type := W -> ures W A.

Definition uret {W A} (a : A) : U W A := fun w => UDone a w.
Definition ubind {W A B} (m : U W A) (k : A -> U W B) : U W B := fun w =>
  match m w with
  | UDone a w' => k a w'
  | UGone w' => UGone w'
  | UStuck => UStuck
  end.
Definition ustuck {W A} : U W A := fun _ => UStuck.

Declare Scope user_scope.
Delimit Scope user_scope with user.
Notation "x <-- m ;; k" := (ubind m (fun x => k)) (at level 100, m at next level, right associativity) : user_scope.
Notation "m ;;- k" := (ubind m (fun _ => k)) (at level 100, right associativity) : user_scope.
Open Scope user_scope.

(** A C loop: [body] gives the next state or the value the loop ends with. *)
Fixpoint uloop {W S B} (fuel : nat) (body : S -> U W (S + B)) (s : S) : U W B :=
  match fuel with
  | O => ustuck
  | Datatypes.S f =>
      r <-- body s ;;
      match r with
      | inl s' => uloop f body s'
      | inr b => uret b
      end
  end.

Fixpoint ueach {W A} (l : list A) (f : A -> U W unit) : U W unit :=
  match l with
  | [] => uret tt
  | x :: l' => f x ;;- ueach l' f
  end.

(** The bytes of a string literal. *)
Fixpoint str (s : string) : list Z :=
  match s with
  | EmptyString => []
  | String c s' => Z.of_nat (Ascii.nat_of_ascii c) :: str s'
  end.

Section Calls.
Context {W : Type} {OS : Os W}.

Definition call (e : sys) : U W ans := fun w =>
  match os_call e w with
  | (Some a, w') => UDone a w'
  | (None, w') => UGone w'
  end.
Definition call_ (e : sys) : U W Z := a <-- call e ;; uret (fst a).

(** exit() never returns. *)
Definition exit_ {A} : U W A := fun w => UGone (snd (os_call Sexit w)).

Definition fork_ : U W Z := call_ Sfork.
Definition wait_ : U W Z := call_ Swait.
Definition pipe_ : U W ans := call Spipe.
Definition write_ (fd : Z) (d : list Z) : U W Z := call_ (Swrite fd d).
Definition read_ (fd n : Z) : U W ans := call (Sread fd n).
Definition close_ (fd : Z) : U W Z := call_ (Sclose fd).
Definition exec_ (path : list Z) (argv : list (list Z)) : U W Z := call_ (Sexec path argv).
Definition open_ (path : list Z) (mode : Z) : U W Z := call_ (Sopen path mode).
Definition dup_ (fd : Z) : U W Z := call_ (Sdup fd).
Definition chdir_ (path : list Z) : U W Z := call_ (Schdir path).

(** ** ulib.c routines that make system calls *)

(** gets(buf, max): the bytes stored, without the NUL. *)
Definition ugets_body (max : Z) (acc : list Z) : U W (list Z + list Z) :=
  if Z.of_nat (length acc) + 1 <? max then
    r <-- read_ 0 1 ;;
    if fst r <? 1 then uret (inr acc)
    else
      let c := nth 0 (snd r) 0 in
      if (c =? 10) || (c =? 13) then uret (inr (acc ++ [c])) else uret (inl (acc ++ [c]))
  else uret (inr acc).
Definition ugets (max : Z) : U W (list Z) := uloop (Z.to_nat max + 1) (ugets_body max) [].

(** stat(n, st) *)
Definition ustat (path : list Z) : U W ans :=
  fd <-- open_ path 0 ;;
  if fd <? 0 then uret (-1, [])
  else
    r <-- call (Sfstat fd) ;;
    close_ fd ;;-
    uret r.
End Calls.

(** ** Lemmas *)

Lemma ubind_done {W A B} (m : U W A) (k : A -> U W B) w a w' : m w = UDone a w' -> ubind m k w = k a w'.
Proof. unfold ubind. by intros ->. Qed.

Lemma ubind_assoc {W A B C} (m : U W A) (k : A -> U W B) (h : B -> U W C) w :
  ubind (ubind m k) h w = ubind m (fun a => ubind (k a) h) w.
Proof. unfold ubind. by destruct (m w). Qed.

Lemma ueach_app {W A} (l k : list A) (f : A -> U W unit) w : ueach (l ++ k) f w = ubind (ueach l f) (fun _ => ueach k f) w.
Proof.
  revert w. induction l as [|x l IH]; intros w; [done|]. cbn [ueach app]. unfold ubind. destruct (f x w) as [[] w'| |]; [|done..].
  apply IH.
Qed.

(** More fuel gives the same result. *)
Lemma uloop_mono {W S B} (body : S -> U W (S + B)) n m s w r : (n <= m)%nat -> uloop n body s w = r -> r <> UStuck -> uloop m body s w = r.
Proof.
  revert m s w. induction n as [|n IH]; intros m s w Hm E Hr; [done|]. destruct m as [|m]; [lia|]. cbn [uloop] in *.
  unfold ubind in *. destruct (body s w) as [[s'|b] w'|w'|]; [|done..]. apply IH; [lia|done|done].
Qed.
