(* ===== verification/Asm.v ===== *)
(** * The assembly of the kernel (swtch.S, trapasm.S, vectors.pl, usys.S,
    initcode.S, entry.S, the 32-bit part of entryother.S)

    The instructions these files use, as a data type with its meaning on the
    registers and memory of one CPU, and the code as lists of instructions.  The
    addresses of labels are parameters.  A push of a segment register writes 16
    bits; what addl and orl do to the flags is a parameter.  [deliver] is what
    the processor does at an interrupt, exception or int instruction. *)

From S2P Require Import Prelude.
From S2P Require Import Params.
From S2P Require Import Cstr.
From S2P Require Import Mmu.
From S2P Require Import Spinlock.
From S2P Require Import Cpu.
From S2P Require Import Proc.
From S2P Require Import Mp.
From S2P Require Import Intr.
From S2P Require Import User.

Inductive gpr := EAX | ECX | EDX | EBX | ESP | EBP | ESI | EDI.
Inductive sreg := CS | DS | ES | FS | GS | SS.
Inductive creg := CR0 | CR3 | CR4.

Definition gpr_eqb (a b : gpr) : bool :=
  match a, b with
  | EAX, EAX | ECX, ECX | EDX, EDX | EBX, EBX | ESP, ESP | EBP, EBP | ESI, ESI | EDI, EDI => true
  | _, _ => false
  end.
Definition sreg_eqb (a b : sreg) : bool :=
  match a, b with
  | CS, CS | DS, DS | ES, ES | FS, FS | GS, GS | SS, SS => true
  | _, _ => false
  end.
Definition creg_eqb (a b : creg) : bool :=
  match a, b with
  | CR0, CR0 | CR3, CR3 | CR4, CR4 => true
  | _, _ => false
  end.

Record xcpu := mkx {
  x_reg : gpr -> Z;
  x_seg : sreg -> Z;
  x_cr : creg -> Z;
  x_eip : Z;
  x_fl : Z;
  x_mem : mem
}.

Definition set_reg (r : gpr) (v : Z) (s : xcpu) : xcpu :=
  mkx (fun r' => if gpr_eqb r' r then v else x_reg s r') (x_seg s) (x_cr s) (x_eip s) (x_fl s) (x_mem s).
Definition set_seg (r : sreg) (v : Z) (s : xcpu) : xcpu :=
  mkx (x_reg s) (fun r' => if sreg_eqb r' r then v else x_seg s r') (x_cr s) (x_eip s) (x_fl s) (x_mem s).
Definition set_cr (r : creg) (v : Z) (s : xcpu) : xcpu :=
  mkx (x_reg s) (x_seg s) (fun r' => if creg_eqb r' r then v else x_cr s r') (x_eip s) (x_fl s) (x_mem s).
Definition set_eip (v : Z) (s : xcpu) : xcpu := mkx (x_reg s) (x_seg s) (x_cr s) v (x_fl s) (x_mem s).
Definition set_fl (v : Z) (s : xcpu) : xcpu := mkx (x_reg s) (x_seg s) (x_cr s) (x_eip s) v (x_mem s).
Definition set_xmem (m : mem) (s : xcpu) : xcpu := mkx (x_reg s) (x_seg s) (x_cr s) (x_eip s) (x_fl s) m.

Inductive opd := Imm (z : Z) | R (r : gpr) | At (off : Z) (r : gpr) | Abs (a : Z).
Inductive instr :=
| Movl (src dst : opd)
| Pushl (src : opd) | Popl (dst : gpr)
| Pushseg (r : sreg) | Popseg (r : sreg)
| Pushal | Popal
| Movw (z : Z) (dst : gpr)              (* the low half *)
| Movseg (src : gpr) (dst : sreg)
| Movfromcr (src : creg) (dst : gpr) | Movtocr (src : gpr) (dst : creg)
| Addl (z : Z) (dst : gpr) | Orl (z : Z) (dst : gpr)
| Jmp (target : opd)
| Call (target : opd) (retaddr : Z)
| Ret | Iret.

Definition CR4_PSE : Z := 16.
Definition CR0_PE : Z := 1.
Definition CR0_WP : Z := 65536.
Definition CR0_PG : Z := 2147483648.

(** ** The processor *)

Definition push (v : Z) (s : xcpu) : xcpu :=
  let a := u32 (x_reg s ESP - 4) in
  set_reg ESP a (set_xmem (st32 (x_mem s) a v) s).
Definition push16 (v : Z) (s : xcpu) : xcpu :=
  let a := u32 (x_reg s ESP - 4) in
  set_reg ESP a (set_xmem (st16 (x_mem s) a v) s).
Definition top (s : xcpu) : Z := ld32 (x_mem s) (x_reg s ESP).
Definition top16 (s : xcpu) : Z := ld16 (x_mem s) (x_reg s ESP).
Definition drop_ (n : Z) (s : xcpu) : xcpu := set_reg ESP (u32 (x_reg s ESP + n)) s.

(** The privilege level the CPU runs at. *)
Definition cpl (s : xcpu) : Z := Z.land (x_seg s CS) 3.
Definition pops (rs : list gpr) (s : xcpu) : xcpu := fold_left (fun s r => set_reg r (top s) (drop_ 4 s)) rs s.

(** iret; to an outer level it also takes the stack. *)
Definition iret (s : xcpu) : xcpu :=
  let level := cpl s in
  let s := set_eip (top s) (drop_ 4 s) in
  let s := set_seg CS (top16 s) (drop_ 4 s) in
  let s := set_fl (top s) (drop_ 4 s) in
  if cpl s =? level then s
  else
    let esp := top s in
    let s := drop_ 4 s in
    set_reg ESP esp (set_seg SS (top16 s) s).

(** TF, IF and NT in eflags. *)
Definition FL_TF : Z := 256.
Definition FL_NT : Z := 16384.

(** Delivery through a gate to [target]: the stack of the task state when it
    comes from user mode, the frame, and an error code for some exceptions. *)
Definition deliver (ss0 esp0 target : Z) (trapgate : bool) (err : option Z) (s : xcpu) : xcpu :=
  let s1 := if cpl s =? 3 then push (x_reg s ESP) (push16 (x_seg s SS) (set_reg ESP esp0 (set_seg SS ss0 s))) else s in
  let s2 := push (x_eip s) (push16 (x_seg s CS) (push (x_fl s) s1)) in
  let s3 := match err with Some e => push e s2 | None => s2 end in
  let clear := Z.lor (Z.lor FL_TF FL_NT) (if trapgate then 0 else FL_IF) in
  set_fl (Z.land (x_fl s) (Z.lnot clear)) (set_eip target (set_seg CS (Z.shiftl SEG_KCODE 3) s3)).

Section Asm.
Context (alu_flags : Z -> Z -> Z -> Z).     (* flags, operands *)

Definition ea (o : opd) (s : xcpu) : Z :=
  match o with
  | At off r => u32 (x_reg s r + off)
  | Abs a => a
  | _ => 0
  end.
Definition opval (o : opd) (s : xcpu) : Z :=
  match o with
  | Imm z => z
  | R r => x_reg s r
  | _ => ld32 (x_mem s) (ea o s)
  end.
Definition opset (o : opd) (v : Z) (s : xcpu) : xcpu :=
  match o with
  | R r => set_reg r v s
  | Imm _ => s
  | _ => set_xmem (st32 (x_mem s) (ea o s) v) s
  end.

Definition step (i : instr) (s : xcpu) : xcpu :=
  match i with
  | Movl src dst => opset dst (opval src s) s
  | Pushl src => push (opval src s) s
  | Popl dst => pops [dst] s
  | Pushseg r => push16 (x_seg s r) s
  | Popseg r => set_seg r (top16 s) (drop_ 4 s)
  | Pushal =>
      let esp := x_reg s ESP in
      push (x_reg s EDI) (push (x_reg s ESI) (push (x_reg s EBP) (push esp (push (x_reg s EBX) (push (x_reg s EDX) (push (x_reg s ECX) (push (x_reg s EAX) s)))))))
  | Popal => pops [EBX; EDX; ECX; EAX] (drop_ 4 (pops [EDI; ESI; EBP] s))
  | Movw z dst => set_reg dst (Z.lor (Z.land (x_reg s dst) 4294901760) (Z.land z 65535)) s
  | Movseg src dst => set_seg dst (Z.land (x_reg s src) 65535) s
  | Movfromcr src dst => set_reg dst (x_cr s src) s
  | Movtocr src dst => set_cr dst (x_reg s src) s
  | Addl z dst => set_fl (alu_flags (x_fl s) (x_reg s dst) z) (set_reg dst (u32 (x_reg s dst + z)) s)
  | Orl z dst => set_fl (alu_flags (x_fl s) (x_reg s dst) z) (set_reg dst (Z.lor (x_reg s dst) z) s)
  | Jmp t => set_eip (opval t s) s
  | Call t ra => set_eip (opval t s) (push ra s)
  | Ret => set_eip (top s) (drop_ 4 s)
  | Iret => iret s
  end.
Definition run (code : list instr) (s : xcpu) : xcpu := fold_left (fun s i => step i s) code s.

(** ** The code *)

(** swtch.S *)
Definition swtch : list instr := [
  Movl (At 4 ESP) (R EAX); Movl (At 8 ESP) (R EDX);
  Pushl (R EBP); Pushl (R EBX); Pushl (R ESI); Pushl (R EDI);
  Movl (R ESP) (At 0 EAX); Movl (R EDX) (R ESP);
  Popl EDI; Popl ESI; Popl EBX; Popl EBP; Ret].

(** vectors.pl: the entry point of trap [i], up to the jump to alltraps. *)
Definition has_err (i : Z) : bool := (i =? 8) || ((10 <=? i) && (i <=? 14)) || (i =? 17).
Definition vector (i : Z) : list instr := (if has_err i then [] else [Pushl (Imm 0)]) ++ [Pushl (Imm i)].

(** trapasm.S: before the call of trap, with its argument; after it. *)
Definition alltraps : list instr := [
  Pushseg DS; Pushseg ES; Pushseg FS; Pushseg GS; Pushal;
  Movw (Z.shiftl SEG_KDATA 3) EAX; Movseg EAX DS; Movseg EAX ES;
  Movw (Z.shiftl SEG_KCPU 3) EAX; Movseg EAX FS; Movseg EAX GS;
  Pushl (R ESP)].
Definition trapret : list instr := [Popal; Popseg GS; Popseg FS; Popseg ES; Popseg DS; Addl 8 ESP; Iret].
Definition alltraps_after : list instr := Addl 4 ESP :: trapret.

(** usys.S: the stub of a system call up to int, and after it. *)
Definition stub (e : sys) : list instr := [Movl (Imm (sysnum e)) (R EAX)].
Definition stub_after : list instr := [Ret].

(** initcode.S: up to the int of exec; the loop of exit, up to its int. *)
Definition initcode (argv init : Z) : list instr := [Pushl (Imm argv); Pushl (Imm init); Pushl (Imm 0); Movl (Imm (sysnum (Sexec [] []))) (R EAX)].
Definition initcode_exit : list instr := [Movl (Imm (sysnum Sexit)) (R EAX)].

(** entry.S *)
Definition entry (entrypgdir stack main : Z) : list instr := [
  Movfromcr CR4 EAX; Orl CR4_PSE EAX; Movtocr EAX CR4;
  Movl (Imm (v2p entrypgdir)) (R EAX); Movtocr EAX CR3;
  Movfromcr CR0 EAX; Orl (Z.lor CR0_PG CR0_WP) EAX; Movtocr EAX CR0;
  Movl (Imm (stack + KSTACKSIZE)) (R ESP);
  Movl (Imm main) (R EAX); Jmp (R EAX)].

(** entryother.S from start32 on, [start] being where the code is. *)
Definition entryother32 (start retaddr : Z) : list instr := [
  Movw (Z.shiftl SEG_KDATA 3) EAX; Movseg EAX DS; Movseg EAX ES; Movseg EAX SS;
  Movw 0 EAX; Movseg EAX FS; Movseg EAX GS;
  Movfromcr CR4 EAX; Orl CR4_PSE EAX; Movtocr EAX CR4;
  Movl (Abs (start - 12)) (R EAX); Movtocr EAX CR3;
  Movfromcr CR0 EAX; Orl (Z.lor (Z.lor CR0_PE CR0_PG) CR0_WP) EAX; Movtocr EAX CR0;
  Movl (Abs (start - 4)) (R ESP);
  Call (Abs (start - 8)) retaddr].
End Asm.
