(* ===== verification/AsmSpec.v ===== *)
(** * What the assembly does: context switches and trap frames *)

From S2P Require Import Prelude.
From S2P Require Import Params.
From S2P Require Import Cstr.
From S2P Require Import Mmu.
From S2P Require Import Spinlock.
From S2P Require Import Cpu.
From S2P Require Import Proc.
From S2P Require Import Mp.
From S2P Require Import Intr.
From S2P Require Import Asm.

(** ** Words on a stack *)

Lemma st16_ne m a v x : x < a \/ a + 2 <= x -> st16 m a v x = m x.
Proof. intros H. unfold st16. by rewrite !(proj2 (Z.eqb_neq x _)) by lia. Qed.
Lemma ld32_st16_ne m a b v : b + 4 <= a \/ a + 2 <= b -> ld32 (st16 m a v) b = ld32 m b.
Proof. intros H. apply ld32_ext. intros x Hx. apply st16_ne. lia. Qed.
Lemma ld16_ext m m' a : m' a = m a -> m' (a + 1) = m (a + 1) -> ld16 m' a = ld16 m a.
Proof. unfold ld16. by intros -> ->. Qed.
Lemma ld16_st32_ne m a b v : b + 2 <= a \/ a + 4 <= b -> ld16 (st32 m a v) b = ld16 m b.
Proof. intros H. apply ld16_ext; apply st32_ne; lia. Qed.
Lemma ld16_st16_ne m a b v : b + 2 <= a \/ a + 2 <= b -> ld16 (st16 m a v) b = ld16 m b.
Proof. intros H. apply ld16_ext; apply st16_ne; lia. Qed.
Lemma ld16_st16_eq m a v : 0 <= v < 65536 -> ld16 (st16 m a v) a = v.
Proof.
  intros Hv. unfold ld16, st16. rewrite Z.eqb_refl. rewrite (proj2 (Z.eqb_neq (a + 1) a)) by lia. rewrite Z.eqb_refl.
  cbn [le_val]. unfold u8. rewrite Z.shiftr_div_pow2 by lia. change (2 ^ 8) with 256.
  assert (v / 256 < 256) by (apply Z.div_lt_upper_bound; lia). assert (0 <= v / 256) by (apply Z.div_pos; lia).
  rewrite (Z.mod_small (v / 256)) by lia. pose proof (Z.div_mod v 256). lia.
Qed.

Lemma ld32_st32_at m a b v : b = a -> 0 <= v < 4294967296 -> ld32 (st32 m a v) b = v.
Proof. intros -> Hv. by rewrite ld32_st32_eq, u32_id. Qed.
Lemma ld16_st16_at m a b v : b = a -> 0 <= v < 65536 -> ld16 (st16 m a v) b = v.
Proof. intros ->. apply ld16_st16_eq. Qed.

(** Reads through the stores of a run of pushes. *)
Ltac flat :=
  repeat match goal with
  | |- context [u32 ?a] => lazymatch a with context [u32 _] => fail | _ => rewrite (u32_id a) by lia end
  end.
Ltac stk :=
  repeat first
    [ rewrite ld32_st32_at by lia
    | rewrite ld16_st16_at by lia
    | rewrite ld32_st32_ne by lia
    | rewrite ld32_st16_ne by lia
    | rewrite ld16_st32_ne by lia
    | rewrite ld16_st16_ne by lia ].
Ltac xrun := cbv beta iota zeta delta [run fold_left step opval opset ea pops push push16 set_reg set_seg set_cr set_xmem set_eip set_fl drop_ top top16 x_reg x_seg x_cr x_mem x_eip x_fl gpr_eqb sreg_eqb creg_eqb].

Section Spec.
Context (alu : Z -> Z -> Z -> Z).

Definition words_ok (s : xcpu) : Prop := (forall r, 0 <= x_reg s r < 4294967296) /\ (forall r, 0 <= x_seg s r < 65536) /\ 0 <= x_eip s < 4294967296 /\ 0 <= x_fl s < 4294967296.

(** ** swtch *)

Definition ctx_at (m : mem) (a : Z) : context := mkctx (ld32 m a) (ld32 m (a + 4)) (ld32 m (a + 8)) (ld32 m (a + 12)) (ld32 m (a + 16)).

(** [n] bytes at [a] apart from [k] bytes at [b]. *)
Definition apart (a n b k : Z) : Prop := a + n <= b \/ b + k <= a.

(** A call of swtch: its arguments [old] and [new] above the return address. *)
Record swtch_call (s : xcpu) (old new : Z) : Prop := {
  sw_words : words_ok s;
  sw_mem : mem_ok (x_mem s);
  sw_stack : 16 <= x_reg s ESP < 4294967296 - 12;
  sw_old : ld32 (x_mem s) (x_reg s ESP + 4) = old;
  sw_new : ld32 (x_mem s) (x_reg s ESP + 8) = new;
  sw_range : 0 <= old < 4294967296 - 4 /\ 0 <= new < 4294967296 - 20;
  sw_slot : apart old 4 (x_reg s ESP - 16) 28;
  sw_apart : apart new 20 (x_reg s ESP - 16) 16 /\ apart new 20 old 4
}.

Lemma swtch_spec s old new : swtch_call s old new ->
  let esp := x_reg s ESP in let s' := run alu swtch s in
  ld32 (x_mem s') old = esp - 16 /\
  ctx_at (x_mem s') (esp - 16) = mkctx (x_reg s EDI) (x_reg s ESI) (x_reg s EBX) (x_reg s EBP) (ld32 (x_mem s) esp) /\
  (forall x, ~ (esp - 16 <= x < esp) -> ~ (old <= x < old + 4) -> x_mem s' x = x_mem s x) /\
  mkctx (x_reg s' EDI) (x_reg s' ESI) (x_reg s' EBX) (x_reg s' EBP) (x_eip s') = ctx_at (x_mem s) new /\ x_reg s' ESP = new + 20.
Proof.
  intros [(Hr & _ & _) Hm Hs Eo En [Ho Hn] Hslot [Ha1 Ha2]]. cbv zeta. unfold apart in *.
  pose proof (Hr EDI). pose proof (Hr ESI). pose proof (Hr EBX). pose proof (Hr EBP). clear Hr.
  destruct s as [g sg cr ip fl m]. cbn [x_reg x_mem] in *. unfold swtch. xrun.
  rewrite (u32_id (g ESP + 4)), (u32_id (g ESP + 8)), Eo, En by lia. flat. unfold ctx_at. split_and!.
  - stk. lia.
  - f_equal; stk; try done. f_equal. lia.
  - intros x Hx1 Hx2. by rewrite !st32_ne by lia.
  - f_equal; stk; f_equal; lia.
  - lia.
Qed.

Lemma ctx_ext m m' a : (forall x, a <= x < a + 20 -> m' x = m x) -> ctx_at m' a = ctx_at m a.
Proof. intros H. unfold ctx_at. f_equal; apply ld32_ext; intros x Hx; apply H; lia. Qed.

(** ** Trap frames *)

Definition tf_at (m : mem) (a : Z) : trapframe :=
  mktf (ld32 m a) (ld32 m (a + 4)) (ld32 m (a + 8)) (ld32 m (a + 12)) (ld32 m (a + 16)) (ld32 m (a + 20)) (ld32 m (a + 24)) (ld32 m (a + 28))
    (ld16 m (a + 32)) (ld16 m (a + 36)) (ld16 m (a + 40)) (ld16 m (a + 44)) (ld32 m (a + 48)) (ld32 m (a + 52)) (ld32 m (a + 56)) (ld16 m (a + 60))
    (ld32 m (a + 64)) (ld32 m (a + 68)) (ld16 m (a + 72)).

(** The frame that says where [s] was interrupted; [oesp], and the last two
    words when it is in the kernel, are what the stack has there. *)
Definition frame (s : xcpu) (n err oesp esp ss : Z) : trapframe :=
  mktf (x_reg s EDI) (x_reg s ESI) (x_reg s EBP) oesp (x_reg s EBX) (x_reg s EDX) (x_reg s ECX) (x_reg s EAX)
    (x_seg s GS) (x_seg s FS) (x_seg s ES) (x_seg s DS) n err (x_eip s) (x_seg s CS) (x_fl s) esp ss.

Definition enter_kernel (ss0 esp0 target : Z) (tg : bool) (n err : Z) (s : xcpu) : xcpu :=
  run alu alltraps (run alu (vector n) (deliver ss0 esp0 target tg (if has_err n then Some err else None) s)).
Definition err_of (n err : Z) : Z := if has_err n then err else 0.

(** In trap: the segments of the kernel, and the frame as its argument. *)
Record in_trap (s : xcpu) (tf : Z) (t : trapframe) : Prop := {
  it_esp : x_reg s ESP = tf - 4;
  it_arg : ld32 (x_mem s) (tf - 4) = tf;
  it_frame : tf_at (x_mem s) tf = t;
  it_cs : x_seg s CS = Z.shiftl SEG_KCODE 3;
  it_ds : x_seg s DS = Z.shiftl SEG_KDATA 3 /\ x_seg s ES = Z.shiftl SEG_KDATA 3;
  it_gs : x_seg s FS = Z.shiftl SEG_KCPU 3 /\ x_seg s GS = Z.shiftl SEG_KCPU 3
}.

Lemma low16 x v : 0 <= v < 65536 -> Z.land (Z.lor (Z.land x 4294901760) (Z.land v 65535)) 65535 = v.
Proof.
  intros Hv. rewrite Z.land_lor_distr_l, <- !Z.land_assoc. change (Z.land 4294901760 65535) with 0. change (Z.land 65535 65535) with (Z.ones 16).
  rewrite Z.land_0_r, Z.lor_0_l, Z.land_ones by lia. by apply Z.mod_small.
Qed.

Ltac ranges Hr Hg :=
  pose proof (Hr EAX); pose proof (Hr ECX); pose proof (Hr EDX); pose proof (Hr EBX); pose proof (Hr ESP); pose proof (Hr EBP); pose proof (Hr ESI); pose proof (Hr EDI);
  pose proof (Hg CS); pose proof (Hg DS); pose proof (Hg ES); pose proof (Hg FS); pose proof (Hg GS); pose proof (Hg SS); clear Hr Hg.
Ltac entered :=
  split; [split; cbn [x_reg x_seg x_mem]; unfold tf_at|split; [reflexivity|intros x Hx; cbn [x_mem]; repeat first [rewrite st32_ne by lia | rewrite st16_ne by lia]; reflexivity]];
  [lia|stk; lia|f_equal; stk; first [reflexivity|lia|f_equal; lia]|reflexivity|by rewrite low16|by rewrite low16].

Lemma enter_user s ss0 esp0 target tg n err : words_ok s -> cpl s = 3 -> 80 <= esp0 < 4294967296 -> 0 <= n < 256 -> 0 <= err < 4294967296 ->
  let s' := enter_kernel ss0 esp0 target tg n err s in
  in_trap s' (esp0 - 76) (frame s n (err_of n err) (esp0 - 44) (x_reg s ESP) (x_seg s SS)) /\ x_seg s' SS = ss0 /\
  forall x, ~ (esp0 - 80 <= x < esp0) -> x_mem s' x = x_mem s x.
Proof.
  intros (Hr & Hg & Hip & Hfl) Hc He Hn Herr. cbv zeta.
  ranges Hr Hg.
  unfold enter_kernel, deliver. rewrite Hc. change (3 =? 3) with true. cbv iota. destruct s as [g sg cr ip fl m]. unfold vector, err_of, frame. cbn [x_reg x_seg x_eip x_fl x_mem] in *.
  destruct (has_err n); unfold alltraps; xrun; cbn [app]; xrun; flat; entered.
Qed.

Lemma enter_intr s ss0 esp0 target tg n err : words_ok s -> cpl s = 0 -> 72 <= x_reg s ESP -> 0 <= n < 256 -> 0 <= err < 4294967296 ->
  let esp := x_reg s ESP in let s' := enter_kernel ss0 esp0 target tg n err s in
  in_trap s' (esp - 68) (frame s n (err_of n err) (esp - 36) (ld32 (x_mem s) esp) (ld16 (x_mem s) (esp + 4))) /\ x_seg s' SS = x_seg s SS /\
  forall x, ~ (esp - 72 <= x < esp) -> x_mem s' x = x_mem s x.
Proof.
  intros (Hr & Hg & Hip & Hfl) Hc He Hn Herr. cbv zeta.
  ranges Hr Hg.
  unfold enter_kernel, deliver. rewrite Hc. change (0 =? 3) with false. cbv iota. destruct s as [g sg cr ip fl m]. unfold vector, err_of, frame. cbn [x_reg x_seg x_eip x_fl x_mem] in *.
  destruct (has_err n); unfold alltraps; xrun; cbn [app]; xrun; flat; entered.
Qed.

(** What trapret makes of the frame [t] at [a]. *)
Record resumed (s : xcpu) (t : trapframe) (a : Z) (s' : xcpu) : Prop := {
  rs_regs : mkctx (x_reg s' EDI) (x_reg s' ESI) (x_reg s' EBX) (x_reg s' EBP) (x_eip s') = mkctx (tf_edi t) (tf_esi t) (tf_ebx t) (tf_ebp t) (tf_eip t);
  rs_scratch : x_reg s' EAX = tf_eax t /\ x_reg s' ECX = tf_ecx t /\ x_reg s' EDX = tf_edx t;
  rs_segs : x_seg s' DS = tf_ds t /\ x_seg s' ES = tf_es t /\ x_seg s' FS = tf_fs t /\ x_seg s' GS = tf_gs t;
  rs_code : x_seg s' CS = tf_cs t /\ x_fl s' = tf_eflags t;
  rs_stack : if Z.land (tf_cs t) 3 =? 0 then x_reg s' ESP = a + 68 /\ x_seg s' SS = x_seg s SS else x_reg s' ESP = tf_esp t /\ x_seg s' SS = tf_ss t;
  rs_mem : x_mem s' = x_mem s
}.

Lemma trapret_spec s a : x_reg s ESP = a -> 0 <= a < 4294967296 - 80 -> x_seg s CS = Z.shiftl SEG_KCODE 3 -> resumed s (tf_at (x_mem s) a) a (run alu trapret s).
Proof.
  intros Ea Ha Hc. destruct s as [g sg cr ip fl m]. cbn [x_reg x_seg x_mem] in *. unfold trapret. xrun. unfold iret, cpl. xrun. rewrite Ea, Hc. flat.
  replace (a + 4 + 4 + 4 + 4 + 4 + 4 + 4 + 4 + 4 + 4 + 4 + 4 + 8 + 4) with (a + 60) by lia. change (Z.land (Z.shiftl SEG_KCODE 3) 3) with 0. unfold tf_at.
  destruct (Z.land (ld16 m (a + 60)) 3 =? 0) eqn:El; split; cbn [x_reg x_seg x_mem x_eip x_fl tf_edi tf_esi tf_ebx tf_ebp tf_eip tf_eax tf_ecx tf_edx tf_ds tf_es tf_fs tf_gs tf_cs tf_eflags tf_esp tf_ss];
    rewrite ?El; split_and?; try reflexivity; first [lia|f_equal; lia|f_equal; f_equal; lia].
Qed.

Lemma tf_ext m m' a : (forall x, a <= x < a + 76 -> m' x = m x) -> tf_at m' a = tf_at m a.
Proof. intros H. unfold tf_at. f_equal; first [apply ld32_ext; intros x Hx; apply H; lia|apply ld16_ext; apply H; lia]. Qed.
End Spec.

Lemma run_cons alu i c s : run alu (i :: c) s = run alu c (step alu i s).
Proof. reflexivity. Qed.
#[local] Opaque run enter_kernel.

(** C8: to the code that calls it, swtch is a call that returns.  It saves the
    callee-saved registers and the return address as a struct context at the
    address it stores through [old], and goes on in the context [new].  Whenever
    some CPU later calls swtch with that saved context as [new], the stack of
    the first caller being as it was left, execution goes on after the first
    call with the callee-saved registers and the stack pointer of a plain
    return. *)
Theorem swtch_roundtrip alu s s2 old new old2 : swtch_call s old new ->
  let esp := x_reg s ESP in let s1 := run alu swtch s in let s3 := run alu swtch s2 in
  mkctx (x_reg s1 EDI) (x_reg s1 ESI) (x_reg s1 EBX) (x_reg s1 EBP) (x_eip s1) = ctx_at (x_mem s) new /\ x_reg s1 ESP = new + 20 /\
  (swtch_call s2 old2 (ld32 (x_mem s1) old) -> (forall x, esp - 16 <= x < esp + 4 -> x_mem s2 x = x_mem s1 x) ->
   x_eip s3 = ld32 (x_mem s) esp /\ x_reg s3 ESP = esp + 4 /\
   x_reg s3 EBX = x_reg s EBX /\ x_reg s3 ESI = x_reg s ESI /\ x_reg s3 EDI = x_reg s EDI /\ x_reg s3 EBP = x_reg s EBP).
Proof.
  intros H1. cbv zeta. destruct (swtch_spec alu s old new H1) as (Eo & Ec & _ & En & Ep). split_and!; [done|done|]. intros H2 Hk. rewrite Eo in H2.
  destruct (swtch_spec alu s2 old2 _ H2) as (_ & _ & _ & E3 & P3). rewrite (ctx_ext (x_mem (run alu swtch s))), Ec in E3 by (intros x Hx; apply Hk; lia).
  injection E3 as Ed Es Eb Ebp Ei. split_and!; try done. rewrite P3. lia.
Qed.

(** C7: a trap does not disturb what it interrupts.  Entered through its vector
    from user mode or from the kernel, alltraps calls trap with the segments of
    the kernel and with a struct trapframe that holds every register of the
    interrupted code, the trap number and the error code, at the top of the
    kernel stack; from user mode this is where allocproc puts p->tf.  When trap
    returns, every register is loaded from the frame, so what trap stored there
    (a system call's result in eax, the new program's eip and esp) is what the
    code goes on with; when trap left the frame alone, all registers, the
    segments, the flags and the stack pointer are as they were. *)
Theorem trap_roundtrip alu s ss0 esp0 target tg n err s2 : words_ok s -> 0 <= n < 256 -> 0 <= err < 4294967296 ->
  (cpl s = 3 /\ 80 <= esp0 < 4294967296 - 16 \/ cpl s = 0 /\ 72 <= x_reg s ESP < 4294967296 - 16) ->
  let tf := if cpl s =? 3 then esp0 - 76 else x_reg s ESP - 68 in
  let s1 := enter_kernel alu ss0 esp0 target tg n err s in
  let s3 := run alu alltraps_after s2 in
  (exists oesp e f, in_trap s1 tf (frame s n (err_of n err) oesp e f) /\ (cpl s = 3 -> e = x_reg s ESP /\ f = x_seg s SS)) /\
  (x_reg s2 ESP = tf - 4 -> x_seg s2 CS = Z.shiftl SEG_KCODE 3 -> x_seg s2 SS = x_seg s1 SS ->
   let t := tf_at (x_mem s2) tf in
   x_eip s3 = tf_eip t /\ x_reg s3 EAX = tf_eax t /\ x_seg s3 CS = tf_cs t /\ (Z.land (tf_cs t) 3 = 3 -> x_reg s3 ESP = tf_esp t) /\
   (t = tf_at (x_mem s1) tf ->
    (forall r, x_reg s3 r = x_reg s r) /\ (forall r, x_seg s3 r = x_seg s r) /\ x_eip s3 = x_eip s /\ x_fl s3 = x_fl s /\ x_mem s3 = x_mem s2)).
Proof.
  intros Hw Hn He Hmode. cbv zeta.
  assert (Hs : exists oesp e f, in_trap (enter_kernel alu ss0 esp0 target tg n err s) (if cpl s =? 3 then esp0 - 76 else x_reg s ESP - 68) (frame s n (err_of n err) oesp e f) /\
    (cpl s = 3 -> e = x_reg s ESP /\ f = x_seg s SS) /\ (cpl s = 0 -> x_seg (enter_kernel alu ss0 esp0 target tg n err s) SS = x_seg s SS)).
  { destruct Hmode as [[Hc Hb]|[Hc Hb]]; rewrite Hc.
    - destruct (enter_user alu s ss0 esp0 target tg n err Hw Hc ltac:(lia) Hn He) as (Hin & _). do 3 eexists. split; [exact Hin|done].
    - destruct (enter_intr alu s ss0 esp0 target tg n err Hw Hc ltac:(lia) Hn He) as (Hin & Hss & _). do 3 eexists. split; [exact Hin|done]. }
  destruct Hs as (oesp & e & f & Hin & Hu & Hk). split; [exists oesp, e, f; by split|]. intros Ee Ec Es.
  set (tf := if cpl s =? 3 then esp0 - 76 else x_reg s ESP - 68) in *. assert (Htf : 0 <= tf - 4 /\ tf < 4294967296 - 80) by (unfold tf; destruct Hmode as [[-> ?]|[-> ?]]; cbn; lia).
  unfold alltraps_after. rewrite run_cons. set (s2' := step alu (Addl 4 ESP) s2).
  assert (Esp : x_reg s2' ESP = tf) by (cbn; rewrite Ee; rewrite u32_id by lia; lia).
  destruct (trapret_spec alu s2' tf Esp ltac:(lia) Ec) as [R1 R2 R3 R4 R5 R6]. change (x_mem s2') with (x_mem s2) in *. change (x_seg s2' SS) with (x_seg s2 SS) in R5.
  set (s3 := run alu trapret s2') in *. set (t := tf_at (x_mem s2) tf) in *. clearbody t. injection R1 as A1 A2 A3 A4 A5. destruct R2 as (B1 & B2 & B3), R3 as (C1 & C2 & C3 & C4), R4 as [D1 D2].
  split_and!; try done.
  - intros E3. rewrite E3 in R5. by destruct R5.
  - intros Et. rewrite (it_frame _ _ _ Hin) in Et. rewrite Et in *. cbn [frame tf_edi tf_esi tf_ebx tf_ebp tf_eip tf_eax tf_ecx tf_edx tf_ds tf_es tf_fs tf_gs tf_cs tf_eflags tf_esp tf_ss] in *.
    assert (Hst : x_reg s3 ESP = x_reg s ESP /\ x_seg s3 SS = x_seg s SS).
    { fold (cpl s) in R5. destruct Hmode as [[Hc _]|[Hc _]]; rewrite Hc in R5; cbn in R5; destruct R5 as [R5 R5'].
      - destruct (Hu Hc) as [-> ->]. by split.
      - rewrite R5, R5', Es, Hk by done. split; [|done]. unfold tf. rewrite Hc. cbn. lia. }
    split_and!; [intros []; tauto|intros []; tauto|done..].
Qed.

(** C35: a new process begins where its trap frame says.  Scheduled for the first
    time, on a kernel stack as allocproc and fork (or userinit) leave it, it
    starts in forkret; when forkret returns it is in trapret with the frame on
    top of the stack, and so enters user mode with exactly the registers of the
    frame: in the child of fork those of the parent but eax, which fork set. *)
Theorem proc_first_run alu s s2 old new forkret trapret_addr : swtch_call s old new -> new < 4294967296 - 120 ->
  ctx_at (x_mem s) new = mkctx 0 0 0 0 forkret -> ld32 (x_mem s) (new + 20) = trapret_addr ->
  let t := tf_at (x_mem s) (new + 24) in Z.land (tf_cs t) 3 = 3 ->
  x_reg s2 ESP = new + 20 -> x_seg s2 CS = Z.shiftl SEG_KCODE 3 -> (forall x, new + 20 <= x < new + 100 -> x_mem s2 x = x_mem s x) ->
  let s1 := run alu swtch s in let s3 := step alu Ret s2 in let s4 := run alu trapret s3 in
  x_eip s1 = forkret /\ x_reg s1 ESP = new + 20 /\ x_eip s3 = trapret_addr /\
  cpl s4 = 3 /\ x_eip s4 = tf_eip t /\ x_reg s4 ESP = tf_esp t /\ x_seg s4 SS = tf_ss t /\ x_reg s4 EAX = tf_eax t /\ x_reg s4 ECX = tf_ecx t /\ x_reg s4 EDX = tf_edx t /\
  x_reg s4 EBX = tf_ebx t /\ x_reg s4 ESI = tf_esi t /\ x_reg s4 EDI = tf_edi t /\ x_reg s4 EBP = tf_ebp t /\ x_fl s4 = tf_eflags t.
Proof.
  intros Hsw Hnew Hctx Hret t Hcs Hesp Hc Hm. destruct (swtch_spec alu s old new Hsw) as (_ & _ & _ & E1 & E2). rewrite Hctx in E1. injection E1 as _ _ _ _ Ei.
  destruct (sw_range _ _ _ Hsw) as [_ Hr]. cbv zeta. set (s3 := step alu Ret s2).
  assert (H3 : x_reg s3 ESP = new + 24) by (cbn; rewrite Hesp, u32_id by lia; lia).
  assert (Et : tf_at (x_mem s3) (new + 24) = t) by (apply tf_ext; intros x Hx; apply Hm; lia).
  assert (Er : x_eip s3 = trapret_addr) by (cbn; unfold top; rewrite Hesp, <- Hret; apply ld32_ext; intros x Hx; apply Hm; lia).
  destruct (trapret_spec alu s3 (new + 24) H3 ltac:(lia) Hc) as [R1 R2 R3 R4 R5 R6]. rewrite Et in *. clearbody t. rewrite Hcs in R5. destruct R5 as [R5 R5'], R2 as (B1 & B2 & B3), R4 as [D1 D2].
  injection R1 as A1 A2 A3 A4 A5. unfold cpl. rewrite D1. split_and!; done.
Qed.

#[local] Transparent run enter_kernel.

(** entry.S and entryother.S turn paging on over the given page directory and
    continue on the given stack. *)
Lemma entry_spec alu s pgdir stack main : let s' := run alu (entry pgdir stack main) s in
  x_eip s' = main /\ x_reg s' ESP = stack + KSTACKSIZE /\ x_cr s' CR3 = v2p pgdir /\ x_cr s' CR0 = Z.lor (x_cr s CR0) (Z.lor CR0_PG CR0_WP) /\ x_cr s' CR4 = Z.lor (x_cr s CR4) CR4_PSE.
Proof. done. Qed.

Lemma entryother_spec alu s start ra : let s' := run alu (entryother32 start ra) s in
  x_eip s' = ld32 (x_mem s) (start - 8) /\ x_reg s' ESP = u32 (ld32 (x_mem s) (start - 4) - 4) /\ x_cr s' CR3 = ld32 (x_mem s) (start - 12) /\
  x_cr s' CR0 = Z.lor (x_cr s CR0) (Z.lor (Z.lor CR0_PE CR0_PG) CR0_WP) /\ x_seg s' SS = Z.shiftl SEG_KDATA 3 /\ x_seg s' GS = 0.
Proof.
  cbv zeta. unfold entryother32. xrun. split_and!; try reflexivity.
  - by rewrite low16.
  - by rewrite low16.
Qed.

Module AsmDemo.
Definition alu0 (fl a b : Z) : Z := fl.
Definition regs (esp : Z) (r : gpr) : Z := match r with ESP => esp | EDI => 1 | ESI => 2 | EBX => 3 | EBP => 4 | EAX => 5 | ECX => 6 | EDX => 7 end.
Definition segs (cs : Z) (r : sreg) : Z := match r with CS => cs | _ => 16 end.
Definition zero_mem : mem := fun _ => 0.
(** On the stack at 8192: a call of swtch with the slot 4096 and the context at
    12288, which is one of a new process. *)
Definition m0 : mem := st32 (st32 (st32 (st32 (st32 (st32 zero_mem 8192 777) 8196 4096) 8200 12288) 12304 888) 12308 999) 12372 27.
Definition x0 : xcpu := mkx (regs 8192) (segs 8) (fun _ => 0) 0 0 m0.
(** Later, on another stack, a call with the saved context. *)
Definition x2 : xcpu := mkx (regs 20480) (segs 8) (fun _ => 0) 0 0 (st32 (st32 (x_mem (run alu0 swtch x0)) 20484 4100) 20488 8176).

Lemma m0_ok : mem_ok m0.
Proof. unfold m0. repeat apply st32_ok. intros a. unfold byte_ok, zero_mem. lia. Qed.

Lemma regs_ok esp cs ip fl cr m : 0 <= esp < 4294967296 -> 0 <= cs < 65536 -> 0 <= ip < 4294967296 -> 0 <= fl < 4294967296 -> words_ok (mkx (regs esp) (segs cs) cr ip fl m).
Proof. intros H1 H2 H3 H4. split_and!; cbn [x_reg x_seg x_eip x_fl]; try lia; intros []; cbn; lia. Qed.

Lemma x0_call : swtch_call x0 4096 12288.
Proof.
  split; [apply regs_ok; lia|apply m0_ok|cbn; lia|vm_compute; reflexivity|vm_compute; reflexivity|lia|unfold apart; cbn; lia|unfold apart; cbn; lia].
Qed.

Lemma x2_mem_ok : mem_ok (x_mem x2).
Proof. unfold x2. cbn [x_mem]. do 2 apply st32_ok. unfold swtch, x0. xrun. repeat apply st32_ok. intros a. unfold byte_ok, zero_mem. lia. Qed.

Lemma swtch_roundtrip_witness : let s3 := run alu0 swtch x2 in x_eip s3 = 777 /\ x_reg s3 ESP = 8196 /\ x_reg s3 EBX = 3.
Proof.
  destruct (swtch_roundtrip alu0 x0 x2 4096 12288 4100 x0_call) as (_ & _ & H).
  destruct H as (H1 & H2 & H3 & _).
  - assert (E : ld32 (x_mem (run alu0 swtch x0)) 4096 = 8176) by (vm_compute; reflexivity). rewrite E.
    split; [apply regs_ok; lia|apply x2_mem_ok|cbn; lia|vm_compute; reflexivity|vm_compute; reflexivity|lia|unfold apart; cbn; lia|unfold apart; cbn; lia].
  - intros x Hx. change (8192 - 16 <= x < 8192 + 4) in Hx. unfold x2. cbn [x_mem]. by rewrite !st32_ne by lia.
  - assert (E : ld32 (x_mem x0) (x_reg x0 ESP) = 777) by (vm_compute; reflexivity). rewrite E in H1. split_and!; assumption.
Defined.

(** A system call from user mode on the kernel stack that ends at 16384. *)
Definition u0 : xcpu := mkx (regs 5000) (segs 35) (fun _ => 0) 4096 512 zero_mem.
Definition u1 : xcpu := enter_kernel alu0 16 16384 640 true 64 0 u0.

Lemma trap_roundtrip_witness : let s3 := run alu0 alltraps_after u1 in (forall r, x_reg s3 r = x_reg u0 r) /\ x_eip s3 = 4096 /\ tf_trapno (tf_at (x_mem u1) 16308) = 64.
Proof.
  destruct (trap_roundtrip alu0 u0 16 16384 640 true 64 0 u1) as [(o & e & f & Hin & _) H].
  - apply regs_ok; lia.
  - lia.
  - lia.
  - left. split; [reflexivity|lia].
  - destruct H as (_ & _ & _ & _ & H); [vm_compute; reflexivity|vm_compute; reflexivity|reflexivity|]. destruct (H eq_refl) as (H1 & _ & H3 & _).
    split_and!; [exact H1|exact H3|]. change (if cpl u0 =? 3 then 16384 - 76 else x_reg u0 ESP - 68) with 16308 in Hin. fold u1 in Hin. rewrite (it_frame _ _ _ Hin). reflexivity.
Defined.

(** The new process of [x0], when forkret has returned to its frame. *)
Definition f2 : xcpu := mkx (regs 12308) (segs 8) (fun _ => 0) 0 0 m0.
Lemma proc_first_run_witness : cpl (run alu0 trapret (step alu0 Ret f2)) = 3 /\ x_eip (run alu0 swtch x0) = 888.
Proof.
  destruct (proc_first_run alu0 x0 f2 4096 12288 888 999) as (H1 & _ & _ & H4 & _).
  - apply x0_call.
  - lia.
  - vm_compute. reflexivity.
  - vm_compute. reflexivity.
  - vm_compute. reflexivity.
  - reflexivity.
  - reflexivity.
  - reflexivity.
  - split; [exact H4|exact H1].
Defined.
End AsmDemo.
