(* ===== verification/Printf.v ===== *)
(** * Formatted output (printf.c, and printint/cprintf of console.c)

    What a call prints as a function of its format and arguments, the user
    printf that writes it a byte at a time, and that the numbers printed read
    back as the numbers given. *)

From S2P Require Import Prelude.
From S2P Require Import User.

(** An argument as the format reads it: a word, or a pointer to a string. *)
Inductive arg := AInt (x : Z) | AStr (s : option (list Z)).

Definition udigits : list Z := str "0123456789ABCDEF".
Definition kdigits : list Z := str "0123456789abcdef".

(** [do buf[i++] = digits[x % base]; while((x /= base) != 0);] *)
Fixpoint digit_loop (digits : list Z) (fuel : nat) (x base : Z) : list Z :=
  match fuel with
  | O => []
  | S f => nthZ digits (x mod base) :: (if x / base =? 0 then [] else digit_loop digits f (x / base) base)
  end.

(** The digits are produced from the low end into buf and printed from its
    end. *)
Definition printint (digits : list Z) (xx base : Z) (sgn : bool) : list Z :=
  let neg := sgn && (xx <? 0) in
  let x := if neg then u32 (- xx) else u32 xx in
  rev (digit_loop digits 32 x base ++ (if neg then [45] else [])).

(** The text of one conversion of user printf: the bytes printed and the
    arguments left. *)
Definition conv (c : Z) (args : list arg) : option (list Z * list arg) :=
  if c =? 100 then match args with AInt x :: a => Some (printint udigits (s32 x) 10 true, a) | _ => None end
  else if (c =? 120) || (c =? 112) then match args with AInt x :: a => Some (printint udigits (s32 x) 16 false, a) | _ => None end
  else if c =? 115 then match args with AStr s :: a => Some (default (str "(null)") s, a) | _ => None end
  else if c =? 99 then match args with AInt x :: a => Some ([u8 x], a) | _ => None end
  else if c =? 37 then Some ([c], args)
  else Some ([37; c], args).

(** The loop over the format; [state] says whether the last byte was a %. *)
Fixpoint printf_text (state : bool) (fmt : list Z) (args : list arg) : option (list Z) :=
  match fmt with
  | [] => Some []
  | c :: fmt' =>
      if state then
        match conv c args with
        | Some (d, a) => app d <$> printf_text false fmt' a
        | None => None
        end
      else if c =? 37 then printf_text true fmt' args
      else cons c <$> printf_text false fmt' args
  end.

(** The same of the kernel's cprintf. *)
Definition kconv (c : Z) (args : list arg) : option (list Z * list arg) :=
  if c =? 100 then match args with AInt x :: a => Some (printint kdigits (s32 x) 10 true, a) | _ => None end
  else if (c =? 120) || (c =? 112) then match args with AInt x :: a => Some (printint kdigits (s32 x) 16 false, a) | _ => None end
  else if c =? 115 then match args with AStr s :: a => Some (default (str "(null)") s, a) | _ => None end
  else if c =? 37 then Some ([37], args)
  else Some ([37; c], args).

Fixpoint cprintf_text (fmt : list Z) (args : list arg) : option (list Z) :=
  match fmt with
  | [] => Some []
  | c :: fmt' =>
      if negb (c =? 37) then cons c <$> cprintf_text fmt' args
      else
        match fmt' with
        | [] => Some []
        | d :: fmt'' =>
            match kconv d args with
            | Some (t, a) => app t <$> cprintf_text fmt'' a
            | None => None
            end
        end
  end.

Section Print.
Context {W : Type} {OS : Os W}.

Definition putc (fd c : Z) : U W unit := write_ fd [c] ;;- uret tt.

Definition printf (fd : Z) (fmt : string) (args : list arg) : U W unit :=
  match printf_text false (str fmt) args with
  | Some t => ueach t (putc fd)
  | None => ustuck
  end.
End Print.

(** ** Reading numbers back *)

Definition digit_of (c : Z) : Z :=
  if (48 <=? c) && (c <=? 57) then c - 48
  else if (65 <=? c) && (c <=? 70) then c - 55
  else if (97 <=? c) && (c <=? 102) then c - 87
  else -1.

(** The value of a numeral, the most significant digit first. *)
Definition numeral (base : Z) (l : list Z) : Z := fold_left (fun v c => v * base + digit_of c) l 0.

Definition signed_numeral (base : Z) (l : list Z) : Z :=
  match l with
  | c :: l' => if c =? 45 then - numeral base l' else numeral base l
  | [] => 0
  end.

Lemma numeral_snoc base l c : numeral base (l ++ [c]) = numeral base l * base + digit_of c.
Proof. unfold numeral. by rewrite fold_left_app. Qed.

Definition digits_ok (digits : list Z) : Prop := forall d, 0 <= d < 16 -> digit_of (nthZ digits d) = d /\ nthZ digits d <> 45.

Lemma digits_check digits : forallb (fun d => (digit_of (nthZ digits (Z.of_nat d)) =? Z.of_nat d) && negb (nthZ digits (Z.of_nat d) =? 45)) (seq 0 16) = true ->
  digits_ok digits.
Proof.
  intros H d Hd. rewrite forallb_forall in H. specialize (H (Z.to_nat d)).
  rewrite Z2Nat.id in H by lia. apply andb_true_iff in H; [|apply in_seq; lia]. destruct H as [H1 H2].
  apply Z.eqb_eq in H1. apply negb_true_iff, Z.eqb_neq in H2. done.
Qed.
Lemma udigits_ok : digits_ok udigits.
Proof. by apply digits_check. Qed.
Lemma kdigits_ok : digits_ok kdigits.
Proof. by apply digits_check. Qed.

Section Loop.
Context (digits : list Z) (Hd : digits_ok digits) (base : Z) (Hb : 2 <= base <= 16).

Lemma digit_loop_value n x : 0 <= x < base ^ Z.of_nat n -> numeral base (rev (digit_loop digits n x base)) = x.
Proof.
  revert x. induction n as [|n IH]; intros x Hx; [cbn in *; lia|]. cbn [digit_loop rev]. rewrite numeral_snoc.
  assert (Hm : 0 <= x mod base < base) by (apply Z.mod_pos_bound; lia). destruct (Hd (x mod base)) as [-> _]; [lia|].
  rewrite Nat2Z.inj_succ, Z.pow_succ_r in Hx by lia. pose proof (Z.div_mod x base). destruct (x / base =? 0) eqn:E.
  - cbn. lia.
  - rewrite IH; [nia|]. split; [apply Z.div_pos; lia|apply Z.div_lt_upper_bound; lia].
Qed.

Lemma digit_loop_length n k x : 0 <= x < base ^ Z.of_nat (S k) -> (length (digit_loop digits n x base) <= S k)%nat.
Proof.
  revert k x. induction n as [|n IH]; intros k x Hx; [cbn; lia|]. cbn [digit_loop length]. destruct (x / base =? 0) eqn:E; [cbn; lia|].
  rewrite Nat2Z.inj_succ, Z.pow_succ_r in Hx by lia. destruct k as [|k].
  - apply Z.eqb_neq in E. rewrite Z.div_small in E; [done|]. cbn in Hx. lia.
  - specialize (IH k (x / base)). apply le_n_S, IH. split; [apply Z.div_pos; lia|apply Z.div_lt_upper_bound; lia].
Qed.

Lemma digit_loop_chars n x c : 0 <= x -> In c (digit_loop digits n x base) -> c <> 45.
Proof.
  revert x. induction n as [|n IH]; intros x Hx; [done|]. cbn [digit_loop]. intros [<-|Hc].
  - apply Hd. pose proof (Z.mod_pos_bound x base). lia.
  - destruct (x / base =? 0); [done|]. by apply (IH (x / base)); [apply Z.div_pos; lia|].
Qed.

(** The most significant digit is not 0, unless the number is. *)
Lemma digit_loop_lead n x : 0 < x < base ^ Z.of_nat n -> exists l c, digit_loop digits n x base = l ++ [c] /\ digit_of c <> 0.
Proof.
  revert x. induction n as [|n IH]; intros x Hx; [cbn in *; lia|]. cbn [digit_loop]. rewrite Nat2Z.inj_succ, Z.pow_succ_r in Hx by lia.
  assert (Hm : 0 <= x mod base < base) by (apply Z.mod_pos_bound; lia). destruct (Hd (x mod base)) as [Hdv _]; [lia|].
  pose proof (Z.div_mod x base). destruct (x / base =? 0) eqn:E.
  - exists [], (nthZ digits (x mod base)). split; [done|]. rewrite Hdv. apply Z.eqb_eq in E. nia.
  - apply Z.eqb_neq in E. destruct (IH (x / base)) as (l & c & -> & Hc).
    + assert (0 <= x / base) by (apply Z.div_pos; lia). split; [lia|apply Z.div_lt_upper_bound; lia].
    + by exists (nthZ digits (x mod base) :: l), c.
Qed.
End Loop.

Lemma signed_pos base l : (forall c, In c l -> c <> 45) -> signed_numeral base l = numeral base l.
Proof. destruct l as [|c l]; [done|]. intros H. cbn [signed_numeral]. destruct (c =? 45) eqn:E; [|done]. apply Z.eqb_eq in E. by destruct (H c (or_introl eq_refl)). Qed.

Lemma pow_32 base : 2 <= base -> 4294967296 <= base ^ 32.
Proof. intros H. change 4294967296 with (2 ^ 32). apply Z.pow_le_mono_l. lia. Qed.

Lemma printint_value digits xx base sgn : digits_ok digits -> 2 <= base <= 16 -> -2147483648 <= xx < 2147483648 ->
  signed_numeral base (printint digits xx base sgn) = if sgn then xx else u32 xx.
Proof.
  intros Hd Hb Hx. pose proof (pow_32 base). unfold printint. destruct (sgn && (xx <? 0)) eqn:E.
  - apply andb_true_iff in E as [-> E]. rewrite rev_app_distr. cbn [rev app signed_numeral].
    rewrite Z.eqb_refl, digit_loop_value by (unfold u32; try done; rewrite Z.mod_small; lia). unfold u32. rewrite Z.mod_small; lia.
  - rewrite app_nil_r. assert (Hu : 0 <= u32 xx < 4294967296) by (apply Z.mod_pos_bound; lia).
    rewrite signed_pos by (intros c Hc%in_rev; eapply digit_loop_chars; [| |by apply Hu|]; eauto).
    rewrite digit_loop_value by (try done; lia). destruct sgn; [|done]. cbn in E. apply Z.ltb_ge in E. apply Z.mod_small. lia.
Qed.

Lemma printint_length digits xx base sgn : base = 10 \/ base = 16 -> -2147483648 <= xx < 2147483648 ->
  (length (printint digits xx base sgn) <= 11)%nat.
Proof.
  intros Hb Hx. unfold printint. rewrite length_rev, length_app.
  assert (H : forall x, 0 <= x < 4294967296 -> (length (digit_loop digits 32 x base) <= 10)%nat).
  { intros x Hx'. apply digit_loop_length; [destruct Hb; lia|]. assert (4294967296 <= base ^ Z.of_nat 10) by (destruct Hb as [-> | ->]; cbn; lia). lia. }
  destruct (sgn && (xx <? 0)); cbn [length].
  - specialize (H (u32 (- xx))). assert (0 <= u32 (- xx) < 4294967296) by (apply Z.mod_pos_bound; lia). lia.
  - specialize (H (u32 xx)). assert (0 <= u32 xx < 4294967296) by (apply Z.mod_pos_bound; lia). lia.
Qed.

(** printint prints a 32-bit number exactly, in both printfs and with
    either set of digits: what it prints reads back as the number (as its
    unsigned value for %x and %p), it has no leading zero, and it fits the
    16 bytes of buf. *)
Theorem printint_roundtrip digits xx base sgn : digits = udigits \/ digits = kdigits -> base = 10 \/ base = 16 ->
  -2147483648 <= xx < 2147483648 ->
  signed_numeral base (printint digits xx base sgn) = (if sgn then xx else u32 xx) /\
  (length (printint digits xx base sgn) <= 11)%nat /\
  (xx <> 0 -> exists c l, printint digits xx base sgn = (if sgn && (xx <? 0) then [45] else []) ++ c :: l /\ digit_of c <> 0).
Proof.
  intros Hd Hb Hx. assert (Hok : digits_ok digits) by (destruct Hd as [-> | ->]; [apply udigits_ok|apply kdigits_ok]).
  assert (Hb' : 2 <= base <= 16) by (destruct Hb; lia). split_and!.
  - by apply printint_value.
  - by apply printint_length.
  - intros Hn. pose proof (pow_32 base). set (x := if sgn && (xx <? 0) then u32 (- xx) else u32 xx).
    destruct (digit_loop_lead digits Hok base Hb' 32 x) as (l & c & E & Hc).
    { assert (Hp : 0 < x < 4294967296); [|lia]. unfold x, u32. destruct (sgn && (xx <? 0)) eqn:Es.
      - apply andb_true_iff in Es as [_ Es]. rewrite Z.mod_small; lia.
      - pose proof (Z.mod_pos_bound xx 4294967296). pose proof (Z.div_mod xx 4294967296).
        assert (xx / 4294967296 = 0 \/ xx / 4294967296 = -1) by (destruct (decide (0 <= xx)); [left; apply Z.div_small; lia|right; symmetry; apply (Z.div_unique xx _ _ (xx + 4294967296)); lia]).
        lia. }
    exists c, (rev l). split; [|done]. unfold printint. fold x. rewrite E, !rev_app_distr. by destruct (sgn && (xx <? 0)).
Qed.

Lemma printint_roundtrip_witness : printint udigits (-2147483648) 10 true = str "-2147483648" /\
  signed_numeral 10 (printint udigits (-2147483648) 10 true) = -2147483648.
Proof.
  split; [reflexivity|]. apply (printint_roundtrip udigits (-2147483648) 10 true); [by left|by left|lia].
Defined.
