(* ===== verification/Grep.v ===== *)
(** * grep (grep.c)

    The matcher, against what a pattern means, and the loop that reads lines
    into a fixed buffer, for a regular file and for input that comes in
    pieces. *)

From S2P Require Import Prelude.
From S2P Require Import User.
From S2P Require Import Printf.

(** ** The matcher *)

(** matchstar, given matchhere on the rest of the pattern. *)
Fixpoint matchstar (here : list Z -> bool) (c : Z) (text : list Z) : bool :=
  if here text then true
  else
    match text with
    | [] => false
    | t :: text' => if (t =? c) || (c =? 46) then matchstar here c text' else false
    end.

Fixpoint matchhere (re text : list Z) : bool :=
  match re with
  | [] => true
  | c :: re1 =>
      match re1 with
      | 42 :: re2 => matchstar (matchhere re2) c text
      | _ =>
          if (c =? 36) && bool_decide (re1 = []) then bool_decide (text = [])
          else
            match text with
            | [] => false
            | t :: text' => if (c =? 46) || (c =? t) then matchhere re1 text' else false
            end
      end
  end.

Fixpoint match_from (re text : list Z) : bool :=
  if matchhere re text then true
  else match text with [] => false | _ :: text' => match_from re text' end.

Definition match_ (re text : list Z) : bool :=
  match re with
  | 94 :: re' => matchhere re' text
  | _ => match_from re text
  end.

(** ** The program *)

(** strchr(p, '\n'): the bytes before the newline and those after it, if it
    comes before a NUL. *)
Fixpoint cut_line (p : list Z) : option (list Z * list Z) :=
  match p with
  | [] => None
  | c :: p' =>
      if c =? 0 then None
      else if c =? 10 then Some ([], p')
      else (fun r => (c :: fst r, snd r)) <$> cut_line p'
  end.

Definition BUFSZ : Z := 1024.

Section Grep.
Context {W : Type} {OS : Os W}.

(** The inner loop from [p] on: the bytes left when there is no more newline,
    and whether there was one. *)
Fixpoint grep_lines (fuel : nat) (re p : list Z) (moved : bool) : U W (list Z * bool) :=
  match fuel with
  | O => ustuck
  | S f =>
      match cut_line p with
      | None => uret (p, moved)
      | Some (line, rest) =>
          (if match_ re line then write_ 1 (line ++ [10]) ;;- uret tt else uret tt) ;;-
          grep_lines f re rest true
      end
  end.

(** One read into the buffer, which holds [m] bytes of an unfinished line. *)
Definition grep_body (re : list Z) (fd : Z) (m : list Z) : U W (list Z + unit) :=
  r <-- read_ fd (BUFSZ - Z.of_nat (length m) - 1) ;;
  if fst r <=? 0 then uret (inr tt)
  else
    let buf := m ++ take (Z.to_nat (fst r)) (snd r) in
    q <-- grep_lines (S (length buf)) re buf false ;;
    uret (inl (if snd q : bool then fst q else [])).

Definition grep (fuel : nat) (re : list Z) (fd : Z) : U W unit := uloop fuel (grep_body re fd) [].

Definition grep_file_arg (fuel : nat) (re name : list Z) : U W unit :=
  fd <-- open_ name 0 ;;
  if fd <? 0 then printf 1 "grep: cannot open %s
" [AStr (Some name)] ;;- exit_
  else grep fuel re fd ;;- close_ fd ;;- uret tt.

Definition grep_main (fuel : nat) (argv : list (list Z)) : U W unit :=
  match argv with
  | _ :: re :: files =>
      match files with
      | [] => grep fuel re 0 ;;- exit_
      | _ => ueach files (grep_file_arg fuel re) ;;- exit_
      end
  | _ => printf 2 "usage: grep pattern [file ...]
" [] ;;- exit_
  end.
End Grep.

(** ** What a pattern means *)

(** [re] matches a beginning of the text. *)
Inductive here : list Z -> list Z -> Prop :=
| h_nil t : here [] t
| h_star c re u t : Forall (fun x => x = c \/ c = 46) u -> here re t -> here (c :: 42 :: re) (u ++ t)
| h_end : here [36] []
| h_char c re x t : head re <> Some 42 -> ~ (c = 36 /\ re = []) -> c = 46 \/ c = x -> here re t -> here (c :: re) (x :: t).

Definition matches (re text : list Z) : Prop :=
  match re with
  | 94 :: re' => here re' text
  | _ => exists pre suf, text = pre ++ suf /\ here re suf
  end.

Lemma matchstar_spec f (P : list Z -> Prop) c text : (forall t, f t = true <-> P t) ->
  matchstar f c text = true <-> exists u t, text = u ++ t /\ Forall (fun x => x = c \/ c = 46) u /\ P t.
Proof.
  intros Hf. induction text as [|x text IH]; cbn [matchstar].
  - destruct (f []) eqn:E; split; try done.
    + intros _. exists [], []. split_and!; [done|done|by apply Hf].
    + intros (u & t & Eu & _ & Hp). symmetry in Eu. apply app_nil in Eu as [-> ->]. apply Hf in Hp. congruence.
  - destruct (f (x :: text)) eqn:E.
    { split; [|done]. intros _. exists [], (x :: text). split_and!; [done|done|by apply Hf]. }
    assert (Hx : ((x =? c) || (c =? 46)) = true <-> (x = c \/ c = 46)) by (rewrite orb_true_iff, !Z.eqb_eq; done).
    destruct ((x =? c) || (c =? 46)).
    + rewrite IH. split.
      * intros (u & t & -> & Hu & Hp). exists (x :: u), t. split_and!; [done| |done]. constructor; [by apply Hx|done].
      * intros ([|y u] & t & Eu & Hu & Hp); cbn in Eu; subst; [apply Hf in Hp; congruence|]. injection Eu as <- ->.
        exists u, t. by inversion Hu.
    + split; [done|]. intros ([|y u] & t & Eu & Hu & Hp); cbn in Eu; subst; [apply Hf in Hp; congruence|]. injection Eu as <- ->.
      inversion Hu as [|? ? H1 H2]; subst. apply Hx in H1. done.
Qed.

Lemma here_star c re text : here (c :: 42 :: re) text <-> exists u t, text = u ++ t /\ Forall (fun x => x = c \/ c = 46) u /\ here re t.
Proof.
  split.
  - inversion 1; subst; [eauto 10|done].
  - intros (u & t & -> & Hu & Hh). by constructor.
Qed.

Lemma here_one c re text : head re <> Some 42 -> here (c :: re) text <->
  if bool_decide (c = 36 /\ re = []) then text = [] else exists x t, text = x :: t /\ (c = 46 \/ c = x) /\ here re t.
Proof.
  intros Hn. case_bool_decide as Hc.
  - destruct Hc as [-> ->]. split; [|intros ->; constructor]. inversion 1 as [| | |? ? ? ? ? Hb]; subst; [done|]. by destruct Hb.
  - split.
    + inversion 1; subst; [done|by destruct Hc|eauto].
    + intros (x & t & -> & Hx & Hh). by constructor.
Qed.

(** One step of matchhere when the next item is not starred. *)
Lemma matchhere_one c re text : head re <> Some 42 -> matchhere (c :: re) text =
  if (c =? 36) && bool_decide (re = []) then bool_decide (text = [])
  else match text with [] => false | t :: text' => if (c =? 46) || (c =? t) then matchhere re text' else false end.
Proof.
  intros Hn. cbn [matchhere]. destruct re as [|d re]; [done|]. cbn [head] in Hn. destruct (decide (d = 42)) as [->|Hd]; [done|].
  destruct d as [|p|p]; try done. repeat (destruct p as [p|p|]; try done).
Qed.

Lemma matchhere_spec n re text : (length re <= n)%nat -> matchhere re text = true <-> here re text.
Proof.
  revert re text. induction n as [|n IH]; intros [|c re] text Hl; cbn [length] in Hl; [cbn; split; [constructor|done]|lia|cbn; split; [constructor|done]|].
  destruct (decide (head re = Some 42)) as [Hs|Hs].
  - destruct re as [|d re]; [done|]. injection Hs as ->. rewrite here_star. cbn [matchhere]. apply matchstar_spec.
    intros t. apply IH. cbn in Hl. lia.
  - rewrite matchhere_one, here_one by done.
    assert (Eb : (c =? 36) && bool_decide (re = []) = bool_decide (c = 36 /\ re = [])).
    { apply eq_true_iff_eq. rewrite andb_true_iff, Z.eqb_eq, !bool_decide_eq_true. done. }
    rewrite Eb. destruct (bool_decide (c = 36 /\ re = [])); [by rewrite bool_decide_eq_true|].
    destruct text as [|x text]; [split; [done|by intros (? & ? & ? & _)]|].
    destruct ((c =? 46) || (c =? x)) eqn:E.
    + apply orb_true_iff in E. rewrite !Z.eqb_eq in E. rewrite IH by lia. split; [eauto|]. by intros (? & ? & [= <- <-] & _ & ?).
    + split; [done|]. intros (? & ? & [= <- <-] & Hx & _). apply orb_false_iff in E. rewrite !Z.eqb_neq in E. by destruct E, Hx.
Qed.

Lemma match_from_spec re text : match_from re text = true <-> exists pre suf, text = pre ++ suf /\ here re suf.
Proof.
  induction text as [|x text IH]; cbn [match_from].
  - destruct (matchhere re []) eqn:E; split; try done.
    + intros _. exists [], []. split; [done|]. by eapply matchhere_spec.
    + intros (pre & suf & Eu & Hh). symmetry in Eu. apply app_nil in Eu as [-> ->]. eapply matchhere_spec in Hh; [|done]. congruence.
  - destruct (matchhere re (x :: text)) eqn:E.
    { split; [|done]. intros _. exists [], (x :: text). split; [done|]. by eapply matchhere_spec. }
    rewrite IH. split.
    + intros (pre & suf & -> & Hh). by exists (x :: pre), suf.
    + intros ([|y pre] & suf & Eu & Hh); cbn in Eu; [subst; eapply matchhere_spec in Hh; [|done]; congruence|].
      injection Eu as <- ->. eauto.
Qed.

(** C37: match(re, text) says exactly whether the pattern matches somewhere in
    the text, or at its beginning if it starts with ^: c is itself, . any
    character, c* any number of c's, and a final $ the end. *)
Theorem match_correct re text : match_ re text = true <-> matches re text.
Proof.
  unfold match_, matches. destruct re as [|c re]; [apply match_from_spec|].
  destruct (decide (c = 94)) as [->|Hc]; [by eapply matchhere_spec|].
  destruct c as [|p|p]; try apply match_from_spec. repeat (destruct p as [p|p|]; try apply match_from_spec). done.
Qed.

(** ** Reading lines *)

(** Standard input as the pieces in which it becomes available, and standard
    output: a read returns at most one piece. *)
Record stdio := mkio { io_in : list (list Z); io_out : list Z }.

#[export] Instance stdio_os : Os stdio := fun e w =>
  match e with
  | Sread _ n =>
      match io_in w with
      | [] => (Some (0, []), w)
      | c :: cs =>
          let d := take (Z.to_nat n) c in
          let c' := drop (Z.to_nat n) c in
          (Some (Z.of_nat (length d), d), mkio (if bool_decide (c' = []) then cs else c' :: cs) (io_out w))
      end
  | Swrite _ d => (Some (Z.of_nat (length d), []), mkio (io_in w) (io_out w ++ d))
  | Sexit => (None, w)
  | _ => (Some (-1, []), w)
  end.

Definition flat (ls : list (list Z)) : list Z := concat (map (fun l => l ++ [10]) ls).
Definition selected (re : list Z) (ls : list (list Z)) : list Z := flat (List.filter (match_ re) ls).
Definition line_ok (l : list Z) : Prop := Forall (fun c => c <> 0 /\ c <> 10) l.

Lemma flat_app a b : flat (a ++ b) = flat a ++ flat b.
Proof. unfold flat. by rewrite map_app, concat_app. Qed.
Lemma selected_app re a b : selected re (a ++ b) = selected re a ++ selected re b.
Proof. unfold selected. by rewrite List.filter_app, flat_app. Qed.

Lemma cut_line_some l r : line_ok l -> cut_line (l ++ 10 :: r) = Some (l, r).
Proof.
  induction 1 as [|c l [H0 H1] Hl IH]; [done|]. cbn [cut_line app].
  rewrite (proj2 (Z.eqb_neq c 0)), (proj2 (Z.eqb_neq c 10)), IH by done. done.
Qed.
Lemma cut_line_none l : line_ok l -> cut_line l = None.
Proof.
  induction 1 as [|c l [H0 H1] Hl IH]; [done|]. cbn [cut_line].
  rewrite (proj2 (Z.eqb_neq c 0)), (proj2 (Z.eqb_neq c 10)), IH by done. done.
Qed.

(** The inner loop prints the matching lines of the buffer and keeps what
    follows the last newline. *)
Lemma grep_lines_spec n re ls tl b w : (length (flat ls ++ tl) < n)%nat -> Forall line_ok ls -> line_ok tl ->
  grep_lines n re (flat ls ++ tl) b w =
  UDone (tl, b || negb (bool_decide (ls = []))) (mkio (io_in w) (io_out w ++ selected re ls)).
Proof.
  revert ls b w. induction n as [|n IH]; intros ls b w Hn Hls Htl; [lia|]. cbn [grep_lines]. destruct Hls as [|l ls Hl Hls].
  - cbn [flat map concat app]. rewrite cut_line_none by done. unfold selected, flat. cbn. rewrite orb_false_r, app_nil_r. by destruct w.
  - assert (E : flat (l :: ls) ++ tl = l ++ 10 :: (flat ls ++ tl)) by (unfold flat; cbn; rewrite <- !app_assoc; done).
    rewrite E in Hn |- *. rewrite length_app in Hn. cbn [length] in Hn. rewrite cut_line_some by done. cbn [bool_decide].
    rewrite orb_true_r. assert (Hsel : selected re (l :: ls) = (if match_ re l then l ++ [10] else []) ++ selected re ls).
    { unfold selected. cbn [List.filter]. by destruct (match_ re l). }
    rewrite Hsel. destruct (match_ re l).
    + unfold ubind, write_, call_, call, ubind. cbn [os_call stdio_os]. unfold uret. cbv iota. rewrite IH by (try done; lia). cbn [io_in io_out].
      cbn [orb]. by rewrite !app_assoc.
    + unfold ubind at 1, uret at 1. by rewrite IH by (try done; lia).
Qed.

(** A prefix of the lines ends inside one of them. *)
Lemma take_flat k ls : Forall line_ok ls -> exists ls1 ls2 tl, ls = ls1 ++ ls2 /\ take k (flat ls) = flat ls1 ++ tl /\ line_ok tl /\
  tl ++ drop k (flat ls) = flat ls2 /\
  (ls <> [] -> Forall (fun l => length l < k)%nat ls -> ls1 <> []).
Proof.
  intros Hls. revert k. induction Hls as [|l ls Hl Hls IH]; intros k.
  { exists [], [], []. cbn. rewrite take_nil, drop_nil. split_and!; try done; by apply Forall_nil_2. }
  change (flat (l :: ls)) with ((l ++ [10]) ++ flat ls). destruct (decide (length l < k)%nat) as [Hk|Hk].
  - destruct (IH (k - (length l + 1))%nat) as (ls1 & ls2 & tl & -> & E1 & Ht & E2 & _).
    exists (l :: ls1), ls2, tl. rewrite take_app, drop_app, length_app. cbn [length].
    rewrite (take_ge (l ++ [10])), (drop_ge (l ++ [10])), E1 by (rewrite length_app; cbn; lia).
    split_and!; [done|by rewrite app_assoc|done|done|done].
  - exists [], (l :: ls), (take k l). rewrite take_app, drop_app, length_app. cbn [length].
    replace (k - (length l + 1))%nat with 0%nat by lia. rewrite take_0, drop_0, app_nil_r.
    rewrite (take_app_le l), (drop_app_le l) by lia. split_and!.
    + done.
    + done.
    + by apply Forall_take.
    + rewrite !app_assoc, take_drop. done.
    + intros _ HF. inversion HF; subst. lia.
Qed.

Definition file_ok (ls : list (list Z)) : Prop := Forall line_ok ls /\ Forall (fun l => length l < 1023)%nat ls.

Lemma flat_nil_line ls l : flat ls = l -> line_ok l -> ls = [].
Proof.
  intros <- Hl. destruct ls as [|x ls]; [done|]. exfalso. unfold flat in Hl. cbn in Hl. rewrite <- app_assoc in Hl.
  apply Forall_app in Hl as [_ Hl]. inversion Hl as [|? ? [_ ?] _]; subst. done.
Qed.

Definition stream (d : list Z) : list (list Z) := if bool_decide (d = []) then [] else [d].

Lemma stream_read n fd d out : (0 < n)%nat ->
  os_call (Sread fd (Z.of_nat n)) (mkio (stream d) out) =
  (Some (Z.of_nat (length (take n d)), take n d), mkio (stream (drop n d)) out).
Proof.
  intros Hn. unfold stream. case_bool_decide as Hd; [subst; by rewrite take_nil, drop_nil|].
  cbn [os_call stdio_os io_in io_out]. by rewrite Nat2Z.id.
Qed.

(** The outer loop on a stream of whole lines, [carry] being the part of one
    that was already read. *)
Lemma grep_loop_spec n re fd carry rest ls out : (length rest < n)%nat -> carry ++ rest = flat ls -> line_ok carry -> (length carry < 1023)%nat ->
  file_ok ls -> uloop n (grep_body re fd) carry (mkio (stream rest) out) = UDone tt (mkio [] (out ++ selected re ls)).
Proof.
  revert carry rest ls out. induction n as [|n IH]; intros carry rest ls out Hn E Hc Hlc [Hls Hlen]; [lia|]. cbn [uloop].
  unfold ubind at 1, grep_body at 1, ubind at 1, read_, call, BUFSZ.
  replace (1024 - Z.of_nat (length carry) - 1) with (Z.of_nat (1023 - length carry)) by lia. rewrite stream_read by lia. cbn [fst snd].
  destruct (decide (rest = [])) as [->|Hr].
  { rewrite take_nil, drop_nil. rewrite app_nil_r in E. rewrite (flat_nil_line ls carry) by done.
    change (selected re []) with (@nil Z). by rewrite (app_nil_r out). }
  assert (Hpos : (0 < length (take (1023 - length carry) rest))%nat).
  { rewrite length_take. destruct rest; [done|]. cbn [length]. lia. }
  rewrite (proj2 (Z.leb_gt _ 0)) by lia. rewrite Nat2Z.id, take_take, Nat.min_id || rewrite Nat2Z.id.
  rewrite (take_ge (take _ rest)) by lia.
  assert (Hbuf : carry ++ take (1023 - length carry) rest = take 1023 (flat ls)) by (rewrite <- E, take_app, (take_ge carry) by lia; done).
  rewrite Hbuf. destruct (take_flat 1023 ls Hls) as (ls1 & ls2 & tl & -> & E1 & Ht & E2 & Hne). rewrite E1.
  apply Forall_app in Hls as [Hls1 Hls2]. unfold ubind at 1. rewrite grep_lines_spec by (try done; lia). cbn [io_in io_out fst snd].
  assert (Hne1 : ls1 <> []).
  { apply Hne; [|done]. intros Enil. rewrite Enil in E. cbn in E. apply app_nil in E as [_ E]. done. }
  rewrite bool_decide_false by done. cbn [orb negb]. unfold uret at 1. apply Forall_app in Hlen as [Hlen1 Hlen2].
  rewrite IH with (ls := ls2); [by rewrite selected_app, app_assoc| | | | |done].
  - rewrite length_drop. rewrite length_take in Hpos. lia.
  - rewrite <- E2. f_equal. rewrite <- E, drop_app, (drop_ge carry) by lia. done.
  - done.
  - assert (Hle : (length (flat ls1 ++ tl) <= 1023)%nat) by (rewrite <- E1, length_take; lia). rewrite length_app in Hle.
    assert (1 <= length (flat ls1))%nat; [|lia].
    destruct ls1 as [|x ls1]; [done|]. unfold flat. cbn [map concat]. rewrite !length_app. cbn [length]. lia.
Qed.

(** On a file whose lines end in a newline and have at most 1022 bytes, none
    of them NUL, grep prints exactly the lines that match the pattern, in
    order, however the lines fall in its buffer. *)
Theorem grep_file re ls out fuel : Forall line_ok ls -> Forall (fun l => length l < 1023)%nat ls -> (length (flat ls) < fuel)%nat ->
  grep fuel re 0 (mkio (stream (flat ls)) out) = UDone tt (mkio [] (out ++ flat (List.filter (match_ re) ls))).
Proof. intros H1 H2 Hf. apply grep_loop_spec; [done|done|by apply Forall_nil_2|cbn; lia|done]. Qed.

Lemma grep_file_witness :
  grep 100 (str "b.*c") 0 (mkio (stream (flat [str "abc"; str "acb"; str "bb c"])) []) =
  UDone tt (mkio [] ([] ++ flat (List.filter (match_ (str "b.*c")) [str "abc"; str "acb"; str "bb c"]))).
Proof.
  apply (grep_file (str "b.*c") [str "abc"; str "acb"; str "bb c"] [] 100).
  - repeat constructor; discriminate.
  - repeat constructor.
  - cbn. lia.
Defined.

(** If a read ends in the middle of a line with no newline before it, as a
    read from a pipe can, grep drops what it has read of the line: the line
    abc that comes as ab and then c is not found by the pattern abc. *)
Theorem grep_split_line : match_ (str "abc") (str "abc") = true /\
  grep 10 (str "abc") 0 (mkio [str "ab"; str "c" ++ [10]] []) = UDone tt (mkio [] []) /\
  grep 10 (str "abc") 0 (mkio [str "abc" ++ [10]] []) = UDone tt (mkio [] (str "abc" ++ [10])).
Proof. by vm_compute. Qed.
