(* ===== verification/Uprogs.v ===== *)
(** * The smaller user programs (cat.c, wc.c, echo.c, ls.c, ln.c, rm.c, mkdir.c,
    kill.c, init.c, zombie.c, sleep-echo.c, uprog_shut.c, stressfs.c,
    forktest.c) *)

From S2P Require Import Prelude.
From S2P Require Import Cstr.
From S2P Require Import User.
From S2P Require Import Printf.

Definition DIRSIZ_u : nat := 14.

(** strchr on a string given by its bytes. *)
Definition has_char (s : list Z) (c : Z) : bool :=
  match Ulib.strchr (S (length s)) (fun i => nth i s 0) c with Some (Some _) => true | _ => false end.

Section Uprogs.
Context {W : Type} {OS : Os W}.

(** ** cat.c *)

Definition cat_body (fd : Z) (_ : unit) : U W (unit + Z) :=
  r <-- read_ fd 512 ;;
  if fst r >? 0 then write_ 1 (take (Z.to_nat (fst r)) (snd r)) ;;- uret (inl tt) else uret (inr (fst r)).
Definition cat (fuel : nat) (fd : Z) : U W unit :=
  n <-- uloop fuel (cat_body fd) tt ;;
  if n <? 0 then printf 1 "cat: read error
" [] ;;- exit_ else uret tt.

Definition cat_arg (fuel : nat) (a : list Z) : U W unit :=
  fd <-- open_ a 0 ;;
  if fd <? 0 then printf 1 "cat: cannot open %s
" [AStr (Some a)] ;;- exit_
  else cat fuel fd ;;- close_ fd ;;- uret tt.
Definition cat_main (fuel : nat) (argv : list (list Z)) : U W unit :=
  if (length argv <=? 1)%nat then cat fuel 0 ;;- exit_
  else ueach (drop 1 argv) (cat_arg fuel) ;;- exit_.

(** ** wc.c *)

Record wcst := mkwc { wc_l : Z; wc_w : Z; wc_c : Z; wc_in : bool }.
Definition wc_spaces : list Z := [32; 13; 9; 10; 11].

Definition wc_byte (st : wcst) (b : Z) : wcst :=
  let c := wc_c st + 1 in
  let l := if b =? 10 then wc_l st + 1 else wc_l st in
  if has_char wc_spaces b then mkwc l (wc_w st) c false
  else if negb (wc_in st) then mkwc l (wc_w st + 1) c true
  else mkwc l (wc_w st) c (wc_in st).

Definition wc_body (fd : Z) (st : wcst) : U W (wcst + Z * wcst) :=
  r <-- read_ fd 512 ;;
  if fst r >? 0 then uret (inl (fold_left wc_byte (take (Z.to_nat (fst r)) (snd r)) st)) else uret (inr (fst r, st)).
Definition wc (fuel : nat) (fd : Z) (name : list Z) : U W unit :=
  r <-- uloop fuel (wc_body fd) (mkwc 0 0 0 false) ;;
  if fst r <? 0 then printf 1 "wc: read error
" [] ;;- exit_
  else printf 1 "%d %d %d %s
" [AInt (wc_l (snd r)); AInt (wc_w (snd r)); AInt (wc_c (snd r)); AStr (Some name)].

Definition wc_arg (fuel : nat) (a : list Z) : U W unit :=
  fd <-- open_ a 0 ;;
  if fd <? 0 then printf 1 "wc: cannot open %s
" [AStr (Some a)] ;;- exit_
  else wc fuel fd a ;;- close_ fd ;;- uret tt.
Definition wc_main (fuel : nat) (argv : list (list Z)) : U W unit :=
  if (length argv <=? 1)%nat then wc fuel 0 [] ;;- exit_
  else ueach (drop 1 argv) (wc_arg fuel) ;;- exit_.

(** ** echo.c *)

Fixpoint echo_args (args : list (list Z)) : U W unit :=
  match args with
  | [] => uret tt
  | a :: args' => printf 1 "%s%s" [AStr (Some a); AStr (Some (match args' with [] => [10] | _ => [32] end))] ;;- echo_args args'
  end.
Definition echo_main (argv : list (list Z)) : U W unit := echo_args (drop 1 argv) ;;- exit_.

(** ** ln.c, rm.c, mkdir.c, kill.c *)

Definition ln_main (argv : list (list Z)) : U W unit :=
  match argv with
  | [_; old; new] =>
      r <-- call_ (Slink old new) ;;
      (if r <? 0 then printf 2 "link %s %s: failed
" [AStr (Some old); AStr (Some new)] else uret tt) ;;- exit_
  | _ => printf 2 "Usage: ln old new
" [] ;;- exit_
  end.

(** The loops of rm and mkdir stop at the first failure. *)
Fixpoint until_failed (f : list Z -> sys) (msg : string) (args : list (list Z)) : U W unit :=
  match args with
  | [] => uret tt
  | a :: args' => r <-- call_ (f a) ;; if r <? 0 then printf 2 msg [AStr (Some a)] else until_failed f msg args'
  end.

Definition rm_main (argv : list (list Z)) : U W unit :=
  if (length argv <? 2)%nat then printf 2 "Usage: rm files...
" [] ;;- exit_
  else until_failed Sunlink "rm: %s failed to delete
" (drop 1 argv) ;;- exit_.

Definition mkdir_main (argv : list (list Z)) : U W unit :=
  if (length argv <? 2)%nat then printf 2 "Usage: mkdir files...
" [] ;;- exit_
  else until_failed Smkdir "mkdir: %s failed to create
" (drop 1 argv) ;;- exit_.

Definition kill_arg (a : list Z) : U W unit :=
  match Ulib.atoi (S (length a)) (fun i => nth i a 0) with
  | Some pid => call_ (Skill pid) ;;- uret tt
  | None => ustuck
  end.
Definition kill_main (argv : list (list Z)) : U W unit :=
  if (length argv <? 2)%nat then printf 2 "usage: kill pid...
" [] ;;- exit_
  else ueach (drop 1 argv) kill_arg ;;- exit_.

(** ** ls.c *)

(** [for(p=path+strlen(path); p >= path && *p != '/'; p--)] from [path + k],
    and the [p++] after it. *)
Fixpoint name_start (path : list Z) (k : nat) : nat :=
  if nth k path 0 =? 47 then S k
  else match k with O => 0%nat | S k' => name_start path k' end.

Definition fmtname (path : list Z) : list Z :=
  let p := drop (name_start path (length path)) path in
  if (DIRSIZ_u <=? length p)%nat then p else p ++ replicate (DIRSIZ_u - length p) 32.

(** The fields of struct stat and struct dirent at their offsets. *)
Definition st_type_of (d : list Z) : Z := s16 (get16 d 0).
Definition st_ino_of (d : list Z) : Z := get32 d 8.
Definition st_size_of (d : list Z) : Z := get32 d 16.

Fixpoint cut_nul (d : list Z) : list Z :=
  match d with
  | [] => []
  | c :: d' => if c =? 0 then [] else c :: cut_nul d'
  end.

Definition ls_line (path st : list Z) : U W unit :=
  printf 1 "%s %d %d %d
" [AStr (Some (fmtname path)); AInt (st_type_of st); AInt (st_ino_of st); AInt (st_size_of st)].

Definition ls_entry (path : list Z) (fd : Z) (_ : unit) : U W (unit + unit) :=
  r <-- read_ fd 16 ;;
  if negb (fst r =? 16) then uret (inr tt)
  else if get16 (snd r) 0 =? 0 then uret (inl tt)
  else
    let buf := path ++ [47] ++ cut_nul (slice (snd r) 2 DIRSIZ_u) in
    st <-- ustat buf ;;
    (if fst st <? 0 then printf 1 "ls: cannot stat %s
" [AStr (Some buf)] else ls_line buf (snd st)) ;;-
    uret (inl tt).

Definition ls (fuel : nat) (path : list Z) : U W unit :=
  fd <-- open_ path 0 ;;
  if fd <? 0 then printf 2 "ls: cannot open %s
" [AStr (Some path)]
  else
    r <-- call (Sfstat fd) ;;
    if fst r <? 0 then
      printf 2 "ls: cannot stat %s
" [AStr (Some path)] ;;-
      close_ fd ;;- uret tt
    else
      (if st_type_of (snd r) =? 2 then ls_line path (snd r)
       else if st_type_of (snd r) =? 1 then
         if (512 <? length path + 1 + DIRSIZ_u + 1)%nat then printf 1 "ls: path too long
" []
         else uloop fuel (ls_entry path fd) tt
       else uret tt) ;;-
      close_ fd ;;- uret tt.

Definition ls_main (fuel : nat) (argv : list (list Z)) : U W unit :=
  if (length argv <? 2)%nat then ls fuel (str ".") ;;- exit_
  else ueach (drop 1 argv) (ls fuel) ;;- exit_.

(** ** init.c *)

Definition O_RDWR_u : Z := 2.

Definition reap_body (pid : Z) (_ : unit) : U W (unit + unit) :=
  w <-- wait_ ;;
  if (w >=? 0) && negb (w =? pid) then printf 1 "zombie!
" [] ;;- uret (inl tt) else uret (inr tt).

Definition init_body (fuel : nat) (_ : unit) : U W (unit + unit) :=
  printf 1 "init: starting sh
" [] ;;-
  pid <-- fork_ ;;
  if pid <? 0 then printf 1 "init: fork failed
" [] ;;- exit_
  else if pid =? 0 then
    exec_ (str "sh") [str "sh"] ;;-
    printf 1 "init: exec sh failed
" [] ;;- exit_
  else uloop fuel (reap_body pid) tt ;;- uret (inl tt).

Definition init_main (fuel : nat) : U W unit :=
  fd <-- open_ (str "console") O_RDWR_u ;;
  (if fd <? 0 then call_ (Smknod (str "console") 1 1) ;;- open_ (str "console") O_RDWR_u ;;- uret tt else uret tt) ;;-
  dup_ 0 ;;-
  dup_ 0 ;;-
  uloop fuel (init_body fuel) tt.

(** ** zombie.c, sleep-echo.c, uprog_shut.c *)

Definition zombie_main : U W unit :=
  pid <-- fork_ ;;
  (if pid >? 0 then call_ (Ssleep 5) ;;- uret tt else uret tt) ;;-
  exit_.

(** printf with a format that is not a literal. *)
Definition printf_fmt (fd : Z) (fmt : list Z) (args : list arg) : U W unit :=
  match printf_text false fmt args with
  | Some t => ueach t (putc fd)
  | None => ustuck
  end.

Definition sleep_echo_main (argv : list (list Z)) : U W unit :=
  call_ (Ssleep 500) ;;-
  ueach (drop 1 argv) (fun a => printf_fmt 1 a [] ;;- printf 1 " " []) ;;-
  printf 1 "
" [] ;;-
  exit_.

Definition uprog_shut_main : U W unit :=
  printf 1 "BYE~
" [] ;;-
  call_ Suprog_shut ;;-
  exit_.

(** ** stressfs.c *)

(** [for(i = 0; i < 4; i++) if(fork() > 0) break;] *)
Fixpoint stress_fork (left : nat) (i : Z) : U W Z :=
  match left with
  | O => uret i
  | S left' => pid <-- fork_ ;; if pid >? 0 then uret i else stress_fork left' (i + 1)
  end.

Definition stressfs_main : U W unit :=
  let data := replicate 512 97 in
  printf 1 "stressfs starting
" [] ;;-
  i <-- stress_fork 4 0 ;;
  printf 1 "write %d
" [AInt i] ;;-
  let path := str "stressfs" ++ [48 + i] in
  fd <-- open_ path (512 + 2) ;;
  ueach (replicate 20 tt) (fun _ => write_ fd data ;;- uret tt) ;;-
  close_ fd ;;-
  printf 1 "read
" [] ;;-
  fd <-- open_ path 0 ;;
  ueach (replicate 20 tt) (fun _ => read_ fd 512 ;;- uret tt) ;;-
  close_ fd ;;-
  wait_ ;;-
  exit_.

(** ** forktest.c *)

(** Its own printf. *)
Definition ft_printf (fd : Z) (s : list Z) : U W unit := write_ fd s ;;- uret tt.

(** [for(n=0; n<N; n++)]: the number of children. *)
Fixpoint fork_many (left : nat) (n : Z) : U W Z :=
  match left with
  | O => uret n
  | S left' =>
      pid <-- fork_ ;;
      if pid <? 0 then uret n
      else if pid =? 0 then exit_
      else fork_many left' (n + 1)
  end.

(** [for(; n > 0; n--)] *)
Fixpoint wait_many (n : nat) : U W unit :=
  match n with
  | O => uret tt
  | S n' =>
      w <-- wait_ ;;
      if w <? 0 then ft_printf 1 (str "wait stopped early
") ;;- exit_ else wait_many n'
  end.

Definition forktest : U W unit :=
  ft_printf 1 (str "fork test
") ;;-
  n <-- fork_many 1000 0 ;;
  if n =? 1000 then ft_printf 1 (str "fork claimed to work N times!
") ;;- exit_
  else
    wait_many (Z.to_nat n) ;;-
    w <-- wait_ ;;
    if negb (w =? -1) then ft_printf 1 (str "wait got too many
") ;;- exit_
    else ft_printf 1 (str "fork test OK
").
Definition forktest_main : U W unit := forktest ;;- exit_.
End Uprogs.
