(* ===== verification/UprogsSpec.v ===== *)
(** * What cat, wc, echo and ls print *)

From S2P Require Import Prelude.
From S2P Require Import Cstr.
From S2P Require Import User.
From S2P Require Import Printf.
From S2P Require Import Grep.
From S2P Require Import Uprogs.

(** ** Input in pieces *)

Definition pieces_ok (cs : list (list Z)) : Prop := Forall (fun c => c <> []) cs.

(** A read of a pending input takes the first bytes of it. *)
Lemma read_piece fd n cs out : 0 < n -> pieces_ok cs -> cs <> [] -> exists d cs', os_call (Sread fd n) (mkio cs out) = (Some (Z.of_nat (length d), d), mkio cs' out) /\
  d <> [] /\ concat cs = d ++ concat cs' /\ pieces_ok cs'.
Proof.
  intros Hn Hok Hne. destruct cs as [|c cs]; [done|]. inversion Hok as [|? ? Hc Hcs]; subst. exists (take (Z.to_nat n) c). cbn [os_call stdio_os io_in io_out].
  assert (Hd : take (Z.to_nat n) c <> []) by (destruct c; [done|]; destruct (Z.to_nat n) eqn:E; [lia|done]).
  eexists. split; [reflexivity|]. split; [done|]. case_bool_decide as E.
  - split; [|done]. cbn [concat]. rewrite <- (take_drop (Z.to_nat n) c) at 1. by rewrite E, app_nil_r.
  - split; [|constructor; done]. cbn [concat]. rewrite app_assoc. by rewrite take_drop.
Qed.

Lemma puts_io fd t ins out : ueach t (putc fd) (mkio ins out) = UDone tt (mkio ins (out ++ t)).
Proof.
  revert out. induction t as [|c t IH]; intros out; cbn [ueach]; [by rewrite app_nil_r|].
  unfold ubind, putc, write_, call_, call, ubind. cbn [os_call stdio_os]. unfold uret. cbv iota. cbn [io_in io_out]. rewrite IH. by rewrite <- app_assoc.
Qed.

Lemma printf_io fd fmt args text ins out : printf_text false (str fmt) args = Some text -> printf fd fmt args (mkio ins out) = UDone tt (mkio ins (out ++ text)).
Proof. intros E. unfold printf. rewrite E. apply puts_io. Qed.

(** ** cat *)

Lemma cat_loop fuel cs fd out : pieces_ok cs -> (length (concat cs) < fuel)%nat -> uloop fuel (cat_body fd) tt (mkio cs out) = UDone 0 (mkio [] (out ++ concat cs)).
Proof.
  revert cs out. induction fuel as [|fuel IH]; intros cs out Hok Hf; [lia|]. cbn [uloop]. unfold ubind at 1, cat_body. unfold read_, call. destruct (decide (cs = [])) as [->|Hne].
  - unfold ubind. cbn [os_call stdio_os io_in fst]. unfold uret. cbn. by rewrite app_nil_r.
  - destruct (read_piece fd 512 cs out eq_refl Hok Hne) as (d & cs' & E & Hd & Ec & Hok'). unfold ubind at 1. rewrite E. cbn [fst snd].
    assert (Hl : (0 < length d)%nat) by (destruct d; [done|cbn; lia]). rewrite (proj2 (Z.gtb_lt _ _)) by lia. rewrite Nat2Z.id, take_ge by lia.
    unfold ubind, write_, call_, call, ubind. cbn [os_call stdio_os]. unfold uret. cbv iota. cbn [io_in io_out].
    rewrite Ec, length_app in Hf. rewrite IH by (done || lia). by rewrite Ec, app_assoc.
Qed.

(** cat copies its input: whatever pieces the input comes in, cat writes
    exactly its bytes, in order, and ends at the end of the input. *)
Theorem cat_copies fuel fd cs out : pieces_ok cs -> (length (concat cs) < fuel)%nat -> cat fuel fd (mkio cs out) = UDone tt (mkio [] (out ++ concat cs)).
Proof. intros Hok Hf. unfold cat, ubind. by rewrite cat_loop. Qed.

Lemma cat_copies_witness : cat 10 0 (mkio [str "ab"; str "c"] []) = UDone tt (mkio [] ([] ++ str "abc")).
Proof. apply (cat_copies 10 0 [str "ab"; str "c"] []); [repeat constructor; discriminate|cbn; lia]. Defined.

(** ** wc *)

(** The lines and the words of a text: a word starts at a byte that is not
    blank and does not follow one that is not blank. *)
Definition blank (b : Z) : bool := has_char wc_spaces b.
Definition starts (d : list Z) (i : nat) : bool := negb (blank (nth i d 0)) && match i with O => true | S j => blank (nth j d 0) end.
Definition nlines (d : list Z) : Z := Z.of_nat (length (List.filter (Z.eqb 10) d)).
Definition nwords (d : list Z) : Z := Z.of_nat (length (List.filter (starts d) (seq 0 (length d)))).
Definition in_word (d : list Z) : bool := match length d with O => false | S j => negb (blank (nth j d 0)) end.

Lemma starts_app d b i : (i < length d)%nat -> starts (d ++ [b]) i = starts d i.
Proof. intros Hi. unfold starts. rewrite app_nth1 by lia. destruct i as [|j]; [done|]. by rewrite app_nth1 by lia. Qed.

Lemma filter_ext_seq n f g : (forall i, (i < n)%nat -> f i = g i) -> List.filter f (seq 0 n) = List.filter g (seq 0 n).
Proof. intros H. apply List.filter_ext_in. intros i Hi. apply H. apply in_seq in Hi. lia. Qed.

Lemma nwords_snoc d b : nwords (d ++ [b]) = nwords d + (if blank b then 0 else if in_word d then 0 else 1).
Proof.
  unfold nwords. rewrite length_app. cbn [length]. rewrite Nat.add_1_r, seq_S, List.filter_app, length_app.
  rewrite (filter_ext_seq _ _ (starts d)) by (intros i Hi; by apply starts_app). cbn [List.filter plus].
  assert (Es : starts (d ++ [b]) (length d) = negb (blank b) && negb (in_word d)).
  { unfold starts, in_word. rewrite nth_middle. destruct (length d) as [|j] eqn:El; [done|]. rewrite app_nth1 by lia. by rewrite negb_involutive. }
  rewrite Es. destruct (blank b), (in_word d); cbn [negb andb length]; lia.
Qed.

Lemma in_word_snoc d b : in_word (d ++ [b]) = negb (blank b).
Proof. unfold in_word. rewrite length_app. cbn [length]. rewrite Nat.add_1_r, nth_middle. done. Qed.

Lemma nlines_snoc d b : nlines (d ++ [b]) = nlines d + (if b =? 10 then 1 else 0).
Proof. unfold nlines. rewrite List.filter_app, length_app. cbn [List.filter]. rewrite (Z.eqb_sym 10 b). destruct (b =? 10); cbn [length]; lia. Qed.

Lemma wc_fold d : fold_left wc_byte d (mkwc 0 0 0 false) = mkwc (nlines d) (nwords d) (Z.of_nat (length d)) (in_word d).
Proof.
  induction d as [|b d IH] using rev_ind; [done|]. rewrite fold_left_app, IH. cbn [fold_left]. unfold wc_byte. cbn [wc_l wc_w wc_c wc_in]. fold (blank b).
  rewrite nwords_snoc, nlines_snoc, in_word_snoc, length_app. cbn [length].
  replace (Z.of_nat (length d + 1)) with (Z.of_nat (length d) + 1) by lia.
  destruct (blank b) eqn:Eb, (in_word d) eqn:Ei; cbn [negb]; f_equal; destruct (b =? 10); lia.
Qed.

Lemma wc_loop fuel cs fd st out : pieces_ok cs -> (length (concat cs) < fuel)%nat ->
  uloop fuel (wc_body fd) st (mkio cs out) = UDone (0, fold_left wc_byte (concat cs) st) (mkio [] out).
Proof.
  revert cs st. induction fuel as [|fuel IH]; intros cs st Hok Hf; [lia|]. cbn [uloop]. unfold ubind at 1, wc_body. unfold read_, call. destruct (decide (cs = [])) as [->|Hne]; [done|].
  destruct (read_piece fd 512 cs out eq_refl Hok Hne) as (d & cs' & E & Hd & Ec & Hok'). unfold ubind at 1. rewrite E. cbn [fst snd].
  assert (Hl : (0 < length d)%nat) by (destruct d; [done|cbn; lia]). rewrite (proj2 (Z.gtb_lt _ _)) by lia. rewrite Nat2Z.id, take_ge by lia.
  rewrite Ec, length_app in Hf. unfold uret. rewrite IH by (done || lia). by rewrite Ec, fold_left_app.
Qed.

(** wc counts right: whatever pieces the input comes in, wc prints the
    number of its newlines, of its words and of its bytes, and the name; a word
    that lies across two reads is counted once. *)
Theorem wc_correct fuel fd name cs out : pieces_ok cs -> (length (concat cs) < fuel)%nat ->
  let d := concat cs in exists text,
  printf_text false (str "%d %d %d %s
") [AInt (nlines d); AInt (nwords d); AInt (Z.of_nat (length d)); AStr (Some name)] = Some text /\
  wc fuel fd name (mkio cs out) = UDone tt (mkio [] (out ++ text)).
Proof.
  intros Hok Hf d. eexists. split; [reflexivity|]. unfold wc, ubind. rewrite wc_loop by done. cbn [fst snd]. change (0 <? 0) with false. cbv iota.
  rewrite wc_fold. cbn [wc_l wc_w wc_c]. apply printf_io. reflexivity.
Qed.

(** "one two" with the second word in two reads. *)
Lemma wc_correct_witness : exists text, text = str "1 2 8 x
" /\ wc 20 0 (str "x") (mkio [str "one t"; str "wo
"] []) = UDone tt (mkio [] ([] ++ text)).
Proof.
  destruct (wc_correct 20 0 (str "x") [str "one t"; str "wo
"] []) as (text & E & H); [repeat constructor; discriminate|cbn; lia|].
  exists text. split; [|exact H]. vm_compute in E. by injection E as <-.
Defined.

(** ** echo *)

Fixpoint joined (args : list (list Z)) : list Z :=
  match args with
  | [] => []
  | a :: args' => a ++ (match args' with [] => [10] | _ => [32] end) ++ joined args'
  end.

Lemma echo_joins args ins out : echo_args args (mkio ins out) = UDone tt (mkio ins (out ++ joined args)).
Proof.
  revert out. induction args as [|a args IH]; intros out; cbn [echo_args joined]; [by rewrite app_nil_r|]. unfold ubind.
  rewrite (printf_io 1 "%s%s" _ (a ++ match args with [] => [10] | _ => [32] end)); [rewrite IH; by rewrite <- !app_assoc|].
  rewrite <- (app_nil_r (match args with [] => [10] | _ => [32] end)) at 2. reflexivity.
Qed.

(** ** ls *)

(** name_start finds the end of the last slash. *)
Lemma name_start_spec path k : (k <= length path)%nat -> (forall i, (k < i < length path)%nat -> nth i path 0 <> 47) ->
  let j := name_start path k in (j <= S k)%nat /\ (forall i, (j <= i < length path)%nat -> nth i path 0 <> 47) /\ (j = 0%nat \/ nth (j - 1) path 0 = 47).
Proof.
  induction k as [|k IH]; intros Hk Hno; cbn [name_start].
  - destruct (Z.eqb_spec (nth 0 path 0) 47) as [E|E]; (split; [lia|]; split; [|by auto]).
    + intros i Hi. apply Hno. lia.
    + intros i Hi. destruct (decide (i = 0%nat)) as [->|]; [done|]. apply Hno. lia.
  - destruct (Z.eqb_spec (nth (S k) path 0) 47) as [E|E].
    + split; [lia|]. split; [intros i Hi; apply Hno; lia|]. right. by replace (S (S k) - 1)%nat with (S k) by lia.
    + destruct IH as (H1 & H2 & H3); [lia| |split; [lia|done]]. intros i Hi. destruct (decide (i = S k)) as [->|]; [done|]. apply Hno. lia.
Qed.

(** fmtname gives the last element of the path, padded with blanks to the
    width of a directory entry. *)
Lemma fmtname_last path : exists dir name, path = dir ++ name /\ Forall (fun c => c <> 47) name /\ (dir = [] \/ last dir = Some 47) /\
  fmtname path = name ++ replicate (DIRSIZ_u - length name) 32.
Proof.
  destruct (name_start_spec path (length path)) as (H1 & H2 & H3); [lia|intros i Hi; lia|]. set (j := name_start path (length path)) in *.
  exists (take j path), (drop j path). split; [by rewrite take_drop|]. split; [|split].
  - apply Forall_lookup. intros i c E. rewrite lookup_drop in E. assert (Hi : (j + i < length path)%nat) by (apply lookup_lt_is_Some; by eexists).
    specialize (H2 (j + i)%nat ltac:(lia)). by rewrite nth_lookup, E in H2.
  - destruct H3 as [->|H3]; [by left|]. destruct (decide (j = 0%nat)) as [->|Hj]; [by left|]. right. rewrite last_lookup. rewrite length_take.
    assert (Hlt : (j - 1 < length path)%nat).
    { destruct (decide (j - 1 < length path)%nat); [done|]. rewrite nth_overflow in H3 by lia. done. }
    rewrite Nat.min_l by lia. rewrite lookup_take_lt by lia. replace (pred j) with (j - 1)%nat by lia. destruct (lookup_lt_is_Some_2 path (j - 1) Hlt) as [c E]. rewrite E.
    rewrite nth_lookup, E in H3. cbn in H3. by rewrite H3.
  - unfold fmtname. fold j. destruct (DIRSIZ_u <=? length (drop j path))%nat eqn:E; [|done]. apply Nat.leb_le in E. replace (DIRSIZ_u - length (drop j path))%nat with 0%nat by lia.
    by rewrite app_nil_r.
Qed.
