(* ===== verification/Usertests.v ===== *)
(** * The system tests: files and directories (usertests.c)

    Each test is a user program over the system calls.  The tests that use the
    global array [buf] take its contents and return them; a test that fails
    says so and exits. *)

From S2P Require Import Prelude.
From S2P Require Import Params.
From S2P Require Import Cstr.
From S2P Require Import User.
From S2P Require Import Printf.

(** sizeof(buf) *)
Definition BUFSZ : Z := 8192.

(** The bytes [d] stored at the start of [buf]; a char of it; an int at its
    start. *)
Definition into (d buf : list Z) : list Z := d ++ drop (length d) buf.
Definition schar (c : Z) : Z := if c <? 128 then c else c - 256.
Definition buf_int (buf : list Z) : Z := s32 (le_val (take 4 buf)).

(** [for(x = a; x < b; x += k)] *)
Definition steps (a b k : Z) : list Z := List.map (fun i => a + k * Z.of_nat i) (seq 0 (Z.to_nat ((b - a + k - 1) / k))).

Definition nl : string := String (Ascii.ascii_of_nat 10) EmptyString.

Section Usertests.
Context {W : Type} {OS : Os W}.

(** printf(1, "...\n"), and the common ending of a test that fails. *)
Definition say (s : string) (args : list arg) : U W unit := printf 1 (String.append s nl) args.
Definition die {A} (s : string) (args : list arg) : U W A := say s args ;;- exit_.
Definition fail_if (b : bool) (s : string) : U W unit := if b then die s [] else uret tt.

Definition mkdir_ (p : list Z) : U W Z := call_ (Smkdir p).
Definition unlink_ (p : list Z) : U W Z := call_ (Sunlink p).
Definition link_ (old new : list Z) : U W Z := call_ (Slink old new).
Definition kill_ (pid : Z) : U W Z := call_ (Skill pid).
Definition getpid_ : U W Z := call_ Sgetpid.
Definition sleep_ (n : Z) : U W Z := call_ (Ssleep n).

(** read(fd, buf, n): what it returns and [buf] after it. *)
Definition read_buf (fd n : Z) (buf : list Z) : U W (Z * list Z) :=
  r <-- read_ fd n ;; uret (fst r, into (snd r) buf).

(** ** Small tests of the file system *)

Definition iputtest : U W unit :=
  say "iput test" [] ;;-
  r <-- mkdir_ (str "iputdir") ;; fail_if (r <? 0) "mkdir failed" ;;-
  r <-- chdir_ (str "iputdir") ;; fail_if (r <? 0) "chdir iputdir failed" ;;-
  r <-- unlink_ (str "../iputdir") ;; fail_if (r <? 0) "unlink ../iputdir failed" ;;-
  r <-- chdir_ (str "/") ;; fail_if (r <? 0) "chdir / failed" ;;-
  say "iput test ok" [].

Definition exitiputtest : U W unit :=
  say "exitiput test" [] ;;-
  pid <-- fork_ ;;
  fail_if (pid <? 0) "fork failed" ;;-
  (if pid =? 0 then
     r <-- mkdir_ (str "iputdir") ;; fail_if (r <? 0) "mkdir failed" ;;-
     r <-- chdir_ (str "iputdir") ;; fail_if (r <? 0) "child chdir failed" ;;-
     r <-- unlink_ (str "../iputdir") ;; fail_if (r <? 0) "unlink ../iputdir failed" ;;-
     exit_
   else uret tt) ;;-
  wait_ ;;-
  say "exitiput test ok" [].

Definition openiputtest : U W unit :=
  say "openiput test" [] ;;-
  r <-- mkdir_ (str "oidir") ;; fail_if (r <? 0) "mkdir oidir failed" ;;-
  pid <-- fork_ ;;
  fail_if (pid <? 0) "fork failed" ;;-
  (if pid =? 0 then
     fd <-- open_ (str "oidir") O_RDWR ;;
     fail_if (fd >=? 0) "open directory for write succeeded" ;;-
     exit_
   else uret tt) ;;-
  sleep_ 1 ;;-
  r <-- unlink_ (str "oidir") ;; fail_if (negb (r =? 0)) "unlink failed" ;;-
  wait_ ;;-
  say "openiput test ok" [].

Definition opentest : U W unit :=
  say "open test" [] ;;-
  fd <-- open_ (str "echo") 0 ;; fail_if (fd <? 0) "open echo failed!" ;;-
  close_ fd ;;-
  fd <-- open_ (str "doesnotexist") 0 ;; fail_if (fd >=? 0) "open doesnotexist succeeded!" ;;-
  say "open test ok" [].

Definition small_write (fd : Z) (i : nat) : U W unit :=
  r <-- write_ fd (replicate 10 97) ;;
  (if negb (r =? 10) then die "error: write aa %d new file failed" [AInt (Z.of_nat i)] else uret tt) ;;-
  r <-- write_ fd (replicate 10 98) ;;
  if negb (r =? 10) then die "error: write bb %d new file failed" [AInt (Z.of_nat i)] else uret tt.

Definition writetest (buf : list Z) : U W (list Z) :=
  say "small file test" [] ;;-
  fd <-- open_ (str "small") (Z.lor O_CREATE O_RDWR) ;;
  (if fd >=? 0 then say "creat small succeeded; ok" [] else die "error: creat small failed!" []) ;;-
  ueach (seq 0 100) (small_write fd) ;;-
  say "writes ok" [] ;;-
  close_ fd ;;-
  fd <-- open_ (str "small") O_RDONLY ;;
  (if fd >=? 0 then say "open small succeeded ok" [] else die "error: open small failed!" []) ;;-
  r <-- read_buf fd 2000 buf ;;
  (if fst r =? 2000 then say "read succeeded ok" [] else die "read failed" []) ;;-
  close_ fd ;;-
  u <-- unlink_ (str "small") ;; fail_if (u <? 0) "unlink small failed" ;;-
  say "small file test ok" [] ;;-
  uret (snd r).

(** [for(i = 0; i < MAXFILE; i++)] *)
Fixpoint big_write (fd : Z) (ks : list nat) (buf : list Z) : U W (list Z) :=
  match ks with
  | [] => uret buf
  | i :: ks' =>
      let buf := into (le_bytes 4 (Z.of_nat i)) buf in
      r <-- write_ fd (take 512 buf) ;;
      (if negb (r =? 512) then die "error: write big file failed" [AInt (Z.of_nat i)] else uret tt) ;;-
      big_write fd ks' buf
  end.

(** The loop that reads the blocks back. *)
Definition big_read (fd : Z) (st : Z * list Z) : U W (Z * list Z + list Z) :=
  let n := fst st in
  r <-- read_buf fd 512 (snd st) ;;
  if fst r =? 0 then
    (if n =? MAXFILE - 1 then printf 1 "read only %d blocks from big" [AInt n] ;;- exit_ else uret tt) ;;-
    uret (inr (snd r))
  else if negb (fst r =? 512) then die "read failed %d" [AInt (fst r)]
  else if negb (buf_int (snd r) =? n) then die "read content of block %d is %d" [AInt n; AInt (buf_int (snd r))]
  else uret (inl (n + 1, snd r)).

Definition writetest1 (fuel : nat) (buf : list Z) : U W (list Z) :=
  say "big files test" [] ;;-
  fd <-- open_ (str "big") (Z.lor O_CREATE O_RDWR) ;; fail_if (fd <? 0) "error: creat big failed!" ;;-
  buf <-- big_write fd (seq 0 (Z.to_nat MAXFILE)) buf ;;
  close_ fd ;;-
  fd <-- open_ (str "big") O_RDONLY ;; fail_if (fd <? 0) "error: open big failed!" ;;-
  buf <-- uloop fuel (big_read fd) (0, buf) ;;
  close_ fd ;;-
  r <-- unlink_ (str "big") ;; fail_if (r <? 0) "unlink big failed" ;;-
  say "big files ok" [] ;;-
  uret buf.

Definition createtest : U W unit :=
  say "many creates, followed by unlink test" [] ;;-
  ueach (seq 0 52) (fun i => fd <-- open_ [97; 48 + Z.of_nat i] (Z.lor O_CREATE O_RDWR) ;; close_ fd ;;- uret tt) ;;-
  ueach (seq 0 52) (fun i => unlink_ [97; 48 + Z.of_nat i] ;;- uret tt) ;;-
  say "many creates, followed by unlink; ok" [].

Definition dirtest : U W unit :=
  say "mkdir test" [] ;;-
  r <-- mkdir_ (str "dir0") ;; fail_if (r <? 0) "mkdir failed" ;;-
  r <-- chdir_ (str "dir0") ;; fail_if (r <? 0) "chdir dir0 failed" ;;-
  r <-- chdir_ (str "..") ;; fail_if (r <? 0) "chdir .. failed" ;;-
  r <-- unlink_ (str "dir0") ;; fail_if (r <? 0) "unlink dir0 failed" ;;-
  say "mkdir test ok" [].

(** ** Links, directories and paths *)

Definition unlinkread (buf : list Z) : U W (list Z) :=
  say "unlinkread test" [] ;;-
  fd <-- open_ (str "unlinkread") (Z.lor O_CREATE O_RDWR) ;; fail_if (fd <? 0) "create unlinkread failed" ;;-
  write_ fd (str "hello") ;;-
  close_ fd ;;-
  fd <-- open_ (str "unlinkread") O_RDWR ;; fail_if (fd <? 0) "open unlinkread failed" ;;-
  r <-- unlink_ (str "unlinkread") ;; fail_if (negb (r =? 0)) "unlink unlinkread failed" ;;-
  fd1 <-- open_ (str "unlinkread") (Z.lor O_CREATE O_RDWR) ;;
  write_ fd1 (str "yyy") ;;-
  close_ fd1 ;;-
  r <-- read_buf fd BUFSZ buf ;;
  (if negb (fst r =? 5) then printf 1 "unlinkread read failed" [] ;;- exit_ else uret tt) ;;-
  let buf := snd r in
  fail_if (negb (nthZ buf 0 =? 104)) "unlinkread wrong data" ;;-
  n <-- write_ fd (take 10 buf) ;; fail_if (negb (n =? 10)) "unlinkread write failed" ;;-
  close_ fd ;;-
  unlink_ (str "unlinkread") ;;-
  say "unlinkread ok" [] ;;-
  uret buf.

Definition linktest (buf : list Z) : U W (list Z) :=
  say "linktest" [] ;;-
  unlink_ (str "lf1") ;;-
  unlink_ (str "lf2") ;;-
  fd <-- open_ (str "lf1") (Z.lor O_CREATE O_RDWR) ;; fail_if (fd <? 0) "create lf1 failed" ;;-
  n <-- write_ fd (str "hello") ;; fail_if (negb (n =? 5)) "write lf1 failed" ;;-
  close_ fd ;;-
  r <-- link_ (str "lf1") (str "lf2") ;; fail_if (r <? 0) "link lf1 lf2 failed" ;;-
  unlink_ (str "lf1") ;;-
  fd <-- open_ (str "lf1") 0 ;; fail_if (fd >=? 0) "unlinked lf1 but it is still there!" ;;-
  fd <-- open_ (str "lf2") 0 ;; fail_if (fd <? 0) "open lf2 failed" ;;-
  x <-- read_buf fd BUFSZ buf ;; fail_if (negb (fst x =? 5)) "read lf2 failed" ;;-
  close_ fd ;;-
  r <-- link_ (str "lf2") (str "lf2") ;; fail_if (r >=? 0) "link lf2 lf2 succeeded! oops" ;;-
  unlink_ (str "lf2") ;;-
  r <-- link_ (str "lf2") (str "lf1") ;; fail_if (r >=? 0) "link non-existant succeeded! oops" ;;-
  r <-- link_ (str ".") (str "lf1") ;; fail_if (r >=? 0) "link . lf1 succeeded! oops" ;;-
  say "linktest ok" [] ;;-
  uret (snd x).

Definition bd_name (i : nat) : list Z := [120; 48 + Z.of_nat i / 64; 48 + Z.of_nat i mod 64].
Definition bigdir : U W unit :=
  say "bigdir test" [] ;;-
  unlink_ (str "bd") ;;-
  fd <-- open_ (str "bd") O_CREATE ;; fail_if (fd <? 0) "bigdir create failed" ;;-
  close_ fd ;;-
  ueach (seq 0 500) (fun i => r <-- link_ (str "bd") (bd_name i) ;; fail_if (negb (r =? 0)) "bigdir link failed") ;;-
  unlink_ (str "bd") ;;-
  ueach (seq 0 500) (fun i => r <-- unlink_ (bd_name i) ;; if negb (r =? 0) then printf 1 "bigdir unlink failed" [] ;;- exit_ else uret tt) ;;-
  say "bigdir ok" [].

(** The first half of subdir builds dd, dd/dd and their files. *)
Definition subdir_make (buf : list Z) : U W (list Z) :=
  unlink_ (str "ff") ;;-
  r <-- mkdir_ (str "dd") ;; fail_if (negb (r =? 0)) "subdir mkdir dd failed" ;;-
  fd <-- open_ (str "dd/ff") (Z.lor O_CREATE O_RDWR) ;; fail_if (fd <? 0) "create dd/ff failed" ;;-
  write_ fd (str "ff") ;;-
  close_ fd ;;-
  r <-- unlink_ (str "dd") ;; fail_if (r >=? 0) "unlink dd (non-empty dir) succeeded!" ;;-
  r <-- mkdir_ (str "/dd/dd") ;; fail_if (negb (r =? 0)) "subdir mkdir dd/dd failed" ;;-
  fd <-- open_ (str "dd/dd/ff") (Z.lor O_CREATE O_RDWR) ;; fail_if (fd <? 0) "create dd/dd/ff failed" ;;-
  write_ fd (str "FF") ;;-
  close_ fd ;;-
  fd <-- open_ (str "dd/dd/../ff") 0 ;; fail_if (fd <? 0) "open dd/dd/../ff failed" ;;-
  x <-- read_buf fd BUFSZ buf ;;
  fail_if (negb (fst x =? 2) || negb (nthZ (snd x) 0 =? 102)) "dd/dd/../ff wrong content" ;;-
  close_ fd ;;-
  r <-- link_ (str "dd/dd/ff") (str "dd/dd/ffff") ;; fail_if (negb (r =? 0)) "link dd/dd/ff dd/dd/ffff failed" ;;-
  r <-- unlink_ (str "dd/dd/ff") ;; fail_if (negb (r =? 0)) "unlink dd/dd/ff failed" ;;-
  fd <-- open_ (str "dd/dd/ff") O_RDONLY ;; fail_if (fd >=? 0) "open (unlinked) dd/dd/ff succeeded" ;;-
  r <-- chdir_ (str "dd") ;; fail_if (negb (r =? 0)) "chdir dd failed" ;;-
  r <-- chdir_ (str "dd/../../dd") ;; fail_if (negb (r =? 0)) "chdir dd/../../dd failed" ;;-
  r <-- chdir_ (str "dd/../../../dd") ;; fail_if (negb (r =? 0)) "chdir dd/../../dd failed" ;;-
  r <-- chdir_ (str "./..") ;; fail_if (negb (r =? 0)) "chdir ./.. failed" ;;-
  fd <-- open_ (str "dd/dd/ffff") 0 ;; fail_if (fd <? 0) "open dd/dd/ffff failed" ;;-
  x <-- read_buf fd BUFSZ (snd x) ;; fail_if (negb (fst x =? 2)) "read dd/dd/ffff wrong len" ;;-
  close_ fd ;;-
  uret (snd x).

(** The second half: calls that must fail, and the removal. *)
Definition subdir_bad : U W unit :=
  fd <-- open_ (str "dd/dd/ff") O_RDONLY ;; fail_if (fd >=? 0) "open (unlinked) dd/dd/ff succeeded!" ;;-
  fd <-- open_ (str "dd/ff/ff") (Z.lor O_CREATE O_RDWR) ;; fail_if (fd >=? 0) "create dd/ff/ff succeeded!" ;;-
  fd <-- open_ (str "dd/xx/ff") (Z.lor O_CREATE O_RDWR) ;; fail_if (fd >=? 0) "create dd/xx/ff succeeded!" ;;-
  fd <-- open_ (str "dd") O_CREATE ;; fail_if (fd >=? 0) "create dd succeeded!" ;;-
  fd <-- open_ (str "dd") O_RDWR ;; fail_if (fd >=? 0) "open dd rdwr succeeded!" ;;-
  fd <-- open_ (str "dd") O_WRONLY ;; fail_if (fd >=? 0) "open dd wronly succeeded!" ;;-
  r <-- link_ (str "dd/ff/ff") (str "dd/dd/xx") ;; fail_if (r =? 0) "link dd/ff/ff dd/dd/xx succeeded!" ;;-
  r <-- link_ (str "dd/xx/ff") (str "dd/dd/xx") ;; fail_if (r =? 0) "link dd/xx/ff dd/dd/xx succeeded!" ;;-
  r <-- link_ (str "dd/ff") (str "dd/dd/ffff") ;; fail_if (r =? 0) "link dd/ff dd/dd/ffff succeeded!" ;;-
  r <-- mkdir_ (str "dd/ff/ff") ;; fail_if (r =? 0) "mkdir dd/ff/ff succeeded!" ;;-
  r <-- mkdir_ (str "dd/xx/ff") ;; fail_if (r =? 0) "mkdir dd/xx/ff succeeded!" ;;-
  r <-- mkdir_ (str "dd/dd/ffff") ;; fail_if (r =? 0) "mkdir dd/dd/ffff succeeded!" ;;-
  r <-- unlink_ (str "dd/xx/ff") ;; fail_if (r =? 0) "unlink dd/xx/ff succeeded!" ;;-
  r <-- unlink_ (str "dd/ff/ff") ;; fail_if (r =? 0) "unlink dd/ff/ff succeeded!" ;;-
  r <-- chdir_ (str "dd/ff") ;; fail_if (r =? 0) "chdir dd/ff succeeded!" ;;-
  r <-- chdir_ (str "dd/xx") ;; fail_if (r =? 0) "chdir dd/xx succeeded!" ;;-
  r <-- unlink_ (str "dd/dd/ffff") ;; fail_if (negb (r =? 0)) "unlink dd/dd/ff failed" ;;-
  r <-- unlink_ (str "dd/ff") ;; fail_if (negb (r =? 0)) "unlink dd/ff failed" ;;-
  r <-- unlink_ (str "dd") ;; fail_if (r =? 0) "unlink non-empty dd succeeded!" ;;-
  r <-- unlink_ (str "dd/dd") ;; fail_if (r <? 0) "unlink dd/dd failed" ;;-
  r <-- unlink_ (str "dd") ;; fail_if (r <? 0) "unlink dd failed".

Definition subdir (buf : list Z) : U W (list Z) :=
  say "subdir test" [] ;;-
  buf <-- subdir_make buf ;;
  subdir_bad ;;-
  say "subdir ok" [] ;;-
  uret buf.

Definition bigwrite_size (buf : list Z) (sz : Z) : U W unit :=
  fd <-- open_ (str "bigwrite") (Z.lor O_CREATE O_RDWR) ;; fail_if (fd <? 0) "cannot create bigwrite" ;;-
  ueach (seq 0 2) (fun _ =>
    cc <-- write_ fd (take (Z.to_nat sz) buf) ;;
    if negb (cc =? sz) then die "write(%d) ret %d" [AInt sz; AInt cc] else uret tt) ;;-
  close_ fd ;;-
  unlink_ (str "bigwrite") ;;-
  uret tt.
Definition bigwrite (buf : list Z) : U W unit :=
  say "bigwrite test" [] ;;-
  unlink_ (str "bigwrite") ;;-
  ueach (steps 499 (12 * 512) 471) (bigwrite_size buf) ;;-
  say "bigwrite ok" [].

(** [for(i = 0; i < 20; i++)] of bigfile *)
Fixpoint bigfile_write (fd : Z) (ks : list nat) (buf : list Z) : U W (list Z) :=
  match ks with
  | [] => uret buf
  | i :: ks' =>
      let buf := into (replicate 600 (Z.of_nat i)) buf in
      r <-- write_ fd (take 600 buf) ;; fail_if (negb (r =? 600)) "write bigfile failed" ;;-
      bigfile_write fd ks' buf
  end.

(** [for(i = 0; ; i++)], with [i], [total] and [buf]. *)
Definition bigfile_read (fd : Z) (st : Z * Z * list Z) : U W (Z * Z * list Z + Z * list Z) :=
  let '(i, total, buf) := st in
  r <-- read_buf fd 300 buf ;;
  let '(cc, buf) := r in
  fail_if (cc <? 0) "read bigfile failed" ;;-
  if cc =? 0 then uret (inr (total, buf))
  else
    fail_if (negb (cc =? 300)) "short read bigfile" ;;-
    fail_if (negb (schar (nthZ buf 0) =? i / 2) || negb (schar (nthZ buf 299) =? i / 2)) "read bigfile wrong data" ;;-
    uret (inl (i + 1, total + cc, buf)).

Definition bigfile (fuel : nat) (buf : list Z) : U W (list Z) :=
  say "bigfile test" [] ;;-
  unlink_ (str "bigfile") ;;-
  fd <-- open_ (str "bigfile") (Z.lor O_CREATE O_RDWR) ;;
  (if fd <? 0 then printf 1 "cannot create bigfile" [] ;;- exit_ else uret tt) ;;-
  buf <-- bigfile_write fd (seq 0 20) buf ;;
  close_ fd ;;-
  fd <-- open_ (str "bigfile") 0 ;; fail_if (fd <? 0) "cannot open bigfile" ;;-
  r <-- uloop fuel (bigfile_read fd) (0, 0, buf) ;;
  close_ fd ;;-
  fail_if (negb (fst r =? 20 * 600)) "read bigfile wrong total" ;;-
  unlink_ (str "bigfile") ;;-
  say "bigfile test ok" [] ;;-
  uret (snd r).

Definition fourteen : U W unit :=
  say "fourteen test" [] ;;-
  r <-- mkdir_ (str "12345678901234") ;; fail_if (negb (r =? 0)) "mkdir 12345678901234 failed" ;;-
  r <-- mkdir_ (str "12345678901234/123456789012345") ;; fail_if (negb (r =? 0)) "mkdir 12345678901234/123456789012345 failed" ;;-
  fd <-- open_ (str "123456789012345/123456789012345/123456789012345") O_CREATE ;;
  fail_if (fd <? 0) "create 123456789012345/123456789012345/123456789012345 failed" ;;-
  close_ fd ;;-
  fd <-- open_ (str "12345678901234/12345678901234/12345678901234") 0 ;;
  fail_if (fd <? 0) "open 12345678901234/12345678901234/12345678901234 failed" ;;-
  close_ fd ;;-
  r <-- mkdir_ (str "12345678901234/12345678901234") ;; fail_if (r =? 0) "mkdir 12345678901234/12345678901234 succeeded!" ;;-
  r <-- mkdir_ (str "123456789012345/12345678901234") ;; fail_if (r =? 0) "mkdir 12345678901234/123456789012345 succeeded!" ;;-
  say "fourteen ok" [].

Definition rmdot : U W unit :=
  say "rmdot test" [] ;;-
  r <-- mkdir_ (str "dots") ;; fail_if (negb (r =? 0)) "mkdir dots failed" ;;-
  r <-- chdir_ (str "dots") ;; fail_if (negb (r =? 0)) "chdir dots failed" ;;-
  r <-- unlink_ (str ".") ;; fail_if (r =? 0) "rm . worked!" ;;-
  r <-- unlink_ (str "..") ;; fail_if (r =? 0) "rm .. worked!" ;;-
  r <-- chdir_ (str "/") ;; fail_if (negb (r =? 0)) "chdir / failed" ;;-
  r <-- unlink_ (str "dots/.") ;; fail_if (r =? 0) "unlink dots/. worked!" ;;-
  r <-- unlink_ (str "dots/..") ;; fail_if (r =? 0) "unlink dots/.. worked!" ;;-
  r <-- unlink_ (str "dots") ;; fail_if (negb (r =? 0)) "unlink dots failed!" ;;-
  say "rmdot ok" [].

Definition dirfile : U W unit :=
  say "dir vs file" [] ;;-
  fd <-- open_ (str "dirfile") O_CREATE ;; fail_if (fd <? 0) "create dirfile failed" ;;-
  close_ fd ;;-
  r <-- chdir_ (str "dirfile") ;; fail_if (r =? 0) "chdir dirfile succeeded!" ;;-
  fd <-- open_ (str "dirfile/xx") 0 ;; fail_if (fd >=? 0) "create dirfile/xx succeeded!" ;;-
  fd <-- open_ (str "dirfile/xx") O_CREATE ;; fail_if (fd >=? 0) "create dirfile/xx succeeded!" ;;-
  r <-- mkdir_ (str "dirfile/xx") ;; fail_if (r =? 0) "mkdir dirfile/xx succeeded!" ;;-
  r <-- unlink_ (str "dirfile/xx") ;; fail_if (r =? 0) "unlink dirfile/xx succeeded!" ;;-
  r <-- link_ (str "README") (str "dirfile/xx") ;; fail_if (r =? 0) "link to dirfile/xx succeeded!" ;;-
  r <-- unlink_ (str "dirfile") ;; fail_if (negb (r =? 0)) "unlink dirfile failed!" ;;-
  fd <-- open_ (str ".") O_RDWR ;; fail_if (fd >=? 0) "open . for writing succeeded!" ;;-
  fd <-- open_ (str ".") 0 ;;
  n <-- write_ fd (str "x") ;; fail_if (n >? 0) "write . succeeded!" ;;-
  close_ fd ;;-
  say "dir vs file OK" [].

Definition close_open (fd : Z) : U W unit := if fd >=? 0 then close_ fd ;;- uret tt else uret tt.
Definition iref_round (_ : nat) : U W unit :=
  r <-- mkdir_ (str "irefd") ;; fail_if (negb (r =? 0)) "mkdir irefd failed" ;;-
  r <-- chdir_ (str "irefd") ;; fail_if (negb (r =? 0)) "chdir irefd failed" ;;-
  mkdir_ [] ;;-
  link_ (str "README") [] ;;-
  fd <-- open_ [] O_CREATE ;; close_open fd ;;-
  fd <-- open_ (str "xx") O_CREATE ;; close_open fd ;;-
  unlink_ (str "xx") ;;-
  uret tt.
Definition iref : U W unit :=
  say "empty file name" [] ;;-
  ueach (seq 0 (50 + 1)) iref_round ;;-
  chdir_ (str "/") ;;-
  say "empty file name OK" [].
End Usertests.
