(* ===== verification/UtProcs.v ===== *)
(** * The system tests: processes and memory (usertests.c)

    The tests that fork, use pipes, or touch memory they were not given.  A
    computation follows one process: after fork it is the parent or the child.
    What a load or a store through an arbitrary pointer does, and the two system
    calls made with such a pointer, are the class [RawMem].
    [pipe1_verdict] says what the pipe test accepts. *)

From S2P Require Import Prelude.
From S2P Require Import Params.
From S2P Require Import Cstr.
From S2P Require Import Mmu.
From S2P Require Import Umalloc.
From S2P Require Import User.
From S2P Require Import Printf.
From S2P Require Import Grep.
From S2P Require Import Uprogs.
From S2P Require Import UprogsSpec.
From S2P Require Import Usertests.

(** [None]: the process is killed by the fault, or does not return. *)
Class RawMem (W : Type) := {
  raw_load : Z -> W -> option Z * W;
  raw_store : Z -> Z -> W -> option Z * W;
  raw_link : list Z -> Z -> W -> option Z * W;    (* link(old, p) *)
  raw_sleep : Z -> W -> option Z * W              (* sleep with esp = p *)
}.

(** [for(i = 0; i < 8192; i++)] and the like: the chars [seq], [seq + 1], ... *)
Definition chars_from (seq0 : Z) (n : nat) : list Z := List.map (fun i => u8 (seq0 + Z.of_nat i)) (seq 0 n).

(** The bytes of a char array up to its NUL. *)
Fixpoint c_string (l : list Z) : list Z :=
  match l with
  | [] => []
  | c :: l' => if c =? 0 then [] else c :: c_string l'
  end.

Section UtProcs.
Context {W : Type} {OS : Os W} {RM : RawMem W}.

Definition raw (f : W -> option Z * W) : U W Z := fun w =>
  match f w with
  | (Some v, w') => UDone v w'
  | (None, w') => UGone w'
  end.
Definition load_ (a : Z) : U W Z := raw (raw_load a).
Definition store_ (a v : Z) : U W unit := raw (raw_store a v) ;;- uret tt.
(** [for(;;);] *)
Definition spin {A} : U W A := fun w => UGone w.
(** sbrk returns a pointer. *)
Definition sbrk_ (n : Z) : U W Z := r <-- call_ (Ssbrk (s32 n)) ;; uret (u32 r).

Definition echoargv : list (list Z) := [str "echo"; str "ALL"; str "TESTS"; str "PASSED"].
Definition exectest : U W unit :=
  say "exec test" [] ;;-
  r <-- exec_ (str "echo") echoargv ;; fail_if (r <? 0) "exec echo failed".

(** ** Pipes *)

(** pipe(fds): what it returns and the two descriptors. *)
Definition pipe_fds : U W (Z * (Z * Z)) :=
  r <-- pipe_ ;; uret (fst r, (s32 (le_val (take 4 (snd r))), s32 (le_val (take 4 (drop 4 (snd r)))))).

(** The child of pipe1: [seq] and [buf] at the start of a round. *)
Fixpoint pipe1_child (fd : Z) (left : nat) (sq : Z) (buf : list Z) : U W unit :=
  match left with
  | O => uret tt
  | S left' =>
      let buf := into (chars_from sq 1033) buf in
      r <-- write_ fd (take 1033 buf) ;; fail_if (negb (r =? 1033)) "pipe1 oops 1" ;;-
      pipe1_child fd left' (sq + 1033) buf
  end.

(** [for(i = 0; i < n; i++)] of the parent: are the [n] chars the next ones? *)
Definition pipe1_same (sq : Z) (n : Z) (buf : list Z) : bool :=
  forallb (fun i => Z.land (nthZ buf (Z.of_nat i)) 255 =? Z.land (sq + Z.of_nat i) 255) (seq 0 (Z.to_nat n)).

Record pipe1st := mkp1 { p1_seq : Z; p1_cc : Z; p1_total : Z; p1_buf : list Z }.
(** One turn of the parent's loop; [inr]: after the loop, and whether it left
    by return. *)
Definition pipe1_read (fd : Z) (st : pipe1st) : U W (pipe1st + bool * pipe1st) :=
  r <-- read_buf fd (p1_cc st) (p1_buf st) ;;
  let n := fst r in
  if n >? 0 then
    if pipe1_same (p1_seq st) n (snd r) then
      let cc := p1_cc st * 2 in
      uret (inl (mkp1 (p1_seq st + n) (if cc >? BUFSZ then BUFSZ else cc) (p1_total st + n) (snd r)))
    else say "pipe1 oops 2" [] ;;- uret (inr (true, mkp1 (p1_seq st) (p1_cc st) (p1_total st) (snd r)))
  else uret (inr (false, mkp1 (p1_seq st) (p1_cc st) (p1_total st) (snd r))).

Definition pipe1_parent (fuel : nat) (fd0 : Z) (buf : list Z) : U W (list Z) :=
  r <-- uloop fuel (pipe1_read fd0) (mkp1 0 1 0 buf) ;;
  let st := snd r in
  if fst r : bool then uret (p1_buf st)
  else
    (if negb (p1_total st =? 5 * 1033) then die "pipe1 oops 3 total %d" [AInt (p1_total st)] else uret tt) ;;-
    close_ fd0 ;;-
    wait_ ;;-
    say "pipe1 ok" [] ;;-
    uret (p1_buf st).

Definition pipe1 (fuel : nat) (buf : list Z) : U W (list Z) :=
  p <-- pipe_fds ;; fail_if (negb (fst p =? 0)) "pipe() failed" ;;-
  pid <-- fork_ ;;
  if pid =? 0 then
    close_ (fst (snd p)) ;;-
    pipe1_child (snd (snd p)) 5 0 buf ;;-
    exit_
  else if pid >? 0 then
    close_ (snd (snd p)) ;;-
    pipe1_parent fuel (fst (snd p)) buf
  else die "fork() failed" [].

Definition preempt (buf : list Z) : U W (list Z) :=
  printf 1 "preempt: " [] ;;-
  pid1 <-- fork_ ;;
  (if pid1 =? 0 then spin else uret tt) ;;-
  pid2 <-- fork_ ;;
  (if pid2 =? 0 then spin else uret tt) ;;-
  p <-- pipe_fds ;;
  let pfds := snd p in
  pid3 <-- fork_ ;;
  (if pid3 =? 0 then
     close_ (fst pfds) ;;-
     r <-- write_ (snd pfds) (str "x") ;;
     (if negb (r =? 1) then printf 1 "preempt write error" [] else uret tt) ;;-
     close_ (snd pfds) ;;-
     spin
   else uret tt) ;;-
  close_ (snd pfds) ;;-
  r <-- read_buf (fst pfds) BUFSZ buf ;;
  if negb (fst r =? 1) then printf 1 "preempt read error" [] ;;- uret (snd r)
  else
    close_ (fst pfds) ;;-
    printf 1 "kill... " [] ;;-
    kill_ pid1 ;;- kill_ pid2 ;;- kill_ pid3 ;;-
    printf 1 "wait... " [] ;;-
    wait_ ;;- wait_ ;;- wait_ ;;-
    say "preempt ok" [] ;;-
    uret (snd r).

(** [for(i = 0; i < 100; i++)]; a return ends the test. *)
Fixpoint exitwait_loop (left : nat) : U W unit :=
  match left with
  | O => say "exitwait ok" []
  | S left' =>
      pid <-- fork_ ;;
      if pid <? 0 then say "fork failed" []
      else if negb (pid =? 0) then
        w <-- wait_ ;;
        if negb (w =? pid) then say "wait wrong pid" [] else exitwait_loop left'
      else exit_
  end.
Definition exitwait : U W unit := exitwait_loop 100.

(** ** mem: allocate all memory, free it, allocate again *)

Fixpoint mem_fill (base : Z) (turns fuel : nat) (m1 : Z) : M uheap Z :=
  match turns with
  | O => panic "out of fuel"
  | S n =>
      m2 <- malloc base fuel 10001 ;;
      if m2 =? 0 then ret m1 else set_ptr m2 m1 ;;; mem_fill base n fuel m2
  end.
Fixpoint mem_drain (turns fuel : nat) (m1 : Z) : M uheap unit :=
  match turns with
  | O => panic "out of fuel"
  | S n => if m1 =? 0 then ret tt else m2 <- get_ptr m1 ;; free fuel m1 ;;; mem_drain n fuel m2
  end.
Definition mem_child (base : Z) (turns fuel : nat) : M uheap bool :=
  m1 <- mem_fill base turns fuel 0 ;;
  mem_drain turns fuel m1 ;;;
  m1 <- malloc base fuel (1024 * 20) ;;
  if m1 =? 0 then ret false else free fuel m1 ;;; ret true.

Definition memtest (base : Z) (turns fuel : nat) (heap : uheap) : U W unit :=
  say "mem test" [] ;;-
  ppid <-- getpid_ ;;
  pid <-- fork_ ;;
  if pid =? 0 then
    match mem_child base turns fuel heap with
    | Done true _ => say "mem ok" [] ;;- exit_
    | Done false _ => say "couldn't allocate mem?!!" [] ;;- kill_ ppid ;;- exit_
    | _ => ustuck
    end
  else wait_ ;;- uret tt.

(** ** Files shared by processes *)

(** [for(i = 0; i < 1000; i++)] with its break *)
Fixpoint sharedfd_write (fd : Z) (left : nat) (buf : list Z) : U W unit :=
  match left with
  | O => uret tt
  | S left' =>
      r <-- write_ fd buf ;;
      if negb (r =? 10) then say "fstests: write sharedfd failed" [] else sharedfd_write fd left' buf
  end.

Definition count_char (c : Z) (l : list Z) : Z := Z.of_nat (length (List.filter (Z.eqb c) l)).
(** The reading loop, with [nc], [np] and the local array. *)
Definition sharedfd_read (fd : Z) (st : Z * Z * list Z) : U W (Z * Z * list Z + Z * Z) :=
  let '(nc, np, buf) := st in
  r <-- read_buf fd 10 buf ;;
  if fst r >? 0 then uret (inl (nc + count_char 99 (snd r), np + count_char 112 (snd r), snd r)) else uret (inr (nc, np)).

Definition sharedfd (fuel : nat) : U W unit :=
  say "sharedfd test" [] ;;-
  unlink_ (str "sharedfd") ;;-
  fd <-- open_ (str "sharedfd") (Z.lor O_CREATE O_RDWR) ;;
  if fd <? 0 then printf 1 "fstests: cannot open sharedfd for writing" []
  else
    pid <-- fork_ ;;
    let buf := replicate 10 (if pid =? 0 then 99 else 112) in
    sharedfd_write fd 1000 buf ;;-
    (if pid =? 0 then exit_ else wait_ ;;- uret tt) ;;-
    close_ fd ;;-
    fd <-- open_ (str "sharedfd") 0 ;;
    if fd <? 0 then say "fstests: cannot open sharedfd for reading" []
    else
      r <-- uloop fuel (sharedfd_read fd) (0, 0, buf) ;;
      close_ fd ;;-
      unlink_ (str "sharedfd") ;;-
      if (fst r =? 10000) && (snd r =? 10000) then say "sharedfd ok" []
      else die "sharedfd oops %d %d" [AInt (fst r); AInt (snd r)].

Definition four_child (pi : nat) (buf : list Z) : U W unit :=
  fd <-- open_ [102; 48 + Z.of_nat pi] (Z.lor O_CREATE O_RDWR) ;; fail_if (fd <? 0) "create failed" ;;-
  let buf := into (replicate 512 (48 + Z.of_nat pi)) buf in
  ueach (seq 0 12) (fun _ => n <-- write_ fd (take 500 buf) ;; if negb (n =? 500) then die "write failed %d" [AInt n] else uret tt) ;;-
  exit_.

(** The reading loop, with [total] and [buf]. *)
Definition four_read (fd : Z) (i : nat) (st : Z * list Z) : U W (Z * list Z + Z * list Z) :=
  r <-- read_buf fd BUFSZ (snd st) ;;
  if fst r >? 0 then
    fail_if (negb (forallb (fun c => schar c =? 48 + Z.of_nat i) (take (Z.to_nat (fst r)) (snd r)))) "wrong char" ;;-
    uret (inl (fst st + fst r, snd r))
  else uret (inr (fst st, snd r)).

(** [for(i = 0; i < 2; i++)] *)
Fixpoint four_check (fuel : nat) (ks : list nat) (buf : list Z) : U W (list Z) :=
  match ks with
  | [] => uret buf
  | i :: ks' =>
      let fname := [102; 48 + Z.of_nat i] in
      fd <-- open_ fname 0 ;;
      r <-- uloop fuel (four_read fd i) (0, buf) ;;
      close_ fd ;;-
      (if negb (fst r =? 12 * 500) then die "wrong length %d" [AInt (fst r)] else uret tt) ;;-
      unlink_ fname ;;-
      four_check fuel ks' (snd r)
  end.

Definition fourfiles (fuel : nat) (buf : list Z) : U W (list Z) :=
  say "fourfiles test" [] ;;-
  ueach (seq 0 4) (fun pi =>
    unlink_ [102; 48 + Z.of_nat pi] ;;-
    pid <-- fork_ ;; fail_if (pid <? 0) "fork failed" ;;-
    if pid =? 0 then four_child pi buf else uret tt) ;;-
  ueach (seq 0 4) (fun _ => wait_ ;;- uret tt) ;;-
  buf <-- four_check fuel (seq 0 2) buf ;;
  say "fourfiles ok" [] ;;-
  uret buf.

Definition cd_name (pi i : nat) : list Z := [112 + Z.of_nat pi; 48 + Z.of_nat i].
Definition cd_child (pi : nat) : U W unit :=
  ueach (seq 0 20) (fun i =>
    fd <-- open_ (cd_name pi i) (Z.lor O_CREATE O_RDWR) ;; fail_if (fd <? 0) "create failed" ;;-
    close_ fd ;;-
    if (0 <? i)%nat && (i mod 2 =? 0)%nat then r <-- unlink_ (cd_name pi (i / 2)) ;; fail_if (r <? 0) "unlink failed" else uret tt) ;;-
  exit_.
Definition cd_check (i pi : nat) : U W unit :=
  fd <-- open_ (cd_name pi i) 0 ;;
  (if ((i =? 0)%nat || (10 <=? i)%nat) && (fd <? 0) then die "oops createdelete %s didn't exist" [AStr (Some (cd_name pi i))]
   else if ((1 <=? i)%nat && (i <? 10)%nat) && (fd >=? 0) then die "oops createdelete %s did exist" [AStr (Some (cd_name pi i))]
   else uret tt) ;;-
  if fd >=? 0 then close_ fd ;;- uret tt else uret tt.

Definition createdelete : U W unit :=
  say "createdelete test" [] ;;-
  ueach (seq 0 4) (fun pi =>
    pid <-- fork_ ;; fail_if (pid <? 0) "fork failed" ;;-
    if pid =? 0 then cd_child pi else uret tt) ;;-
  ueach (seq 0 4) (fun _ => wait_ ;;- uret tt) ;;-
  ueach (seq 0 20) (fun i => ueach (seq 0 4) (cd_check i)) ;;-
  ueach (seq 0 20) (fun i => ueach (seq 0 4) (fun _ => unlink_ (cd_name i i) ;;- uret tt)) ;;-
  say "createdelete ok" [].

Definition c_name (i : nat) : list Z := [67; 48 + Z.of_nat i].
Definition wait_or_exit (pid : Z) : U W unit := if pid =? 0 then exit_ else wait_ ;;- uret tt.
Definition concreate_make (i : nat) : U W unit :=
  unlink_ (c_name i) ;;-
  pid <-- fork_ ;;
  (if negb (pid =? 0) && (i mod 3 =? 1)%nat then link_ (str "C0") (c_name i) ;;- uret tt
   else if (pid =? 0) && (i mod 5 =? 1)%nat then link_ (str "C0") (c_name i) ;;- uret tt
   else
     fd <-- open_ (c_name i) (Z.lor O_CREATE O_RDWR) ;;
     (if fd <? 0 then die "concreate create %s failed" [AStr (Some (c_name i))] else uret tt) ;;-
     close_ fd ;;- uret tt) ;;-
  wait_or_exit pid.

(** The loop over the entries of ".", with [n], [fa] and [de]. *)
Definition concreate_entry (fd : Z) (st : Z * list bool * list Z) : U W (Z * list bool * list Z + Z) :=
  let '(n, fa, de) := st in
  r <-- read_buf fd 16 de ;;
  let de := snd r in
  let name := drop 2 de in
  if negb (fst r >? 0) then uret (inr n)
  else if le_val (take 2 de) =? 0 then uret (inl (n, fa, de))
  else if (nthZ name 0 =? 67) && (nthZ name 2 =? 0) then
    let i := schar (nthZ name 1) - 48 in
    if (i <? 0) || (i >=? 40) then die "concreate weird file %s" [AStr (Some (c_string name))]
    else if nth (Z.to_nat i) fa false then die "concreate duplicate file %s" [AStr (Some (c_string name))]
    else uret (inl (n + 1, <[Z.to_nat i := true]> fa, de))
  else uret (inl (n, fa, de)).

Definition four_times (m : U W unit) : U W unit := m ;;- m ;;- m ;;- m.
Definition concreate_race (i : nat) : U W unit :=
  pid <-- fork_ ;; fail_if (pid <? 0) "fork failed" ;;-
  (if ((i mod 3 =? 0)%nat && (pid =? 0)) || ((i mod 3 =? 1)%nat && negb (pid =? 0))
   then four_times (fd <-- open_ (c_name i) 0 ;; close_ fd ;;- uret tt)
   else four_times (unlink_ (c_name i) ;;- uret tt)) ;;-
  wait_or_exit pid.

(** [de0]: what is in the local [de] before the first read. *)
Definition concreate (fuel : nat) (de0 : list Z) : U W unit :=
  say "concreate test" [] ;;-
  ueach (seq 0 40) concreate_make ;;-
  fd <-- open_ (str ".") 0 ;;
  n <-- uloop fuel (concreate_entry fd) (0, replicate 40 false, de0) ;;
  close_ fd ;;-
  fail_if (negb (n =? 40)) "concreate not enough files in directory listing" ;;-
  ueach (seq 0 40) concreate_race ;;-
  say "concreate ok" [].

(** [for(i = 0; i < 100; i++)] of linkunlink, with [x]. *)
Fixpoint linkunlink_loop (left : nat) (x : Z) : U W unit :=
  match left with
  | O => uret tt
  | S left' =>
      let x := u32 (x * 1103515245 + 12345) in
      (if x mod 3 =? 0 then fd <-- open_ (str "x") (Z.lor O_RDWR O_CREATE) ;; close_ fd
       else if x mod 3 =? 1 then link_ (str "cat") (str "x")
       else unlink_ (str "x")) ;;-
      linkunlink_loop left' x
  end.
Definition linkunlink : U W unit :=
  say "linkunlink test" [] ;;-
  unlink_ (str "x") ;;-
  pid <-- fork_ ;; fail_if (pid <? 0) "fork failed" ;;-
  linkunlink_loop 100 (if pid =? 0 then 97 else 1) ;;-
  wait_or_exit pid ;;-
  say "linkunlink ok" [].

(** ** fork and memory *)

(** [for(n=0; n<1000; n++)]: the number of children. *)
Fixpoint ut_forks (left : nat) (n : Z) : U W Z :=
  match left with
  | O => uret n
  | S left' => pid <-- fork_ ;; if pid <? 0 then uret n else if pid =? 0 then exit_ else ut_forks left' (n + 1)
  end.
Definition ut_forktest : U W unit :=
  say "fork test" [] ;;-
  n <-- ut_forks 1000 0 ;;
  fail_if (n =? 1000) "fork claimed to work 1000 times!" ;;-
  ueach (seq 0 (Z.to_nat n)) (fun _ => w <-- wait_ ;; fail_if (w <? 0) "wait stopped early") ;;-
  w <-- wait_ ;; fail_if (negb (w =? -1)) "wait got too many" ;;-
  say "fork test OK" [].

Definition BIG : Z := 100 * 1024 * 1024.
Definition NOMEM : Z := 4294967295.

(** Less than a page at a time: the break after it. *)
Fixpoint sbrk_bytes (ks : list nat) (a : Z) : U W Z :=
  match ks with
  | [] => uret a
  | i :: ks' =>
      b <-- sbrk_ 1 ;;
      (if negb (b =? a) then die "sbrk test failed %d %x %x" [AInt (Z.of_nat i); AInt a; AInt b] else uret tt) ;;-
      store_ b 1 ;;-
      sbrk_bytes ks' (u32 (b + 1))
  end.

(** Growing to something big, giving a page back and taking it again. *)
Definition sbrk_big : U W unit :=
  a <-- sbrk_ 0 ;;
  p <-- sbrk_ (BIG - a) ;;
  fail_if (negb (p =? a)) "sbrk test failed to grow big address space; enough phys mem?" ;;-
  store_ (BIG - 1) 99 ;;-
  a <-- sbrk_ 0 ;;
  c <-- sbrk_ (-4096) ;; fail_if (c =? NOMEM) "sbrk could not deallocate" ;;-
  c <-- sbrk_ 0 ;;
  (if negb (c =? u32 (a - 4096)) then die "sbrk deallocation produced wrong address, a %x c %x" [AInt a; AInt c] else uret tt) ;;-
  a <-- sbrk_ 0 ;;
  c <-- sbrk_ 4096 ;;
  bad <-- (if negb (c =? a) then uret true else d <-- sbrk_ 0 ;; uret (negb (d =? u32 (a + 4096)))) ;;
  (if bad : bool then die "sbrk re-allocation failed, a %x c %x" [AInt a; AInt c] else uret tt) ;;-
  v <-- load_ (BIG - 1) ;; fail_if (schar v =? 99) "sbrk de-allocation didn't really deallocate".

(** Can we read the kernel's memory? *)
Definition sbrk_kernel (a : Z) : U W unit :=
  ppid <-- getpid_ ;;
  pid <-- fork_ ;; fail_if (pid <? 0) "fork failed" ;;-
  (if pid =? 0 then
     v <-- load_ a ;;
     say "oops could read %x = %x" [AInt a; AInt (schar v)] ;;-
     kill_ ppid ;;-
     exit_
   else uret tt) ;;-
  wait_ ;;- uret tt.

(** Ten children that take as much as they can: their pids. *)
Fixpoint sbrk_hogs (fuel left : nat) (fds : Z * Z) : U W (list Z) :=
  match left with
  | O => uret []
  | S left' =>
      pid <-- fork_ ;;
      (if pid =? 0 then
         b <-- sbrk_ 0 ;;
         sbrk_ (BIG - b) ;;-
         write_ (snd fds) (str "x") ;;-
         uloop fuel (fun _ : unit => sleep_ 1000 ;;- uret (inl tt : unit + unit)) tt
       else uret tt) ;;-
      (if negb (pid =? -1) then read_ (fst fds) 1 ;;- uret tt else uret tt) ;;-
      ps <-- sbrk_hogs fuel left' fds ;;
      uret (pid :: ps)
  end.

Definition sbrktest (fuel : nat) : U W unit :=
  say "sbrk test" [] ;;-
  oldbrk <-- sbrk_ 0 ;;
  a <-- sbrk_ 0 ;;
  a <-- sbrk_bytes (seq 0 5000) a ;;
  pid <-- fork_ ;; fail_if (pid <? 0) "sbrk test fork failed" ;;-
  sbrk_ 1 ;;-
  c <-- sbrk_ 1 ;; fail_if (negb (c =? u32 (a + 1))) "sbrk test failed post-fork" ;;-
  (if pid =? 0 then exit_ else uret tt) ;;-
  wait_ ;;-
  sbrk_big ;;-
  a <-- sbrk_ 0 ;;
  b <-- sbrk_ 0 ;;
  c <-- sbrk_ (- (b - oldbrk)) ;;
  (if negb (c =? a) then die "sbrk downsize failed, a %x c %x" [AInt a; AInt c] else uret tt) ;;-
  ueach (steps KERNBASE (KERNBASE + 2000000) 50000) sbrk_kernel ;;-
  p <-- pipe_fds ;; fail_if (negb (fst p =? 0)) "pipe() failed" ;;-
  pids <-- sbrk_hogs fuel 10 (snd p) ;;
  c <-- sbrk_ 4096 ;;
  ueach pids (fun q => if q =? -1 then uret tt else kill_ q ;;- wait_ ;;- uret tt) ;;-
  fail_if (c =? NOMEM) "failed sbrk leaked memory" ;;-
  b <-- sbrk_ 0 ;;
  (if b >? oldbrk then b <-- sbrk_ 0 ;; sbrk_ (- (b - oldbrk)) ;;- uret tt else uret tt) ;;-
  say "sbrk test OK" [].

(** A system call whose stack pointer is [p]. *)
Definition validateint (p : Z) : U W Z := raw (raw_sleep p).
Definition validate_at (p : Z) : U W unit :=
  pid <-- fork_ ;;
  (if pid =? 0 then validateint p ;;- exit_ else uret tt) ;;-
  sleep_ 0 ;;-
  sleep_ 0 ;;-
  kill_ pid ;;-
  wait_ ;;-
  r <-- raw (raw_link (str "nosuchfile") p) ;; fail_if (negb (r =? -1)) "link should not succeed".
Definition validatetest : U W unit :=
  say "validate test" [] ;;-
  ueach (steps 0 (1100 * 1024 + 1) 4096) validate_at ;;-
  say "validate ok" [].

(** [uninit]: the contents of that array. *)
Definition bsstest (uninit : list Z) : U W unit :=
  say "bss test" [] ;;-
  ueach (seq 0 10000) (fun i => fail_if (negb (nth i uninit 0 =? 0)) "bss test failed") ;;-
  say "bss test ok" [].

Definition bigarg : list Z := str "bigargs test: failed" ++ [10] ++ replicate 199 32.
Definition bigargtest : U W unit :=
  unlink_ (str "bigarg-ok") ;;-
  pid <-- fork_ ;;
  (if pid =? 0 then
     say "bigarg test" [] ;;-
     exec_ (str "echo") (replicate (MAXARG - 1) bigarg) ;;-
     say "bigarg test ok" [] ;;-
     fd <-- open_ (str "bigarg-ok") O_CREATE ;;
     close_ fd ;;-
     exit_
   else fail_if (pid <? 0) "bigargtest: fork failed") ;;-
  wait_ ;;-
  fd <-- open_ (str "bigarg-ok") 0 ;; fail_if (fd <? 0) "bigarg test failed!" ;;-
  close_ fd ;;-
  unlink_ (str "bigarg-ok") ;;-
  uret tt.

(** ** fsfull, which main does not call *)

Definition ff_name (n : Z) : list Z := [102; 48 + n / 1000; 48 + n mod 1000 / 100; 48 + n mod 100 / 10; 48 + n mod 10].
(** [while(1)], with [total]. *)
Definition ff_fill (fd : Z) (buf : list Z) (total : Z) : U W (Z + Z) :=
  cc <-- write_ fd (take 512 buf) ;;
  if cc <? 512 then uret (inr total) else uret (inl (total + cc)).
(** [for(nfiles = 0; ; nfiles++)] *)
Definition ff_file (fuel : nat) (buf : list Z) (nfiles : Z) : U W (Z + Z) :=
  say "writing %s" [AStr (Some (ff_name nfiles))] ;;-
  fd <-- open_ (ff_name nfiles) (Z.lor O_CREATE O_RDWR) ;;
  if fd <? 0 then say "open %s failed" [AStr (Some (ff_name nfiles))] ;;- uret (inr nfiles)
  else
    total <-- uloop fuel (ff_fill fd buf) 0 ;;
    say "wrote %d bytes" [AInt total] ;;-
    close_ fd ;;-
    if total =? 0 then uret (inr nfiles) else uret (inl (nfiles + 1)).
Definition fsfull (fuel : nat) (buf : list Z) : U W unit :=
  say "fsfull test" [] ;;-
  nfiles <-- uloop fuel (ff_file fuel buf) 0 ;;
  ueach (rev (seq 0 (Z.to_nat (nfiles + 1)))) (fun k => unlink_ (ff_name (Z.of_nat k)) ;;- uret tt) ;;-
  say "fsfull test finished" [].

(** rand() with its state: the new state, which it returns. *)
Definition rand (randstate : Z) : Z := u32 (randstate * 1664525 + 1013904223).

(** main; [buf] starts out zero.  [heap], [uninit] and [de0] are the process's
    heap, the array of that name and the stack slot of concreate. *)
Definition usertests_main (fuel : nat) (base : Z) (heap : uheap) (uninit de0 : list Z) : U W unit :=
  let buf := replicate (Z.to_nat BUFSZ) 0 in
  say "usertests starting" [] ;;-
  fd <-- open_ (str "usertests.ran") 0 ;;
  fail_if (fd >=? 0) "already ran user tests -- rebuild fs.img" ;;-
  fd <-- open_ (str "usertests.ran") O_CREATE ;;
  close_ fd ;;-
  createdelete ;;- linkunlink ;;- concreate fuel de0 ;;-
  buf <-- fourfiles fuel buf ;;
  sharedfd fuel ;;-
  bigargtest ;;- bigwrite buf ;;- bigargtest ;;- bsstest uninit ;;- sbrktest fuel ;;- validatetest ;;-
  opentest ;;-
  buf <-- writetest buf ;;
  buf <-- writetest1 fuel buf ;;
  createtest ;;-
  openiputtest ;;- exitiputtest ;;- iputtest ;;-
  memtest base fuel fuel heap ;;-
  buf <-- pipe1 fuel buf ;;
  buf <-- preempt buf ;;
  exitwait ;;-
  rmdot ;;- fourteen ;;-
  buf <-- bigfile fuel buf ;;
  buf <-- subdir buf ;;
  buf <-- linktest buf ;;
  buf <-- unlinkread buf ;;
  dirfile ;;- iref ;;- ut_forktest ;;- bigdir ;;- exectest ;;-
  exit_.
End UtProcs.

(** ** The chars of pipe1 *)

Lemma chars_app k a b : chars_from k (a + b) = chars_from k a ++ chars_from (k + Z.of_nat a) b.
Proof.
  unfold chars_from. rewrite seq_app, List.map_app. f_equal. cbn [plus]. apply (list_eq_same_length _ _ b).
  - by rewrite length_map, length_seq.
  - by rewrite length_map, length_seq.
  - intros i x y Hi. rewrite !list_lookup_fmap. intros (i1 & E1 & ->)%fmap_Some (i2 & E2 & ->)%fmap_Some.
    apply lookup_seq in E1 as [-> _], E2 as [-> _]. f_equal. lia.
Qed.

Lemma length_chars k n : length (chars_from k n) = n.
Proof. unfold chars_from. by rewrite length_map, length_seq. Qed.

Lemma nth_chars k n i : (i < n)%nat -> nth i (chars_from k n) 0 = u8 (k + Z.of_nat i).
Proof.
  intros Hi. apply nth_lookup_Some. unfold chars_from. rewrite list_lookup_fmap. rewrite lookup_seq_lt by done. done.
Qed.

Definition follows (k : Z) (d : list Z) : bool := bool_decide (d = chars_from k (length d)).

Lemma follows_app k d e : follows k (d ++ e) = follows k d && follows (k + Z.of_nat (length d)) e.
Proof.
  unfold follows. rewrite length_app, chars_app. case_bool_decide as E.
  - apply app_inj_1 in E as [E1 E2]; [|by rewrite length_chars]. by rewrite !bool_decide_true.
  - case_bool_decide as E1; [|done]. case_bool_decide as E2; [|done]. exfalso. apply E. by rewrite <- E1, <- E2.
Qed.

Lemma land255 x : Z.land x 255 = u8 x.
Proof. change 255 with (Z.ones 8). rewrite Z.land_ones by lia. done. Qed.

Lemma same_follows k d buf : Forall byte_ok d -> pipe1_same k (Z.of_nat (length d)) (into d buf) = follows k d.
Proof.
  intros Hd. unfold pipe1_same, follows. rewrite Nat2Z.id. apply eq_true_iff_eq. rewrite forallb_forall, bool_decide_eq_true. 
  assert (Hn : forall i, (i < length d)%nat -> nthZ (into d buf) (Z.of_nat i) = nth i d 0) by (intros i Hi; unfold nthZ, into; rewrite Nat2Z.id; by rewrite app_nth1).
  split.
  - intros H. apply (nth_ext _ _ 0 0); [by rewrite length_chars|]. intros i Hi. specialize (H i ltac:(apply in_seq; lia)). rewrite Hn in H by done.
    apply Z.eqb_eq in H. rewrite !land255 in H. rewrite nth_chars by done. rewrite <- H. rewrite Forall_forall in Hd.
    specialize (Hd (nth i d 0) ltac:(apply list_elem_of_In, nth_In; done)). unfold byte_ok, u8 in *. by rewrite Z.mod_small.
  - intros E i Hi%in_seq. rewrite Hn by lia. rewrite E at 1. rewrite nth_chars by lia. rewrite !land255. unfold u8. rewrite Z.mod_mod by lia. apply Z.eqb_refl.
Qed.

(** ** The parent *)

Definition line (s : string) : list Z := str s ++ [10].

Lemma say_io s args text ins out : printf_text false (str (String.append s nl)) args = Some text -> say s args (mkio ins out) = UDone tt (mkio ins (out ++ text)).
Proof. apply printf_io. Qed.

Lemma read_buf_end fd n buf out : read_buf fd n buf (mkio [] out) = UDone (0, buf) (mkio [] out).
Proof. reflexivity. Qed.

Lemma read_buf_piece fd n buf cs out : 0 < n -> pieces_ok cs -> cs <> [] -> exists d cs', read_buf fd n buf (mkio cs out) = UDone (Z.of_nat (length d), into d buf) (mkio cs' out) /\
  d <> [] /\ concat cs = d ++ concat cs' /\ pieces_ok cs'.
Proof.
  intros Hn Hok Hne. destruct (read_piece fd n cs out Hn Hok Hne) as (d & cs' & E & Hd & Ec & Hok'). exists d, cs'. split_and!; try done.
  unfold read_buf, read_, call, ubind. rewrite E. done.
Qed.

Lemma pipe1_loop fuel fd cs k cc buf out : pieces_ok cs -> Forall byte_ok (concat cs) -> (length (concat cs) < fuel)%nat -> 1 <= cc ->
  exists st cs', uloop fuel (pipe1_read fd) (mkp1 k cc k buf) (mkio cs out) =
    (if follows k (concat cs) then UDone (false, st) (mkio [] out) else UDone (true, st) (mkio cs' (out ++ line "pipe1 oops 2"))) /\
    (follows k (concat cs) = true -> p1_total st = k + Z.of_nat (length (concat cs))).
Proof.
  revert cs k cc buf. induction fuel as [|fuel IH]; intros cs k cc buf Hok Hb Hf Hcc; [lia|]. cbn [uloop]. unfold pipe1_read at 1. cbn [p1_seq p1_cc p1_total p1_buf].
  destruct (decide (cs = [])) as [->|Hne].
  - eexists _, []. rewrite ubind_assoc. erewrite ubind_done by apply read_buf_end. cbn [fst snd concat length]. split; [reflexivity|]. intros _. cbn. lia.
  - destruct (read_buf_piece fd cc buf cs out ltac:(lia) Hok Hne) as (d & cs' & E & Hd & Ec & Hok'). rewrite ubind_assoc. erewrite ubind_done by exact E. cbn [fst snd].
    rewrite Ec in *. apply Forall_app in Hb as [Hb1 Hb2]. rewrite length_app in Hf. assert (Hl : (0 < length d)%nat) by (destruct d; [done|cbn; lia]).
    rewrite (proj2 (Z.gtb_lt _ _)) by lia. rewrite same_follows by done. rewrite follows_app. destruct (follows k d); cbn [andb].
    + unfold ubind at 1, uret. edestruct (IH cs' (k + Z.of_nat (length d))) as (st & cs2 & E2 & Ht); [done|done|lia| |].
      2:{ exists st, cs2. rewrite E2. split; [reflexivity|]. intros Hfo. rewrite Ht by done. rewrite length_app. lia. }
      destruct (cc * 2 >? BUFSZ) eqn:Eg; [unfold BUFSZ; lia|lia].
    + eexists _, cs'. rewrite ubind_assoc. erewrite ubind_done by (apply say_io; reflexivity). split; [reflexivity|done].
Qed.

Definition pipe1_data : list Z := chars_from 0 (5 * 1033).

Lemma pipe1_child_writes fd left k buf ins out :
  pipe1_child fd left k buf (mkio ins out) = UDone tt (mkio ins (out ++ chars_from k (left * 1033))).
Proof.
  revert k buf out. induction left as [|left IH]; intros k buf out; [cbn; by rewrite app_nil_r|]. cbn [pipe1_child].
  assert (E : take 1033 (into (chars_from k 1033) buf) = chars_from k 1033) by (unfold into; apply take_app_length'; symmetry; apply length_chars).
  rewrite E. assert (Ew : write_ fd (chars_from k 1033) (mkio ins out) = UDone 1033 (mkio ins (out ++ chars_from k 1033))).
  { unfold write_, call_, call, ubind. cbn [os_call stdio_os io_in io_out]. rewrite length_chars. reflexivity. }
  erewrite ubind_done by exact Ew. change (negb (1033 =? 1033)) with false. unfold fail_if at 1. erewrite ubind_done by reflexivity. rewrite IH.
  change (S left * 1033)%nat with (1033 + left * 1033)%nat. by rewrite chars_app, app_assoc.
Qed.

Lemma follows_data d : bool_decide (d = pipe1_data) = follows 0 d && (Z.of_nat (length d) =? 5 * 1033).
Proof.
  unfold pipe1_data, follows. case_bool_decide as E.
  - assert (El : length d = (5 * 1033)%nat) by (rewrite E; apply length_chars). rewrite El, bool_decide_true by done. reflexivity.
  - case_bool_decide as E1; [|done]. destruct (Z.eqb_spec (Z.of_nat (length d)) (5 * 1033)) as [E2|]; [|done].
    exfalso. apply E. rewrite E1. f_equal. lia.
Qed.

Lemma total_text n : printf_text false (str (String.append "pipe1 oops 3 total %d" nl)) [AInt n] = Some (str "pipe1 oops 3 total " ++ printint udigits (s32 n) 10 true ++ [10]).
Proof. reflexivity. Qed.

(** Pipe1 tells a pipe that works from one that does not.  The child writes
    the 5165 chars 0, 1, ..., 255, 0, ...; the parent, whatever pieces the pipe
    delivers, prints its success line if and only if it was given exactly those
    chars in that order: a wrong char ends the test with "oops 2" and a stream
    that is too short or too long with "oops 3" and its length.  It ends in
    either case after at most one read per char. *)
Theorem pipe1_verdict fuel fd fd' cs buf ins out : pieces_ok cs -> Forall byte_ok (concat cs) -> (length (concat cs) < fuel)%nat ->
  pipe1_child fd' 5 0 buf (mkio ins out) = UDone tt (mkio ins (out ++ pipe1_data)) /\
  exists buf' cs', pipe1_parent fuel fd buf (mkio cs out) =
    if bool_decide (concat cs = pipe1_data) then UDone buf' (mkio [] (out ++ line "pipe1 ok"))
    else if follows 0 (concat cs)
      then UGone (mkio [] (out ++ str "pipe1 oops 3 total " ++ printint udigits (s32 (Z.of_nat (length (concat cs)))) 10 true ++ [10]))
      else UDone buf' (mkio cs' (out ++ line "pipe1 oops 2")).
Proof.
  intros Hok Hb Hf. split; [apply pipe1_child_writes|]. destruct (pipe1_loop fuel fd cs 0 1 buf out Hok Hb Hf ltac:(lia)) as (st & cs' & E & Ht).
  exists (p1_buf st), cs'. rewrite follows_data. unfold pipe1_parent. destruct (follows 0 (concat cs)) eqn:Ef; cbn [andb].
  - erewrite ubind_done by exact E. cbn [fst snd]. rewrite Ht, Z.add_0_l by done. destruct (Z.of_nat (length (concat cs)) =? 5 * 1033); cbn [negb].
    + erewrite ubind_done by reflexivity. erewrite ubind_done by reflexivity. erewrite ubind_done by reflexivity.
      erewrite ubind_done by (apply say_io; reflexivity). reflexivity.
    + unfold ubind at 1, die, ubind. rewrite (say_io _ _ _ _ _ (total_text _)). reflexivity.
  - erewrite ubind_done by exact E. reflexivity.
Qed.

Lemma pipe1_verdict_witness : exists buf', pipe1_parent (1 + 5 * 1033) 3 [] (mkio [take 700 pipe1_data; drop 700 pipe1_data] []) = UDone buf' (mkio [] (line "pipe1 ok")).
Proof.
  assert (Hd : concat [take 700 pipe1_data; drop 700 pipe1_data] = pipe1_data) by (cbn [concat]; rewrite app_nil_r; apply take_drop).
  destruct (pipe1_verdict (1 + 5 * 1033) 3 4 [take 700 pipe1_data; drop 700 pipe1_data] [] [] []) as [_ (buf' & cs' & E)].
  - repeat constructor; vm_compute; discriminate.
  - rewrite Hd. apply (bool_decide_unpack _). vm_compute. exact I.
  - rewrite Hd. unfold pipe1_data. rewrite length_chars. lia.
  - exists buf'. rewrite bool_decide_true in E by exact Hd. exact E.
Defined.
