(* ===== verification/Console.v ===== *)
(** * Console (console.c, uart.c, kbd.c)

    The screen, the serial output and the line-edited input buffer.  The
    console lock is held over every operation and left out; what a reader
    waits for is [None]. *)

From S2P Require Import Prelude.
From S2P Require Import User.
From S2P Require Import Printf.

Definition INPUT_BUF : Z := 128.
Definition BACKSPACE : Z := 256.

(** [C(x)] *)
Definition Ctl (x : Z) : Z := x - 64.

Record cons := mkcons {
  ibuf : list Z;          (* input.buf *)
  ir : Z; iw : Z; ie : Z; (* input.r, input.w, input.e *)
  crt : list Z;           (* CGA memory *)
  cursor : Z;             (* cursor registers 14 and 15 *)
  uart : bool;
  uart_out : list Z;      (* bytes sent to COM1 *)
  panicked : bool;
  woken : nat             (* wakeups of &input.r *)
}.

Definition set_input (b : list Z) (r w e : Z) (s : cons) : cons :=
  mkcons b r w e (crt s) (cursor s) (uart s) (uart_out s) (panicked s) (woken s).
Definition set_screen (c : list Z) (p : Z) (s : cons) : cons :=
  mkcons (ibuf s) (ir s) (iw s) (ie s) c p (uart s) (uart_out s) (panicked s) (woken s).
Definition send (c : Z) (s : cons) : cons :=
  mkcons (ibuf s) (ir s) (iw s) (ie s) (crt s) (cursor s) (uart s) (uart_out s ++ [u8 c]) (panicked s) (woken s).
Definition wake (s : cons) : cons :=
  mkcons (ibuf s) (ir s) (iw s) (ie s) (crt s) (cursor s) (uart s) (uart_out s) (panicked s) (S (woken s)).
Definition freeze (s : cons) : cons :=
  mkcons (ibuf s) (ir s) (iw s) (ie s) (crt s) (cursor s) (uart s) (uart_out s) true (woken s).

(** ** Output *)

Definition uartputc (c : Z) : M cons unit :=
  u <- gets uart ;;
  if u : bool then modify (send c) else ret tt.

(** [memset(crt+pos, 0, sizeof(crt[0])*(24*80 - pos))], cells of zero. *)
Definition clear_from (pos : nat) (l : list Z) : list Z := splice l pos (replicate (1920 - pos) 0).

Definition cgaputc (c : Z) : M cons unit :=
  pos0 <- gets cursor ;;
  m0 <- gets crt ;;
  let pos1 :=
    if c =? 10 then pos0 + (80 - pos0 mod 80)
    else if c =? BACKSPACE then (if pos0 >? 0 then pos0 - 1 else pos0)
    else pos0 + 1 in
  let m1 :=
    if (c =? 10) || (c =? BACKSPACE) then m0
    else <[Z.to_nat pos0 := Z.lor (Z.land c 255) 1792]> m0 in
  if (pos1 <? 0) || (pos1 >? 25 * 80) then panic "pos under/overflow"
  else
    let scroll := pos1 / 80 >=? 24 in
    let pos2 := if scroll then pos1 - 80 else pos1 in
    let m2 := if scroll then clear_from (Z.to_nat pos2) (splice m1 0 (slice m1 80 1840)) else m1 in
    modify (set_screen (<[Z.to_nat pos2 := Z.lor 32 1792]> m2) (u16 pos2)).

Definition consputc (c : Z) : M cons unit :=
  p <- gets panicked ;;
  if p : bool then panic "frozen"
  else
    (if c =? BACKSPACE then uartputc 8 ;;; uartputc 32 ;;; uartputc 8 else uartputc c) ;;;
    cgaputc c.

Definition cprintf (fmt : string) (args : list arg) : M cons unit :=
  match cprintf_text (str fmt) args with
  | Some t => each t consputc
  | None => panic "cprintf arguments"
  end.

(** ** Input *)

(** The loop of control-U. *)
Fixpoint kill_line (fuel : nat) : M cons unit :=
  match fuel with
  | O => ret tt
  | S f =>
      s <- get ;;
      if negb (ie s =? iw s) && negb (nthZ (ibuf s) (u32 (ie s - 1) mod INPUT_BUF) =? 10) then
        modify (set_input (ibuf s) (ir s) (iw s) (u32 (ie s - 1))) ;;;
        consputc BACKSPACE ;;;
        kill_line f
      else ret tt
  end.

(** One character of consoleintr's loop. *)
Definition intr_char (c : Z) : M cons unit :=
  s <- get ;;
  if c =? Ctl 80 then ret tt
  else if c =? Ctl 85 then kill_line (Z.to_nat (u32 (ie s - iw s)) + 1)
  else if (c =? Ctl 72) || (c =? 127) then
    if negb (ie s =? iw s) then
      modify (set_input (ibuf s) (ir s) (iw s) (u32 (ie s - 1))) ;;;
      consputc BACKSPACE
    else ret tt
  else if negb (c =? 0) && (u32 (ie s - ir s) <? INPUT_BUF) then
    let c := if c =? 13 then 10 else c in
    let e := u32 (ie s + 1) in
    modify (set_input (<[Z.to_nat (ie s mod INPUT_BUF) := u8 c]> (ibuf s)) (ir s) (iw s) e) ;;;
    consputc c ;;;
    if (c =? 10) || (c =? Ctl 68) || (e =? u32 (ir s + INPUT_BUF)) then
      modify (fun s => wake (set_input (ibuf s) (ir s) e e s))
    else ret tt
  else ret tt.

(** consoleintr on the characters getc returns before it fails; the result
    says whether procdump is to be called. *)
Definition consoleintr (cs : list Z) : M cons bool :=
  each cs intr_char ;;;
  ret (existsb (Z.eqb (Ctl 80)) cs).

(** How a round of consoleread ends. *)
Inductive cread :=
| CGot (d : list Z)              (* it returns these bytes *)
| CWait (d : list Z)             (* it sleeps, having read these *)
| CKilled.                       (* it returns -1 *)

(** The loop of consoleread with [d] read so far and [n] bytes to go. *)
Fixpoint consoleread_loop (killed : bool) (n : nat) (d : list Z) : M cons cread :=
  match n with
  | O => ret (CGot d)
  | S n' =>
      s <- get ;;
      if ir s =? iw s then ret (if killed then CKilled else CWait d)
      else
        let c := nthZ (ibuf s) (ir s mod INPUT_BUF) in
        let r := u32 (ir s + 1) in
        if c =? Ctl 68 then
          modify (set_input (ibuf s) (if bool_decide (d = []) then r else u32 (r - 1)) (iw s) (ie s)) ;;;
          ret (CGot d)
        else
          modify (set_input (ibuf s) r (iw s) (ie s)) ;;;
          if c =? 10 then ret (CGot (d ++ [c])) else consoleread_loop killed n' (d ++ [c])
  end.
Definition consoleread (killed : bool) (n : nat) : M cons cread := consoleread_loop killed n [].

Definition consolewrite (buf : list Z) : M cons Z :=
  each buf (fun c => consputc (Z.land c 255)) ;;;
  ret (Z.of_nat (length buf)).

(** panic: the message is printed and output freezes. *)
Definition cpanic (cpu_id : Z) (s : string) (pcs : list Z) : M cons unit :=
  cprintf "cpu%d: panic: " [AInt cpu_id] ;;;
  cprintf s [] ;;;
  each [10] consputc ;;;
  each pcs (fun pc => cprintf " %p" [AInt pc]) ;;;
  modify freeze.

(** ** Keyboard (kbd.c, kbd.h) *)

Definition SHIFT : Z := 1.
Definition CTL : Z := 2.
Definition ALT : Z := 4.
Definition CAPSLOCK : Z := 8.
Definition NUMLOCK : Z := 16.
Definition SCROLLLOCK : Z := 32.
Definition E0ESC : Z := 64.

Definition shiftcode (k : Z) : Z :=
  if k =? 0x1D then CTL else if k =? 0x2A then SHIFT else if k =? 0x36 then SHIFT else if k =? 0x38 then ALT
  else if k =? 0x9D then CTL else if k =? 0xB8 then ALT else 0.
Definition togglecode (k : Z) : Z :=
  if k =? 0x3A then CAPSLOCK else if k =? 0x45 then NUMLOCK else if k =? 0x46 then SCROLLLOCK else 0.

(** The designated entries above 0x80 that the three maps share. *)
Definition key_map (k : Z) : Z :=
  if k =? 0xC8 then 0xE2 else if k =? 0xD0 then 0xE3 else if k =? 0xC9 then 0xE6 else if k =? 0xD1 then 0xE7
  else if k =? 0xCB then 0xE4 else if k =? 0xCD then 0xE5 else if k =? 0x97 then 0xE0 else if k =? 0xCF then 0xE1
  else if k =? 0xD2 then 0xE8 else if k =? 0xD3 then 0xE9 else 0.

Definition normal_low : list Z :=
  [0; 27] ++ str "1234567890-=" ++ [8; 9] ++ str "qwertyuiop[]" ++ [10; 0] ++ str "asdfghjkl;'`" ++ [0; 92] ++ str "zxcvbnm,./" ++ [0; 42] ++
  [0; 32; 0; 0; 0; 0; 0; 0; 0; 0; 0; 0; 0; 0; 0] ++ str "789-456+1230." ++ [0; 0; 0; 0].
Definition shift_low : list Z :=
  [0; 27] ++ str "!@#$%^&*()_+" ++ [8; 9] ++ str "QWERTYUIOP{}" ++ [10; 0] ++ str "ASDFGHJKL:" ++ [34; 126; 0; 124] ++ str "ZXCVBNM<>?" ++ [0; 42] ++
  [0; 32; 0; 0; 0; 0; 0; 0; 0; 0; 0; 0; 0; 0; 0] ++ str "789-456+1230." ++ [0; 0; 0; 0].
Definition ctl_low : list Z :=
  replicate 16 0 ++ map Ctl (str "QWERTYUIOP") ++ [0; 0; 13; 0] ++ map Ctl (str "ASDFGHJKL") ++ [0; 0; 0; 0; Ctl 92] ++
  map Ctl (str "ZXCVBNM") ++ [0; 0; u8 (Ctl 47); 0; 0].

Definition normalmap (k : Z) : Z :=
  if k <? 0x80 then nthZ normal_low k else if k =? 0x9C then 10 else if k =? 0xB5 then 47 else key_map k.
Definition shiftmap (k : Z) : Z :=
  if k <? 0x80 then nthZ shift_low k else if k =? 0x9C then 10 else if k =? 0xB5 then 47 else key_map k.
Definition ctlmap (k : Z) : Z :=
  if k <? 0x80 then nthZ ctl_low k else if k =? 0x9C then 13 else if k =? 0xB5 then u8 (Ctl 47) else key_map k.

Definition charcode (i k : Z) : Z :=
  if i =? 0 then normalmap k else if i =? 1 then shiftmap k else ctlmap k.

(** kbdgetc on a byte [data] of the controller: the character and the static
    [shift]. *)
Definition kbdgetc (shift data : Z) : Z * Z :=
  if data =? 0xE0 then (0, Z.lor shift E0ESC)
  else if test data 0x80 then
    let data := if test shift E0ESC then data else Z.land data 0x7F in
    (0, Z.ldiff shift (Z.lor (shiftcode data) E0ESC))
  else
    let esc := test shift E0ESC in
    let data := if esc then Z.lor data 0x80 else data in
    let shift := if esc then Z.ldiff shift E0ESC else shift in
    let shift := Z.lxor (Z.lor shift (shiftcode data)) (togglecode data) in
    let c := charcode (Z.land shift (Z.lor CTL SHIFT)) data in
    let c :=
      if test shift CAPSLOCK then
        if (97 <=? c) && (c <=? 122) then c - 32
        else if (65 <=? c) && (c <=? 90) then c + 32
        else c
      else c in
    (c, shift).

(** The characters of a run of scan codes. *)
Fixpoint kbd_chars (shift : Z) (scan : list Z) : list Z * Z :=
  match scan with
  | [] => ([], shift)
  | k :: scan' =>
      let '(c, sh) := kbdgetc shift k in
      let '(cs, sh') := kbd_chars sh scan' in
      (c :: cs, sh')
  end.

Definition kbdintr (shift : Z) (scan : list Z) : M cons (bool * Z) :=
  let '(cs, sh) := kbd_chars shift scan in
  d <- consoleintr cs ;;
  ret (d, sh).
