(* ===== verification/ConsoleSpec.v ===== *)
(** * The line discipline (console.c)

    Input as two sequences, the characters a reader may have and the line
    being edited, refined by the ring buffer and its three 32-bit indices; and
    that output never leaves the screen.  At the end, the interrupts of the
    serial line. *)

From S2P Require Import Prelude.
From S2P Require Import Cstr.
From S2P Require Import Ports.
From S2P Require Import Mp.
From S2P Require Import Intr.
From S2P Require Import User.
From S2P Require Import Printf.
From S2P Require Import Console.

(** ** The discipline *)

Record ld := mkld { ready : list Z; edit : list Z }.

Definition ld_char (c : Z) (d : ld) : ld :=
  if c =? Ctl 80 then d
  else if c =? Ctl 85 then mkld (ready d) []
  else if (c =? Ctl 72) || (c =? 127) then mkld (ready d) (take (length (edit d) - 1) (edit d))
  else if negb (c =? 0) && (length (ready d) + length (edit d) <? 128)%nat then
    let c := if c =? 13 then 10 else c in
    if (c =? 10) || (c =? Ctl 68) || (length (ready d) + length (edit d) =? 127)%nat
    then mkld (ready d ++ edit d ++ [c]) []
    else mkld (ready d) (edit d ++ [c])
  else d.

(** A read of up to [n] characters ends with a newline, before a control-D
    which is taken only if it comes first, or waits for more. *)
Fixpoint ld_read (killed : bool) (n : nat) (acc rd : list Z) : cread * list Z :=
  match n with
  | O => (CGot acc, rd)
  | S n' =>
      match rd with
      | [] => (if killed then CKilled else CWait acc, [])
      | c :: rd' =>
          if c =? Ctl 68 then (CGot acc, if bool_decide (acc = []) then rd' else rd)
          else if c =? 10 then (CGot (acc ++ [c]), rd')
          else ld_read killed n' (acc ++ [c]) rd'
      end
  end.

(** ** Representation *)

Definition queue (d : ld) : list Z := ready d ++ edit d.

Record repr (s : cons) (d : ld) : Prop := {
  rp_len : length (ibuf s) = 128%nat;
  rp_fit : (length (queue d) <= 128)%nat;
  rp_r : 0 <= ir s < 4294967296;
  rp_w : iw s = u32 (ir s + Z.of_nat (length (ready d)));
  rp_e : ie s = u32 (ir s + Z.of_nat (length (queue d)));
  rp_data : forall i, (i < length (queue d))%nat -> nthZ (ibuf s) ((ir s + Z.of_nat i) mod 128) = nth i (queue d) 0;
  rp_nl : Forall (fun c => c <> 10) (edit d)
}.

(** The screen can take any character. *)
Record scr_ok (s : cons) : Prop := {
  so_cur : 0 <= cursor s < 1920;
  so_len : length (crt s) = 2000%nat;
  so_live : panicked s = false
}.

Definition same_input (s s' : cons) : Prop := ibuf s' = ibuf s /\ ir s' = ir s /\ iw s' = iw s /\ ie s' = ie s.

Lemma repr_same s s' d : same_input s s' -> repr s d -> repr s' d.
Proof. intros (E1 & E2 & E3 & E4) []. split; congruence || (rewrite ?E1, ?E2; done). Qed.

(** ** The screen *)

Lemma clear_length pos l : length l = 2000%nat -> (pos <= 1920)%nat -> length (clear_from pos l) = 2000%nat.
Proof. intros H Hp. unfold clear_from, splice. rewrite !length_app, length_take, length_drop, length_replicate. lia. Qed.

Lemma scroll_length l : length l = 2000%nat -> length (splice l 0 (slice l 80 1840)) = 2000%nat.
Proof.
  intros H. unfold splice, slice. assert (E : length (take 1840 (drop 80 l)) = 1840%nat) by (rewrite length_take, length_drop; lia).
  rewrite !length_app, E, length_take, length_drop. lia.
Qed.

Lemma cgaputc_ok c s : scr_ok s -> runs (cgaputc c) s (fun _ s' => scr_ok s' /\ same_input s s').
Proof.
  intros [Hc Hl Hp]. unfold cgaputc. apply runs_bind, runs_gets, runs_bind, runs_gets.
  set (pos1 := if c =? 10 then _ else _). set (m1 := if (c =? 10) || (c =? BACKSPACE) then crt s else _).
  assert (H1 : 0 <= pos1 <= 1920).
  { unfold pos1. pose proof (Z.mod_pos_bound (cursor s) 80). pose proof (Z.div_mod (cursor s) 80).
    assert (cursor s / 80 < 24) by (apply Z.div_lt_upper_bound; lia). repeat case_match; lia. }
  assert (Hm : length m1 = 2000%nat) by (unfold m1; case_match; [done|by rewrite length_insert]).
  rewrite (proj2 (Z.ltb_ge pos1 0)), Z.gtb_ltb, (proj2 (Z.ltb_ge (25 * 80) pos1)) by lia. cbn [orb]. apply runs_modify.
  rewrite Z.geb_leb. set (m2 := if 24 <=? pos1 / 80 then clear_from _ _ else _). set (pos2 := if 24 <=? pos1 / 80 then pos1 - 80 else pos1) in *.
  assert (H2 : 0 <= pos2 < 1920).
  { unfold pos2. pose proof (Z.div_mod pos1 80). pose proof (Z.mod_pos_bound pos1 80). destruct (24 <=? pos1 / 80) eqn:E; lia. }
  assert (Hm2 : length m2 = 2000%nat).
  { unfold m2. destruct (24 <=? pos1 / 80); [|done]. apply clear_length; [by apply scroll_length|lia]. }
  split; [|done]. split; cbn [set_screen cursor crt panicked]; [|by rewrite length_insert|done].
  unfold u16. rewrite Z.mod_small; lia.
Qed.

Lemma uartputc_ok c s : scr_ok s -> runs (uartputc c) s (fun _ s' => scr_ok s' /\ same_input s s').
Proof.
  intros [? ? ?]. unfold uartputc. apply runs_bind, runs_gets. destruct (Console.uart s); [apply runs_modify|apply runs_ret]; by split; [split|].
Qed.

Lemma same_trans s1 s2 s3 : same_input s1 s2 -> same_input s2 s3 -> same_input s1 s3.
Proof. intros (? & ? & ? & ?) (? & ? & ? & ?). unfold same_input. split_and!; congruence. Qed.

(** Putting two such steps together. *)
Lemma quiet_seq {A} (m : M cons A) k s : runs m s (fun _ s' => scr_ok s' /\ same_input s s') ->
  (forall a s', scr_ok s' -> runs (k a) s' (fun (_ : unit) s'' => scr_ok s'' /\ same_input s' s'')) ->
  runs (bind m k) s (fun _ s' => scr_ok s' /\ same_input s s').
Proof.
  intros Hm Hk. eapply runs_seq; [exact Hm|]. intros a s' [Ho Hs]. eapply runs_mono; [by apply Hk|]. intros _ s'' [? ?].
  split; [done|by eapply same_trans].
Qed.

Lemma consputc_ok c s : scr_ok s -> runs (consputc c) s (fun _ s' => scr_ok s' /\ same_input s s').
Proof.
  intros Hs. unfold consputc. apply runs_bind, runs_gets. rewrite (so_live _ Hs). apply quiet_seq.
  - destruct (c =? BACKSPACE); [|by apply uartputc_ok].
    apply quiet_seq; [by apply uartputc_ok|]. intros _ s1 H1. apply quiet_seq; [by apply uartputc_ok|]. intros _ s2 H2. by apply uartputc_ok.
  - intros _ s1 H1. by apply cgaputc_ok.
Qed.

Lemma puts_ok l s : scr_ok s -> runs (each l (fun c => consputc (Z.land c 255))) s (fun _ s' => scr_ok s' /\ same_input s s').
Proof.
  revert s. induction l as [|c l IH]; intros s Hs; cbn [each]; [by apply runs_ret|].
  apply quiet_seq; [by apply consputc_ok|]. intros _ s' H. by apply IH.
Qed.

(** ** Input *)

Lemma repr_empty s d : repr s d -> (ie s =? iw s) = (length (edit d) =? 0)%nat.
Proof.
  intros [_ Hf Hr -> -> _ _]. unfold queue in *. rewrite length_app in *. destruct (length (edit d) =? 0)%nat eqn:E.
  - apply Nat.eqb_eq in E. rewrite E, Nat.add_0_r. apply Z.eqb_refl.
  - apply Nat.eqb_neq in E. apply Z.eqb_neq. intros Eu. unfold u32 in Eu.
    apply (mod_window 4294967296) in Eu; lia.
Qed.

Lemma repr_ready s d : repr s d -> (ir s =? iw s) = (length (ready d) =? 0)%nat.
Proof.
  intros [_ Hf Hr -> _ _ _]. unfold queue in *. rewrite length_app in *. destruct (length (ready d) =? 0)%nat eqn:E.
  - apply Nat.eqb_eq in E. rewrite E, Z.add_0_r, u32_id by done. apply Z.eqb_refl.
  - apply Nat.eqb_neq in E. apply Z.eqb_neq. rewrite <- (u32_id (ir s)) at 1 by done. rewrite <- (Z.add_0_r (ir s)) at 1.
    intros Eu. unfold u32 in Eu. apply (mod_window 4294967296) in Eu; lia.
Qed.

(** Dropping the last character of the line. *)
Lemma repr_back s d l c s' : repr s d -> edit d = l ++ [c] ->
  ibuf s' = ibuf s -> ir s' = ir s -> iw s' = iw s -> ie s' = u32 (ie s - 1) -> repr s' (mkld (ready d) l).
Proof.
  intros [H1 H2 H3 H4 H5 H6 H7] E E1 E2 E3 E4. unfold queue in *. cbn [ready edit]. rewrite E in *. rewrite app_assoc, length_app in H2, H5. cbn [length] in *.
  split; cbn [queue ready edit]; unfold queue; cbn [ready edit].
  - by rewrite E1.
  - lia.
  - by rewrite E2.
  - by rewrite E3, E2.
  - rewrite E4, H5, E2, u32_sub. f_equal. lia.
  - intros i Hi. rewrite E1, E2, H6 by (rewrite app_assoc, length_app; cbn; lia). rewrite app_assoc, app_nth1 by done. done.
  - by apply Forall_app in H7 as [? _].
Qed.

(** The last character of the line in the buffer. *)
Lemma repr_last s d l c : repr s d -> edit d = l ++ [c] -> nthZ (ibuf s) (u32 (ie s - 1) mod INPUT_BUF) = c.
Proof.
  intros [H1 H2 H3 H4 H5 H6 H7] E. unfold INPUT_BUF, queue in *. rewrite u32_mod by (lia || by exists 33554432). rewrite H5, E in *.
  rewrite app_assoc, length_app in *. cbn [length] in *.
  specialize (H6 (length (ready d ++ l))). rewrite app_nth2, Nat.sub_diag in H6 by lia. etransitivity; [|apply H6; lia].
  f_equal. rewrite <- Zminus_mod_idemp_l, u32_mod, Zminus_mod_idemp_l by (lia || by exists 33554432). f_equal. lia.
Qed.

Lemma edit_snoc (l : list Z) : l = [] \/ exists l' c, l = l' ++ [c].
Proof. destruct l as [|l c _] using rev_ind; eauto. Qed.

Lemma kill_line_ok n s d : repr s d -> scr_ok s -> (length (edit d) < n)%nat ->
  runs (kill_line n) s (fun _ s' => repr s' (mkld (ready d) []) /\ scr_ok s').
Proof.
  revert s d. induction n as [|n IH]; intros s d Hr Hs Hn; [lia|]. cbn [kill_line]. apply runs_bind. unfold get, runs at 1.
  rewrite (repr_empty _ _ Hr). destruct (edit_snoc (edit d)) as [E|(l & c & E)].
  - rewrite E. cbn [length Nat.eqb negb andb]. split; [|done]. destruct d as [rd ed]. cbn in *. by subst.
  - rewrite (repr_last _ _ _ _ Hr E), E, length_app. cbn [length]. replace (length l + 1 =? 0)%nat with false by (symmetry; apply Nat.eqb_neq; lia).
    assert (Hc : (c =? 10) = false).
    { apply Z.eqb_neq. pose proof (rp_nl _ _ Hr) as Hf. rewrite E in Hf. apply Forall_app in Hf as [_ Hf]. by inversion Hf. }
    rewrite Hc. cbn [negb andb]. apply runs_bind, runs_modify. set (s1 := set_input _ _ _ _ _).
    assert (H1 : repr s1 (mkld (ready d) l)) by (by eapply repr_back). assert (Ho : scr_ok s1) by (by destruct Hs; split).
    eapply runs_seq; [by apply consputc_ok|]. intros _ s2 [Ho2 Hs2]. cbv beta in *.
    apply (IH s2 (mkld (ready d) l)); [by eapply repr_same|done|]. rewrite E, length_app in Hn. cbn in *. lia.
Qed.

Lemma repr_room s d : repr s d -> (u32 (ie s - ir s) <? INPUT_BUF) = (length (queue d) <? 128)%nat.
Proof.
  intros [_ Hf Hr _ -> _ _]. rewrite <- (u32_id (ir s)) at 2 by done. rewrite u32_diff.
  replace (ir s + Z.of_nat (length (queue d)) - ir s) with (Z.of_nat (length (queue d))) by lia. rewrite u32_id by lia. unfold INPUT_BUF.
  apply eq_true_iff_eq. rewrite Z.ltb_lt, Nat.ltb_lt. lia.
Qed.

Lemma repr_full s d : repr s d -> (u32 (ie s + 1) =? u32 (ir s + INPUT_BUF)) = (length (queue d) =? 127)%nat.
Proof.
  intros [_ Hf Hr _ -> _ _]. rewrite u32_add. unfold INPUT_BUF. rewrite <- Z.add_assoc. destruct (length (queue d) =? 127)%nat eqn:E.
  - apply Nat.eqb_eq in E. rewrite E. apply Z.eqb_refl.
  - apply Nat.eqb_neq in E. apply Z.eqb_neq. intros Eu. unfold u32 in Eu. apply (mod_window 4294967296) in Eu; lia.
Qed.

(** What the buffer holds after a character is stored. *)
Lemma push_data s d c i : repr s d -> (length (queue d) < 128)%nat -> (i < length (queue d ++ [c]))%nat ->
  nthZ (<[Z.to_nat (ie s mod INPUT_BUF) := c]> (ibuf s)) ((ir s + Z.of_nat i) mod 128) = nth i (queue d ++ [c]) 0.
Proof.
  intros [H1 H2 H3 H4 H5 H6 H7] Hl Hi. unfold INPUT_BUF. rewrite H5, u32_mod by (lia || by exists 33554432).
  rewrite length_app in Hi. cbn [length] in Hi. pose proof (Z.mod_pos_bound (ir s + Z.of_nat (length (queue d))) 128).
  pose proof (Z.mod_pos_bound (ir s + Z.of_nat i) 128). unfold nthZ. destruct (decide (i = length (queue d))) as [->|Hne].
  - rewrite nth_lookup, list_lookup_insert_eq by lia. rewrite app_nth2, Nat.sub_diag by lia. done.
  - rewrite nth_lookup, list_lookup_insert_ne, <- nth_lookup.
    + rewrite app_nth1 by lia. apply H6. lia.
    + intros E. apply Z2Nat.inj in E; [|lia..]. apply (mod_window 128) in E; lia.
Qed.

(** The two ways a stored character ends up: in the line, or with the line
    ready. *)
Lemma repr_push s d c s' d' : repr s d -> (length (queue d) < 128)%nat ->
  ibuf s' = <[Z.to_nat (ie s mod INPUT_BUF) := c]> (ibuf s) -> ir s' = ir s -> ie s' = u32 (ie s + 1) ->
  queue d' = queue d ++ [c] -> iw s' = u32 (ir s + Z.of_nat (length (ready d'))) -> Forall (fun c => c <> 10) (edit d') -> repr s' d'.
Proof.
  intros Hr Hl E1 E2 E3 E4 E5 E6. pose proof Hr as [H1 H2 H3 H4 H5 H6 H7]. split.
  - by rewrite E1, length_insert.
  - rewrite E4, length_app. cbn. lia.
  - by rewrite E2.
  - by rewrite E5, E2.
  - rewrite E3, H5, E2, E4, u32_add, length_app. f_equal. cbn. lia.
  - intros i Hi. rewrite E4 in *. rewrite E1, E2. by apply push_data.
  - done.
Qed.

Lemma intr_char_ok c s d : 0 <= c < 256 -> repr s d -> scr_ok s -> runs (intr_char c) s (fun _ s' => repr s' (ld_char c d) /\ scr_ok s').
Proof.
  intros Hc Hr Hs. unfold intr_char, ld_char. apply runs_bind. unfold get, runs at 1.
  destruct (c =? Ctl 80) eqn:E1; [by apply runs_ret|]. destruct (c =? Ctl 85) eqn:E2.
  { apply kill_line_ok; [done|done|]. pose proof Hr as [_ Hf H3 -> -> _ _]. rewrite u32_diff. unfold queue in *. rewrite length_app in *.
    match goal with |- context [u32 ?x] => replace x with (Z.of_nat (length (edit d))) by lia end. rewrite u32_id by lia. lia. }
  destruct ((c =? Ctl 72) || (c =? 127)) eqn:E3.
  { rewrite (repr_empty _ _ Hr). destruct (edit_snoc (edit d)) as [E|(l & x & E)].
    - rewrite E. cbn. split; [|done]. destruct d. cbn in *. by subst.
    - rewrite E, length_app. cbn [length]. replace (length l + 1 =? 0)%nat with false by (symmetry; apply Nat.eqb_neq; lia). cbn [negb].
      apply runs_bind, runs_modify. set (s1 := set_input _ _ _ _ _). assert (H1 : repr s1 (mkld (ready d) l)) by (by eapply repr_back).
      assert (Ho : scr_ok s1) by (by destruct Hs; split). eapply runs_mono; [by apply consputc_ok|]. intros _ s2 [Ho2 Hs2].
      replace (length l + 1 - 1)%nat with (length l) by lia. rewrite take_app_length. split; [by eapply repr_same|done]. }
  rewrite (repr_room _ _ Hr). unfold queue at 1. rewrite length_app.
  destruct (negb (c =? 0) && (length (ready d) + length (edit d) <? 128)%nat) eqn:E4; [|by apply runs_ret].
  apply andb_true_iff in E4 as [_ E4]. apply Nat.ltb_lt in E4. set (c' := if c =? 13 then 10 else c).
  assert (Hc' : u8 c' = c') by (unfold u8, c'; rewrite Z.mod_small; [done|]; destruct (c =? 13); lia). rewrite Hc'.
  assert (Hq : (length (queue d) < 128)%nat) by (unfold queue; by rewrite length_app).
  apply runs_bind, runs_modify. set (s1 := set_input _ _ _ _ _). assert (Ho : scr_ok s1) by (by destruct Hs; split).
  eapply runs_seq; [by apply consputc_ok|]. intros _ s2 [Ho2 (I1 & I2 & I3 & I4)]. cbn [s1 set_input ibuf ir iw ie] in I1, I2, I3, I4.
  rewrite (repr_full _ _ Hr). unfold queue at 1. rewrite length_app.
  destruct ((c' =? 10) || (c' =? Ctl 68) || (length (ready d) + length (edit d) =? 127)%nat) eqn:E5.
  - apply runs_modify. split; [|by destruct Ho2; split]. eapply (repr_push s d c'); cbn [wake set_input ibuf ir iw ie queue ready edit]; try done.
    + unfold queue. cbn. by rewrite app_nil_r, app_assoc.
    + rewrite (rp_e _ _ Hr), u32_add. unfold queue. rewrite !length_app. cbn [length]. f_equal. lia.
  - apply runs_ret. split; [|done]. apply orb_false_iff in E5 as [E5 _]. apply orb_false_iff in E5 as [E5 _].
    eapply (repr_push s d c'); try done.
    + unfold queue. cbn. by rewrite app_assoc.
    + cbn [ready]. rewrite I3. apply (rp_w _ _ Hr).
    + cbn [edit]. apply Forall_app. split; [apply (rp_nl _ _ Hr)|]. constructor; [by apply Z.eqb_neq|done].
Qed.

(** Taking the first ready character. *)
Lemma repr_pop s d c rd s' : repr s d -> ready d = c :: rd -> ibuf s' = ibuf s -> ir s' = u32 (ir s + 1) -> iw s' = iw s -> ie s' = ie s ->
  repr s' (mkld rd (edit d)) /\ nthZ (ibuf s) (ir s mod INPUT_BUF) = c.
Proof.
  intros [H1 H2 H3 H4 H5 H6 H7] E E1 E2 E3 E4. unfold queue in *. rewrite E in *. cbn [app length] in *. split.
  - split; unfold queue; cbn [ready edit].
    + by rewrite E1.
    + lia.
    + rewrite E2. apply u32_range.
    + rewrite E3, H4, E2, u32_add. f_equal. lia.
    + rewrite E4, H5, E2, u32_add. f_equal. lia.
    + intros i Hi. rewrite E1, E2. specialize (H6 (S i)). cbn [nth] in H6. rewrite <- H6 by lia. f_equal.
      rewrite <- Zplus_mod_idemp_l, u32_mod, Zplus_mod_idemp_l by (lia || by exists 33554432). f_equal. lia.
    + done.
  - specialize (H6 0%nat). rewrite Z.add_0_r in H6. apply H6. lia.
Qed.

Lemma consoleread_ok k n acc s d : repr s d -> scr_ok s -> runs (consoleread_loop k n acc) s (fun r s' =>
  r = fst (ld_read k n acc (ready d)) /\ repr s' (mkld (snd (ld_read k n acc (ready d))) (edit d)) /\ scr_ok s').
Proof.
  revert acc s d. induction n as [|n IH]; intros acc s d Hr Hs; cbn [consoleread_loop ld_read].
  { apply runs_ret. cbn. split_and!; [done|by destruct d|done]. }
  apply runs_bind. unfold get, runs at 1. rewrite (repr_ready _ _ Hr). destruct (ready d) as [|c rd] eqn:E; cbn [length Nat.eqb].
  { apply runs_ret. cbn. split_and!; [done| |done]. destruct d. cbn in *. by subst. }
  assert (Hp : forall s', ibuf s' = ibuf s -> ir s' = u32 (ir s + 1) -> iw s' = iw s -> ie s' = ie s ->
    repr s' (mkld rd (edit d)) /\ nthZ (ibuf s) (ir s mod INPUT_BUF) = c) by (intros s' ? ? ? ?; by eapply repr_pop).
  set (s1 := set_input (ibuf s) (u32 (ir s + 1)) (iw s) (ie s) s). destruct (Hp s1) as [H1 ->]; [done..|].
  assert (Ho : scr_ok s1) by (by destruct Hs; split). destruct (c =? Ctl 68).
  - apply runs_bind, runs_modify, runs_ret. cbn. case_bool_decide; [done|]. split_and!; [done| |by destruct Hs; split].
    replace (set_input _ _ _ _ s) with s; [destruct d; cbn in *; by subst|]. destruct s as [b r w e cr cu u uo p wo]. unfold set_input. cbn.
    f_equal. rewrite u32_sub. replace (r + 1 - 1) with r by lia. symmetry. apply u32_id, (rp_r _ _ Hr).
  - apply runs_bind, runs_modify. fold s1. destruct (c =? 10); [by apply runs_ret|]. exact (IH (acc ++ [c]) s1 (mkld rd (edit d)) H1 Ho).
Qed.

(** ** Keyboard *)

Lemma charcode_range i k : 0 <= k < 256 -> 0 <= charcode i k < 256.
Proof.
  intros Hk. assert (H : forallb (fun n => forallb (fun j => (0 <=? charcode j (Z.of_nat n)) && (charcode j (Z.of_nat n) <? 256)) [0; 1; 2]) (seq 0 256) = true) by reflexivity.
  rewrite forallb_forall in H. specialize (H (Z.to_nat k)). rewrite Z2Nat.id, forallb_forall in H by lia.
  assert (Hj : exists j, In j [0; 1; 2] /\ charcode i k = charcode j k).
  { unfold charcode. destruct (i =? 0); [exists 0; cbn; eauto|]. destruct (i =? 1); [exists 1; cbn; eauto|exists 2; cbn; eauto]. }
  destruct Hj as (j & Hj & ->). specialize (H ltac:(apply in_seq; lia) j Hj). lia.
Qed.

Lemma lor_byte k : 0 <= k < 256 -> 0 <= Z.lor k 128 < 256.
Proof.
  intros Hk. assert (H : forallb (fun n => (0 <=? Z.lor (Z.of_nat n) 128) && (Z.lor (Z.of_nat n) 128 <? 256)) (seq 0 256) = true) by reflexivity.
  rewrite forallb_forall in H. specialize (H (Z.to_nat k)). rewrite Z2Nat.id in H by lia. specialize (H ltac:(apply in_seq; lia)). lia.
Qed.

Lemma kbdgetc_range sh k : 0 <= k < 256 -> 0 <= fst (kbdgetc sh k) < 256.
Proof.
  intros Hk. unfold kbdgetc. destruct (k =? 0xE0); [cbn; lia|]. destruct (test k 0x80) eqn:E; [cbn; lia|]. cbn [fst].
  set (k' := if test sh E0ESC then Z.lor k 128 else k). set (sh' := Z.lxor _ _).
  assert (Hk' : 0 <= k' < 256).
  { unfold k'. destruct (test sh E0ESC); [|done]. by apply lor_byte. }
  pose proof (charcode_range (Z.land sh' (Z.lor CTL SHIFT)) k' Hk').
  repeat case_match; lia.
Qed.

(** ** The console as a whole *)

Inductive cev :=
| EKbd (scan : list Z)                (* keyboard interrupt *)
| EUart (cs : list Z)                 (* serial interrupt *)
| ERead (killed : bool) (n : nat)     (* a process reads, or goes on reading *)
| EWrite (d : list Z).                (* a process writes *)

Definition bytes_in (l : list Z) : Prop := Forall (fun c => 0 <= c < 256) l.
Definition ev_ok (e : cev) : Prop :=
  match e with
  | EKbd l | EUart l => bytes_in l
  | _ => True
  end.

Definition on_cons {A} (m : M cons A) : M (cons * Z) A := lift fst (fun s p => (s, snd p)) m.

Definition run_ev (e : cev) : M (cons * Z) (option cread) :=
  match e with
  | EKbd scan => sh <- gets snd ;; r <- on_cons (kbdintr sh scan) ;; modify (fun p => (fst p, snd r)) ;;; ret None
  | EUart cs => on_cons (consoleintr cs) ;;; ret None
  | ERead k n => r <- on_cons (consoleread k n) ;; ret (Some r)
  | EWrite d => on_cons (consolewrite d) ;;; ret None
  end.

Fixpoint run_evs (es : list cev) : M (cons * Z) (list (option cread)) :=
  match es with
  | [] => ret []
  | e :: es' => r <- run_ev e ;; rs <- run_evs es' ;; ret (r :: rs)
  end.

(** The same on the discipline. *)
Definition ld_ev (e : cev) (d : ld) (sh : Z) : option cread * ld * Z :=
  match e with
  | EKbd scan => (None, fold_left (fun d c => ld_char c d) (fst (kbd_chars sh scan)) d, snd (kbd_chars sh scan))
  | EUart cs => (None, fold_left (fun d c => ld_char c d) cs d, sh)
  | ERead k n => let '(r, rd) := ld_read k n [] (ready d) in (Some r, mkld rd (edit d), sh)
  | EWrite _ => (None, d, sh)
  end.

Fixpoint ld_evs (es : list cev) (d : ld) (sh : Z) : list (option cread) * ld :=
  match es with
  | [] => ([], d)
  | e :: es' =>
      let '(r, d1, sh1) := ld_ev e d sh in
      let '(rs, d2) := ld_evs es' d1 sh1 in
      (r :: rs, d2)
  end.

Definition cons_rel (d : ld) (p : cons * Z) : Prop := repr (fst p) d /\ scr_ok (fst p).

Lemma intr_ok cs s d : bytes_in cs -> repr s d -> scr_ok s ->
  runs (consoleintr cs) s (fun _ s' => repr s' (fold_left (fun d c => ld_char c d) cs d) /\ scr_ok s').
Proof.
  intros Hc Hr Hs. unfold consoleintr. assert (H : runs (each cs intr_char) s (fun _ s' => repr s' (fold_left (fun d c => ld_char c d) cs d) /\ scr_ok s')).
  { clear -Hc Hr Hs. revert s d Hr Hs. induction Hc as [|c cs Hc _ IH]; intros s d Hr Hs; cbn [each fold_left]; [by apply runs_ret|].
    eapply runs_seq; [by apply intr_char_ok|]. intros _ s1 [? ?]. by apply IH. }
  eapply runs_seq; [exact H|]. intros [] s1 H1. by apply runs_ret.
Qed.

Lemma kbd_chars_range sh scan : bytes_in scan -> bytes_in (fst (kbd_chars sh scan)).
Proof.
  intros H. revert sh. induction H as [|k scan Hk _ IH]; intros sh; [by constructor|]. cbn [kbd_chars].
  pose proof (kbdgetc_range sh k Hk) as Hc. destruct (kbdgetc sh k) as [c sh1]. specialize (IH sh1). destruct (kbd_chars sh1 scan) as [cs sh2].
  by constructor.
Qed.

Lemma run_ev_ok e p d : ev_ok e -> cons_rel d p -> runs (run_ev e) p (fun r p' =>
  let '(r0, d', sh') := ld_ev e d (snd p) in r = r0 /\ cons_rel d' p' /\ snd p' = sh').
Proof.
  intros He [Hr Hs]. destruct p as [s sh]. cbn [fst snd] in *. destruct e as [scan|cs|k n|l]; cbn [run_ev ld_ev].
  - apply runs_bind, runs_gets. cbn [snd]. unfold kbdintr. pose proof (kbd_chars_range sh scan He) as Hc. destruct (kbd_chars sh scan) as [cs sh'].
    cbn [fst] in Hc. apply runs_bind. unfold on_cons. apply runs_lift. cbn [fst snd]. eapply runs_seq; [by apply intr_ok|]. intros b s1 [? ?].
    by apply runs_ret, runs_bind, runs_modify, runs_ret.
  - apply runs_bind. unfold on_cons. apply runs_lift. eapply runs_mono; [by apply intr_ok|]. intros b s1 [? ?]. by apply runs_ret.
  - apply runs_bind. unfold on_cons. apply runs_lift. eapply runs_mono; [by apply consoleread_ok|]. intros r s1 (-> & ? & ?).
    destruct (ld_read k n [] (ready d)) as [r rd]. by apply runs_ret.
  - apply runs_bind. unfold on_cons, consolewrite. apply runs_lift. eapply runs_seq; [by apply puts_ok|]. intros _ s1 [? ?].
    apply runs_ret, runs_ret. split_and!; [done| |done]. split; [by eapply repr_same|done].
Qed.

Lemma run_evs_ok es p d : Forall ev_ok es -> cons_rel d p ->
  runs (run_evs es) p (fun rs p' => rs = fst (ld_evs es d (snd p)) /\ cons_rel (snd (ld_evs es d (snd p))) p').
Proof.
  intros He. revert p d. induction He as [|e es He _ IH]; intros p d Hp; cbn [run_evs ld_evs]; [by apply runs_ret|].
  eapply runs_seq; [by apply run_ev_ok|]. intros r p1. destruct (ld_ev e d (snd p)) as [[r0 d1] sh1]. intros (-> & Hp1 & <-).
  eapply runs_seq; [by apply IH|]. intros rs p2 [-> Hp2]. apply runs_ret. by destruct (ld_evs es d1 (snd p1)).
Qed.

(** C10: The console implements the line discipline: for any sequence of
    keyboard and serial interrupts, reads and writes, every read gets what
    the discipline gives it, over the wrap-around of the buffer and of its
    32-bit indices; a line is handed over whole, and a character is erased
    only from the line being edited.  Output stays on the screen: the kernel
    does not panic on the cursor. *)
Theorem console_refines es s sh d : Forall ev_ok es -> repr s d -> scr_ok s ->
  runs (run_evs es) (s, sh) (fun rs p => rs = fst (ld_evs es d sh) /\ repr (fst p) (snd (ld_evs es d sh)) /\ scr_ok (fst p)).
Proof. intros He Hr Hs. exact (run_evs_ok es (s, sh) d He (conj Hr Hs)). Qed.

Module ConsDemo.
Definition s0 : cons := mkcons (replicate 128 0) 4294967294 4294967294 4294967294 (replicate 2000 0) 1919 true [] false 0.

(** Shift-h, i, backspace, o and enter, typed, then read, at the end of the
    screen and of the index range. *)
Lemma console_refines_witness :
  runs (run_evs [EKbd [42; 35; 170; 23; 14; 24; 28]; ERead false 100]) (s0, 0) (fun rs p =>
    rs = [None; Some (CGot (str "Ho" ++ [10]))]).
Proof.
  assert (H1 : Forall ev_ok [EKbd [42; 35; 170; 23; 14; 24; 28]; ERead false 100]) by (repeat constructor; discriminate).
  assert (H2 : repr s0 (mkld [] [])) by (split; [reflexivity|cbn; lia|cbn; lia|reflexivity|reflexivity|intros i Hi; cbn in Hi; lia|constructor]).
  assert (H3 : scr_ok s0) by (split; [cbn; lia|reflexivity|reflexivity]).
  eapply runs_mono; [exact (console_refines _ s0 0 (mkld [] []) H1 H2 H3)|]. intros rs p (-> & _). reflexivity.
Defined.
End ConsDemo.

(** ** Interrupts of the serial line

    uartintr of uart.c is consoleintr with uartgetc as its getc: a character is
    taken from the port and handled before the next is looked for. *)

Section Serial.
Context {H : Type} {IO : PortIo H}.

Definition on_con {A} (m : M cons A) : M (cons * devs H) A := lift fst (fun c s => (c, snd s)) m.
Definition on_dev {A} (m : M (devs H) A) : M (cons * devs H) A := lift snd (fun d s => (fst s, d)) m.

(** [while((c = getc()) >= 0)]; the result says whether procdump is to be
    called. *)
Fixpoint uartintr_loop (fuel : nat) (doprocdump : bool) : M (cons * devs H) bool :=
  match fuel with
  | O => panic "out of fuel"
  | S n =>
      c <- on_dev uartgetc ;;
      if c <? 0 then ret doprocdump
      else on_con (intr_char c) ;;; uartintr_loop n (doprocdump || (c =? Ctl 80))
  end.
Definition uartintr (fuel : nat) : M (cons * devs H) bool := uartintr_loop fuel false.

(** The line has the characters [cs], and then none. *)
Inductive has_chars : devs H -> list Z -> devs H -> Prop :=
| hc_none d c d' : uartgetc d = Done c d' -> c < 0 -> has_chars d [] d'
| hc_char d c d1 cs d' : uartgetc d = Done c d1 -> 0 <= c -> has_chars d1 cs d' -> has_chars d (c :: cs) d'.

Lemma uartintr_loop_spec d cs d' : has_chars d cs d' -> forall k dump fuel k', each cs intr_char k = Done tt k' -> (length cs < fuel)%nat ->
  uartintr_loop fuel dump (k, d) = Done (dump || existsb (Z.eqb (Ctl 80)) cs) (k', d').
Proof.
  induction 1 as [d c d' E Hc|d c d1 cs d' E Hc _ IH]; intros k dump fuel k' Ek Hf; (destruct fuel as [|fuel]; [cbn in Hf; lia|]); cbn [uartintr_loop]; unfold bind at 1, on_dev, lift; cbn [snd fst]; rewrite E.
  - rewrite (proj2 (Z.ltb_lt _ _)) by lia. cbn in Ek. injection Ek as <-. cbn. by rewrite orb_false_r.
  - rewrite (proj2 (Z.ltb_ge _ _)) by lia. cbn [each] in Ek. unfold bind in Ek. destruct (intr_char c k) as [[] k1|?|? ?] eqn:E1; try discriminate Ek.
    unfold bind, on_con, lift. cbn [snd fst]. rewrite E1. rewrite (IH k1 _ fuel k' Ek) by (cbn in Hf; lia). cbn [existsb]. by rewrite orb_assoc, (Z.eqb_sym c).
Qed.

(** Taking the characters one by one is handling the sequence of them: uartintr
    does what consoleintr does on the characters the line has, and ends when
    there are none. *)
Lemma uartintr_spec d cs d' k b k' fuel : has_chars d cs d' -> consoleintr cs k = Done b k' -> (length cs < fuel)%nat -> uartintr fuel (k, d) = Done b (k', d').
Proof.
  intros Hc Ek Hf. unfold consoleintr, bind in Ek. destruct (each cs intr_char k) as [[] k1|?|? ?] eqn:E; try discriminate Ek. injection Ek as <- <-.
  unfold uartintr. by rewrite (uartintr_loop_spec d cs d' Hc k false fuel k1).
Qed.
End Serial.
