(* ===== verification/Fsfmt.v ===== *)
(** * On-disk formats (fs.h)

    The byte layout of the superblock, of inodes and of directory entries, as
    the x86 structures lay them out, with the encode/decode round trips. *)

From S2P Require Import Prelude.
From S2P Require Import Params.

(** struct superblock *)
Record superblock := mksb {
  sb_size : Z;
  sb_nblocks : Z;
  sb_ninodes : Z;
  sb_nlog : Z;
  sb_logstart : Z;
  sb_inodestart : Z;
  sb_bmapstart : Z
}.

Definition sb_of_bytes (d : list Z) : superblock :=
  mksb (get32 d 0) (get32 d 4) (get32 d 8) (get32 d 12) (get32 d 16) (get32 d 20) (get32 d 24).
Definition sb_bytes (sb : superblock) : list Z :=
  le_bytes 4 (sb_size sb) ++ le_bytes 4 (sb_nblocks sb) ++ le_bytes 4 (sb_ninodes sb) ++
  le_bytes 4 (sb_nlog sb) ++ le_bytes 4 (sb_logstart sb) ++ le_bytes 4 (sb_inodestart sb) ++
  le_bytes 4 (sb_bmapstart sb).

(** struct dinode *)
Record dinode := mkdinode {
  di_type : Z;
  di_major : Z;
  di_minor : Z;
  di_nlink : Z;
  di_size : Z;
  di_addrs : list Z       (* NDIRECT + 1 block numbers *)
}.

Definition DINODE_SZ : nat := 64.
Definition IPB : Z := 8.                                       (* BSIZE / sizeof(struct dinode) *)
Definition IBLOCK (i : Z) (sb : superblock) : Z := u32 (i / IPB + sb_inodestart sb).
Definition BPB : Z := 4096.                                    (* BSIZE * 8 *)
Definition BBLOCK (b : Z) (sb : superblock) : Z := u32 (b / BPB + sb_bmapstart sb).

Definition dinode_of_bytes (d : list Z) : dinode :=
  mkdinode (s16 (get16 d 0)) (s16 (get16 d 2)) (s16 (get16 d 4)) (s16 (get16 d 6)) (get32 d 8)
           (List.map (fun i => get32 d (12 + 4 * i)) (seq 0 13)).
Definition dinode_bytes (di : dinode) : list Z :=
  le_bytes 2 (di_type di) ++ le_bytes 2 (di_major di) ++ le_bytes 2 (di_minor di) ++
  le_bytes 2 (di_nlink di) ++ le_bytes 4 (di_size di) ++ concat (List.map (le_bytes 4) (di_addrs di)).

(** The inode in slot [i % IPB] of an inode block. *)
Definition dinode_get (blk : list Z) (inum : Z) : dinode :=
  dinode_of_bytes (slice blk (Z.to_nat (inum mod IPB) * DINODE_SZ) DINODE_SZ).
Definition dinode_put (blk : list Z) (inum : Z) (di : dinode) : list Z :=
  splice blk (Z.to_nat (inum mod IPB) * DINODE_SZ) (dinode_bytes di).

Definition short_ok (x : Z) : Prop := -32768 <= x < 32768.
Definition uint_ok (x : Z) : Prop := 0 <= x < 4294967296.

Record dinode_ok (di : dinode) : Prop := {
  dk_type : short_ok (di_type di);
  dk_major : short_ok (di_major di);
  dk_minor : short_ok (di_minor di);
  dk_nlink : short_ok (di_nlink di);
  dk_size : uint_ok (di_size di);
  dk_len : length (di_addrs di) = 13%nat;
  dk_addrs : Forall uint_ok (di_addrs di)
}.

(** struct dirent *)
Record dirent := mkdirent { de_inum : Z; de_name : list Z }.
Definition DIRENT_SZ : nat := 16.
Definition dirent_of_bytes (d : list Z) : dirent := mkdirent (get16 d 0) (slice d 2 DIRSIZ).
Definition dirent_bytes (de : dirent) : list Z := le_bytes 2 (de_inum de) ++ de_name de.

(** ** Round trips *)

Lemma get32_app d1 v rest off : length d1 = off -> get32 (d1 ++ le_bytes 4 v ++ rest) off = u32 v.
Proof.
  intros <-. unfold get32, slice. rewrite drop_app_length, take_app_length'; [apply (le_val_bytes 4)|].
  by rewrite length_le_bytes.
Qed.

Lemma get16_app d1 v rest off : length d1 = off -> get16 (d1 ++ le_bytes 2 v ++ rest) off = u16 v.
Proof.
  intros <-. unfold get16, slice. rewrite drop_app_length, take_app_length'; [apply (le_val_bytes 2)|].
  by rewrite length_le_bytes.
Qed.

Lemma get16_hd v rest : get16 (le_bytes 2 v ++ rest) 0 = u16 v.
Proof. exact (get16_app [] v rest 0 eq_refl). Qed.
Lemma get32_hd v rest : get32 (le_bytes 4 v ++ rest) 0 = u32 v.
Proof. exact (get32_app [] v rest 0 eq_refl). Qed.

Lemma s16_u16 x : short_ok x -> s16 (u16 x) = x.
Proof.
  unfold short_ok, s16, u16. intros H. rewrite Zplus_mod_idemp_l, Z.mod_small; lia.
Qed.

Lemma length_concat_le l : length (concat (List.map (le_bytes 4) l)) = (4 * length l)%nat.
Proof. induction l as [|x l IH]; [done|]. cbn [List.map concat]. rewrite length_app, length_le_bytes, IH. cbn. lia. Qed.

(** The [i]-th word of a sequence of words. *)
Lemma get32_concat d1 l i x off : l !! i = Some x -> length d1 = off -> uint_ok x ->
  get32 (d1 ++ concat (List.map (le_bytes 4) l)) (off + 4 * i) = x.
Proof.
  intros Hl Hd Hx. rewrite <- (take_drop_middle l i x Hl), map_app, concat_app. cbn [List.map concat].
  rewrite app_assoc. rewrite get32_app; [by apply u32_id|].
  apply lookup_lt_Some in Hl. rewrite length_app, length_concat_le, length_take. lia.
Qed.

Lemma length_dinode_bytes di : length (di_addrs di) = 13%nat -> length (dinode_bytes di) = DINODE_SZ.
Proof. intros H. unfold dinode_bytes. rewrite !length_app, !length_le_bytes, length_concat_le, H. done. Qed.

Lemma dinode_bytes_ok di : Forall byte_ok (dinode_bytes di).
Proof.
  unfold dinode_bytes. rewrite !Forall_app. repeat split; try apply le_bytes_ok.
  induction (di_addrs di) as [|x l IH]; [constructor|]. cbn [List.map concat]. rewrite Forall_app. split; [apply le_bytes_ok|done].
Qed.

(** Decoding an encoded inode gives it back. *)
Lemma dinode_roundtrip di : dinode_ok di -> dinode_of_bytes (dinode_bytes di) = di.
Proof.
  intros [H1 H2 H3 H4 H5 H6 H7]. destruct di as [ty ma mi nl sz ad].
  cbn [di_type di_major di_minor di_nlink di_size di_addrs] in *.
  unfold dinode_of_bytes, dinode_bytes. cbn [di_type di_major di_minor di_nlink di_size di_addrs].
  f_equal.
  - rewrite get16_hd. by apply s16_u16.
  - rewrite (get16_app (le_bytes 2 ty)) by done. by apply s16_u16.
  - rewrite (app_assoc (le_bytes 2 ty)), get16_app by done. by apply s16_u16.
  - rewrite (app_assoc (le_bytes 2 ty)), (app_assoc (le_bytes 2 ty ++ _)), get16_app by done. by apply s16_u16.
  - rewrite (app_assoc (le_bytes 2 ty)), (app_assoc (le_bytes 2 ty ++ _)), (app_assoc ((le_bytes 2 ty ++ _) ++ _)),
      get32_app by done. by apply u32_id.
  - rewrite (app_assoc (le_bytes 2 ty)), (app_assoc (le_bytes 2 ty ++ _)), (app_assoc ((le_bytes 2 ty ++ _) ++ _)),
      (app_assoc (((le_bytes 2 ty ++ _) ++ _) ++ _)).
    apply list_eq. intros i. destruct (decide (i < 13)%nat) as [Hi|Hi].
    + rewrite list_lookup_fmap, lookup_seq_lt by done. cbn [fmap option_fmap option_map].
      destruct (lookup_lt_is_Some_2 ad i) as [x Hx]; [lia|]. rewrite Hx. f_equal.
      apply (get32_concat _ ad i x 12); [done|done|]. rewrite Forall_lookup in H7. by apply (H7 i).
    + rewrite !lookup_ge_None_2; [done|lia|]. rewrite length_map, length_seq. lia.
Qed.

Lemma slot_bound inum : (Z.to_nat (inum mod IPB) * DINODE_SZ + DINODE_SZ <= 512)%nat.
Proof. unfold IPB, DINODE_SZ. pose proof (Z.mod_pos_bound inum 8). lia. Qed.

Lemma dinode_get_put blk inum di : block_ok blk -> dinode_ok di ->
  dinode_get (dinode_put blk inum di) inum = di.
Proof.
  intros [Hl _] Hd. unfold dinode_get, dinode_put. pose proof (slot_bound inum).
  pose proof (length_dinode_bytes di (dk_len _ Hd)) as Hld.
  rewrite slice_splice_eq; [by apply dinode_roundtrip|lia|done].
Qed.

Lemma dinode_get_put_ne blk inum inum' di : block_ok blk -> length (di_addrs di) = 13%nat ->
  inum mod IPB <> inum' mod IPB -> dinode_get (dinode_put blk inum di) inum' = dinode_get blk inum'.
Proof.
  intros [Hl _] Hd Hne. unfold dinode_get, dinode_put. pose proof (slot_bound inum). pose proof (slot_bound inum').
  pose proof (length_dinode_bytes di Hd) as Hld. unfold IPB, DINODE_SZ in *.
  pose proof (Z.mod_pos_bound inum 8). pose proof (Z.mod_pos_bound inum' 8).
  destruct (decide (inum mod 8 < inum' mod 8)).
  - rewrite slice_splice_gt; [done|lia|lia].
  - rewrite slice_splice_lt; [done|lia|lia].
Qed.

Lemma dinode_put_ok blk inum di : block_ok blk -> length (di_addrs di) = 13%nat -> block_ok (dinode_put blk inum di).
Proof.
  intros [Hl Hb] Hd. unfold dinode_put. pose proof (slot_bound inum). pose proof (length_dinode_bytes di Hd).
  split; [rewrite length_splice; lia|]. apply Forall_splice; [done|apply dinode_bytes_ok].
Qed.

Lemma length_sb_bytes sb : length (sb_bytes sb) = 28%nat.
Proof. unfold sb_bytes. by rewrite !length_app, !length_le_bytes. Qed.

Definition sb_fields_ok (sb : superblock) : Prop :=
  uint_ok (sb_size sb) /\ uint_ok (sb_nblocks sb) /\ uint_ok (sb_ninodes sb) /\ uint_ok (sb_nlog sb) /\
  uint_ok (sb_logstart sb) /\ uint_ok (sb_inodestart sb) /\ uint_ok (sb_bmapstart sb).

Lemma sb_roundtrip sb rest : sb_fields_ok sb -> sb_of_bytes (sb_bytes sb ++ rest) = sb.
Proof.
  destruct sb as [a b c d e f g]. intros (H1 & H2 & H3 & H4 & H5 & H6 & H7).
  cbn [sb_size sb_nblocks sb_ninodes sb_nlog sb_logstart sb_inodestart sb_bmapstart] in *.
  unfold sb_of_bytes, sb_bytes. cbn [sb_size sb_nblocks sb_ninodes sb_nlog sb_logstart sb_inodestart sb_bmapstart].
  rewrite <- !app_assoc.
  f_equal.
  - rewrite get32_hd. by apply u32_id.
  - rewrite get32_app by done. by apply u32_id.
  - rewrite (app_assoc (le_bytes 4 a)), get32_app by done. by apply u32_id.
  - rewrite (app_assoc (le_bytes 4 a)), (app_assoc (_ ++ le_bytes 4 b)), get32_app by done. by apply u32_id.
  - rewrite (app_assoc (le_bytes 4 a)), (app_assoc (_ ++ le_bytes 4 b)), (app_assoc (_ ++ le_bytes 4 c)),
      get32_app by done. by apply u32_id.
  - rewrite (app_assoc (le_bytes 4 a)), (app_assoc (_ ++ le_bytes 4 b)), (app_assoc (_ ++ le_bytes 4 c)),
      (app_assoc (_ ++ le_bytes 4 d)), get32_app by done. by apply u32_id.
  - rewrite (app_assoc (le_bytes 4 a)), (app_assoc (_ ++ le_bytes 4 b)), (app_assoc (_ ++ le_bytes 4 c)),
      (app_assoc (_ ++ le_bytes 4 d)), (app_assoc (_ ++ le_bytes 4 e)), get32_app by done. by apply u32_id.
Qed.

Lemma dirent_roundtrip de : 0 <= de_inum de < 65536 -> length (de_name de) = DIRSIZ ->
  dirent_of_bytes (dirent_bytes de) = de.
Proof.
  destruct de as [n nm]. cbn [de_inum de_name]. intros Hn Hl. unfold dirent_of_bytes, dirent_bytes. cbn [de_inum de_name]. f_equal.
  - rewrite get16_hd. by apply Z.mod_small.
  - unfold slice. rewrite drop_app_length', take_ge by (rewrite ?length_le_bytes; lia). done.
Qed.

Lemma length_dirent_bytes de : length (de_name de) = DIRSIZ -> length (dirent_bytes de) = DIRENT_SZ.
Proof. intros H. unfold dirent_bytes. by rewrite length_app, length_le_bytes, H. Qed.
