(* ===== verification/Bio.v ===== *)
(** * The buffer cache (bio.c, buf.h) over a disk driver (memide.c)

    [bcache] keeps the NBUF buffers and the list head of [struct bcache] with
    their [prev]/[next] links, and the disk underneath.  [Dll] shows that the
    links always form one circular list over all buffers; [view] is the block
    contents a client sees, the cached copy where there is one and the disk
    elsewhere, and every operation is specified by what it does to it. *)

From S2P Require Import Prelude.
From S2P Require Import Params.

(** ** The disk *)

Definition bkey : Type := Z * Z.     (* device and block number *)

(** [d_img] is what the platter holds; [d_trace] is every block write it has
    completed, in order. *)
Record disk := mkdisk {
  d_img : gmap (Z * Z) (list Z);
  d_trace : list (bkey * list Z)
}.

Definition img_get (m : gmap (Z * Z) (list Z)) (k : bkey) : list Z := default zero_block (m !! k).
Definition dread (d : disk) (k : bkey) : list Z := img_get (d_img d) k.
Definition dwrite (d : disk) (k : bkey) (x : list Z) : disk :=
  mkdisk (<[k := x]> (d_img d)) (d_trace d ++ [(k, x)]).

(** ** struct buf and struct bcache *)

Record buf := mkbuf {
  b_flags : Z;
  b_dev : Z;
  b_blockno : Z;
  b_prev : nat;       (* LRU cache list: indices of bcache.buf, NBUF is &bcache.head *)
  b_next : nat;
  b_data : list Z
}.

Definition set_flags (f : Z) (b : buf) : buf :=
  mkbuf f (b_dev b) (b_blockno b) (b_prev b) (b_next b) (b_data b).
Definition set_prev (p : nat) (b : buf) : buf :=
  mkbuf (b_flags b) (b_dev b) (b_blockno b) p (b_next b) (b_data b).
Definition set_next (n : nat) (b : buf) : buf :=
  mkbuf (b_flags b) (b_dev b) (b_blockno b) (b_prev b) n (b_data b).
Definition set_bdata (d : list Z) (b : buf) : buf :=
  mkbuf (b_flags b) (b_dev b) (b_blockno b) (b_prev b) (b_next b) d.
Definition set_id (dev blockno flags : Z) (b : buf) : buf :=
  mkbuf flags dev blockno (b_prev b) (b_next b) (b_data b).

Definition b_key (b : buf) : bkey := (b_dev b, b_blockno b).
Definition busy (b : buf) : bool := test (b_flags b) B_BUSY.
Definition valid (b : buf) : bool := test (b_flags b) B_VALID.
Definition dirty (b : buf) : bool := test (b_flags b) B_DIRTY.

Definition HEAD : nat := NBUF.
Definition nobuf : buf := mkbuf 0 0 0 0 0 zero_block.
Definition NODEV : Z := 4294967295.   (* (uint)-1 *)

Record bcache := mkbcache {
  bufs : list buf;              (* bcache.buf[0..NBUF-1], then bcache.head *)
  bdisk : disk;
  bwoken : list chan            (* channels passed to wakeup() *)
}.

Definition getb (s : bcache) (i : nat) : buf := nth i (bufs s) nobuf.
Definition upd_buf (i : nat) (f : buf -> buf) (s : bcache) : bcache :=
  mkbcache (alter f i (bufs s)) (bdisk s) (bwoken s).
Definition with_disk (d : disk) (s : bcache) : bcache := mkbcache (bufs s) d (bwoken s).
Definition bwakeup (c : chan) (s : bcache) : bcache := mkbcache (bufs s) (bdisk s) (bwoken s ++ [c]).

(** ** The disk driver

    bio.c is written against [iderw], which either of ide.c and memide.c
    provides.  A driver is a routine on the disk that syncs one buffer;
    [drv_ok] is the contract in the comment above both implementations. *)
Class Driver := {
  iderw : buf -> M disk buf;
  accepts : bkey -> Prop
}.

Class DriverOk (D : Driver) : Prop := {
  iderw_write : forall b d, busy b = true -> dirty b = true -> accepts (b_key b) ->
    iderw b d = Done (set_flags (Z.lor (Z.land (b_flags b) (Z.lnot B_DIRTY)) B_VALID) b)
                     (dwrite d (b_key b) (b_data b));
  iderw_read : forall b d, busy b = true -> dirty b = false -> valid b = false ->
    accepts (b_key b) ->
    iderw b d = Done (set_flags (Z.lor (b_flags b) B_VALID) (set_bdata (dread d (b_key b)) b)) d
}.

(** memide.c: [disksize] is the number of blocks of the linked-in image. *)
Module Memide.
Definition iderw (disksize : Z) (b : buf) : M disk buf :=
  if negb (busy b) then panic "iderw: buf not busy"
  else if Z.land (b_flags b) (Z.lor B_VALID B_DIRTY) =? B_VALID then panic "iderw: nothing to do"
  else if negb (b_dev b =? 1) then panic "iderw: request not for disk 1"
  else if b_blockno b >=? disksize then panic "iderw: block out of range"
  else if dirty b then
    let b1 := set_flags (Z.land (b_flags b) (Z.lnot B_DIRTY)) b in
    modify (fun d => dwrite d (b_key b) (b_data b1)) ;;;
    ret (set_flags (Z.lor (b_flags b1) B_VALID) b1)
  else
    d <- get ;;
    let b1 := set_bdata (dread d (b_key b)) b in
    ret (set_flags (Z.lor (b_flags b1) B_VALID) b1).

(** ideinit: memdisk and disksize, from the linker's symbols.  There are no
    interrupts. *)
Definition ideinit (fs_img_start fs_img_size : Z) : Z * Z := (fs_img_start, u32 fs_img_size / BSIZE).
Definition ideintr : M disk unit := ret tt.

Definition driver (disksize : Z) : Driver :=
  Build_Driver (iderw disksize) (fun k => fst k = 1 /\ 0 <= snd k < disksize).
End Memide.

(** ** bio.c *)

Section Bio.
Context {D : Driver}.

Definition binit_step (s : bcache) (b : nat) : bcache :=
  let s := upd_buf b (set_next (b_next (getb s HEAD))) s in
  let s := upd_buf b (set_prev HEAD) s in
  let s := upd_buf b (fun x => mkbuf (b_flags x) NODEV (b_blockno x) (b_prev x) (b_next x) (b_data x)) s in
  let s := upd_buf (b_next (getb s HEAD)) (set_prev b) s in
  upd_buf HEAD (set_next b) s.

(** The statically zeroed [struct bcache] and the list [binit] builds in it. *)
Definition binit (d : disk) : bcache :=
  let s := mkbcache (replicate (S NBUF) nobuf) d [] in
  let s := upd_buf HEAD (set_prev HEAD) s in
  let s := upd_buf HEAD (set_next HEAD) s in
  fold_left binit_step (seq 0 NBUF) s.

(** [for(b = p; b != &bcache.head; b = step b) if(f b) ...]: the first buffer
    of the walk that satisfies [f]. *)
Fixpoint walk (fuel : nat) (s : bcache) (step : buf -> nat) (f : buf -> bool) (p : nat) : option nat :=
  match fuel with
  | O => None
  | S fuel' =>
      if decide (p = HEAD) then None
      else if f (getb s p) then Some p
      else walk fuel' s step f (step (getb s p))
  end.

Definition bget (dev blockno : Z) : M bcache nat :=
  s <- get ;;
  match walk (S NBUF) s b_next (fun b => (b_dev b =? dev) && (b_blockno b =? blockno))
             (b_next (getb s HEAD)) with
  | Some i =>
      if busy (getb s i) then sleep_on (ChBuf i)
      else modify (upd_buf i (fun b => set_flags (Z.lor (b_flags b) B_BUSY) b)) ;;; ret i
  | None =>
      match walk (S NBUF) s b_prev (fun b => negb (busy b) && negb (dirty b))
                 (b_prev (getb s HEAD)) with
      | Some i => modify (upd_buf i (set_id dev blockno B_BUSY)) ;;; ret i
      | None => panic "bget: no buffers"
      end
  end.

(** Run the driver on buffer [i]. *)
Definition bio_iderw (i : nat) : M bcache unit := fun s =>
  match iderw (getb s i) (bdisk s) with
  | Done b d => Done tt (with_disk d (upd_buf i (fun _ => b) s))
  | Panic msg => Panic msg
  | Sleep c d => Sleep c (with_disk d s)
  end.

Definition bread (dev blockno : Z) : M bcache nat :=
  i <- bget dev blockno ;;
  s <- get ;;
  (if negb (valid (getb s i)) then bio_iderw i else ret tt) ;;;
  ret i.

Definition bwrite (i : nat) : M bcache unit :=
  s <- get ;;
  if negb (busy (getb s i)) then panic "bwrite"
  else modify (upd_buf i (fun b => set_flags (Z.lor (b_flags b) B_DIRTY) b)) ;;; bio_iderw i.

Definition brelse (i : nat) : M bcache unit :=
  s <- get ;;
  if negb (busy (getb s i)) then panic "brelse"
  else
    modify (fun s => upd_buf (b_next (getb s i)) (set_prev (b_prev (getb s i))) s) ;;;
    modify (fun s => upd_buf (b_prev (getb s i)) (set_next (b_next (getb s i))) s) ;;;
    modify (fun s => upd_buf i (set_next (b_next (getb s HEAD))) s) ;;;
    modify (upd_buf i (set_prev HEAD)) ;;;
    modify (fun s => upd_buf (b_next (getb s HEAD)) (set_prev i) s) ;;;
    modify (upd_buf HEAD (set_next i)) ;;;
    modify (upd_buf i (fun b => set_flags (Z.land (b_flags b) (Z.lnot B_BUSY)) b)) ;;;
    modify (bwakeup (ChBuf i)).

(** A holder of buffer [i] stores [d] in its data. *)
Definition set_data (i : nat) (d : list Z) : M bcache unit := modify (upd_buf i (set_bdata d)).
Definition bdata (i : nat) : M bcache (list Z) := gets (fun s => b_data (getb s i)).

End Bio.

(** ** The memide driver keeps the contract of [iderw] *)

#[export] Instance memide_ok (disksize : Z) : DriverOk (Memide.driver disksize).
Proof.
  split; intros b d Hbusy; cbn [iderw Memide.driver accepts].
  - intros Hd [Hdev Hblk]. cbn in Hdev, Hblk. unfold Memide.iderw. rewrite Hbusy, Hd. cbn [negb].
    destruct (Z.eqb_spec (Z.land (b_flags b) (Z.lor B_VALID B_DIRTY)) B_VALID) as [He|He].
    { exfalso. assert (Hb : Z.testbit (Z.land (b_flags b) (Z.lor B_VALID B_DIRTY)) 2 = false) by (rewrite He; done).
      rewrite Z.land_spec in Hb. unfold dirty, B_DIRTY in Hd. rewrite test_4 in Hd. rewrite Hd in Hb. done. }
    rewrite Hdev, Z.eqb_refl. cbn [negb].
    destruct (Z.geb_spec (b_blockno b) disksize); [lia|]. done.
  - intros Hd Hv [Hdev Hblk]. cbn in Hdev, Hblk. unfold Memide.iderw. rewrite Hbusy, Hd. cbn [negb].
    destruct (Z.eqb_spec (Z.land (b_flags b) (Z.lor B_VALID B_DIRTY)) B_VALID) as [He|He].
    { exfalso. assert (Hb : Z.testbit (Z.land (b_flags b) (Z.lor B_VALID B_DIRTY)) 1 = true) by (rewrite He; done).
      rewrite Z.land_spec in Hb. unfold valid, B_VALID in Hv. rewrite test_2 in Hv. rewrite Hv in Hb. done. }
    rewrite Hdev, Z.eqb_refl. cbn [negb].
    destruct (Z.geb_spec (b_blockno b) disksize); [lia|]. done.
Qed.

(** ** Circular lists threaded through a successor function *)

Module Dll.

(** From [x] the successor function visits [l] and then [y]. *)
Fixpoint chain (nx : nat -> nat) (x : nat) (l : list nat) (y : nat) : Prop :=
  match l with
  | [] => nx x = y
  | z :: l' => nx x = z /\ chain nx z l' y
  end.

Definition fupd (f : nat -> nat) (i v : nat) : nat -> nat := fun j => if decide (j = i) then v else f j.

Lemma fupd_eq f i v : fupd f i v i = v.
Proof. unfold fupd. by rewrite decide_True. Qed.
Lemma fupd_ne f i v j : j <> i -> fupd f i v j = f j.
Proof. intros H. unfold fupd. by rewrite decide_False. Qed.

Lemma fupd_ext f g i v j : f j = g j -> fupd f i v j = fupd g i v j.
Proof. intros H. unfold fupd. by rewrite H. Qed.

Lemma chain_ext nx nx' x l y :
  (forall z, z ∈ x :: l -> nx z = nx' z) -> chain nx x l y -> chain nx' x l y.
Proof.
  revert x. induction l as [|z l IH]; intros x He; cbn.
  - intros <-. symmetry. apply He. set_solver.
  - intros [H1 H2]. split; [rewrite <- H1; symmetry; apply He; set_solver|].
    apply IH; [|done]. intros w Hw. apply He. set_solver.
Qed.

Lemma chain_app nx x l1 z l2 y :
  chain nx x (l1 ++ z :: l2) y <-> chain nx x l1 z /\ chain nx z l2 y.
Proof.
  revert x. induction l1 as [|w l1 IH]; intros x; cbn; [done|].
  rewrite IH. tauto.
Qed.

Lemma chain_hd nx x l y : chain nx x l y -> nx x = List.hd y l.
Proof. destruct l; cbn; tauto. Qed.

Lemma chain_end nx x l y : chain nx x l y -> nx (List.last l x) = y.
Proof.
  revert x. induction l as [|z l IH]; intros x; cbn [chain].
  - done.
  - intros [_ H]. specialize (IH _ H). destruct l; [done|].
    replace (List.last (z :: n :: l) x) with (List.last (n :: l) z); [done|].
    clear. revert n. induction l as [|m l IH]; intros n; [done|]. cbn in *. apply IH.
Qed.

Lemma last_in (x : nat) l : List.last l x ∈ x :: l.
Proof.
  revert x. induction l as [|z l IH]; intros x; [set_solver|].
  destruct l as [|w l]; [set_solver|].
  specialize (IH x). change (List.last (z :: w :: l) x) with (List.last (w :: l) x). set_solver.
Qed.

(** Redirecting the last link of a chain. *)
Lemma chain_redirect nx x l y y' :
  NoDup (x :: l) -> chain nx x l y -> chain (fupd nx (List.last l x) y') x l y'.
Proof.
  revert x. induction l as [|z l IH]; intros x Hnd; cbn [chain].
  - intros _. apply fupd_eq.
  - intros [H1 H2]. apply NoDup_cons in Hnd as [Hx Hnd].
    assert (Hl : List.last (z :: l) x = List.last l z).
    { clear. revert z. induction l as [|w l IH]; intros z; [done|].
      change (List.last (z :: w :: l) x) with (List.last (w :: l) x).
      rewrite IH. destruct l; [done|]. cbn. clear. revert n. induction l; intros; [done|]. cbn in *. auto. }
    rewrite Hl. split.
    + rewrite fupd_ne; [done|]. intros E. apply Hx. rewrite E. apply last_in.
    + apply IH; done.
Qed.

Lemma chain_unlink nx x l1 i l2 :
  NoDup (x :: l1 ++ i :: l2) -> chain nx x (l1 ++ i :: l2) x ->
  chain (fupd nx (List.last l1 x) (nx i)) x (l1 ++ l2) x.
Proof.
  intros Hnd [H1 H2]%chain_app.
  assert (Hnd1 : NoDup (x :: l1)).
  { apply (NoDup_app (x :: l1) (i :: l2)). done. }
  assert (Hd : forall z, z ∈ x :: l1 -> z ∉ i :: l2).
  { apply (NoDup_app (x :: l1) (i :: l2)). done. }
  destruct l2 as [|z l2].
  - rewrite app_nil_r. cbn in H2. rewrite H2. by eapply chain_redirect.
  - cbn in H2. destruct H2 as [H2 H3]. apply chain_app. split.
    + rewrite H2. by eapply chain_redirect.
    + eapply chain_ext; [|done]. intros w Hw. rewrite fupd_ne; [done|].
      intros ->. apply (Hd _ (last_in x l1)). set_solver.
Qed.

Lemma chain_push nx x l i :
  i <> x -> i ∉ l -> x ∉ l -> chain nx x l x -> chain (fupd (fupd nx i (nx x)) x i) x (i :: l) x.
Proof.
  intros Hi Hl Hx H. split; [apply fupd_eq|].
  destruct l as [|z l]; cbn in *.
  - rewrite fupd_ne, fupd_eq; done.
  - destruct H as [H1 H2]. split; [rewrite fupd_ne, fupd_eq; done|].
    eapply chain_ext; [|done]. intros w Hw. rewrite !fupd_ne; [done| |]; intros ->; set_solver.
Qed.

Lemma chain_push_end nx x l i :
  i <> x -> i ∉ l -> NoDup (x :: l) -> chain nx x l x ->
  chain (fupd (fupd nx i x) (List.last l x) i) x (l ++ [i]) x.
Proof.
  intros Hi Hl Hnd H. pose proof (last_in x l) as Hlast. apply chain_app. split.
  - eapply chain_redirect; [done|].
    eapply chain_ext; [|done]. intros w Hw. rewrite fupd_ne; [done|]. intros ->. set_solver.
  - cbn. rewrite fupd_ne, fupd_eq; [done|]. intros E. rewrite <- E in Hlast. set_solver.
Qed.

Lemma hd_last_rev (x : nat) l : List.hd x l = List.last (rev l) x.
Proof. destruct l; [done|]. cbn. by rewrite List.last_last. Qed.

(** A circular doubly linked list through [x] and [l]. *)
Definition ring (nx pv : nat -> nat) (x : nat) (l : list nat) : Prop :=
  chain nx x l x /\ chain pv x (rev l) x /\ NoDup (x :: l).

Lemma rev_elem (z : nat) l : z ∈ rev l <-> z ∈ l.
Proof. rewrite !list_elem_of_In. symmetry. apply in_rev. Qed.

Lemma ring_ext nx pv nx' pv' x l :
  (forall j, nx j = nx' j) -> (forall j, pv j = pv' j) -> ring nx pv x l -> ring nx' pv' x l.
Proof.
  intros Hn Hp (H1 & H2 & H3). split; [|split; [|done]]; eapply chain_ext; eauto.
Qed.

Lemma ring_nbrs nx pv x l1 i l2 :
  ring nx pv x (l1 ++ i :: l2) ->
  nx i = List.last (rev l2) x /\ pv i = List.last l1 x.
Proof.
  intros (Hn & Hp & _). rewrite rev_app_distr in Hp. cbn [rev] in Hp. rewrite <- app_assoc in Hp.
  apply chain_app in Hn as [_ Hn]. apply chain_app in Hp as [_ Hp]. split.
  - rewrite <- hd_last_rev. by apply chain_hd.
  - rewrite (chain_hd _ _ _ _ Hp), hd_last_rev. by rewrite rev_involutive.
Qed.

Lemma ring_first nx pv x l : ring nx pv x l -> nx x = List.last (rev l) x.
Proof. intros (Hn & _). rewrite <- hd_last_rev. by apply chain_hd. Qed.

Lemma ring_in nx pv x l i :
  ring nx pv x l -> i ∈ x :: l -> nx i ∈ x :: l /\ (i <> x -> pv i ∈ x :: l).
Proof.
  intros H Hi. apply elem_of_cons in Hi as [->|Hi].
  - split; [|done]. rewrite (ring_first _ _ _ _ H). pose proof (last_in x (rev l)) as Hl.
    rewrite elem_of_cons, rev_elem in Hl. set_solver.
  - apply list_elem_of_split in Hi as (l1 & l2 & ->).
    destruct (ring_nbrs _ _ _ _ _ _ H) as [-> ->].
    pose proof (last_in x (rev l2)) as H2. pose proof (last_in x l1) as H1.
    rewrite elem_of_cons, rev_elem in H2. split; [|intros _]; set_solver.
Qed.

Lemma ring_unlink nx pv x l1 i l2 :
  ring nx pv x (l1 ++ i :: l2) ->
  ring (fupd nx (pv i) (nx i)) (fupd pv (nx i) (pv i)) x (l1 ++ l2) /\ i ∉ x :: l1 ++ l2.
Proof.
  intros H. destruct (ring_nbrs _ _ _ _ _ _ H) as [En Ep]. destruct H as (Hn & Hp & Hnd).
  assert (Hp' := Hp). rewrite rev_app_distr in Hp'. cbn [rev] in Hp'. rewrite <- app_assoc in Hp'.
  assert (Hnd' : NoDup (x :: rev l2 ++ i :: rev l1)).
  { assert (x :: rev l2 ++ i :: rev l1 ≡ₚ x :: l1 ++ i :: l2) as ->; [|done].
    rewrite <- !Permutation_rev. solve_Permutation. }
  pose proof (chain_unlink _ _ _ _ _ Hnd Hn) as Hun.
  pose proof (chain_unlink _ _ _ _ _ Hnd' Hp') as Hup.
  rewrite <- Ep in Hun. rewrite <- En in Hup. rewrite <- rev_app_distr in Hup.
  apply NoDup_cons in Hnd as [Ha Hb]. apply NoDup_app in Hb as (Hb1 & Hb2 & Hb3).
  apply NoDup_cons in Hb3 as [Hb3 Hb4].
  split; [|set_solver]. split; [done|]. split; [done|].
  apply NoDup_cons. split; [set_solver|]. apply NoDup_app. set_solver.
Qed.

Lemma ring_push nx pv x l i :
  ring nx pv x l -> i ∉ x :: l ->
  ring (fupd (fupd nx i (nx x)) x i) (fupd (fupd pv i x) (nx x) i) x (i :: l).
Proof.
  intros H Hi. assert (Hx := ring_first _ _ _ _ H). destruct H as (Hn & Hp & Hnd).
  split; [|split].
  - apply chain_push; [set_solver|set_solver| |done]. by apply NoDup_cons in Hnd as [? _].
  - rewrite Hx. cbn [rev]. apply chain_push_end; [set_solver| | |done].
    + rewrite rev_elem. set_solver.
    + assert (x :: rev l ≡ₚ x :: l) as ->; [|done]. by rewrite <- Permutation_rev.
  - apply NoDup_cons in Hnd as [? ?]. apply NoDup_cons. split; [set_solver|].
    apply NoDup_cons. split; [set_solver|done].
Qed.

End Dll.

(** ** Reading and updating buffers *)

Lemma bufs_upd s i f : bufs (upd_buf i f s) = alter f i (bufs s).
Proof. done. Qed.

Lemma getb_lookup s i b : bufs s !! i = Some b -> getb s i = b.
Proof. intros H. unfold getb. apply nth_lookup_Some. done. Qed.

Lemma lookup_getb s i : (i < length (bufs s))%nat -> bufs s !! i = Some (getb s i).
Proof. intros H. unfold getb. destruct (nth_lookup_or_length (bufs s) i nobuf); [done|lia]. Qed.

Lemma getb_upd_eq s i f : (i < length (bufs s))%nat -> getb (upd_buf i f s) i = f (getb s i).
Proof.
  intros H. apply getb_lookup. rewrite bufs_upd, list_lookup_alter_eq.
  by rewrite lookup_getb.
Qed.

Lemma getb_upd_ne s i j f : i <> j -> getb (upd_buf i f s) j = getb s j.
Proof.
  intros H. unfold getb. rewrite !nth_lookup, bufs_upd.
  by rewrite list_lookup_alter_ne.
Qed.

Lemma length_upd s i f : length (bufs (upd_buf i f s)) = length (bufs s).
Proof. apply length_alter. Qed.

(** The part of a buffer that is not a list link. *)
Definition ctn (b : buf) : Z * Z * Z * list Z := (b_flags b, b_dev b, b_blockno b, b_data b).

(** [same_ctn s s' i]: buffer [i] differs at most in its links. *)
Definition same_ctn (s s' : bcache) (i : nat) : Prop := ctn (getb s' i) = ctn (getb s i).

Definition nextf (s : bcache) (i : nat) : nat := b_next (getb s i).
Definition prevf (s : bcache) (i : nat) : nat := b_prev (getb s i).

(** The LRU list: [dll s l] says that the links of [s] are one circular list
    through the head and the buffers [l], most recently used first, and that
    [l] holds every buffer once. *)
Definition dll (s : bcache) (l : list nat) : Prop :=
  length (bufs s) = S NBUF /\ Dll.ring (nextf s) (prevf s) HEAD l /\ l ≡ₚ seq 0 NBUF.

Lemma dll_in s l i : dll s l -> i ∈ l <-> (i < NBUF)%nat.
Proof.
  intros (_ & _ & Hp). rewrite Hp, elem_of_seq. lia.
Qed.

Lemma dll_NoDup s l : dll s l -> NoDup (HEAD :: l).
Proof. by intros (_ & (_ & _ & Hnd) & _). Qed.

Lemma dll_length s l : dll s l -> length l = NBUF.
Proof. intros (_ & _ & Hp). by rewrite Hp, length_seq. Qed.

(** Walking the links is searching the list. *)
Lemma walk_chain s step f l fuel x :
  Dll.chain (fun i => step (getb s i)) x l HEAD -> HEAD ∉ l -> (length l < fuel)%nat ->
  walk fuel s step f (step (getb s x)) = List.find (fun i => f (getb s i)) l.
Proof.
  revert fuel x. induction l as [|z l IH]; intros fuel x Hc Hh Hf; cbn [Dll.chain length List.find] in *;
    (destruct fuel as [|fuel]; [lia|]); cbn [walk].
  - rewrite Hc. by rewrite decide_True.
  - destruct Hc as [Hx Hc]. rewrite Hx.
    rewrite decide_False by (intros ->; set_solver).
    destruct (f (getb s z)); [done|]. apply IH; [done|set_solver|lia].
Qed.

Lemma walk_next s l f : dll s l ->
  walk (S NBUF) s b_next f (b_next (getb s HEAD)) = List.find (fun i => f (getb s i)) l.
Proof.
  intros H. pose proof (dll_NoDup _ _ H) as [Hh _]%NoDup_cons. pose proof (dll_length _ _ H).
  destruct H as (_ & (Hn & _ & _) & _). apply walk_chain; [done|done|lia].
Qed.

Lemma walk_prev s l f : dll s l ->
  walk (S NBUF) s b_prev f (b_prev (getb s HEAD)) = List.find (fun i => f (getb s i)) (rev l).
Proof.
  intros H. pose proof (dll_NoDup _ _ H) as [Hh _]%NoDup_cons. pose proof (dll_length _ _ H).
  destruct H as (_ & (_ & Hn & _) & _). apply walk_chain; [done| |rewrite length_rev; lia].
  by rewrite Dll.rev_elem.
Qed.

(** An update that leaves the links of a buffer alone keeps the list. *)
Lemma dll_upd s l i f :
  dll s l -> (forall b, b_next (f b) = b_next b /\ b_prev (f b) = b_prev b) -> dll (upd_buf i f s) l.
Proof.
  intros (Hl & Hr & Hperm) Hf.
  assert (He : forall j, nextf (upd_buf i f s) j = nextf s j /\ prevf (upd_buf i f s) j = prevf s j).
  { intros j. unfold nextf, prevf. destruct (decide (i = j)) as [<-|Hne].
    - destruct (decide (i < length (bufs s))%nat).
      + rewrite getb_upd_eq by done. apply Hf.
      + unfold getb. rewrite !nth_overflow by (rewrite ?length_upd; lia). done.
    - by rewrite getb_upd_ne. }
  split; [by rewrite length_upd|]. split; [|done].
  eapply Dll.ring_ext; [| |done]; intros j; symmetry; apply He.
Qed.

Lemma getb_upd s i f j :
  (i < length (bufs s))%nat -> getb (upd_buf i f s) j = if decide (j = i) then f (getb s i) else getb s j.
Proof.
  intros H. case_decide as E; [subst; by apply getb_upd_eq|by apply getb_upd_ne].
Qed.

Lemma nextf_set_prev s i v j : (i < length (bufs s))%nat -> nextf (upd_buf i (set_prev v) s) j = nextf s j.
Proof. intros H. unfold nextf. rewrite getb_upd by done. case_decide; by subst. Qed.
Lemma prevf_set_next s i v j : (i < length (bufs s))%nat -> prevf (upd_buf i (set_next v) s) j = prevf s j.
Proof. intros H. unfold prevf. rewrite getb_upd by done. case_decide; by subst. Qed.
Lemma nextf_set_next s i v j :
  (i < length (bufs s))%nat -> nextf (upd_buf i (set_next v) s) j = Dll.fupd (nextf s) i v j.
Proof. intros H. unfold nextf, Dll.fupd. rewrite getb_upd by done. by case_decide. Qed.
Lemma prevf_set_prev s i v j :
  (i < length (bufs s))%nat -> prevf (upd_buf i (set_prev v) s) j = Dll.fupd (prevf s) i v j.
Proof. intros H. unfold prevf, Dll.fupd. rewrite getb_upd by done. by case_decide. Qed.
Lemma ctn_set_prev s i v j : (i < length (bufs s))%nat -> ctn (getb (upd_buf i (set_prev v) s) j) = ctn (getb s j).
Proof. intros H. rewrite getb_upd by done. case_decide; by subst. Qed.
Lemma ctn_set_next s i v j : (i < length (bufs s))%nat -> ctn (getb (upd_buf i (set_next v) s) j) = ctn (getb s j).
Proof. intros H. rewrite getb_upd by done. case_decide; by subst. Qed.

(** Moving a buffer to the front of the list, as [brelse] does with six link
    assignments. *)
Definition lru_touch (i : nat) (l : list nat) : list nat := i :: filter (fun j => j <> i) l.

Definition relink (i : nat) (s : bcache) : bcache :=
  let s := upd_buf (b_next (getb s i)) (set_prev (b_prev (getb s i))) s in
  let s := upd_buf (b_prev (getb s i)) (set_next (b_next (getb s i))) s in
  let s := upd_buf i (set_next (b_next (getb s HEAD))) s in
  let s := upd_buf i (set_prev HEAD) s in
  let s := upd_buf (b_next (getb s HEAD)) (set_prev i) s in
  upd_buf HEAD (set_next i) s.

Lemma lru_touch_app l1 (i : nat) l2 : NoDup (l1 ++ i :: l2) -> lru_touch i (l1 ++ i :: l2) = i :: l1 ++ l2.
Proof.
  intros Hnd. unfold lru_touch. f_equal.
  assert (Hall : forall l : list nat, i ∉ l -> filter (fun j : nat => j <> i) l = l).
  { induction l as [|z l IH]; intros Hi; [done|]. rewrite filter_cons, decide_True by set_solver.
    f_equal. apply IH. set_solver. }
  apply NoDup_app in Hnd as (H1 & H2 & H3). apply NoDup_cons in H3 as [H3 H4].
  rewrite filter_app, filter_cons, decide_False by tauto.
  rewrite !Hall; [done|done|]. intros Hi. apply (H2 i Hi). set_solver.
Qed.

(** The link functions after the six assignments. *)
Lemma relink_links s i :
  length (bufs s) = S NBUF -> (i < NBUF)%nat -> (nextf s i <= NBUF)%nat -> (prevf s i <= NBUF)%nat ->
  let nx1 := Dll.fupd (nextf s) (prevf s i) (nextf s i) in
  let pv1 := Dll.fupd (prevf s) (nextf s i) (prevf s i) in
  (nx1 HEAD <= NBUF)%nat ->
  (forall j, nextf (relink i s) j = Dll.fupd (Dll.fupd nx1 i (nx1 HEAD)) HEAD i j) /\
  (forall j, prevf (relink i s) j = Dll.fupd (Dll.fupd pv1 i HEAD) (nx1 HEAD) i j) /\
  length (bufs (relink i s)) = S NBUF /\ (forall j, same_ctn s (relink i s) j).
Proof.
  intros Hlen Hi Hni Hpi nx1 pv1 Hh. unfold relink. fold (nextf s i) (prevf s i).
  assert (HiH : HEAD <> i) by (unfold HEAD; lia).
  assert (HH : (HEAD < S NBUF)%nat) by (unfold HEAD; lia).
  set (s1 := upd_buf (nextf s i) (set_prev (prevf s i)) s).
  assert (Hl1 : length (bufs s1) = S NBUF) by (unfold s1; by rewrite length_upd).
  assert (Hn1 : forall j, nextf s1 j = nextf s j) by (intros; apply nextf_set_prev; lia).
  assert (Hp1 : forall j, prevf s1 j = pv1 j) by (intros; apply prevf_set_prev; lia).
  assert (Hp1i : prevf s1 i = prevf s i) by (rewrite Hp1; unfold pv1, Dll.fupd; by case_decide).
  fold (nextf s1 i) (prevf s1 i). rewrite Hn1, Hp1i.
  set (s2 := upd_buf (prevf s i) (set_next (nextf s i)) s1).
  assert (Hl2 : length (bufs s2) = S NBUF) by (unfold s2; by rewrite length_upd).
  assert (Hn2 : forall j, nextf s2 j = nx1 j).
  { intros j. unfold s2. rewrite nextf_set_next by lia. unfold nx1, Dll.fupd. by rewrite Hn1. }
  assert (Hp2 : forall j, prevf s2 j = pv1 j) by (intros; unfold s2; by rewrite prevf_set_next by lia).
  fold (nextf s2 HEAD). rewrite Hn2.
  set (s4 := upd_buf i (set_prev HEAD) (upd_buf i (set_next (nx1 HEAD)) s2)).
  assert (Hl4 : length (bufs s4) = S NBUF) by (unfold s4; by rewrite !length_upd).
  assert (Hn4 : forall j, nextf s4 j = Dll.fupd nx1 i (nx1 HEAD) j).
  { intros j. unfold s4. rewrite nextf_set_prev, nextf_set_next by (rewrite ?length_upd; lia).
    unfold Dll.fupd. by rewrite Hn2. }
  assert (Hp4 : forall j, prevf s4 j = Dll.fupd pv1 i HEAD j).
  { intros j. unfold s4. rewrite prevf_set_prev by (rewrite length_upd; lia). unfold Dll.fupd.
    by rewrite prevf_set_next, Hp2 by lia. }
  fold (nextf s4 HEAD). rewrite Hn4, Dll.fupd_ne by done. split; [|split; [|split]].
  - intros j. rewrite nextf_set_next by (rewrite length_upd; lia).
    apply Dll.fupd_ext. by rewrite nextf_set_prev, Hn4 by lia.
  - intros j. rewrite prevf_set_next, prevf_set_prev by (rewrite ?length_upd; lia).
    apply Dll.fupd_ext, Hp4.
  - by rewrite !length_upd.
  - intros j. unfold same_ctn. rewrite ctn_set_next, ctn_set_prev by (rewrite ?length_upd; lia).
    unfold s4. rewrite ctn_set_prev, ctn_set_next by (rewrite ?length_upd; lia).
    unfold s2, s1. by rewrite ctn_set_next, ctn_set_prev by (rewrite ?length_upd; lia).
Qed.

Lemma relink_spec s l i :
  dll s l -> (i < NBUF)%nat ->
  dll (relink i s) (lru_touch i l) /\ bdisk (relink i s) = bdisk s /\ (forall j, same_ctn s (relink i s) j).
Proof.
  intros Hdll Hi. assert (Hin : i ∈ l) by (by apply (dll_in s)).
  assert (Hrange : forall j, j ∈ HEAD :: l -> (j <= NBUF)%nat).
  { intros j [->|Hj]%elem_of_cons; [done|]. apply (dll_in _ _ _ Hdll) in Hj. lia. }
  assert (HiH : i <> HEAD) by (unfold HEAD; lia).
  destruct Hdll as (Hlen & Hr & Hperm).
  destruct (Dll.ring_in _ _ _ _ i Hr) as [Hn Hp]; [set_solver|].
  apply list_elem_of_split in Hin as (l1 & l2 & ->).
  destruct (Dll.ring_unlink _ _ _ _ _ _ Hr) as [Hr1 Hi1].
  assert (Hh : (Dll.fupd (nextf s) (prevf s i) (nextf s i) HEAD <= NBUF)%nat).
  { apply Hrange. destruct (Dll.ring_in _ _ _ _ HEAD Hr1) as [Hn' _]; set_solver. }
  destruct (relink_links s i) as (HN & HP & HL & HC); [done|done|by apply Hrange|by apply Hrange, Hp|done|].
  split; [|done]. rewrite lru_touch_app by (by destruct Hr as (_ & _ & [_ ?]%NoDup_cons)).
  split; [done|]. split; [|rewrite <- Hperm; solve_Permutation].
  eapply Dll.ring_ext; [symmetry; apply HN|symmetry; apply HP|]. by apply Dll.ring_push.
Qed.

(** ** The cache invariant and the client's view *)

Definition pinned (b : buf) : bool := busy b || dirty b.
Definition npin (s : bcache) : nat := length (List.filter (fun i => pinned (getb s i)) (seq 0 NBUF)).

Definition key_eqb (a b : bkey) : bool := (fst a =? fst b) && (snd a =? snd b).

(** What a client that locks block [k] finds in it. *)
Definition view (s : bcache) (k : bkey) : list Z :=
  match List.find (fun i => key_eqb (b_key (getb s i)) k && valid (getb s i)) (seq 0 NBUF) with
  | Some i => b_data (getb s i)
  | None => dread (bdisk s) k
  end.

Record bc_ok (s : bcache) : Prop := {
  bc_dll : exists l, dll s l;
  bc_uniq : forall i j, (i < NBUF)%nat -> (j < NBUF)%nat -> b_dev (getb s i) <> NODEV ->
    b_key (getb s i) = b_key (getb s j) -> i = j;
  bc_used : forall i, (i < NBUF)%nat -> busy (getb s i) = true \/ valid (getb s i) = true ->
    b_dev (getb s i) <> NODEV;
  bc_clean : forall i, (i < NBUF)%nat -> valid (getb s i) = true -> dirty (getb s i) = false ->
    busy (getb s i) = false -> b_data (getb s i) = dread (bdisk s) (b_key (getb s i));
  bc_dirty : forall i, (i < NBUF)%nat -> dirty (getb s i) = true -> valid (getb s i) = true;
  bc_data : forall i, (i < NBUF)%nat -> block_ok (b_data (getb s i));
  bc_img : forall k, block_ok (dread (bdisk s) k)
}.

(** Buffer [i] is held by the caller and is the copy of block [k]. *)
Definition held (s : bcache) (i : nat) (k : bkey) : Prop :=
  (i < NBUF)%nat /\ b_key (getb s i) = k /\ busy (getb s i) = true /\ valid (getb s i) = true.

Lemma key_eqb_eq a b : key_eqb a b = true <-> a = b.
Proof.
  destruct a as [a1 a2], b as [b1 b2]. unfold key_eqb. cbn.
  rewrite andb_true_iff, !Z.eqb_eq. split; [intros [-> ->]|intros [= -> ->]]; done.
Qed.

Lemma view_hit s i k :
  bc_ok s -> (i < NBUF)%nat -> b_key (getb s i) = k -> valid (getb s i) = true -> view s k = b_data (getb s i).
Proof.
  intros Hok Hi Hk Hv. unfold view.
  destruct (List.find _ (seq 0 NBUF)) as [j|] eqn:E.
  - apply find_seq_some in E as [Hj Hf]; cbv beta in Hf. apply andb_true_iff in Hf as [Hf1 Hf2]. apply key_eqb_eq in Hf1.
    assert (j = i) as ->; [|done]. eapply bc_uniq; [done|done|done| |congruence].
    apply bc_used; [done|done|by right].
  - apply (find_seq_none _ _ i) in E; [|done]; cbv beta in E. rewrite Hv, (proj2 (key_eqb_eq _ _) Hk) in E. done.
Qed.

Lemma view_miss s k :
  (forall i, (i < NBUF)%nat -> b_key (getb s i) = k -> valid (getb s i) = false) -> view s k = dread (bdisk s) k.
Proof.
  intros H. unfold view. destruct (List.find _ (seq 0 NBUF)) as [j|] eqn:E; [|done].
  apply find_seq_some in E as [Hj Hf]; cbv beta in Hf. apply andb_true_iff in Hf as [Hf1 Hf2]. apply key_eqb_eq in Hf1.
  by rewrite H in Hf2.
Qed.

(** A block is either cached by one valid buffer or only on disk. *)
Lemma view_cases s k : bc_ok s ->
  (exists i, (i < NBUF)%nat /\ b_key (getb s i) = k /\ valid (getb s i) = true /\ view s k = b_data (getb s i)) \/
  ((forall i, (i < NBUF)%nat -> b_key (getb s i) = k -> valid (getb s i) = false) /\ view s k = dread (bdisk s) k).
Proof.
  intros Hok. destruct (List.find (fun i => key_eqb (b_key (getb s i)) k && valid (getb s i)) (seq 0 NBUF))
    as [j|] eqn:E.
  - left. apply find_seq_some in E as [Hj Hf]; cbv beta in Hf. apply andb_true_iff in Hf as [Hf1 Hf2].
    apply key_eqb_eq in Hf1. exists j. repeat split; [done|done|done|]. by apply view_hit.
  - right. assert (Hn : forall i, (i < NBUF)%nat -> b_key (getb s i) = k -> valid (getb s i) = false).
    { intros i Hi Hk. apply (find_seq_none _ _ i) in E; [|done]; cbv beta in E.
      by rewrite (proj2 (key_eqb_eq _ _) Hk) in E. }
    split; [done|]. by apply view_miss.
Qed.

Lemma view_ok s k : bc_ok s -> block_ok (view s k).
Proof.
  intros Hok. destruct (view_cases s k Hok) as [(i & Hi & _ & _ & ->)|[_ ->]].
  - by apply bc_data.
  - by apply bc_img.
Qed.

(** A clean, unlocked block is the same in the cache and on the disk. *)
Lemma view_clean s k : bc_ok s ->
  (forall i, (i < NBUF)%nat -> b_key (getb s i) = k -> pinned (getb s i) = false) -> view s k = dread (bdisk s) k.
Proof.
  intros Hok H. destruct (view_cases s k Hok) as [(i & Hi & Hk & Hv & ->)|[_ ->]]; [|done].
  specialize (H i Hi Hk). apply orb_false_iff in H as [Hb Hd]. rewrite <- Hk. by apply bc_clean.
Qed.

Lemma npin_lt s : (npin s < NBUF)%nat -> exists i, (i < NBUF)%nat /\ pinned (getb s i) = false.
Proof. apply filter_seq_lt. Qed.

(** The pinned buffers are no more than the blocks they are copies of. *)
Lemma npin_le s (ks : list bkey) : bc_ok s ->
  (forall i, (i < NBUF)%nat -> pinned (getb s i) = true -> b_key (getb s i) ∈ ks) -> (npin s <= length ks)%nat.
Proof.
  intros Hok H. apply (filter_seq_inj (fun i => b_key (getb s i))); [|done].
  intros i j Hi Hj Hpi _ Hk. eapply bc_uniq; [done|done|done| |done]. apply bc_used; [done|done|].
  apply orb_true_iff in Hpi as [?|?]; [by left|right]. by apply bc_dirty.
Qed.

Lemma ctn_eq b b' : ctn b' = ctn b ->
  b_key b' = b_key b /\ b_dev b' = b_dev b /\ busy b' = busy b /\ valid b' = valid b /\ dirty b' = dirty b /\ b_data b' = b_data b.
Proof. unfold ctn, b_key, busy, valid, dirty. intros [= -> -> -> ->]. done. Qed.

(** ** Changing one buffer *)

(** [changed s s' i]: only buffer [i], the links and the copy of buffer [i]'s
    block on disk may differ. *)
Record changed (s s' : bcache) (i : nat) : Prop := {
  ch_idx : (i < NBUF)%nat;
  ch_dll : exists l, dll s' l;
  ch_ctn : forall j, (j < NBUF)%nat -> j <> i -> ctn (getb s' j) = ctn (getb s j);
  ch_disk : forall k, k <> b_key (getb s' i) -> dread (bdisk s') k = dread (bdisk s) k;
  ch_img : forall k, block_ok (dread (bdisk s') k)
}.

(** What the changed buffer must satisfy. *)
Record fits (s s' : bcache) (i : nat) : Prop := {
  ft_uniq : forall j, (j < NBUF)%nat -> j <> i -> b_key (getb s j) <> b_key (getb s' i);
  ft_used : busy (getb s' i) = true \/ valid (getb s' i) = true -> b_dev (getb s' i) <> NODEV;
  ft_clean : valid (getb s' i) = true -> dirty (getb s' i) = false -> busy (getb s' i) = false ->
    b_data (getb s' i) = dread (bdisk s') (b_key (getb s' i));
  ft_dirty : dirty (getb s' i) = true -> valid (getb s' i) = true;
  ft_data : block_ok (b_data (getb s' i))
}.

Lemma bc_ok_changed s s' i : bc_ok s -> changed s s' i -> fits s s' i -> bc_ok s'.
Proof.
  intros Hok Hch Hft. pose proof (ch_idx _ _ _ Hch) as Hi.
  assert (Hc := fun j Hj Hne => ctn_eq _ _ (ch_ctn _ _ _ Hch j Hj Hne)).
  split.
  - apply Hch.
  - intros a b Ha Hb Hd Hk. destruct (decide (a = i)) as [->|Hai], (decide (b = i)) as [->|Hbi]; [done| | |].
    + exfalso. destruct (Hc b Hb Hbi) as (Hkb & _). apply (ft_uniq _ _ _ Hft b Hb Hbi). congruence.
    + exfalso. destruct (Hc a Ha Hai) as (Hka & _). apply (ft_uniq _ _ _ Hft a Ha Hai). congruence.
    + destruct (Hc a Ha Hai) as (Hka & Hda & _), (Hc b Hb Hbi) as (Hkb & _).
      eapply bc_uniq; eauto; congruence.
  - intros a Ha Hba. destruct (decide (a = i)) as [->|Hai]; [by apply (ft_used _ _ _ Hft)|].
    destruct (Hc a Ha Hai) as (Hka & -> & Hb & Hv & _). rewrite Hb, Hv in Hba. by apply bc_used.
  - intros a Ha Hv Hd Hb. destruct (decide (a = i)) as [->|Hai]; [by apply Hft|].
    pose proof (ft_uniq _ _ _ Hft a Ha Hai) as Hu.
    destruct (Hc a Ha Hai) as (Hk & _ & Eb & Ev & Ed & ->). rewrite Hk, (ch_disk _ _ _ Hch) by done.
    apply bc_clean; [done|done|congruence|congruence|congruence].
  - intros a Ha Hd. destruct (decide (a = i)) as [->|Hai]; [by apply Hft|].
    destruct (Hc a Ha Hai) as (_ & _ & _ & -> & Ed & _). apply bc_dirty; [done|done|congruence].
  - intros a Ha. destruct (decide (a = i)) as [->|Hai]; [by apply Hft|].
    destruct (Hc a Ha Hai) as (_ & _ & _ & _ & _ & ->). by apply bc_data.
  - apply Hch.
Qed.

Lemma view_changed s s' i k : bc_ok s -> changed s s' i -> fits s s' i ->
  k <> b_key (getb s' i) ->
  (b_key (getb s i) = k -> valid (getb s i) = true -> pinned (getb s i) = false) ->
  view s' k = view s k.
Proof.
  intros Hok Hch Hft Hk Hold. pose proof (bc_ok_changed _ _ _ Hok Hch Hft) as Hok'.
  assert (Hc := fun j Hj Hne => ctn_eq _ _ (ch_ctn _ _ _ Hch j Hj Hne)).
  destruct (view_cases s' k Hok') as [(j & Hj & Hkj & Hvj & ->)|[Hnone ->]].
  - assert (Hji : j <> i) by congruence. destruct (Hc j Hj Hji) as (E1 & _ & _ & E2 & _ & ->).
    symmetry. apply view_hit; [done|done|congruence|congruence].
  - rewrite (ch_disk _ _ _ Hch) by done.
    destruct (view_cases s k Hok) as [(j & Hj & Hkj & Hvj & ->)|[_ ->]]; [|done].
    destruct (decide (j = i)) as [->|Hji].
    + specialize (Hold Hkj Hvj). apply orb_false_iff in Hold as [Hb Hd].
      rewrite <- Hkj. symmetry. by apply bc_clean.
    + destruct (Hc j Hj Hji) as (E1 & _ & _ & E2 & _). rewrite Hnone in E2; congruence.
Qed.

Lemma changed_upd s i f : bc_ok s -> (i < NBUF)%nat ->
  (forall b, b_next (f b) = b_next b /\ b_prev (f b) = b_prev b) -> changed s (upd_buf i f s) i.
Proof.
  intros Hok Hi Hf. destruct (bc_dll _ Hok) as [l Hl]. split.
  - done.
  - exists l. by apply dll_upd.
  - intros j _ Hne. by rewrite getb_upd_ne.
  - done.
  - apply (bc_img _ Hok).
Qed.

Lemma bc_len s : bc_ok s -> length (bufs s) = S NBUF.
Proof. intros Hok. destruct (bc_dll _ Hok) as [l [Hl _]]. done. Qed.

Lemma getb_upd_self s i f : bc_ok s -> (i < NBUF)%nat -> getb (upd_buf i f s) i = f (getb s i).
Proof. intros Hok Hi. apply getb_upd_eq. rewrite bc_len by done. lia. Qed.

Lemma uniq_other s i j : bc_ok s -> (i < NBUF)%nat -> (j < NBUF)%nat -> j <> i ->
  b_dev (getb s i) <> NODEV -> b_key (getb s j) <> b_key (getb s i).
Proof. intros Hok Hi Hj Hne Hd He. apply Hne. symmetry. eapply bc_uniq; eauto. Qed.

Lemma held_dev s i k : bc_ok s -> held s i k -> b_dev (getb s i) <> NODEV.
Proof. intros Hok (Hi & _ & Hb & _). apply bc_used; [done|done|by left]. Qed.

Lemma view_held s i k : bc_ok s -> held s i k -> view s k = b_data (getb s i).
Proof. intros Hok (Hi & Hk & _ & Hv). by apply view_hit. Qed.

(** ** bget *)

(** [bget] searched along the list it walks: a buffer that holds the block,
    or else the least recently used buffer that is neither busy nor dirty. *)
Lemma bget_run s l dev blockno : dll s l ->
  bget dev blockno s =
  match List.find (fun i => key_eqb (b_key (getb s i)) (dev, blockno)) l with
  | Some i => if busy (getb s i) then Sleep (ChBuf i) s
              else Done i (upd_buf i (fun b => set_flags (Z.lor (b_flags b) B_BUSY) b) s)
  | None => match List.find (fun i => negb (pinned (getb s i))) (rev l) with
            | Some i => Done i (upd_buf i (set_id dev blockno B_BUSY) s)
            | None => Panic "bget: no buffers"
            end
  end.
Proof.
  intros Hl. unfold bget, bind, get. rewrite (walk_next s l), (walk_prev s l) by done.
  unfold key_eqb, b_key. cbn [fst snd].
  destruct (List.find _ l) as [i|]; [by destruct (busy (getb s i))|].
  unfold pinned.
  replace (List.find (fun i => negb (busy (getb s i)) && negb (dirty (getb s i))) (rev l))
    with (List.find (fun i => negb (busy (getb s i) || dirty (getb s i))) (rev l)).
  - by destruct (List.find _ (rev l)).
  - induction (rev l) as [|z l' IH]; [done|]. cbn [List.find]. rewrite negb_orb.
    by destruct (negb (busy (getb s z)) && negb (dirty (getb s z))).
Qed.

(** What [bget] does to the cache when the block is not locked and a buffer
    can be had: it locks buffer [i], which either already held the block or
    was an unpinned buffer and is renamed to it. *)
Inductive bget_effect (s : bcache) (k : bkey) (i : nat) : bcache -> Prop :=
| bget_hit : (i < NBUF)%nat -> b_key (getb s i) = k -> busy (getb s i) = false ->
    bget_effect s k i (upd_buf i (fun b => set_flags (Z.lor (b_flags b) B_BUSY) b) s)
| bget_recycle : (i < NBUF)%nat -> pinned (getb s i) = false ->
    (forall j, (j < NBUF)%nat -> b_key (getb s j) <> k) ->
    bget_effect s k i (upd_buf i (set_id (fst k) (snd k) B_BUSY) s).

Lemma bget_spec s k : bc_ok s ->
  (forall i, (i < NBUF)%nat -> b_key (getb s i) = k -> busy (getb s i) = false) ->
  (exists i, (i < NBUF)%nat /\ b_key (getb s i) = k) \/ (npin s < NBUF)%nat ->
  runs (bget (fst k) (snd k)) s (fun i s' => bget_effect s k i s').
Proof.
  intros Hok Hfree Hroom. destruct (bc_dll _ Hok) as [l Hl].
  unfold runs. rewrite (bget_run _ _ _ _ Hl). destruct k as [dev blk]. cbn [fst snd].
  destruct (List.find _ l) as [i|] eqn:E.
  - apply find_some in E as [Hi Hk]; cbv beta in Hk. apply key_eqb_eq in Hk.
    apply list_elem_of_In, (dll_in _ _ _ Hl) in Hi. rewrite (Hfree i Hi Hk).
    apply bget_hit; auto.
  - assert (Hmiss : forall j, (j < NBUF)%nat -> b_key (getb s j) <> (dev, blk)).
    { intros j Hj Hk. apply (dll_in _ _ _ Hl), list_elem_of_In in Hj.
      pose proof (find_none _ _ E j Hj) as Hn; cbv beta in Hn.
      by rewrite (proj2 (key_eqb_eq _ _) Hk) in Hn. }
    destruct Hroom as [(i & Hi & Hk)|Hroom]; [by destruct (Hmiss i Hi)|].
    destruct (List.find _ (rev l)) as [i|] eqn:E2.
    + apply find_some in E2 as [Hi Hp]; cbv beta in Hp. apply negb_true_iff in Hp.
      apply list_elem_of_In, Dll.rev_elem, (dll_in _ _ _ Hl) in Hi.
      apply (bget_recycle _ (dev, blk)); auto.
    + destruct (npin_lt _ Hroom) as (j & Hj & Hp).
      apply (dll_in _ _ _ Hl), Dll.rev_elem, list_elem_of_In in Hj.
      pose proof (find_none _ _ E2 j Hj) as Hn; cbv beta in Hn. by rewrite Hp in Hn.
Qed.

(** Locking the buffer keeps the invariant and changes no block. *)
Lemma bget_effect_ok s k i s' : bc_ok s -> fst k <> NODEV -> bget_effect s k i s' ->
  bc_ok s' /\ bdisk s' = bdisk s /\ (forall k', view s' k' = view s k') /\
  (i < NBUF)%nat /\ b_key (getb s' i) = k /\ busy (getb s' i) = true /\
  (forall j, j <> i -> getb s' j = getb s j) /\ busy (getb s i) = false /\
  (dirty (getb s i) = true -> b_key (getb s i) = k) /\ dirty (getb s' i) = dirty (getb s i).
Proof.
  intros Hok Hdev He. destruct He as [Hi Hk Hb|Hi Hp Hmiss].
  - set (f := fun b => set_flags (Z.lor (b_flags b) B_BUSY) b).
    assert (Hself := getb_upd_self s i f Hok Hi).
    assert (Hbusy : busy (getb (upd_buf i f s) i) = true) by (rewrite Hself; unfold busy, f, B_BUSY; cbn; by flag_simpl).
    assert (Hval : valid (getb (upd_buf i f s) i) = valid (getb s i)) by (rewrite Hself; unfold valid, f, B_VALID, B_BUSY; cbn; by flag_simpl).
    assert (Hdir : dirty (getb (upd_buf i f s) i) = dirty (getb s i)) by (rewrite Hself; unfold dirty, f, B_DIRTY, B_BUSY; cbn; by flag_simpl).
    assert (Hkey : b_key (getb (upd_buf i f s) i) = b_key (getb s i)) by by rewrite Hself.
    assert (Hdat : b_data (getb (upd_buf i f s) i) = b_data (getb s i)) by by rewrite Hself.
    assert (Hch : changed s (upd_buf i f s) i) by by apply changed_upd.
    assert (Hd : b_dev (getb s i) <> NODEV) by (subst k; done).
    assert (Hft : fits s (upd_buf i f s) i).
    { split; [intros j Hj Hne; rewrite Hkey; by apply uniq_other| | | |].
      - intros _. by rewrite Hself.
      - congruence.
      - rewrite Hdir, Hval. by apply bc_dirty.
      - rewrite Hdat. by apply bc_data. }
    pose proof (bc_ok_changed _ _ _ Hok Hch Hft) as Hok'.
    split_and!; [exact Hok'|done| |done|congruence|done|intros; by apply getb_upd_ne|done|done|done].
    intros k'. destruct (view_cases s k' Hok) as [(j & Hj & Hkj & Hvj & ->)|[Hn ->]].
    + destruct (decide (j = i)) as [->|Hne].
      * rewrite <- Hdat. apply view_hit; [done|done|congruence|congruence].
      * rewrite <- (getb_upd_ne s i j f) by congruence.
        apply view_hit; [done|done|by rewrite getb_upd_ne by congruence|by rewrite getb_upd_ne by congruence].
    + change (dread (bdisk s) k') with (dread (bdisk (upd_buf i f s)) k'). apply view_miss.
      intros j Hj Hkj. destruct (decide (j = i)) as [->|Hne]; [rewrite Hval; apply Hn; [done|congruence]|].
      rewrite getb_upd_ne in Hkj |- * by congruence. by apply Hn.
  - set (f := set_id (fst k) (snd k) B_BUSY).
    assert (Hself := getb_upd_self s i f Hok Hi).
    assert (Hch : changed s (upd_buf i f s) i) by by apply changed_upd.
    assert (Hkey : b_key (getb (upd_buf i f s) i) = k) by (rewrite Hself; by destruct k).
    assert (Hval : valid (getb (upd_buf i f s) i) = false) by by rewrite Hself.
    apply orb_false_iff in Hp as Hp'. destruct Hp' as [Hb Hd].
    assert (Hft : fits s (upd_buf i f s) i).
    { split; rewrite ?Hkey.
      - intros j Hj _. by apply Hmiss.
      - intros _. by rewrite Hself.
      - congruence.
      - by rewrite Hself.
      - rewrite Hself. by apply bc_data. }
    pose proof (bc_ok_changed _ _ _ Hok Hch Hft) as Hok'.
    split_and!; [exact Hok'|done| |done|done|by rewrite Hself|intros; by apply getb_upd_ne|done|congruence|by rewrite Hself, Hd].
    intros k'. destruct (decide (k' = k)) as [->|Hne].
    + rewrite !view_miss; [done| |].
      * intros j Hj Hkj. by destruct (Hmiss j Hj).
      * intros j Hj Hkj. destruct (decide (j = i)) as [->|Hji]; [done|].
        rewrite getb_upd_ne in Hkj by congruence. by destruct (Hmiss j Hj).
    + apply (view_changed s _ i); [done|done|done|by rewrite Hkey|done].
Qed.

(** ** Operations on a locked buffer *)

(** An update of a locked buffer that keeps it locked and on its block. *)
Lemma upd_locked s i k f : bc_ok s ->
  (i < NBUF)%nat -> b_key (getb s i) = k -> busy (getb s i) = true ->
  (forall b, b_next (f b) = b_next b /\ b_prev (f b) = b_prev b) ->
  b_key (f (getb s i)) = k -> busy (f (getb s i)) = true ->
  (dirty (f (getb s i)) = true -> valid (f (getb s i)) = true) -> block_ok (b_data (f (getb s i))) ->
  bc_ok (upd_buf i f s) /\ getb (upd_buf i f s) i = f (getb s i) /\
  (forall j, j <> i -> getb (upd_buf i f s) j = getb s j) /\
  (forall k', k' <> k -> view (upd_buf i f s) k' = view s k').
Proof.
  intros Hok Hi Hk Hb Hf Hk' Hb' Hd' Hdat.
  assert (Hself := getb_upd_self s i f Hok Hi).
  assert (Hdev : b_dev (getb s i) <> NODEV) by (apply bc_used; [done|done|by left]).
  assert (Hch : changed s (upd_buf i f s) i) by by apply changed_upd.
  assert (Hft : fits s (upd_buf i f s) i).
  { split; rewrite ?Hself.
    - intros j Hj Hne. rewrite Hk', <- Hk. by apply uniq_other.
    - intros _. rewrite <- Hk in Hk'. injection Hk' as -> _. done.
    - congruence.
    - done.
    - done. }
  split_and!; [by eapply bc_ok_changed|done|intros; by apply getb_upd_ne|].
  intros k' Hne. apply (view_changed s _ i); [done|done|done|by rewrite Hself, Hk'|congruence].
Qed.

Lemma set_data_spec s i k d : bc_ok s -> held s i k -> block_ok d ->
  runs (set_data i d) s (fun _ s' => bc_ok s' /\ bdisk s' = bdisk s /\ held s' i k /\
    b_data (getb s' i) = d /\ b_flags (getb s' i) = b_flags (getb s i) /\ view s' k = d /\
    (forall k', k' <> k -> view s' k' = view s k') /\ (forall j, j <> i -> getb s' j = getb s j)).
Proof.
  intros Hok (Hi & Hk & Hb & Hv) Hd. apply runs_modify.
  destruct (upd_locked s i k (set_bdata d)) as (Hok' & Hself & Hoth & Hview); try done.
  assert (Hheld : held (upd_buf i (set_bdata d) s) i k) by (unfold held; rewrite Hself; done).
  split_and!; try done.
  - by rewrite Hself.
  - by rewrite Hself.
  - rewrite (view_held _ i) by done. by rewrite Hself.
Qed.

(** Marking a locked buffer dirty, as [log_write] does. *)
Lemma mark_dirty_spec s i k : bc_ok s -> held s i k ->
  let s' := upd_buf i (fun b => set_flags (Z.lor (b_flags b) B_DIRTY) b) s in
  bc_ok s' /\ bdisk s' = bdisk s /\ held s' i k /\ dirty (getb s' i) = true /\
  b_data (getb s' i) = b_data (getb s i) /\ (forall k', view s' k' = view s k') /\
  (forall j, j <> i -> getb s' j = getb s j).
Proof.
  intros Hok (Hi & Hk & Hb & Hv) s'.
  assert (Hfl : busy (set_flags (Z.lor (b_flags (getb s i)) B_DIRTY) (getb s i)) = true /\
                valid (set_flags (Z.lor (b_flags (getb s i)) B_DIRTY) (getb s i)) = true /\
                dirty (set_flags (Z.lor (b_flags (getb s i)) B_DIRTY) (getb s i)) = true).
  { unfold busy, valid, dirty, B_BUSY, B_VALID, B_DIRTY in *. cbn [b_flags set_flags]. flag_simpl. done. }
  destruct Hfl as (F1 & F2 & F3).
  destruct (upd_locked s i k (fun b => set_flags (Z.lor (b_flags b) B_DIRTY) b)) as (Hok' & Hself & Hoth & Hview); try done.
  { by apply (bc_data _ Hok). }
  assert (Hheld : held s' i k) by (unfold held, s'; rewrite Hself; done).
  split_and!; try done.
  - unfold s'. by rewrite Hself.
  - unfold s'. by rewrite Hself.
  - intros k'. destruct (decide (k' = k)) as [->|Hne]; [|by apply Hview].
    rewrite (view_held s' i), (view_held s i) by done. unfold s'. by rewrite Hself.
Qed.

Section Specs.
Context {D : Driver} {HD : DriverOk D}.

Lemma upd_buf_const s i f : upd_buf i (fun _ => f (getb s i)) s = upd_buf i f s.
Proof.
  unfold upd_buf. f_equal. apply list_alter_ext; [|done]. intros x Hx. f_equal. by apply getb_lookup.
Qed.

Lemma bio_iderw_read s i : busy (getb s i) = true -> dirty (getb s i) = false -> valid (getb s i) = false ->
  accepts (b_key (getb s i)) ->
  bio_iderw i s = Done tt (upd_buf i (fun b => set_flags (Z.lor (b_flags b) B_VALID)
                                       (set_bdata (dread (bdisk s) (b_key (getb s i))) b)) s).
Proof.
  intros Hb Hd Hv Ha. unfold bio_iderw. rewrite iderw_read by done.
  exact (f_equal (Done tt) (upd_buf_const s i (fun b => set_flags (Z.lor (b_flags b) B_VALID)
    (set_bdata (dread (bdisk s) (b_key (getb s i))) b)))).
Qed.

Lemma bio_iderw_write s i : busy (getb s i) = true -> dirty (getb s i) = true -> accepts (b_key (getb s i)) ->
  bio_iderw i s = Done tt (with_disk (dwrite (bdisk s) (b_key (getb s i)) (b_data (getb s i)))
    (upd_buf i (fun b => set_flags (Z.lor (Z.land (b_flags b) (Z.lnot B_DIRTY)) B_VALID) b) s)).
Proof.
  intros Hb Hd Ha. unfold bio_iderw. rewrite iderw_write by done.
  exact (f_equal (fun t => Done tt (with_disk _ t)) (upd_buf_const s i
    (fun b => set_flags (Z.lor (Z.land (b_flags b) (Z.lnot B_DIRTY)) B_VALID) b))).
Qed.

(** bread: with the block unlocked and a buffer to be had, it returns a
    locked buffer with the current contents of the block, and no block
    changes. *)
Lemma bread_spec s k : bc_ok s -> accepts k -> fst k <> NODEV ->
  (forall i, (i < NBUF)%nat -> b_key (getb s i) = k -> busy (getb s i) = false) ->
  (exists i, (i < NBUF)%nat /\ b_key (getb s i) = k) \/ (npin s < NBUF)%nat ->
  runs (bread (fst k) (snd k)) s (fun i s' =>
    bc_ok s' /\ bdisk s' = bdisk s /\ held s' i k /\ b_data (getb s' i) = view s k /\
    (forall k', view s' k' = view s k') /\ (forall j, j <> i -> getb s' j = getb s j) /\
    busy (getb s i) = false /\ (dirty (getb s i) = true -> b_key (getb s i) = k) /\
    dirty (getb s' i) = dirty (getb s i)).
Proof.
  intros Hok Hacc Hdev Hfree Hroom. unfold bread.
  eapply runs_seq; [by apply bget_spec|]. intros i s1 He.
  destruct (bget_effect_ok _ _ _ _ Hok Hdev He) as (Hok1 & Hd1 & Hv1 & Hi & Hk1 & Hb1 & Ho1 & Hb0 & Hdk & Hdd).
  apply runs_bind. change (runs ((if negb (valid (getb s1 i)) then bio_iderw i else ret tt) ;;; ret i) s1
    (fun a s' => bc_ok s' /\ bdisk s' = bdisk s /\ held s' a k /\ b_data (getb s' a) = view s k /\
      (forall k', view s' k' = view s k') /\ (forall j, j <> a -> getb s' j = getb s j) /\
      busy (getb s a) = false /\ (dirty (getb s a) = true -> b_key (getb s a) = k) /\
      dirty (getb s' a) = dirty (getb s a))).
  destruct (valid (getb s1 i)) eqn:Hval; cbn [negb].
  - apply runs_ret. assert (Hh : held s1 i k) by done.
    split_and!; try done. rewrite <- Hv1. symmetry. by apply view_held.
  - assert (Hnd : dirty (getb s1 i) = false).
    { destruct (dirty (getb s1 i)) eqn:E; [|done]. apply (bc_dirty _ Hok1) in E; [congruence|done]. }
    apply runs_bind. unfold runs at 1. rewrite bio_iderw_read by (rewrite ?Hk1; done).
    rewrite Hk1. set (f := fun b => set_flags (Z.lor (b_flags b) B_VALID) (set_bdata (dread (bdisk s1) k) b)).
    assert (Hvw : view s k = dread (bdisk s) k).
    { rewrite <- Hv1, <- Hd1. apply view_miss. intros j Hj Hkj.
      assert (j = i) as ->; [|done]. symmetry. eapply bc_uniq; [exact Hok1|done|done| |congruence].
      apply bc_used; [done|done|by left]. }
    assert (Hfl : busy (f (getb s1 i)) = true /\ valid (f (getb s1 i)) = true /\ dirty (f (getb s1 i)) = false).
    { unfold busy, valid, dirty, f, B_BUSY, B_VALID, B_DIRTY in *. cbn [b_flags set_flags set_bdata]. flag_simpl. done. }
    destruct Hfl as (F1 & F2 & F3).
    destruct (upd_locked s1 i k f) as (Hok' & Hself & Hoth & Hview); try done.
    { apply (bc_img _ Hok1). }
    apply runs_ret. assert (Hh : held (upd_buf i f s1) i k) by (unfold held; rewrite Hself; done).
    assert (Hdat : b_data (getb (upd_buf i f s1) i) = view s k) by (rewrite Hself, Hvw, <- Hd1; done).
    split_and!; try done.
    + intros k'. destruct (decide (k' = k)) as [->|Hne]; [|rewrite <- Hv1; by apply Hview].
      rewrite <- Hdat. by apply view_held.
    + intros j Hj. rewrite Hoth, Ho1; done.
    + rewrite Hself, F3. congruence.
Qed.

(** bwrite: the block on disk becomes the buffer's data, in one disk write. *)
Lemma bwrite_spec s i k : bc_ok s -> held s i k -> accepts k ->
  runs (bwrite i) s (fun _ s' => bc_ok s' /\ bdisk s' = dwrite (bdisk s) k (b_data (getb s i)) /\
    held s' i k /\ dirty (getb s' i) = false /\ b_data (getb s' i) = b_data (getb s i) /\
    (forall k', view s' k' = view s k') /\ (forall j, j <> i -> getb s' j = getb s j)).
Proof.
  intros Hok Hh Hacc. unfold bwrite. apply runs_bind. unfold runs at 1, get.
  rewrite (proj1 (proj2 (proj2 Hh))). cbn [negb]. apply runs_bind, runs_modify.
  destruct (mark_dirty_spec s i k Hok Hh) as (Hok1 & Hd1 & Hh1 & Hdir1 & Hdat1 & Hv1 & Ho1).
  set (s1 := upd_buf i _ s) in *. destruct (Hh1) as (Hi & Hk1 & Hb1 & Hva1).
  unfold runs. rewrite bio_iderw_write by (rewrite ?Hk1; done). rewrite Hk1, Hdat1, Hd1.
  set (g := fun b => set_flags (Z.lor (Z.land (b_flags b) (Z.lnot B_DIRTY)) B_VALID) b).
  set (s2 := with_disk (dwrite (bdisk s) k (b_data (getb s i))) (upd_buf i g s1)).
  assert (Hself : getb s2 i = g (getb s1 i)) by (apply (getb_upd_self s1); done).
  assert (Hoth : forall j, j <> i -> getb s2 j = getb s1 j) by (intros j Hj; by apply (getb_upd_ne s1)).
  assert (Hfl : busy (g (getb s1 i)) = true /\ valid (g (getb s1 i)) = true /\ dirty (g (getb s1 i)) = false).
  { unfold busy, valid, dirty, g, B_BUSY, B_VALID, B_DIRTY in *. cbn [b_flags set_flags].
    rewrite !test_1, !test_2, !test_4, !Z.lor_spec, !Z.land_spec, !Z.lnot_spec in * by lia.
    by rewrite Hb1, Hva1, Hdir1. }
  destruct Hfl as (F1 & F2 & F3).
  assert (Hread : forall k', dread (bdisk s2) k' = if decide (k' = k) then b_data (getb s i) else dread (bdisk s1) k').
  { intros k'. cbn [s2 bdisk with_disk]. unfold dread, dwrite, img_get. cbn [d_img].
    case_decide; subst; [by rewrite lookup_insert_eq|by rewrite lookup_insert_ne]. }
  assert (Hkk : b_key (getb s2 i) = k) by by rewrite Hself.
  assert (Hch : changed s1 s2 i).
  { destruct (changed_upd s1 i g Hok1 Hi) as [C1 C2 C3 C4 C5]; [done|]. split; [done|done|done| |].
    - intros k' Hne. rewrite Hread. by rewrite decide_False by congruence.
    - intros k'. rewrite Hread. case_decide; [by apply (bc_data _ Hok)|apply (bc_img _ Hok1)]. }
  assert (Hft : fits s1 s2 i).
  { split; rewrite ?Hkk; rewrite ?Hself; [|..|congruence|done|by apply (bc_data _ Hok1)].
    - intros j Hj Hne. rewrite <- Hk1. apply uniq_other; try done. by apply (held_dev s1 i k).
    - intros _. by apply (held_dev s1 i k). }
  assert (Hok2 := bc_ok_changed _ _ _ Hok1 Hch Hft).
  assert (Hh2 : held s2 i k) by (unfold held; rewrite Hself; done).
  split_and!; try done.
  - by rewrite Hself.
  - by rewrite Hself.
  - intros k'. rewrite <- Hv1. destruct (decide (k' = k)) as [->|Hne].
    + rewrite (view_held s2 i), (view_held s1 i) by done. by rewrite Hself.
    + apply (view_changed s1 s2 i); [done|done|done|congruence|congruence].
  - intros j Hj. rewrite Hoth, Ho1; done.
Qed.

(** brelse: a buffer whose data is on disk or pinned as dirty is unlocked and
    becomes the most recently used one. *)
Lemma brelse_spec s i k l : bc_ok s -> dll s l -> held s i k ->
  dirty (getb s i) = true \/ b_data (getb s i) = dread (bdisk s) k ->
  runs (brelse i) s (fun _ s' => bc_ok s' /\ dll s' (lru_touch i l) /\ bdisk s' = bdisk s /\
    b_key (getb s' i) = k /\ busy (getb s' i) = false /\ valid (getb s' i) = true /\
    dirty (getb s' i) = dirty (getb s i) /\ b_data (getb s' i) = b_data (getb s i) /\
    (forall k', view s' k' = view s k') /\
    (forall j, (j < NBUF)%nat -> j <> i -> ctn (getb s' j) = ctn (getb s j)) /\
    bwoken s' = bwoken s ++ [ChBuf i]).
Proof.
  intros Hok Hl (Hi & Hk & Hb & Hv) Hsafe. unfold brelse. apply runs_bind. unfold runs at 1, get.
  rewrite Hb. cbn [negb]. do 7 apply runs_bind, runs_modify. apply runs_modify.
  match goal with |- context [upd_buf i ?f ?t] =>
    match f with context [Z.lnot B_BUSY] => change t with (relink i s); set (g := f) end end.
  destruct (relink_spec s l i Hl Hi) as (Hl1 & Hd1 & Hc1). set (s1 := relink i s) in *.
  set (s2 := bwakeup (ChBuf i) (upd_buf i g s1)).
  assert (Hlen : length (bufs s1) = S NBUF) by apply Hl1.
  assert (Hself : getb s2 i = g (getb s1 i)) by (apply (getb_upd_eq s1); lia).
  assert (Hoth : forall j, j <> i -> getb s2 j = getb s1 j) by (intros j Hj; by apply (getb_upd_ne s1)).
  destruct (ctn_eq _ _ (Hc1 i)) as (E1 & E2 & E3 & E4 & E5 & E6).
  assert (Hfl : busy (g (getb s1 i)) = false /\ valid (g (getb s1 i)) = true /\
                dirty (g (getb s1 i)) = dirty (getb s i)).
  { rewrite <- E5. rewrite <- E4 in Hv. unfold busy, valid, dirty, g, B_BUSY, B_VALID, B_DIRTY in *.
    cbn [b_flags set_flags].
    rewrite !test_1, !test_2, !test_4, !Z.land_spec, !Z.lnot_spec in * by lia.
    rewrite Hv. split; [apply andb_false_r|]. split; [done|apply andb_true_r]. }
  destruct Hfl as (F1 & F2 & F3).
  assert (Hl2 : dll s2 (lru_touch i l)) by (apply (dll_upd s1); done).
  assert (Hkk : b_key (getb s2 i) = k) by (rewrite Hself, <- Hk, <- E1; done).
  assert (Hdat : b_data (getb s2 i) = b_data (getb s i)) by (rewrite Hself, <- E6; done).
  assert (Hct : forall j, (j < NBUF)%nat -> j <> i -> ctn (getb s2 j) = ctn (getb s j))
    by (intros j Hj Hne; rewrite Hoth by done; apply Hc1).
  assert (Hch : changed s s2 i).
  { split; [done|by exists (lru_touch i l)|done|by intros; change (bdisk s2) with (bdisk s1); rewrite Hd1|].
    intros k'. change (bdisk s2) with (bdisk s1). rewrite Hd1. apply (bc_img _ Hok). }
  assert (Hft : fits s s2 i).
  { split; rewrite ?Hkk, ?Hdat; rewrite ?Hself.
    - intros j Hj Hne. rewrite <- Hk. apply uniq_other; try done. apply bc_used; [done|done|by left].
    - intros _. change (b_dev (g (getb s1 i))) with (b_dev (getb s1 i)). rewrite E2.
      apply bc_used; [done|done|by left].
    - intros _ Hnd _. change (bdisk s2) with (bdisk s1). rewrite Hd1.
      destruct Hsafe as [Hs|Hs]; [congruence|done].
    - done.
    - by apply (bc_data _ Hok). }
  assert (Hok2 := bc_ok_changed _ _ _ Hok Hch Hft).
  split_and!; try done.
  - by rewrite Hself.
  - by rewrite Hself.
  - by rewrite Hself.
  - intros k'. destruct (decide (k' = k)) as [->|Hne].
    + rewrite (view_hit s2 i), (view_hit s i); try done. by rewrite Hself.
    + apply (view_changed s s2 i); [done|done|done|congruence|congruence].
Qed.
End Specs.

(** ** binit *)

Lemma binit_bufs d i : (i < NBUF)%nat ->
  b_flags (getb (binit d) i) = 0 /\ b_dev (getb (binit d) i) = NODEV /\ b_data (getb (binit d) i) = zero_block.
Proof.
  assert (H : Forall (fun b => b_flags b = 0 /\ b_dev b = NODEV /\ b_data b = zero_block) (take NBUF (bufs (binit d)))).
  { vm_compute. repeat (constructor; [done|]). constructor. }
  intros Hi. rewrite Forall_lookup in H. apply (H i). rewrite lookup_take_lt by done.
  apply lookup_getb. change (length (bufs (binit d))) with (S NBUF). lia.
Qed.

Lemma binit_dll d : dll (binit d) (rev (seq 0 NBUF)).
Proof.
  split; [done|]. split; [|by rewrite <- Permutation_rev]. split; [|split].
  - vm_compute. repeat split.
  - vm_compute. repeat split.
  - apply (bool_decide_unpack (NoDup (HEAD :: rev (seq 0 NBUF)))). by vm_compute.
Qed.

Lemma flags_zero b : b_flags b = 0 -> busy b = false /\ valid b = false /\ dirty b = false.
Proof. intros H. unfold busy, valid, dirty. by rewrite H. Qed.

(** A cache whose buffers are all unused shows exactly the disk. *)
Lemma bc_ok_unused s :
  (exists l, dll s l) ->
  (forall i, (i < NBUF)%nat -> b_flags (getb s i) = 0 /\ b_dev (getb s i) = NODEV /\ b_data (getb s i) = zero_block) ->
  (forall k, block_ok (dread (bdisk s) k)) ->
  bc_ok s /\ forall k, view s k = dread (bdisk s) k.
Proof.
  intros Hl Hz Hd.
  assert (Hf : forall i, (i < NBUF)%nat -> busy (getb s i) = false /\ valid (getb s i) = false /\ dirty (getb s i) = false).
  { intros i Hi. apply flags_zero, Hz, Hi. }
  split; [split|].
  - exact Hl.
  - intros i j Hi Hj Hdev. destruct (Hz i Hi) as (_ & ? & _). done.
  - intros i Hi [Hb|Hv]; destruct (Hf i Hi) as (? & ? & ?); congruence.
  - intros i Hi Hv. destruct (Hf i Hi) as (? & ? & ?). congruence.
  - intros i Hi Hv. destruct (Hf i Hi) as (? & ? & ?). congruence.
  - intros i Hi. destruct (Hz i Hi) as (_ & _ & ->). apply zero_block_ok.
  - exact Hd.
  - intros k. apply view_miss. intros i Hi _. apply (Hf i Hi).
Qed.

Lemma binit_ok d : (forall k, block_ok (dread d k)) -> bc_ok (binit d) /\ forall k, view (binit d) k = dread d k.
Proof.
  exact (bc_ok_unused (binit d) (ex_intro _ _ (binit_dll d)) (binit_bufs d)).
Qed.
