(* ===== verification/BioSpec.v ===== *)
(** * The buffer cache as its clients see it

    [Bio] specifies each operation buffer by buffer.  Here the same operations
    are specified by blocks: the contents [view] of every block, the disk, the
    set of locked blocks and the set of blocks pinned as dirty.  log.c and
    fs.c are verified against these lemmas only. *)

From S2P Require Import Prelude.
From S2P Require Import Params.
From S2P Require Import Bio.

(** The blocks whose buffer satisfies [f]. *)
Definition keys_of (f : buf -> bool) (s : bcache) : gset (Z * Z) :=
  list_to_set (List.map (fun i => b_key (getb s i)) (List.filter (fun i => f (getb s i)) (seq 0 NBUF))).
Definition busy_keys : bcache -> gset (Z * Z) := keys_of busy.
Definition dirty_keys : bcache -> gset (Z * Z) := keys_of dirty.

Lemma elem_of_list_keys {K} `{Countable K} (key : nat -> K) f n k :
  k ∈@{gset K} list_to_set (List.map key (List.filter f (seq 0 n))) <->
  exists i, (i < n)%nat /\ f i = true /\ key i = k.
Proof.
  rewrite elem_of_list_to_set, list_elem_of_In, in_map_iff. split.
  - intros (i & Hk & Hi). apply filter_In in Hi as [Hi Hf]. apply in_seq in Hi. exists i. split; [lia|done].
  - intros (i & Hi & Hf & Hk). exists i. split; [done|]. apply filter_In. split; [apply in_seq; lia|done].
Qed.

Lemma elem_of_keys f s k :
  k ∈ keys_of f s <-> exists i, (i < NBUF)%nat /\ f (getb s i) = true /\ b_key (getb s i) = k.
Proof. exact (elem_of_list_keys (fun i => b_key (getb s i)) (fun i => f (getb s i)) NBUF k). Qed.
Lemma elem_of_busy s k : k ∈ busy_keys s <-> exists i, (i < NBUF)%nat /\ busy (getb s i) = true /\ b_key (getb s i) = k.
Proof. apply elem_of_keys. Qed.
Lemma elem_of_dirty s k : k ∈ dirty_keys s <-> exists i, (i < NBUF)%nat /\ dirty (getb s i) = true /\ b_key (getb s i) = k.
Proof. apply elem_of_keys. Qed.

Lemma npin_size s : bc_ok s -> (npin s <= size (busy_keys s ∪ dirty_keys s))%nat.
Proof.
  intros Hok. unfold size, set_size. apply npin_le; [done|]. intros i Hi Hp.
  apply elem_of_elements, elem_of_union. apply orb_true_iff in Hp as [Hb|Hd].
  - left. apply elem_of_busy. eauto.
  - right. apply elem_of_dirty. eauto.
Qed.

#[global] Typeclasses Opaque keys_of busy_keys dirty_keys.
#[global] Opaque keys_of.

(** No block is locked. *)
Definition quiet (s : bcache) : Prop := busy_keys s = ∅.

(** Buffers locked in [s] are still locked, with the same contents, in [s']
    (buffer [i] apart). *)
Definition keeps (s s' : bcache) (i : nat) : Prop :=
  forall j k, j <> i -> held s j k -> held s' j k /\ b_data (getb s' j) = b_data (getb s j) /\
    dirty (getb s' j) = dirty (getb s j).

Lemma keeps_same s s' i : (forall j, j <> i -> getb s' j = getb s j) -> keeps s s' i.
Proof. intros H j k Hj (Hi & Hk & Hb & Hv). unfold held. by rewrite H. Qed.

Lemma keeps_ctn s s' i : (forall j, (j < NBUF)%nat -> j <> i -> ctn (getb s' j) = ctn (getb s j)) -> keeps s s' i.
Proof.
  intros H j k Hj (Hi & Hk & Hb & Hv). destruct (ctn_eq _ _ (H j Hi Hj)) as (E1 & _ & E2 & E3 & E4 & E5).
  unfold held. by rewrite E1, E2, E3, E4, E5.
Qed.

(** An operation that changes no flags and no keys changes no key set. *)
Lemma keys_same f s s' : (forall j, (j < NBUF)%nat -> f (getb s' j) = f (getb s j) /\ b_key (getb s' j) = b_key (getb s j)) ->
  keys_of f s' = keys_of f s.
Proof.
  intros He. apply set_eq. intros k. rewrite !elem_of_keys.
  split; intros (j & Hj & Hf & Hk); destruct (He j Hj) as [E1 E2]; exists j; split; try done; split; congruence.
Qed.

(** Set equations from what an operation does to one buffer. *)
Lemma keys_changed (f : buf -> bool) s s' i k :
  (i < NBUF)%nat -> b_key (getb s' i) = k ->
  (forall j, (j < NBUF)%nat -> j <> i -> f (getb s' j) = f (getb s j) /\ b_key (getb s' j) = b_key (getb s j)) ->
  (f (getb s i) = true -> b_key (getb s i) = k) ->
  (forall j, (j < NBUF)%nat -> j <> i -> f (getb s j) = true -> b_key (getb s j) <> k) ->
  keys_of f s' = if f (getb s' i) then {[k]} ∪ keys_of f s else keys_of f s ∖ {[k]}.
Proof.
  intros Hi Hk Hoth Hold Hne.
  assert (Hin := elem_of_keys f).
  apply set_eq. intros k'. rewrite Hin.
  destruct (f (getb s' i)) eqn:E; rewrite ?elem_of_union, ?elem_of_difference, elem_of_singleton, Hin.
  - split.
    + intros (j & Hj & Hf & Hkj). destruct (decide (j = i)) as [->|Hji]; [left; congruence|right].
      destruct (Hoth j Hj Hji) as [E1 E2]. exists j. split; [done|]. split; congruence.
    + intros [->|(j & Hj & Hf & Hkj)]; [by exists i|].
      destruct (decide (j = i)) as [->|Hji].
      * exists i. split; [done|]. split; [done|]. rewrite <- Hkj. rewrite (Hold Hf). done.
      * destruct (Hoth j Hj Hji) as [E1 E2]. exists j. split; [done|]. split; congruence.
  - split.
    + intros (j & Hj & Hf & Hkj). assert (Hji : j <> i) by congruence.
      destruct (Hoth j Hj Hji) as [E1 E2]. split; [exists j; split; [done|]; split; congruence|].
      intros ->. apply (Hne j Hj Hji); congruence.
    + intros [(j & Hj & Hf & Hkj) Hk']. destruct (decide (j = i)) as [->|Hji].
      * by rewrite <- Hkj, (Hold Hf) in Hk'.
      * destruct (Hoth j Hj Hji) as [E1 E2]. exists j. split; [done|]. split; congruence.
Qed.

Lemma held_other s i j k : bc_ok s -> held s i k -> (j < NBUF)%nat -> j <> i -> b_key (getb s j) <> k.
Proof. intros Hok Hh Hj Hne. destruct (Hh) as (Hi & <- & _). apply uniq_other; try done. by eapply held_dev. Qed.

Lemma held_busy s i k : held s i k -> k ∈ busy_keys s.
Proof. intros (Hi & Hk & Hb & _). apply elem_of_busy. eauto. Qed.

Lemma held_inj s i j k k' : bc_ok s -> held s i k -> held s j k' -> k <> k' -> i <> j.
Proof. intros Hok (_ & <- & _) (_ & <- & _) Hne ->. done. Qed.

Lemma held_dirty s i k : bc_ok s -> held s i k -> dirty (getb s i) = true <-> k ∈ dirty_keys s.
Proof.
  intros Hok Hh. rewrite elem_of_dirty. destruct (Hh) as (Hi & Hk & _). split; [by eauto|].
  intros (j & Hj & Hd & Hkj). destruct (decide (j = i)) as [->|Hne]; [done|].
  by destruct (held_other _ _ _ _ Hok Hh Hj Hne).
Qed.

(** Room for one more buffer. *)
Definition room (s : bcache) (k : bkey) : Prop :=
  k ∈ dirty_keys s \/ (size (busy_keys s ∪ dirty_keys s) < NBUF)%nat.

Section Clients.
Context {D : Driver} {HD : DriverOk D}.

Lemma bread_blk s k : bc_ok s -> accepts k -> fst k <> NODEV -> k ∉ busy_keys s -> room s k ->
  runs (bread (fst k) (snd k)) s (fun i s' =>
    bc_ok s' /\ held s' i k /\ b_data (getb s' i) = view s k /\ (forall k', view s' k' = view s k') /\
    bdisk s' = bdisk s /\ busy_keys s' = {[k]} ∪ busy_keys s /\ dirty_keys s' = dirty_keys s /\
    keeps s s' i /\ (forall j k', held s j k' -> j <> i)).
Proof.
  intros Hok Hacc Hdev Hnb Hroom. eapply runs_mono.
  { apply bread_spec; try done.
    - intros i Hi Hk. destruct (busy (getb s i)) eqn:E; [|done]. exfalso. apply Hnb, elem_of_busy. eauto.
    - destruct Hroom as [Hd|Hr].
      + left. apply elem_of_dirty in Hd as (i & Hi & _ & Hk). eauto.
      + right. pose proof (npin_size s Hok). lia. }
  cbv beta. intros i s' (Hok' & Hd & Hh & Hdat & Hv & Hoth & Hb0 & Hdk & Hdd).
  destruct (Hh) as (Hi & Hk & Hb & Hva).
  assert (Hsame : forall (f : buf -> bool) j, (j < NBUF)%nat -> j <> i ->
            f (getb s' j) = f (getb s j) /\ b_key (getb s' j) = b_key (getb s j)).
  { intros f j _ Hj. by rewrite Hoth. }
  assert (Hnek : forall j, (j < NBUF)%nat -> j <> i -> b_key (getb s j) <> k).
  { intros j Hj Hne. rewrite <- Hoth by done. by eapply held_other. }
  split_and!; try done.
  - unfold busy_keys. rewrite (keys_changed busy s s' i k); try done; [by rewrite Hb|by apply Hsame|congruence|].
    intros j Hj Hji _. by apply Hnek.
  - unfold dirty_keys. rewrite (keys_changed dirty s s' i k); try done; [|by apply Hsame|].
    2:{ intros j Hj Hji _. by apply Hnek. }
    rewrite Hdd. destruct (dirty (getb s i)) eqn:E.
    + assert (k ∈ dirty_keys s) by (apply elem_of_dirty; eauto). change (keys_of dirty s) with (dirty_keys s); set_solver.
    + assert (k ∉ dirty_keys s); [|change (keys_of dirty s) with (dirty_keys s); set_solver].
      intros (j & Hj & Hdj & Hkj)%elem_of_dirty. destruct (decide (j = i)); [congruence|]. by eapply Hnek.
  - by apply keeps_same.
  - intros j k' (_ & _ & Hbj & _) ->. congruence.
Qed.

Lemma set_data_blk s i k d : bc_ok s -> held s i k -> block_ok d ->
  runs (set_data i d) s (fun _ s' => bc_ok s' /\ held s' i k /\ b_data (getb s' i) = d /\
    (forall k', view s' k' = if decide (k' = k) then d else view s k') /\
    bdisk s' = bdisk s /\ busy_keys s' = busy_keys s /\ dirty_keys s' = dirty_keys s /\ keeps s s' i).
Proof.
  intros Hok Hh Hd. eapply runs_mono; [by apply (set_data_spec s i k)|]. cbv beta.
  intros _ s' (Hok' & Hdi & Hh' & Hdat & Hfl & Hvk & Hv & Hoth).
  assert (Heq : forall f : buf -> bool, (forall b b', b_flags b = b_flags b' -> f b = f b') -> keys_of f s' = keys_of f s).
  { intros f Hf. apply keys_same. intros j _. destruct (decide (j = i)) as [->|Hne]; [|by rewrite Hoth].
    split; [by apply Hf|]. destruct Hh as (_ & -> & _), Hh' as (_ & -> & _). done. }
  split_and!; try done.
  - intros k'. case_decide as E; [subst; done|by apply Hv].
  - apply Heq. unfold busy. by intros b b' ->.
  - apply Heq. unfold dirty. by intros b b' ->.
  - by apply keeps_same.
Qed.

Lemma mark_dirty_blk s i k : bc_ok s -> held s i k ->
  let s' := upd_buf i (fun b => set_flags (Z.lor (b_flags b) B_DIRTY) b) s in
  bc_ok s' /\ held s' i k /\ b_data (getb s' i) = b_data (getb s i) /\ (forall k', view s' k' = view s k') /\
  bdisk s' = bdisk s /\ busy_keys s' = busy_keys s /\ dirty_keys s' = {[k]} ∪ dirty_keys s /\ keeps s s' i.
Proof.
  intros Hok Hh s'. destruct (mark_dirty_spec s i k Hok Hh) as (Hok' & Hdi & Hh' & Hdir & Hdat & Hv & Hoth).
  fold s' in Hok', Hdi, Hh', Hdir, Hdat, Hv, Hoth. destruct (Hh) as (Hi & Hk & Hb & _), (Hh') as (_ & Hk' & Hb' & _).
  assert (Hnek : forall j, (j < NBUF)%nat -> j <> i -> b_key (getb s j) <> k)
    by (intros j Hj Hne; by eapply held_other).
  split_and!; try done.
  - unfold busy_keys. rewrite (keys_changed busy s s' i k); try done.
    + rewrite Hb'. pose proof (held_busy _ _ _ Hh). change (keys_of busy s) with (busy_keys s); set_solver.
    + intros j _ Hj. by rewrite Hoth.
    + intros j Hj Hji _. by apply Hnek.
  - unfold dirty_keys. rewrite (keys_changed dirty s s' i k); try done.
    + by rewrite Hdir.
    + intros j _ Hj. by rewrite Hoth.
    + intros j Hj Hji _. by apply Hnek.
  - by apply keeps_same.
Qed.

Lemma bwrite_blk s i k : bc_ok s -> held s i k -> accepts k ->
  runs (bwrite i) s (fun _ s' => bc_ok s' /\ held s' i k /\ b_data (getb s' i) = b_data (getb s i) /\
    (forall k', view s' k' = view s k') /\ bdisk s' = dwrite (bdisk s) k (view s k) /\
    busy_keys s' = busy_keys s /\ dirty_keys s' = dirty_keys s ∖ {[k]} /\ keeps s s' i).
Proof.
  intros Hok Hh Hacc. eapply runs_mono; [by apply (bwrite_spec s i k)|]. cbv beta.
  intros _ s' (Hok' & Hdi & Hh' & Hnd & Hdat & Hv & Hoth). destruct (Hh) as (Hi & Hk & Hb & _), (Hh') as (_ & Hk' & Hb' & _).
  assert (Hnek : forall j, (j < NBUF)%nat -> j <> i -> b_key (getb s j) <> k)
    by (intros j Hj Hne; by eapply held_other).
  split_and!; try done.
  - by rewrite (view_held s i).
  - unfold busy_keys. rewrite (keys_changed busy s s' i k); try done.
    + rewrite Hb'. pose proof (held_busy _ _ _ Hh). change (keys_of busy s) with (busy_keys s); set_solver.
    + intros j _ Hj. by rewrite Hoth.
    + intros j Hj Hji _. by apply Hnek.
  - unfold dirty_keys. rewrite (keys_changed dirty s s' i k); try done.
    + by rewrite Hnd.
    + intros j _ Hj. by rewrite Hoth.
    + intros j Hj Hji _. by apply Hnek.
  - by apply keeps_same.
Qed.

Lemma brelse_blk s i k : bc_ok s -> held s i k -> k ∈ dirty_keys s \/ view s k = dread (bdisk s) k ->
  runs (brelse i) s (fun _ s' => bc_ok s' /\ (forall k', view s' k' = view s k') /\ bdisk s' = bdisk s /\
    busy_keys s' = busy_keys s ∖ {[k]} /\ dirty_keys s' = dirty_keys s /\ keeps s s' i).
Proof.
  intros Hok Hh Hsafe. destruct (bc_dll _ Hok) as [l Hl]. eapply runs_mono.
  { apply (brelse_spec s i k l); try done. rewrite <- (view_held s i k) by done.
    destruct Hsafe as [?|?]; [left; by apply (held_dirty s i k)|by right]. }
  cbv beta. intros _ s' (Hok' & _ & Hdi & Hk' & Hb' & Hva' & Hdd & Hdat & Hv & Hct & _).
  destruct (Hh) as (Hi & Hk & Hb & _).
  assert (Hnek : forall j, (j < NBUF)%nat -> j <> i -> b_key (getb s j) <> k)
    by (intros j Hj Hne; by eapply held_other).
  assert (Hc := fun j Hj Hne => ctn_eq _ _ (Hct j Hj Hne)).
  split_and!; try done.
  - unfold busy_keys. rewrite (keys_changed busy s s' i k); try done.
    + by rewrite Hb'.
    + intros j Hj Hji. destruct (Hc j Hj Hji) as (? & ? & ? & ? & ? & ?). done.
    + intros j Hj Hji _. by apply Hnek.
  - unfold dirty_keys. rewrite (keys_changed dirty s s' i k); try done.
    + rewrite Hdd. pose proof (held_dirty s i k Hok Hh) as Hhd. change (keys_of dirty s) with (dirty_keys s).
      destruct (dirty (getb s i)); [assert (k ∈ dirty_keys s) by (by apply Hhd); set_solver|].
      assert (k ∉ dirty_keys s) by (intros ?; by apply Hhd in H). set_solver.
    + intros j Hj Hji. destruct (Hc j Hj Hji) as (? & ? & ? & ? & ? & ?). done.
    + intros j Hj Hji _. by apply Hnek.
  - by apply keeps_ctn.
Qed.

End Clients.

(** An unlocked block that is not pinned reads as the disk has it. *)
Lemma idle_clean s k : bc_ok s -> k ∉ busy_keys s -> k ∉ dirty_keys s -> view s k = dread (bdisk s) k.
Proof.
  intros Hok Hnb Hnd. apply view_clean; [done|]. intros i Hi Hk. apply orb_false_iff. split.
  - destruct (busy (getb s i)) eqn:E; [|done]. exfalso. apply Hnb, elem_of_busy. eauto.
  - destruct (dirty (getb s i)) eqn:E; [|done]. exfalso. apply Hnd, elem_of_dirty. eauto.
Qed.
