(* ===== verification/Ide.v ===== *)
(** * The IDE disk driver (ide.c)

    The queue of requests, threaded through the buffers, and the commands the
    driver gives to the controller.  The controller is not part of the
    sources: [IdeHw] names what the driver does to its ports, [IdeHwOk] is the
    programmed-I/O protocol the driver relies on.  A process that calls iderw
    sleeps until the interrupt of its request; the driver serves requests in
    the order they came, each with the effect bio.c expects of its driver. *)

From S2P Require Import Prelude.
From S2P Require Import Params.
From S2P Require Import Bio.

Definition SECTOR_SIZE : Z := 512.
Definition IDE_BSY : Z := 128.
Definition IDE_DRDY : Z := 64.
Definition IDE_DF : Z := 32.
Definition IDE_ERR : Z := 1.
Definition IDE_CMD_READ : Z := 32.
Definition IDE_CMD_WRITE : Z := 48.

(** ** The controller *)

(** Reading and writing its ports, and the moment it raises its interrupt. *)
Class IdeHw (H : Type) := {
  h_inb : Z -> H -> Z * H;
  h_outb : Z -> Z -> H -> H;
  h_insl : H -> list Z * H;                (* BSIZE/4 words from 0x1f0 *)
  h_outsl : list Z -> H -> H;              (* BSIZE/4 words to 0x1f0 *)
  h_finish : H -> H
}.

(** What the controller is doing. *)
Inductive ide_mode :=
| Idle
| Failed                                   (* the last read failed *)
| Reading (k : bkey)
| Ready (k : bkey)                         (* the data of a read is there *)
| Writing (k : bkey) (data : list Z).

#[export] Instance ide_mode_dec : EqDecision ide_mode.
Proof. solve_decision. Defined.

(** The drive and the sector in the registers. *)
Definition lba (s0 s1 s2 d : Z) : bkey := (Z.land (Z.shiftr d 4) 1, s0 + 256 * s1 + 65536 * s2 + 16777216 * Z.land d 15).

Class IdeHwOk (H : Type) (HW : IdeHw H) := {
  hw_disk : H -> disk;
  hw_mode : H -> ide_mode;
  hw_polls : H -> nat;                     (* how long it stays busy *)
  hw_slow : nat;
  (** The status register: busy for a while, then ready. *)
  hw_polls_le h : (hw_polls h <= hw_slow)%nat;
  hw_status h : hw_disk (snd (h_inb 503 h)) = hw_disk h /\ hw_mode (snd (h_inb 503 h)) = hw_mode h /\
    (if decide (hw_polls h = 0%nat) then
       Z.land (fst (h_inb 503 h)) (Z.lor IDE_BSY IDE_DRDY) = IDE_DRDY /\
       test (fst (h_inb 503 h)) (Z.lor IDE_DF IDE_ERR) = bool_decide (hw_mode h = Failed)
     else Z.land (fst (h_inb 503 h)) (Z.lor IDE_BSY IDE_DRDY) <> IDE_DRDY /\ (hw_polls (snd (h_inb 503 h)) < hw_polls h)%nat);
  (** A command for one sector. *)
  hw_command h s0 s1 s2 d c : hw_mode h = Idle \/ hw_mode h = Failed ->
    let h' := h_outb 503 c (h_outb 502 d (h_outb 501 s2 (h_outb 500 s1 (h_outb 499 s0 (h_outb 498 1 (h_outb 1014 0 h)))))) in
    (c = IDE_CMD_READ -> hw_disk h' = hw_disk h /\ hw_mode h' = Reading (lba s0 s1 s2 d)) /\
    (c = IDE_CMD_WRITE -> forall x, hw_disk (h_outsl x h') = hw_disk h /\ hw_mode (h_outsl x h') = Writing (lba s0 s1 s2 d) x);
  (** The end of a command, with an interrupt. *)
  hw_finish_read h k : hw_mode h = Reading k -> hw_disk (h_finish h) = hw_disk h /\
    (hw_mode (h_finish h) = Ready k \/ hw_mode (h_finish h) = Failed);
  hw_finish_write h k x : hw_mode h = Writing k x -> hw_disk (h_finish h) = dwrite (hw_disk h) k x /\ hw_mode (h_finish h) = Idle;
  hw_data h k : hw_mode h = Ready k -> fst (h_insl h) = dread (hw_disk h) k /\ hw_disk (snd (h_insl h)) = hw_disk h /\
    hw_mode (snd (h_insl h)) = Idle
}.

(** ** ide.c *)

Section Ide.
Context {H : Type} {HW : IdeHw H}.

Record ide := mkide {
  ib : list buf;                           (* the buffers, bcache.buf[] *)
  iqnext : nat -> option nat;              (* their qnext fields *)
  idequeue : option nat;
  havedisk1 : bool;
  ihw : H;
  iwoken : list chan
}.

Definition ide_buf (s : ide) (i : nat) : buf := nth i (ib s) nobuf.
Definition upd_ib (i : nat) (f : buf -> buf) (s : ide) : ide := mkide (alter f i (ib s)) (iqnext s) (idequeue s) (havedisk1 s) (ihw s) (iwoken s).
Definition set_qnext (i : nat) (q : option nat) (s : ide) : ide :=
  mkide (ib s) (fun j => if decide (j = i) then q else iqnext s j) (idequeue s) (havedisk1 s) (ihw s) (iwoken s).
Definition set_queue (q : option nat) (s : ide) : ide := mkide (ib s) (iqnext s) q (havedisk1 s) (ihw s) (iwoken s).
Definition set_hw (h : H) (s : ide) : ide := mkide (ib s) (iqnext s) (idequeue s) (havedisk1 s) h (iwoken s).
Definition ide_wakeup (c : chan) (s : ide) : ide := mkide (ib s) (iqnext s) (idequeue s) (havedisk1 s) (ihw s) (iwoken s ++ [c]).

Definition inb (p : Z) : M ide Z :=
  s <- get ;; modify (set_hw (snd (h_inb p (ihw s)))) ;;; ret (fst (h_inb p (ihw s))).
Definition outb (p v : Z) : M ide unit := modify (fun s => set_hw (h_outb p v (ihw s)) s).
Definition insl : M ide (list Z) :=
  s <- get ;; modify (set_hw (snd (h_insl (ihw s)))) ;;; ret (fst (h_insl (ihw s))).
Definition outsl (x : list Z) : M ide unit := modify (fun s => set_hw (h_outsl x (ihw s)) s).

Fixpoint idewait (fuel : nat) (checkerr : bool) : M ide Z :=
  match fuel with
  | O => panic "out of fuel"
  | S n =>
      r <- inb 503 ;;
      if negb (Z.land r (Z.lor IDE_BSY IDE_DRDY) =? IDE_DRDY) then idewait n checkerr
      else if checkerr && test r (Z.lor IDE_DF IDE_ERR) then ret (-1)
      else ret 0
  end.

(** ideinit, after it has enabled its interrupt. *)
Definition ideinit (fuel : nat) : M ide unit :=
  idewait fuel false ;;;
  outb 502 (Z.lor 224 (Z.shiftl 1 4)) ;;;
  for_ (seq 0 1000) (fun _ =>
    r <- inb 503 ;;
    if negb (r =? 0) then
      modify (fun s => mkide (ib s) (iqnext s) (idequeue s) true (ihw s) (iwoken s)) ;;; ret (Some tt)
    else ret None) ;;;
  outb 502 (Z.lor 224 (Z.shiftl 0 4)).

Definition idestart (fuel : nat) (b : option nat) : M ide unit :=
  match b with
  | None => panic "idestart"
  | Some i =>
      x <- gets (fun s => ide_buf s i) ;;
      if b_blockno x >=? FSSIZE then panic "incorrect blockno"
      else
        let sector_per_block := BSIZE / SECTOR_SIZE in
        let sector := b_blockno x * sector_per_block in
        if sector_per_block >? 7 then panic "idestart"
        else
          idewait fuel false ;;;
          outb 1014 0 ;;;
          outb 498 sector_per_block ;;;
          outb 499 (Z.land sector 255) ;;;
          outb 500 (Z.land (Z.shiftr sector 8) 255) ;;;
          outb 501 (Z.land (Z.shiftr sector 16) 255) ;;;
          outb 502 (Z.lor (Z.lor 224 (Z.shiftl (Z.land (b_dev x) 1) 4)) (Z.land (Z.shiftr sector 24) 15)) ;;;
          if dirty x then
            outb 503 IDE_CMD_WRITE ;;;
            outsl (b_data x)
          else outb 503 IDE_CMD_READ
  end.

Definition ideintr (fuel : nat) : M ide unit :=
  b <- gets idequeue ;;
  match b with
  | None => ret tt
  | Some i =>
      modify (fun s => set_queue (iqnext s i) s) ;;;
      x <- gets (fun s => ide_buf s i) ;;
      (if negb (dirty x) then
         r <- idewait fuel true ;;
         if r >=? 0 then
           d <- insl ;;
           modify (upd_ib i (set_bdata d))
         else ret tt
       else ret tt) ;;;
      modify (upd_ib i (fun x => set_flags (Z.lor (b_flags x) B_VALID) x)) ;;;
      modify (upd_ib i (fun x => set_flags (Z.land (b_flags x) (Z.lnot B_DIRTY)) x)) ;;;
      modify (ide_wakeup (ChBuf i)) ;;;
      q <- gets idequeue ;;
      match q with
      | None => ret tt
      | Some _ => idestart fuel q
      end
  end.

(** The loop that leaves pp at the end of the queue: [None] is &idequeue and
    [Some b] is &b->qnext. *)
Fixpoint queue_end (fuel : nat) (pp : option nat) : M ide (option nat) :=
  match fuel with
  | O => panic "out of fuel"
  | S n =>
      p <- gets (fun s => match pp with None => idequeue s | Some b => iqnext s b end) ;;
      match p with
      | None => ret pp
      | Some b => queue_end n (Some b)
      end
  end.

(** [while((b->flags & (B_VALID|B_DIRTY)) != B_VALID) sleep(b, &idelock)] *)
Definition iderw_wait (b : nat) : M ide unit :=
  x <- gets (fun s => ide_buf s b) ;;
  if negb (Z.land (b_flags x) (Z.lor B_VALID B_DIRTY) =? B_VALID) then sleep_on (ChBuf b) else ret tt.

Definition ide_iderw (fuel : nat) (b : nat) : M ide unit :=
  x <- gets (fun s => ide_buf s b) ;;
  if negb (busy x) then panic "iderw: buf not busy"
  else if Z.land (b_flags x) (Z.lor B_VALID B_DIRTY) =? B_VALID then panic "iderw: nothing to do"
  else
    have <- gets havedisk1 ;;
    if negb (b_dev x =? 0) && negb have then panic "iderw: ide disk 1 not present"
    else
      modify (set_qnext b None) ;;;
      pp <- queue_end (S NBUF) None ;;
      modify (match pp with None => set_queue (Some b) | Some p => set_qnext p (Some b) end) ;;;
      q <- gets idequeue ;;
      (if decide (q = Some b) then idestart fuel (Some b) else ret tt) ;;;
      iderw_wait b.
End Ide.
Arguments ide : clear implicits.
