(* ===== verification/IdeSpec.v ===== *)
(** * What the disk driver does (ide.c)

    The driver as a queue of requests over a disk: the oldest request is the
    one the controller works on, and its interrupt completes it with the
    effect that [DriverOk] of [Bio] asks of a driver. *)

From S2P Require Import Prelude.
From S2P Require Import Params.
From S2P Require Import Bio.
From S2P Require Import Ide.

(** ** The queue of requests *)

Record ispec := mksp { sp_disk : disk; sp_bufs : list buf; sp_queue : list nat }.

Definition sp_buf (t : ispec) (i : nat) : buf := nth i (sp_bufs t) nobuf.

(** A buffer after its request; a read the disk reports as failed leaves its
    bytes. *)
Definition complete (d : disk) (fails : bool) (x : buf) : buf :=
  if dirty x then set_flags (Z.lor (Z.land (b_flags x) (Z.lnot B_DIRTY)) B_VALID) x
  else set_flags (Z.lor (b_flags x) B_VALID) (if fails then x else set_bdata (dread d (b_key x)) x).

Definition written (d : disk) (x : buf) : disk := if dirty x then dwrite d (b_key x) (b_data x) else d.

Definition serve (fails : bool) (t : ispec) : ispec :=
  match sp_queue t with
  | [] => t
  | i :: q => mksp (written (sp_disk t) (sp_buf t i)) (alter (complete (sp_disk t) fails) i (sp_bufs t)) q
  end.

Definition enqueue (b : nat) (t : ispec) : ispec := mksp (sp_disk t) (sp_bufs t) (sp_queue t ++ [b]).

(** A locked buffer that has to be read or written, of a disk that is there. *)
Definition request (have : bool) (x : buf) : Prop :=
  busy x = true /\ (Z.land (b_flags x) (Z.lor B_VALID B_DIRTY) <> B_VALID) /\
  (b_dev x = 0 \/ b_dev x = 1 /\ have = true) /\ 0 <= b_blockno x < FSSIZE.

(** The condition iderw waits for. *)
Lemma small_bits m n : 0 <= m < 8 -> n <> 0 -> n <> 1 -> n <> 2 -> Z.testbit m n = false.
Proof.
  intros Hm H0 H1 H2. destruct (Z.neg_nonneg_cases n) as [Hn|Hn]; [by apply Z.testbit_neg_r|]. destruct (decide (m = 0)) as [->|]; [apply Z.bits_0|].
  apply Z.bits_above_log2; [lia|]. assert (Z.log2 m < 3) by (apply Z.log2_lt_pow2; lia). lia.
Qed.

Lemma synced_flags x : Z.land (b_flags x) (Z.lor B_VALID B_DIRTY) = B_VALID <-> valid x = true /\ dirty x = false.
Proof.
  unfold valid, dirty, B_VALID, B_DIRTY. rewrite test_2, test_4. change (Z.lor 2 4) with 6. split.
  - intros E. split; [apply (f_equal (fun z => Z.testbit z 1)) in E|apply (f_equal (fun z => Z.testbit z 2)) in E]; rewrite Z.land_spec in E; cbn in E;
      by rewrite andb_true_r in E.
  - intros [H1 H2]. apply Z.bits_inj_iff. intros n. rewrite Z.land_spec. destruct (decide (n = 0)) as [->|]; [apply andb_false_r|].
    destruct (decide (n = 1)) as [->|]; [by rewrite H1|]. destruct (decide (n = 2)) as [->|]; [by rewrite H2|].
    by rewrite (small_bits 6 n), (small_bits 2 n), andb_false_r by (done || lia).
Qed.

Lemma final_flags f : Z.land (Z.lor f B_VALID) (Z.lnot B_DIRTY) = Z.lor (Z.land f (Z.lnot B_DIRTY)) B_VALID.
Proof.
  apply Z.bits_inj_iff. intros n. rewrite !Z.lor_spec, !Z.land_spec, !Z.lor_spec. unfold B_VALID, B_DIRTY.
  destruct (decide (n = 1)) as [->|]; [change (Z.testbit 2 1) with true; change (Z.testbit (Z.lnot 4) 1) with true; by rewrite !orb_true_r|]. replace (Z.testbit 2 n) with false; [by rewrite !orb_false_r|].
  symmetry. destruct (decide (n = 0)) as [->|]; [done|]. destruct (decide (n = 2)) as [->|]; [done|]. apply small_bits; lia.
Qed.

Lemma clean_flags f : test f B_DIRTY = false -> Z.land f (Z.lnot B_DIRTY) = f.
Proof.
  unfold B_DIRTY. rewrite test_4. intros E. apply Z.bits_inj_iff. intros n. rewrite Z.land_spec. destruct (decide (n = 2)) as [->|Hn]; [by rewrite E|].
  destruct (Z.neg_nonneg_cases n) as [Hn'|Hn']; [by rewrite !Z.testbit_neg_r|]. rewrite Z.lnot_spec by done.
  replace (Z.testbit 4 n) with false; [apply andb_true_r|]. symmetry. destruct (decide (n = 0)) as [->|]; [done|].
  destruct (decide (n = 1)) as [->|]; [done|]. apply small_bits; lia.
Qed.

(** Completing a buffer the way ideintr does. *)
Lemma complete_intr d (fails : bool) x :
  complete d fails x = let x1 := if dirty x || fails then x else set_bdata (dread d (b_key x)) x in
    set_flags (Z.land (Z.lor (b_flags x1) B_VALID) (Z.lnot B_DIRTY)) (set_flags (Z.lor (b_flags x1) B_VALID) x1).
Proof.
  unfold complete. cbv zeta. destruct (dirty x) eqn:Ed; cbn [orb].
  - by rewrite final_flags.
  - destruct fails; cbn [set_bdata b_flags]; rewrite final_flags, clean_flags by done; done.
Qed.

Lemma complete_synced d fails x : Z.land (b_flags (complete d fails x)) (Z.lor B_VALID B_DIRTY) = B_VALID.
Proof.
  apply synced_flags. unfold complete. destruct (dirty x) eqn:Ed; [|destruct fails]; unfold valid, dirty, B_VALID, B_DIRTY in *;
    cbn [set_flags set_bdata b_flags]; split; flag_simpl; done.
Qed.

(** It is the contract of bio.c's driver. *)
Lemma complete_driver {D : Driver} {HD : DriverOk D} x d : busy x = true -> Z.land (b_flags x) (Z.lor B_VALID B_DIRTY) <> B_VALID -> accepts (b_key x) ->
  iderw x d = Done (complete d false x) (written d x).
Proof.
  intros Hb Hn Ha. unfold complete, written. destruct (dirty x) eqn:Ed; [by apply iderw_write|]. apply iderw_read; try done.
  destruct (valid x) eqn:Ev; [|done]. exfalso. by apply Hn, synced_flags.
Qed.

(** ** The driver refines the queue *)

Section Refine.
Context {H : Type} {HW : IdeHw H} {HO : IdeHwOk H HW}.

(** The queue threaded through qnext. *)
Fixpoint qlist (nxt : nat -> option nat) (p : option nat) (l : list nat) : Prop :=
  match l with
  | [] => p = None
  | i :: l' => p = Some i /\ qlist nxt (nxt i) l'
  end.

Definition working (x : buf) : ide_mode := if dirty x then Writing (b_key x) (b_data x) else Reading (b_key x).

Record rep (s : ide H) (t : ispec) : Prop := {
  rp_bufs : ib s = sp_bufs t;
  rp_len : length (ib s) = NBUF;
  rp_disk : hw_disk (ihw s) = sp_disk t;
  rp_queue : qlist (iqnext s) (idequeue s) (sp_queue t);
  rp_dup : NoDup (sp_queue t);
  rp_req : forall b, b ∈ sp_queue t -> (b < NBUF)%nat /\ request (havedisk1 s) (sp_buf t b);
  rp_mode : match sp_queue t with
            | [] => hw_mode (ihw s) = Idle \/ hw_mode (ihw s) = Failed
            | i :: _ => hw_mode (ihw s) = working (sp_buf t i)
            end
}.

Lemma idewait_spec s fuel c : (hw_slow < fuel)%nat -> runs (idewait fuel c) s (fun r s' => exists h, s' = set_hw h s /\
  hw_disk h = hw_disk (ihw s) /\ hw_mode h = hw_mode (ihw s) /\ r = if c && bool_decide (hw_mode (ihw s) = Failed) then -1 else 0).
Proof.
  intros Hf. assert (Hp : (hw_polls (ihw s) < fuel)%nat) by (pose proof (hw_polls_le (ihw s)); lia). clear Hf.
  revert s Hp. induction fuel as [|n IH]; intros s Hp; [lia|]. cbn [idewait]. unfold inb. apply runs_bind, runs_bind, runs_gets, runs_bind, runs_modify, runs_ret.
  destruct (hw_status (ihw s)) as (H1 & H2 & H3). case_decide as Hz.
  - destruct H3 as [H3 H4]. rewrite H3, Z.eqb_refl, H4. cbn [negb]. destruct (c && _) eqn:E; apply runs_ret; by eexists.
  - destruct H3 as [H3 H4]. rewrite (proj2 (Z.eqb_neq _ _)) by done. cbn [negb]. eapply runs_mono; [apply IH; cbn [ihw set_hw]; lia|].
    intros r s' (h & -> & E1 & E2 & ->). cbn [ihw set_hw] in *. exists h. split_and!; [done|congruence|congruence|by rewrite H2].
Qed.

Lemma lba_block dev n : dev = 0 \/ dev = 1 -> 0 <= n < FSSIZE ->
  lba (Z.land n 255) (Z.land (Z.shiftr n 8) 255) (Z.land (Z.shiftr n 16) 255) (Z.lor (Z.lor 224 (Z.shiftl (Z.land dev 1) 4)) (Z.land (Z.shiftr n 24) 15)) = (dev, n).
Proof.
  intros Hd Hn. unfold FSSIZE in Hn. change 255 with (Z.ones 8). rewrite !Z.land_ones, !Z.shiftr_div_pow2 by lia.
  rewrite (Z.div_small n (2 ^ 16)), (Z.div_small n (2 ^ 24)) by lia. rewrite Z.land_0_l, Z.lor_0_r. unfold lba.
  assert (Hm : n mod 2 ^ 8 + 256 * ((n / 2 ^ 8) mod 2 ^ 8) + 65536 * (0 mod 2 ^ 8) + 16777216 * 0 = n).
  { rewrite (Z.mod_small (n / 2 ^ 8)) by (split; [apply Z.div_pos; lia|apply Z.div_lt_upper_bound; lia]).
    pose proof (Z.div_mod n (2 ^ 8) ltac:(lia)). change (0 mod 2 ^ 8) with 0. change (2 ^ 8) with 256 in *. lia. }
  destruct Hd as [-> | ->]; apply pair_equal_spec; (split; [reflexivity|exact Hm]).
Qed.

Lemma idestart_spec s i fuel : (hw_slow < fuel)%nat -> request (havedisk1 s) (ide_buf s i) -> hw_mode (ihw s) = Idle \/ hw_mode (ihw s) = Failed ->
  runs (idestart fuel (Some i)) s (fun _ s' => exists h, s' = set_hw h s /\ hw_disk h = hw_disk (ihw s) /\ hw_mode h = working (ide_buf s i)).
Proof.
  intros Hf (_ & _ & Hd & Hb) Hm. cbn [idestart]. apply runs_bind, runs_gets. replace (b_blockno (ide_buf s i) >=? FSSIZE) with false by lia.
  change (BSIZE / SECTOR_SIZE) with 1. rewrite Z.mul_1_r. cbn [Z.gtb Z.compare Pos.compare Pos.compare_cont].
  apply runs_bind. eapply runs_mono; [by apply idewait_spec|]. intros r s1 (h & -> & E1 & E2 & _). do 6 (apply runs_bind, runs_modify).
  cbn [ihw set_hw]. set (x := ide_buf s i) in *. assert (Hd' : b_dev x = 0 \/ b_dev x = 1) by tauto. pose proof (lba_block (b_dev x) (b_blockno x) Hd' Hb) as El.
  assert (Hm' : hw_mode h = Idle \/ hw_mode h = Failed) by (by rewrite E2).
  unfold working, b_key. rewrite <- El. destruct (dirty x).
  - apply runs_bind, runs_modify, runs_modify. destruct (hw_command h (Z.land (b_blockno x) 255) (Z.land (Z.shiftr (b_blockno x) 8) 255)
      (Z.land (Z.shiftr (b_blockno x) 16) 255) (Z.lor (Z.lor 224 (Z.shiftl (Z.land (b_dev x) 1) 4)) (Z.land (Z.shiftr (b_blockno x) 24) 15)) IDE_CMD_WRITE Hm') as [_ Hw].
    destruct (Hw eq_refl (b_data x)) as [W1 W2]. eexists. split; [reflexivity|]. cbn [ihw set_hw]. split; [by rewrite W1|exact W2].
  - apply runs_modify. destruct (hw_command h (Z.land (b_blockno x) 255) (Z.land (Z.shiftr (b_blockno x) 8) 255)
      (Z.land (Z.shiftr (b_blockno x) 16) 255) (Z.lor (Z.lor 224 (Z.shiftl (Z.land (b_dev x) 1) 4)) (Z.land (Z.shiftr (b_blockno x) 24) 15)) IDE_CMD_READ Hm') as [Hr _].
    destruct (Hr eq_refl) as [W1 W2]. eexists. split; [reflexivity|]. cbn [ihw set_hw]. split; [by rewrite W1|exact W2].
Qed.

(** ** The queue *)

Lemma qlist_ext nxt nxt' p l : (forall i, i ∈ l -> nxt' i = nxt i) -> qlist nxt p l -> qlist nxt' p l.
Proof.
  revert p. induction l as [|i l IH]; intros p He; [done|]. intros [-> Hq]. split; [done|]. rewrite He by constructor. apply IH; [|done].
  intros j Hj. apply He. by constructor.
Qed.

Lemma queue_end_spec (s : ide H) pp p l fuel : (match pp with None => idequeue s | Some b => iqnext s b end) = p -> qlist (iqnext s) p l -> (length l < fuel)%nat ->
  queue_end fuel pp s = Done (match last l with Some b => Some b | None => pp end) s.
Proof.
  revert pp p fuel. induction l as [|i l IH]; intros pp p fuel Ep Hq Hf; (destruct fuel as [|n]; [cbn in Hf; lia|]); cbn [queue_end qlist] in *; unfold bind, gets; rewrite Ep.
  - by rewrite Hq.
  - destruct Hq as [-> Hq]. cbn [length] in Hf. rewrite (IH (Some i) (iqnext s i)) by (done || lia). destruct l as [|j l]; [done|].
    rewrite last_cons_cons. destruct (last (j :: l)) eqn:E; [done|]. by apply last_None in E.
Qed.

Lemma qlist_snoc nxt nxt' p l e b : qlist nxt p (l ++ [e]) -> b ∉ l ++ [e] -> NoDup (l ++ [e]) ->
  (forall i, i <> e -> i <> b -> nxt' i = nxt i) -> nxt' e = Some b -> nxt' b = None -> qlist nxt' p ((l ++ [e]) ++ [b]).
Proof.
  intros Hq Hb Hn Hne He Hbn. revert p Hq. induction l as [|i l IH]; intros p Hq; cbn [app qlist] in *.
  - destruct Hq as [-> _]. rewrite He, Hbn. done.
  - destruct Hq as [-> Hq]. apply NoDup_cons in Hn as [Hi Hn]. split; [done|]. rewrite Hne by set_solver. apply IH; set_solver.
Qed.

(** ** One request, one interrupt *)

Lemma rep_buf s t i : rep s t -> ide_buf s i = sp_buf t i.
Proof. intros Hr. unfold ide_buf, sp_buf. by rewrite (rp_bufs _ _ Hr). Qed.

Lemma waits (s : ide H) b : Z.land (b_flags (ide_buf s b)) (Z.lor B_VALID B_DIRTY) <> B_VALID -> iderw_wait b s = Sleep (ChBuf b) s.
Proof. intros Hn. unfold iderw_wait, bind, gets. by rewrite (proj2 (Z.eqb_neq _ _)). Qed.

Lemma queue_short s t : rep s t -> (length (sp_queue t) <= NBUF)%nat.
Proof.
  intros Hr. rewrite <- (length_seq NBUF 0). apply submseteq_length, NoDup_submseteq; [apply (rp_dup _ _ Hr)|].
  intros b Hb. apply elem_of_seq. destruct (rp_req _ _ Hr b Hb). lia.
Qed.

Lemma idle_empty s t : rep s t -> idequeue s = None <-> sp_queue t = [].
Proof. intros Hr. pose proof (rp_queue _ _ Hr) as Hq. destruct (sp_queue t); [done|]. destruct Hq as [-> _]. done. Qed.

(** The queue after iderw has put [b] at its end. *)
Lemma enqueue_rep s t b s' : rep s t -> b ∉ sp_queue t -> (b < NBUF)%nat -> request (havedisk1 s) (sp_buf t b) ->
  ib s' = ib s -> havedisk1 s' = havedisk1 s -> qlist (iqnext s') (idequeue s') (sp_queue t ++ [b]) -> hw_disk (ihw s') = hw_disk (ihw s) ->
  hw_mode (ihw s') = (if decide (sp_queue t = []) then working (sp_buf t b) else hw_mode (ihw s)) -> rep s' (enqueue b t).
Proof.
  intros Hr Hb Hlt Hreq Hib Hh Hq Hd Hm. split; cbn [enqueue sp_bufs sp_disk sp_queue].
  - rewrite Hib. apply (rp_bufs _ _ Hr).
  - rewrite Hib. apply (rp_len _ _ Hr).
  - rewrite Hd. apply (rp_disk _ _ Hr).
  - done.
  - apply NoDup_app. split_and!; [apply (rp_dup _ _ Hr)|set_solver|apply NoDup_singleton].
  - rewrite Hh. intros c [Hc| ->%list_elem_of_singleton]%elem_of_app; [by apply (rp_req _ _ Hr)|done].
  - pose proof (rp_mode _ _ Hr) as Hrm. destruct (sp_queue t) as [|i q]; cbn [app]; rewrite Hm; [by rewrite decide_True|by rewrite decide_False].
Qed.

Lemma iderw_request s t b fuel : (hw_slow < fuel)%nat -> rep s t -> b ∉ sp_queue t -> (b < NBUF)%nat -> request (havedisk1 s) (sp_buf t b) ->
  exists s', ide_iderw fuel b s = Sleep (ChBuf b) s' /\ rep s' (enqueue b t) /\ havedisk1 s' = havedisk1 s.
Proof.
  intros Hf Hr Hb Hlt Hreq. pose proof Hreq as (R1 & R2 & R3 & R4). pose proof (rp_queue _ _ Hr) as Hq. pose proof (queue_short s t Hr) as Hlen.
  unfold ide_iderw. unfold bind at 1, gets at 1. rewrite (rep_buf s t b Hr), R1, (proj2 (Z.eqb_neq _ _)) by done. cbn [negb].
  unfold bind at 1, gets at 1. replace (negb (b_dev (sp_buf t b) =? 0) && negb (havedisk1 s)) with false
    by (destruct R3 as [-> |[-> ->]]; done).
  unfold bind at 1, modify at 1. set (s1 := set_qnext b None s).
  assert (Hq1 : qlist (iqnext s1) (idequeue s1) (sp_queue t)).
  { eapply qlist_ext; [|exact Hq]. intros i Hi. cbn. rewrite decide_False; [done|]. intros ->. done. }
  unfold bind at 1. rewrite (queue_end_spec s1 None (idequeue s1) (sp_queue t)) by (done || lia).
  unfold bind at 1, modify at 1, bind at 1, gets at 1. destruct (sp_queue t) as [|i q] eqn:Et.
  - cbn [last]. cbn [idequeue set_queue]. rewrite decide_True by done. set (s2 := set_queue (Some b) s1). pose proof (rp_mode _ _ Hr) as Hm. rewrite Et in Hm.
    assert (Eb : ide_buf s2 b = sp_buf t b) by (apply (rep_buf s t b Hr)).
    destruct (proj1 (runs_done _ _ _) (idestart_spec s2 b fuel Hf ltac:(rewrite Eb; done) Hm)) as ([] & s3 & E & h & -> & H1 & H2).
    unfold bind at 1. rewrite E. rewrite waits by (unfold ide_buf; cbn; rewrite (rp_bufs _ _ Hr); exact R2). eexists. split; [done|]. split; [|done].
    apply (enqueue_rep s t b); try done; rewrite ?Et; try done; [cbn; by rewrite decide_True|]. cbn [ihw set_hw]. by rewrite H2, Eb, decide_True.
  - destruct (@exists_last _ (i :: q) ltac:(done)) as (l & e & El). rewrite El, last_snoc. cbn [idequeue set_qnext s1]. pose proof Hq as [Hi _]. rewrite Hi.
    assert (Hbi : b <> i) by set_solver. rewrite decide_False by congruence. unfold bind at 1, ret at 1.
    rewrite waits by (unfold ide_buf; cbn; rewrite (rp_bufs _ _ Hr); exact R2). eexists. split; [done|]. split; [|done].
    assert (Hbe : b <> e) by (intros ->; rewrite El in Hb; set_solver).
    apply (enqueue_rep s t b); try done; rewrite ?Et; try done. cbn [idequeue set_qnext iqnext]. rewrite El in *.
    apply (qlist_snoc (iqnext s)); [done|done|rewrite <- Et; apply (rp_dup _ _ Hr)| | |].
    + intros j Hj1 Hj2. cbn. by rewrite !decide_False.
    + by rewrite decide_True.
    + cbn. rewrite decide_False by done. by rewrite decide_True.
Qed.

(** The controller ends its command and raises the interrupt. *)
Definition finish (s : ide H) : ide H := set_hw (h_finish (ihw s)) s.
Definition read_fails (s : ide H) : bool := bool_decide (hw_mode (h_finish (ihw s)) = Failed).

Lemma alter_same {A} (f : A -> A) (i : nat) (l : list A) x : l !! i = Some x -> f x = x -> alter f i l = l.
Proof. intros Hx Hf. rewrite <- (list_alter_id id l i) at 2 by done. apply list_alter_ext; [|done]. intros y Hy. by simplify_eq. Qed.

(** What ideintr does to the head of the queue. *)
Lemma intr_buf s t i q fuel : (hw_slow < fuel)%nat -> rep s t -> sp_queue t = i :: q ->
  runs (x <- gets (fun s => ide_buf s i) ;;
        if negb (dirty x) then
          r <- idewait fuel true ;;
          if r >=? 0 then d <- insl ;; modify (upd_ib i (set_bdata d)) else ret tt
        else ret tt) (set_queue (iqnext s i) (finish s)) (fun _ s' => exists h,
    hw_disk h = written (sp_disk t) (sp_buf t i) /\ (hw_mode h = Idle \/ hw_mode h = Failed) /\
    s' = mkide (alter (fun x => if dirty x || read_fails s then x else set_bdata (dread (sp_disk t) (b_key x)) x) i (ib s))
           (iqnext s) (iqnext s i) (havedisk1 s) h (iwoken s)).
Proof.
  intros Hf Hr Eq. pose proof (rp_mode _ _ Hr) as Hm. rewrite Eq in Hm. set (x := sp_buf t i) in *.
  assert (Ex : ib s !! i = Some x).
  { destruct (rp_req _ _ Hr i) as [Hi _]; [rewrite Eq; constructor|]. unfold x, sp_buf. rewrite <- (rp_bufs _ _ Hr).
    destruct (lookup_lt_is_Some_2 (ib s) i) as [y Hy]; [by rewrite (rp_len _ _ Hr)|]. by rewrite Hy, (nth_lookup_Some _ _ _ _ Hy). }
  assert (Eb : ide_buf (set_queue (iqnext s i) (finish s)) i = x) by (unfold ide_buf; cbn; by rewrite (nth_lookup_Some _ _ _ _ Ex)).
  apply runs_bind, runs_gets. rewrite Eb. unfold working, written, finish, read_fails in *. destruct (dirty x) eqn:Ed; cbn [negb].
  - apply runs_ret. destruct (hw_finish_write _ _ _ Hm) as [F1 F2]. exists (h_finish (ihw s)). rewrite F1, (rp_disk _ _ Hr). split_and!; [done|by left|].
    rewrite (alter_same _ i (ib s) x Ex); [done|by rewrite Ed].
  - destruct (hw_finish_read _ _ Hm) as [F1 F2]. apply runs_bind. eapply runs_mono; [by apply idewait_spec|].
    intros r s1 (h & -> & E1 & E2 & ->). cbn [ihw set_hw set_queue andb] in *. destruct F2 as [F2|F2]; rewrite F2 in *.
    + rewrite bool_decide_eq_false_2 by done. cbn [Z.geb Z.compare]. unfold insl. apply runs_bind, runs_bind, runs_gets, runs_bind, runs_modify, runs_ret, runs_modify.
      cbn [ihw set_hw set_queue upd_ib]. destruct (hw_data h _ E2) as (D1 & D2 & D3). eexists. split_and!; [|by left|].
      * rewrite D2, E1, F1. apply (rp_disk _ _ Hr).
      * unfold upd_ib, set_hw. cbn. f_equal. apply list_alter_ext; [|done]. intros y Hy. simplify_eq. by rewrite Ed, D1, E1, F1, (rp_disk _ _ Hr).
    + rewrite bool_decide_eq_true_2 by done. apply runs_ret. exists h. split_and!; [rewrite E1, F1; apply (rp_disk _ _ Hr)|by right|].
      rewrite (alter_same _ i (ib s) x Ex); [done|by rewrite Ed].
Qed.

Lemma served_rep s t i q f s' : rep s t -> sp_queue t = i :: q -> ib s' = alter (complete (sp_disk t) f) i (sp_bufs t) ->
  qlist (iqnext s') (idequeue s') q -> havedisk1 s' = havedisk1 s -> hw_disk (ihw s') = written (sp_disk t) (sp_buf t i) ->
  match q with
  | [] => hw_mode (ihw s') = Idle \/ hw_mode (ihw s') = Failed
  | j :: _ => hw_mode (ihw s') = working (sp_buf t j)
  end -> rep s' (serve f t).
Proof.
  intros Hr Eq Hib Hq Hh Hd Hm. pose proof (rp_dup _ _ Hr) as Hn. rewrite Eq in Hn. apply NoDup_cons in Hn as [Hi Hn].
  unfold serve. rewrite Eq. assert (Hsame : forall j, j <> i -> sp_buf (mksp (written (sp_disk t) (sp_buf t i)) (alter (complete (sp_disk t) f) i (sp_bufs t)) q) j = sp_buf t j).
  { intros j Hj. unfold sp_buf. cbn [sp_bufs]. by rewrite !nth_lookup, list_lookup_alter_ne by done. }
  split; cbn [sp_bufs sp_disk sp_queue]; try done.
  - rewrite Hib, length_alter, <- (rp_bufs _ _ Hr). apply (rp_len _ _ Hr).
  - intros b Hb. rewrite Hsame by (intros ->; done). rewrite Hh. apply (rp_req _ _ Hr). rewrite Eq. by constructor.
  - destruct q as [|j q]; [done|]. rewrite Hsame by set_solver. done.
Qed.

Lemma ideintr_serves s t i q fuel : (hw_slow < fuel)%nat -> rep s t -> sp_queue t = i :: q ->
  exists s', ideintr fuel (finish s) = Done tt s' /\ rep s' (serve (read_fails s) t) /\ havedisk1 s' = havedisk1 s /\
    iwoken s' = iwoken s ++ [ChBuf i] /\ iderw_wait i s' = Done tt s'.
Proof.
  intros Hf Hr Eq. pose proof (rp_queue _ _ Hr) as Hq. rewrite Eq in Hq. destruct Hq as [Hq1 Hq2]. pose proof (rp_dup _ _ Hr) as Hn. rewrite Eq in Hn.
  apply NoDup_cons in Hn as [Hi Hn]. destruct (rp_req _ _ Hr i) as [Hlt _]; [rewrite Eq; constructor|].
  assert (Hgoal : runs (ideintr fuel) (finish s) (fun _ s' => rep s' (serve (read_fails s) t) /\ havedisk1 s' = havedisk1 s /\
    iwoken s' = iwoken s ++ [ChBuf i] /\ ib s' = alter (complete (sp_disk t) (read_fails s)) i (sp_bufs t))).
  { unfold ideintr. apply runs_bind, runs_gets. cbn [finish idequeue set_hw]. rewrite Hq1. apply runs_bind, runs_modify, runs_assoc, runs_bind.
    eapply runs_mono; [by apply (intr_buf s t i q fuel)|]. intros [] s1 (h & Hd & Hm & ->). do 3 (apply runs_bind, runs_modify). apply runs_bind, runs_gets.
    set (s2 := ide_wakeup _ _). assert (Hb : ib s2 = alter (complete (sp_disk t) (read_fails s)) i (sp_bufs t)).
    { unfold s2. cbn. rewrite !list_alter_alter_eq, (rp_bufs _ _ Hr). apply list_alter_ext; [|done]. intros x _. cbn. by rewrite complete_intr. }
    cbn [s2 idequeue ide_wakeup upd_ib]. destruct q as [|j q].
    - rewrite Hq2. apply runs_ret. split; [|done]. by apply (served_rep s t i []).
    - destruct Hq2 as [Hj Hq2]. rewrite Hj. destruct (rp_req _ _ Hr j) as [_ Hreq]; [rewrite Eq; set_solver|].
      assert (Ej : ide_buf s2 j = sp_buf t j).
      { unfold ide_buf, sp_buf. by rewrite Hb, !nth_lookup, list_lookup_alter_ne by set_solver. }
      eapply runs_mono; [apply (idestart_spec s2 j fuel Hf); [rewrite Ej; exact Hreq|exact Hm]|].
      intros [] s3 (h' & -> & H1 & H2). split; [|done]. apply (served_rep s t i (j :: q)); try done.
      + cbn [ihw set_hw]. by rewrite H1.
      + cbn [ihw set_hw]. by rewrite H2, Ej. }
  apply runs_done in Hgoal as ([] & s' & E & Hrep & Hh & Hw & Hb). exists s'. split_and!; try done. unfold iderw_wait, bind, gets.
  replace (ide_buf s' i) with (complete (sp_disk t) (read_fails s) (sp_buf t i)); [by rewrite complete_synced|].
  unfold ide_buf, sp_buf. rewrite Hb, !nth_lookup, list_lookup_alter_eq. destruct (sp_bufs t !! i) eqn:E1; [done|].
  apply lookup_ge_None in E1. rewrite <- (rp_bufs _ _ Hr), (rp_len _ _ Hr) in E1. lia.
Qed.

(** ** Any sequence of requests and interrupts *)

Inductive ievent := Request (b : nat) | Interrupt.

(** Running the driver on [evs] from [s] keeps it in step with the queue [t]:
    iderw sleeps after queueing a request, ideintr serves the oldest one and
    wakes the process that waits for it, the others stay asleep. *)
Fixpoint in_step (fuel : nat) (evs : list ievent) (s : ide H) (t : ispec) : Prop :=
  ib s = sp_bufs t /\ hw_disk (ihw s) = sp_disk t /\ (forall b, b ∈ sp_queue t -> iderw_wait b s = Sleep (ChBuf b) s) /\
  match evs with
  | [] => True
  | Request b :: evs => b ∉ sp_queue t -> (b < NBUF)%nat -> request (havedisk1 s) (sp_buf t b) ->
      exists s', ide_iderw fuel b s = Sleep (ChBuf b) s' /\ in_step fuel evs s' (enqueue b t)
  | Interrupt :: evs =>
      match sp_queue t with
      | [] => ideintr fuel s = Done tt s /\ in_step fuel evs s t
      | i :: _ => exists s', ideintr fuel (finish s) = Done tt s' /\ iwoken s' = iwoken s ++ [ChBuf i] /\ iderw_wait i s' = Done tt s' /\
                    in_step fuel evs s' (serve (read_fails s) t)
      end
  end.

Lemma rep_in_step fuel evs s t : (hw_slow < fuel)%nat -> rep s t -> in_step fuel evs s t.
Proof.
  intros Hf. revert s t. induction evs as [|e evs IH]; intros s t Hr; cbn [in_step].
  all: split; [apply (rp_bufs _ _ Hr)|split; [apply (rp_disk _ _ Hr)|]].
  all: split; [intros b Hb; apply waits; rewrite (rep_buf s t b Hr); by apply (rp_req _ _ Hr)|].
  1: done. destruct e as [b|].
  - intros Hb Hlt Hreq. destruct (iderw_request s t b fuel Hf Hr Hb Hlt Hreq) as (s' & E & Hr' & _). exists s'. split; [done|by apply IH].
  - destruct (sp_queue t) as [|i q] eqn:Eq.
    + split; [|by apply IH]. pose proof (proj2 (idle_empty s t Hr) Eq) as Hi. unfold ideintr, bind, gets. by rewrite Hi.
    + destruct (ideintr_serves s t i q fuel Hf Hr Eq) as (s' & E & Hr' & _ & Hw & Hd). exists s'. split_and!; [done|done|done|by apply IH].
Qed.

(** C17: The driver serves requests in the order they came, over any sequence
    of requests of processes and interrupts of the controller: iderw queues
    the buffer, starts the controller if it is idle and sleeps; each interrupt
    completes exactly the oldest request with the effect bio.c's driver has
    (a write reaches the disk block, a read gets its bytes unless the disk
    reports an error), wakes its process and starts the next request; no
    panic and no endless wait. *)
Theorem ide_in_order fuel evs s : (hw_slow < fuel)%nat -> length (ib s) = NBUF -> idequeue s = None -> hw_mode (ihw s) = Idle ->
  in_step fuel evs s (mksp (hw_disk (ihw s)) (ib s) []).
Proof.
  intros Hf Hl Hq Hm. apply rep_in_step; [done|]. split; cbn [sp_bufs sp_disk sp_queue]; try done.
  - apply NoDup_nil_2.
  - by intros b ?%elem_of_nil.
  - by left.
Qed.
End Refine.

(** ** A controller that keeps the protocol *)

Module IdeDemo.
Record ctl := mkctl { c_disk : disk; c_mode : ide_mode; c_s0 : Z; c_s1 : Z; c_s2 : Z; c_dev : Z }.

Definition with_mode (m : ide_mode) (h : ctl) : ctl := mkctl (c_disk h) m (c_s0 h) (c_s1 h) (c_s2 h) (c_dev h).
Definition addr (h : ctl) : bkey := lba (c_s0 h) (c_s1 h) (c_s2 h) (c_dev h).

#[export] Instance ctl_hw : IdeHw ctl := {
  h_inb p h := (if bool_decide (c_mode h = Failed) then 65 else 64, h);
  h_outb p v h :=
    if p =? 499 then mkctl (c_disk h) (c_mode h) v (c_s1 h) (c_s2 h) (c_dev h)
    else if p =? 500 then mkctl (c_disk h) (c_mode h) (c_s0 h) v (c_s2 h) (c_dev h)
    else if p =? 501 then mkctl (c_disk h) (c_mode h) (c_s0 h) (c_s1 h) v (c_dev h)
    else if p =? 502 then mkctl (c_disk h) (c_mode h) (c_s0 h) (c_s1 h) (c_s2 h) v
    else if p =? 503 then with_mode (if v =? IDE_CMD_READ then Reading (addr h) else Writing (addr h) []) h
    else h;
  h_insl h := match c_mode h with Ready k => (dread (c_disk h) k, with_mode Idle h) | _ => ([], h) end;
  h_outsl x h := match c_mode h with Writing k _ => with_mode (Writing k x) h | _ => h end;
  h_finish h :=
    match c_mode h with
    | Reading k => with_mode (Ready k) h
    | Writing k x => mkctl (dwrite (c_disk h) k x) Idle (c_s0 h) (c_s1 h) (c_s2 h) (c_dev h)
    | _ => h
    end
}.

#[export] Instance ctl_ok : IdeHwOk ctl ctl_hw.
Proof.
  refine (Build_IdeHwOk _ _ c_disk c_mode (fun _ => 0%nat) 0%nat _ _ _ _ _ _).
  - done.
  - intros h. cbn. split_and!; [done|done|]. rewrite decide_True by done. by case_bool_decide.
  - intros h s0 s1 s2 d c Hm. cbn. split; intros ->; [done|]. intros x. done.
  - intros h k Hm. cbn. rewrite Hm. split; [done|by left].
  - intros h k x Hm. cbn. rewrite Hm. done.
  - intros h k Hm. cbn. rewrite Hm. done.
Defined.

(** Two buffers wait: one to be written, one to be read. *)
Definition bufs0 : list buf :=
  <[3%nat := mkbuf 5 1 7 0 0 (replicate 512 9)]> (<[5%nat := mkbuf 1 1 7 0 0 zero_block]> (replicate NBUF nobuf)).
Definition s0 : ide ctl := mkide bufs0 (fun _ => None) None true (mkctl (mkdisk ∅ []) Idle 0 0 0 0) [].

Lemma ide_in_order_witness :
  in_step 1 [Request 3; Request 5; Interrupt; Interrupt; Interrupt] s0 (mksp (hw_disk (ihw s0)) (ib s0) []).
Proof. apply ide_in_order; [apply Nat.lt_0_1|reflexivity|reflexivity|reflexivity]. Defined.

(** The read gets what the write before it put there. *)
Lemma queued_read : b_data (sp_buf (serve false (serve false (enqueue 5 (enqueue 3 (mksp (hw_disk (ihw s0)) (ib s0) []))))) 5) = replicate 512 9.
Proof. vm_compute. reflexivity. Qed.
End IdeDemo.
