(* ===== verification/Log.v ===== *)
(** * The write-ahead log (log.c)

    [lstate] is the in-memory [struct log] over the buffer cache.  The file
    holds the routines of log.c, the invariant that links the in-memory header
    to the pinned buffers, and the block-level specification of each routine.
    What they add up to across a crash is in [LogCrash]. *)

From S2P Require Import Prelude.
From S2P Require Import Params.
From S2P Require Import Fsfmt.
From S2P Require Import Bio.
From S2P Require Import BioSpec.

(** struct log with its struct logheader *)
Record logst := mklog {
  lg_start : Z;
  lg_size : Z;
  lg_outstanding : Z;
  lg_committing : Z;
  lg_dev : Z;
  lh_n : Z;
  lh_block : list Z       (* LOGSIZE entries *)
}.

Definition set_outstanding (x : Z) (l : logst) : logst :=
  mklog (lg_start l) (lg_size l) x (lg_committing l) (lg_dev l) (lh_n l) (lh_block l).
Definition set_committing (x : Z) (l : logst) : logst :=
  mklog (lg_start l) (lg_size l) (lg_outstanding l) x (lg_dev l) (lh_n l) (lh_block l).
Definition set_lh (n : Z) (b : list Z) (l : logst) : logst :=
  mklog (lg_start l) (lg_size l) (lg_outstanding l) (lg_committing l) (lg_dev l) n b.

Record lstate := mkls {
  ll : logst;
  lbc : bcache;
  lwoken : list chan
}.

Definition upd_log (f : logst -> logst) (s : lstate) : lstate := mkls (f (ll s)) (lbc s) (lwoken s).
Definition set_bc (b : bcache) (s : lstate) : lstate := mkls (ll s) b (lwoken s).
Definition lwakeup (c : chan) (s : lstate) : lstate := mkls (ll s) (lbc s) (lwoken s ++ [c]).

(** Run a buffer-cache routine. *)
Definition bc {A} (m : M bcache A) : M lstate A := lift lbc set_bc m.

(** The [i]-th block number of a log header, in memory or in a block. *)
Definition lh_get (l : logst) (i : nat) : Z := nth i (lh_block l) 0.
Definition hd_n (d : list Z) : Z := s32 (get32 d 0).
Definition hd_block (d : list Z) (i : nat) : Z := s32 (get32 d (4 + 4 * i)).
Definition idx (n : Z) : list nat := seq 0 (Z.to_nat n).

Section Log.
Context {D : Driver}.

(** readsb of fs.c *)
Definition readsb (dev : Z) : M bcache superblock :=
  bp <- bread dev 1 ;;
  d <- bdata bp ;;
  brelse bp ;;;
  ret (sb_of_bytes d).

Definition install_trans : M lstate unit :=
  l <- gets ll ;;
  bc (each (idx (lh_n l)) (fun tail =>
    lbuf <- bread (lg_dev l) (lg_start l + Z.of_nat tail + 1) ;;
    dbuf <- bread (lg_dev l) (lh_get l tail) ;;
    d <- bdata lbuf ;;
    set_data dbuf d ;;;
    bwrite dbuf ;;;
    brelse lbuf ;;;
    brelse dbuf)).

Definition read_head : M lstate unit :=
  l <- gets ll ;;
  buf <- bc (bread (lg_dev l) (lg_start l)) ;;
  d <- bc (bdata buf) ;;
  modify (upd_log (fun l => set_lh (hd_n d)
    (fold_left (fun b i => <[i := hd_block d i]> b) (idx (hd_n d)) (lh_block l)) l)) ;;;
  bc (brelse buf).

(** The header block with [n] block numbers written over [d]. *)
Definition hd_enc (d : list Z) (n : Z) (blk : nat -> Z) : list Z :=
  fold_left (fun d i => put32 d (4 + 4 * i) (blk i)) (idx n) (put32 d 0 n).

Definition write_head : M lstate unit :=
  l <- gets ll ;;
  bc (buf <- bread (lg_dev l) (lg_start l) ;;
      d <- bdata buf ;;
      set_data buf (hd_enc d (lh_n l) (lh_get l)) ;;;
      bwrite buf ;;;
      brelse buf).

Definition recover_from_log : M lstate unit :=
  read_head ;;;
  install_trans ;;;
  modify (upd_log (fun l => set_lh 0 (lh_block l) l)) ;;;
  write_head.

(** sizeof(struct logheader) is 4 + 4 * LOGSIZE *)
Definition initlog (dev : Z) : M lstate unit :=
  if 4 + 4 * LOGSIZE >=? BSIZE then panic "initlog: too big logheader"
  else
    sb <- bc (readsb dev) ;;
    modify (upd_log (fun l => mklog (s32 (sb_logstart sb)) (s32 (sb_nlog sb)) (lg_outstanding l)
                                    (lg_committing l) dev (lh_n l) (lh_block l))) ;;;
    recover_from_log.

Definition begin_op : M lstate unit :=
  l <- gets ll ;;
  if negb (lg_committing l =? 0) then sleep_on ChLog
  else if lh_n l + (lg_outstanding l + 1) * MAXOPBLOCKS >? LOGSIZE then sleep_on ChLog
  else modify (upd_log (fun l => set_outstanding (lg_outstanding l + 1) l)).

Definition write_log : M lstate unit :=
  l <- gets ll ;;
  bc (each (idx (lh_n l)) (fun tail =>
    to <- bread (lg_dev l) (lg_start l + Z.of_nat tail + 1) ;;
    from <- bread (lg_dev l) (lh_get l tail) ;;
    d <- bdata from ;;
    set_data to d ;;;
    bwrite to ;;;
    brelse from ;;;
    brelse to)).

Definition commit : M lstate unit :=
  l <- gets ll ;;
  if lh_n l >? 0 then
    write_log ;;;
    write_head ;;;
    install_trans ;;;
    modify (upd_log (fun l => set_lh 0 (lh_block l) l)) ;;;
    write_head
  else ret tt.

Definition end_op : M lstate unit :=
  modify (upd_log (fun l => set_outstanding (lg_outstanding l - 1) l)) ;;;
  l <- gets ll ;;
  if negb (lg_committing l =? 0) then panic "log.committing"
  else if lg_outstanding l =? 0 then
    modify (upd_log (set_committing 1)) ;;;
    commit ;;;
    modify (upd_log (set_committing 0)) ;;;
    modify (lwakeup ChLog)
  else modify (lwakeup ChLog).

(** The slot of block [b] in the in-memory header: where it already is, or
    the first free one (log absorption). *)
Fixpoint lh_find (n i : nat) (l : logst) (b : Z) : nat :=
  match n with
  | O => i
  | S n' => if lh_get l i =? b then i else lh_find n' (S i) l b
  end.

Definition log_write (b : nat) : M lstate unit :=
  l <- gets ll ;;
  if (lh_n l >=? LOGSIZE) || (lh_n l >=? lg_size l - 1) then panic "too big a transaction"
  else if lg_outstanding l <? 1 then panic "log_write outside of trans"
  else
    blockno <- gets (fun s => b_blockno (getb (lbc s) b)) ;;
    let i := lh_find (Z.to_nat (lh_n l)) 0 l blockno in
    modify (upd_log (fun l => set_lh (if Z.of_nat i =? lh_n l then lh_n l + 1 else lh_n l)
                                     (<[i := blockno]> (lh_block l)) l)) ;;;
    modify (fun s => set_bc (upd_buf b (fun x => set_flags (Z.lor (b_flags x) B_DIRTY) x) (lbc s)) s).

End Log.

(** ** Copying blocks through the cache *)

Lemma runs_bc {A} (m : M bcache A) s (Q : A -> lstate -> Prop) :
  runs m (lbc s) (fun a b => Q a (set_bc b s)) -> runs (bc m) s Q.
Proof. apply runs_lift. Qed.

Lemma runs_bc_seq {A B} (m : M bcache A) (k : A -> M lstate B) s R Q :
  runs m (lbc s) R -> (forall a b, R a b -> runs (k a) (set_bc b s) Q) -> runs (x <- bc m ;; k x) s Q.
Proof. intros Hm Hk. apply runs_bind, runs_bc. eapply runs_mono; [exact Hm|]. auto. Qed.

(** A loop over the first [n] indices with an invariant per index. *)
Lemma runs_idx {S} n (body : nat -> M S unit) (P : nat -> S -> Prop) s Q :
  P 0%nat s -> (forall t s, (t < n)%nat -> P t s -> runs (body t) s (fun _ s' => P (Datatypes.S t) s')) ->
  (forall s, P n s -> Q tt s) -> runs (each (seq 0 n) body) s Q.
Proof.
  intros H0 Hstep Hend.
  apply (runs_each _ _ (fun rem s => exists t, (t <= n)%nat /\ rem = seq t (n - t) /\ P t s)).
  - exists 0%nat. rewrite Nat.sub_0_r. split; [lia|done].
  - intros x rem s' (t & Ht & Hr & HP). destruct (n - t)%nat as [|m] eqn:E; [done|].
    cbn [seq] in Hr. injection Hr as -> ->. eapply runs_mono; [apply Hstep; [lia|done]|].
    intros ? s'' HP'. exists (Datatypes.S t). split; [lia|]. split; [f_equal; lia|done].
  - intros s' (t & Ht & Hr & HP). apply Hend. destruct (n - t)%nat eqn:E; [|done].
    by replace n with t by lia.
Qed.

(** Two blocks locked at once: [k1] then [k2]. *)
Lemma bread2 {D : Driver} {HD : DriverOk D} b k1 k2 (m : nat -> nat -> M bcache unit) R :
  bc_ok b -> quiet b -> accepts k1 -> accepts k2 -> fst k1 <> NODEV -> fst k2 <> NODEV -> k1 <> k2 ->
  k1 ∉ dirty_keys b -> (size (dirty_keys b) < NBUF)%nat ->
  k2 ∈ dirty_keys b \/ (size (dirty_keys b) + 1 < NBUF)%nat ->
  (forall i j b', bc_ok b' -> held b' i k1 -> held b' j k2 -> i <> j ->
     (forall k, view b' k = view b k) -> bdisk b' = bdisk b ->
     busy_keys b' = {[k1; k2]} -> dirty_keys b' = dirty_keys b -> runs (m i j) b' R) ->
  runs (i <- bread (fst k1) (snd k1) ;; j <- bread (fst k2) (snd k2) ;; m i j) b R.
Proof.
  intros Hok Hq Ha1 Ha2 Hd1 Hd2 Hne Hnd Hsz Hroom Hm. unfold quiet in Hq.
  eapply runs_seq; [apply (bread_blk b k1); try done|].
  { rewrite Hq. set_solver. }
  { right. rewrite Hq, union_empty_l_L. done. }
  cbv beta. intros i b1 (Hok1 & Hh1 & _ & Hv1 & Hdk1 & Hb1 & Hdi1 & _ & _).
  rewrite Hq in Hb1. eapply runs_seq; [apply (bread_blk b1 k2); try done|].
  { rewrite Hb1. set_solver. }
  { unfold room. rewrite Hb1, Hdi1. destruct Hroom as [?|?]; [by left|right].
    rewrite union_empty_r_L. rewrite size_union by set_solver. rewrite size_singleton. lia. }
  cbv beta. intros j b2 (Hok2 & Hh2 & _ & Hv2 & Hdk2 & Hb2 & Hdi2 & Hkeep & Hji).
  assert (Hij : i <> j) by (by apply (Hji i k1)).
  destruct (Hkeep i k1 Hij Hh1) as (Hh1' & _ & _). apply Hm; try done.
  - intros k. by rewrite Hv2, Hv1.
  - congruence.
  - rewrite Hb2, Hb1. set_solver.
  - congruence.
Qed.

Lemma dread_dwrite d k x k' : dread (dwrite d k x) k' = if decide (k' = k) then x else dread d k'.
Proof.
  unfold dread, dwrite, img_get. cbn [d_img].
  case_decide; subst; [by rewrite lookup_insert_eq|by rewrite lookup_insert_ne].
Qed.

Section Copy.
Context {D : Driver} {HD : DriverOk D}.

(** One round of [write_log]: the pinned block [kf] is copied to the log
    block [kt] and written there. *)
Lemma write_log_round b kt kf :
  bc_ok b -> quiet b -> accepts kt -> accepts kf -> fst kt <> NODEV -> fst kf <> NODEV -> kt <> kf ->
  kt ∉ dirty_keys b -> (size (dirty_keys b) < NBUF)%nat -> kf ∈ dirty_keys b ->
  runs (to <- bread (fst kt) (snd kt) ;; from <- bread (fst kf) (snd kf) ;; d <- bdata from ;;
        set_data to d ;;; bwrite to ;;; brelse from ;;; brelse to) b (fun _ b' =>
    bc_ok b' /\ quiet b' /\ dirty_keys b' = dirty_keys b /\ bdisk b' = dwrite (bdisk b) kt (view b kf) /\
    forall k, view b' k = if decide (k = kt) then view b kf else view b k).
Proof.
  intros Hok Hq Hat Haf Hdt Hdf Hne Hnd Hsz Hkf.
  apply bread2; try done; [by left|].
  intros i j b1 Hok1 Hi Hj Hij Hv1 Hdk1 Hb1 Hdi1.
  apply runs_bind, runs_gets. rewrite <- (view_held b1 j kf), Hv1 by done.
  eapply runs_seq; [apply (set_data_blk b1 i kt); [done|done|by apply view_ok]|]. cbv beta.
  intros _ b2 (Hok2 & Hi2 & _ & Hv2 & Hdk2 & Hb2 & Hdi2 & Hkp2).
  destruct (Hkp2 j kf ltac:(done) Hj) as (Hj2 & _ & _).
  eapply runs_seq; [by apply (bwrite_blk b2 i kt)|]. cbv beta.
  intros _ b3 (Hok3 & Hi3 & _ & Hv3 & Hdk3 & Hb3 & Hdi3 & Hkp3).
  destruct (Hkp3 j kf ltac:(done) Hj2) as (Hj3 & _ & _).
  assert (Hdi : dirty_keys b3 = dirty_keys b) by (rewrite Hdi3, Hdi2, Hdi1; set_solver).
  eapply runs_seq; [apply (brelse_blk b3 j kf); [done|done|left; by rewrite Hdi]|]. cbv beta.
  intros _ b4 (Hok4 & Hv4 & Hdk4 & Hb4 & Hdi4 & Hkp4).
  destruct (Hkp4 i kt ltac:(done) Hi3) as (Hi4 & _ & _).
  assert (Hkt : view b2 kt = view b kf) by (rewrite Hv2; by rewrite decide_True).
  eapply runs_mono; [apply (brelse_blk b4 i kt); [done|done|right]|].
  { rewrite Hv4, Hv3, Hdk4, Hdk3, dread_dwrite. by rewrite decide_True. }
  cbv beta. intros _ b5 (Hok5 & Hv5 & Hdk5 & Hb5 & Hdi5 & _). split_and!; [done| | | |].
  - unfold quiet. rewrite Hb5, Hb4, Hb3, Hb2, Hb1. set_solver.
  - by rewrite Hdi5, Hdi4.
  - rewrite Hdk5, Hdk4, Hdk3, Hdk2, Hdk1, Hkt. done.
  - intros k. rewrite Hv5, Hv4, Hv3, Hv2. case_decide; [done|]. apply Hv1.
Qed.

(** One round of [install_trans]: the log block [kt] is copied to its home
    [kf] and written there, which unpins the home block. *)
Lemma install_round b kt kf :
  bc_ok b -> quiet b -> accepts kt -> accepts kf -> fst kt <> NODEV -> fst kf <> NODEV -> kt <> kf ->
  kt ∉ dirty_keys b -> (size (dirty_keys b) < NBUF)%nat ->
  kf ∈ dirty_keys b \/ (size (dirty_keys b) + 1 < NBUF)%nat ->
  runs (lbuf <- bread (fst kt) (snd kt) ;; dbuf <- bread (fst kf) (snd kf) ;; d <- bdata lbuf ;;
        set_data dbuf d ;;; bwrite dbuf ;;; brelse lbuf ;;; brelse dbuf) b (fun _ b' =>
    bc_ok b' /\ quiet b' /\ dirty_keys b' = dirty_keys b ∖ {[kf]} /\ bdisk b' = dwrite (bdisk b) kf (view b kt) /\
    forall k, view b' k = if decide (k = kf) then view b kt else view b k).
Proof.
  intros Hok Hq Hat Haf Hdt Hdf Hne Hnd Hsz Hroom.
  assert (Hclean : view b kt = dread (bdisk b) kt).
  { apply idle_clean; [done| |done]. unfold quiet in Hq. rewrite Hq. set_solver. }
  apply bread2; try done.
  intros i j b1 Hok1 Hi Hj Hij Hv1 Hdk1 Hb1 Hdi1.
  apply runs_bind, runs_gets. rewrite <- (view_held b1 i kt), Hv1 by done.
  eapply runs_seq; [apply (set_data_blk b1 j kf); [done|done|by apply view_ok]|]. cbv beta.
  intros _ b2 (Hok2 & Hj2 & _ & Hv2 & Hdk2 & Hb2 & Hdi2 & Hkp2).
  destruct (Hkp2 i kt ltac:(done) Hi) as (Hi2 & _ & _).
  eapply runs_seq; [by apply (bwrite_blk b2 j kf)|]. cbv beta.
  intros _ b3 (Hok3 & Hj3 & _ & Hv3 & Hdk3 & Hb3 & Hdi3 & Hkp3).
  destruct (Hkp3 i kt ltac:(done) Hi2) as (Hi3 & _ & _).
  assert (Hkt : view b2 kf = view b kt) by (rewrite Hv2; by rewrite decide_True).
  eapply runs_seq; [apply (brelse_blk b3 i kt); [done|done|right]|].
  { rewrite Hv3, Hv2, Hdk3, dread_dwrite, !decide_False by done. by rewrite Hv1, Hdk2, Hdk1. }
  cbv beta. intros _ b4 (Hok4 & Hv4 & Hdk4 & Hb4 & Hdi4 & Hkp4).
  destruct (Hkp4 j kf ltac:(done) Hj3) as (Hj4 & _ & _).
  eapply runs_mono; [apply (brelse_blk b4 j kf); [done|done|right]|].
  { rewrite Hv4, Hv3, Hdk4, Hdk3, dread_dwrite. by rewrite decide_True. }
  cbv beta. intros _ b5 (Hok5 & Hv5 & Hdk5 & Hb5 & Hdi5 & _). split_and!; [done| | | |].
  - unfold quiet. rewrite Hb5, Hb4, Hb3, Hb2, Hb1. set_solver.
  - by rewrite Hdi5, Hdi4, Hdi3, Hdi2, Hdi1.
  - rewrite Hdk5, Hdk4, Hdk3, Hdk2, Hdk1, Hkt. done.
  - intros k. rewrite Hv5, Hv4, Hv3, Hv2. case_decide; [done|]. apply Hv1.
Qed.

(** Rewriting one clean block [k] in place: [write_head] on the header. *)
Lemma rewrite_block b k (f : list Z -> list Z) :
  bc_ok b -> quiet b -> accepts k -> fst k <> NODEV -> k ∉ dirty_keys b -> (size (dirty_keys b) < NBUF)%nat ->
  block_ok (f (view b k)) ->
  runs (buf <- bread (fst k) (snd k) ;; d <- bdata buf ;; set_data buf (f d) ;;; bwrite buf ;;; brelse buf) b
    (fun _ b' => bc_ok b' /\ quiet b' /\ dirty_keys b' = dirty_keys b /\
       bdisk b' = dwrite (bdisk b) k (f (view b k)) /\
       forall k', view b' k' = if decide (k' = k) then f (view b k) else view b k').
Proof.
  intros Hok Hq Hacc Hdev Hnd Hsz Hf. unfold quiet in Hq.
  eapply runs_seq; [apply (bread_blk b k); try done|].
  { rewrite Hq. set_solver. }
  { right. by rewrite Hq, union_empty_l_L. }
  cbv beta. intros i b1 (Hok1 & Hh1 & Hdat1 & Hv1 & Hdk1 & Hb1 & Hdi1 & _ & _).
  apply runs_bind, runs_gets. rewrite Hdat1.
  eapply runs_seq; [by apply (set_data_blk b1 i k)|]. cbv beta.
  intros _ b2 (Hok2 & Hh2 & _ & Hv2 & Hdk2 & Hb2 & Hdi2 & _).
  eapply runs_seq; [by apply (bwrite_blk b2 i k)|]. cbv beta.
  intros _ b3 (Hok3 & Hh3 & _ & Hv3 & Hdk3 & Hb3 & Hdi3 & _).
  assert (Hk : view b2 k = f (view b k)) by (rewrite Hv2; by rewrite decide_True).
  eapply runs_mono; [apply (brelse_blk b3 i k); [done|done|right]|].
  { rewrite Hv3, Hdk3, dread_dwrite. by rewrite decide_True. }
  cbv beta. intros _ b4 (Hok4 & Hv4 & Hdk4 & Hb4 & Hdi4 & _). split_and!; [done| | | |].
  - unfold quiet. rewrite Hb4, Hb3, Hb2, Hb1, Hq. set_solver.
  - rewrite Hdi4, Hdi3, Hdi2, Hdi1. set_solver.
  - by rewrite Hdk4, Hdk3, Hdk2, Hdk1, Hk.
  - intros k'. rewrite Hv4, Hv3, Hv2. case_decide; [done|]. apply Hv1.
Qed.

(** Reading a clean block and releasing it. *)
Lemma read_block {A} (f : list Z -> A) b k :
  bc_ok b -> accepts k -> fst k <> NODEV -> k ∉ busy_keys b -> room b k ->
  k ∈ dirty_keys b \/ view b k = dread (bdisk b) k ->
  runs (buf <- bread (fst k) (snd k) ;; d <- bdata buf ;; brelse buf ;;; ret (f d)) b
    (fun x b' => x = f (view b k) /\ bc_ok b' /\ busy_keys b' = busy_keys b /\ dirty_keys b' = dirty_keys b /\
       bdisk b' = bdisk b /\ forall k', view b' k' = view b k').
Proof.
  intros Hok Hacc Hdev Hnb Hroom Hsafe.
  eapply runs_seq; [by apply (bread_blk b k)|].
  cbv beta. intros i b1 (Hok1 & Hh1 & Hdat1 & Hv1 & Hdk1 & Hb1 & Hdi1 & _ & _).
  apply runs_bind, runs_gets. rewrite Hdat1.
  eapply runs_seq; [apply (brelse_blk b1 i k); [done|done|by rewrite Hdi1, Hv1, Hdk1]|].
  cbv beta. intros _ b2 (Hok2 & Hv2 & Hdk2 & Hb2 & Hdi2 & _). apply runs_ret. split_and!; try done.
  - rewrite Hb2, Hb1. set_solver.
  - by rewrite Hdi2, Hdi1.
  - by rewrite Hdk2, Hdk1.
  - intros k'. by rewrite Hv2, Hv1.
Qed.
End Copy.

(** ** The log's geometry and invariant *)

Definition lkey (l : logst) (b : Z) : bkey := (lg_dev l, b).
Definition hdr (l : logst) : bkey := lkey l (lg_start l).
Definition logblk (l : logst) (t : nat) : bkey := lkey l (lg_start l + Z.of_nat t + 1).
Definition homeblk (l : logst) (t : nat) : bkey := lkey l (lh_get l t).
Definition in_log (l : logst) (b : Z) : Prop := lg_start l <= b < lg_start l + lg_size l.
Definition ln (l : logst) : nat := Z.to_nat (lh_n l).
Definition logged (l : logst) : list Z := take (ln l) (lh_block l).
Definition lset (l : logst) : gset (Z * Z) := list_to_set (List.map (lkey l) (logged l)).

Section Geometry.
Context {D : Driver}.

(** The log lies on the disk and its header has room for [lg_size - 1] blocks. *)
Record log_geom (l : logst) : Prop := {
  gm_dev : lg_dev l <> NODEV;
  gm_size : 2 <= lg_size l <= LOGSIZE;
  gm_start : 0 <= lg_start l /\ lg_start l + lg_size l < 2147483648;
  gm_acc : forall b, in_log l b -> accepts (lkey l b);
  gm_len : length (lh_block l) = Z.to_nat LOGSIZE
}.

(** The blocks of the header are distinct blocks outside the log. *)
Record lh_ok (l : logst) : Prop := {
  lo_n : 0 <= lh_n l <= lg_size l - 1;
  lo_nodup : NoDup (logged l);
  lo_home : forall b, b ∈ logged l -> ~ in_log l b /\ accepts (lkey l b) /\ 0 <= b < 2147483648
}.

(** The invariant of a running system: the pinned buffers are exactly the
    blocks of the in-memory header. *)
Record log_ok (s : lstate) : Prop := {
  lk_bc : bc_ok (lbc s);
  lk_geom : log_geom (ll s);
  lk_lh : lh_ok (ll s);
  lk_dirty : dirty_keys (lbc s) = lset (ll s)
}.
End Geometry.

Lemma lkey_inj l b b' : lkey l b = lkey l b' -> b = b'.
Proof. by intros [= ->]. Qed.

Section LogFacts.
Context {D : Driver}.
Implicit Types l : logst.

Lemma length_logged l : log_geom l -> lh_ok l -> length (logged l) = ln l.
Proof.
  intros Hg Hl. unfold logged. rewrite length_take, (gm_len _ Hg). unfold ln.
  pose proof (lo_n _ Hl). pose proof (gm_size _ Hg). lia.
Qed.

Lemma ln_lt l : log_geom l -> lh_ok l -> (ln l < NBUF)%nat.
Proof.
  intros Hg Hl. unfold ln, NBUF. pose proof (lo_n _ Hl). pose proof (gm_size _ Hg).
  change LOGSIZE with 30 in *. lia.
Qed.

Lemma logged_lookup l t : log_geom l -> lh_ok l -> (t < ln l)%nat -> logged l !! t = Some (lh_get l t).
Proof.
  intros Hg Hl Ht. unfold logged. rewrite lookup_take_lt by done. unfold lh_get.
  destruct (nth_lookup_or_length (lh_block l) t 0) as [?|Hn]; [done|].
  rewrite (gm_len _ Hg) in Hn. pose proof (ln_lt l Hg Hl). change (Z.to_nat LOGSIZE) with NBUF in Hn. lia.
Qed.

Lemma elem_of_logged l b : log_geom l -> lh_ok l -> b ∈ logged l <-> exists t, (t < ln l)%nat /\ lh_get l t = b.
Proof.
  intros Hg Hl. rewrite list_elem_of_lookup. split.
  - intros [t Ht]. pose proof (lookup_lt_Some _ _ _ Ht) as Hlt. rewrite length_logged in Hlt by done.
    exists t. split; [done|]. rewrite logged_lookup in Ht by done. by injection Ht.
  - intros (t & Ht & <-). exists t. by apply logged_lookup.
Qed.

Lemma elem_of_lset l k : log_geom l -> lh_ok l -> k ∈ lset l <-> exists t, (t < ln l)%nat /\ homeblk l t = k.
Proof.
  intros Hg Hl. unfold lset, homeblk. rewrite elem_of_list_to_set, list_elem_of_In, in_map_iff. split.
  - intros (b & <- & Hb). apply list_elem_of_In, elem_of_logged in Hb as (t & Ht & <-); [eauto|done|done].
  - intros (t & Ht & <-). exists (lh_get l t). split; [done|]. apply list_elem_of_In, elem_of_logged; eauto.
Qed.

Lemma size_lset l : log_geom l -> lh_ok l -> size (lset l) = ln l.
Proof.
  intros Hg Hl. unfold lset. rewrite size_list_to_set.
  - rewrite length_map. by apply length_logged.
  - apply NoDup_fmap_2_strong; [|apply (lo_nodup _ Hl)]. intros b b' _ _. apply lkey_inj.
Qed.

Lemma homeblk_home l t : log_geom l -> lh_ok l -> (t < ln l)%nat ->
  ~ in_log l (lh_get l t) /\ accepts (homeblk l t) /\ 0 <= lh_get l t < 2147483648.
Proof.
  intros Hg Hl Ht. destruct (lo_home _ Hl (lh_get l t)) as (? & ? & ?); [|done].
  apply elem_of_logged; eauto.
Qed.

Lemma homeblk_inj l t t' : log_geom l -> lh_ok l -> (t < ln l)%nat -> (t' < ln l)%nat ->
  homeblk l t = homeblk l t' -> t = t'.
Proof.
  intros Hg Hl Ht Ht' He. apply lkey_inj in He.
  eapply NoDup_lookup; [apply (lo_nodup _ Hl)|by apply logged_lookup|]. rewrite He. by apply logged_lookup.
Qed.

Lemma in_log_logblk l t : log_geom l -> lh_ok l -> (t < ln l)%nat -> in_log l (lg_start l + Z.of_nat t + 1).
Proof. intros Hg Hl Ht. unfold in_log, ln in *. pose proof (lo_n _ Hl). lia. Qed.

Lemma in_log_hdr l : log_geom l -> in_log l (lg_start l).
Proof. intros Hg. unfold in_log. pose proof (gm_size _ Hg). lia. Qed.

Lemma logblk_not_home l t t' : log_geom l -> lh_ok l -> (t < ln l)%nat -> (t' < ln l)%nat -> logblk l t <> homeblk l t'.
Proof.
  intros Hg Hl Ht Ht' He%lkey_inj. destruct (homeblk_home l t' Hg Hl Ht') as (Hn & _). apply Hn.
  rewrite <- He. by apply in_log_logblk.
Qed.

Lemma logblk_not_lset l t : log_geom l -> lh_ok l -> (t < ln l)%nat -> logblk l t ∉ lset l.
Proof. intros Hg Hl Ht (t' & Ht' & He)%elem_of_lset; [|done|done]. apply (logblk_not_home l t t'); auto. Qed.

Lemma hdr_not_lset l : log_geom l -> lh_ok l -> hdr l ∉ lset l.
Proof.
  intros Hg Hl (t & Ht & He)%elem_of_lset; [|done|done]. apply lkey_inj in He.
  destruct (homeblk_home l t Hg Hl Ht) as (Hn & _). apply Hn. rewrite He. by apply in_log_hdr.
Qed.

Lemma logblk_inj l t t' : logblk l t = logblk l t' -> t = t'.
Proof. intros He%lkey_inj. lia. Qed.

Lemma logblk_not_hdr l t : logblk l t <> hdr l.
Proof. intros He%lkey_inj. lia. Qed.
End LogFacts.

(** ** What the log writes *)

Definition dwrites (d : disk) (ws : list (bkey * list Z)) : disk :=
  fold_left (fun d w => dwrite d (fst w) (snd w)) ws d.

Lemma dwrites_app d ws1 ws2 : dwrites d (ws1 ++ ws2) = dwrites (dwrites d ws1) ws2.
Proof. apply fold_left_app. Qed.

(** The log blocks written by [write_log], the home blocks written by
    [install_trans], for the contents [v]. *)
Definition log_writes (l : logst) (v : bkey -> list Z) (n : nat) : list (bkey * list Z) :=
  List.map (fun t => (logblk l t, v (homeblk l t))) (seq 0 n).
Definition home_writes (l : logst) (c : nat -> list Z) (n : nat) : list (bkey * list Z) :=
  List.map (fun t => (homeblk l t, c t)) (seq 0 n).

Lemma log_writes_S l v n : log_writes l v (S n) = log_writes l v n ++ [(logblk l n, v (homeblk l n))].
Proof. unfold log_writes. by rewrite seq_S, map_app. Qed.
Lemma home_writes_S l c n : home_writes l c (S n) = home_writes l c n ++ [(homeblk l n, c n)].
Proof. unfold home_writes. by rewrite seq_S, map_app. Qed.

Section LogSpecs.
Context {D : Driver} {HD : DriverOk D}.

(** write_log copies every logged block to its log slot. *)
Lemma write_log_spec s : log_ok s -> quiet (lbc s) ->
  runs write_log s (fun _ s' =>
    ll s' = ll s /\ lwoken s' = lwoken s /\ bc_ok (lbc s') /\ quiet (lbc s') /\
    dirty_keys (lbc s') = dirty_keys (lbc s) /\
    bdisk (lbc s') = dwrites (bdisk (lbc s)) (log_writes (ll s) (view (lbc s)) (ln (ll s))) /\
    (forall t, (t < ln (ll s))%nat -> view (lbc s') (logblk (ll s) t) = view (lbc s) (homeblk (ll s) t)) /\
    (forall k, (forall t, (t < ln (ll s))%nat -> k <> logblk (ll s) t) -> view (lbc s') k = view (lbc s) k)).
Proof.
  intros Hok Hq. destruct Hok as [Hbc Hg Hl Hdi]. unfold write_log. apply runs_bind, runs_gets, runs_bc.
  set (l := ll s) in *. set (b0 := lbc s) in *.
  apply (runs_idx _ _ (fun t b => bc_ok b /\ quiet b /\ dirty_keys b = dirty_keys b0 /\
    bdisk b = dwrites (bdisk b0) (log_writes l (view b0) t) /\
    (forall j, (j < t)%nat -> view b (logblk l j) = view b0 (homeblk l j)) /\
    (forall k, (forall j, (j < t)%nat -> k <> logblk l j) -> view b k = view b0 k))).
  - split_and!; try done. intros j Hj. lia.
  - intros t b Ht (Hb & Hqb & Hdb & Hdk & Hv1 & Hv2).
    change (bread (lg_dev l) (lg_start l + Z.of_nat t + 1)) with (bread (fst (logblk l t)) (snd (logblk l t))).
    change (bread (lg_dev l) (lh_get l t)) with (bread (fst (homeblk l t)) (snd (homeblk l t))).
    destruct (homeblk_home l t Hg Hl Ht) as (_ & Hacc & _).
    assert (Hvt : view b (homeblk l t) = view b0 (homeblk l t)).
    { apply Hv2. intros j Hj. intros E. symmetry in E. revert E. apply logblk_not_home; [done|done| |done].
      unfold ln in *. lia. }
    eapply runs_mono; [apply (write_log_round b (logblk l t) (homeblk l t)); try done|].
    + apply (gm_acc _ Hg). by apply in_log_logblk.
    + apply (gm_dev _ Hg).
    + apply (gm_dev _ Hg).
    + by apply logblk_not_home.
    + rewrite Hdb, Hdi. by apply logblk_not_lset.
    + rewrite Hdb, Hdi, size_lset by done. by apply ln_lt.
    + rewrite Hdb, Hdi. apply elem_of_lset; eauto.
    + cbv beta. intros _ b' (Hb' & Hq' & Hd' & Hdk' & Hv'). split_and!; [done|done|congruence| | |].
      * rewrite Hdk', Hdk, Hvt, log_writes_S, dwrites_app. done.
      * intros j Hj. rewrite Hv'. case_decide as E.
        -- apply logblk_inj in E as ->. done.
        -- apply Hv1. assert (j <> t) by congruence. lia.
      * intros k Hk. rewrite Hv'. rewrite decide_False by (apply Hk; lia). apply Hv2. intros j Hj. apply Hk. lia.
  - intros b (Hb & Hqb & Hdb & Hdk & Hv1 & Hv2). split_and!; done.
Qed.

(** install_trans copies every log slot to its home and unpins it. *)
Lemma install_trans_spec s : bc_ok (lbc s) -> log_geom (ll s) -> lh_ok (ll s) -> quiet (lbc s) ->
  dirty_keys (lbc s) ⊆ lset (ll s) ->
  runs install_trans s (fun _ s' =>
    ll s' = ll s /\ lwoken s' = lwoken s /\ bc_ok (lbc s') /\ quiet (lbc s') /\ dirty_keys (lbc s') = ∅ /\
    bdisk (lbc s') = dwrites (bdisk (lbc s))
      (home_writes (ll s) (fun t => view (lbc s) (logblk (ll s) t)) (ln (ll s))) /\
    (forall t, (t < ln (ll s))%nat -> view (lbc s') (homeblk (ll s) t) = view (lbc s) (logblk (ll s) t)) /\
    (forall k, k ∉ lset (ll s) -> view (lbc s') k = view (lbc s) k)).
Proof.
  intros Hbc Hg Hl Hq Hdi. unfold install_trans. apply runs_bind, runs_gets, runs_bc.
  set (l := ll s) in *. set (b0 := lbc s) in *.
  apply (runs_idx _ _ (fun t b => bc_ok b /\ quiet b /\
    dirty_keys b ⊆ lset l /\ (forall j, (j < t)%nat -> homeblk l j ∉ dirty_keys b) /\
    bdisk b = dwrites (bdisk b0) (home_writes l (fun t => view b0 (logblk l t)) t) /\
    (forall j, (j < t)%nat -> view b (homeblk l j) = view b0 (logblk l j)) /\
    (forall k, (forall j, (j < t)%nat -> k <> homeblk l j) -> view b k = view b0 k))).
  - split_and!; try done; intros j Hj; lia.
  - intros t b Ht (Hb & Hqb & Hdb & Hdn & Hdk & Hv1 & Hv2).
    change (bread (lg_dev l) (lg_start l + Z.of_nat t + 1)) with (bread (fst (logblk l t)) (snd (logblk l t))).
    change (bread (lg_dev l) (lh_get l t)) with (bread (fst (homeblk l t)) (snd (homeblk l t))).
    destruct (homeblk_home l t Hg Hl Ht) as (_ & Hacc & _).
    pose proof (ln_lt l Hg Hl) as Hlt. pose proof (size_lset l Hg Hl) as Hsz.
    assert (Hvt : view b (logblk l t) = view b0 (logblk l t)).
    { apply Hv2. intros j Hj. apply logblk_not_home; try done. unfold ln in *. lia. }
    eapply runs_mono; [apply (install_round b (logblk l t) (homeblk l t)); try done|].
    + apply (gm_acc _ Hg). by apply in_log_logblk.
    + apply (gm_dev _ Hg).
    + apply (gm_dev _ Hg).
    + by apply logblk_not_home.
    + intros Hin. apply (logblk_not_lset l t); auto.
    + apply subseteq_size in Hdb. lia.
    + destruct (decide (homeblk l t ∈ dirty_keys b)) as [?|Hn]; [by left|right].
      assert (Hsub : {[homeblk l t]} ∪ dirty_keys b ⊆ lset l).
      { assert (homeblk l t ∈ lset l) by (apply elem_of_lset; eauto). set_solver. }
      apply subseteq_size in Hsub. rewrite size_union, size_singleton in Hsub by set_solver. lia.
    + cbv beta. intros _ b' (Hb' & Hq' & Hd' & Hdk' & Hv'). split_and!; [done|done| | | | |].
      * rewrite Hd'. set_solver.
      * intros j Hj. rewrite Hd'. destruct (decide (j = t)) as [->|Hne]; [set_solver|].
        assert (homeblk l j ∉ dirty_keys b) by (apply Hdn; lia). set_solver.
      * rewrite Hdk', Hdk, Hvt, home_writes_S, dwrites_app. done.
      * intros j Hj. rewrite Hv'. case_decide as E.
        -- apply homeblk_inj in E as ->; try done. unfold ln in *. lia.
        -- apply Hv1. assert (j <> t) by congruence. lia.
      * intros k Hk. rewrite Hv'. rewrite decide_False by (apply Hk; lia). apply Hv2. intros j Hj. apply Hk. lia.
  - intros b (Hb & Hqb & Hdb & Hdn & Hdk & Hv1 & Hv2). split_and!; try done.
    + apply elem_of_equiv_empty_L. intros k Hk. assert (Hk' := Hdb _ Hk).
      apply elem_of_lset in Hk' as (t & Ht & <-); [|done|done]. by apply (Hdn t).
    + intros k Hk. apply Hv2. intros j Hj ->. apply Hk. apply elem_of_lset; eauto.
Qed.

(** ** The header block *)

Lemma hd_enc_fold d n blk m : (Z.to_nat n <= 30)%nat -> (m <= Z.to_nat n)%nat -> length d = 512%nat ->
  let d' := fold_left (fun d i => put32 d (4 + 4 * i) (blk i)) (seq 0 m) (put32 d 0 n) in
  length d' = 512%nat /\ get32 d' 0 = u32 n /\ (forall i, (i < m)%nat -> get32 d' (4 + 4 * i) = u32 (blk i)) /\
  (Forall byte_ok d -> Forall byte_ok d').
Proof.
  intros Hn Hm Hd. cbv zeta. induction m as [|m IH].
  - cbn [seq fold_left]. split_and!.
    + rewrite length_put32; lia.
    + apply get32_put32_eq. lia.
    + intros i Hi. lia.
    + intros Hb. unfold put32. auto with kernel.
  - destruct IH as (IH1 & IH2 & IH3 & IH4); [lia|]. rewrite seq_S, fold_left_app. cbn [fold_left Nat.add].
    set (d' := fold_left _ (seq 0 m) _) in *. split_and!.
    + rewrite length_put32; lia.
    + rewrite get32_put32_ne by lia. done.
    + intros i Hi. destruct (decide (i = m)) as [->|Hne]; [apply get32_put32_eq; lia|].
      rewrite get32_put32_ne by lia. apply IH3. lia.
    + intros Hb. unfold put32. apply Forall_splice; [auto|apply le_bytes_ok].
Qed.

Lemma hd_enc_ok d n blk : 0 <= n <= 30 -> (forall i, (i < Z.to_nat n)%nat -> 0 <= blk i < 2147483648) ->
  block_ok d -> block_ok (hd_enc d n blk) /\ hd_n (hd_enc d n blk) = n /\
  (forall i, (i < Z.to_nat n)%nat -> hd_block (hd_enc d n blk) i = blk i).
Proof.
  intros Hn Hb [Hd Hby]. destruct (hd_enc_fold d n blk (Z.to_nat n)) as (H1 & H2 & H3 & H4); [lia|lia|done|].
  fold (idx n) in *. fold (hd_enc d n blk) in *. split; [split; auto|]. split.
  - unfold hd_n. rewrite H2, u32_id, s32_id by lia. done.
  - intros i Hi. unfold hd_block. specialize (Hb i Hi). rewrite H3, u32_id, s32_id by (done || lia). done.
Qed.

(** write_head writes the in-memory header to the header block. *)
Lemma write_head_spec s : bc_ok (lbc s) -> log_geom (ll s) -> lh_ok (ll s) -> quiet (lbc s) ->
  dirty_keys (lbc s) ⊆ lset (ll s) ->
  let h := hd_enc (view (lbc s) (hdr (ll s))) (lh_n (ll s)) (lh_get (ll s)) in
  runs write_head s (fun _ s' =>
    ll s' = ll s /\ lwoken s' = lwoken s /\ bc_ok (lbc s') /\ quiet (lbc s') /\
    dirty_keys (lbc s') = dirty_keys (lbc s) /\ bdisk (lbc s') = dwrite (bdisk (lbc s)) (hdr (ll s)) h /\
    forall k, view (lbc s') k = if decide (k = hdr (ll s)) then h else view (lbc s) k).
Proof.
  intros Hbc Hg Hl Hq Hdi h. unfold write_head. apply runs_bind, runs_gets, runs_bc.
  set (l := ll s) in *. change (bread (lg_dev l) (lg_start l)) with (bread (fst (hdr l)) (snd (hdr l))).
  pose proof (ln_lt l Hg Hl) as Hlt. pose proof (lo_n _ Hl). pose proof (gm_size _ Hg).
  eapply runs_mono; [apply (rewrite_block (lbc s) (hdr l) (fun d => hd_enc d (lh_n l) (lh_get l))); try done|].
  - apply (gm_acc _ Hg), in_log_hdr, Hg.
  - apply (gm_dev _ Hg).
  - intros Hin. apply (hdr_not_lset l); auto.
  - apply subseteq_size in Hdi. rewrite size_lset in Hdi by done. lia.
  - apply hd_enc_ok; [change LOGSIZE with 30 in *; lia| |by apply view_ok].
    intros i Hi. by apply homeblk_home.
  - cbv beta. intros _ b' (H1 & H2 & H3 & H4 & H5). split_and!; done.
Qed.
End LogSpecs.

Lemma home_writes_ext l c c' n : (forall t, (t < n)%nat -> c t = c' t) -> home_writes l c n = home_writes l c' n.
Proof. intros H. apply map_ext_in. intros t Ht. apply in_seq in Ht. rewrite H; [done|lia]. Qed.

(** The header blocks that open and close the commit of [l], over the current
    contents [v]. *)
Definition head_on (l : logst) (v : bkey -> list Z) : list Z := hd_enc (v (hdr l)) (lh_n l) (lh_get l).
Definition head_off (l : logst) (v : bkey -> list Z) : list Z := hd_enc (head_on l v) 0 (lh_get l).

(** The disk writes of one commit, in order. *)
Definition commit_writes (l : logst) (v : bkey -> list Z) : list (bkey * list Z) :=
  log_writes l v (ln l) ++ [(hdr l, head_on l v)] ++
  home_writes l (fun t => v (homeblk l t)) (ln l) ++ [(hdr l, head_off l v)].

(** A block the file system may use: on the log's device, outside the log. *)
Definition home (l : logst) (k : bkey) : Prop := fst k = lg_dev l -> ~ in_log l (snd k).

Section CommitSpecs.
Context {D : Driver} {HD : DriverOk D}.

Lemma home_not_log l k : log_geom l -> lh_ok l -> home l k ->
  k <> hdr l /\ forall t, (t < ln l)%nat -> k <> logblk l t.
Proof.
  intros Hg Hl Hh. split.
  - intros ->. apply Hh; [done|]. by apply in_log_hdr.
  - intros t Ht ->. apply Hh; [done|]. by apply in_log_logblk.
Qed.

Lemma lh_ok_0 l : log_geom l -> lh_ok (set_lh 0 (lh_block l) l).
Proof.
  intros Hg. split.
  - cbn. pose proof (gm_size _ Hg). lia.
  - unfold logged, ln. cbn [lh_n set_lh Z.to_nat]. rewrite take_0. constructor.
  - intros b. unfold logged, ln. cbn [lh_n set_lh Z.to_nat]. rewrite take_0. set_solver.
Qed.

Lemma lset_0 l : lset (set_lh 0 (lh_block l) l) = ∅.
Proof. unfold lset, logged, ln. cbn [lh_n set_lh Z.to_nat]. by rewrite take_0. Qed.

Lemma geom_set_lh l n b : log_geom l -> length b = length (lh_block l) -> log_geom (set_lh n b l).
Proof. intros [H1 H2 H3 H4 H5] Hb. split; try done. cbn. by rewrite Hb. Qed.

(** commit: with no block locked it completes, writes the log, the header,
    the home blocks and the cleared header in this order, and leaves an empty
    log and every file-system block as its users saw it. *)
Lemma commit_spec s : log_ok s -> quiet (lbc s) -> lh_n (ll s) > 0 ->
  runs commit s (fun _ s' =>
    log_ok s' /\ quiet (lbc s') /\ ll s' = set_lh 0 (lh_block (ll s)) (ll s) /\ lwoken s' = lwoken s /\
    bdisk (lbc s') = dwrites (bdisk (lbc s)) (commit_writes (ll s) (view (lbc s))) /\
    forall k, home (ll s) k -> view (lbc s') k = view (lbc s) k).
Proof.
  intros Hok Hq Hn. unfold commit. apply runs_bind, runs_gets.
  destruct (Z.gtb_spec (lh_n (ll s)) 0); [|lia].
  destruct (Hok) as [Hbc Hg Hl Hdi]. set (l := ll s) in *. set (v := view (lbc s)) in *.
  eapply runs_seq; [by apply write_log_spec|]. cbv beta.
  intros _ s1 (El1 & Ew1 & Hbc1 & Hq1 & Hd1 & Hdk1 & Hvl1 & Hvo1). fold l v in El1, Hdk1, Hvl1, Hvo1.
  eapply runs_seq; [apply write_head_spec; rewrite ?El1; try done; by rewrite Hd1, Hdi|].
  cbv beta zeta. intros _ s2 (El2 & Ew2 & Hbc2 & Hq2 & Hd2 & Hdk2 & Hv2). rewrite El1 in *.
  assert (Hh1 : view (lbc s1) (hdr l) = v (hdr l)).
  { apply Hvo1. intros t Ht E. symmetry in E. by apply logblk_not_hdr in E. }
  rewrite Hh1 in Hdk2, Hv2. fold (head_on l v) in Hdk2, Hv2.
  eapply runs_seq; [apply install_trans_spec; rewrite ?El2; try done; by rewrite Hd2, Hd1, Hdi|].
  cbv beta. intros _ s3 (El3 & Ew3 & Hbc3 & Hq3 & Hd3 & Hdk3 & Hvh3 & Hvo3). rewrite El2 in *.
  assert (Hlb : forall t, (t < ln l)%nat -> view (lbc s2) (logblk l t) = v (homeblk l t)).
  { intros t Ht. rewrite Hv2, decide_False by apply logblk_not_hdr. by apply Hvl1. }
  apply runs_bind, runs_modify. set (s4 := upd_log _ s3).
  assert (El4 : ll s4 = set_lh 0 (lh_block l) l) by (unfold s4; cbn [upd_log ll]; by rewrite El3).
  eapply runs_mono; [apply write_head_spec; rewrite ?El4; try done|].
  { by apply geom_set_lh. }
  { by apply lh_ok_0. }
  { change (lbc s4) with (lbc s3). rewrite Hd3. set_solver. }
  cbv beta zeta. intros _ s5 (El5 & Ew5 & Hbc5 & Hq5 & Hd5 & Hdk5 & Hv5). rewrite El4 in *.
  change (lbc s4) with (lbc s3) in *. change (hdr (set_lh 0 (lh_block l) l)) with (hdr l) in *.
  assert (Hh3 : view (lbc s3) (hdr l) = head_on l v).
  { rewrite Hvo3, Hv2, decide_True by (done || by apply hdr_not_lset). done. }
  rewrite Hh3 in Hdk5, Hv5. change (hd_enc (head_on l v) _ _) with (head_off l v) in Hdk5, Hv5.
  split_and!; [split| | | | |].
  - done.
  - rewrite El5. by apply geom_set_lh.
  - rewrite El5. by apply lh_ok_0.
  - by rewrite Hd5, Hd3, El5, lset_0.
  - done.
  - done.
  - rewrite Ew5. change (lwoken s4) with (lwoken s3). congruence.
  - unfold commit_writes. rewrite !dwrites_app, Hdk5, Hdk3, Hdk2, Hdk1.
    by rewrite (home_writes_ext l _ (fun t => v (homeblk l t))).
  - intros k Hk. destruct (home_not_log l k Hg Hl Hk) as [Hk1 Hk2].
    rewrite Hv5, decide_False by done. destruct (decide (k ∈ lset l)) as [Hin|Hin].
    + apply elem_of_lset in Hin as (t & Ht & <-); [|done|done]. rewrite Hvh3 by done. by apply Hlb.
    + rewrite Hvo3, Hv2, decide_False by done. by apply Hvo1.
Qed.

(** ** Transactions *)

(** begin_op: an operation starts only when no commit is running and every
    started operation still has MAXOPBLOCKS free log entries. *)
Lemma begin_op_run s :
  begin_op s =
  if negb (lg_committing (ll s) =? 0) || (lh_n (ll s) + (lg_outstanding (ll s) + 1) * MAXOPBLOCKS >? LOGSIZE)
  then Sleep ChLog s
  else Done tt (upd_log (fun l => set_outstanding (lg_outstanding l + 1) l) s).
Proof.
  unfold begin_op, bind, gets, modify, sleep_on.
  destruct (negb (lg_committing (ll s) =? 0)); [done|]. cbn [orb]. by destruct (_ >? _).
Qed.

Lemma lh_find_spec l n i b : (i <= lh_find n i l b <= i + n)%nat /\
  (forall j, (i <= j < lh_find n i l b)%nat -> lh_get l j <> b) /\
  (lh_find n i l b < i + n -> lh_get l (lh_find n i l b) = b)%nat.
Proof.
  revert i. induction n as [|n IH]; intros i; cbn [lh_find].
  - split; [lia|]. split; [intros; lia|lia].
  - destruct (Z.eqb_spec (lh_get l i) b) as [E|E].
    + split; [lia|]. split; [intros; lia|done].
    + destruct (IH (S i)) as (H1 & H2 & H3). split; [lia|]. split.
      * intros j Hj. destruct (decide (j = i)) as [->|Hne]; [done|]. apply H2. lia.
      * intros Hj. apply H3. lia.
Qed.

(** The header after logging block [b]: unchanged if [b] is already there. *)
Lemma log_write_lh l b : log_geom l -> lh_ok l -> lh_n l < lg_size l - 1 ->
  let i := lh_find (ln l) 0 l b in
  let l' := set_lh (if Z.of_nat i =? lh_n l then lh_n l + 1 else lh_n l) (<[i := b]> (lh_block l)) l in
  logged l' = (if decide (b ∈ logged l) then logged l else logged l ++ [b]) /\
  lh_n l' = (if decide (b ∈ logged l) then lh_n l else lh_n l + 1).
Proof.
  intros Hg Hl Hroom i l'. destruct (lh_find_spec l (ln l) 0 b) as (H1 & H2 & H3). fold i in H1, H2, H3.
  pose proof (lo_n _ Hl) as Hn. pose proof (gm_size _ Hg) as Hsz. pose proof (gm_len _ Hg) as Hlen.
  change (Z.to_nat LOGSIZE) with 30%nat in Hlen. change LOGSIZE with 30 in Hsz.
  unfold l', logged, ln. cbn [lh_n set_lh lh_block].
  case_decide as Hin.
  - apply (elem_of_logged l b) in Hin as (t & Ht & Hb); [|done|done].
    assert (Hi : (i < ln l)%nat).
    { destruct (decide (i < ln l)%nat); [done|]. exfalso. apply (H2 t); [lia|done]. }
    unfold ln in *. destruct (Z.eqb_spec (Z.of_nat i) (lh_n l)); [lia|]. split; [|done].
    rewrite list_insert_id; [done|]. specialize (H3 Hi).
    destruct (nth_lookup_or_length (lh_block l) i 0) as [Hi'|]; [|lia]. rewrite Hi'. f_equal. exact H3.
  - assert (Hi : i = ln l).
    { destruct (decide (i < ln l)%nat) as [Hi|Hi]; [|lia]. exfalso. apply Hin.
      apply elem_of_logged; [done|done|]. exists i. auto. }
    unfold ln in *. destruct (Z.eqb_spec (Z.of_nat i) (lh_n l)); [|lia]. split; [|done].
    replace (Z.to_nat (lh_n l + 1)) with (S i) by lia. rewrite <- Hi.
    rewrite (take_S_r _ _ b).
    + by rewrite take_insert_ge by lia.
    + apply list_lookup_insert_eq. lia.
Qed.

(** log_write: a locked block becomes part of the transaction, with at most
    one new log entry; nothing is written to disk. *)
Lemma log_write_spec s i b : log_ok s -> held (lbc s) i (lkey (ll s) b) ->
  ~ in_log (ll s) b -> accepts (lkey (ll s) b) -> 0 <= b < 2147483648 ->
  1 <= lg_outstanding (ll s) -> lh_n (ll s) < lg_size (ll s) - 1 ->
  runs (log_write i) s (fun _ s' =>
    log_ok s' /\ held (lbc s') i (lkey (ll s) b) /\ (forall k, view (lbc s') k = view (lbc s) k) /\
    bdisk (lbc s') = bdisk (lbc s) /\ busy_keys (lbc s') = busy_keys (lbc s) /\
    logged (ll s') = (if decide (b ∈ logged (ll s)) then logged (ll s) else logged (ll s) ++ [b]) /\
    lh_n (ll s') = (if decide (b ∈ logged (ll s)) then lh_n (ll s) else lh_n (ll s) + 1) /\
    (exists n bl, ll s' = set_lh n bl (ll s)) /\ keeps (lbc s) (lbc s') i /\ lwoken s' = lwoken s).
Proof.
  intros Hok Hh Hnl Hacc Hb Hout Hroom. destruct (Hok) as [Hbc Hg Hl Hdi]. set (l := ll s) in *.
  unfold log_write. apply runs_bind, runs_gets. fold l.
  pose proof (gm_size _ Hg) as Hsz. change LOGSIZE with 30 in *.
  destruct (Z.geb_spec (lh_n l) 30); [lia|]. destruct (Z.geb_spec (lh_n l) (lg_size l - 1)); [lia|].
  cbn [orb]. destruct (Z.ltb_spec (lg_outstanding l) 1); [lia|].
  apply runs_bind, runs_gets. destruct (Hh) as (Hi & Hk & _).
  assert (Hbn : b_blockno (getb (lbc s) i) = b) by (unfold b_key in Hk; by injection Hk).
  rewrite Hbn. apply runs_bind, runs_modify. fold l. apply runs_modify. cbn [set_bc upd_log lbc ll lwoken].
  fold l. destruct (log_write_lh l b Hg Hl Hroom) as [Hlg Hn]. fold (ln l) in *.
  set (l' := set_lh _ _ l) in *.
  destruct (mark_dirty_blk (lbc s) i (lkey l b) Hbc Hh) as (Hbc' & Hh' & _ & Hv' & Hdk' & Hb' & Hd' & Hkp').
  set (b' := upd_buf i _ (lbc s)) in *.
  assert (Hg' : log_geom l') by (apply geom_set_lh; [done|by rewrite length_insert]).
  assert (Hl' : lh_ok l').
  { pose proof (lo_n _ Hl). split.
    - rewrite Hn. change (lg_size l') with (lg_size l). case_decide; lia.
    - rewrite Hlg. case_decide; [apply (lo_nodup _ Hl)|]. apply NoDup_app. split; [apply (lo_nodup _ Hl)|].
      split; [set_solver|apply NoDup_singleton].
    - intros x Hx. rewrite Hlg in Hx. change (in_log l' x) with (in_log l x).
      change (lkey l' x) with (lkey l x). case_decide; [by apply (lo_home _ Hl)|].
      apply elem_of_app in Hx as [Hx|Hx%list_elem_of_singleton]; [by apply (lo_home _ Hl)|by subst]. }
  split_and!; try done.
  - split; try done. cbn [lbc ll]. change (dirty_keys b' = lset l'). rewrite Hd', Hdi. unfold lset. rewrite Hlg.
    change (lkey l') with (lkey l). case_decide as Hin.
    + assert (lkey l b ∈@{gset _} list_to_set (map (lkey l) (logged l))); [|set_solver].
      rewrite elem_of_list_to_set, list_elem_of_In. apply in_map. by apply list_elem_of_In.
    + rewrite map_app. cbn [List.map]. rewrite list_to_set_app_L, list_to_set_singleton_L. apply union_comm_L.
  - eauto.
Qed.
End CommitSpecs.
