(* ===== verification/LogCrash.v ===== *)
(** * Crash safety of the log (log.c over bio.c)

    A crash keeps some prefix of the block writes the disk had completed and
    loses memory.  The file shows that recovery at the next boot, itself
    interrupted by any number of further crashes, ends with the file-system
    blocks either all as before the interrupted [end_op] or all as the
    transaction left them. *)

From S2P Require Import Prelude.
From S2P Require Import Params.
From S2P Require Import Fsfmt.
From S2P Require Import Bio.
From S2P Require Import BioSpec.
From S2P Require Import Log.

(** ** Crashes *)

(** The disk after the first [j] of the writes that took it from [d0] to
    [d1]. *)
Definition crash (d0 d1 : disk) (j : nat) : disk :=
  dwrites d0 (take j (drop (length (d_trace d0)) (d_trace d1))).

(** Memory after power-on: a zeroed [struct log] and an empty buffer cache. *)
Definition log0 : logst := mklog 0 0 0 0 0 0 (replicate (Z.to_nat LOGSIZE) 0).
Definition boot (d : disk) : lstate := mkls log0 (binit d) [].

(** The disks found at power-on when recoveries from [d] keep crashing. *)
Inductive reboots {D : Driver} (dev : Z) (d : disk) : disk -> Prop :=
| reboots_now : reboots dev d d
| reboots_crash s j d' : initlog dev (boot d) = Done tt s ->
    reboots dev (crash d (bdisk (lbc s)) j) d' -> reboots dev d d'.

(** ** Reading a header block *)

Definition head_of (l : logst) (d : list Z) : logst :=
  set_lh (hd_n d) (fold_left (fun b i => <[i := hd_block d i]> b) (idx (hd_n d)) (lh_block l)) l.

(** The log of [l]'s geometry as a boot builds it. *)
Definition fresh (l : logst) : logst :=
  mklog (lg_start l) (lg_size l) 0 0 (lg_dev l) 0 (replicate (Z.to_nat LOGSIZE) 0).

Lemma fold_insert_lookup (f : nat -> Z) m (b : list Z) : (m <= length b)%nat ->
  let b' := fold_left (fun b i => <[i := f i]> b) (seq 0 m) b in
  length b' = length b /\ take m b' = List.map f (seq 0 m).
Proof.
  intros Hm. cbv zeta. induction m as [|m IH]; [done|].
  destruct IH as [IH1 IH2]; [lia|]. rewrite seq_S, fold_left_app, map_app. cbn [fold_left Nat.add List.map].
  set (b' := fold_left _ _ b) in *. rewrite length_insert. split; [done|].
  rewrite (take_S_r _ _ (f m)) by (apply list_lookup_insert_eq; lia).
  rewrite take_insert_ge by lia. by rewrite IH2.
Qed.

(** The block numbers listed by a header block. *)
Definition hd_list (d : list Z) : list Z := List.map (hd_block d) (idx (hd_n d)).

Lemma head_of_logged l d : length (lh_block l) = Z.to_nat LOGSIZE -> hd_n d <= LOGSIZE ->
  length (lh_block (head_of l d)) = Z.to_nat LOGSIZE /\ logged (head_of l d) = hd_list d.
Proof.
  intros Hlen Hn. destruct (fold_insert_lookup (hd_block d) (Z.to_nat (hd_n d)) (lh_block l)) as [H1 H2]; [lia|].
  split; [unfold head_of, idx; cbn [lh_block set_lh]; by rewrite H1|]. exact H2.
Qed.

Lemma logged_get l l' t : length (lh_block l) = Z.to_nat LOGSIZE -> length (lh_block l') = Z.to_nat LOGSIZE ->
  logged l = logged l' -> lh_n l = lh_n l' -> (t < ln l)%nat -> lh_get l t = lh_get l' t.
Proof.
  intros Hl Hl' E En Ht. unfold lh_get. unfold logged, ln in *. rewrite <- En in E.
  apply (f_equal (fun b => b !! t)) in E. rewrite !lookup_take_lt in E by done. by rewrite !nth_lookup, E.
Qed.

(** ** Reading the disk after block writes *)

Lemma dread_dwrites_ne d ws k : (forall w, w ∈ ws -> fst w <> k) -> dread (dwrites d ws) k = dread d k.
Proof.
  revert d. induction ws as [|w ws IH]; intros d H; [done|].
  change (dwrites d (w :: ws)) with (dwrites (dwrite d (fst w) (snd w)) ws).
  rewrite IH by (intros w' Hw'; apply H; set_solver). rewrite dread_dwrite, decide_False; [done|].
  intros ->. apply (H w); [set_solver|done].
Qed.

(** Writing each of [n] distinct blocks once. *)
Lemma dread_map_writes (key : nat -> bkey) (c : nat -> list Z) d n t :
  (forall i j, (i < n)%nat -> (j < n)%nat -> key i = key j -> i = j) -> (t < n)%nat ->
  dread (dwrites d (List.map (fun t => (key t, c t)) (seq 0 n))) (key t) = c t.
Proof.
  intros Hinj Ht. induction n as [|n IH]; [lia|].
  rewrite seq_S, map_app, dwrites_app. cbn [Nat.add List.map dwrites fold_left fst snd].
  rewrite dread_dwrite. case_decide as E.
  - apply Hinj in E as ->; [done|lia|lia].
  - apply IH; [intros i j Hi Hj; apply Hinj; lia|]. assert (t <> n) by congruence. lia.
Qed.

Lemma elem_of_map_seq {A} (f : nat -> A) n x : x ∈ List.map f (seq 0 n) <-> exists t, (t < n)%nat /\ f t = x.
Proof.
  rewrite list_elem_of_In, in_map_iff. split.
  - intros (t & <- & Ht). apply in_seq in Ht. exists t. split; [lia|done].
  - intros (t & Ht & <-). exists t. split; [done|]. apply in_seq. lia.
Qed.

Lemma dwrites_img_ok d ws : (forall k, block_ok (dread d k)) -> (forall w, w ∈ ws -> block_ok (snd w)) ->
  forall k, block_ok (dread (dwrites d ws) k).
Proof.
  revert d. induction ws as [|w ws IH]; intros d Hd Hw; [done|].
  apply (IH (dwrite d (fst w) (snd w))); [|set_solver].
  intros k. rewrite dread_dwrite. case_decide; [apply Hw; set_solver|done].
Qed.

Lemma take_map_seq {A} (f : nat -> A) n j : take j (List.map f (seq 0 n)) = List.map f (seq 0 (j `min` n)).
Proof.
  revert j f. induction n as [|n IH]; intros j f; [by destruct j|].
  destruct j as [|j]; [done|]. cbn [seq List.map Nat.min take]. f_equal.
  by rewrite <- !seq_shift, !map_map, IH.
Qed.

Lemma dwrites_trace d ws : d_trace (dwrites d ws) = d_trace d ++ ws.
Proof.
  revert d. induction ws as [|w ws IH]; intros d; [by rewrite app_nil_r|].
  change (dwrites d (w :: ws)) with (dwrites (dwrite d (fst w) (snd w)) ws). rewrite IH.
  cbn [dwrite d_trace]. rewrite <- app_assoc. by destruct w.
Qed.

Lemma crash_dwrites d ws j : crash d (dwrites d ws) j = dwrites d (take j ws).
Proof. unfold crash. by rewrite dwrites_trace, drop_app_length. Qed.

(** ** What recovery does to a disk *)

Definition disk_head (l : logst) (d : disk) : logst := head_of (fresh l) (dread d (hdr l)).
Definition replay_writes (l : logst) (d : disk) : list (bkey * list Z) :=
  home_writes (disk_head l d) (fun t => dread d (logblk l t)) (ln (disk_head l d)).
Definition recover_writes (l : logst) (d : disk) : list (bkey * list Z) :=
  replay_writes l d ++ [(hdr l, hd_enc (dread d (hdr l)) 0 (lh_get (disk_head l d)))].

Section Recovery.
Context {D : Driver} {HD : DriverOk D} (l : logst) (Hg : log_geom l).

(** Recovery from [d] ends with the file-system blocks [v]. *)
Record recovers (d : disk) (v : bkey -> list Z) : Prop := {
  rv_img : forall k, block_ok (dread d k);
  rv_lh : lh_ok (disk_head l d);
  rv_sb : 1 ∉ logged (disk_head l d);
  rv_home : forall k, home l k -> dread (dwrites d (replay_writes l d)) k = v k
}.

Lemma fresh_geom : log_geom (fresh l).
Proof. destruct Hg as [H1 H2 H3 H4 H5]. by split. Qed.

Lemma disk_head_geom d : lh_ok (disk_head l d) -> log_geom (disk_head l d).
Proof.
  intros Hl. destruct (Hg) as [H1 H2 H3 H4 H5]. split; try done.
  apply head_of_logged; [done|]. pose proof (lo_n _ Hl) as Hn.
  change (0 <= hd_n (dread d (hdr l)) <= lg_size l - 1) in Hn. lia.
Qed.

(** [replay_writes] copies the listed log blocks home and touches nothing else. *)
Lemma replay_at d m t : lh_ok (disk_head l d) -> (m <= ln (disk_head l d))%nat -> (t < m)%nat ->
  dread (dwrites d (home_writes (disk_head l d) (fun t => dread d (logblk l t)) m)) (homeblk (disk_head l d) t) =
  dread d (logblk l t).
Proof.
  intros Hl Hm Ht. apply (dread_map_writes (homeblk (disk_head l d))); [|done].
  intros i j Hi Hj. apply homeblk_inj; [by apply disk_head_geom|done|lia|lia].
Qed.

Lemma replay_off d m k : (forall t, (t < m)%nat -> homeblk (disk_head l d) t <> k) ->
  dread (dwrites d (home_writes (disk_head l d) (fun t => dread d (logblk l t)) m)) k = dread d k.
Proof.
  intros H. apply dread_dwrites_ne. intros w (t & Ht & <-)%elem_of_map_seq. by apply H.
Qed.

Lemma replay_not_log d m b : lh_ok (disk_head l d) -> (m <= ln (disk_head l d))%nat -> in_log l b ->
  dread (dwrites d (home_writes (disk_head l d) (fun t => dread d (logblk l t)) m)) (lkey l b) = dread d (lkey l b).
Proof.
  intros Hl Hm Hb. apply replay_off. intros t Ht E.
  destruct (homeblk_home (disk_head l d) t (disk_head_geom _ Hl) Hl) as [Hn _]; [lia|].
  apply (lkey_inj l) in E. apply Hn. by rewrite E.
Qed.

Lemma head_empty d h : dread d (hdr l) = h -> hd_n h = 0 ->
  lh_ok (disk_head l d) /\ logged (disk_head l d) = [] /\ replay_writes l d = [].
Proof.
  intros E Hn. assert (En : lh_n (disk_head l d) = 0) by (unfold disk_head; by rewrite E).
  assert (Hlg : logged (disk_head l d) = []) by (unfold logged, ln; by rewrite En).
  split_and!; [|done|unfold replay_writes, ln; by rewrite En].
  pose proof (gm_size _ Hg). split; rewrite ?Hlg, ?En; [|constructor|set_solver].
  change (lg_size (disk_head l d)) with (lg_size l). lia.
Qed.

(** A disk whose header is clear recovers to itself. *)
Lemma recovers_clear d v : (forall k, block_ok (dread d k)) -> hd_n (dread d (hdr l)) = 0 ->
  (forall k, home l k -> dread d k = v k) -> recovers d v.
Proof.
  intros Hi Hn Hv. destruct (head_empty d _ eq_refl Hn) as (H1 & H2 & H3).
  split; [done|done|rewrite H2; set_solver|]. intros k Hk. rewrite H3. by apply Hv.
Qed.

Lemma clear_head_ok d : block_ok (dread d (hdr l)) ->
  let h := hd_enc (dread d (hdr l)) 0 (lh_get (disk_head l d)) in block_ok h /\ hd_n h = 0.
Proof.
  intros H h. destruct (hd_enc_ok (dread d (hdr l)) 0 (lh_get (disk_head l d))) as (H1 & H2 & _); [lia| |done|done].
  intros i Hi. cbn in Hi. lia.
Qed.

Lemma replay_writes_ok d m w : (forall k, block_ok (dread d k)) ->
  w ∈ home_writes (disk_head l d) (fun t => dread d (logblk l t)) m -> block_ok (snd w).
Proof. intros Hi (t & Ht & <-)%elem_of_map_seq. apply Hi. Qed.

(** Recovery has written [m] home blocks when the machine stops: the header
    and the log are intact, so the next recovery has the same outcome. *)
Lemma recovers_partial d v m : recovers d v -> (m <= ln (disk_head l d))%nat ->
  recovers (dwrites d (home_writes (disk_head l d) (fun t => dread d (logblk l t)) m)) v.
Proof.
  intros [Hi Hl Hsb Hv] Hm. set (d' := dwrites d _).
  assert (Hlog : forall b, in_log l b -> dread d' (lkey l b) = dread d (lkey l b))
    by (intros b Hb; by apply replay_not_log).
  assert (Hh : disk_head l d' = disk_head l d).
  { unfold disk_head. f_equal. apply Hlog. by apply in_log_hdr. }
  split; rewrite ?Hh; try done.
  - apply dwrites_img_ok; [done|]. intros w. by apply replay_writes_ok.
  - intros k Hk. rewrite <- (Hv k Hk). unfold replay_writes. rewrite Hh.
    destruct (decide (Exists (fun t => homeblk (disk_head l d) t = k) (seq 0 (ln (disk_head l d))))) as [E|E].
    + apply Exists_exists in E as (t & Ht & <-). apply elem_of_seq in Ht.
      rewrite (replay_at d) by (done || lia).
      unfold home_writes. rewrite (dread_map_writes (homeblk (disk_head l d))).
      * apply Hlog. apply (in_log_logblk (disk_head l d)); [by apply disk_head_geom|done|lia].
      * intros i j Hi' Hj'. by apply homeblk_inj; [apply disk_head_geom| | |].
      * lia.
    + assert (Hne : forall t, (t < ln (disk_head l d))%nat -> homeblk (disk_head l d) t <> k).
      { intros t Ht Ek. apply E, Exists_exists. exists t. split; [apply elem_of_seq; lia|done]. }
      rewrite replay_off by done. rewrite dread_dwrites_ne.
      * apply replay_off. intros t Ht. apply Hne. lia.
      * intros w (t & Ht & <-)%elem_of_map_seq. by apply Hne.
Qed.

(** Recovery from [d] is interrupted anywhere. *)
Lemma recovers_crash d v j : recovers d v -> recovers (dwrites d (take j (recover_writes l d))) v.
Proof.
  intros Hr. unfold recover_writes, replay_writes. rewrite take_app.
  assert (Hlen : length (home_writes (disk_head l d) (fun t => dread d (logblk l t)) (ln (disk_head l d))) = ln (disk_head l d))
    by (unfold home_writes; by rewrite length_map, length_seq).
  rewrite Hlen. unfold home_writes at 1. rewrite take_map_seq.
  destruct (decide (j <= ln (disk_head l d))%nat) as [Hj|Hj].
  - replace (j - ln (disk_head l d))%nat with 0%nat by lia. rewrite take_0, app_nil_r, Nat.min_l by done.
    by apply recovers_partial.
  - rewrite Nat.min_r by lia. rewrite take_ge by (cbn; lia). fold (replay_writes l d).
    change (List.map _ _) with (replay_writes l d).
    destruct Hr as [Hi Hl Hsb Hv]. destruct (clear_head_ok d (Hi _)) as [Hb Hn].
    rewrite dwrites_app. cbn [dwrites fold_left fst snd]. fold (dwrites d (replay_writes l d)).
    apply recovers_clear.
    + intros k. rewrite dread_dwrite. case_decide; [done|].
      apply dwrites_img_ok; [done|]. intros w. by apply replay_writes_ok.
    + by rewrite dread_dwrite, decide_True.
    + intros k Hk. rewrite dread_dwrite, decide_False; [by apply Hv|].
      intros ->. apply Hk; [done|]. by apply in_log_hdr.
Qed.
End Recovery.

(** ** The recovery code *)

Section RecoverySpecs.
Context {D : Driver} {HD : DriverOk D}.

Lemma quiet_clean b k : bc_ok b -> quiet b -> k ∉ dirty_keys b -> view b k = dread (bdisk b) k.
Proof.
  intros Hok Hq Hnd. apply idle_clean; [done| |done]. unfold quiet in Hq. rewrite Hq. set_solver.
Qed.

(** The cache at power-on. *)
Lemma flags_quiet b : (forall i, (i < NBUF)%nat -> b_flags (getb b i) = 0) -> quiet b /\ dirty_keys b = ∅.
Proof.
  intros Hz. split; apply elem_of_equiv_empty_L; intros k.
  - intros (i & Hi & Hb & _)%elem_of_busy. destruct (flags_zero _ (Hz i Hi)) as (E & _). congruence.
  - intros (i & Hi & Hb & _)%elem_of_dirty. destruct (flags_zero _ (Hz i Hi)) as (_ & _ & E). congruence.
Qed.

Lemma binit_disk d : bdisk (binit d) = d.
Proof. by vm_compute. Qed.

Lemma binit_quiet d : (forall k, block_ok (dread d k)) ->
  bc_ok (binit d) /\ quiet (binit d) /\ dirty_keys (binit d) = ∅ /\ bdisk (binit d) = d.
Proof.
  intros Hd. pose proof (proj1 (binit_ok d Hd)) as Hok.
  pose proof (flags_quiet _ (fun i Hi => proj1 (binit_bufs d i Hi))) as [H1 H2].
  exact (conj Hok (conj H1 (conj H2 (binit_disk d)))).
Qed.

(** Reading one block of an idle cache. *)
Lemma read_clean {A} (f : list Z -> A) b k :
  bc_ok b -> quiet b -> dirty_keys b = ∅ -> accepts k -> fst k <> NODEV ->
  runs (buf <- bread (fst k) (snd k) ;; d <- bdata buf ;; brelse buf ;;; ret (f d)) b
    (fun x b' => x = f (dread (bdisk b) k) /\ bc_ok b' /\ quiet b' /\ dirty_keys b' = ∅ /\ bdisk b' = bdisk b).
Proof.
  intros Hok Hq Hd Hacc Hdev. assert (Hnd : k ∉ dirty_keys b) by (rewrite Hd; set_solver).
  pose proof (quiet_clean b k Hok Hq Hnd) as Hv. unfold quiet in *.
  eapply runs_mono; [apply (read_block f b k); try done|].
  - rewrite Hq. set_solver.
  - right. rewrite Hq, Hd, union_empty_l_L, size_empty. unfold NBUF. lia.
  - by right.
  - cbv beta. intros x b' (-> & H1 & H2 & H3 & H4 & _). rewrite Hv. split_and!; congruence || done.
Qed.

Lemma readsb_spec b dev :
  bc_ok b -> quiet b -> dirty_keys b = ∅ -> accepts (dev, 1) -> dev <> NODEV ->
  runs (readsb dev) b (fun sb b' => sb = sb_of_bytes (dread (bdisk b) (dev, 1)) /\
    bc_ok b' /\ quiet b' /\ dirty_keys b' = ∅ /\ bdisk b' = bdisk b).
Proof. intros. by apply (read_clean sb_of_bytes b (dev, 1)). Qed.

Lemma read_head_spec s :
  bc_ok (lbc s) -> quiet (lbc s) -> dirty_keys (lbc s) = ∅ -> log_geom (ll s) ->
  runs read_head s (fun _ s' => ll s' = head_of (ll s) (dread (bdisk (lbc s)) (hdr (ll s))) /\
    bc_ok (lbc s') /\ quiet (lbc s') /\ dirty_keys (lbc s') = ∅ /\ bdisk (lbc s') = bdisk (lbc s) /\
    lwoken s' = lwoken s).
Proof.
  intros Hok Hq Hd Hg. set (l := ll s) in *. unfold read_head. apply runs_bind, runs_gets. fold l.
  assert (Hnd : hdr l ∉ dirty_keys (lbc s)) by (rewrite Hd; set_solver).
  pose proof (quiet_clean _ _ Hok Hq Hnd) as Hv. unfold quiet in *.
  eapply runs_bc_seq; [apply (bread_blk (lbc s) (hdr l)); try done|].
  - apply (gm_acc _ Hg), in_log_hdr, Hg.
  - apply (gm_dev _ Hg).
  - rewrite Hq. set_solver.
  - right. rewrite Hq, Hd, union_empty_l_L, size_empty. unfold NBUF. lia.
  - cbv beta. intros i b1 (Hok1 & Hh1 & Hdat1 & Hv1 & Hdk1 & Hb1 & Hdi1 & _ & _).
    eapply runs_bc_seq; [apply (runs_gets _ _ (fun x b => x = b_data (getb b1 i) /\ b = b1)); done|].
    intros d b [-> ->]. cbn [set_bc lbc]. rewrite Hdat1, Hv. apply runs_bind, runs_modify, runs_bc.
    cbn [upd_log set_bc lbc ll lwoken]. fold l.
    eapply runs_mono; [apply (brelse_blk b1 i (hdr l)); [done|done|right; by rewrite Hv1, Hdk1]|].
    cbv beta. intros _ b2 (Hok2 & Hv2 & Hdk2 & Hb2 & Hdi2 & _). cbn [set_bc upd_log lbc ll lwoken].
    split_and!; try done; try congruence. rewrite Hb2, Hb1, Hq. set_solver.
Qed.

(** recover_from_log on a disk that [recovers] to [v]. *)
Lemma recover_spec l s v : log_geom l -> ll s = fresh l -> bc_ok (lbc s) -> quiet (lbc s) ->
  dirty_keys (lbc s) = ∅ -> recovers l (bdisk (lbc s)) v ->
  runs recover_from_log s (fun _ s' =>
    log_ok s' /\ quiet (lbc s') /\ lh_n (ll s') = 0 /\ fresh (ll s') = fresh l /\
    lg_outstanding (ll s') = 0 /\ lg_committing (ll s') = 0 /\
    bdisk (lbc s') = dwrites (bdisk (lbc s)) (recover_writes l (bdisk (lbc s))) /\
    forall k, home l k -> view (lbc s') k = v k).
Proof.
  intros Hg El Hok Hq Hd [Hi Hl Hsb Hv]. set (d := bdisk (lbc s)) in *. unfold recover_from_log.
  eapply runs_seq; [apply read_head_spec; rewrite ?El; try done; by apply fresh_geom|].
  cbv beta. intros _ s1 (El1 & Hok1 & Hq1 & Hd1 & Hdk1 & _). fold d in El1, Hdk1. rewrite El in El1.
  change (head_of (fresh l) (dread d (hdr (fresh l)))) with (disk_head l d) in El1.
  pose proof (disk_head_geom l Hg d Hl) as Hg1. set (l1 := disk_head l d) in *.
  eapply runs_seq; [apply install_trans_spec; rewrite ?El1; try done; by rewrite Hd1|].
  cbv beta. intros _ s2 (El2 & _ & Hok2 & Hq2 & Hd2 & Hdk2 & _ & _). rewrite El1 in *.
  assert (Hc : forall k, view (lbc s1) k = dread d k)
    by (intros k; rewrite quiet_clean, Hdk1; try done; rewrite Hd1; set_solver).
  rewrite (home_writes_ext _ _ (fun t => dread d (logblk l t))) in Hdk2 by (intros t _; apply Hc).
  fold (replay_writes l d) in Hdk2. rewrite Hdk1 in Hdk2.
  apply runs_bind, runs_modify. set (s3 := upd_log _ s2).
  assert (El3 : ll s3 = set_lh 0 (lh_block l1) l1) by (unfold s3; cbn [upd_log ll]; by rewrite El2).
  eapply runs_mono; [apply write_head_spec; rewrite ?El3; try done|].
  { by apply geom_set_lh. }
  { by apply lh_ok_0. }
  { change (lbc s3) with (lbc s2). by rewrite Hd2. }
  cbv beta zeta. intros _ s4 (El4 & _ & Hok4 & Hq4 & Hd4 & Hdk4 & Hv4). rewrite El3 in *.
  change (lbc s3) with (lbc s2) in *. change (hdr (set_lh 0 (lh_block l1) l1)) with (hdr l) in *.
  assert (Hh : view (lbc s2) (hdr l) = dread d (hdr l)).
  { rewrite quiet_clean, Hdk2; [|done|done|rewrite Hd2; set_solver].
    apply replay_not_log; [done|done|done|by apply in_log_hdr]. }
  rewrite Hh in Hdk4, Hv4. split_and!; try (rewrite El4; done); try done.
  - split; [done|rewrite El4; by apply geom_set_lh|rewrite El4; by apply lh_ok_0|].
    by rewrite Hd4, Hd2, El4, lset_0.
  - rewrite Hdk4, Hdk2. unfold recover_writes. by rewrite dwrites_app.
  - intros k Hk. rewrite Hv4, decide_False.
    + rewrite quiet_clean, Hdk2; [by apply Hv|done|done|rewrite Hd2; set_solver].
    + intros ->. apply Hk; [done|]. by apply in_log_hdr.
Qed.

(** The superblock on disk places the log where [l] has it. *)
Definition sb_places (l : logst) (d : disk) : Prop :=
  let sb := sb_of_bytes (dread d (lg_dev l, 1)) in
  s32 (sb_logstart sb) = lg_start l /\ s32 (sb_nlog sb) = lg_size l.

(** initlog at boot, on any idle cache. *)
Lemma initlog_idle l d b0 v : log_geom l -> accepts (lg_dev l, 1) -> sb_places l d -> recovers l d v ->
  bc_ok b0 -> quiet b0 -> dirty_keys b0 = ∅ -> bdisk b0 = d ->
  runs (initlog (lg_dev l)) (mkls log0 b0 []) (fun _ s' =>
    log_ok s' /\ quiet (lbc s') /\ lh_n (ll s') = 0 /\ fresh (ll s') = fresh l /\
    lg_outstanding (ll s') = 0 /\ lg_committing (ll s') = 0 /\
    bdisk (lbc s') = dwrites d (recover_writes l d) /\
    forall k, home l k -> view (lbc s') k = v k).
Proof.
  intros Hg Hacc [Hs1 Hs2] Hr Hok Hq Hd <-. unfold initlog. rewrite (eq_refl : (4 + 4 * LOGSIZE >=? BSIZE) = false).
  eapply runs_bc_seq; [apply (readsb_spec b0 (lg_dev l)); try done; apply (gm_dev _ Hg)|].
  cbv beta. intros sb b (-> & Hok1 & Hq1 & Hd1 & Hdk1).
  apply runs_bind, runs_modify. cbn [upd_log set_bc ll lbc lwoken]. rewrite Hs1, Hs2.
  change (upd_log _ _) with (mkls (fresh l) b []).
  eapply runs_mono; [apply (recover_spec l _ v); cbn [lbc ll]; rewrite ?Hdk1; done|].
  cbv beta. cbn [lbc]. rewrite Hdk1. done.
Qed.

Definition booted (l : logst) (d : disk) (v : bkey -> list Z) (s' : lstate) : Prop :=
  log_ok s' /\ quiet (lbc s') /\ lh_n (ll s') = 0 /\ fresh (ll s') = fresh l /\
  lg_outstanding (ll s') = 0 /\ lg_committing (ll s') = 0 /\
  bdisk (lbc s') = dwrites d (recover_writes l d) /\
  forall k, home l k -> view (lbc s') k = v k.

Lemma initlog_spec l d v : log_geom l -> accepts (lg_dev l, 1) -> sb_places l d -> recovers l d v ->
  runs (initlog (lg_dev l)) (boot d) (fun _ s' => booted l d v s').
Proof.
  intros Hg Ha Hs Hr. pose proof (binit_quiet d (rv_img _ _ _ Hr)) as (H1 & H2 & H3 & H4).
  exact (initlog_idle l d (binit d) v Hg Ha Hs Hr H1 H2 H3 H4).
Qed.
End RecoverySpecs.

(** ** Atomicity *)

Section Atomicity.
Context {D : Driver} {HD : DriverOk D}.

Lemma log_ok_upd f s : (forall l, exists o c, f l = mklog (lg_start l) (lg_size l) o c (lg_dev l) (lh_n l) (lh_block l)) ->
  log_ok s -> log_ok (upd_log f s).
Proof.
  intros Hf [H1 [G1 G2 G3 G4 G5] [L1 L2 L3] H4]. destruct (Hf (ll s)) as (o & c & E).
  split; cbn [upd_log ll lbc]; rewrite ?E; [done|by split|by split|exact H4].
Qed.

Lemma log_ok_wakeup c s : log_ok s -> log_ok (lwakeup c s).
Proof. intros [H1 H2 H3 H4]. by split. Qed.

Lemma end_op_spec s : log_ok s -> quiet (lbc s) -> lg_outstanding (ll s) = 1 -> lg_committing (ll s) = 0 ->
  runs end_op s (fun _ s' =>
    log_ok s' /\ quiet (lbc s') /\ lh_n (ll s') = 0 /\ lg_outstanding (ll s') = 0 /\ lg_committing (ll s') = 0 /\
    fresh (ll s') = fresh (ll s) /\ lwoken s' = lwoken s ++ [ChLog] /\
    bdisk (lbc s') = dwrites (bdisk (lbc s))
      (if lh_n (ll s) >? 0 then commit_writes (ll s) (view (lbc s)) else []) /\
    forall k, home (ll s) k -> view (lbc s') k = view (lbc s) k).
Proof.
  intros Hok Hq Ho Hc. unfold end_op. apply runs_bind, runs_modify, runs_bind, runs_gets.
  cbn [upd_log ll set_outstanding lg_committing lg_outstanding]. rewrite Ho, Hc. cbn [Z.eqb negb Z.sub Z.add Z.opp Z.pos_sub].
  apply runs_bind, runs_modify.
  set (s1 := upd_log (set_committing 1) (upd_log (fun l => set_outstanding (lg_outstanding l - 1) l) s)).
  assert (Hok1 : log_ok s1).
  { do 2 (apply log_ok_upd; [intros l; by eexists _, _|]). done. }
  change (lh_n (ll s)) with (lh_n (ll s1)). pose proof (lo_n _ (lk_lh _ Hok1)) as Hn.
  destruct (Z.gtb_spec (lh_n (ll s1)) 0) as [Hp|Hp].
  - eapply runs_seq; [apply (commit_spec s1); [done|done|lia]|].
    cbv beta. intros _ s2 (Hok2 & Hq2 & El2 & Hw2 & Hdk2 & Hv2).
    apply runs_bind, runs_modify, runs_modify.
    split; [apply log_ok_wakeup, log_ok_upd; [intros l; by eexists _, _|done]|].
    cbn [lwakeup upd_log ll lbc lwoken]. rewrite El2, Hw2. split_and!; try done. cbn. by rewrite Ho.
  - eapply runs_seq.
    { unfold commit. apply runs_bind, runs_gets. destruct (Z.gtb_spec (lh_n (ll s1)) 0); [lia|].
      by apply (runs_ret _ _ (fun _ s' => s' = s1)). }
    cbv beta. intros _ s2 ->. apply runs_bind, runs_modify, runs_modify.
    split; [apply log_ok_wakeup, log_ok_upd; [intros l; by eexists _, _|done]|].
    cbn [lwakeup upd_log ll lbc lwoken]. split_and!; try done; [cbn in *; lia|cbn; by rewrite Ho].
Qed.

(** The disk when the header of the transaction has just reached it. *)
Definition committed (l : logst) (v : bkey -> list Z) (d : disk) : disk :=
  dwrite (dwrites d (log_writes l v (ln l))) (hdr l) (head_on l v).

Section Prefixes.
Context (l : logst) (v : bkey -> list Z) (d : disk).
Hypothesis Hg : log_geom l.
Hypothesis Hl : lh_ok l.
Hypothesis Hi : forall k, block_ok (dread d k).
Hypothesis Hv : forall k, block_ok (v k).
Hypothesis Hclean : forall k, k ∉ lset l -> v k = dread d k.

Lemma head_on_ok : block_ok (head_on l v) /\ hd_n (head_on l v) = lh_n l /\
  (forall i, (i < ln l)%nat -> hd_block (head_on l v) i = lh_get l i).
Proof.
  pose proof (lo_n _ Hl). pose proof (gm_size _ Hg). change LOGSIZE with 30 in *.
  apply hd_enc_ok; [lia| |apply Hv]. intros i Hi'. by apply homeblk_home.
Qed.

Lemma log_writes_home m k : (m <= ln l)%nat -> home l k \/ k = hdr l ->
  dread (dwrites d (log_writes l v m)) k = dread d k.
Proof.
  intros Hm Hk. apply dread_dwrites_ne. intros w (t & Ht & <-)%elem_of_map_seq. cbn [fst].
  destruct Hk as [Hk| ->]; [|apply logblk_not_hdr].
  intros E. destruct (home_not_log l k Hg Hl Hk) as [_ Hn]. apply (Hn t); [lia|done].
Qed.

Lemma committed_at k : dread (committed l v d) k =
  if decide (k = hdr l) then head_on l v else dread (dwrites d (log_writes l v (ln l))) k.
Proof. unfold committed. by rewrite dread_dwrite. Qed.

Lemma committed_log t : (t < ln l)%nat -> dread (committed l v d) (logblk l t) = v (homeblk l t).
Proof.
  intros Ht. rewrite committed_at, decide_False by apply logblk_not_hdr.
  apply (dread_map_writes (logblk l)); [|done]. intros i j _ _. apply logblk_inj.
Qed.

(** The header on disk lists the blocks of the transaction. *)
Lemma committed_head : lh_n (disk_head l (committed l v d)) = lh_n l /\
  logged (disk_head l (committed l v d)) = logged l /\
  (forall t, (t < ln l)%nat -> homeblk (disk_head l (committed l v d)) t = homeblk l t).
Proof.
  destruct head_on_ok as (Hb & Hn & Hbl). pose proof (lo_n _ Hl). pose proof (gm_size _ Hg).
  unfold disk_head. rewrite committed_at, decide_True by done.
  destruct (head_of_logged (fresh l) (head_on l v)) as [Hlen Hlg]; [done|lia|].
  assert (E : logged (head_of (fresh l) (head_on l v)) = logged l).
  { rewrite Hlg. unfold hd_list, idx. rewrite Hn. fold (ln l). apply list_eq. intros t.
    destruct (decide (t < ln l)%nat) as [Ht|Ht].
    - rewrite logged_lookup by done. rewrite list_lookup_fmap, lookup_seq_lt by done. cbn. by rewrite Hbl.
    - rewrite !lookup_ge_None_2; [done| |]; rewrite ?length_map, ?length_seq, ?length_logged by done; lia. }
  split_and!; [done|done|]. intros t Ht. unfold homeblk, lkey. f_equal.
  apply logged_get; [done|apply (gm_len _ Hg)|done|done|]. unfold ln in *. cbn [head_of set_lh lh_n]. by rewrite Hn.
Qed.

Lemma committed_writes : commit_writes l v =
  log_writes l v (ln l) ++ [(hdr l, head_on l v)] ++ recover_writes l (committed l v d).
Proof.
  unfold commit_writes, recover_writes, replay_writes. do 2 f_equal.
  destruct committed_head as (H1 & H2 & H3). unfold ln at 2. rewrite H1. fold (ln l). f_equal.
  - unfold home_writes. apply map_ext_in. intros t Ht. apply in_seq in Ht.
    rewrite H3, committed_log by lia. done.
  - by rewrite committed_at, decide_True.
Qed.

Lemma committed_recovers : 1 ∉ logged l -> recovers l (committed l v d) v.
Proof.
  intros Hsb. destruct head_on_ok as (Hb & Hn & Hbl), committed_head as (H1 & H2 & H3).
  assert (Hlh : lh_ok (disk_head l (committed l v d))).
  { split; rewrite ?H1, ?H2; [apply (lo_n _ Hl)|apply (lo_nodup _ Hl)|apply (lo_home _ Hl)]. }
  split; [|done|by rewrite H2|].
  - intros k. rewrite committed_at. case_decide; [done|]. apply dwrites_img_ok; [done|].
    intros w (t & Ht & <-)%elem_of_map_seq. apply Hv.
  - intros k Hk. unfold replay_writes. unfold ln. rewrite H1. fold (ln l).
    destruct (decide (k ∈ lset l)) as [Hin|Hin].
    + apply elem_of_lset in Hin as (t & Ht & <-); [|done|done]. rewrite <- (H3 t Ht) at 1.
      rewrite (replay_at l Hg); [by apply committed_log|done| |done]. unfold ln. by rewrite H1.
    + rewrite replay_off.
      * rewrite Hclean by done. rewrite committed_at, decide_False by (intros ->; apply Hk; [done|by apply in_log_hdr]).
        apply log_writes_home; [done|by left].
      * intros t Ht. rewrite H3 by done. intros <-. apply Hin, elem_of_lset; eauto.
Qed.

(** A commit stopped after its first [j] writes: before the header is
    written the old blocks are recovered, after it the new ones. *)
Lemma commit_prefix j : hd_n (dread d (hdr l)) = 0 -> 1 ∉ logged l ->
  recovers l (dwrites d (take j (commit_writes l v))) (if decide (j <= ln l)%nat then dread d else v).
Proof.
  intros H0 Hsb. rewrite committed_writes, take_app. unfold log_writes at 1 2.
  rewrite take_map_seq, length_map, length_seq, dwrites_app. case_decide as Hj.
  - rewrite Nat.min_l by done. replace (j - ln l)%nat with 0%nat by lia. rewrite take_0.
    change (List.map _ _) with (log_writes l v j). cbn [dwrites fold_left]. apply recovers_clear; [done| | |].
    + apply dwrites_img_ok; [done|]. intros w (t & Ht & <-)%elem_of_map_seq. apply Hv.
    + rewrite log_writes_home by auto. done.
    + intros k Hk. apply log_writes_home; auto.
  - rewrite Nat.min_r by lia. destruct (j - ln l)%nat as [|j'] eqn:E; [lia|]. cbn [app take].
    change (List.map _ _) with (log_writes l v (ln l)).
    apply (recovers_crash l Hg (committed l v d) v j'). by apply committed_recovers.
Qed.
End Prefixes.
End Atomicity.

(** ** The log as a system *)

Section System.
Context {D : Driver} {HD : DriverOk D}.

(** The state between operations: the invariant of memory, a clear header on
    disk, and a superblock, outside the log and the transaction, that places
    the log. *)
Record log_sys (s : lstate) : Prop := {
  sys_ok : log_ok s;
  sys_clear : hd_n (dread (bdisk (lbc s)) (hdr (ll s))) = 0;
  sys_sb : sb_places (ll s) (bdisk (lbc s));
  sys_sb_home : ~ in_log (ll s) 1;
  sys_sb_acc : accepts (lkey (ll s) 1);
  sys_sb_log : 1 ∉ logged (ll s)
}.

Lemma sb_places_ext l d d' : dread d' (lkey l 1) = dread d (lkey l 1) -> sb_places l d -> sb_places l d'.
Proof. unfold sb_places. change (lg_dev l, 1) with (lkey l 1). by intros ->. Qed.

(** Neither a commit nor a recovery writes the superblock. *)
Lemma recover_sb l d j : log_geom l -> lh_ok (disk_head l d) -> 1 ∉ logged (disk_head l d) -> ~ in_log l 1 ->
  dread (dwrites d (take j (recover_writes l d))) (lkey l 1) = dread d (lkey l 1).
Proof.
  intros Hg Hl Hsb H1. apply dread_dwrites_ne. intros w Hw.
  apply list_elem_of_lookup in Hw as [i Hw]. apply lookup_take_Some in Hw as [Hw _].
  apply list_elem_of_lookup_2 in Hw. unfold recover_writes in Hw. apply elem_of_app in Hw as [Hw|Hw].
  - apply elem_of_map_seq in Hw as (t & Ht & <-). intros E. apply (lkey_inj l) in E. apply Hsb.
    apply elem_of_logged; [by apply disk_head_geom|done|]. eauto.
  - apply list_elem_of_singleton in Hw as ->. intros E. apply (lkey_inj l) in E. apply H1.
    rewrite <- E. by apply in_log_hdr.
Qed.

Lemma commit_sb l v d j : log_geom l -> lh_ok l -> 1 ∉ logged l -> ~ in_log l 1 ->
  dread (dwrites d (take j (commit_writes l v))) (lkey l 1) = dread d (lkey l 1).
Proof.
  intros Hg Hl Hsb H1. apply dread_dwrites_ne. intros w Hw.
  apply list_elem_of_lookup in Hw as [i Hw]. apply lookup_take_Some in Hw as [Hw _].
  apply list_elem_of_lookup_2 in Hw. unfold commit_writes in Hw.
  assert (Hh : lkey l (lg_start l) <> lkey l 1).
  { intros E. apply (lkey_inj l) in E. apply H1. rewrite <- E. by apply in_log_hdr. }
  repeat (apply elem_of_app in Hw as [Hw|Hw]).
  - apply elem_of_map_seq in Hw as (t & Ht & <-). intros E. apply (lkey_inj l) in E. apply H1.
    rewrite <- E. by apply in_log_logblk.
  - by apply list_elem_of_singleton in Hw as ->.
  - apply elem_of_map_seq in Hw as (t & Ht & <-). intros E. apply (lkey_inj l) in E. apply Hsb.
    apply elem_of_logged; eauto.
  - by apply list_elem_of_singleton in Hw as ->.
Qed.

(** Interrupted recoveries do not change what recovery will find. *)
Lemma reboots_recovers l d d' v : log_geom l -> accepts (lkey l 1) -> ~ in_log l 1 ->
  sb_places l d -> recovers l d v -> reboots (lg_dev l) d d' -> sb_places l d' /\ recovers l d' v.
Proof.
  intros Hg Ha H1 Hs Hr Hb. induction Hb as [|d s j d' Hrun Hb IH]; [done|].
  pose proof (runs_elim _ _ _ _ _ (initlog_spec l d v Hg Ha Hs Hr) Hrun) as Hi.
  destruct Hi as (_ & _ & _ & _ & _ & _ & Hd & _). rewrite Hd, crash_dwrites in IH. apply IH.
  - apply (sb_places_ext l d); [|done]. apply recover_sb; [done|apply Hr|apply Hr|done].
  - by apply recovers_crash.
Qed.

(** A boot reaches a consistent system. *)
Lemma booted_sys l d v s : log_geom l -> accepts (lkey l 1) -> ~ in_log l 1 -> sb_places l d -> recovers l d v ->
  booted l d v s -> log_sys s.
Proof.
  intros Hg Ha H1 Hs Hr (Hok & Hq & Hn & Hf & _ & _ & Hd & _).
  assert (Ed : lg_dev (ll s) = lg_dev l) by exact (f_equal lg_dev Hf).
  assert (Es : lg_start (ll s) = lg_start l) by exact (f_equal lg_start Hf).
  assert (Ez : lg_size (ll s) = lg_size l) by exact (f_equal lg_size Hf).
  assert (Hsp : sb_places l (bdisk (lbc s))).
  { apply (sb_places_ext l d); [|done]. rewrite Hd, <- (take_ge (recover_writes l d) _ (le_n _)).
    apply recover_sb; [done|apply Hr|apply Hr|done]. }
  assert (Hc : hd_n (dread (bdisk (lbc s)) (hdr l)) = 0).
  { rewrite Hd. unfold recover_writes. rewrite dwrites_app. cbn [dwrites fold_left fst snd].
    rewrite dread_dwrite, decide_True by done. by apply clear_head_ok, Hr. }
  split; unfold hdr, in_log, sb_places, lkey, logged, ln in *; rewrite ?Ed, ?Es, ?Ez, ?Hn; try done.
  cbn. rewrite take_0. set_solver.
Qed.

(** [log_sys] only depends on the geometry, the transaction and the disk. *)
Lemma log_sys_step s s' : log_sys s -> log_ok s' -> fresh (ll s') = fresh (ll s) ->
  hd_n (dread (bdisk (lbc s')) (hdr (ll s))) = 0 ->
  dread (bdisk (lbc s')) (lkey (ll s) 1) = dread (bdisk (lbc s)) (lkey (ll s) 1) ->
  1 ∉ logged (ll s') -> log_sys s'.
Proof.
  intros [H1 H2 H3 H4 H5 H6] Hok Hf Hc Hsb Hl. apply (sb_places_ext _ _ _ Hsb) in H3.
  assert (Ed : lg_dev (ll s') = lg_dev (ll s)) by exact (f_equal lg_dev Hf).
  assert (Es : lg_start (ll s') = lg_start (ll s)) by exact (f_equal lg_start Hf).
  assert (Ez : lg_size (ll s') = lg_size (ll s)) by exact (f_equal lg_size Hf).
  split; unfold hdr, in_log, sb_places, lkey in *; rewrite ?Ed, ?Es, ?Ez; done.
Qed.

Lemma begin_op_log s s' : begin_op s = Done tt s' ->
  lbc s' = lbc s /\ fresh (ll s') = fresh (ll s) /\ lg_outstanding (ll s') = lg_outstanding (ll s) + 1 /\
  lg_committing (ll s') = lg_committing (ll s) /\ lh_n (ll s') = lh_n (ll s).
Proof. rewrite begin_op_run. destruct (_ || _); [done|]. by intros [= <-]. Qed.

Lemma begin_op_sys s s' : log_sys s -> begin_op s = Done tt s' -> log_sys s'.
Proof.
  intros Hs. rewrite begin_op_run. destruct (_ || _); [done|]. intros [= <-].
  apply (log_sys_step s); [done| |done|apply Hs|done|apply Hs].
  apply log_ok_upd; [intros l; by eexists _, _|apply Hs].
Qed.

Lemma log_write_sys s i b : log_sys s -> held (lbc s) i (lkey (ll s) b) ->
  ~ in_log (ll s) b -> accepts (lkey (ll s) b) -> 0 <= b < 2147483648 -> b <> 1 ->
  1 <= lg_outstanding (ll s) -> lh_n (ll s) < lg_size (ll s) - 1 ->
  runs (log_write i) s (fun _ s' => log_sys s').
Proof.
  intros Hs Hh Hnl Ha Hb Hb1 Ho Hroom.
  eapply runs_mono; [by apply (log_write_spec s i b); [apply Hs|..]|].
  cbv beta. intros _ s' (Hok & _ & _ & Hdk & _ & Hlg & _ & (n & bl & El) & _).
  apply (log_sys_step s); try done.
  - by rewrite El.
  - rewrite Hdk. apply Hs.
  - by rewrite Hdk.
  - rewrite Hlg. pose proof (sys_sb_log _ Hs). case_decide; set_solver.
Qed.

Lemma commit_writes_hdr l v d : dread (dwrites d (commit_writes l v)) (hdr l) = head_off l v.
Proof.
  unfold commit_writes. rewrite !dwrites_app. cbn [dwrites fold_left fst snd].
  by rewrite dread_dwrite, decide_True.
Qed.

Lemma head_off_clear s : log_ok s -> hd_n (head_off (ll s) (view (lbc s))) = 0.
Proof.
  intros [Hbc Hg Hl Hd]. unfold head_off.
  destruct (head_on_ok (ll s) (view (lbc s)) Hg Hl) as (Hb & _ & _); [intros k; by apply view_ok|].
  apply hd_enc_ok; [lia| |done]. intros i Hi. cbn in Hi. lia.
Qed.

Lemma end_op_sys s : log_sys s -> quiet (lbc s) -> lg_outstanding (ll s) = 1 -> lg_committing (ll s) = 0 ->
  runs end_op s (fun _ s' => log_sys s').
Proof.
  intros Hs Hq Ho Hc. eapply runs_mono; [by apply end_op_spec; [apply Hs|..]|].
  cbv beta. intros _ s' (Hok & _ & Hn & _ & _ & Hf & _ & Hd & _).
  destruct (Hs) as [[Hbc Hg Hl Hdi] H2 H3 H4 H5 H6]. apply (log_sys_step s); try done.
  - rewrite Hd. destruct (_ >? _); [|done]. rewrite commit_writes_hdr. by apply head_off_clear, Hs.
  - rewrite Hd. destruct (_ >? _); [|done].
    rewrite <- (take_ge (commit_writes (ll s) (view (lbc s))) _ (le_n _)) at 1. by apply commit_sb.
  - unfold logged, ln. rewrite Hn. cbn. rewrite take_0. set_solver.
Qed.

(** The use of the log that the comment above [log_write] describes: read a
    block, modify it, log it, release it. *)
Definition log_update (dev b : Z) (f : list Z -> list Z) : M lstate unit :=
  bp <- bc (bread dev b) ;;
  d <- bc (bdata bp) ;;
  bc (set_data bp (f d)) ;;;
  log_write bp ;;;
  bc (brelse bp).

Lemma log_update_spec s b f : log_sys s -> quiet (lbc s) ->
  ~ in_log (ll s) b -> accepts (lkey (ll s) b) -> 0 <= b < 2147483648 -> b <> 1 ->
  1 <= lg_outstanding (ll s) -> lh_n (ll s) < lg_size (ll s) - 1 -> (forall d, block_ok d -> block_ok (f d)) ->
  runs (log_update (lg_dev (ll s)) b f) s (fun _ s' =>
    log_sys s' /\ quiet (lbc s') /\ bdisk (lbc s') = bdisk (lbc s) /\
    lg_outstanding (ll s') = lg_outstanding (ll s) /\ lg_committing (ll s') = lg_committing (ll s) /\
    logged (ll s') = (if decide (b ∈ logged (ll s)) then logged (ll s) else logged (ll s) ++ [b]) /\
    forall k, view (lbc s') k = if decide (k = lkey (ll s) b) then f (view (lbc s) k) else view (lbc s) k).
Proof.
  intros Hs Hq Hnl Ha Hb Hb1 Ho Hroom Hf. destruct (sys_ok _ Hs) as [Hbc Hg Hl Hdi].
  unfold log_update, quiet in *. set (k := lkey (ll s) b).
  pose proof (lo_n _ Hl). pose proof (gm_size _ Hg). change LOGSIZE with 30 in *.
  eapply runs_bc_seq; [apply (bread_blk (lbc s) k); try done|].
  { apply (gm_dev _ Hg). }
  { rewrite Hq. set_solver. }
  { right. rewrite Hq, union_empty_l_L, Hdi, size_lset by done. by apply ln_lt. }
  cbv beta. intros i b1 (Hok1 & Hh1 & Hdat1 & Hv1 & Hdk1 & Hb1' & Hdi1 & _ & _).
  eapply runs_bc_seq; [apply (runs_gets _ _ (fun x b => x = view (lbc s) k /\ b = b1)); by rewrite <- Hdat1|].
  intros d b0 [-> ->]. eapply runs_bc_seq; [apply (set_data_blk b1 i k); [done|done|by apply Hf, view_ok]|].
  cbn [set_bc lbc]. cbv beta. intros _ b2 (Hok2 & Hh2 & _ & Hv2 & Hdk2 & Hb2 & Hdi2 & _).
  set (s2 := set_bc b2 _).
  assert (Hs2 : log_sys s2).
  { apply (log_sys_step s); cbn [set_bc ll lbc s2]; rewrite ?Hdk2, ?Hdk1; try done; [|apply Hs|apply Hs].
    split; [done|done|done|]. cbn. congruence. }
  eapply runs_seq; [apply (runs_conj _ _ _ _ (log_write_spec s2 i b (sys_ok _ Hs2) Hh2 Hnl Ha Hb Ho Hroom)
                                       (log_write_sys s2 i b Hs2 Hh2 Hnl Ha Hb Hb1 Ho Hroom))|].
  cbv beta. intros _ s3 [(Hok3 & Hh3 & Hv3 & Hdk3 & Hb3 & Hlg3 & _ & (n & bl & El3) & _) Hs3].
  apply runs_bc. change (ll s2) with (ll s) in *. fold k in Hh3.
  eapply runs_mono; [apply (brelse_blk (lbc s3) i k); [apply Hs3|done|left]|].
  { rewrite (lk_dirty _ Hok3). unfold lset. rewrite Hlg3, El3. apply elem_of_list_to_set.
    apply list_elem_of_In, in_map_iff. exists b. split; [done|]. apply list_elem_of_In. case_decide; set_solver. }
  cbv beta. intros _ b4 (Hok4 & Hv4 & Hdk4 & Hb4 & Hdi4 & _). cbn [set_bc lbc ll].
  assert (Hd : bdisk b4 = bdisk (lbc s)) by (rewrite Hdk4, Hdk3; cbn; congruence).
  split_and!; try done; try (rewrite El3; done).
  - apply (log_sys_step s); cbn [set_bc ll lbc]; rewrite ?Hd; try done; [|by rewrite El3|apply Hs|apply Hs3].
    destruct Hok3 as [_ ? ? Hd3]. split; try done. cbn. congruence.
  - rewrite Hb4, Hb3. cbn. rewrite Hb2, Hb1', Hq. set_solver.
  - intros k'. rewrite Hv4, Hv3. cbn. rewrite Hv2. destruct (decide (k' = k)) as [E|E]; [by rewrite E|apply Hv1].
Qed.

(** The outcome of a crash inside [end_op]. *)
Lemma end_op_crash s j d : log_sys s -> quiet (lbc s) ->
  let ws := if lh_n (ll s) >? 0 then commit_writes (ll s) (view (lbc s)) else [] in
  reboots (lg_dev (ll s)) (dwrites (bdisk (lbc s)) (take j ws)) d ->
  sb_places (ll s) d /\
  recovers (ll s) d (if decide (j <= ln (ll s))%nat then dread (bdisk (lbc s)) else view (lbc s)).
Proof.
  intros [[Hbc Hg Hl Hdi] H2 H3 H4 H5 H6] Hq ws Hb.
  assert (Hclean : forall k, k ∉ lset (ll s) -> view (lbc s) k = dread (bdisk (lbc s)) k)
    by (intros k Hk; apply quiet_clean; [done|done|by rewrite Hdi]).
  apply (reboots_recovers _ (dwrites (bdisk (lbc s)) (take j ws))); try done; unfold ws in *; destruct (Z.gtb_spec (lh_n (ll s)) 0) as [Hn|Hn].
  - apply (sb_places_ext _ (bdisk (lbc s))); [by apply commit_sb|done].
  - by rewrite take_nil.
  - apply commit_prefix; try done; [apply (bc_img _ Hbc)|intros k; by apply view_ok].
  - rewrite take_nil. apply recovers_clear; [done|apply (bc_img _ Hbc)|done|].
    intros k Hk. case_decide; [done|]. symmetry. apply Hclean. unfold lset, logged, ln.
    replace (Z.to_nat (lh_n (ll s))) with 0%nat by lia. cbn. set_solver.
Qed.

(** C1: Crash atomicity of a transaction.  Let the last outstanding operation
    call [end_op] and let the machine stop after any number [j] of the block
    writes [end_op] makes, then stop again in any number of the recoveries
    that follow.  The next boot's [initlog] completes, restores the system
    invariant with an empty log, and every file-system block reads as it was
    on disk before [end_op] if the commit header had not been written, and as
    the transaction left it if it had: never a mix. *)
Theorem end_op_atomic s :
  log_sys s -> quiet (lbc s) -> lg_outstanding (ll s) = 1 -> lg_committing (ll s) = 0 ->
  runs end_op s (fun _ s' => forall j d,
    reboots (lg_dev (ll s)) (crash (bdisk (lbc s)) (bdisk (lbc s')) j) d ->
    runs (initlog (lg_dev (ll s))) (boot d) (fun _ s2 =>
      log_sys s2 /\ lh_n (ll s2) = 0 /\
      forall k, home (ll s) k -> view (lbc s2) k =
        if decide (j <= ln (ll s))%nat then dread (bdisk (lbc s)) k else view (lbc s) k)).
Proof.
  intros Hs Hq Ho Hc. eapply runs_mono; [by apply end_op_spec; [apply Hs|..]|].
  cbv beta. intros _ s' (_ & _ & _ & _ & _ & _ & _ & Hd & _) j d Hb. rewrite Hd, crash_dwrites in Hb.
  destruct (end_op_crash s j d Hs Hq Hb) as [Hsb Hr]. destruct (Hs) as [[Hbc Hg Hl Hdi] H2 H3 H4 H5 H6].
  eapply runs_mono; [exact (initlog_spec _ _ _ Hg H5 Hsb Hr)|]. cbv beta. intros _ s2 Hbt. split_and!.
  - exact (booted_sys (ll s) d _ s2 Hg H5 H4 Hsb Hr Hbt).
  - apply Hbt.
  - intros k Hk. destruct Hbt as (_ & _ & _ & _ & _ & _ & _ & Hv). rewrite (Hv k Hk). by case_decide.
Qed.
End System.

(** ** A disk as mkfs lays it out, with one transaction in flight *)

Module Demo.
#[export] Instance drv : Driver := Memide.driver 1000.

Definition sb : superblock := mksb 1000 941 200 30 2 32 58.
Definition bitmap : list Z := replicate 7 255 ++ [7] ++ replicate 504 0.    (* blocks 0 to 58 in use *)
Definition dsk : disk :=
  mkdisk (<[ (1, 1) := sb_bytes sb ++ replicate 484 0 ]> {[ (1, 58) := bitmap ]}) [].
Definition lg : logst := mklog 2 30 0 0 1 0 (replicate 30 0).
Definition s1 : lstate := final (initlog 1) (boot dsk).
Definition s2 : lstate := final begin_op s1.
Definition s3 : lstate := final (log_update 1 100 (fun _ => replicate 512 7)) s2.

Lemma dsk_ok k : block_ok (dread dsk k).
Proof.
  unfold dread, img_get, dsk. cbn [d_img]. destruct (decide (k = (1, 1))) as [->|Hne].
  - rewrite lookup_insert_eq. cbn [default]. split; [done|].
    apply Forall_app. split; [|apply Forall_replicate; unfold byte_ok; lia].
    unfold sb_bytes. repeat (apply Forall_app; split); apply le_bytes_ok.
  - rewrite lookup_insert_ne by done. destruct (decide (k = (1, 58))) as [->|Hne'].
    + rewrite lookup_singleton_eq. cbn [default]. split; [done|]. unfold bitmap.
      repeat (apply Forall_app; split); try (apply Forall_replicate); try constructor; unfold byte_ok; done || lia.
    + rewrite lookup_singleton_ne by done. apply zero_block_ok.
Qed.

Lemma lg_geom : log_geom lg.
Proof.
  split; [done|done|done| |done]. intros b Hb. unfold in_log in Hb. cbn in Hb. split; cbn; lia.
Qed.

Lemma dsk_places : sb_places lg dsk.
Proof. by vm_compute. Qed.

Lemma dsk_recovers : recovers lg dsk (dread dsk).
Proof. apply recovers_clear; [apply lg_geom|apply dsk_ok|by vm_compute|done]. Qed.

Lemma s1_booted : booted lg dsk (dread dsk) s1.
Proof.
  assert (Ha : accepts (lg_dev lg, 1)) by (split; cbn; lia).
  destruct (runs_final _ _ _ (initlog_spec lg dsk _ lg_geom Ha dsk_places dsk_recovers)) as [_ H]. exact H.
Qed.

Lemma s1_sys : log_sys s1.
Proof.
  eapply (booted_sys lg dsk); [apply lg_geom|split; cbn; lia| |apply dsk_places|apply dsk_recovers|apply s1_booted].
  unfold in_log. cbn. lia.
Qed.

Lemma s2_is : begin_op s1 = Done tt s2.
Proof.
  destruct s1_booted as (_ & _ & Hn & _ & Ho & Hc & _). unfold s2, final. rewrite begin_op_run, Hn, Ho, Hc. done.
Qed.

Lemma s2_log : log_sys s2 /\ quiet (lbc s2) /\ fresh (ll s2) = fresh lg /\ lg_outstanding (ll s2) = 1 /\
  lg_committing (ll s2) = 0 /\ lh_n (ll s2) = 0.
Proof.
  split; [exact (begin_op_sys _ _ s1_sys s2_is)|]. pose proof s1_booted as (_ & Hq & Hn & Hf & Ho & Hc & _).
  pose proof (begin_op_log _ _ s2_is) as (Eb & Ef & Eo & Ec & En). rewrite Eb, Ef, Eo, Ec, En, Hf, Ho, Hc, Hn.
  exact (conj Hq (conj eq_refl (conj eq_refl (conj eq_refl eq_refl)))).
Qed.

Lemma update_log s (f := fun _ : list Z => replicate 512 7) :
  log_sys s /\ quiet (lbc s) /\ fresh (ll s) = fresh lg /\ lg_outstanding (ll s) = 1 /\
  lg_committing (ll s) = 0 /\ lh_n (ll s) = 0 ->
  let s' := final (log_update 1 100 f) s in
  log_sys s' /\ quiet (lbc s') /\ lg_outstanding (ll s') = 1 /\ lg_committing (ll s') = 0 /\ logged (ll s') = [100].
Proof.
  intros (Hs & Hq & Hf & Ho & Hc & Hn) s'.
  assert (Ed : lg_dev (ll s) = 1) by exact (f_equal lg_dev Hf).
  assert (Es : lg_start (ll s) = 2) by exact (f_equal lg_start Hf).
  assert (Ez : lg_size (ll s) = 30) by exact (f_equal lg_size Hf).
  assert (Hl : logged (ll s) = []) by (unfold logged, ln; by rewrite Hn).
  assert (Hu : runs (log_update (lg_dev (ll s)) 100 f) s (fun _ s' => log_sys s' /\ quiet (lbc s') /\
    lg_outstanding (ll s') = 1 /\ lg_committing (ll s') = 0 /\ logged (ll s') = [100])).
  { eapply runs_mono; [apply log_update_spec; try done; unfold in_log; rewrite ?Es, ?Ez, ?Ho, ?Hn, ?Ed; try lia|].
    - split; [done|]. apply Forall_replicate. unfold byte_ok. lia.
    - cbv beta. intros _ s1' (H1 & H2 & _ & H4 & H5 & H6 & _). rewrite H4, H5, H6, Hl. done. }
  rewrite Ed in Hu. by destruct (runs_final _ _ _ Hu) as [_ H].
Qed.

Lemma s3_log : log_sys s3 /\ quiet (lbc s3) /\ lg_outstanding (ll s3) = 1 /\ lg_committing (ll s3) = 0 /\
  logged (ll s3) = [100].
Proof. exact (update_log s2 s2_log). Qed.
End Demo.

Import Demo.

Lemma end_op_atomic_witness :
  logged (ll Demo.s3) = [100] /\
  runs end_op Demo.s3 (fun _ s' => forall j d,
    reboots (lg_dev (ll Demo.s3)) (crash (bdisk (lbc Demo.s3)) (bdisk (lbc s')) j) d ->
    runs (initlog (lg_dev (ll Demo.s3))) (boot d) (fun _ s2 =>
      log_sys s2 /\ lh_n (ll s2) = 0 /\
      forall k, home (ll Demo.s3) k -> view (lbc s2) k =
        if decide (j <= ln (ll Demo.s3))%nat then dread (bdisk (lbc Demo.s3)) k else view (lbc Demo.s3) k)).
Proof.
  destruct Demo.s3_log as (Hs & Hq & Ho & Hc & Hl).
  exact (conj Hl (end_op_atomic Demo.s3 Hs Hq Ho Hc)).
Defined.
