(* ===== verification/LogTxn.v ===== *)
(** * Concurrent operations on the log (begin_op, log_write, end_op of log.c)

    Several processes run file-system operations at once.  Each may log at
    most MAXOPBLOCKS blocks; [begin_op] admits an operation only when the log
    has room for what every started one may still write.  The file follows
    the operations, each with the number of blocks it may still log, through
    every interleaving. *)

From S2P Require Import Prelude.
From S2P Require Import Params.
From S2P Require Import Fsfmt.
From S2P Require Import Bio.
From S2P Require Import BioSpec.
From S2P Require Import Log.
From S2P Require Import LogCrash.

Definition total (ops : list nat) : Z := Z.of_nat (foldr Nat.add 0%nat ops).

Lemma total_cons r ops : total (r :: ops) = Z.of_nat r + total ops.
Proof. unfold total. cbn [foldr]. lia. Qed.
Lemma total_app o1 o2 : total (o1 ++ o2) = total o1 + total o2.
Proof. induction o1 as [|r o1 IH]; [unfold total; cbn; lia|]. cbn [app]. rewrite !total_cons. lia. Qed.
Lemma total_bound ops : Forall (fun r => (r <= Z.to_nat MAXOPBLOCKS)%nat) ops ->
  0 <= total ops <= Z.of_nat (length ops) * MAXOPBLOCKS.
Proof.
  induction 1 as [|r ops Hr _ IH]; [unfold total; cbn; lia|]. rewrite total_cons. cbn [length].
  change MAXOPBLOCKS with 10 in *. lia.
Qed.
Hint Rewrite total_cons total_app : total.

Section Txn.
Context {D : Driver}.

(** One step of some process: [ops] holds what each started operation may
    still log.  [step_cache] is any work in the buffer cache. *)
Inductive step : lstate * list nat -> lstate * list nat -> Prop :=
| step_begin s s' ops :
    begin_op s = Done tt s' -> step (s, ops) (s', Z.to_nat MAXOPBLOCKS :: ops)
| step_write s s' i ops1 r ops2 :
    log_write i s = Done tt s' -> step (s, ops1 ++ S r :: ops2) (s', ops1 ++ r :: ops2)
| step_end s s' ops1 r ops2 :
    end_op s = Done tt s' -> step (s, ops1 ++ r :: ops2) (s', ops1 ++ ops2)
| step_cache {A} (m : M bcache A) a s s' ops :
    bc m s = Done a s' -> step (s, ops) (s', ops).

Notation steps := (rtc step).

(** What the reservations of [begin_op] maintain. *)
Record reserved (c : lstate * list nat) : Prop := {
  rs_out : lg_outstanding (ll c.1) = Z.of_nat (length c.2);
  rs_idle : lg_committing (ll c.1) = 0;
  rs_n : 0 <= lh_n (ll c.1);
  rs_budget : Forall (fun r => (r <= Z.to_nat MAXOPBLOCKS)%nat) c.2;
  rs_room : lh_n (ll c.1) + total c.2 <= LOGSIZE
}.

(** Cache routines leave the in-memory log alone. *)
Lemma bc_log {A} (m : M bcache A) s a s' : bc m s = Done a s' -> ll s' = ll s.
Proof. unfold bc, lift. destruct (m (lbc s)); [|done|done]. by intros [= _ <-]. Qed.

Lemma write_log_ll s s' : write_log s = Done tt s' -> ll s' = ll s.
Proof. intros (a & s1 & [= <- <-] & H)%bind_done. by apply bc_log in H. Qed.
Lemma write_head_ll s s' : write_head s = Done tt s' -> ll s' = ll s.
Proof. intros (a & s1 & [= <- <-] & H)%bind_done. by apply bc_log in H. Qed.
Lemma install_trans_ll s s' : install_trans s = Done tt s' -> ll s' = ll s.
Proof. intros (a & s1 & [= <- <-] & H)%bind_done. by apply bc_log in H. Qed.

Lemma commit_ll s s' : commit s = Done tt s' ->
  ll s' = if lh_n (ll s) >? 0 then set_lh 0 (lh_block (ll s)) (ll s) else ll s.
Proof.
  intros (l & s0 & [= <- <-] & H)%bind_done. destruct (_ >? _); [|by injection H as <-].
  apply bind_done in H as ([] & s1 & H1%write_log_ll & H).
  apply bind_done in H as ([] & s2 & H2%write_head_ll & H).
  apply bind_done in H as ([] & s3 & H3%install_trans_ll & H).
  apply bind_done in H as ([] & s4 & [= <-] & H%write_head_ll).
  rewrite H. cbn [upd_log ll]. by rewrite H3, H2, H1.
Qed.

Lemma end_op_ll s s' : end_op s = Done tt s' -> lg_committing (ll s) = 0 /\
  ll s' = if lg_outstanding (ll s) =? 1
          then mklog (lg_start (ll s)) (lg_size (ll s)) 0 0 (lg_dev (ll s))
                     (if lh_n (ll s) >? 0 then 0 else lh_n (ll s)) (lh_block (ll s))
          else set_outstanding (lg_outstanding (ll s) - 1) (ll s).
Proof.
  intros ([] & s0 & [= <-] & H)%bind_done. apply bind_done in H as (l & s1 & [= <- <-] & H).
  cbn [upd_log ll set_outstanding lg_committing lg_outstanding] in H.
  destruct (Z.eqb_spec (lg_committing (ll s)) 0) as [Hc|]; [|done]. split; [done|]. cbn [negb] in H.
  destruct (Z.eqb_spec (lg_outstanding (ll s)) 1) as [E|E].
  - rewrite E in H. cbn [Z.eqb Z.sub Z.add Z.opp Z.pos_sub] in H.
    apply bind_done in H as ([] & s2 & [= <-] & H). apply bind_done in H as ([] & s3 & H3%commit_ll & H).
    apply bind_done in H as ([] & s4 & [= <-] & H). injection H as <-.
    cbn [lwakeup upd_log ll]. rewrite H3. cbn [upd_log ll]. rewrite E. cbn. by destruct (_ >? _).
  - destruct (Z.eqb_spec (lg_outstanding (ll s) - 1) 0); [lia|]. by injection H as <-.
Qed.

Lemma log_write_ll i s s' : log_write i s = Done tt s' ->
  lg_outstanding (ll s') = lg_outstanding (ll s) /\ lg_committing (ll s') = lg_committing (ll s) /\
  lh_n (ll s) <= lh_n (ll s') <= lh_n (ll s) + 1.
Proof.
  intros (l & s0 & [= <- <-] & H)%bind_done. destruct (_ || _); [done|]. destruct (_ <? 1); [done|].
  apply bind_done in H as (b & s1 & [= <- <-] & H). apply bind_done in H as ([] & s2 & [= <-] & H).
  injection H as <-. cbn. split_and!; try done; destruct (_ =? _); lia.
Qed.

Lemma step_reserved c c' : step c c' -> reserved c -> reserved c'.
Proof.
  intros Hst [H1 H2 H3 H4 H5]. destruct Hst as [s s' ops H|s s' i ops1 r ops2 H|s s' ops1 r ops2 H|A m a s s' ops H];
    cbn [fst snd] in *.
  - rewrite begin_op_run in H. destruct (_ || _) eqn:E; [done|]. injection H as <-.
    apply orb_false_iff in E as [_ E]. destruct (Z.gtb_spec (lh_n (ll s) + (lg_outstanding (ll s) + 1) * MAXOPBLOCKS) LOGSIZE) as [|Hr]; [done|].
    pose proof (total_bound _ H4) as Hb. rewrite H1 in Hr.
    split; cbn [fst snd upd_log ll set_outstanding lg_outstanding lg_committing lh_n length]; try done.
    + rewrite H1. lia.
    + by constructor.
    + rewrite total_cons. change LOGSIZE with 30 in *. change MAXOPBLOCKS with 10 in *. lia.
  - apply log_write_ll in H as (E1 & E2 & E3). apply Forall_app in H4 as [F1 F2].
    apply Forall_cons in F2 as [F2 F3]. autorewrite with total in H5. rewrite length_app in H1.
    split; cbn [fst snd]; rewrite ?E1, ?E2, ?length_app; [done|done|lia| |].
    + apply Forall_app. split; [done|]. constructor; [lia|done].
    + autorewrite with total. lia.
  - apply end_op_ll in H as [_ E]. apply Forall_app in H4 as [F1 F2]. apply Forall_cons in F2 as [F2 F3].
    autorewrite with total in H5. rewrite length_app in H1. cbn [length] in H1.
    destruct (Z.eqb_spec (lg_outstanding (ll s)) 1) as [E1|E1].
    + split; cbn [fst snd]; rewrite ?E, ?length_app; cbn [lg_outstanding lg_committing lh_n].
      * lia.
      * done.
      * destruct (_ >? _); lia.
      * by apply Forall_app.
      * rewrite total_app. destruct (Z.gtb_spec (lh_n (ll s)) 0); lia.
    + split; cbn [fst snd]; rewrite ?E, ?length_app; cbn [set_outstanding lg_outstanding lg_committing lh_n]; [lia|done|done| |].
      * by apply Forall_app.
      * rewrite total_app. lia.
  - apply bc_log in H. split; cbn [fst snd]; rewrite ?H; done.
Qed.

Lemma steps_reserved c c' : steps c c' -> reserved c -> reserved c'.
Proof. induction 1; eauto using step_reserved. Qed.


(** A process that updates blocks through [log_update]. *)
Lemma log_update_steps dev b f s s' ops1 r ops2 : log_update dev b f s = Done tt s' ->
  steps (s, ops1 ++ S r :: ops2) (s', ops1 ++ r :: ops2).
Proof.
  intros (i & s1 & H1 & H)%bind_done. apply bind_done in H as (d & s2 & H2 & H).
  apply bind_done in H as ([] & s3 & H3 & H). apply bind_done in H as ([] & s4 & H4 & H5).
  do 3 (eapply rtc_l; [by eapply step_cache|]).
  eapply rtc_l; [by eapply step_write|]. apply rtc_once. by eapply step_cache.
Qed.

Lemma updates_steps dev f bs s s' ops1 r ops2 :
  each bs (fun b => log_update dev b f) s = Done tt s' ->
  steps (s, ops1 ++ (length bs + r)%nat :: ops2) (s', ops1 ++ r :: ops2).
Proof.
  revert s. induction bs as [|b bs IH]; intros s; [by intros [= <-]|].
  cbn [each length Nat.add]. intros ([] & s1 & H1 & H2)%bind_done.
  etrans; [by eapply log_update_steps|]. by apply IH.
Qed.
End Txn.

Notation steps := (rtc step).

(** ** The log of mkfs holds one block less than [begin_op] hands out *)

Module Overflow.
Import Demo.
Notation blocks a n := (List.map Z.of_nat (seq a n)).
Notation upd bs := (each bs (fun b => log_update 1 b (fun d => d))).

(** Three operations start and log 10, 10 and 9 blocks; the last one then
    locks the block it would log as its tenth. *)
Definition script : M lstate nat :=
  begin_op ;;; begin_op ;;; begin_op ;;;
  upd (blocks 100 10) ;;; upd (blocks 110 10) ;;; upd (blocks 120 9) ;;;
  bc (bread 1 129).

Lemma script_steps s i s' : script s = Done i s' -> steps (s, []) (s', [0; 0; 1]%nat).
Proof.
  intros ([] & a1 & H1 & H)%bind_done. apply bind_done in H as ([] & a2 & H2 & H).
  apply bind_done in H as ([] & a3 & H3 & H). apply bind_done in H as ([] & a4 & H4 & H).
  apply bind_done in H as ([] & a5 & H5 & H). apply bind_done in H as ([] & a6 & H6 & H7).
  do 3 (eapply rtc_l; [by apply step_begin|]).
  etrans; [exact (updates_steps _ _ _ _ _ [] 0 [10; 10]%nat H4)|].
  etrans; [exact (updates_steps _ _ _ _ _ [0]%nat 0 [10]%nat H5)|].
  etrans; [exact (updates_steps _ _ _ _ _ [0; 0]%nat 1 [] H6)|].
  apply rtc_once. by eapply step_cache.
Qed.

Lemma script_panics : (i <- script ;; log_write i) s1 = Panic "too big a transaction".
Proof. vm_compute. reflexivity. Qed.

Lemma script_runs : is_done script s1 = true.
Proof. vm_compute. reflexivity. Qed.
End Overflow.

Import Demo.

Lemma bind_panic {S A B} (m : M S A) (k : A -> M S B) s a s' msg :
  bind m k s = Panic msg -> m s = Done a s' -> k a s' = Panic msg.
Proof. unfold bind. intros H E. by rewrite E in H. Qed.

(** On the disk that mkfs writes, whose log has LOGSIZE blocks, the
    reservation of [begin_op] is one block too generous: three concurrent
    operations, each within MAXOPBLOCKS, reach a state in which the one that
    has logged 9 blocks panics when it logs its tenth. *)
Theorem log_reservation_short : exists s i,
  lg_size (ll Demo.s1) = LOGSIZE /\ steps (Demo.s1, []) (s, [0; 0; 1]%nat) /\
  log_write i s = Panic "too big a transaction".
Proof.
  destruct (is_done_final _ _ Overflow.script_runs) as [i Hr]. eexists _, i. split; [vm_compute; reflexivity|].
  split; [exact (Overflow.script_steps _ _ _ Hr)|]. exact (bind_panic _ _ _ _ _ _ Overflow.script_panics Hr).
Qed.

