(* ===== verification/Txn.v ===== *)
(** * Transactional blocks: what fs.c relies on

    fs.c reads and writes blocks with bread, log_write and brelse inside a
    transaction.  [BlockOps] names those operations, [BlockStore] states what
    the file system needs of them, and [log_store] shows that the log over the
    buffer cache provides it. *)

From S2P Require Import Prelude.
From S2P Require Import Params.
From S2P Require Import Fsfmt.
From S2P Require Import Bio.
From S2P Require Import BioSpec.
From S2P Require Import Log.
From S2P Require Import LogCrash.

Class BlockOps (B : Type) := {
  o_bread : Z -> Z -> M B nat;
  o_data : nat -> M B (list Z);            (* b->data *)
  o_set : nat -> list Z -> M B unit;       (* stores into b->data *)
  o_log_write : nat -> M B unit;
  o_brelse : nat -> M B unit
}.

(** [bs_ok s H T L]: inside a transaction that holds the buffers [H], each
    for the block it maps to, has stored into the held blocks [T] without
    logging them yet, and has logged at most the blocks [L]. *)
Class BlockStore (B : Type) {BO : BlockOps B} := {
  bs_dev : Z;
  bs_cap : nat;
  bs_disk : Z -> Prop;                     (* blocks that can be read *)
  bs_home : Z -> Prop;                     (* blocks that can be logged *)
  bs_ok : B -> gmap nat Z -> gset Z -> gset Z -> Prop;
  bs_blk : B -> Z -> list Z;

  bs_home_disk b : bs_home b -> bs_disk b;
  bs_cap_small : (bs_cap < NBUF)%nat;
  bs_blk_ok s H T L b : bs_ok s H T L -> block_ok (bs_blk s b);
  bread_law s H T L b : bs_ok s H T L -> bs_disk b -> (forall i, H !! i <> Some b) ->
    (size L + size H < NBUF)%nat ->
    runs (o_bread bs_dev b) s (fun i s' => H !! i = None /\ bs_ok s' (<[i := b]> H) T L /\
      forall b', bs_blk s' b' = bs_blk s b');
  data_law s H T L i b : bs_ok s H T L -> H !! i = Some b ->
    runs (o_data i) s (fun d s' => s' = s /\ d = bs_blk s b);
  set_law s H T L i b d : bs_ok s H T L -> H !! i = Some b -> block_ok d ->
    runs (o_set i d) s (fun _ s' => bs_ok s' H ({[b]} ∪ T) L /\
      forall b', bs_blk s' b' = if decide (b' = b) then d else bs_blk s b');
  log_write_law s H T L i b : bs_ok s H T L -> H !! i = Some b -> bs_home b ->
    (size L < bs_cap)%nat ->
    runs (o_log_write i) s (fun _ s' => bs_ok s' H (T ∖ {[b]}) ({[b]} ∪ L) /\
      forall b', bs_blk s' b' = bs_blk s b');
  brelse_law s H T L i b : bs_ok s H T L -> H !! i = Some b -> b ∉ T ->
    runs (o_brelse i) s (fun _ s' => bs_ok s' (delete i H) T L /\
      forall b', bs_blk s' b' = bs_blk s b')
}.

(** ** The log provides it *)

Section LogStore.
Context {D : Driver} {HD : DriverOk D} (l0 : logst).

#[export] Instance log_ops : BlockOps lstate := {|
  o_bread dev b := bc (bread dev b);
  o_data i := bc (bdata i);
  o_set i d := bc (set_data i d);
  o_log_write := log_write;
  o_brelse i := bc (brelse i)
|}.

Definition hkeys (H : gmap nat Z) : gset (Z * Z) := set_map (lkey l0) (map_img (SA := gset Z) H).

Record txn_ok (s : lstate) (H : gmap nat Z) (T L : gset Z) : Prop := {
  tx_sys : log_sys s;
  tx_geom : fresh (ll s) = fresh l0;
  tx_out : 1 <= lg_outstanding (ll s);
  tx_held : forall i b, H !! i = Some b -> held (lbc s) i (lkey l0 b);
  tx_busy : busy_keys (lbc s) = hkeys H;
  tx_log : forall b, b ∈ logged (ll s) -> b ∈ L;
  tx_cap : Z.of_nat (size L) <= lg_size l0 - 1;
  tx_clean : forall i b, H !! i = Some b ->
    b ∈ T \/ b ∈ logged (ll s) \/ view (lbc s) (lkey l0 b) = dread (bdisk (lbc s)) (lkey l0 b)
}.

Definition home_ok (b : Z) : Prop := ~ in_log l0 b /\ accepts (lkey l0 b) /\ 0 <= b < 2147483648 /\ b <> 1.

Lemma geom_eqs s : fresh (ll s) = fresh l0 ->
  lg_dev (ll s) = lg_dev l0 /\ lg_start (ll s) = lg_start l0 /\ lg_size (ll s) = lg_size l0.
Proof. intros E. split_and!; [exact (f_equal lg_dev E)|exact (f_equal lg_start E)|exact (f_equal lg_size E)]. Qed.

Lemma lkey_geom s b : fresh (ll s) = fresh l0 -> lkey (ll s) b = lkey l0 b.
Proof. intros E. unfold lkey. f_equal. by apply geom_eqs. Qed.

Lemma elem_of_hkeys H k : k ∈ hkeys H <-> exists i b, H !! i = Some b /\ k = lkey l0 b.
Proof.
  unfold hkeys. rewrite elem_of_map. split.
  - intros (b & -> & [i Hi]%elem_of_map_img). eauto.
  - intros (i & b & Hi & ->). exists b. split; [done|]. apply elem_of_map_img. eauto.
Qed.

Lemma dirty_logged s b : log_ok s -> fresh (ll s) = fresh l0 ->
  lkey l0 b ∈ dirty_keys (lbc s) <-> b ∈ logged (ll s).
Proof.
  intros Hok Hg. rewrite (lk_dirty _ Hok). unfold lset. rewrite elem_of_list_to_set, list_elem_of_In, in_map_iff.
  rewrite <- (lkey_geom s b Hg). split.
  - intros (b' & E & Hb'). apply lkey_inj in E as ->. by apply list_elem_of_In.
  - intros Hb. exists b. split; [done|]. by apply list_elem_of_In.
Qed.

Lemma hkeys_insert H i b : H !! i = None -> hkeys (<[i := b]> H) = {[lkey l0 b]} ∪ hkeys H.
Proof.
  intros Hi. apply set_eq. intros k. rewrite elem_of_union, elem_of_singleton, !elem_of_hkeys. split.
  - intros (j & b' & Hj & ->). apply lookup_insert_Some in Hj as [[-> ->]|[_ Hj]]; [by left|right; eauto].
  - intros [->|(j & b' & Hj & ->)]; [exists i, b; by rewrite lookup_insert_eq|].
    exists j, b'. rewrite lookup_insert_ne by congruence. done.
Qed.

Lemma hkeys_delete H i b : H !! i = Some b -> (forall j, H !! j = Some b -> j = i) ->
  hkeys (delete i H) = hkeys H ∖ {[lkey l0 b]}.
Proof.
  intros Hi Hu. apply set_eq. intros k. rewrite elem_of_difference, elem_of_singleton, !elem_of_hkeys. split.
  - intros (j & b' & [Hne Hj]%lookup_delete_Some & ->). split; [eauto|].
    intros E%lkey_inj. subst b'. by apply Hne, eq_sym, Hu.
  - intros [(j & b' & Hj & ->) Hk]. exists j, b'. split; [|done]. apply lookup_delete_Some. split; [|done].
    intros <-. apply Hk. congruence.
Qed.

Lemma size_hkeys H : (size (hkeys H) <= size H)%nat.
Proof.
  induction H as [|i b H Hi IH] using map_ind; [done|]. rewrite hkeys_insert, map_size_insert_None by done.
  rewrite size_union_alt, size_singleton. pose proof (subseteq_size (hkeys H ∖ {[lkey l0 b]}) (hkeys H)). set_solver by lia.
Qed.

Lemma size_logged s (L : gset Z) : log_ok s -> (forall b, b ∈ logged (ll s) -> b ∈ L) -> (size (dirty_keys (lbc s)) <= size L)%nat.
Proof.
  intros [Hbc Hg Hl Hd] Hsub. rewrite Hd, size_lset, <- length_logged by done.
  assert (E : size (list_to_set (C := gset Z) (logged (ll s))) = length (logged (ll s)))
    by (apply size_list_to_set, (lo_nodup _ Hl)).
  rewrite <- E. apply subseteq_size. intros b. rewrite elem_of_list_to_set. apply Hsub.
Qed.

(** A cache step of the transaction that leaves the log alone. *)
Lemma txn_cache s b' H T L H' T' : txn_ok s H T L -> bc_ok b' -> bdisk b' = bdisk (lbc s) ->
  dirty_keys b' = dirty_keys (lbc s) ->
  (forall i b, H' !! i = Some b -> held b' i (lkey l0 b)) -> busy_keys b' = hkeys H' ->
  (forall i b, H' !! i = Some b -> b ∈ T' \/ b ∈ logged (ll s) \/ view b' (lkey l0 b) = dread (bdisk (lbc s)) (lkey l0 b)) ->
  txn_ok (set_bc b' s) H' T' L.
Proof.
  intros [H1 H2 H3 H4 H5 H6 H7 H8] Hb Hd Hdi Hh Hbu Hc. split; cbn [set_bc ll lbc]; try done.
  - destruct (sys_ok _ H1) as [_ G1 G2 G3].
    apply (log_sys_step s); cbn [set_bc ll lbc]; rewrite ?Hd; try done; [|apply H1|apply H1].
    split; try done. cbn. congruence.
  - by rewrite Hd.
Qed.

Hypothesis Hg0 : log_geom l0.

Lemma txn_bread s H T L b : txn_ok s H T L -> accepts (lkey l0 b) -> (forall i, H !! i <> Some b) ->
  (size L + size H < NBUF)%nat ->
  runs (bc (bread (lg_dev l0) b)) s (fun i s' => H !! i = None /\ txn_ok s' (<[i := b]> H) T L /\
    forall b', view (lbc s') (lkey l0 b') = view (lbc s) (lkey l0 b')).
Proof.
  intros Ht Ha Hnb Hroom. apply runs_bc. destruct (Ht) as [H1 H2 H3 H4 H5 H6 H7 H8].
  eapply runs_mono; [apply (bread_blk (lbc s) (lkey l0 b)); try done; [apply H1|apply (gm_dev _ Hg0)| |]|].
  - rewrite H5, elem_of_hkeys. intros (i & b' & Hi & E%lkey_inj). subst b'. by apply (Hnb i).
  - right. rewrite size_union_alt, H5. pose proof (size_hkeys H).
    pose proof (size_logged s L (sys_ok _ H1) H6).
    pose proof (subseteq_size (dirty_keys (lbc s) ∖ hkeys H) (dirty_keys (lbc s)) ltac:(set_solver)). lia.
  - cbv beta. intros i b' (Hok & Hh & Hdat & Hv & Hdk & Hb & Hdi & Hkp & Hnew).
    assert (Hi : H !! i = None).
    { destruct (H !! i) as [b0|] eqn:E; [|done]. exfalso. by apply (Hnew i (lkey l0 b0)); [apply H4|]. }
    split; [done|]. split; [|intros b0; cbn; apply Hv]. apply (txn_cache s b' H T L); try done.
    + intros j b0 [[<- <-]|[Hne Hj]]%lookup_insert_Some; [done|]. apply (Hkp j); [done|by apply H4].
    + by rewrite Hb, hkeys_insert, H5.
    + intros j b0 [[<- <-]|[Hne Hj]]%lookup_insert_Some; rewrite Hv.
      * right. destruct (decide (b ∈ logged (ll s))) as [?|Hn]; [by left|right]. rewrite <- Hdk.
        rewrite Hdk. apply idle_clean; [apply H1| |].
        -- rewrite H5, elem_of_hkeys. intros (i' & b0 & Hi' & E%lkey_inj). subst b0. by apply (Hnb i').
        -- by rewrite dirty_logged by (done || apply H1).
      * by apply (H8 j).
Qed.

Lemma txn_held_uniq s H T L i j b : txn_ok s H T L -> H !! i = Some b -> H !! j = Some b -> j = i.
Proof.
  intros Ht Hi Hj. destruct (decide (j = i)) as [|Hne]; [done|]. exfalso.
  pose proof (tx_held _ _ _ _ Ht i b Hi) as Hhi. pose proof (tx_held _ _ _ _ Ht j b Hj) as (Hlt & Hk & _).
  by eapply (held_other (lbc s) i j); [apply Ht| | |..].
Qed.

Lemma txn_set s H T L i b d : txn_ok s H T L -> H !! i = Some b -> block_ok d ->
  runs (bc (set_data i d)) s (fun _ s' => txn_ok s' H ({[b]} ∪ T) L /\
    forall b', view (lbc s') (lkey l0 b') = if decide (b' = b) then d else view (lbc s) (lkey l0 b')).
Proof.
  intros Ht Hi Hd. apply runs_bc. destruct (Ht) as [H1 H2 H3 H4 H5 H6 H7 H8].
  eapply runs_mono; [apply (set_data_blk (lbc s) i (lkey l0 b)); [apply H1|by apply H4|done]|].
  cbv beta. intros _ b' (Hok & Hh & _ & Hv & Hdk & Hb & Hdi & Hkp). split.
  - apply (txn_cache s b' H T L); try done; [|congruence|].
    + intros j b0 Hj. destruct (decide (j = i)) as [->|Hne]; [by replace b0 with b by congruence|].
      apply (Hkp j); [done|by apply H4].
    + intros j b0 Hj. destruct (decide (b0 = b)) as [->|Hne]; [left; set_solver|].
      rewrite Hv, decide_False by (by intros E%lkey_inj). destruct (H8 j b0 Hj) as [?|?]; [left; set_solver|by right].
  - intros b0. cbn. rewrite Hv. destruct (decide (b0 = b)) as [->|Hne].
    + by rewrite decide_True.
    + by rewrite decide_False by (by intros E%lkey_inj).
Qed.

Lemma txn_brelse s H T L i b : txn_ok s H T L -> H !! i = Some b -> b ∉ T ->
  runs (bc (brelse i)) s (fun _ s' => txn_ok s' (delete i H) T L /\
    forall b', view (lbc s') (lkey l0 b') = view (lbc s) (lkey l0 b')).
Proof.
  intros Ht Hi HT. apply runs_bc. destruct (Ht) as [H1 H2 H3 H4 H5 H6 H7 H8].
  eapply runs_mono; [apply (brelse_blk (lbc s) i (lkey l0 b)); [apply H1|by apply H4|]|].
  { destruct (H8 i b Hi) as [?|[Hl|?]]; [done|left|by right]. by apply dirty_logged; [apply H1| |]. }
  cbv beta. intros _ b' (Hok & Hv & Hdk & Hb & Hdi & Hkp). split; [|intros b0; cbn; apply Hv].
  apply (txn_cache s b' H T L); try done.
  - intros j b0 [Hne Hj]%lookup_delete_Some. apply (Hkp j); [done|by apply H4].
  - rewrite Hb, H5, (hkeys_delete H i b); [done|done|]. intros j Hj. by eapply txn_held_uniq.
  - intros j b0 [Hne Hj]%lookup_delete_Some. rewrite Hv. by apply (H8 j).
Qed.

Lemma txn_log_write s H T L i b : txn_ok s H T L -> H !! i = Some b -> home_ok b ->
  Z.of_nat (size L) < lg_size l0 - 1 ->
  runs (log_write i) s (fun _ s' => txn_ok s' H (T ∖ {[b]}) ({[b]} ∪ L) /\
    forall b', view (lbc s') (lkey l0 b') = view (lbc s) (lkey l0 b')).
Proof.
  intros Ht Hi (Hn & Ha & Hb & Hb1) Hcap. destruct (Ht) as [H1 H2 H3 H4 H5 H6 H7 H8].
  destruct (geom_eqs s H2) as (Ed & Es & Ez). pose proof (sys_ok _ H1) as Hok.
  pose proof (H4 i b Hi) as Hh. rewrite <- (lkey_geom s b H2) in Hh, Ha.
  assert (Hn' : ~ in_log (ll s) b) by (unfold in_log in *; by rewrite Es, Ez).
  assert (Hroom : lh_n (ll s) < lg_size (ll s) - 1).
  { pose proof (size_logged s L Hok H6) as Hz. destruct (Hok) as [_ G1 G2 G3].
    rewrite G3, size_lset in Hz by done. pose proof (lo_n _ G2). unfold ln in Hz. lia. }
  eapply runs_mono; [exact (runs_conj _ _ _ _ (log_write_spec s i b Hok Hh Hn' Ha Hb H3 Hroom)
                                              (log_write_sys s i b H1 Hh Hn' Ha Hb Hb1 H3 Hroom))|].
  cbv beta. intros _ s' [(Hok' & Hh' & Hv & Hdk & Hbu & Hlg & Hln & (n & bl & El) & Hkp & _) Hs'].
  split; [|intros b'; apply Hv]. pose proof (size_add b L). split; rewrite ?El; try done.
  - intros j b0 Hj. destruct (decide (j = i)) as [->|Hne].
    + replace b0 with b by congruence. by rewrite (lkey_geom s b H2) in Hh'.
    + apply (Hkp j); [done|by apply H4].
  - congruence.
  - intros b0. rewrite <- El, Hlg. case_decide; [|rewrite elem_of_app, list_elem_of_singleton]; set_solver.
  - lia.
  - intros j b0 Hj. rewrite Hv, Hdk, <- El, Hlg. destruct (decide (b0 = b)) as [->|Hne].
    + right. left. case_decide; set_solver.
    + destruct (H8 j b0 Hj) as [?|[?|?]]; [left; set_solver|right; left; case_decide; set_solver|by right; right].
Qed.

#[export] Instance log_store : BlockStore lstate.
Proof.
  refine {|
    bs_dev := lg_dev l0;
    bs_cap := Z.to_nat (lg_size l0 - 1);
    bs_disk b := accepts (lkey l0 b);
    bs_home := home_ok;
    bs_ok := txn_ok;
    bs_blk s b := view (lbc s) (lkey l0 b);
    bread_law := txn_bread;
    set_law := txn_set;
    brelse_law := txn_brelse;
    bs_home_disk := _; bs_cap_small := _; bs_blk_ok := _; data_law := _; log_write_law := _
  |}.
  - by intros b (_ & ? & _).
  - pose proof (gm_size _ Hg0). change LOGSIZE with 30 in *. unfold NBUF. lia.
  - intros s H T L b Ht. apply view_ok, Ht.
  - intros s H T L i b Ht Hi. apply runs_bc, runs_gets. split; [by destruct s|].
    symmetry. apply view_held; [apply Ht|by apply Ht].
  - intros s H T L i b Ht Hi Hb Hsz. apply txn_log_write; try done. pose proof (gm_size _ Hg0). lia.
Defined.

(** The start of an operation: nothing held and an empty log. *)
Lemma txn_start s : log_sys s -> quiet (lbc s) -> fresh (ll s) = fresh l0 -> 1 <= lg_outstanding (ll s) ->
  lh_n (ll s) = 0 -> txn_ok s ∅ ∅ ∅.
Proof.
  intros Hs Hq Hf Ho Hn. pose proof (gm_size _ Hg0).
  assert (Hl : logged (ll s) = []) by (unfold logged, ln; by rewrite Hn). split; try done.
  - intros b. rewrite Hl. set_solver.
  - rewrite size_empty. lia.
Qed.
End LogStore.
