(* ===== verification/Fs.v ===== *)
(** * The file system: blocks, inodes, files, directories, paths (fs.c)

    Written against [BlockOps], the transactional block operations.  A
    [struct inode *] is an index into [icache.inode]; the null pointer is any
    index out of range.  This file holds the code; [FsBlock], [FsInode],
    [FsFile] and [FsWrite] say what it does. *)

From S2P Require Import Prelude.
From S2P Require Import Params.
From S2P Require Import Cstr.
From S2P Require Import Fsfmt.
From S2P Require Import Txn.

Definition I_BUSY : Z := 1.
Definition I_VALID : Z := 2.

(** struct inode: [i_di] is the copy of the disk inode. *)
Record inode := mkinode {
  i_dev : Z;
  i_inum : Z;
  i_ref : Z;
  i_flags : Z;
  i_di : dinode
}.

Definition i_type (ip : inode) : Z := di_type (i_di ip).
Definition i_major (ip : inode) : Z := di_major (i_di ip).
Definition i_nlink (ip : inode) : Z := di_nlink (i_di ip).
Definition i_size (ip : inode) : Z := di_size (i_di ip).
Definition i_addr (ip : inode) (n : Z) : Z := nthZ (di_addrs (i_di ip)) n.
Definition i_busy (ip : inode) : bool := test (i_flags ip) I_BUSY.
Definition i_valid (ip : inode) : bool := test (i_flags ip) I_VALID.

Definition zero_dinode : dinode := mkdinode 0 0 0 0 0 (replicate 13 0).
Definition noinode : inode := mkinode 0 0 0 0 zero_dinode.

Definition set_ref (r : Z) (ip : inode) : inode := mkinode (i_dev ip) (i_inum ip) r (i_flags ip) (i_di ip).
Definition set_iflags (f : Z) (ip : inode) : inode := mkinode (i_dev ip) (i_inum ip) (i_ref ip) f (i_di ip).
Definition set_di (d : dinode) (ip : inode) : inode := mkinode (i_dev ip) (i_inum ip) (i_ref ip) (i_flags ip) d.
Definition set_type (t : Z) (d : dinode) : dinode :=
  mkdinode t (di_major d) (di_minor d) (di_nlink d) (di_size d) (di_addrs d).
Definition set_dsize (z : Z) (d : dinode) : dinode :=
  mkdinode (di_type d) (di_major d) (di_minor d) (di_nlink d) z (di_addrs d).
Definition set_addr (n a : Z) (d : dinode) : dinode :=
  mkdinode (di_type d) (di_major d) (di_minor d) (di_nlink d) (di_size d) (<[Z.to_nat n := a]> (di_addrs d)).

(** The file-system state over the block layer [B]: [fb] is the block layer,
    [fsb] the global superblock, [fic] the inode cache; [fwoken] collects the
    channels of wakeup() and [fout] the arguments of cprintf(). *)
Record fs (B : Type) := mkfs {
  fb : B;
  fsb : superblock;
  fic : list inode;
  fwoken : list chan;
  fout : list (list Z)
}.
Arguments mkfs {B}.
Arguments fb {B}.
Arguments fsb {B}.
Arguments fic {B}.
Arguments fwoken {B}.
Arguments fout {B}.

(** struct stat *)
Record stat := mkstat { st_type : Z; st_dev : Z; st_ino : Z; st_nlink : Z; st_size : Z }.

(** The table [devsw]: for a major number, its read and write functions, if
    it has them. *)
Class DevSw (B : Type) := {
  dev_read : Z -> option (nat -> Z -> M (fs B) (Z * list Z));
  dev_write : Z -> option (nat -> list Z -> Z -> M (fs B) Z)
}.

Section Fs.
Context {B : Type} {BO : BlockOps B}.
Implicit Types s : fs B.

Definition set_fb (b : B) s : fs B := mkfs b (fsb s) (fic s) (fwoken s) (fout s).
Definition set_sb (x : superblock) s : fs B := mkfs (fb s) x (fic s) (fwoken s) (fout s).
Definition upd_inode (ip : nat) (f : inode -> inode) s : fs B :=
  mkfs (fb s) (fsb s) (alter f ip (fic s)) (fwoken s) (fout s).
Definition fwakeup (c : chan) s : fs B := mkfs (fb s) (fsb s) (fic s) (fwoken s ++ [c]) (fout s).
Definition cprintf (args : list Z) s : fs B := mkfs (fb s) (fsb s) (fic s) (fwoken s) (fout s ++ [args]).
Definition geti s (ip : nat) : inode := nth ip (fic s) noinode.

Definition blk {A} (m : M B A) : M (fs B) A := lift fb set_fb m.

(** ** Blocks *)

(** readsb *)
Definition fs_readsb (dev : Z) : M (fs B) superblock :=
  bp <- blk (o_bread dev 1) ;;
  d <- blk (o_data bp) ;;
  blk (o_brelse bp) ;;;
  ret (sb_of_bytes d).

Definition bzero (dev bno : Z) : M (fs B) unit :=
  bp <- blk (o_bread dev bno) ;;
  blk (o_set bp zero_block) ;;;
  blk (o_log_write bp) ;;;
  blk (o_brelse bp).

(** Bit [bi] of a bitmap block. *)
Definition bit_get (d : list Z) (bi : Z) : bool := test (nthZ d (bi / 8)) (Z.shiftl 1 (bi mod 8)).
Definition bit_set (d : list Z) (bi : Z) : list Z :=
  <[Z.to_nat (bi / 8) := u8 (Z.lor (nthZ d (bi / 8)) (Z.shiftl 1 (bi mod 8)))]> d.
Definition bit_clear (d : list Z) (bi : Z) : list Z :=
  <[Z.to_nat (bi / 8) := u8 (Z.land (nthZ d (bi / 8)) (Z.lnot (Z.shiftl 1 (bi mod 8))))]> d.

(** [for(bi = ...; bi < BPB && b + bi < sb.size; bi++)]: the first clear bit
    among [n] bits from [bi]. *)
Fixpoint free_bit (n : nat) (d : list Z) (size b bi : Z) : option Z :=
  match n with
  | O => None
  | S n' =>
      if b + bi <? size then
        if negb (bit_get d bi) then Some bi else free_bit n' d size b (bi + 1)
      else None
  end.

(** [for(b = 0; b < size; b += step)] *)
Definition upto (size step : Z) : list Z :=
  List.map (fun k => Z.of_nat k * step) (seq 0 (Z.to_nat ((size + step - 1) / step))).

Definition balloc (dev : Z) : M (fs B) Z :=
  sb <- gets fsb ;;
  r <- for_ (upto (sb_size sb) BPB) (fun b =>
    bp <- blk (o_bread dev (BBLOCK b sb)) ;;
    d <- blk (o_data bp) ;;
    match free_bit (Z.to_nat BPB) d (sb_size sb) b 0 with
    | Some bi =>
        blk (o_set bp (bit_set d bi)) ;;;
        blk (o_log_write bp) ;;;
        blk (o_brelse bp) ;;;
        bzero dev (b + bi) ;;;
        ret (Some (b + bi))
    | None => blk (o_brelse bp) ;;; ret None
    end) ;;
  match r with
  | Some b => ret b
  | None => panic "balloc: out of blocks"
  end.

Definition bfree (dev b : Z) : M (fs B) unit :=
  sb <- fs_readsb dev ;;
  modify (set_sb sb) ;;;
  bp <- blk (o_bread dev (BBLOCK b sb)) ;;
  d <- blk (o_data bp) ;;
  let bi := b mod BPB in
  if negb (bit_get d bi) then panic "freeing free block"
  else
    blk (o_set bp (bit_clear d bi)) ;;;
    blk (o_log_write bp) ;;;
    blk (o_brelse bp).

(** ** Inodes *)

Definition iinit (dev : Z) : M (fs B) unit :=
  sb <- fs_readsb dev ;;
  modify (set_sb sb) ;;;
  modify (cprintf [sb_size sb; sb_nblocks sb; sb_ninodes sb; sb_nlog sb; sb_logstart sb; sb_inodestart sb;
                   sb_bmapstart sb]).

(** The loop of iget: the entry of the inode, or else the first empty one. *)
Fixpoint iget_scan (l : list inode) (i : nat) (empty : option nat) (dev inum : Z) : nat + option nat :=
  match l with
  | [] => inr empty
  | ip :: l' =>
      if (i_ref ip >? 0) && (i_dev ip =? dev) && (i_inum ip =? inum) then inl i
      else iget_scan l' (S i)
             (match empty with None => if i_ref ip =? 0 then Some i else None | Some _ => empty end) dev inum
  end.

Definition iget (dev inum : Z) : M (fs B) nat :=
  ic <- gets fic ;;
  match iget_scan ic 0 None dev inum with
  | inl ip =>
      modify (upd_inode ip (fun x => set_ref (i_ref x + 1) x)) ;;;
      ret ip
  | inr None => panic "iget: no inodes"
  | inr (Some ip) =>
      modify (upd_inode ip (fun x => mkinode dev inum 1 0 (i_di x))) ;;;
      ret ip
  end.

Definition ialloc (dev type : Z) : M (fs B) nat :=
  sb <- gets fsb ;;
  r <- for_ (List.map Z.of_nat (seq 1 (Z.to_nat (sb_ninodes sb) - 1))) (fun inum =>
    bp <- blk (o_bread dev (IBLOCK inum sb)) ;;
    d <- blk (o_data bp) ;;
    if di_type (dinode_get d inum) =? 0 then
      blk (o_set bp (dinode_put d inum (set_type type zero_dinode))) ;;;
      blk (o_log_write bp) ;;;
      blk (o_brelse bp) ;;;
      ip <- iget dev inum ;;
      ret (Some ip)
    else blk (o_brelse bp) ;;; ret None) ;;
  match r with
  | Some ip => ret ip
  | None => panic "ialloc: no inodes"
  end.

Definition iupdate (ip : nat) : M (fs B) unit :=
  sb <- gets fsb ;;
  x <- gets (fun s => geti s ip) ;;
  bp <- blk (o_bread (i_dev x) (IBLOCK (i_inum x) sb)) ;;
  d <- blk (o_data bp) ;;
  blk (o_set bp (dinode_put d (i_inum x) (i_di x))) ;;;
  blk (o_log_write bp) ;;;
  blk (o_brelse bp).

Definition idup (ip : nat) : M (fs B) nat :=
  modify (upd_inode ip (fun x => set_ref (i_ref x + 1) x)) ;;;
  ret ip.

Definition ilock (ip : nat) : M (fs B) unit :=
  x <- gets (fun s => geti s ip) ;;
  if (NINODE <=? ip)%nat || (i_ref x <? 1) then panic "ilock"
  else if i_busy x then sleep_on (ChInode ip)
  else
    modify (upd_inode ip (fun x => set_iflags (Z.lor (i_flags x) I_BUSY) x)) ;;;
    if negb (i_valid x) then
      sb <- gets fsb ;;
      bp <- blk (o_bread (i_dev x) (IBLOCK (i_inum x) sb)) ;;
      d <- blk (o_data bp) ;;
      let di := dinode_get d (i_inum x) in
      modify (upd_inode ip (set_di di)) ;;;
      blk (o_brelse bp) ;;;
      modify (upd_inode ip (fun x => set_iflags (Z.lor (i_flags x) I_VALID) x)) ;;;
      if di_type di =? 0 then panic "ilock: no type" else ret tt
    else ret tt.

Definition iunlock (ip : nat) : M (fs B) unit :=
  x <- gets (fun s => geti s ip) ;;
  if (NINODE <=? ip)%nat || negb (i_busy x) || (i_ref x <? 1) then panic "iunlock"
  else
    modify (upd_inode ip (fun x => set_iflags (Z.land (i_flags x) (Z.lnot I_BUSY)) x)) ;;;
    modify (fwakeup (ChInode ip)).

Definition bmap (ip : nat) (bn : Z) : M (fs B) Z :=
  x <- gets (fun s => geti s ip) ;;
  if bn <? NDIRECT then
    if i_addr x bn =? 0 then
      addr <- balloc (i_dev x) ;;
      modify (upd_inode ip (fun x => set_di (set_addr bn addr (i_di x)) x)) ;;;
      ret addr
    else ret (i_addr x bn)
  else
    let bn := bn - NDIRECT in
    if bn <? NINDIRECT then
      addr <- (if i_addr x NDIRECT =? 0 then
                 addr <- balloc (i_dev x) ;;
                 modify (upd_inode ip (fun x => set_di (set_addr NDIRECT addr (i_di x)) x)) ;;;
                 ret addr
               else ret (i_addr x NDIRECT)) ;;
      bp <- blk (o_bread (i_dev x) addr) ;;
      a <- blk (o_data bp) ;;
      let cur := get32 a (4 * Z.to_nat bn) in
      addr <- (if cur =? 0 then
                 addr <- balloc (i_dev x) ;;
                 a <- blk (o_data bp) ;;
                 blk (o_set bp (put32 a (4 * Z.to_nat bn) addr)) ;;;
                 blk (o_log_write bp) ;;;
                 ret addr
               else ret cur) ;;
      blk (o_brelse bp) ;;;
      ret addr
    else panic "bmap: out of range".

Definition itrunc (ip : nat) : M (fs B) unit :=
  each (List.map Z.of_nat (seq 0 (Z.to_nat NDIRECT))) (fun i =>
    x <- gets (fun s => geti s ip) ;;
    if negb (i_addr x i =? 0) then
      bfree (i_dev x) (i_addr x i) ;;;
      modify (upd_inode ip (fun x => set_di (set_addr i 0 (i_di x)) x))
    else ret tt) ;;;
  x <- gets (fun s => geti s ip) ;;
  (if negb (i_addr x NDIRECT =? 0) then
     bp <- blk (o_bread (i_dev x) (i_addr x NDIRECT)) ;;
     each (seq 0 (Z.to_nat NINDIRECT)) (fun j =>
       a <- blk (o_data bp) ;;
       if negb (get32 a (4 * j) =? 0) then bfree (i_dev x) (get32 a (4 * j)) else ret tt) ;;;
     blk (o_brelse bp) ;;;
     bfree (i_dev x) (i_addr x NDIRECT) ;;;
     modify (upd_inode ip (fun x => set_di (set_addr NDIRECT 0 (i_di x)) x))
   else ret tt) ;;;
  modify (upd_inode ip (fun x => set_di (set_dsize 0 (i_di x)) x)) ;;;
  iupdate ip.

Definition iput (ip : nat) : M (fs B) unit :=
  x <- gets (fun s => geti s ip) ;;
  (if (i_ref x =? 1) && i_valid x && (i_nlink x =? 0) then
     if i_busy x then panic "iput busy"
     else
       modify (upd_inode ip (fun x => set_iflags (Z.lor (i_flags x) I_BUSY) x)) ;;;
       itrunc ip ;;;
       modify (upd_inode ip (fun x => set_di (set_type 0 (i_di x)) x)) ;;;
       iupdate ip ;;;
       modify (upd_inode ip (set_iflags 0)) ;;;
       modify (fwakeup (ChInode ip))
   else ret tt) ;;;
  modify (upd_inode ip (fun x => set_ref (i_ref x - 1) x)).

Definition iunlockput (ip : nat) : M (fs B) unit := iunlock ip ;;; iput ip.

(** ** Inode content *)

Definition stati (ip : nat) : M (fs B) stat :=
  x <- gets (fun s => geti s ip) ;;
  ret (mkstat (i_type x) (s32 (i_dev x)) (i_inum x) (i_nlink x) (i_size x)).

(** The loop of readi; each round copies at least one byte, so [n - tot]
    rounds are enough. *)
Fixpoint readi_loop (fuel : nat) (ip : nat) (tot off n : Z) (acc : list Z) : M (fs B) (list Z) :=
  match fuel with
  | O => ret acc
  | S fuel' =>
      if tot <? n then
        dev <- gets (fun s => i_dev (geti s ip)) ;;
        b <- bmap ip (off / BSIZE) ;;
        bp <- blk (o_bread dev b) ;;
        let m := Z.min (n - tot) (BSIZE - off mod BSIZE) in
        d <- blk (o_data bp) ;;
        blk (o_brelse bp) ;;;
        readi_loop fuel' ip (tot + m) (off + m) n (acc ++ slice d (Z.to_nat (off mod BSIZE)) (Z.to_nat m))
      else ret acc
  end.

Context {DS : DevSw B}.

(** readi: the return value and the bytes stored at [dst]. *)
Definition readi (ip : nat) (off n : Z) : M (fs B) (Z * list Z) :=
  x <- gets (fun s => geti s ip) ;;
  if i_type x =? T_DEV then
    if (i_major x <? 0) || (i_major x >=? NDEV) then ret (-1, [])
    else match dev_read (i_major x) with
         | None => ret (-1, [])
         | Some f => f ip n
         end
  else if (off >? i_size x) || (u32 (off + n) <? off) then ret (-1, [])
  else
    let n := if u32 (off + n) >? i_size x then i_size x - off else n in
    bytes <- readi_loop (Z.to_nat n) ip 0 off n [] ;;
    ret (s32 n, bytes).

(** The loop of writei; it returns the final [off]. *)
Fixpoint writei_loop (fuel : nat) (ip : nat) (src : list Z) (tot off n : Z) : M (fs B) Z :=
  match fuel with
  | O => ret off
  | S fuel' =>
      if tot <? n then
        dev <- gets (fun s => i_dev (geti s ip)) ;;
        b <- bmap ip (off / BSIZE) ;;
        bp <- blk (o_bread dev b) ;;
        let m := Z.min (n - tot) (BSIZE - off mod BSIZE) in
        d <- blk (o_data bp) ;;
        blk (o_set bp (splice d (Z.to_nat (off mod BSIZE)) (slice src (Z.to_nat tot) (Z.to_nat m)))) ;;;
        blk (o_log_write bp) ;;;
        blk (o_brelse bp) ;;;
        writei_loop fuel' ip src (tot + m) (off + m) n
      else ret off
  end.

Definition writei (ip : nat) (src : list Z) (off n : Z) : M (fs B) Z :=
  x <- gets (fun s => geti s ip) ;;
  if i_type x =? T_DEV then
    if (i_major x <? 0) || (i_major x >=? NDEV) then ret (-1)
    else match dev_write (i_major x) with
         | None => ret (-1)
         | Some f => f ip src n
         end
  else if (off >? i_size x) || (u32 (off + n) <? off) then ret (-1)
  else if u32 (off + n) >? MAXFILE * BSIZE then ret (-1)
  else
    off' <- writei_loop (Z.to_nat n) ip src 0 off n ;;
    x <- gets (fun s => geti s ip) ;;
    (if (n >? 0) && (off' >? i_size x) then
       modify (upd_inode ip (fun x => set_di (set_dsize off' (i_di x)) x)) ;;;
       iupdate ip
     else ret tt) ;;;
    ret (s32 n).

(** ** Directories *)

(** A name is the bytes of a string; reading past its end finds the NUL. *)
Definition chars (l : list Z) : nat -> Z := fun i => nth i l 0.
Definition namecmp (a b : list Z) : Z := strncmp (chars a) (chars b) DIRSIZ.

(** dirlookup: the inode, with the offset stored in [*poff]. *)
Definition dirlookup (dp : nat) (name : list Z) : M (fs B) (option (nat * Z)) :=
  x <- gets (fun s => geti s dp) ;;
  if negb (i_type x =? T_DIR) then panic "dirlookup not DIR"
  else
    for_ (upto (i_size x) 16) (fun off =>
      r <- readi dp off 16 ;;
      if negb (fst r =? 16) then panic "dirlink read"
      else
        let de := dirent_of_bytes (snd r) in
        if de_inum de =? 0 then ret None
        else if namecmp name (de_name de) =? 0 then
          ip <- iget (i_dev x) (de_inum de) ;;
          ret (Some (ip, off))
        else ret None).

Definition dirlink (dp : nat) (name : list Z) (inum : Z) : M (fs B) Z :=
  r <- dirlookup dp name ;;
  match r with
  | Some (ip, _) => iput ip ;;; ret (-1)
  | None =>
      x <- gets (fun s => geti s dp) ;;
      r <- for_ (upto (i_size x) 16) (fun off =>
        r <- readi dp off 16 ;;
        if negb (fst r =? 16) then panic "dirlink read"
        else if de_inum (dirent_of_bytes (snd r)) =? 0 then ret (Some off) else ret None) ;;
      let off := match r with Some off => off | None => (i_size x + 15) / 16 * 16 end in
      w <- writei dp (dirent_bytes (mkdirent (u16 inum) (pad (chars name) DIRSIZ))) off 16 ;;
      if negb (w =? 16) then panic "dirlink" else ret 0
  end.

(** ** Paths *)

(** [while( *path == '/') path++;] and [while( *path != '/' && *path != 0)]
    on the bytes of a path. *)
Fixpoint skip_slashes (path : list Z) : list Z :=
  match path with
  | c :: p => if c =? 47 then skip_slashes p else path
  | [] => []
  end.
Fixpoint split_elem (path : list Z) : list Z * list Z :=
  match path with
  | c :: p => if c =? 47 then ([], path) else let '(e, r) := split_elem p in (c :: e, r)
  | [] => ([], [])
  end.

(** skipelem: the rest of the path and [name], or null. *)
Definition skipelem (path : list Z) : option (list Z * list Z) :=
  match skip_slashes path with
  | [] => None
  | p =>
      let '(e, rest) := split_elem p in
      Some (skip_slashes rest, if (DIRSIZ <=? length e)%nat then take DIRSIZ e else e)
  end.

(** The loop of namex: each round removes an element from the path, so the
    length of the path bounds the rounds. *)
Fixpoint namex_loop (fuel : nat) (ip : nat) (path : list Z) (nameiparent : bool) (name : list Z) :
    M (fs B) (option (nat * list Z)) :=
  match fuel with
  | O => ret None
  | S fuel' =>
      match skipelem path with
      | Some (path, name) =>
          ilock ip ;;;
          x <- gets (fun s => geti s ip) ;;
          if negb (i_type x =? T_DIR) then iunlockput ip ;;; ret None
          else if nameiparent && (length path =? 0)%nat then iunlock ip ;;; ret (Some (ip, name))
          else
            r <- dirlookup ip name ;;
            match r with
            | None => iunlockput ip ;;; ret None
            | Some (next, _) => iunlockput ip ;;; namex_loop fuel' next path nameiparent name
            end
      | None => if nameiparent then iput ip ;;; ret None else ret (Some (ip, name))
      end
  end.

(** namex for a process whose current directory is [cwd]. *)
Definition namex (cwd : nat) (path : list Z) (nameiparent : bool) : M (fs B) (option (nat * list Z)) :=
  ip <- (if nthZ path 0 =? 47 then iget ROOTDEV ROOTINO else idup cwd) ;;
  namex_loop (S (length path)) ip path nameiparent [].

Definition namei (cwd : nat) (path : list Z) : M (fs B) (option nat) :=
  r <- namex cwd path false ;;
  ret (fst <$> r).

Definition nameiparent (cwd : nat) (path : list Z) : M (fs B) (option (nat * list Z)) := namex cwd path true.
End Fs.
