(* ===== verification/Mkfs.v ===== *)
(** * The image builder (mkfs.c)

    mkfs runs on the build host: the state is the image file, as its length in
    sectors and their contents, and the two counters.  A failed assertion, a file
    that cannot be opened or a read past the end of the image ends the
    program. *)

From S2P Require Import Prelude.
From S2P Require Import Params.
From S2P Require Import Fsfmt.
From S2P Require Import Fs.

Definition NINODES : Z := 200.

Definition nbitmap : Z := FSSIZE / (BSIZE * 8) + 1.
Definition ninodeblocks : Z := NINODES / IPB + 1.
Definition nlog : Z := LOGSIZE.
Definition nmeta : Z := 2 + nlog + ninodeblocks + nbitmap.
Definition nblocks : Z := FSSIZE - nmeta.

(** xint and xshort store the bytes in intel order, which a host of that order
    reads back. *)
Definition xint (x : Z) : Z := le_val (le_bytes 4 x).
Definition xshort (x : Z) : Z := le_val (le_bytes 2 x).

(** The superblock main fills in. *)
Definition mk_sb : superblock :=
  mksb (xint FSSIZE) (xint nblocks) (xint NINODES) (xint nlog) (xint 2) (xint (2 + nlog)) (xint (2 + nlog + ninodeblocks)).

Record mk := mkmk {
  m_img : Z -> list Z;
  m_size : Z;                      (* sectors in the file *)
  m_freeinode : Z;
  m_freeblock : Z
}.

Definition wsect (sec : Z) (buf : list Z) : M mk unit := modify (fun s =>
  mkmk (fun b => if b =? sec then buf else m_img s b) (Z.max (m_size s) (sec + 1)) (m_freeinode s) (m_freeblock s)).

Definition rsect (sec : Z) : M mk (list Z) :=
  s <- get ;;
  if sec <? m_size s then ret (m_img s sec) else panic "read".

Definition winode (inum : Z) (ip : dinode) : M mk unit :=
  let bn := IBLOCK inum mk_sb in
  buf <- rsect bn ;;
  wsect bn (dinode_put buf inum ip).

Definition rinode (inum : Z) : M mk dinode :=
  let bn := IBLOCK inum mk_sb in
  buf <- rsect bn ;;
  ret (dinode_get buf inum).

(** freeinode++ and freeblock++ *)
Definition next_inode : M mk Z := fun s => Done (m_freeinode s) (mkmk (m_img s) (m_size s) (u32 (m_freeinode s + 1)) (m_freeblock s)).
Definition next_block : M mk Z := fun s => Done (m_freeblock s) (mkmk (m_img s) (m_size s) (m_freeinode s) (u32 (m_freeblock s + 1))).

Definition mk_ialloc (type : Z) : M mk Z :=
  inum <- next_inode ;;
  winode inum (mkdinode (s16 (xshort type)) 0 0 (s16 (xshort 1)) (xint 0) (replicate 13 0)) ;;;
  ret inum.

(** The bits of the first [used] blocks. *)
Fixpoint mark_used (n : nat) (buf : list Z) (i : Z) : list Z :=
  match n with
  | O => buf
  | S n' => mark_used n' (bit_set buf i) (i + 1)
  end.

Definition mk_balloc (used : Z) : M mk unit :=
  if negb (used <? BSIZE * 8) then panic "assert"
  else wsect (sb_bmapstart mk_sb) (mark_used (Z.to_nat used) zero_block 0).

(** The sector of block [fbn] of the file, allocated when there is none. *)
Definition append_block (din : dinode) (fbn : Z) : M mk (dinode * Z) :=
  if fbn <? NDIRECT then
    if xint (nthZ (di_addrs din) fbn) =? 0 then
      b <- next_block ;;
      let din := set_addr fbn (xint b) din in
      ret (din, xint (nthZ (di_addrs din) fbn))
    else ret (din, xint (nthZ (di_addrs din) fbn))
  else
    din <- (if xint (nthZ (di_addrs din) NDIRECT) =? 0 then b <- next_block ;; ret (set_addr NDIRECT (xint b) din) else ret din) ;;
    let a := xint (nthZ (di_addrs din) NDIRECT) in
    indirect <- rsect a ;;
    let k := (4 * Z.to_nat (fbn - NDIRECT))%nat in
    if get32 indirect k =? 0 then
      b <- next_block ;;
      let indirect := put32 indirect k (xint b) in
      wsect a indirect ;;;
      ret (din, xint (get32 indirect k))
    else ret (din, xint (get32 indirect k)).

(** [while(n > 0)]; each round takes at least one byte of [p]. *)
Fixpoint iappend_loop (fuel : nat) (din : dinode) (off : Z) (p : list Z) : M mk (dinode * Z) :=
  match fuel with
  | O => ret (din, off)
  | S fuel' =>
      if (0 <? length p)%nat then
        let fbn := off / BSIZE in
        if negb (fbn <? MAXFILE) then panic "assert"
        else
          r <- append_block din fbn ;;
          let n1 := Z.min (Z.of_nat (length p)) ((fbn + 1) * BSIZE - off) in
          buf <- rsect (snd r) ;;
          wsect (snd r) (splice buf (Z.to_nat (off - fbn * BSIZE)) (take (Z.to_nat n1) p)) ;;;
          iappend_loop fuel' (fst r) (off + n1) (drop (Z.to_nat n1) p)
      else ret (din, off)
  end.

Definition iappend (inum : Z) (p : list Z) : M mk unit :=
  din <- rinode inum ;;
  r <- iappend_loop (length p) din (xint (di_size din)) p ;;
  winode inum (set_dsize (xint (snd r)) (fst r)).

(** strcpy and strncpy into de.name of a zeroed entry. *)
Definition name_field (name : list Z) : list Z := take DIRSIZ (name ++ replicate DIRSIZ 0).
Definition mk_dirent (inum : Z) (name : list Z) : list Z := dirent_bytes (mkdirent (xshort inum) (name_field name)).

Definition ROOT_DOT : list Z := [46].
Definition ROOT_DOTDOT : list Z := [46; 46].

(** [if(argv[i][0] == '_') ++argv[i]] *)
Definition skip_underscore (name : list Z) : list Z :=
  match name with
  | ch :: name' => if ch =? 95 then name' else name
  | [] => name
  end.

(** A file of the host: its name and the pieces in which read returns it, or
    [None] when it cannot be opened. *)
Definition hostfile : Type := list Z * option (list (list Z)).

Definition add_file (rootino : Z) (f : hostfile) : M mk unit :=
  if existsb (Z.eqb 47) (fst f) then panic "assert"
  else
    match snd f with
    | None => panic "open"
    | Some pieces =>
        let name := skip_underscore (fst f) in
        inum <- mk_ialloc T_FILE ;;
        iappend rootino (mk_dirent inum name) ;;;
        each pieces (iappend inum)
    end.

(** main, once the image file is open: [files] are argv[2] and on. *)
Definition mkfs_main (files : list hostfile) : M mk unit :=
  each (seq 0 (Z.to_nat FSSIZE)) (fun i => wsect (Z.of_nat i) zero_block) ;;;
  wsect 1 (splice zero_block 0 (sb_bytes mk_sb)) ;;;
  rootino <- mk_ialloc T_DIR ;;
  if negb (rootino =? ROOTINO) then panic "assert"
  else
    iappend rootino (mk_dirent rootino ROOT_DOT) ;;;
    iappend rootino (mk_dirent rootino ROOT_DOTDOT) ;;;
    each files (add_file rootino) ;;;
    din <- rinode rootino ;;
    let off := (xint (di_size din) / BSIZE + 1) * BSIZE in
    winode rootino (set_dsize (xint off) din) ;;;
    used <- gets m_freeblock ;;
    mk_balloc used.

(** The image file is new: O_CREAT and O_TRUNC. *)
Definition mk0 : mk := mkmk (fun _ => zero_block) 0 1 nmeta.
