(* ===== verification/File.v ===== *)
(** * Open files (file.c) and the ends of pipes (pipe.c)

    The state of the file layer: the file system, the table of open files,
    the pipes by the address of their page, the page allocator, the current
    process, and the channels passed to wakeup().  A [struct file *] is an
    index into [ftable]. *)

From S2P Require Import Prelude.
From S2P Require Import Params.
From S2P Require Import Kalloc.
From S2P Require Import Pipe.
From S2P Require Import Syscall.
From S2P Require Import Txn.
From S2P Require Import Fs.

Inductive ftype := FD_NONE | FD_PIPE | FD_INODE.

#[export] Instance ftype_eq_dec : EqDecision ftype.
Proof. solve_decision. Defined.

(** struct file *)
Record file := mkfile {
  f_type : ftype;
  f_ref : Z;
  f_readable : bool;
  f_writable : bool;
  f_pipe : Z;
  f_ip : nat;
  f_off : Z
}.

Definition nofile : file := mkfile FD_NONE 0 false false 0 0 0.
Definition set_fref (r : Z) (f : file) : file :=
  mkfile (f_type f) r (f_readable f) (f_writable f) (f_pipe f) (f_ip f) (f_off f).
Definition set_ftype (t : ftype) (f : file) : file :=
  mkfile t (f_ref f) (f_readable f) (f_writable f) (f_pipe f) (f_ip f) (f_off f).
Definition set_foff (o : Z) (f : file) : file :=
  mkfile (f_type f) (f_ref f) (f_readable f) (f_writable f) (f_pipe f) (f_ip f) o.

Record kern (B : Type) := mkkern {
  kfs : fs B;
  ftable : list file;
  kpipes : gmap Z pipe;
  kpg : kmem;
  kproc : uproc;
  kwoken : list chan
}.
Arguments mkkern {B}.
Arguments kfs {B}.
Arguments ftable {B}.
Arguments kpipes {B}.
Arguments kpg {B}.
Arguments kproc {B}.
Arguments kwoken {B}.

(** begin_op and end_op of the block layer. *)
Class TxnOps (B : Type) := {
  o_begin_op : M B unit;
  o_end_op : M B unit
}.

Section File.
Context {B : Type} {BO : BlockOps B} {TO : TxnOps B} {DS : DevSw B} (kend : Z).
Implicit Types s : kern B.

Definition set_kfs (x : fs B) s : kern B := mkkern x (ftable s) (kpipes s) (kpg s) (kproc s) (kwoken s).
Definition upd_file (f : nat) (g : file -> file) s : kern B :=
  mkkern (kfs s) (alter g f (ftable s)) (kpipes s) (kpg s) (kproc s) (kwoken s).
Definition set_pipes (ps : gmap Z pipe) s : kern B := mkkern (kfs s) (ftable s) ps (kpg s) (kproc s) (kwoken s).
Definition set_kpg (x : kmem) s : kern B := mkkern (kfs s) (ftable s) (kpipes s) x (kproc s) (kwoken s).
Definition set_kproc (p : uproc) s : kern B := mkkern (kfs s) (ftable s) (kpipes s) (kpg s) p (kwoken s).
Definition getf s (f : nat) : file := nth f (ftable s) nofile.

Definition kf {A} (m : M (fs B) A) : M (kern B) A := lift kfs set_kfs m.
Definition kk {A} (m : M kmem A) : M (kern B) A := lift kpg set_kpg m.
Definition begin_op_k : M (kern B) unit := kf (lift fb set_fb o_begin_op).
Definition end_op_k : M (kern B) unit := kf (lift fb set_fb o_end_op).

(** The pipe at address [p]; the operations of [Pipe] on it. *)
Definition nopipe : pipe := mkpipe [] 0 0 0 0.
Definition on_pipe {A} (p : Z) (m : M pst A) : M (kern B) A := fun s =>
  let put (x : pst) := mkkern (kfs s) (ftable s) (<[p := pp x]> (kpipes s)) (kpg s) (kproc s) (kwoken s ++ pwoken x) in
  match m (mkpst (default nopipe (kpipes s !! p)) []) with
  | Done a x => Done a (put x)
  | Panic msg => Panic msg
  | Sleep c x => Sleep c (put x)
  end.

(** ** file.c *)

Definition filealloc : M (kern B) (option nat) :=
  t <- gets ftable ;;
  match list_find (fun f => f_ref f = 0) t with
  | Some (f, _) => modify (upd_file f (set_fref 1)) ;;; ret (Some f)
  | None => ret None
  end.

Definition filedup (f : nat) : M (kern B) nat :=
  x <- gets (fun s => getf s f) ;;
  if f_ref x <? 1 then panic "filedup"
  else modify (upd_file f (set_fref (f_ref x + 1))) ;;; ret f.

Definition pipeclose (p : Z) (writable : bool) : M (kern B) unit :=
  both <- on_pipe p (pipeclose_ends p writable) ;;
  if both : bool then
    modify (fun s => set_pipes (delete p (kpipes s)) s) ;;;
    kk (kfree kend p)
  else ret tt.

Definition fileclose (f : nat) : M (kern B) unit :=
  x <- gets (fun s => getf s f) ;;
  if f_ref x <? 1 then panic "fileclose"
  else
    modify (upd_file f (set_fref (f_ref x - 1))) ;;;
    if f_ref x - 1 >? 0 then ret tt
    else
      modify (upd_file f (fun y => set_ftype FD_NONE (set_fref 0 y))) ;;;
      match f_type x with
      | FD_PIPE => pipeclose (f_pipe x) (f_writable x)
      | FD_INODE =>
          begin_op_k ;;;
          kf (iput (f_ip x)) ;;;
          end_op_k
      | FD_NONE => ret tt
      end.

(** filestat: the stat structure, [None] for -1. *)
Definition filestat (f : nat) : M (kern B) (option stat) :=
  x <- gets (fun s => getf s f) ;;
  match f_type x with
  | FD_INODE =>
      kf (ilock (f_ip x)) ;;;
      st <- kf (stati (f_ip x)) ;;
      kf (iunlock (f_ip x)) ;;;
      ret (Some st)
  | _ => ret None
  end.

(** fileread: the return value and the bytes stored at [addr]; the C [int n]
    becomes the [uint] of readi. *)
Definition fileread (f : nat) (n : Z) : M (kern B) (Z * list Z) :=
  x <- gets (fun s => getf s f) ;;
  if negb (f_readable x) then ret (-1, [])
  else
    match f_type x with
    | FD_PIPE =>
        k <- gets (fun s => u_killed (kproc s)) ;;
        on_pipe (f_pipe x) (piperead (f_pipe x) k n)
    | FD_INODE =>
        kf (ilock (f_ip x)) ;;;
        r <- kf (readi (f_ip x) (f_off x) (u32 n)) ;;
        (if fst r >? 0 then modify (upd_file f (fun y => set_foff (u32 (f_off y + fst r)) y)) else ret tt) ;;;
        kf (iunlock (f_ip x)) ;;;
        ret r
    | FD_NONE => panic "fileread"
    end.

Definition max_write : Z := (LOGSIZE - 1 - 1 - 2) / 2 * 512.

(** [while(i < n)] of filewrite over the bytes [addr]; it returns the final
    [i].  A round that continues writes at least one byte. *)
Fixpoint filewrite_loop (fuel : nat) (f : nat) (addr : list Z) (i n : Z) : M (kern B) Z :=
  match fuel with
  | O => ret i
  | S fuel' =>
      if i <? n then
        let n1 := if n - i >? max_write then max_write else n - i in
        begin_op_k ;;;
        x <- gets (fun s => getf s f) ;;
        kf (ilock (f_ip x)) ;;;
        r <- kf (writei (f_ip x) (slice addr (Z.to_nat i) (Z.to_nat n1)) (f_off x) n1) ;;
        (if r >? 0 then modify (upd_file f (fun y => set_foff (u32 (f_off y + r)) y)) else ret tt) ;;;
        kf (iunlock (f_ip x)) ;;;
        end_op_k ;;;
        if r <? 0 then ret i
        else if negb (r =? n1) then panic "short filewrite"
        else filewrite_loop fuel' f addr (i + r) n
      else ret i
  end.

(** filewrite of [n] bytes at [addr]; [inr] is a pipewrite that sleeps with
    those bytes left. *)
Definition filewrite (f : nat) (addr : list Z) (n : Z) : M (kern B) (Z + list Z) :=
  x <- gets (fun s => getf s f) ;;
  if negb (f_writable x) then ret (inl (-1))
  else
    match f_type x with
    | FD_PIPE =>
        k <- gets (fun s => u_killed (kproc s)) ;;
        on_pipe (f_pipe x) (pipewrite_loop (f_pipe x) k n (take (Z.to_nat n) addr))
    | FD_INODE =>
        i <- filewrite_loop (Z.to_nat n) f addr 0 n ;;
        ret (inl (if i =? n then n else -1))
    | FD_NONE => panic "filewrite"
    end.

(** ** pipealloc *)

Definition set_end (readable writable : bool) (p : Z) (f : file) : file :=
  mkfile FD_PIPE (f_ref f) readable writable p (f_ip f) (f_off f).

(** The cleanup at [bad]; the page is null whenever it is reached. *)
Definition pipe_bad (f0 f1 : option nat) : M (kern B) (option (nat * nat)) :=
  (match f0 with Some f => fileclose f | None => ret tt end) ;;;
  (match f1 with Some f => fileclose f | None => ret tt end) ;;;
  ret None.

Definition pipealloc : M (kern B) (option (nat * nat)) :=
  f0 <- filealloc ;;
  match f0 with
  | None => pipe_bad None None
  | Some r =>
      f1 <- filealloc ;;
      match f1 with
      | None => pipe_bad (Some r) None
      | Some w =>
          p <- kk kalloc ;;
          if p =? 0 then pipe_bad (Some r) (Some w)
          else
            modify (fun s => set_pipes (<[p := new_pipe (List.map (fun k => km (kpg s) (p + 52 + Z.of_nat k)) (seq 0 512))]> (kpipes s)) s) ;;;
            modify (upd_file r (set_end true false p)) ;;;
            modify (upd_file w (set_end false true p)) ;;;
            ret (Some (r, w))
      end
  end.
End File.
