(* ===== verification/Sysfile.v ===== *)
(** * File-system calls (sysfile.c)

    Each call fetches its arguments from the current process and runs on the
    file layer's state; the result is the value the call returns in eax.
    exec() is passed to [sys_exec] as an argument. *)

From S2P Require Import Prelude.
From S2P Require Import Params.
From S2P Require Import Cstr.
From S2P Require Import Mmu.
From S2P Require Import Fsfmt.
From S2P Require Import Kalloc.
From S2P Require Import Pipe.
From S2P Require Import Syscall.
From S2P Require Import Txn.
From S2P Require Import Fs.
From S2P Require Import File.

(** sizeof(struct stat): short, int, uint, short and uint with padding. *)
Definition STAT_SZ : Z := 20.

Section Sysfile.
Context {B : Type} {BO : BlockOps B} {TO : TxnOps B} {DS : DevSw B} (kend : Z).

Definition cur : M (kern B) uproc := gets kproc.
Definition upd_proc (f : uproc -> uproc) : M (kern B) unit := modify (fun s => set_kproc (f (kproc s)) s).
Definition set_ofile (fd : nat) (f : option nat) (p : uproc) : uproc :=
  mkuproc (u_sz p) (u_mem p) (u_esp p) (u_eax p) (<[fd := f]> (u_ofile p)) (u_cwd p) (u_killed p) (u_pid p).
Definition set_umem (g : mem -> mem) (p : uproc) : uproc :=
  mkuproc (u_sz p) (g (u_mem p)) (u_esp p) (u_eax p) (u_ofile p) (u_cwd p) (u_killed p) (u_pid p).
Definition set_cwd (d : nat) (p : uproc) : uproc :=
  mkuproc (u_sz p) (u_mem p) (u_esp p) (u_eax p) (u_ofile p) d (u_killed p) (u_pid p).

(** Bytes stored at a user address, and the bytes read from one. *)
Definition ucopy (a : Z) (d : list Z) (m : mem) : mem := fun x => if inside a (length d) x then nthZ d (x - a) else m x.
Definition uread (p : uproc) (a : Z) (n : nat) : list Z := List.map (fun k => u_mem p (a + Z.of_nat k)) (seq 0 n).

(** argfd: the descriptor and the file. *)
Definition argfd (p : uproc) (n : Z) : option (nat * nat) :=
  match argint p n with
  | None => None
  | Some fd =>
      if (fd <? 0) || (fd >=? Z.of_nat NOFILE) then None
      else match nth (Z.to_nat fd) (u_ofile p) None with
           | None => None
           | Some f => Some (Z.to_nat fd, f)
           end
  end.

Definition fdalloc (f : nat) : M (kern B) Z :=
  p <- cur ;;
  match list_find (fun o => o = None) (u_ofile p) with
  | Some (fd, _) => upd_proc (set_ofile fd (Some f)) ;;; ret (Z.of_nat fd)
  | None => ret (-1)
  end.

Definition sys_dup : M (kern B) Z :=
  p <- cur ;;
  match argfd p 0 with
  | None => ret (-1)
  | Some (_, f) =>
      fd <- fdalloc f ;;
      if fd <? 0 then ret (-1) else filedup f ;;; ret fd
  end.

Definition sys_read : M (kern B) Z :=
  p <- cur ;;
  match argfd p 0, argint p 2 with
  | Some (_, f), Some n =>
      match argptr p 1 n with
      | None => ret (-1)
      | Some a =>
          r <- fileread f n ;;
          upd_proc (set_umem (ucopy a (snd r))) ;;;
          ret (fst r)
      end
  | _, _ => ret (-1)
  end.

(** [inr]: the write sleeps in pipewrite with those bytes left. *)
Definition sys_write : M (kern B) (Z + list Z) :=
  p <- cur ;;
  match argfd p 0, argint p 2 with
  | Some (_, f), Some n =>
      match argptr p 1 n with
      | None => ret (inl (-1))
      | Some a => filewrite f (uread p a (Z.to_nat n)) n
      end
  | _, _ => ret (inl (-1))
  end.

Definition sys_close : M (kern B) Z :=
  p <- cur ;;
  match argfd p 0 with
  | None => ret (-1)
  | Some (fd, f) =>
      upd_proc (set_ofile fd None) ;;;
      fileclose kend f ;;;
      ret 0
  end.

(** struct stat as it lies in memory. *)
Definition stat_bytes (st : stat) : list Z :=
  le_bytes 2 (st_type st) ++ [0; 0] ++ le_bytes 4 (st_dev st) ++ le_bytes 4 (st_ino st) ++
  le_bytes 2 (st_nlink st) ++ [0; 0] ++ le_bytes 4 (st_size st).

Definition sys_fstat : M (kern B) Z :=
  p <- cur ;;
  match argfd p 0, argptr p 1 STAT_SZ with
  | Some (_, f), Some a =>
      r <- filestat f ;;
      match r with
      | Some st => upd_proc (set_umem (ucopy a (stat_bytes st))) ;;; ret 0
      | None => ret (-1)
      end
  | _, _ => ret (-1)
  end.

Definition set_nlink (n : Z) (d : dinode) : dinode :=
  mkdinode (di_type d) (di_major d) (di_minor d) n (di_size d) (di_addrs d).
(** [ip->nlink += k], in a short. *)
Definition add_nlink (ip : nat) (k : Z) : M (kern B) unit :=
  kf (modify (upd_inode ip (fun x => set_di (set_nlink (s16 (i_nlink x + k)) (i_di x)) x))).
Definition inode_of (ip : nat) : M (kern B) inode := kf (gets (fun s => geti s ip)).

Definition sys_link : M (kern B) Z :=
  p <- cur ;;
  match argstr p 0, argstr p 1 with
  | Some old, Some new =>
      begin_op_k ;;;
      ip <- kf (namei (u_cwd p) (ustr p old)) ;;
      match ip with
      | None => end_op_k ;;; ret (-1)
      | Some ip =>
          kf (ilock ip) ;;;
          x <- inode_of ip ;;
          if i_type x =? T_DIR then
            kf (iunlockput ip) ;;; end_op_k ;;; ret (-1)
          else
            add_nlink ip 1 ;;;
            kf (iupdate ip) ;;;
            kf (iunlock ip) ;;;
            d <- kf (nameiparent (u_cwd p) (ustr p new)) ;;
            ok <- match d with
                  | None => ret false
                  | Some (dp, name) =>
                      kf (ilock dp) ;;;
                      y <- inode_of dp ;;
                      x <- inode_of ip ;;
                      r <- (if negb (i_dev y =? i_dev x) then ret (-1) else kf (dirlink dp name (i_inum x))) ;;
                      kf (iunlockput dp) ;;;
                      ret (negb (r <? 0))
                  end ;;
            if ok : bool then
              kf (iput ip) ;;; end_op_k ;;; ret 0
            else
              kf (ilock ip) ;;;
              add_nlink ip (-1) ;;;
              kf (iupdate ip) ;;;
              kf (iunlockput ip) ;;;
              end_op_k ;;; ret (-1)
      end
  | _, _ => ret (-1)
  end.

(** isdirempty: the entries after "." and "..". *)
Definition isdirempty (dp : nat) : M (kern B) bool :=
  x <- inode_of dp ;;
  r <- for_ (List.filter (fun off => 32 <=? off) (upto (i_size x) 16)) (fun off =>
    r <- kf (readi dp off 16) ;;
    if negb (fst r =? 16) then panic "isdirempty: readi"
    else ret (if negb (de_inum (dirent_of_bytes (snd r)) =? 0) then Some tt else None)) ;;
  ret (match r with Some _ => false | None => true end).

Definition unlink_bad (dp : nat) : M (kern B) Z := kf (iunlockput dp) ;;; end_op_k ;;; ret (-1).

Definition sys_unlink : M (kern B) Z :=
  p <- cur ;;
  match argstr p 0 with
  | None => ret (-1)
  | Some path =>
      begin_op_k ;;;
      d <- kf (nameiparent (u_cwd p) (ustr p path)) ;;
      match d with
      | None => end_op_k ;;; ret (-1)
      | Some (dp, name) =>
          kf (ilock dp) ;;;
          if (namecmp name [46] =? 0) || (namecmp name [46; 46] =? 0) then unlink_bad dp
          else
            r <- kf (dirlookup dp name) ;;
            match r with
            | None => unlink_bad dp
            | Some (ip, off) =>
                kf (ilock ip) ;;;
                x <- inode_of ip ;;
                if i_nlink x <? 1 then panic "unlink: nlink < 1"
                else
                  full <- (if i_type x =? T_DIR then e <- isdirempty ip ;; ret (negb e) else ret false) ;;
                  if full : bool then kf (iunlockput ip) ;;; unlink_bad dp
                  else
                    w <- kf (writei dp (replicate 16 0) off 16) ;;
                    if negb (w =? 16) then panic "unlink: writei"
                    else
                      (if i_type x =? T_DIR then add_nlink dp (-1) ;;; kf (iupdate dp) else ret tt) ;;;
                      kf (iunlockput dp) ;;;
                      add_nlink ip (-1) ;;;
                      kf (iupdate ip) ;;;
                      kf (iunlockput ip) ;;;
                      end_op_k ;;;
                      ret 0
            end
      end
  end.

(** create: the locked inode, or null. *)
Definition create (cwd : nat) (path : list Z) (type major minor : Z) : M (kern B) (option nat) :=
  d <- kf (nameiparent cwd path) ;;
  match d with
  | None => ret None
  | Some (dp, name) =>
      kf (ilock dp) ;;;
      r <- kf (dirlookup dp name) ;;
      match r with
      | Some (ip, _) =>
          kf (iunlockput dp) ;;;
          kf (ilock ip) ;;;
          x <- inode_of ip ;;
          if (type =? T_FILE) && (i_type x =? T_FILE) then ret (Some ip)
          else kf (iunlockput ip) ;;; ret None
      | None =>
          y <- inode_of dp ;;
          ip <- kf (ialloc (i_dev y) type) ;;
          kf (ilock ip) ;;;
          kf (modify (upd_inode ip (fun x =>
            set_di (mkdinode (i_type x) major minor 1 (i_size x) (di_addrs (i_di x))) x))) ;;;
          kf (iupdate ip) ;;;
          x <- inode_of ip ;;
          (if type =? T_DIR then
             add_nlink dp 1 ;;;
             kf (iupdate dp) ;;;
             a <- kf (dirlink ip [46] (i_inum x)) ;;
             b <- (if a <? 0 then ret (-1) else kf (dirlink ip [46; 46] (i_inum y))) ;;
             if b <? 0 then panic "create dots" else ret tt
           else ret tt) ;;;
          c <- kf (dirlink dp name (i_inum x)) ;;
          if c <? 0 then panic "create: dirlink"
          else kf (iunlockput dp) ;;; ret (Some ip)
      end
  end.

(** [ip] opened and locked, or -1 after end_op. *)
Definition open_inode (p : uproc) (path : Z * Z) (omode : Z) : M (kern B) (option nat) :=
  if test omode O_CREATE then
    ip <- create (u_cwd p) (ustr p path) T_FILE 0 0 ;;
    match ip with
    | None => end_op_k ;;; ret None
    | Some ip => ret (Some ip)
    end
  else
    ip <- kf (namei (u_cwd p) (ustr p path)) ;;
    match ip with
    | None => end_op_k ;;; ret None
    | Some ip =>
        kf (ilock ip) ;;;
        x <- inode_of ip ;;
        if (i_type x =? T_DIR) && negb (omode =? O_RDONLY) then
          kf (iunlockput ip) ;;; end_op_k ;;; ret None
        else ret (Some ip)
    end.

Definition sys_open : M (kern B) Z :=
  p <- cur ;;
  match argstr p 0, argint p 1 with
  | Some path, Some omode =>
      begin_op_k ;;;
      o <- open_inode p path omode ;;
      match o with
      | None => ret (-1)
      | Some ip =>
          f <- filealloc ;;
          fd <- match f with Some f => fdalloc f | None => ret (-1) end ;;
          match f with
          | Some f =>
              if fd <? 0 then
                fileclose kend f ;;; kf (iunlockput ip) ;;; end_op_k ;;; ret (-1)
              else
                kf (iunlock ip) ;;;
                end_op_k ;;;
                modify (upd_file f (fun y => mkfile FD_INODE (f_ref y) (negb (test omode O_WRONLY))
                                               (test omode O_WRONLY || test omode O_RDWR) (f_pipe y) ip 0)) ;;;
                ret fd
          | None => kf (iunlockput ip) ;;; end_op_k ;;; ret (-1)
          end
      end
  | _, _ => ret (-1)
  end.

Definition sys_mkdir : M (kern B) Z :=
  begin_op_k ;;;
  p <- cur ;;
  ip <- match argstr p 0 with None => ret None | Some path => create (u_cwd p) (ustr p path) T_DIR 0 0 end ;;
  match ip with
  | None => end_op_k ;;; ret (-1)
  | Some ip => kf (iunlockput ip) ;;; end_op_k ;;; ret 0
  end.

Definition sys_mknod : M (kern B) Z :=
  begin_op_k ;;;
  p <- cur ;;
  ip <- match argstr p 0, argint p 1, argint p 2 with
        | Some path, Some major, Some minor => create (u_cwd p) (ustr p path) T_DEV (s16 major) (s16 minor)
        | _, _, _ => ret None
        end ;;
  match ip with
  | None => end_op_k ;;; ret (-1)
  | Some ip => kf (iunlockput ip) ;;; end_op_k ;;; ret 0
  end.

Definition sys_chdir : M (kern B) Z :=
  begin_op_k ;;;
  p <- cur ;;
  ip <- match argstr p 0 with None => ret None | Some path => kf (namei (u_cwd p) (ustr p path)) end ;;
  match ip with
  | None => end_op_k ;;; ret (-1)
  | Some ip =>
      kf (ilock ip) ;;;
      x <- inode_of ip ;;
      if negb (i_type x =? T_DIR) then kf (iunlockput ip) ;;; end_op_k ;;; ret (-1)
      else
        kf (iunlock ip) ;;;
        kf (iput (u_cwd p)) ;;;
        end_op_k ;;;
        upd_proc (set_cwd ip) ;;;
        ret 0
  end.

(** [for(i=0;; i++)] of sys_exec: the argument strings, or -1. *)
Fixpoint exec_args (p : uproc) (uargv : Z) (i : nat) (left : nat) : option (list (list Z)) :=
  match left with
  | O => None                                   (* i >= NELEM(argv) *)
  | S left' =>
      match fetchint p (u32 (uargv + 4 * Z.of_nat i)) with
      | None => None
      | Some uarg =>
          if uarg =? 0 then Some []
          else match fetchstr p (u32 uarg) with
               | None => None
               | Some r => cons (ustr p r) <$> exec_args p uargv (S i) left'
               end
      end
  end.

Definition sys_exec (exec : list Z -> list (list Z) -> M (kern B) Z) : M (kern B) Z :=
  p <- cur ;;
  match argstr p 0, argint p 1 with
  | Some path, Some uargv =>
      match exec_args p (u32 uargv) 0 MAXARG with
      | None => ret (-1)
      | Some argv => exec (ustr p path) argv
      end
  | _, _ => ret (-1)
  end.

Definition sys_pipe : M (kern B) Z :=
  p <- cur ;;
  match argptr p 0 8 with
  | None => ret (-1)
  | Some a =>
      r <- pipealloc kend ;;
      match r with
      | None => ret (-1)
      | Some (rf, wf) =>
          fd0 <- fdalloc rf ;;
          fd1 <- (if fd0 <? 0 then ret (-1) else fdalloc wf) ;;
          if (fd0 <? 0) || (fd1 <? 0) then
            (if fd0 >=? 0 then upd_proc (set_ofile (Z.to_nat fd0) None) else ret tt) ;;;
            fileclose kend rf ;;;
            fileclose kend wf ;;;
            ret (-1)
          else
            upd_proc (set_umem (fun m => st32 (st32 m a fd0) (a + 4) fd1)) ;;;
            ret 0
      end
  end.
End Sysfile.
