(* ===== verification/SysfileSpec.v ===== *)
(** * Reference counts of open files across the file system calls

    [refs_ok ext s]: every file's reference count is the number of its
    descriptors in the current process plus [ext], the references held
    elsewhere (other processes, or a call in progress). *)

From S2P Require Import Prelude.
From S2P Require Import Params.
From S2P Require Import Kalloc.
From S2P Require Import Pipe.
From S2P Require Import Syscall.
From S2P Require Import Txn.
From S2P Require Import Fs.
From S2P Require Import File.
From S2P Require Import Sysfile.

Section Refs.
Context {B : Type} {BO : BlockOps B} {TO : TxnOps B} {DS : DevSw B} (kend : Z).
Implicit Types s : kern B.

Definition fds (p : uproc) (f : nat) : Z := Z.of_nat (length (filter (fun o => o = Some f) (u_ofile p))).
Definition bump (ext : nat -> Z) (f : nat) (k : Z) : nat -> Z := fun g => if decide (g = f) then ext g + k else ext g.

Record refs_ok (ext : nat -> Z) s : Prop := {
  ro_len : length (ftable s) = NFILE;
  ro_ref : forall f, (f < NFILE)%nat -> f_ref (getf s f) = ext f + fds (kproc s) f;
  ro_open : forall f, Some f ∈ u_ofile (kproc s) -> (f < NFILE)%nat;
  ro_none : forall f, (f < NFILE)%nat -> f_ref (getf s f) = 0 -> f_type (getf s f) = FD_NONE
}.

Lemma bump_undo ext f k g : bump (bump ext f k) f (- k) g = ext g.
Proof. unfold bump. case_decide; lia. Qed.

Lemma refs_ext ext ext' s : (forall f, ext f = ext' f) -> refs_ok ext s -> refs_ok ext' s.
Proof. intros E [H1 H2 H3 H4]. split; try done. intros f Hf. rewrite <- E. auto. Qed.

(** What the invariant depends on. *)
Lemma refs_same ext s s' : ftable s' = ftable s -> u_ofile (kproc s') = u_ofile (kproc s) -> refs_ok ext s -> refs_ok ext s'.
Proof. intros E1 E2 [H1 H2 H3 H4]. split; unfold getf, fds in *; rewrite ?E1, ?E2; done. Qed.

Lemma kf_refs {A} (m : M (fs B) A) ext : hoare (refs_ok ext) (kf m) (fun _ => refs_ok ext).
Proof. intros s Hs. unfold kf, lift. destruct (m (kfs s)); [|done|done]. by apply (refs_same ext s). Qed.
Lemma kk_refs {A} (m : M kmem A) ext : hoare (refs_ok ext) (kk m) (fun _ => refs_ok ext).
Proof. intros s Hs. unfold kk, lift. destruct (m (kpg s)); [|done|done]. by apply (refs_same ext s). Qed.
Lemma on_pipe_refs {A} p (m : M pst A) ext : hoare (refs_ok ext) (on_pipe p m) (fun _ => refs_ok ext).
Proof. intros s Hs. unfold on_pipe. destruct (m _); [|done|done]. by apply (refs_same ext s). Qed.

Lemma getf_upd s f g h : (f < length (ftable s))%nat ->
  getf (upd_file f g s) h = if decide (h = f) then g (getf s f) else getf s h.
Proof.
  intros Hf. unfold getf. cbn. destruct (lookup_lt_is_Some_2 (ftable s) f Hf) as [x Hx]. rewrite !nth_lookup.
  case_decide as E; [subst; by rewrite list_lookup_alter_eq, Hx|by rewrite list_lookup_alter_ne].
Qed.

(** Changing a count by [k] is a reference of the call itself. *)
Lemma upd_refs ext s f g k : refs_ok ext s -> (f < NFILE)%nat -> f_ref (g (getf s f)) = f_ref (getf s f) + k ->
  (f_ref (g (getf s f)) = 0 -> f_type (g (getf s f)) = FD_NONE) -> refs_ok (bump ext f k) (upd_file f g s).
Proof.
  intros [H1 H2 H3 H4] Hf Hk Ht. split.
  - cbn. by rewrite length_alter.
  - intros h Hh. rewrite getf_upd by lia. unfold bump. cbn [upd_file kproc]. case_decide as E; [subst; rewrite Hk, H2 by done; lia|auto].
  - exact H3.
  - intros h Hh. rewrite getf_upd by lia. case_decide; [done|auto].
Qed.

Lemma filealloc_refs ext : hoare (refs_ok ext) filealloc (fun r s => match r with
  | Some f => (f < NFILE)%nat /\ f_type (getf s f) = FD_NONE /\ refs_ok (bump ext f 1) s | None => refs_ok ext s end).
Proof.
  intros s Hs. unfold filealloc, bind, gets, modify, ret. destruct (list_find _ _) as [[f x]|] eqn:E; [|done].
  apply list_find_Some in E as (Hx & Hz & _). pose proof (lookup_lt_Some _ _ _ Hx) as Hl. rewrite (ro_len _ _ Hs) in Hl.
  assert (Ef : getf s f = x) by (unfold getf; by rewrite nth_lookup, Hx).
  assert (Ht : f_type (getf s f) = FD_NONE) by (apply (ro_none _ _ Hs); [done|by rewrite Ef]).
  split; [done|]. split.
  - rewrite getf_upd by (rewrite (ro_len _ _ Hs); done). by rewrite decide_True.
  - apply upd_refs; [done|done| |done]. rewrite Ef, Hz. done.
Qed.

Lemma filedup_refs ext f : (f < NFILE)%nat -> hoare (refs_ok ext) (filedup f) (fun _ => refs_ok (bump ext f 1)).
Proof.
  intros Hf s Hs. unfold filedup, bind, gets, modify, ret. destruct (Z.ltb_spec (f_ref (getf s f)) 1); [done|].
  apply upd_refs; [done|done|done|]. cbn. lia.
Qed.

Lemma pipeclose_refs ext p w : hoare (refs_ok ext) (pipeclose kend p w) (fun _ => refs_ok ext).
Proof.
  unfold pipeclose. eapply hoare_bind; [apply on_pipe_refs|]. intros both. destruct both; [|by apply hoare_ret].
  eapply hoare_seq; [|intros _; apply kk_refs]. apply hoare_modify. intros s Hs. by apply (refs_same ext s).
Qed.

Lemma fileclose_refs ext f : (f < NFILE)%nat -> hoare (refs_ok (bump ext f 1)) (fileclose kend f) (fun _ => refs_ok ext).
Proof.
  intros Hf. unfold fileclose. apply (hoare_bind _ _ _ (fun x s => x = getf s f /\ refs_ok (bump ext f 1) s)); [by apply hoare_gets|].
  intros x. destruct (Z.ltb_spec (f_ref x) 1); [apply hoare_panic|].
  destruct (Z.gtb_spec (f_ref x - 1) 0) as [Hgt|Hle].
  - eapply hoare_seq; [|intros _; by apply hoare_ret]. apply hoare_modify. intros s [-> Hs].
    eapply refs_ext; [apply (bump_undo ext f 1)|]. apply upd_refs; [done|done|cbn; lia|cbn; lia].
  - eapply (hoare_bind _ _ _ (fun _ s => exists s0, x = getf s0 f /\ refs_ok (bump ext f 1) s0 /\ s = upd_file f (set_fref (f_ref x - 1)) s0)).
    { apply hoare_modify. intros s [-> Hs]. exists s. done. }
    intros _. eapply (hoare_bind _ _ _ (fun _ => refs_ok ext)).
    + apply hoare_modify. intros s (s0 & -> & Hs & ->). pose proof (ro_len _ _ Hs).
      eapply (refs_same _ (upd_file f (fun y => set_ftype FD_NONE (set_fref 0 y)) s0)); [|done|].
      * cbn. rewrite list_alter_alter_eq. by apply list_alter_ext.
      * eapply refs_ext; [apply (bump_undo ext f 1)|]. apply upd_refs; [done|done|cbn; lia|done].
    + intros _. destruct (f_type x); [by apply hoare_ret|apply pipeclose_refs|].
      eapply hoare_seq; [apply kf_refs|]. intros _. eapply hoare_seq; [apply kf_refs|]. intros _. apply kf_refs.
Qed.
(** ** Descriptors *)

Lemma length_filter_insert {A} (P : A -> Prop) `{!forall x, Decision (P x)} (l : list A) i x y : l !! i = Some x ->
  (length (filter P (<[i := y]> l)) + (if decide (P x) then 1 else 0) =
   length (filter P l) + (if decide (P y) then 1 else 0))%nat.
Proof.
  revert i. induction l as [|z l IH]; intros [|i] Hx; try done.
  - injection Hx as ->. change (<[0%nat:=y]> (x :: l)) with (y :: l). rewrite !filter_cons.
    destruct (decide (P x)), (decide (P y)); cbn [length]; lia.
  - change (<[S i:=y]> (z :: l)) with (z :: <[i:=y]> l). rewrite !filter_cons. specialize (IH i Hx).
    destruct (decide (P z)); cbn [length]; lia.
Qed.

Lemma fds_set p fd o o' g : u_ofile p !! fd = Some o ->
  fds (set_ofile fd o' p) g = fds p g - (if decide (o = Some g) then 1 else 0) + (if decide (o' = Some g) then 1 else 0).
Proof.
  intros Ho. unfold fds. cbn [set_ofile u_ofile]. pose proof (length_filter_insert (fun o => o = Some g) (u_ofile p) fd o o' Ho).
  destruct (decide (o = Some g)), (decide (o' = Some g)); lia.
Qed.

(** Moving a reference of the call into the descriptor table, or back. *)
Lemma set_ofile_refs ext s fd o o' : refs_ok ext s -> u_ofile (kproc s) !! fd = Some o ->
  (forall f, o' = Some f -> (f < NFILE)%nat) ->
  refs_ok (fun g => ext g + (if decide (o = Some g) then 1 else 0) - (if decide (o' = Some g) then 1 else 0))
    (set_kproc (set_ofile fd o' (kproc s)) s).
Proof.
  intros [H1 H2 H3 H4] Ho Hf. split; [done| | |done].
  - intros f Hl. change (getf (set_kproc _ s) f) with (getf s f). cbn [set_kproc kproc]. rewrite (fds_set _ _ _ _ _ Ho), H2 by done.
    destruct (decide (o = Some f)), (decide (o' = Some f)); lia.
  - intros f. cbn [set_kproc kproc set_ofile u_ofile]. intros (j & Hj)%list_elem_of_lookup. destruct (decide (j = fd)) as [->|Hne].
    + rewrite list_lookup_insert_eq in Hj by (by eapply lookup_lt_Some). injection Hj as E. by apply Hf.
    + rewrite list_lookup_insert_ne in Hj by done. apply H3, list_elem_of_lookup. eauto.
Qed.

Lemma fdalloc_refs ext f : (f < NFILE)%nat -> hoare (refs_ok (bump ext f 1)) (fdalloc f) (fun fd s =>
  if fd <? 0 then refs_ok (bump ext f 1) s else refs_ok ext s /\ (0 <= ext f -> 1 <= f_ref (getf s f))).
Proof.
  intros Hf s Hs. unfold fdalloc, cur, upd_proc, bind, gets, modify, ret.
  destruct (list_find _ _) as [[fd o]|] eqn:E; [|done]. apply list_find_Some in E as (Ho & -> & _).
  destruct (Z.ltb_spec (Z.of_nat fd) 0); [lia|]. split.
  - eapply refs_ext; [|apply (set_ofile_refs _ s fd None (Some f) Hs Ho); by intros g [= <-]]. intros g. cbv beta. unfold bump.
    rewrite (decide_False (P := None = Some g)) by done. destruct (decide (Some f = Some g)) as [[= ->]|Hne].
    + rewrite decide_True by done. lia.
    + rewrite decide_False by congruence. lia.
  - change (getf (set_kproc _ s) f) with (getf s f). rewrite (ro_ref _ _ Hs f Hf). unfold bump. rewrite decide_True by done.
    intros He. unfold fds. lia.
Qed.

(** The slot fdalloc returns; nothing changes when it fails. *)
Lemma fdalloc_slot f (P : kern B -> Prop) : hoare P (fdalloc f) (fun fd s =>
  if fd <? 0 then P s else u_ofile (kproc s) !! Z.to_nat fd = Some (Some f)).
Proof.
  intros s Hs. unfold fdalloc, cur, upd_proc, bind, gets, modify, ret.
  destruct (list_find _ _) as [[fd o]|] eqn:E; [|done]. apply list_find_Some in E as (Ho & _ & _).
  destruct (Z.ltb_spec (Z.of_nat fd) 0); [lia|]. cbn [set_kproc kproc set_ofile u_ofile]. rewrite Nat2Z.id.
  apply list_lookup_insert_eq. by eapply lookup_lt_Some.
Qed.

(** ** The calls *)

Ltac refs := repeat first
  [ apply hoare_panic
  | apply hoare_ret; by auto
  | apply kf_refs
  | eapply hoare_seq; [apply kf_refs|intros ?]
  | apply hoare_for; intros ?
  | match goal with |- hoare ?P (bind _ _) _ => apply (hoare_seq _ _ P P); [|intros ?] end
  | apply hoare_gets; by auto
  | case_match ].

Lemma create_refs ext cwd path type major minor : hoare (refs_ok ext) (create cwd path type major minor) (fun _ => refs_ok ext).
Proof. unfold create, inode_of, add_nlink. refs. Qed.
Lemma argfd_lookup p n fd f : argfd p n = Some (fd, f) -> u_ofile p !! fd = Some (Some f).
Proof.
  unfold argfd. destruct (argint p n) as [i|]; [|done]. destruct (_ || _); [done|].
  destruct (nth (Z.to_nat i) (u_ofile p) None) as [g|] eqn:E; [|done]. intros [= <- <-].
  rewrite nth_lookup in E. destruct (u_ofile p !! Z.to_nat i); [|done]. cbn in E. by rewrite E.
Qed.

Lemma argfd_lt ext s n fd f : refs_ok ext s -> argfd (kproc s) n = Some (fd, f) -> (f < NFILE)%nat.
Proof. intros Hs H%argfd_lookup. apply (ro_open _ _ Hs), list_elem_of_lookup. eauto. Qed.

Lemma foff_refs ext f g : hoare (refs_ok ext) (modify (upd_file f (fun y => set_foff (g y) y))) (fun _ => refs_ok ext).
Proof.
  apply hoare_modify. intros s Hs. destruct (decide (f < NFILE)%nat) as [Hf|Hf].
  - eapply refs_ext; [|apply (upd_refs ext s f _ 0 Hs Hf); [cbn; lia|apply (ro_none _ _ Hs), Hf]].
    intros h. unfold bump. case_decide; lia.
  - apply (refs_same ext s); [|done|done]. apply list_eq. intros i. cbn. destruct (decide (i = f)) as [->|].
    + rewrite list_lookup_alter_eq. rewrite lookup_ge_None_2; [done|]. rewrite (ro_len _ _ Hs). lia.
    + by rewrite list_lookup_alter_ne.
Qed.

Lemma fileread_refs ext f n : hoare (refs_ok ext) (fileread f n) (fun _ => refs_ok ext).
Proof.
  unfold fileread. repeat first [progress refs|apply foff_refs|apply on_pipe_refs].
Qed.

Lemma filewrite_refs ext f addr n : hoare (refs_ok ext) (filewrite f addr n) (fun _ => refs_ok ext).
Proof.
  assert (Hl : forall fuel i, hoare (refs_ok ext) (filewrite_loop fuel f addr i n) (fun _ => refs_ok ext)).
  { induction fuel as [|fuel IH]; intros i; cbn [filewrite_loop]; unfold begin_op_k, end_op_k;
      repeat first [progress refs|apply foff_refs|apply IH]. }
  unfold filewrite. repeat first [progress refs|apply Hl|apply on_pipe_refs].
Qed.

Lemma umem_refs ext g : hoare (refs_ok ext) (upd_proc (set_umem g)) (fun _ => refs_ok ext).
Proof. apply hoare_modify. intros s Hs. by apply (refs_same ext s). Qed.

(** A call that starts from the current process. *)
Lemma cur_refs {A} ext (k : uproc -> M (kern B) A) Q :
  (forall p, hoare (fun s => p = kproc s /\ refs_ok ext s) (k p) Q) -> hoare (refs_ok ext) (p <- cur ;; k p) Q.
Proof. intros H. eapply hoare_bind; [|exact H]. by apply hoare_gets. Qed.

Lemma weaken_cur {A} ext p (m : M (kern B) A) Q : hoare (refs_ok ext) m Q -> hoare (fun s => p = kproc s /\ refs_ok ext s) m Q.
Proof. intros H s [_ Hs]. by apply H. Qed.

Lemma sys_dup_refs ext : hoare (refs_ok ext) sys_dup (fun _ => refs_ok ext).
Proof.
  apply cur_refs. intros p. destruct (argfd p 0) as [[fd f]|] eqn:E; [|apply hoare_ret; by intros s [_ ?]].
  intros s [-> Hs]. pose proof (argfd_lt _ _ _ _ _ Hs E) as Hf.
  assert (Hu : forall s, refs_ok ext s <-> refs_ok (bump (bump ext f (-1)) f 1) s).
  { intros s'. split; apply refs_ext; intros g; unfold bump; case_decide; lia. }
  revert s E Hs. cut (hoare (refs_ok ext) (fd0 <- fdalloc f ;; if fd0 <? 0 then ret (-1) else filedup f ;;; ret fd0) (fun _ => refs_ok ext)); [by intros H s _ Hs; apply H|].
  apply (hoare_bind _ _ _ (fun r s => if r <? 0 then refs_ok ext s else refs_ok (bump ext f (-1)) s)).
  - eapply hoare_conseq; [apply (fdalloc_refs (bump ext f (-1)) f Hf)|by intros s ?%Hu|]. cbv beta. intros r s.
    destruct (r <? 0); [by intros ?%Hu|by intros [? _]].
  - intros r. destruct (r <? 0); [by apply hoare_ret|]. eapply hoare_seq; [by apply filedup_refs|].
    intros _. apply hoare_ret. intros s. apply Hu.
Qed.

Lemma sys_close_refs ext : hoare (refs_ok ext) (sys_close kend) (fun _ => refs_ok ext).
Proof.
  apply cur_refs. intros p. destruct (argfd p 0) as [[fd f]|] eqn:E; [|apply hoare_ret; by intros s [_ ?]].
  intros s [-> Hs]. pose proof (argfd_lt _ _ _ _ _ Hs E) as Hf. apply argfd_lookup in E.
  assert (H1 : refs_ok (bump ext f 1) (set_kproc (set_ofile fd None (kproc s)) s)).
  { eapply refs_ext; [|by apply (set_ofile_refs ext s fd (Some f) None Hs E)]. intros g. cbv beta. unfold bump.
    rewrite (decide_False (P := None = Some g)) by done. destruct (decide (Some f = Some g)) as [[= ->]|Hne].
    + rewrite decide_True by done. lia.
    + rewrite decide_False by congruence. lia. }
  assert (H2 : hoare (refs_ok (bump ext f 1)) (fileclose kend f ;;; ret 0) (fun _ => refs_ok ext)).
  { eapply hoare_seq; [by apply fileclose_refs|]. intros _. by apply hoare_ret. }
  exact (H2 _ H1).
Qed.
Lemma fileclose_two ext r w : (r < NFILE)%nat -> (w < NFILE)%nat ->
  hoare (refs_ok (bump (bump ext r 1) w 1)) (fileclose kend r ;;; fileclose kend w ;;; ret (-1)) (fun _ => refs_ok ext).
Proof.
  intros Hr Hw. apply (hoare_seq _ _ _ (refs_ok (bump ext w 1))).
  - eapply hoare_conseq; [apply (fileclose_refs (bump ext w 1) r Hr)| |done]. intros s. apply refs_ext. intros g. unfold bump. repeat case_decide; lia.
  - intros _. eapply hoare_seq; [by apply fileclose_refs|]. intros _. by apply hoare_ret.
Qed.

Lemma open_inode_refs ext p path omode : hoare (refs_ok ext) (open_inode p path omode) (fun _ => refs_ok ext).
Proof. unfold open_inode, end_op_k, inode_of. repeat first [progress refs|apply create_refs]. Qed.

Lemma set_end_refs ext f a b p : (f < NFILE)%nat -> 1 <= ext f ->
  hoare (refs_ok ext) (modify (upd_file f (set_end a b p))) (fun _ => refs_ok ext).
Proof.
  intros Hf He. apply hoare_modify. intros s Hs. eapply refs_ext; [|apply (upd_refs ext s f _ 0 Hs Hf); [cbn; lia|]].
  - intros h. unfold bump. case_decide; lia.
  - cbn. rewrite (ro_ref _ _ Hs f Hf). unfold fds. lia.
Qed.

(** Operations of the lower layers leave the table and the process alone. *)
Lemma kf_keeps {A} (m : M (fs B) A) (P : kern B -> Prop) : (forall s x, P s -> P (set_kfs x s)) -> hoare P (kf m) (fun _ => P).
Proof. intros H s Hs. unfold kf, lift. destruct (m (kfs s)); [by apply H|done|done]. Qed.

Lemma sys_open_refs ext : (forall f, 0 <= ext f) -> hoare (refs_ok ext) (sys_open kend) (fun _ => refs_ok ext).
Proof.
  intros He. apply cur_refs. intros p. apply weaken_cur. destruct (argstr p 0) as [path|]; [|by refs].
  destruct (argint p 1) as [omode|]; [|by refs]. unfold begin_op_k, end_op_k. eapply hoare_seq; [apply kf_refs|intros _].
  eapply hoare_seq; [apply open_inode_refs|]. intros [ip|]; [|by refs].
  eapply hoare_bind; [apply filealloc_refs|]. intros [f|]; cbv beta iota; [|by refs].
  intros s (Hf & _ & Hs). revert s Hs.
  set (P := fun s => refs_ok ext s /\ (f < NFILE)%nat /\ 1 <= f_ref (getf s f)).
  assert (HP : forall s x, P s -> P (set_kfs x s)) by (intros s x (H1 & H2 & H3); split_and!; [by apply (refs_same ext s)|done|done]).
  apply (hoare_bind _ _ _ (fun fd s => if fd <? 0 then refs_ok (bump ext f 1) s else P s)).
  - eapply hoare_conseq; [by apply fdalloc_refs|done|]. cbv beta. intros fd s. destruct (fd <? 0); [done|]. intros [H1 H2]. split_and!; auto.
  - intros fd. destruct (fd <? 0).
    + eapply hoare_seq; [by apply fileclose_refs|]. intros _. refs.
    + eapply hoare_seq; [by apply kf_keeps|intros _]. eapply hoare_seq; [by apply kf_keeps|intros _].
      apply (hoare_seq _ _ _ (refs_ok ext)); [|intros _; by apply hoare_ret]. apply hoare_modify. intros s (Hs & Hf' & Hr).
      eapply refs_ext; [|apply (upd_refs ext s f _ 0 Hs Hf'); cbn; lia]. intros h. unfold bump. case_decide; lia.
Qed.

Lemma pipealloc_refs ext : (forall f, 0 <= ext f) -> hoare (refs_ok ext) (pipealloc kend) (fun r s => match r with
  | Some (r, w) => (r < NFILE)%nat /\ (w < NFILE)%nat /\ refs_ok (bump (bump ext r 1) w 1) s
  | None => refs_ok ext s end).
Proof.
  intros He. unfold pipealloc. eapply hoare_bind; [apply filealloc_refs|]. intros [r|]; cbv beta iota; [|by apply hoare_ret].
  intros s0 (Hr & _ & Hs0). revert s0 Hs0. eapply hoare_bind; [apply filealloc_refs|]. intros [w|]; cbv beta iota.
  2:{ unfold pipe_bad. eapply hoare_seq; [by apply fileclose_refs|]. intros _. by apply hoare_ret. }
  intros s1 (Hw & _ & Hs1). revert s1 Hs1. set (ext2 := bump (bump ext r 1) w 1).
  eapply hoare_seq; [apply kk_refs|]. intros p. destruct (p =? 0).
  - unfold pipe_bad. apply (hoare_seq _ _ _ (refs_ok (bump ext w 1))).
    + eapply hoare_conseq; [apply (fileclose_refs (bump ext w 1) r Hr)| |done]. intros s. apply refs_ext. intros g. unfold ext2, bump. repeat case_decide; lia.
    + intros _. eapply hoare_seq; [by apply fileclose_refs|]. intros _. by apply hoare_ret.
  - assert (H1 : 1 <= ext2 r) by (unfold ext2, bump; specialize (He r); repeat case_decide; lia).
    assert (H2 : 1 <= ext2 w) by (unfold ext2, bump; specialize (He w); repeat case_decide; lia).
    apply (hoare_seq _ _ _ (refs_ok ext2)); [apply hoare_modify; intros s Hs; by apply (refs_same ext2 s)|intros _].
    eapply hoare_seq; [by apply set_end_refs|intros _]. eapply hoare_seq; [by apply set_end_refs|intros _]. by apply hoare_ret.
Qed.

Lemma sys_pipe_refs ext : (forall f, 0 <= ext f) -> hoare (refs_ok ext) (sys_pipe kend) (fun _ => refs_ok ext).
Proof.
  intros He. apply cur_refs. intros p. apply weaken_cur. destruct (argptr p 0 8) as [a|]; [|by refs].
  eapply hoare_bind; [by apply pipealloc_refs|]. intros [[r w]|]; cbv beta iota; [|by refs].
  intros s (Hr & Hw & Hs). revert s Hs. set (ext2 := bump (bump ext r 1) w 1).
  assert (E2 : forall s, refs_ok ext2 s <-> refs_ok (bump (bump ext w 1) r 1) s).
  { intros s. split; apply refs_ext; intros g; unfold ext2, bump; repeat case_decide; lia. }
  apply (hoare_bind _ _ _ (fun fd0 s => if fd0 <? 0 then refs_ok ext2 s
           else refs_ok (bump ext w 1) s /\ u_ofile (kproc s) !! Z.to_nat fd0 = Some (Some r))).
  { eapply hoare_conseq; [apply (hoare_both _ _ (fun _ => True) _ _ (fdalloc_refs (bump ext w 1) r Hr) (fdalloc_slot r _))| |].
    - intros s Hs. split; [by apply E2|done].
    - cbv beta. intros fd s. destruct (fd <? 0); [by intros [?%E2 _]|by intros [[? _] ?]]. }
  intros fd0. destruct (Z.ltb_spec fd0 0) as [H0|H0]; cbv iota.
  { apply (hoare_seq _ _ _ (refs_ok ext2)); [by apply hoare_ret|]. intros fd1. cbn [orb].
    destruct (Z.geb_spec fd0 0); [lia|]. apply (hoare_seq _ _ _ (refs_ok ext2)); [by apply hoare_ret|]. intros _. by apply fileclose_two. }
  set (P := fun s => refs_ok (bump ext w 1) s /\ u_ofile (kproc s) !! Z.to_nat fd0 = Some (Some r)).
  apply (hoare_bind _ _ _ (fun fd1 s => if fd1 <? 0 then P s else refs_ok ext s)).
  { eapply hoare_conseq; [apply (hoare_both _ _ P _ _ (fdalloc_refs ext w Hw) (fdalloc_slot w P))| |].
    - intros s Hs. split; [apply Hs|done].
    - cbv beta. intros fd s. destruct (fd <? 0); [by intros [_ ?]|by intros [[? _] _]]. }
  intros fd1. cbn [orb]. destruct (fd1 <? 0); [|].
  - rewrite (proj2 (Z.geb_le fd0 0)) by done. apply (hoare_seq _ _ _ (refs_ok ext2)); [|intros _; by apply fileclose_two].
    apply hoare_modify. intros s [Hs Ho]. eapply refs_ext; [|by apply (set_ofile_refs _ s _ _ None Hs Ho)].
    intros g. cbv beta. unfold ext2, bump. rewrite (decide_False (P := None = Some g)) by done.
    destruct (decide (Some r = Some g)) as [[= ->]|Hne]; repeat case_decide; try lia; congruence.
  - eapply hoare_seq; [apply umem_refs|]. intros _. by apply hoare_ret.
Qed.

(** ** All calls *)

Inductive call := Dup | Read | Write | Close | Fstat | Link | Unlink | Open | Mkdir | Mknod | Chdir | Pipe.

Definition run_call (c : call) : M (kern B) (Z + list Z) :=
  let z (m : M (kern B) Z) := r <- m ;; ret (inl r) in
  match c with
  | Dup => z sys_dup
  | Read => z sys_read
  | Write => sys_write
  | Close => z (sys_close kend)
  | Fstat => z sys_fstat
  | Link => z sys_link
  | Unlink => z sys_unlink
  | Open => z (sys_open kend)
  | Mkdir => z sys_mkdir
  | Mknod => z sys_mknod
  | Chdir => z sys_chdir
  | Pipe => z (sys_pipe kend)
  end.

Lemma z_refs ext (m : M (kern B) Z) : hoare (refs_ok ext) m (fun _ => refs_ok ext) ->
  hoare (refs_ok ext) (r <- m ;; ret (inl r : Z + list Z)) (fun _ => refs_ok ext).
Proof. intros H. eapply hoare_seq; [exact H|]. intros r. by apply hoare_ret. Qed.

Lemma filestat_refs ext f : hoare (refs_ok ext) (filestat f) (fun _ => refs_ok ext).
Proof. unfold filestat. refs. Qed.

Lemma isdirempty_refs ext dp : hoare (refs_ok ext) (isdirempty dp) (fun _ => refs_ok ext).
Proof. unfold isdirempty, inode_of. refs. Qed.

(** C31: Every file system call keeps the reference counts right on all its
    paths: if each open file counts its descriptors in the process plus the
    references held elsewhere, it still does when the call returns, whether
    it succeeds or fails halfway (no descriptor or no file left, a bad path);
    and a file without references has no type. *)
Theorem calls_keep_refs ext c s : (forall f, 0 <= ext f) -> refs_ok ext s ->
  match run_call c s with Done _ s' => refs_ok ext s' | _ => True end.
Proof.
  intros He. revert s. change (hoare (refs_ok ext) (run_call c) (fun _ => refs_ok ext)).
  destruct c; cbn [run_call]; try apply z_refs.
  - apply sys_dup_refs.
  - apply cur_refs. intros p. apply weaken_cur. repeat first [apply fileread_refs|apply umem_refs|progress refs].
  - apply cur_refs. intros p. apply weaken_cur. repeat first [apply filewrite_refs|progress refs].
  - apply sys_close_refs.
  - apply cur_refs. intros p. apply weaken_cur. repeat first [apply filestat_refs|apply umem_refs|progress refs].
  - apply cur_refs. intros p. apply weaken_cur. unfold begin_op_k, end_op_k, inode_of, add_nlink. refs.
  - apply cur_refs. intros p. apply weaken_cur. unfold begin_op_k, unlink_bad, end_op_k, inode_of, add_nlink.
    repeat first [apply isdirempty_refs|progress refs].
  - by apply sys_open_refs.
  - unfold sys_mkdir, begin_op_k, end_op_k, cur. repeat first [apply create_refs|progress refs].
  - unfold sys_mknod, begin_op_k, end_op_k, cur. repeat first [apply create_refs|progress refs].
  - unfold sys_chdir, begin_op_k, end_op_k, inode_of, cur. repeat first [progress refs|apply hoare_modify; intros s Hs; by apply (refs_same ext s)].
  - by apply sys_pipe_refs.
Qed.
End Refs.
