(* ===== verification/ExecImage.v ===== *)
(** * The memory image of a program

    An address space under construction, with the bytes it shows: what
    allocuvm, loaduvm, clearpteu and copyout do to it in exec. *)

From S2P Require Import Prelude.
From S2P Require Import Cstr.
From S2P Require Import Mmu.
From S2P Require Import Kalloc.
From S2P Require Import Vm.
From S2P Require Import VmSpec.
From S2P Require Import Uspace.
From S2P Require Import UspaceAlloc.
From S2P Require Import UspaceKvm.
From S2P Require Import UspaceCopy.
From S2P Require Import UspaceGrow.
From S2P Require Import UspaceWrite.

Definition ceil (sz : Z) : Z := (sz + 4095) / 4096.

Lemma ceil_bounds sz : 4096 * (ceil sz - 1) < sz <= 4096 * ceil sz.
Proof. unfold ceil. pose proof (Z.div_mod (sz + 4095) 4096 ltac:(lia)). pose proof (mod_page (sz + 4095)). lia. Qed.

Lemma ceil_mono a b : a <= b -> ceil a <= ceil b.
Proof. intros H. apply Z.div_le_mono; lia. Qed.

Lemma ceil_mult n : ceil (4096 * n) = n.
Proof. pose proof (ceil_bounds (4096 * n)). lia. Qed.

(** [d] is written over [img] at [va]. *)
Definition upd_img (img : Z -> Z) (va : Z) (d : list Z) : Z -> Z :=
  fun x => if decide (va <= x < va + Z.of_nat (length d)) then nthZ d (x - va) else img x.

Section Image.
Context (kend kdata : Z).
Hypothesis Hend : KERNBASE < kend.
(** The memory and the free pages before the image was started. *)
Context (s0 : kmem) (l : list Z).

(** [d] has the pages up to [sz], page [j] with the flags [fl j], and the user
    sees [img]. *)
Record image_at (s : kmem) (d : Z) (D : gset Z) (l' : list Z) (cm : upages) (sz : Z) (fl : Z -> Z) (img : Z -> Z) : Prop := {
  im_space : uspace kend s l' d D cm;
  im_from : forall v, v ∈ l' \/ owned d D cm v -> v ∈ l;
  im_upto : pages_upto cm 0 (ceil sz);
  im_flags : forall j v f, cm !! j = Some (v, f) -> f = fl j;
  im_bytes : forall va, 0 <= va < 4096 * ceil sz -> ubyte (km s) cm va = Some (img va);
  im_zero : forall va, 4096 * ceil sz <= va -> img va = 0;
  im_free : Z.of_nat (length l) <= Z.of_nat (length l') + 1025 + 2 * ceil sz;
  im_mem : forall x, outside (list_to_set l) x -> km s x = km s0 x;
  im_khalf : forall va, KERNBASE <= va -> va_ok va -> pte (km s) d va = kval (kmap kdata) va
}.

Lemma image_pages s d D l' cm sz fl img v : image_at s d D l' cm sz fl img -> v ∈ {[d]} ∪ (D ∪ list_to_set l') -> v ∈ l.
Proof.
  intros Hi [->%elem_of_singleton|[Hv|Hv]%elem_of_union]%elem_of_union; apply (im_from _ _ _ _ _ _ _ _ Hi); [right; by left|right; right; by left|left; set_solver].
Qed.

Lemma image_mapped s d D l' cm sz fl img va : image_at s d D l' cm sz fl img -> 0 <= va < 4096 * ceil sz -> mapped cm va.
Proof. intros Hi Hva. apply (im_upto _ _ _ _ _ _ _ _ Hi); [apply Z.div_pos; lia|apply Z.div_lt_upper_bound; lia]. Qed.

Lemma image_resize s d D l' cm sz sz' fl img : ceil sz = ceil sz' -> image_at s d D l' cm sz fl img -> image_at s d D l' cm sz' fl img.
Proof. intros E [I1 I2 I3 I4 I5 I6 I7 I8 I9]. rewrite E in *. by split. Qed.

(** Every address the user can see. *)
Lemma image_bytes s d D l' cm sz fl img va : image_at s d D l' cm sz fl img -> 0 <= va ->
  ubyte (km s) cm va = (if decide (va < 4096 * ceil sz) then Some (img va) else None) /\
  (va < 4096 * ceil sz -> user_page cm va = test (fl (va / 4096)) PTE_U).
Proof.
  intros Hi Hva. split.
  - case_decide; [by apply (im_bytes _ _ _ _ _ _ _ _ Hi)|]. unfold ubyte. replace (cm !! (va / 4096)) with (None : option (Z * Z)); [done|].
    symmetry. apply eq_None_not_Some. rewrite (im_upto _ _ _ _ _ _ _ _ Hi (va / 4096)); [|apply Z.div_pos; lia]. apply Z.le_ngt, Z.div_le_lower_bound; lia.
  - intros Hlt. destruct (image_mapped s d D l' cm sz fl img va Hi ltac:(lia)) as [[v f] E]. unfold user_page. rewrite E. by rewrite (im_flags _ _ _ _ _ _ _ _ Hi _ _ _ E).
Qed.

(** allocuvm to a larger size. *)
Lemma image_grow s d D l' cm sz img newsz : image_at s d D l' cm sz (fun _ => 7) img -> 0 <= sz <= newsz -> newsz < KERNBASE ->
  1025 + 2 * ceil newsz <= Z.of_nat (length l) ->
  runs (allocuvm kend d sz newsz) s (fun r s' => r = newsz /\ exists D' l'' cm', image_at s' d D' l'' cm' newsz (fun _ => 7) img).
Proof.
  intros Hi Hsz Hk Hfree. assert (Hi' := Hi). destruct Hi' as [I1 I2 I3 I4 I5 I6 I7 I8 I9]. pose proof (ceil_mono sz newsz ltac:(lia)) as Hc.
  assert (Hnone : forall j, ceil sz <= j -> cm !! j = None).
  { intros j Hj. apply eq_None_not_Some. assert (0 <= ceil sz) by (apply Z.div_pos; lia). rewrite (I3 j) by lia. lia. }
  eapply runs_mono; [apply (allocuvm_spec kend Hend s l' d D cm sz newsz I1 Hsz Hk Hnone); fold (ceil sz) (ceil newsz); lia|].
  cbv beta. fold (ceil sz) (ceil newsz). intros r s' (-> & cm' & Hg). split; [done|]. assert (Hg' := Hg). destruct Hg' as [(l'' & D' & G1 & G1l & G1T & G1n) G2 G3 G4 G5].
  exists D', l'', cm'. split.
  - done.
  - intros v [Hv|[-> |[Hv|(j & f & Hj)]]]; [apply I2; auto|apply I2; right; by left|destruct (G1T v Hv); apply I2; [right; right; by left|by left]|].
    destruct (decide (ceil sz <= j < ceil newsz)) as [Hr|Hr].
    + destruct (G3 j Hr) as (w & E & Hw & _). rewrite E in Hj. injection Hj as -> _. apply I2. by left.
    + rewrite G2 in Hj by lia. apply I2. right. right. right. by exists j, f.
  - intros j Hj. destruct (decide (ceil sz <= j < ceil newsz)) as [Hr|Hr].
    + destruct (G3 j Hr) as (w & -> & _). split; [lia|by eexists].
    + rewrite G2, (I3 j Hj) by lia. lia.
  - intros j v f E. destruct (decide (ceil sz <= j < ceil newsz)) as [Hr|Hr]; [|rewrite G2 in E by lia; by apply (I4 j v)].
    destruct (G3 j Hr) as (w & E' & _). rewrite E' in E. by injection E as _ <-.
  - intros va Hva. rewrite (grown_bytes kend Hend s s' d D cm cm' l' (ceil sz) (ceil newsz) va I1 Hg) by lia. case_decide; [apply I5; lia|]. rewrite I6 by lia. done.
  - intros va Hva. apply I6. lia.
  - lia.
  - intros x Ho. rewrite G5; [by apply I8|]. intros v Hv. apply Ho. apply elem_of_list_to_set. by apply (image_pages s d D l' cm sz (fun _ => 7) img).
  - intros va Hva Hvo. rewrite G4 by done. by apply I9.
Qed.

(** Bytes put at [va]: loaduvm and copyout. *)
Lemma image_put s s' d D l' cm sz fl img va buf : image_at s d D l' cm sz fl img -> 0 <= va -> va + Z.of_nat (length buf) <= 4096 * ceil sz ->
  put kend s s' l' d D cm va buf (va + Z.of_nat (length buf)) -> image_at s' d D l' cm sz fl (upd_img img va buf).
Proof.
  intros [I1 I2 I3 I4 I5 I6 I7 I8 I9] Hva Hlen [P1 P2 Pk P3]. split; try done.
  - intros x Hx. rewrite P2. unfold upd_img. case_decide; [done|]. by apply I5.
  - intros x Hx. unfold upd_img. rewrite decide_False by lia. by apply I6.
  - intros x Ho. rewrite P3; [by apply I8|]. intros v Hv. apply Ho, elem_of_list_to_set, I2. right. right. by right.
  - intros x Hx Hxo. rewrite Pk by done. by apply I9.
Qed.

(** clearpteu on the page [i]. *)
Lemma image_guard s d D l' cm sz img i : image_at s d D l' cm sz (fun _ => 7) img -> 0 <= i < ceil sz ->
  runs (clearpteu d (4096 * i)) s (fun _ s' => exists cm', image_at s' d D l' cm' sz (fun j => if j =? i then 3 else 7) img).
Proof.
  intros [I1 I2 I3 I4 I5 I6 I7 I8 I9] Hi. assert (Hs : is_Some (cm !! i)) by (apply I3; lia). destruct Hs as [[v f] E]. rewrite (I4 i v f E) in E. clear f.
  eapply runs_mono; [by apply (clearpteu_spec kend Hend s l' d D cm i v 7)|]. intros [] s' (Hu & Hk & Hx). change (Z.ldiff 7 PTE_U) with 3 in Hu.
  exists (<[i := (v, 3)]> cm). set (cm' := <[i := (v, 3)]> cm).
  assert (Hold : forall j w g, cm' !! j = Some (w, g) -> exists g', cm !! j = Some (w, g')).
  { intros j w g [[<- [= <- <-]]|[_ Hj]]%lookup_insert_Some; by eexists. }
  assert (Hb : forall va, ubyte (km s') cm' va = ubyte (km s) cm va).
  { intros va. rewrite <- (ubyte_kept kend Hend s s' l' d D cm va I1) by (intros x Ho; apply Hx; intros w Hw; apply Ho; set_solver).
    unfold ubyte, cm'. destruct (decide (va / 4096 = i)) as [->|Hne]; [by rewrite lookup_insert_eq, E|by rewrite lookup_insert_ne]. }
  split; try done.
  - intros w [Hw|[-> |[Hw|(j & g & Hj)]]]; [apply I2; by left|apply I2; right; by left|apply I2; right; right; by left|].
    destruct (Hold j w g Hj) as [g' Hj']. apply I2. right. right. right. by exists j, g'.
  - intros j Hj. unfold cm'. destruct (decide (j = i)) as [->|Hne]; [rewrite lookup_insert_eq; split; [lia|by eexists]|rewrite lookup_insert_ne by done; by apply I3].
  - intros j w g Hj. unfold cm' in Hj. apply lookup_insert_Some in Hj as [[<- [= <- <-]]|[Hne Hj]]; [by rewrite Z.eqb_refl|].
    rewrite (proj2 (Z.eqb_neq _ _)) by done. by apply (I4 j w).
  - intros va Hva. rewrite Hb. by apply I5.
  - intros x Ho. rewrite Hx; [by apply I8|]. intros w Hw. apply Ho, elem_of_list_to_set, I2. right. right. by left.
  - intros va Hva Hvo. rewrite Hk by done. by apply I9.
Qed.

(** copyout where the user may write. *)
Lemma image_copyout s d D l' cm sz fl img va p : image_at s d D l' cm sz fl img -> 0 <= va -> va + Z.of_nat (length p) <= 4096 * ceil sz -> sz <= KERNBASE ->
  (forall x, va <= x < va + Z.of_nat (length p) -> fl (x / 4096) = 7) ->
  runs (copyout d va p) s (fun r s' => r = 0 /\ image_at s' d D l' cm sz fl (upd_img img va p)).
Proof.
  intros Hi Hva Hlen Hk Hfl. assert (Hm : forall x, va <= x < va + Z.of_nat (length p) -> mapped cm x) by (intros x Hx; apply (image_mapped s d D l' cm sz fl img); [done|lia]).
  assert (Hsz : 4096 * ceil sz <= KERNBASE).
  { pose proof (ceil_mono sz KERNBASE Hk) as Hc. change (ceil KERNBASE) with 524288 in Hc. unfold KERNBASE. lia. }
  eapply runs_mono; [apply (copyout_loop_spec kend Hend _ s l' d D cm va p (im_space _ _ _ _ _ _ _ _ Hi)); [done|done|lia|done]|].
  cbv beta. intros r s' (k & Hkr & Hp & _ & [[-> ->]|(-> & Hlt & Hu)]); [split; [done|by apply (image_put s)]|].
  exfalso. unfold user_page in Hu. destruct (Hm k ltac:(lia)) as [[v f] E]. rewrite E in Hu. rewrite (im_flags _ _ _ _ _ _ _ _ Hi _ _ _ E), Hfl in Hu by lia. done.
Qed.
End Image.
