(* ===== verification/Exec.v ===== *)
(** * exec (exec.c, elf.h)

    exec on the kernel's memory, the file system, the current process and the
    machine.  The file system is reached through [ExecFs]; the two structures
    read from the file are locals of exec, so what a short read leaves in them
    is a parameter. *)

From S2P Require Import Prelude.
From S2P Require Import Params.
From S2P Require Import Cstr.
From S2P Require Import Mmu.
From S2P Require Import Kalloc.
From S2P Require Import Vm.
From S2P Require Import Spinlock.
From S2P Require Import Cpu.
From S2P Require Import Proc.
From S2P Require Import Fsfmt.
From S2P Require Import Txn.
From S2P Require Import Fs.
From S2P Require Import File.

(** ** elf.h *)

Definition ELF_MAGIC : Z := 1179403647.
Definition ELF_PROG_LOAD : Z := 1.
Definition ELFHDR_SZ : Z := 52.
Definition PROGHDR_SZ : Z := 32.

Record elfhdr := mkelf { eh_magic : Z; eh_entry : Z; eh_phoff : Z; eh_phnum : Z }.
Record proghdr := mkph { ph_type : Z; ph_off : Z; ph_vaddr : Z; ph_filesz : Z; ph_memsz : Z }.

(** The fields exec reads, at their offsets. *)
Definition elf_of (b : list Z) : elfhdr := mkelf (get32 b 0) (get32 b 24) (get32 b 28) (get16 b 44).
Definition ph_of (b : list Z) : proghdr := mkph (get32 b 0) (get32 b 4) (get32 b 8) (get32 b 16) (get32 b 20).

(** ** What exec calls in the file system *)

Class ExecFs (F : Type) := {
  x_begin_op : M F unit;
  x_end_op : M F unit;
  x_namei : list Z -> M F (option nat);
  x_ilock : nat -> M F unit;
  x_readi : nat -> Z -> Z -> M F (Z * list Z);
  x_iunlockput : nat -> M F unit
}.

#[export] Instance fs_exec {B} {BO : BlockOps B} {TO : TxnOps B} {DS : DevSw B} (cwd : nat) : ExecFs (fs B) := {|
  x_begin_op := blk o_begin_op;
  x_end_op := blk o_end_op;
  x_namei := namei cwd;
  x_ilock := ilock;
  x_readi := readi;
  x_iunlockput := iunlockput
|}.

Record estate (F : Type) := mkes { e_mem : kmem; e_fs : F; e_proc : proc; e_hw : hw }.
Arguments mkes {F}.
Arguments e_mem {F}.
Arguments e_fs {F}.
Arguments e_proc {F}.
Arguments e_hw {F}.

Section Exec.
Context {F : Type} {X : ExecFs F} (kend kdata : Z) (ts_addr : nat -> Z) (cpu : nat) (elf0 ph0 : list Z).
Implicit Types s : estate F.

Definition emm {A} (m : M kmem A) : M (estate F) A := lift e_mem (fun k s => mkes k (e_fs s) (e_proc s) (e_hw s)) m.
Definition eff {A} (m : M F A) : M (estate F) A := lift e_fs (fun f s => mkes (e_mem s) f (e_proc s) (e_hw s)) m.
Definition ehw {A} (m : M hw A) : M (estate F) A := lift e_hw (fun h s => mkes (e_mem s) (e_fs s) (e_proc s) h) m.
Definition emf {A} (m : M (kmem * F) A) : M (estate F) A :=
  lift (fun s => (e_mem s, e_fs s)) (fun p s => mkes (fst p) (snd p) (e_proc s) (e_hw s)) m.
Definition upd_eproc (g : proc -> proc) s : estate F := mkes (e_mem s) (e_fs s) (g (e_proc s)) (e_hw s).

(** readi into a local buffer that held [old]. *)
Definition over (new old : list Z) : list Z := new ++ drop (length new) old.

(** [bad]: what has been built is freed and the inode, when it is still
    held, let go. *)
Definition bad (pgdir : Z) (ip : option nat) : M (estate F) Z :=
  (if negb (pgdir =? 0) then emm (freevm kend pgdir) else ret tt) ;;;
  (match ip with
   | Some ip => eff (x_iunlockput ip) ;;; eff x_end_op
   | None => ret tt
   end) ;;;
  ret (-1).

(** [for(i=0, off=elf.phoff; i<elf.phnum; i++, off+=sizeof(ph))]: the size
    reached, or None for a jump to [bad]. *)
Fixpoint load_segments (left : nat) (ip : nat) (pgdir off sz : Z) : M (estate F) (option Z) :=
  match left with
  | O => ret (Some sz)
  | S left' =>
      r <- eff (x_readi ip (u32 off) PROGHDR_SZ) ;;
      let ph := ph_of (over (snd r) ph0) in
      if negb (u32 (fst r) =? PROGHDR_SZ) then ret None
      else if negb (ph_type ph =? ELF_PROG_LOAD) then load_segments left' ip pgdir (off + PROGHDR_SZ) sz
      else if ph_memsz ph <? ph_filesz ph then ret None
      else
        sz <- emm (allocuvm kend pgdir sz (u32 (ph_vaddr ph + ph_memsz ph))) ;;
        if sz =? 0 then ret None
        else
          r <- emf (loaduvm (x_readi ip) pgdir (ph_vaddr ph) (ph_off ph) (ph_filesz ph)) ;;
          if r <? 0 then ret None else load_segments left' ip pgdir (off + PROGHDR_SZ) sz
  end.

(** [for(argc = 0; argv[argc]; argc++)]: the stack pointer and the addresses of
    the strings, or None for a jump to [bad]. *)
Fixpoint push_args (argv : list (list Z)) (pgdir sp : Z) (ptrs : list Z) : M (estate F) (option (Z * list Z)) :=
  match argv with
  | [] => ret (Some (sp, ptrs))
  | a :: argv' =>
      if (MAXARG <=? length ptrs)%nat then ret None
      else
        let sp := Z.land (u32 (sp - (Z.of_nat (length a) + 1))) (u32 (Z.lnot 3)) in
        r <- emm (copyout pgdir sp (a ++ [0])) ;;
        if r <? 0 then ret None else push_args argv' pgdir sp (ptrs ++ [sp])
  end.

(** [for(last=s=path; *s; s++)] *)
Fixpoint last_elem (path last : list Z) : list Z :=
  match path with
  | [] => last
  | c :: path' => last_elem path' (if c =? 47 then path' else last)
  end.

Definition set_entry (eip esp : Z) (t : trapframe) : trapframe :=
  mktf (tf_edi t) (tf_esi t) (tf_ebp t) (tf_oesp t) (tf_ebx t) (tf_edx t) (tf_ecx t) (tf_eax t) (tf_gs t) (tf_fs t) (tf_es t)
    (tf_ds t) (tf_trapno t) (tf_err t) eip (tf_cs t) (tf_eflags t) esp (tf_ss t).

(** Commit to the user image. *)
Definition commit (path : list Z) (pgdir sz entry sp : Z) : M (estate F) Z :=
  modify (upd_eproc (fun p => set_name (copy_name (p_name p) (last_elem path path)) p)) ;;;
  oldpgdir <- gets (fun s => p_pgdir (e_proc s)) ;;
  modify (upd_eproc (set_vm sz pgdir)) ;;;
  modify (upd_eproc (fun p => set_tf (set_entry entry sp (p_tf p)) p)) ;;;
  p <- gets e_proc ;;
  ehw (switchuvm ts_addr cpu (p_kstack p) (p_pgdir p)) ;;;
  emm (freevm kend oldpgdir) ;;;
  ret 0.

(** The words pushed below the strings: a fake return address, argc, the
    address of the argument vector, and the vector. *)
Definition ustack (sp : Z) (ptrs : list Z) : list Z :=
  [4294967295; Z.of_nat (length ptrs); u32 (sp - (Z.of_nat (length ptrs) + 1) * 4)] ++ ptrs ++ [0].

(** From "Allocate two pages" on: the user stack and its contents. *)
Definition build_stack (path : list Z) (argv : list (list Z)) (pgdir sz entry : Z) : M (estate F) Z :=
  let sz := PGROUNDUP sz in
  sz <- emm (allocuvm kend pgdir sz (u32 (sz + 2 * PGSIZE))) ;;
  if sz =? 0 then bad pgdir None
  else
    emm (clearpteu pgdir (u32 (sz - 2 * PGSIZE))) ;;;
    a <- push_args argv pgdir sz [] ;;
    match a with
    | None => bad pgdir None
    | Some (sp, ptrs) =>
        let sp' := u32 (sp - (3 + Z.of_nat (length ptrs) + 1) * 4) in
        r <- emm (copyout pgdir sp' (concat (List.map (le_bytes 4) (ustack sp ptrs)))) ;;
        if r <? 0 then bad pgdir None else commit path pgdir sz entry sp'
    end.

Definition exec (path : list Z) (argv : list (list Z)) : M (estate F) Z :=
  eff x_begin_op ;;;
  o <- eff (x_namei path) ;;
  match o with
  | None => eff x_end_op ;;; ret (-1)
  | Some ip =>
      eff (x_ilock ip) ;;;
      r <- eff (x_readi ip 0 ELFHDR_SZ) ;;
      let elf := elf_of (over (snd r) elf0) in
      if u32 (fst r) <? ELFHDR_SZ then bad 0 (Some ip)
      else if negb (eh_magic elf =? ELF_MAGIC) then bad 0 (Some ip)
      else
        pgdir <- emm (setupkvm kdata) ;;
        if pgdir =? 0 then bad 0 (Some ip)
        else
          o <- load_segments (Z.to_nat (eh_phnum elf)) ip pgdir (eh_phoff elf) 0 ;;
          match o with
          | None => bad pgdir (Some ip)
          | Some sz =>
              eff (x_iunlockput ip) ;;;
              eff x_end_op ;;;
              build_stack path argv pgdir sz (eh_entry elf)
          end
  end.
End Exec.
