(* ===== verification/ExecSpec.v ===== *)
(** * exec loads a program

    For a well-formed ELF file and enough free memory, exec replaces the
    process's image by the file's segments and a stack that holds its
    arguments; it commits only when everything else has succeeded. *)

From S2P Require Import Prelude.
From S2P Require Import Params.
From S2P Require Import Cstr.
From S2P Require Import Mmu.
From S2P Require Import Kalloc.
From S2P Require Import Vm.
From S2P Require Import VmSpec.
From S2P Require Import Uspace.
From S2P Require Import UspaceKvm.
From S2P Require Import UspaceCopy.
From S2P Require Import UspaceGrow.
From S2P Require Import UspaceWrite.
From S2P Require Import UspaceDemo.
From S2P Require Import Spinlock.
From S2P Require Import Cpu.
From S2P Require Import Proc.
From S2P Require Import ExecImage.
From S2P Require Import Exec.

(** ** The file's view of the image *)

Definition header (data : list Z) : elfhdr := elf_of (slice data 0 (Z.to_nat ELFHDR_SZ)).
Definition phdr (data : list Z) (k : nat) : proghdr := ph_of (slice data (Z.to_nat (eh_phoff (header data)) + 32 * k) (Z.to_nat PROGHDR_SZ)).
Definition phdrs (data : list Z) : list proghdr := List.map (phdr data) (seq 0 (Z.to_nat (eh_phnum (header data)))).

(** A segment extends the size and lays its bytes of the file over what is
    there. *)
Definition place (data : list Z) (a : Z * (Z -> Z)) (ph : proghdr) : Z * (Z -> Z) :=
  if ph_type ph =? ELF_PROG_LOAD
  then (Z.max (fst a) (ph_vaddr ph + ph_memsz ph), upd_img (snd a) (ph_vaddr ph) (slice data (Z.to_nat (ph_off ph)) (Z.to_nat (ph_filesz ph))))
  else a.
Definition image (data : list Z) : Z * (Z -> Z) := fold_left (place data) (phdrs data) (0, fun _ => 0).

Definition seg_ok (data : list Z) (ph : proghdr) : Prop := ph_type ph = ELF_PROG_LOAD ->
  ph_filesz ph <= ph_memsz ph /\ ph_vaddr ph mod 4096 = 0 /\ 0 < ph_vaddr ph + ph_memsz ph < KERNBASE /\ ph_off ph + ph_filesz ph <= Z.of_nat (length data).

Record elf_ok (data : list Z) : Prop := {
  ek_bytes : Forall byte_ok data;
  ek_len : Z.of_nat (length data) < 4294967296;
  ek_hdr : ELFHDR_SZ <= Z.of_nat (length data);
  ek_magic : eh_magic (header data) = ELF_MAGIC;
  ek_table : eh_phoff (header data) + PROGHDR_SZ * eh_phnum (header data) <= Z.of_nat (length data);
  ek_segs : Forall (seg_ok data) (phdrs data)
}.

Lemma word_nonneg d off : Forall byte_ok d -> 0 <= get32 d off /\ 0 <= get16 d off.
Proof.
  intros Hd. assert (Hs : forall a n, Forall byte_ok (slice d a n)) by (intros a n; by apply Forall_take, Forall_drop).
  split; apply le_val_range, Hs.
Qed.

Lemma ph_nonneg data k : Forall byte_ok data -> 0 <= ph_off (phdr data k) /\ 0 <= ph_vaddr (phdr data k) /\ 0 <= ph_filesz (phdr data k) /\ 0 <= ph_memsz (phdr data k).
Proof. intros Hd. unfold phdr, ph_of. cbn [ph_off ph_vaddr ph_filesz ph_memsz]. split_and!; apply word_nonneg; by apply Forall_take, Forall_drop. Qed.

(** ** The arguments on the stack *)

(** Where a string goes below [sp], and where all of them end. *)
Definition below_sp (sp : Z) (a : list Z) : Z := (sp - (Z.of_nat (length a) + 1)) / 4 * 4.
Definition args_end (argv : list (list Z)) (sp : Z) : Z := fold_left below_sp argv sp.

Lemma below_sp_bounds sp a : below_sp sp a <= sp - (Z.of_nat (length a) + 1) < below_sp sp a + 4.
Proof. unfold below_sp. pose proof (Z.div_mod (sp - (Z.of_nat (length a) + 1)) 4 ltac:(lia)). pose proof (Z.mod_pos_bound (sp - (Z.of_nat (length a) + 1)) 4 ltac:(lia)). lia. Qed.

Lemma below_sp_shift sp a q : below_sp (4 * q + sp) a = 4 * q + below_sp sp a.
Proof. unfold below_sp. replace (4 * q + sp - (Z.of_nat (length a) + 1)) with (sp - (Z.of_nat (length a) + 1) + q * 4) by lia. rewrite Z.div_add by lia. lia. Qed.

Lemma args_end_shift argv sp q : args_end argv (4 * q + sp) = 4 * q + args_end argv sp.
Proof. unfold args_end. revert sp. induction argv as [|a argv IH]; intros sp; cbn [fold_left]; [done|]. by rewrite below_sp_shift, IH. Qed.

Lemma args_end_le argv sp : args_end argv sp <= sp.
Proof.
  unfold args_end. revert sp. induction argv as [|a argv IH]; intros sp; cbn [fold_left]; [lia|]. specialize (IH (below_sp sp a)). pose proof (below_sp_bounds sp a). lia.
Qed.

Lemma land_3 a : 0 <= a < 4294967296 -> Z.land a (u32 (Z.lnot 3)) = a / 4 * 4.
Proof.
  intros Ha. change (u32 (Z.lnot 3)) with (Z.ldiff (Z.ones 32) (Z.ones 2)). transitivity (Z.ldiff a (Z.ones 2)).
  - apply Z.bits_inj'. intros i _. rewrite Z.land_spec, !Z.ldiff_spec, andb_assoc. by rewrite land_bits.
  - rewrite Z.ldiff_ones_r by lia. rewrite Z.shiftl_mul_pow2, Z.shiftr_div_pow2 by lia. done.
Qed.

(** The string [a] and its NUL are at [p] in the image. *)
Definition str_at (img : Z -> Z) (p : Z) (a : list Z) : Prop := forall k, 0 <= k <= Z.of_nat (length a) -> img (p + k) = nthZ (a ++ [0]) k.
Definition word_at (img : Z -> Z) (p v : Z) : Prop := forall k, 0 <= k < 4 -> img (p + k) = nthZ (le_bytes 4 v) k.

Lemma str_at_upd img va d p a : va + Z.of_nat (length d) <= p -> str_at img p a -> str_at (upd_img img va d) p a.
Proof. intros Hd Hs k Hk. unfold upd_img. rewrite decide_False by lia. by apply Hs. Qed.

(** The fields of a structure read in full. *)
Lemma slice_app_l (b r : list Z) off n : (off + n <= length b)%nat -> slice (b ++ r) off n = slice b off n.
Proof. intros H. unfold slice. rewrite drop_app_le by lia. apply take_app_le. rewrite length_drop. lia. Qed.

Lemma ph_over b old : length b = 32%nat -> ph_of (over b old) = ph_of b.
Proof. intros Hb. unfold ph_of, over, get32. by rewrite !slice_app_l by lia. Qed.

Lemma elf_over b old : length b = 52%nat -> elf_of (over b old) = elf_of b.
Proof. intros Hb. unfold elf_of, over, get32, get16. by rewrite !slice_app_l by lia. Qed.

(** Words laid out one after another. *)
Lemma words_length ws : Z.of_nat (length (concat (List.map (le_bytes 4) ws))) = 4 * Z.of_nat (length ws).
Proof. induction ws as [|w ws IH]; [done|]. cbn [List.map concat length]. rewrite length_app, length_le_bytes. lia. Qed.

Lemma words_nth ws i w k : ws !! i = Some w -> 0 <= k < 4 -> nthZ (concat (List.map (le_bytes 4) ws)) (4 * Z.of_nat i + k) = nthZ (le_bytes 4 w) k.
Proof.
  intros E Hk. revert i E. induction ws as [|x ws IH]; intros i E; [done|]. cbn [List.map concat]. unfold nthZ. destruct i as [|i]; cbn in E.
  - injection E as ->. by rewrite app_nth1 by (rewrite length_le_bytes; lia).
  - rewrite app_nth2 by (rewrite length_le_bytes; lia). rewrite length_le_bytes. specialize (IH i E). unfold nthZ in IH. rewrite <- IH. f_equal. lia.
Qed.

Lemma words_at img p ws i w : ws !! i = Some w -> word_at (upd_img img p (concat (List.map (le_bytes 4) ws))) (p + 4 * Z.of_nat i) w.
Proof.
  intros E k Hk. assert (Hi : (i < length ws)%nat) by (apply lookup_lt_is_Some; by eexists). unfold upd_img. rewrite words_length, decide_True by lia.
  replace (p + 4 * Z.of_nat i + k - p) with (4 * Z.of_nat i + k) by lia. by apply words_nth.
Qed.

Lemma owned_set pgdir T um : exists Y : gset Z, forall v, v ∈ Y <-> owned pgdir T um v.
Proof.
  exists ({[pgdir]} ∪ T ∪ list_to_set ((fun p => fst (snd p)) <$> map_to_list um)). intros v. unfold owned, framed.
  rewrite !elem_of_union, elem_of_singleton, elem_of_list_to_set, list_elem_of_fmap. split.
  - intros [[?|?]|([i [w f]] & -> & Hm)]; [by left|right; by left|]. right. right. exists i, f. by apply elem_of_map_to_list.
  - intros [?|[?|(i & f & E)]]; [by left; left|by left; right|]. right. exists (i, (v, f)). split; [done|by apply elem_of_map_to_list].
Qed.

Section Spec.
Context {F : Type} {X : ExecFs F} (kend kdata : Z) (ts_addr : nat -> Z) (cpu : nat) (elf0 ph0 : list Z).
Hypothesis Hend : KERNBASE < kend.
Context (data : list Z) (ip : nat) (opened : F -> Prop).
Hypothesis readi_ok : forall f off n, opened f -> 0 <= off -> 0 <= n -> off + n <= Z.of_nat (length data) ->
  runs (x_readi ip off n) f (fun r f' => r = (n, slice data (Z.to_nat off) (Z.to_nat n)) /\ opened f').
Context (s0 : kmem) (l : list Z).
Notation img_at := (image_at kend kdata s0 l).

(** What a step leaves alone. *)
Definition same_rest (s s' : estate F) : Prop := e_proc s' = e_proc s /\ e_hw s' = e_hw s.

(** One loadable segment. *)
Lemma load_one s d D l' cm sz img ph : opened (e_fs s) -> img_at (e_mem s) d D l' cm sz (fun _ => 7) img -> 0 <= sz < KERNBASE ->
  ph_type ph = ELF_PROG_LOAD -> seg_ok data ph -> 0 <= ph_off ph -> 0 <= ph_vaddr ph -> 0 <= ph_filesz ph -> Z.of_nat (length data) < 4294967296 ->
  1025 + 2 * ceil (ph_vaddr ph + ph_memsz ph) <= Z.of_nat (length l) ->
  runs (emm (allocuvm kend d sz (u32 (ph_vaddr ph + ph_memsz ph)))) s (fun sz1 s1 => sz1 = Z.max sz (ph_vaddr ph + ph_memsz ph) /\ sz1 <> 0 /\
    runs (emf (loaduvm (x_readi ip) d (ph_vaddr ph) (ph_off ph) (ph_filesz ph))) s1 (fun r s' => r = 0 /\ opened (e_fs s') /\ same_rest s s' /\
      exists D' l'' cm', img_at (e_mem s') d D' l'' cm' sz1 (fun _ => 7) (upd_img img (ph_vaddr ph) (slice data (Z.to_nat (ph_off ph)) (Z.to_nat (ph_filesz ph)))))).
Proof.
  intros Hop Hi Hsz Ht Hok Ho Hv Hf Hl32 Hfree. destruct (Hok Ht) as (Hfm & Hal & Hk & Hfl). unfold KERNBASE in Hk. rewrite u32_id by lia.
  set (nsz := ph_vaddr ph + ph_memsz ph) in *.
  assert (Hg : runs (allocuvm kend d sz nsz) (e_mem s) (fun r s' => r = Z.max sz nsz /\ exists D' l'' cm', img_at s' d D' l'' cm' (Z.max sz nsz) (fun _ => 7) img)).
  { destruct (decide (nsz < sz)) as [Hlt|Hge].
    - unfold allocuvm. rewrite (proj2 (Z.ltb_lt nsz sz)) by done. replace (nsz >=? KERNBASE) with false by (unfold KERNBASE in *; lia). apply runs_ret.
      rewrite Z.max_l by lia. split; [done|by exists D, l', cm].
    - rewrite Z.max_r by lia. by apply (image_grow kend kdata Hend s0 l _ d D l' cm sz img nsz Hi); [lia|unfold KERNBASE; lia|]. }
  apply runs_lift. eapply runs_mono; [exact Hg|]. cbv beta. intros r m1 (-> & D1 & l1 & cm1 & Hi1). split; [done|]. split; [lia|].
  apply runs_lift. cbn [e_mem e_fs]. set (buf := slice data (Z.to_nat (ph_off ph)) (Z.to_nat (ph_filesz ph))).
  assert (Hb : Z.of_nat (length buf) = ph_filesz ph) by (unfold buf; rewrite length_slice by lia; lia). pose proof (ceil_bounds (Z.max sz nsz)) as Hc.
  eapply runs_mono; [apply (loaduvm_spec kend Hend (x_readi ip) opened data readi_ok m1 (e_fs s) l1 d D1 cm1 (ph_vaddr ph) (ph_off ph) (ph_filesz ph) (im_space _ _ _ _ _ _ _ _ _ _ _ _ Hi1)); try done; try lia|].
  - unfold KERNBASE. lia.
  - intros x Hx. apply (image_mapped kend kdata s0 l m1 d D1 l1 cm1 (Z.max sz nsz) (fun _ => 7) img x Hi1). lia.
  - cbv beta. intros r [m2 f2] (-> & Hop2 & Hp). cbn [fst snd e_fs e_mem]. split_and!; [done|done|done|]. exists D1, l1, cm1.
    apply (image_put kend kdata s0 l m1 m2 d D1 l1 cm1 _ _ img _ buf Hi1); [lia|lia|]. by rewrite Hb.
Qed.

(** All of them, from header [k] on. *)
Lemma seg_load_spec left k s d D l' cm sz img : elf_ok data -> opened (e_fs s) -> img_at (e_mem s) d D l' cm sz (fun _ => 7) img -> 0 <= sz < KERNBASE ->
  Z.of_nat (k + left) <= eh_phnum (header data) ->
  Forall (fun ph => ph_type ph = ELF_PROG_LOAD -> 1025 + 2 * ceil (ph_vaddr ph + ph_memsz ph) <= Z.of_nat (length l)) (phdrs data) ->
  let r := fold_left (place data) (List.map (phdr data) (seq k left)) (sz, img) in
  runs (load_segments kend ph0 left ip d (eh_phoff (header data) + 32 * Z.of_nat k) sz) s (fun o s' => o = Some (fst r) /\ opened (e_fs s') /\ same_rest s s' /\
    0 <= fst r < KERNBASE /\ exists D' l'' cm', img_at (e_mem s') d D' l'' cm' (fst r) (fun _ => 7) (snd r)).
Proof.
  intros Hek. revert k s D l' cm sz img. induction left as [|left IH]; intros k s D l' cm sz img Hop Hi Hsz Hk Hfree r.
  { apply runs_ret. split_and!; try done; [apply Hsz|apply Hsz|]. by exists D, l', cm. }
  destruct Hek as [Hby Hlen Hhdr Hmag Htab Hsegs]. assert (Hph : phdr data k ∈ phdrs data).
  { unfold phdrs. apply list_elem_of_In, in_map, in_seq. lia. }
  rewrite Forall_forall in Hsegs, Hfree. specialize (Hsegs _ Hph). assert (Hfree1 := Hfree _ Hph). destruct (ph_nonneg data k Hby) as (N1 & N2 & N3 & N4).
  assert (Hoff : 0 <= eh_phoff (header data)) by (apply word_nonneg; by apply Forall_take, Forall_drop).
  cbn [load_segments]. unfold PROGHDR_SZ in *. apply runs_bind, runs_lift. rewrite u32_id by lia.
  eapply runs_mono; [apply (readi_ok _ (eh_phoff (header data) + 32 * Z.of_nat k) 32 Hop); lia|]. cbv beta. intros rd f1 [-> Hop1]. cbn [fst snd].
  rewrite ph_over by (apply length_slice; lia). replace (Z.to_nat (eh_phoff (header data) + 32 * Z.of_nat k)) with (Z.to_nat (eh_phoff (header data)) + 32 * k)%nat by lia.
  change (ph_of (slice data _ _)) with (phdr data k). change (negb (u32 32 =? 32)) with false. cbv iota.
  assert (Enext : eh_phoff (header data) + 32 * Z.of_nat k + 32 = eh_phoff (header data) + 32 * Z.of_nat (S k)) by lia. rewrite Enext.
  set (s1 := mkes (e_mem s) f1 (e_proc s) (e_hw s)). assert (Er : r = fold_left (place data) (List.map (phdr data) (seq (S k) left)) (place data (sz, img) (phdr data k))) by done.
  rewrite Er. clear Er r. assert (Hfree' := proj2 (Forall_forall _ (phdrs data)) Hfree).
  destruct (Z.eqb_spec (ph_type (phdr data k)) ELF_PROG_LOAD) as [Ht|Ht]; cbn [negb].
  - destruct (Hsegs Ht) as (Hfm & _ & Hvm & _).
    assert (Ep : place data (sz, img) (phdr data k) = (Z.max sz (ph_vaddr (phdr data k) + ph_memsz (phdr data k)),
      upd_img img (ph_vaddr (phdr data k)) (slice data (Z.to_nat (ph_off (phdr data k))) (Z.to_nat (ph_filesz (phdr data k))))))
      by (unfold place; by rewrite (proj2 (Z.eqb_eq _ _) Ht)).
    rewrite Ep. rewrite (proj2 (Z.ltb_ge _ _) Hfm). apply runs_bind.
    eapply runs_mono; [by apply (load_one s1 d D l' cm sz img (phdr data k)); auto|]. cbv beta. intros sz1 s2 (-> & Hne & Hl). rewrite (proj2 (Z.eqb_neq _ _) Hne).
    apply runs_bind. eapply runs_mono; [exact Hl|]. cbv beta. intros q s3 (-> & Hop3 & [Hp3 Hh3] & D3 & l3 & cm3 & Hi3). change (0 <? 0) with false. cbv iota.
    eapply runs_mono; [apply (IH (S k) s3 D3 l3 cm3); [done|done|lia|lia|done]|]. cbv beta. intros o s4 (-> & A1 & [A2 A3] & A4 & A5). split; [done|]. split; [done|].
    split; [split; [by rewrite A2, Hp3|by rewrite A3, Hh3]|done].
  - assert (Ep : place data (sz, img) (phdr data k) = (sz, img)) by (unfold place; by rewrite (proj2 (Z.eqb_neq _ _) Ht)). rewrite Ep.
    eapply runs_mono; [apply (IH (S k) s1 D l' cm); [done|done|lia|lia|done]|]. done.
Qed.

(** ** The stack *)

(** One string: where it goes, and that the top page takes it. *)
Lemma push_one s d D l' cm n fl img sp a : img_at (e_mem s) d D l' cm (4096 * n) fl img -> 1 <= n <= 524288 -> fl (n - 1) = 7 ->
  4096 * (n - 1) <= below_sp sp a -> sp <= 4096 * n ->
  Z.land (u32 (sp - (Z.of_nat (length a) + 1))) (u32 (Z.lnot 3)) = below_sp sp a /\
  runs (emm (copyout d (below_sp sp a) (a ++ [0]))) s (fun r s' => r = 0 /\ e_fs s' = e_fs s /\ same_rest s s' /\
    img_at (e_mem s') d D l' cm (4096 * n) fl (upd_img img (below_sp sp a) (a ++ [0]))).
Proof.
  intros Hi Hn Hfl Hb Hsp. pose proof (below_sp_bounds sp a) as Hbs. rewrite u32_id by lia. split; [apply land_3; lia|].
  apply runs_lift. eapply runs_mono; [apply (image_copyout kend kdata Hend s0 l (e_mem s) d D l' cm (4096 * n) fl img _ (a ++ [0]) Hi); rewrite ?length_app; cbn [length]|].
  - lia.
  - rewrite ceil_mult. lia.
  - unfold KERNBASE. lia.
  - intros x Hx. replace (x / 4096) with (n - 1); [done|]. apply (Z.div_unique x 4096 (n - 1) (x - 4096 * (n - 1))); lia.
  - cbv beta. intros r m' [-> Hi']. done.
Qed.

Lemma push_spec argv s d D l' cm n fl img sp ptrs done : img_at (e_mem s) d D l' cm (4096 * n) fl img -> 1 <= n <= 524288 -> fl (n - 1) = 7 ->
  4096 * (n - 1) <= args_end argv sp -> sp <= 4096 * n -> (length ptrs + length argv <= MAXARG)%nat ->
  Forall2 (fun p a => sp <= p /\ str_at img p a) ptrs done ->
  runs (push_args argv d sp ptrs) s (fun o s' => exists ptrs' img', o = Some (args_end argv sp, ptrs') /\
    Forall2 (fun p a => args_end argv sp <= p /\ str_at img' p a) ptrs' (done ++ argv) /\ (forall va, va < 4096 * (n - 1) -> img' va = img va) /\
    img_at (e_mem s') d D l' cm (4096 * n) fl img' /\ e_fs s' = e_fs s /\ same_rest s s').
Proof.
  revert s img sp ptrs done. induction argv as [|a argv IH]; intros s img sp ptrs done Hi Hn Hfl Hb Hsp Hmax Hst.
  { apply runs_ret. exists ptrs, img. rewrite app_nil_r. done. }
  assert (Hb1 : args_end argv (below_sp sp a) <= below_sp sp a) by apply args_end_le. change (args_end (a :: argv) sp) with (args_end argv (below_sp sp a)) in *.
  destruct (push_one s d D l' cm n fl img sp a Hi Hn Hfl ltac:(lia) Hsp) as [Esp Hrun]. pose proof (below_sp_bounds sp a) as Hbs.
  cbn [push_args]. cbn [length] in Hmax. rewrite (proj2 (Nat.leb_gt _ _)) by lia. rewrite Esp. apply runs_bind. eapply runs_mono; [exact Hrun|].
  cbv beta. intros r s1 (-> & Ef & [Ep Eh] & Hi1). change (0 <? 0) with false. cbv iota.
  eapply runs_mono; [apply (IH s1 (upd_img img (below_sp sp a) (a ++ [0])) (below_sp sp a) (ptrs ++ [below_sp sp a]) (done ++ [a]) Hi1 Hn Hfl); [lia|lia|rewrite length_app; cbn; lia|]|].
  - apply Forall2_app; [|constructor; [split; [lia|]|constructor]].
    + eapply Forall2_impl; [exact Hst|]. cbv beta. intros p b [Hp Hs]. split; [lia|]. apply str_at_upd; [rewrite length_app; cbn; lia|done].
    + intros k Hk. unfold upd_img. rewrite length_app, decide_True by (cbn; lia). f_equal. lia.
  - cbv beta. intros o s2 (ptrs' & img' & -> & A1 & A2 & A3 & A4 & [A5 A6]). exists ptrs', img'. rewrite <- app_assoc in A1. split_and!; try done.
    + intros va Hva. rewrite A2 by done. unfold upd_img. rewrite decide_False by lia. done.
    + by rewrite A4.
    + split; [by rewrite A5|by rewrite A6].
Qed.

(** ** Committing *)

Context (pgdir : Z) (T : gset Z) (um : upages) (nold : Z).
Hypothesis Hold : uspace kend s0 l pgdir T um.
Hypothesis Hnold : pages_upto um 0 nold.
Hypothesis Hnold' : 0 <= nold <= 524288.

(** The CPU can switch. *)
Definition cpu_ready (h : hw) : Prop :=
  (cpu < length (cpus (hw_mach h)))%nat /\ (cpu < length (hw_seg h))%nat /\ 0 <= ncli (getc (hw_mach h) cpu) /\ length (c_gdt (getsc h cpu)) = NSEGS.

(** freevm of the old image leaves the new one. *)
Lemma free_old m d D l' cm sz fl img : img_at m d D l' cm sz fl img ->
  runs (freevm kend pgdir) m (fun _ m' => exists l'', uspace kend m' l'' d D cm /\ (forall va, ubyte (km m') cm va = ubyte (km m) cm va) /\
    (forall va, KERNBASE <= va -> va_ok va -> pte (km m') d va = kval (kmap kdata) va) /\ forall v, v = pgdir \/ framed um v -> v ∈ l'').
Proof.
  intros Hi. destruct Hi as [I1 I2 I3 I4 I5 I6 I7 I8 I9]. destruct (us_vs _ _ _ _ _ _ I1) as [It If Id].
  destruct (parent_kept kend Hend s0 l pgdir T um Hold m l' If (fun v Hv => I2 v (or_introl Hv)) I8) as [Ho _].
  eapply runs_mono; [by apply (freevm_spec kend Hend m l' pgdir T um nold)|]. intros [] m' (l'' & F1 & F2 & F3 & F4). exists l''.
  destruct (owned_set pgdir T um) as [Y HY]. destruct (us_vs _ _ _ _ _ _ Hold) as [Ot Of Od].
  assert (Hapart : forall v, v ∈ Y -> v ∉ l).
  { intros v [->|[Hv|Hv]]%HY Hl; [by destruct (Od _ Hl)|by destruct (Od _ Hl)|]. by destruct (us_own _ _ _ _ _ _ Hold v Hv) as (_ & ? & _). }
  assert (Hpg : forall v, v ∈ Y -> page kend v).
  { intros v [->|[Hv|Hv]]%HY; [apply Ot|by apply (pt_pages _ _ _ _ Ot)|]. by destruct (us_own _ _ _ _ _ _ Hold v Hv) as (? & _). }
  assert (HdY : d ∉ Y) by (intros Hv; apply (Hapart d Hv), I2; right; by left).
  assert (HDY : D ## Y) by (intros v Hv Hv'; apply (Hapart v Hv'), I2; right; right; by left).
  assert (Hx : forall x, outside Y x -> km m' x = km m x) by (intros x Hx; apply F4; intros v Hv; by apply Hx, HY).
  split_and!.
  - apply (uspace_frame kend Hend m l' m' l'' d D cm Y); try done. intros v Hv. destruct (F2 v Hv) as [?|Hv']; [by left|]. right. intros Hw.
    apply (Hapart v); [by apply HY|]. apply I2. by right.
  - intros va. unfold ubyte. destruct (cm !! (va / 4096)) as [[v f]|] eqn:E; [|done]. f_equal. apply Hx. pose proof (mod_page va).
    assert (Hv : framed cm v) by (by exists (va / 4096), f). destruct (us_own _ _ _ _ _ _ I1 v Hv) as (Hv1 & _). apply (outside_page kend v); [done|done| |lia].
    intros Hin. apply (Hapart v Hin), I2. right. right. by right.
  - intros va Hva Hvo. rewrite <- I9 by done. by apply (pte_frame kend Hend (km m) (km m') d D Y).
  - intros v Hv. apply F3. by right.
Qed.

(** The process afterwards. *)
Definition new_proc (path : list Z) (d sz entry sp : Z) (p : proc) : proc :=
  set_tf (set_entry entry sp (p_tf p)) (set_vm sz d (set_name (copy_name (p_name p) (last_elem path path)) p)).

Lemma exec_commit_spec path (s : estate F) d D l' cm sz fl img entry sp : img_at (e_mem s) d D l' cm sz fl img -> p_pgdir (e_proc s) = pgdir -> cpu_ready (e_hw s) ->
  runs (commit kend ts_addr cpu path d sz entry sp) s (fun r s' => r = 0 /\ e_fs s' = e_fs s /\ e_proc s' = new_proc path d sz entry sp (e_proc s) /\
    switched ts_addr cpu (p_kstack (e_proc s)) d (e_hw s) (e_hw s') /\
    exists l'', uspace kend (e_mem s') l'' d D cm /\ (forall va, ubyte (km (e_mem s')) cm va = ubyte (km (e_mem s)) cm va) /\
      (forall va, KERNBASE <= va -> va_ok va -> pte (km (e_mem s')) d va = kval (kmap kdata) va) /\ forall v, v = pgdir \/ framed um v -> v ∈ l'').
Proof.
  intros Hi Hp (C1 & C2 & C3 & C4). unfold commit. apply runs_bind, runs_modify, runs_bind, runs_gets, runs_bind, runs_modify, runs_bind, runs_modify, runs_bind, runs_gets.
  cbn [upd_eproc e_proc e_mem e_fs e_hw]. assert (Hd : d <> 0).
  { destruct (us_vs _ _ _ _ _ _ (im_space _ _ _ _ _ _ _ _ _ _ _ _ Hi)) as [It _ _]. destruct (page_pos kend Hend d (pt_dir _ _ _ _ It)) as (? & _). lia. }
  apply runs_bind, runs_lift. cbn [e_hw upd_eproc]. eapply runs_mono; [by apply (switchuvm_spec ts_addr cpu (p_kstack (e_proc s)) d)|].
  intros [] h' Hsw. apply runs_bind, runs_lift. cbn [e_mem upd_eproc]. change (p_pgdir (set_name _ (e_proc s))) with (p_pgdir (e_proc s)). rewrite Hp.
  eapply runs_mono; [by apply (free_old (e_mem s) d D l' cm sz fl img)|]. intros [] m' (l'' & R1 & R2 & R3 & R4). apply runs_ret. cbn [e_mem e_fs e_proc e_hw].
  split_and!; try done. by exists l''.
Qed.

(** ** The process exec leaves *)

(** The stack a C main expects at [sp]: return address, argc, argv, the
    vector and its null, with each pointer at its string. *)
Definition main_frame (img : Z -> Z) (sp : Z) (argv : list (list Z)) : Prop :=
  word_at img sp 4294967295 /\ word_at img (sp + 4) (Z.of_nat (length argv)) /\ word_at img (sp + 8) (sp + 12) /\
  word_at img (sp + 12 + 4 * Z.of_nat (length argv)) 0 /\
  forall i a, argv !! i = Some a -> exists p, word_at img (sp + 12 + 4 * Z.of_nat i) p /\ str_at img p a.

Definition started (path : list Z) (argv : list (list Z)) (sz entry : Z) (prog : Z -> Z) (s s' : estate F) : Prop :=
  let n := ceil sz in exists d D cm l' sp img,
  e_proc s' = new_proc path d (4096 * (n + 2)) entry sp (e_proc s) /\ switched ts_addr cpu (p_kstack (e_proc s)) d (e_hw s) (e_hw s') /\
  uspace kend (e_mem s') l' d D cm /\
  (forall va, KERNBASE <= va -> va_ok va -> pte (km (e_mem s')) d va = kval (kmap kdata) va) /\
  (forall va, 0 <= va -> ubyte (km (e_mem s')) cm va = if decide (va < 4096 * (n + 2)) then Some (img va) else None) /\
  (forall va, 0 <= va < 4096 * (n + 2) -> user_page cm va = negb (va / 4096 =? n)) /\
  (forall va, va < 4096 * n -> img va = prog va) /\
  4096 * (n + 1) <= sp /\ main_frame img sp argv /\
  forall v, v = pgdir \/ framed um v -> v ∈ l'.

Lemma frame_of img sp ptrs argv : Forall2 (fun p a => sp <= p /\ str_at img p a) ptrs argv -> 4 * (4 + Z.of_nat (length argv)) <= sp < 4294967296 ->
  let sp' := sp - 4 * (4 + Z.of_nat (length argv)) in
  main_frame (upd_img img sp' (concat (List.map (le_bytes 4) (ustack sp ptrs)))) sp' argv.
Proof.
  intros Hst Hsp sp'. pose proof (Forall2_length _ _ _ Hst) as Hl. unfold main_frame. assert (Hw : forall i w, ustack sp ptrs !! i = Some w ->
    word_at (upd_img img sp' (concat (List.map (le_bytes 4) (ustack sp ptrs)))) (sp' + 4 * Z.of_nat i) w) by (intros i w; apply words_at).
  assert (Elen : Z.of_nat (length (ustack sp ptrs)) = 4 + Z.of_nat (length argv)) by (unfold ustack; rewrite !length_app; cbn [length]; lia).
  split_and!.
  - rewrite <- (Z.add_0_r sp') at 2. apply (Hw 0%nat). done.
  - apply (Hw 1%nat). by rewrite <- Hl.
  - apply (Hw 2%nat). cbn. rewrite Hl. rewrite u32_id by lia. do 2 f_equal. lia.
  - replace (sp' + 12 + 4 * Z.of_nat (length argv)) with (sp' + 4 * Z.of_nat (3 + length ptrs)) by lia. apply Hw. unfold ustack. rewrite lookup_app_r by (cbn; lia).
    rewrite lookup_app_r by (cbn; lia). cbn [length]. by replace (3 + length ptrs - 3 - length ptrs)%nat with 0%nat by lia.
  - intros i a Ea. destruct (Forall2_lookup_r _ _ _ _ _ Hst Ea) as (p & Ep & Hp & Hs). exists p. split.
    + replace (sp' + 12 + 4 * Z.of_nat i) with (sp' + 4 * Z.of_nat (3 + i)) by lia. apply Hw. unfold ustack. rewrite lookup_app_r by (cbn; lia).
      cbn [length]. replace (3 + i - 3)%nat with i by lia. rewrite lookup_app_l; [done|]. apply lookup_lt_is_Some. by eexists.
    + apply str_at_upd; [|done]. rewrite words_length, Elen. unfold sp'. lia.
Qed.

(** "Allocate two pages at the next page boundary" to the end. *)
Lemma build_spec path argv s d D l' cm sz img entry : img_at (e_mem s) d D l' cm sz (fun _ => 7) img -> 0 <= sz -> ceil sz + 2 < 524288 ->
  1025 + 2 * (ceil sz + 2) <= Z.of_nat (length l) -> (length argv <= MAXARG)%nat -> 4 * (4 + Z.of_nat (length argv)) <= args_end argv 4096 ->
  p_pgdir (e_proc s) = pgdir -> cpu_ready (e_hw s) ->
  runs (build_stack kend ts_addr cpu path argv d sz entry) s (fun r s' => r = 0 /\ e_fs s' = e_fs s /\ started path argv sz entry img s s').
Proof.
  intros Hi Hsz Hn Hfree Hargc Hroom Hpg Hcpu. pose proof (ceil_bounds sz) as Hcb. set (n := ceil sz) in *. assert (Hn0 : 0 <= n) by (apply Z.div_pos; lia).
  unfold build_stack. rewrite PGROUNDUP_div by (unfold KERNBASE in *; lia). fold (ceil sz). fold n. rewrite (Z.mul_comm n). unfold PGSIZE.
  rewrite u32_id by lia. replace (4096 * n + 2 * 4096) with (4096 * (n + 2)) by lia.
  assert (Hi1 : img_at (e_mem s) d D l' cm (4096 * n) (fun _ => 7) img) by (apply (image_resize kend kdata s0 l _ d D l' cm sz); [by rewrite ceil_mult|done]).
  apply runs_bind, runs_lift. eapply runs_mono; [apply (image_grow kend kdata Hend s0 l (e_mem s) d D l' cm (4096 * n) img (4096 * (n + 2)) Hi1); rewrite ?ceil_mult; unfold KERNBASE; lia|].
  cbv beta. intros r m1 (-> & D1 & l1 & cm1 & Hi2). rewrite (proj2 (Z.eqb_neq _ _)) by lia. apply runs_bind, runs_lift. cbn [e_mem].
  rewrite u32_id by lia. replace (4096 * (n + 2) - 2 * 4096) with (4096 * n) by lia.
  eapply runs_mono; [apply (image_guard kend kdata Hend s0 l m1 d D1 l1 cm1 (4096 * (n + 2)) img n Hi2); rewrite ceil_mult; lia|].
  intros [] m2 (cm2 & Hi3). set (fl := fun j => if j =? n then 3 else 7) in *. assert (Hfl : fl (n + 2 - 1) = 7) by (unfold fl; by rewrite (proj2 (Z.eqb_neq _ _)) by lia).
  assert (Eend : args_end argv (4096 * (n + 2)) = 4096 * (n + 1) + args_end argv 4096).
  { replace (4096 * (n + 2)) with (4 * (1024 * (n + 1)) + 4096) by lia. rewrite args_end_shift. lia. }
  apply runs_bind. eapply runs_mono; [apply (push_spec argv (mkes m2 (e_fs s) (e_proc s) (e_hw s)) d D1 l1 cm2 (n + 2) fl img (4096 * (n + 2)) [] [] Hi3); [lia|done|lia|lia|done|constructor]|].
  cbv beta. cbn [e_fs app]. intros o s3 (ptrs & img3 & -> & Hst & Hlow & Hi4 & Ef3 & [Ep3 Eh3]). cbn [e_proc e_hw] in Ep3, Eh3.
  pose proof (args_end_le argv 4096) as Hle. pose proof (Forall2_length _ _ _ Hst) as Hlp. set (sp := args_end argv (4096 * (n + 2))) in *.
  set (sp' := sp - 4 * (4 + Z.of_nat (length argv))). assert (Esp : u32 (sp - (3 + Z.of_nat (length ptrs) + 1) * 4) = sp') by (rewrite u32_id; unfold sp'; lia). rewrite Esp.
  set (ws := concat (List.map (le_bytes 4) (ustack sp ptrs))). assert (Hws : Z.of_nat (length ws) = 4 * (4 + Z.of_nat (length argv))).
  { unfold ws. rewrite words_length. unfold ustack. rewrite !length_app. cbn [length]. lia. }
  apply runs_bind, runs_lift. eapply runs_mono; [apply (image_copyout kend kdata Hend s0 l (e_mem s3) d D1 l1 cm2 (4096 * (n + 2)) fl img3 sp' ws Hi4); rewrite ?ceil_mult, ?Hws|].
  - unfold sp'. lia.
  - unfold sp'. lia.
  - unfold KERNBASE. lia.
  - intros x Hx. replace (x / 4096) with (n + 1); [unfold fl; by rewrite (proj2 (Z.eqb_neq _ _)) by lia|]. apply (Z.div_unique x 4096 (n + 1) (x - 4096 * (n + 1))); unfold sp' in Hx; lia.
  - cbv beta. intros r m4 [-> Hi5]. change (0 <? 0) with false. cbv iota. set (img5 := upd_img img3 sp' ws) in *.
    eapply runs_mono; [apply (exec_commit_spec path (mkes m4 (e_fs s3) (e_proc s3) (e_hw s3)) d D1 l1 cm2 _ fl img5 entry sp' Hi5); cbn [e_proc e_hw]; [by rewrite Ep3|by rewrite Eh3]|].
    cbv beta. cbn [e_proc e_hw e_fs e_mem]. rewrite Ep3, Eh3, Ef3. intros r s5 (-> & Ef5 & Ep5 & Hsw & l5 & R1 & R2 & R3 & R4). split; [done|]. split; [done|].
    exists d, D1, cm2, l5, sp', img5. fold n. split_and!; try done.
    + intros va Hva. rewrite R2. destruct (image_bytes kend kdata s0 l m4 d D1 l1 cm2 _ fl img5 va Hi5 Hva) as [-> _]. by rewrite ceil_mult.
    + intros va Hva. destruct (image_bytes kend kdata s0 l m4 d D1 l1 cm2 _ fl img5 va Hi5 ltac:(lia)) as [_ Hup]. rewrite ceil_mult in Hup. rewrite Hup by lia.
      unfold fl. by destruct (va / 4096 =? n).
    + intros va Hva. unfold img5, upd_img. rewrite decide_False by (unfold sp'; lia). apply Hlow. lia.
    + unfold sp'. lia.
    + unfold img5, ws, sp'. apply frame_of; [done|lia].
Qed.
End Spec.

(** ** The whole of exec *)

(** What the file system does for the file at [path], in the terms exec needs:
    opening it, reading its [data] and letting it go. *)
Record exec_file {F} {X : ExecFs F} (path data : list Z) (ip : nat) (opened closed : F -> Prop) (f0 : F) : Prop := {
  ef_open : runs x_begin_op f0 (fun _ f1 => runs (x_namei path) f1 (fun o f2 => o = Some ip /\ runs (x_ilock ip) f2 (fun _ f3 => opened f3)));
  ef_read : forall f off n, opened f -> 0 <= off -> 0 <= n -> off + n <= Z.of_nat (length data) ->
    runs (x_readi ip off n) f (fun r f' => r = (n, slice data (Z.to_nat off) (Z.to_nat n)) /\ opened f');
  ef_close : forall f, opened f -> runs (x_iunlockput ip) f (fun _ f1 => runs x_end_op f1 (fun _ f2 => closed f2))
}.

Lemma place_le data a ph : fst a <= fst (place data a ph) /\ (ph_type ph = ELF_PROG_LOAD -> ph_vaddr ph + ph_memsz ph <= fst (place data a ph)).
Proof. unfold place. destruct (Z.eqb_spec (ph_type ph) ELF_PROG_LOAD); cbn [fst]; lia. Qed.

Lemma places_le data phs a : fst a <= fst (fold_left (place data) phs a) /\
  Forall (fun ph => ph_type ph = ELF_PROG_LOAD -> ph_vaddr ph + ph_memsz ph <= fst (fold_left (place data) phs a)) phs.
Proof.
  revert a. induction phs as [|ph phs IH]; intros a; cbn [fold_left]; [split; [lia|constructor]|]. destruct (IH (place data a ph)) as [H1 H2], (place_le data a ph) as [H3 H4].
  split; [lia|]. constructor; [|done]. intros Ht. specialize (H4 Ht). lia.
Qed.

(** The empty image after setupkvm. *)
Lemma image_start kend kdata s l d k l' s1 : free_ok kend s l -> KERNBASE < kend -> l = d :: k ++ l' -> uspace kend s1 l' d (list_to_set k) ∅ ->
  (forall x, outside (list_to_set l) x -> km s1 x = km s x) -> (forall va, KERNBASE <= va -> va_ok va -> pte (km s1) d va = kval (kmap kdata) va) ->
  image_at kend kdata s l s1 d (list_to_set k) l' ∅ 0 (fun _ => 7) (fun _ => 0).
Proof.
  intros Hf Hend El Hu Hx Hk. change (image_at kend kdata s l s1 d (list_to_set k) l' ∅ 0 (fun _ => 7) (fun _ => 0)). split; try done.
  - intros v [Hv|[-> |[Hv|(i & f & Hv)]]]; [set_solver..|done].
  - intros j Hj. rewrite lookup_empty. change (ceil 0) with 0. split; [by intros [? ?]|lia].
  - intros va Hva. change (ceil 0) with 0 in Hva. lia.
  - change (ceil 0) with 0. pose proof (ptable_size kend Hend _ _ _ (vs_tab _ _ _ _ _ (us_vs _ _ _ _ _ _ Hu))) as Hsz. pose proof (fr_nodup _ _ _ Hf) as Hnd.
    rewrite El in Hnd. apply NoDup_cons in Hnd as [_ Hnd]. apply NoDup_app in Hnd as (Hnd & _). rewrite size_list_to_set in Hsz by done.
    rewrite El. cbn [length]. rewrite length_app. lia.
Qed.

(** C5: exec replaces the image of the calling process by the program in a
    well-formed ELF file.  Given enough free pages and arguments that fit one
    page, it returns 0 and the process then has a page table of its own in which
    the pages up to the program's size hold its segments (the bytes of the file,
    zeros after them), the next page is closed to the user, and the page after
    it holds the frame main expects: return address, argc, argv, the vector and
    the strings.  The process starts at the file's entry with its stack pointer
    at that frame, the CPU runs on the new page table, the kernel half is the
    kernel's, the pages of the old image are free again and the file is closed. *)
Theorem exec_loads {F} {X : ExecFs F} kend kdata ts_addr cpu elf0 ph0 path argv data ip (opened closed : F -> Prop) (s : estate F) l pgdir T um nold :
  KERNBASE < kend -> KERNLINK < kdata < KERNBASE + PHYSTOP -> kdata mod 4096 = 0 ->
  exec_file path data ip opened closed (e_fs s) -> elf_ok data ->
  uspace kend (e_mem s) l pgdir T um -> pages_upto um 0 nold -> 0 <= nold <= 524288 -> p_pgdir (e_proc s) = pgdir -> cpu_ready cpu (e_hw s) ->
  ceil (fst (image data)) + 2 < 524288 -> 1025 + 2 * (ceil (fst (image data)) + 2) <= Z.of_nat (length l) ->
  (length argv <= MAXARG)%nat -> 4 * (4 + Z.of_nat (length argv)) <= args_end argv 4096 ->
  runs (exec kend kdata ts_addr cpu elf0 ph0 path argv) s (fun r s' => r = 0 /\ closed (e_fs s') /\
    started kend kdata ts_addr cpu pgdir um path argv (fst (image data)) (eh_entry (header data)) (snd (image data)) s s').
Proof.
  intros Hend Hdata Hpage Hfile Hek Hu Hnold Hnold' Hpg Hcpu Hn Hfree Hargc Hroom. destruct Hfile as [Hopen Hread Hclose]. destruct (us_vs _ _ _ _ _ _ Hu) as [_ Hfr _].
  unfold exec. apply runs_bind, runs_lift. eapply runs_mono; [exact Hopen|]. cbv beta. intros [] f1 Hn1. apply runs_bind, runs_lift. cbn [e_fs e_mem e_proc e_hw].
  eapply runs_mono; [exact Hn1|]. cbv beta. intros o f2 [-> Hl2]. apply runs_bind, runs_lift. cbn [e_fs e_mem e_proc e_hw]. eapply runs_mono; [exact Hl2|]. cbv beta. intros [] f3 Hop.
  assert (Hhdr := ek_hdr _ Hek). unfold ELFHDR_SZ in *. apply runs_bind, runs_lift. cbn [e_fs e_mem e_proc e_hw]. eapply runs_mono; [apply (Hread f3 0 52 Hop); lia|].
  cbv beta. intros rd f4 [-> Hop4]. cbn [fst snd]. rewrite elf_over by (apply length_slice; lia). change (elf_of (slice data _ _)) with (header data).
  change (u32 52 <? 52) with false. cbv iota. rewrite (proj2 (Z.eqb_eq _ _) (ek_magic _ Hek)). cbn [negb]. apply runs_bind, runs_lift. cbn [e_fs e_mem e_proc e_hw].
  eapply runs_mono; [by apply (setupkvm_spec kend kdata Hend Hdata Hpage (e_mem s) l)|]. intros d m1 [Hx [(_ & Hl & _)|(Hd & k & l' & El & Hu1 & Hk1)]]; [assert (0 <= ceil (fst (image data))); [|lia]|].
  { apply Z.div_pos; [|lia]. destruct (places_le data (phdrs data) (0, fun _ => 0)) as [H0 _]. fold (image data) in H0. cbn [fst] in H0. lia. }
  rewrite (proj2 (Z.eqb_neq _ _) Hd). pose proof (image_start kend kdata (e_mem s) l d k l' m1 Hfr Hend El Hu1 Hx Hk1) as Hi1.
  destruct (places_le data (phdrs data) (0, fun _ => 0)) as [H0 Hsegs]. fold (image data) in H0, Hsegs. cbn [fst] in H0.
  assert (Hnum : 0 <= eh_phnum (header data)) by (apply word_nonneg; by apply Forall_take, Forall_drop, Hek).
  apply runs_bind. replace (eh_phoff (header data)) with (eh_phoff (header data) + 32 * Z.of_nat 0) by lia.
  eapply runs_mono; [apply (seg_load_spec kend kdata ph0 Hend data ip opened Hread (e_mem s) l _ 0 (mkes m1 f4 (e_proc s) (e_hw s)) d _ _ _ 0 (fun _ => 0) Hek Hop4 Hi1)|].
  - unfold KERNBASE. lia.
  - lia.
  - eapply Forall_impl; [exact Hsegs|]. cbv beta. intros ph Hle Ht. pose proof (ceil_mono _ _ (Hle Ht)). lia.
  - cbv beta zeta. fold (phdrs data). fold (image data). cbn [e_fs e_mem e_proc e_hw]. intros o s2 (-> & Hop2 & [Ep2 Eh2] & Hsz & D2 & l2 & cm2 & Hi2). cbn [e_proc e_hw] in Ep2, Eh2.
    apply runs_bind, runs_lift. eapply runs_mono; [by apply Hclose|]. cbv beta. intros [] f5 Hend5. apply runs_bind, runs_lift. cbn [e_fs e_mem e_proc e_hw].
    eapply runs_mono; [exact Hend5|]. cbv beta. intros [] f6 Hcl.
    eapply runs_mono; [apply (build_spec kend kdata ts_addr cpu Hend (e_mem s) l pgdir T um nold Hu Hnold Hnold' path argv (mkes (e_mem s2) f6 (e_proc s2) (e_hw s2)) d D2 l2 cm2 (fst (image data)) (snd (image data)) _ Hi2); cbn [e_proc e_hw]; rewrite ?Ep2, ?Eh2; try done; lia|].
    cbv beta. cbn [e_fs]. intros r s3 (-> & Ef & Hst). split; [done|]. split; [by rewrite Ef|]. unfold started in Hst |- *. cbn [e_proc e_hw] in Hst. by rewrite Ep2, Eh2 in Hst.
Qed.

Module ExecDemo.
Import UspaceDemo.

(** A program of one segment: three bytes of the file in 5000 of memory. *)
Definition prog : list Z :=
  (le_bytes 4 ELF_MAGIC ++ replicate 20 0 ++ le_bytes 4 16 ++ le_bytes 4 52 ++ replicate 12 0 ++ le_bytes 2 1 ++ replicate 6 0) ++
  (le_bytes 4 1 ++ le_bytes 4 84 ++ le_bytes 4 0 ++ le_bytes 4 0 ++ le_bytes 4 3 ++ le_bytes 4 5000 ++ le_bytes 4 7 ++ le_bytes 4 4096) ++
  [184; 1; 2].

(** A file system with that one file; its state counts the open operations. *)
Definition one_file : ExecFs Z := {|
  x_begin_op := modify (fun k => k + 1);
  x_end_op := modify (fun k => k - 1);
  x_namei := fun path => ret (if bool_decide (path = [47; 97]) then Some 3%nat else None);
  x_ilock := fun _ => ret tt;
  x_readi := fun _ off n => let m := Z.min n (Z.of_nat (length prog) - off) in
    ret (if m <? 0 then (-1, []) else (m, slice prog (Z.to_nat off) (Z.to_nat m)));
  x_iunlockput := fun _ => ret tt
|}.

Lemma prog_ok : elf_ok prog.
Proof.
  split.
  - apply Forall_forall. intros b Hb. assert (Hall : forallb (fun b => (0 <=? b) && (b <? 256)) prog = true) by reflexivity.
    rewrite forallb_forall in Hall. apply list_elem_of_In, Hall in Hb. unfold byte_ok. lia.
  - vm_compute. done.
  - vm_compute. done.
  - reflexivity.
  - vm_compute. done.
  - change (phdrs prog) with [phdr prog 0]. constructor; [|constructor]. intros _. vm_compute. split_and!; done.
Qed.

Lemma prog_file : @exec_file Z one_file [47; 97] prog 3 (fun k => k = 1) (fun k => k = 0) 0.
Proof.
  split.
  - done.
  - intros f off n -> Ho Hn Hl. unfold x_readi, one_file. rewrite Z.min_l by lia. rewrite (proj2 (Z.ltb_ge n 0)) by lia. by apply runs_ret.
  - by intros f ->.
Qed.

Lemma exec_loads_witness : runs launch blank (fun d m =>
  runs (@exec Z one_file dend ddata (fun _ => 2148600000) 0 [] [] [47; 97] [[97]; [45; 120]]) (mkes m 0 (set_vm 8192 d noproc) CpuDemo.hw0)
    (fun r s' => r = 0 /\ e_fs s' = 0 /\ p_sz (e_proc s') = 16384 /\ tf_eip (p_tf (e_proc s')) = 16 /\
      exists l D cm, uspace dend (e_mem s') l (p_pgdir (e_proc s')) D cm /\ ubyte (km (e_mem s')) cm 1 = Some 1 /\ ubyte (km (e_mem s')) cm 4999 = Some 0)).
Proof.
  eapply runs_mono; [apply launch_runs|]. intros d m (Hm & l & T & um & Hu & Hn & Hl & _). eapply runs_mono.
  { apply (@exec_loads Z one_file dend ddata (fun _ => 2148600000) 0 [] [] [47; 97] [[97]; [45; 120]] prog 3 (fun k => k = 1) (fun k => k = 0)
      (mkes m 0 (set_vm 8192 d noproc) CpuDemo.hw0) l d T um 2); [done|done|done|exact prog_file|exact prog_ok|exact Hu|exact Hn|lia|done| | | |cbn; unfold MAXARG; lia|].
    - split_and!; [cbn; lia|cbn; lia|done|done].
    - vm_compute. done.
    - change (ceil (fst (image prog))) with 2. lia.
    - vm_compute. done. }
  cbv beta. intros r s' (-> & Hc & d' & D & cm & l' & sp & img & Ep & _ & Hu' & _ & Hb & _ & Himg & _). change (ceil (fst (image prog))) with 2 in *.
  split_and!; [done|done|by rewrite Ep|by rewrite Ep|]. exists l', D, cm. rewrite Ep. split_and!; [exact Hu'| |]; rewrite Hb by lia; cbn [decide]; rewrite Himg by lia; reflexivity.
Defined.
End ExecDemo.
