(* ===== verification/ExecHole.v ===== *)
(** * A program header exec does not check

    exec passes [ph.vaddr + ph.memsz] to allocuvm without looking whether the
    sum wraps, and [ph.vaddr] to loaduvm without looking where it lies. *)

From S2P Require Import Prelude.
From S2P Require Import Params.
From S2P Require Import Cstr.
From S2P Require Import Mmu.
From S2P Require Import Kalloc.
From S2P Require Import Vm.
From S2P Require Import VmSpec.
From S2P Require Import Uspace.
From S2P Require Import UspaceKvm.
From S2P Require Import UspaceGrow.
From S2P Require Import UspaceWrite.
From S2P Require Import UspaceDemo.
From S2P Require Import Cpu.
From S2P Require Import Proc.
From S2P Require Import ExecImage.
From S2P Require Import Exec.
From S2P Require Import ExecSpec.

(** The kernel maps its data to itself. *)
Lemma kdata_entry kdata va : KERNLINK < kdata < KERNBASE + PHYSTOP -> kdata mod 4096 = 0 -> va mod 4096 = 0 -> kdata <= va < KERNBASE + PHYSTOP ->
  kval (kmap kdata) va <> 0 /\ p2v (PTE_ADDR (kval (kmap kdata) va)) = va.
Proof.
  intros Hd Hp Ha Hva. destruct (kmap_step kdata Hd Hp [mkkmap KERNBASE 0 EXTMEM PTE_W; mkkmap KERNLINK (v2p KERNLINK) (v2p kdata) 0]
    (mkkmap kdata (v2p kdata) PHYSTOP PTE_W) [mkkmap DEVSPACE DEVSPACE 0 PTE_W] eq_refl) as [_ Hdis].
  assert (Hin : inrange (mkkmap kdata (v2p kdata) PHYSTOP PTE_W) va).
  { unfold inrange, ksize. cbn [k_virt k_start k_stop]. rewrite (data_v2p kdata) by done. unfold KERNLINK, EXTMEM, PHYSTOP, KERNBASE in *. rewrite u32_id by lia. lia. }
  specialize (Hdis va Hin). inversion Hdis as [|? ? N1 Hdis2]; subst. inversion Hdis2 as [|? ? N2 _]; subst.
  assert (Ediv : va / 4096 * 4096 = va) by (pose proof (Z.div_mod va 4096); lia).
  unfold kmap. cbn [kval]. rewrite (decide_False _ _ N1), (decide_False _ _ N2), (decide_True _ _ Hin). cbn [k_start k_virt k_perm]. rewrite (data_v2p kdata), Ediv by done.
  replace (kdata - KERNBASE + (va - kdata)) with (va - KERNBASE) by lia. rewrite <- Z.lor_assoc. change (Z.lor PTE_W PTE_P) with 3.
  assert (Hm : (va - KERNBASE) mod 4096 = 0) by (unfold KERNBASE; rewrite <- (Z.mod_add _ 524288) by lia; by replace (va - 2147483648 + 524288 * 4096) with va by lia).
  unfold KERNLINK, EXTMEM, PHYSTOP, KERNBASE in *. destruct (PTE_split (va - 2147483648) 3 Hm ltac:(lia) ltac:(lia)) as [E _]. rewrite E. split.
  - rewrite (lor_add _ 3 Hm) by lia. lia.
  - unfold p2v, KERNBASE. rewrite u32_id by lia. lia.
Qed.

(** C39: a segment whose [vaddr + memsz] wraps makes exec write into the kernel.
    For a header with vaddr in the kernel's data and a sum that wraps to a
    small size, allocuvm accepts the size and loaduvm finds vaddr mapped, by the
    kernel's own half of the new page table: the loop of exec goes on as if the
    segment were loaded, and the bytes of the file now stand at the kernel
    address the file named. *)
Theorem exec_kernel_write {F} {X : ExecFs F} kend kdata ph0 data ip (opened : F -> Prop) (s : estate F) s0 l d D l' cm sz img off :
  KERNBASE < kend -> KERNLINK < kdata < KERNBASE + PHYSTOP -> kdata mod 4096 = 0 ->
  (forall f off n, opened f -> 0 <= off -> 0 <= n -> off + n <= Z.of_nat (length data) ->
    runs (x_readi ip off n) f (fun r f' => r = (n, slice data (Z.to_nat off) (Z.to_nat n)) /\ opened f')) ->
  opened (e_fs s) -> image_at kend kdata s0 l (e_mem s) d D l' cm sz (fun _ => 7) img -> 0 <= off -> off + 32 <= Z.of_nat (length data) < 4294967296 ->
  let ph := ph_of (slice data (Z.to_nat off) 32) in let top := u32 (ph_vaddr ph + ph_memsz ph) in
  ph_type ph = ELF_PROG_LOAD -> ph_filesz ph <= ph_memsz ph -> ph_vaddr ph mod 4096 = 0 -> kdata <= ph_vaddr ph -> ph_vaddr ph + 4096 <= kend -> kend <= KERNBASE + PHYSTOP ->
  0 < ph_filesz ph <= 4096 -> 0 <= ph_off ph -> ph_off ph + ph_filesz ph <= Z.of_nat (length data) ->
  0 <= sz <= top -> 0 < top < KERNBASE -> 1025 + 2 * ceil top <= Z.of_nat (length l) ->
  runs (load_segments kend ph0 1 ip d off sz) s (fun o s' => o = Some top /\
    forall x, 0 <= x < ph_filesz ph -> km (e_mem s') (ph_vaddr ph + x) = nthZ data (ph_off ph + x)).
Proof.
  intros Hend Hdata Hpage Hread Hop Hi Hoff Hlen ph top Ht Hfm Hal Hkd Hke Hkend Hfs Hpo Hpl Hsz Htop Hfree.
  cbn [load_segments]. unfold PROGHDR_SZ. rewrite u32_id by lia. apply runs_bind, runs_lift. eapply runs_mono; [apply (Hread _ off 32 Hop); lia|].
  cbv beta. intros rd f1 [-> Hop1]. cbn [fst snd]. rewrite ph_over by (apply length_slice; lia). change (ph_of (slice data _ _)) with ph.
  change (negb (u32 32 =? 32)) with false. cbv iota. rewrite (proj2 (Z.eqb_eq _ _) Ht). cbn [negb]. rewrite (proj2 (Z.ltb_ge _ _) Hfm).
  apply runs_bind, runs_lift. cbn [e_mem]. fold top. eapply runs_mono; [apply (image_grow kend kdata Hend s0 l (e_mem s) d D l' cm sz img top Hi); lia|].
  cbv beta. intros r m1 (-> & D1 & l1 & cm1 & Hi1). rewrite (proj2 (Z.eqb_neq top 0)) by lia. apply runs_bind, runs_lift. cbn [e_mem e_fs].
  assert (Hva : KERNBASE <= ph_vaddr ph) by (unfold KERNLINK, KERNBASE, EXTMEM in *; lia). assert (Hvo : va_ok (ph_vaddr ph)) by (unfold va_ok, KERNBASE, PHYSTOP in *; lia).
  destruct (kdata_entry kdata (ph_vaddr ph) Hdata Hpage Hal ltac:(lia)) as [Hne Hpa]. pose proof (im_khalf _ _ _ _ _ _ _ _ _ _ _ _ Hi1 (ph_vaddr ph) Hva Hvo) as Hpte.
  rewrite <- Hpte in Hne, Hpa. unfold pte in Hne, Hpa. destruct (Z.eqb_spec (pte_at (km m1) d (ph_vaddr ph)) 0) as [E0|E0]; [done|].
  unfold loaduvm, PGSIZE. rewrite (proj2 (Z.eqb_eq _ _) Hal). cbn [negb].
  destruct (Z.to_nat (ph_filesz ph / 4096 + 1)) as [|fuel] eqn:Efuel; [exfalso; assert (0 <= ph_filesz ph / 4096) by (apply Z.div_pos; lia); lia|].
  cbn [loaduvm_loop]. rewrite (proj2 (Z.ltb_lt 0 _)) by lia. rewrite Z.add_0_r, !Z.sub_0_r, u32_id by (unfold va_ok in Hvo; lia).
  apply runs_bind, runs_lift. unfold runs at 1. cbn [fst]. rewrite walk_eq, (proj2 (Z.eqb_neq _ _) E0). apply runs_bind, runs_lift, runs_gets. cbn [fst snd]. rewrite Hpa.
  replace (if ph_filesz ph <? PGSIZE then ph_filesz ph else PGSIZE) with (ph_filesz ph) by (unfold PGSIZE; destruct (Z.ltb_spec (ph_filesz ph) 4096); lia).
  apply runs_bind, runs_lift. rewrite Z.add_0_r, u32_id by lia. cbn [snd]. eapply runs_mono; [apply (Hread f1 (ph_off ph) (ph_filesz ph) Hop1); lia|].
  cbv beta. intros rd f2 [-> _]. cbn [fst snd]. apply runs_bind, runs_lift, runs_modify. cbn [fst snd]. rewrite u32_id, Z.eqb_refl by lia. cbn [negb].
  set (m2 := poke _ m1). assert (Hdone : runs (loaduvm_loop (x_readi ip) fuel d (ph_vaddr ph) (ph_off ph) (u32 (0 + PGSIZE)) (ph_filesz ph)) (m2, f2) (fun r p => r = 0 /\ p = (m2, f2))).
  { change (u32 (0 + PGSIZE)) with 4096. destruct fuel; [by apply runs_ret|]. cbn [loaduvm_loop]. rewrite (proj2 (Z.ltb_ge _ _)) by lia. by apply runs_ret. }
  eapply runs_mono; [exact Hdone|]. cbv beta. intros r p (-> & ->). change (0 <? 0) with false. cbv iota. apply runs_ret. split; [done|].
  intros x Hx. cbn [e_mem fst]. unfold m2. cbn [poke km]. assert (Hb : length (slice data (Z.to_nat (ph_off ph)) (Z.to_nat (ph_filesz ph))) = Z.to_nat (ph_filesz ph)) by (apply length_slice; lia).
  rewrite Hb, (proj2 (inside_iff _ _ _)) by lia. replace (ph_vaddr ph + x - ph_vaddr ph) with x by lia. by rewrite nthZ_slice by lia.
Qed.

Module HoleDemo.
Import UspaceDemo.

(** A header that names the first page of the kernel's data. *)
Definition evil : list Z :=
  le_bytes 4 1 ++ le_bytes 4 32 ++ le_bytes 4 ddata ++ le_bytes 4 0 ++ le_bytes 4 3 ++ le_bytes 4 (4294967296 - ddata + 4096) ++ replicate 8 0 ++ [7; 8; 9].

Definition evil_fs : ExecFs unit := {|
  x_begin_op := ret tt;
  x_end_op := ret tt;
  x_namei := fun _ => ret (Some 0%nat);
  x_ilock := fun _ => ret tt;
  x_readi := fun _ off n => let m := Z.min n (Z.of_nat (length evil) - off) in
    ret (if m <? 0 then (-1, []) else (m, slice evil (Z.to_nat off) (Z.to_nat m)));
  x_iunlockput := fun _ => ret tt
|}.

Lemma exec_kernel_write_witness : runs (kinit1 dend (dend + 1) dtop ;;; setupkvm ddata) blank (fun d m =>
  runs (@load_segments unit evil_fs dend [] 1 0 d 0 0) (mkes m tt noproc CpuDemo.hw0) (fun o s' => o = Some 4096 /\ km (e_mem s') (ddata + 1) = 8)).
Proof.
  assert (Hend : KERNBASE < dend) by done. assert (Hdata : KERNLINK < ddata < KERNBASE + PHYSTOP) by done.
  apply runs_bind. eapply runs_mono; [apply kinit_demo|]. intros [] s0 (_ & l & Hf & Hl). eapply runs_mono; [by apply (setupkvm_spec dend ddata Hend Hdata eq_refl s0 l)|].
  intros d m [Hx [(_ & Hl' & _)|(Hd & k & l' & El & Hu1 & Hk1)]]; [lia|]. pose proof (image_start dend ddata s0 l d k l' m Hf Hend El Hu1 Hx Hk1) as Hi.
  eapply runs_mono; [apply (@exec_kernel_write unit evil_fs dend ddata [] evil 0 (fun _ => True) (mkes m tt noproc CpuDemo.hw0) s0 l d (list_to_set k) l' ∅ 0 (fun _ => 0) 0 Hend Hdata eq_refl);
    [|done|exact Hi|..]; try (vm_compute; first [done|split; done])|].
  - intros f off n _ Ho Hn Hlen. unfold x_readi, evil_fs. rewrite Z.min_l by lia. rewrite (proj2 (Z.ltb_ge n 0)) by lia. by apply runs_ret.
  - vm_compute (ceil _). lia.
  - cbv beta. intros o s' [-> Hb]. split; [reflexivity|]. exact (Hb 1 ltac:(vm_compute; done)).
Defined.
End HoleDemo.
