(* ===== verification/BootSpec.v ===== *)
(** * What the boot loader loads *)

From S2P Require Import Prelude.
From S2P Require Import Params.
From S2P Require Import Cstr.
From S2P Require Import Mmu.
From S2P Require Import Exec.
From S2P Require Import Bootmain.

Section Kernel.
Context (data : list Z).

(** ** The kernel file *)

(** The file as it would lie at the scratch space, and its headers there. *)
Definition fmem : mem := fun x => nthZ data (x - ELF_AT).
Definition phnum : Z := le_val [fmem (ELF_AT + 44); fmem (ELF_AT + 45)].
Definition ph_at (i : Z) : Z := ELF_AT + ld32 fmem (ELF_AT + 28) + 32 * i.
Definition spa (i : Z) : Z := bph_paddr fmem (ph_at i).
Definition soff (i : Z) : Z := bph_off fmem (ph_at i).
Definition sfilesz (i : Z) : Z := bph_filesz fmem (ph_at i).
Definition smemsz (i : Z) : Z := bph_memsz fmem (ph_at i).

(** A kernel file the loader can load: its headers are in the first page, its
    segments lie above the scratch space and in increasing order, apart enough
    for whole sectors. *)
Record kernel_ok : Prop := {
  ko_bytes : Forall byte_ok data;
  ko_magic : ld32 fmem ELF_AT = ELF_MAGIC;
  ko_page : ld32 fmem (ELF_AT + 28) + 32 * phnum <= 4096;
  ko_low i : 0 <= i < phnum -> ELF_AT + 4096 <= spa i - soff i mod 512;
  ko_high i : 0 <= i < phnum -> spa i + smemsz i + 512 < 4294967296;
  ko_size i : 0 <= i < phnum -> sfilesz i <= smemsz i;
  ko_order i j : 0 <= i < j -> j < phnum -> spa i + smemsz i <= spa j - soff j mod 512
}.

(** Segment [i] is in memory: the bytes of the file, then zeros. *)
Definition loaded (m : mem) (i : Z) : Prop :=
  forall k, 0 <= k < smemsz i -> m (spa i + k) = if k <? sfilesz i then nthZ data (soff i + k) else 0.

(** The page with the headers is as it was read. *)
Definition scratch (m : mem) : Prop := forall x, ELF_AT <= x < ELF_AT + 4096 -> m x = fmem x.

Lemma scratch_ld32 m a : scratch m -> ELF_AT <= a -> a + 4 <= ELF_AT + 4096 -> ld32 m a = ld32 fmem a.
Proof. intros Hm H1 H2. unfold ld32. by rewrite !Hm by lia. Qed.

Lemma fmem_byte x : kernel_ok -> byte_ok (fmem x).
Proof.
  intros Hk. unfold fmem, nthZ. rewrite nth_lookup. destruct (data !! _) eqn:E; [|cbn; unfold byte_ok; lia]. apply (Forall_lookup_1 _ _ _ _ (ko_bytes Hk) E).
Qed.

Lemma fmem_word a : kernel_ok -> 0 <= ld32 fmem a < 4294967296.
Proof. intros Hk. unfold ld32. apply (le_val_range [_; _; _; _]). repeat constructor; by apply fmem_byte. Qed.

End Kernel.

Section Boot.
Context {H : Type} {HW : BootHw H} {BO : BootHwOk H HW} (fuel : nat) (data : list Z).
Implicit Types s : @bootst H.
Hypothesis Hfuel : (bh_slow < fuel)%nat.

(** The kernel file is on the disk from sector 1 on. *)
Definition on_disk (h : H) : Prop := forall n k, 1 <= n -> 0 <= k < 512 -> nthZ (bh_disk h n) k = nthZ data (512 * (n - 1) + k).

Lemma waitdisk_spec n : forall s, (bh_busy (bt_hw s) < n)%nat -> runs (waitdisk n) s (fun _ s' =>
  bt_mem s' = bt_mem s /\ bh_disk (bt_hw s') = bh_disk (bt_hw s) /\ bh_asked (bt_hw s') = bh_asked (bt_hw s) /\ bh_busy (bt_hw s') = 0%nat).
Proof.
  induction n as [|n IH]; intros s Hn; [lia|]. cbn [waitdisk]. apply runs_bind. unfold b_inb, bind, get, modify, ret, runs at 1.
  destruct (bh_status (bt_hw s)) as (E1 & E2 & E3). destruct (decide (bh_busy (bt_hw s) = 0%nat)) as [Hz|Hz].
  - destruct E3 as [E3 E4]. rewrite E3. cbn [Z.eqb Pos.eqb negb]. apply runs_ret. done.
  - destruct E3 as [E3 E4]. rewrite (proj2 (Z.eqb_neq _ _) E3). cbn [negb]. eapply runs_mono; [apply IH; cbn [bt_hw]; lia|].
    cbn [bt_mem bt_hw]. intros _ s' (A1 & A2 & A3 & A4). split_and!; congruence.
Qed.

Lemma ready s : runs (waitdisk fuel) s (fun _ s' =>
  bt_mem s' = bt_mem s /\ bh_disk (bt_hw s') = bh_disk (bt_hw s) /\ bh_asked (bt_hw s') = bh_asked (bt_hw s) /\ bh_busy (bt_hw s') = 0%nat).
Proof. apply waitdisk_spec. pose proof (bh_busy_le (bt_hw s)). lia. Qed.

Lemma readsect_spec dst n s : 0 <= n < 268435456 -> runs (readsect fuel dst n) s (fun _ s' =>
  bt_mem s' = fill dst (bh_disk (bt_hw s) n) (bt_mem s) /\ bh_disk (bt_hw s') = bh_disk (bt_hw s)).
Proof.
  intros Hn. unfold readsect. eapply runs_seq; [apply ready|]. intros _ s1 (M1 & D1 & _ & B1).
  unfold b_outb. do 6 (apply runs_bind, runs_modify). cbn [bt_mem bt_hw]. destruct (bh_command (bt_hw s1) n Hn B1) as [D2 A2].
  change (u8 1) with 1. change (u8 32) with 32. fold (read_command n (bt_hw s1)).
  eapply runs_seq; [apply ready|]. cbn [bt_mem bt_hw]. intros _ s3 (M3 & D3 & A3 & B3). rewrite A2 in A3. destruct (bh_data _ _ A3 B3) as [F4 D4].
  unfold b_insl. apply runs_modify. cbn [bt_mem bt_hw]. rewrite F4, D4, D3, D2, D1, M3, M1. done.
Qed.

(** The loop over the sectors. *)
Lemma readseg_loop_spec n : forall pa epa off s, on_disk (bt_hw s) -> 0 <= pa -> pa + 512 * Z.of_nat n < 4294967296 -> epa <= pa + 512 * Z.of_nat n -> 1 <= off -> off + Z.of_nat n < 268435456 ->
  runs (readseg_loop fuel n pa epa off) s (fun _ s' => on_disk (bt_hw s') /\
    (forall x, x < pa -> bt_mem s' x = bt_mem s x) /\ (forall x, pa <= x < epa -> bt_mem s' x = nthZ data (512 * (off - 1) + (x - pa)))).
Proof.
  induction n as [|n IH]; intros pa epa off s Hd Hpa Htop Hepa Hoff Hmax; cbn [readseg_loop].
  { apply runs_ret. split; [done|]. split; [done|]. intros x Hx. lia. }
  destruct (Z.ltb_spec pa epa) as [Hlt|Hge]; [|apply runs_ret; split; [done|]; split; [done|]; intros; lia].
  eapply runs_seq; [apply readsect_spec; lia|]. intros _ s1 (M1 & D1). unfold SECTSIZE. rewrite u32_id by lia.
  assert (Hd1 : on_disk (bt_hw s1)) by (intros k j Hk Hj; rewrite D1; by apply Hd).
  eapply runs_mono; [apply (IH (pa + 512) epa (off + 1) s1 Hd1); lia|]. cbv beta. intros _ s2 (Hd2 & Hlow & Hin). split; [done|]. split.
  - intros x Hx. rewrite Hlow by lia. rewrite M1. unfold fill, inside. change (Z.of_nat (Z.to_nat SECTSIZE)) with 512. destruct (Z.leb_spec pa x); [lia|done].
  - intros x Hx. destruct (decide (x < pa + 512)).
    + rewrite Hlow by lia. rewrite M1. unfold fill, inside. change (Z.of_nat (Z.to_nat SECTSIZE)) with 512.
      rewrite (proj2 (Z.leb_le pa x)), (proj2 (Z.ltb_lt x (pa + 512))) by lia. cbn [andb]. by rewrite Hd by lia.
    + rewrite Hin by lia. f_equal. lia.
Qed.

(** readseg puts the bytes of the file where they were asked for and writes
    nothing below the start of their first sector. *)
Lemma readseg_spec pa count off s : on_disk (bt_hw s) -> 0 <= off < 4294967296 -> 0 <= count -> 0 <= pa - off mod 512 -> pa + count + 512 < 4294967296 ->
  runs (readseg fuel pa count off) s (fun _ s' => on_disk (bt_hw s') /\
    (forall x, x < pa - off mod 512 -> bt_mem s' x = bt_mem s x) /\ (forall x, pa <= x < pa + count -> bt_mem s' x = nthZ data (off + (x - pa)))).
Proof.
  intros Hd Hoff Hc Hpa Htop. unfold readseg, SECTSIZE. pose proof (Z.mod_pos_bound off 512 ltac:(lia)) as Hm. rewrite !u32_id by lia.
  set (n := Z.to_nat _). assert (Hn : pa + count <= pa - off mod 512 + 512 * Z.of_nat n /\ 512 * Z.of_nat n < off mod 512 + count + 512).
  { unfold n. rewrite Z2Nat.id by (apply Z.div_pos; lia). pose proof (Z.div_mod (pa + count - (pa - off mod 512) + 512 - 1) 512 ltac:(lia)).
    pose proof (Z.mod_pos_bound (pa + count - (pa - off mod 512) + 512 - 1) 512 ltac:(lia)). lia. }
  pose proof (Z.div_mod off 512 ltac:(lia)) as Hdm. assert (0 <= off / 512 < 8388608) by (split; [apply Z.div_pos; lia|apply Z.div_lt_upper_bound; lia]).
  eapply runs_mono; [apply (readseg_loop_spec n (pa - off mod 512) (pa + count) (off / 512 + 1) s Hd); lia|].
  cbv beta. intros _ s' (Hd' & Hlow & Hin). split; [done|]. split; [done|]. intros x Hx. rewrite Hin by lia. f_equal. lia.
Qed.

Lemma stosb_zero m a n x : stosb m a 0 n x = if inside a n x then 0 else m x.
Proof. rewrite stosb_spec. by change (u8 0) with 0. Qed.

(** One program header. *)
Lemma segment_step j s : kernel_ok data -> on_disk (bt_hw s) -> scratch data (bt_mem s) -> 0 <= j < phnum data -> (forall i, 0 <= i < j -> loaded data (bt_mem s) i) ->
  runs (m <- gets bt_mem ;;
        readseg fuel (bph_paddr m (ph_at data j)) (bph_filesz m (ph_at data j)) (bph_off m (ph_at data j)) ;;;
        m' <- gets bt_mem ;;
        (if bph_memsz m' (ph_at data j) >? bph_filesz m' (ph_at data j) then
           modify (fun s => mkboot (stosb (bt_mem s) (bph_paddr m (ph_at data j) + bph_filesz m' (ph_at data j)) 0 (Z.to_nat (bph_memsz m' (ph_at data j) - bph_filesz m' (ph_at data j)))) (bt_hw s))
         else ret tt)) s
    (fun _ s' => on_disk (bt_hw s') /\ scratch data (bt_mem s') /\ forall i, 0 <= i < j + 1 -> loaded data (bt_mem s') i).
Proof.
  intros Hk Hd Hs Hj Hl. pose proof (ko_low data Hk j Hj) as Hlow. pose proof (ko_high data Hk j Hj) as Hhigh. pose proof (ko_size data Hk j Hj) as Hsz. pose proof (ko_page data Hk) as Hpg.
  pose proof (Z.mod_pos_bound (soff data j) 512 ltac:(lia)) as Hm.
  assert (Hph : ELF_AT <= ph_at data j /\ ph_at data j + 32 <= ELF_AT + 4096) by (unfold ph_at; pose proof (fmem_word data (ELF_AT + 28) Hk); lia).
  assert (Hf : forall m, scratch data m -> bph_paddr m (ph_at data j) = spa data j /\ bph_filesz m (ph_at data j) = sfilesz data j /\ bph_off m (ph_at data j) = soff data j /\ bph_memsz m (ph_at data j) = smemsz data j).
  { intros m Hsm. unfold bph_paddr, bph_filesz, bph_off, bph_memsz. split_and!; apply scratch_ld32; (done || lia). }
  apply runs_bind, runs_gets. destruct (Hf _ Hs) as (-> & -> & -> & _). pose proof (fmem_word data (ph_at data j + 4) Hk) as Ho. pose proof (fmem_word data (ph_at data j + 16) Hk) as Hfz.
  fold (bph_off (fmem data) (ph_at data j)) in Ho. fold (soff data j) in Ho. fold (bph_filesz (fmem data) (ph_at data j)) in Hfz. fold (sfilesz data j) in Hfz.
  eapply runs_seq; [apply readseg_spec; (done || unfold ELF_AT in *; lia)|]. intros _ s1 (Hd1 & Hb1 & Hi1).
  assert (Hs1 : scratch data (bt_mem s1)) by (intros x Hx; rewrite Hb1 by lia; by apply Hs). apply runs_bind, runs_gets. destruct (Hf _ Hs1) as (_ & -> & _ & ->).
  assert (Hold : forall m', (forall x, x < spa data j - soff data j mod 512 -> m' x = bt_mem s x) -> forall i, 0 <= i < j -> loaded data m' i).
  { intros m' Hm' i Hi k Hkk. pose proof (ko_order data Hk i j ltac:(lia) ltac:(lia)). rewrite Hm' by lia. by apply Hl. }
  rewrite Z.gtb_ltb. destruct (Z.ltb_spec (sfilesz data j) (smemsz data j)) as [Hz|Hz].
  - apply runs_modify. cbn [bt_mem bt_hw]. assert (Hbelow : forall x, x < spa data j + sfilesz data j -> stosb (bt_mem s1) (spa data j + sfilesz data j) 0 (Z.to_nat (smemsz data j - sfilesz data j)) x = bt_mem s1 x).
    { intros x Hx. rewrite stosb_zero. unfold inside. destruct (Z.leb_spec (spa data j + sfilesz data j) x); [lia|done]. }
    split; [done|]. split; [intros x Hx; rewrite Hbelow by lia; by apply Hs1|]. intros i Hi. destruct (decide (i = j)) as [->|].
    + intros k Hkk. destruct (Z.ltb_spec k (sfilesz data j)); [rewrite Hbelow, Hi1 by lia; f_equal; lia|].
      rewrite stosb_zero. unfold inside. rewrite Z2Nat.id by lia. rewrite (proj2 (Z.leb_le _ _)), (proj2 (Z.ltb_lt _ _)) by lia. done.
    + apply Hold; [|lia]. intros x Hx. rewrite Hbelow by lia. apply Hb1. lia.
  - apply runs_ret. split; [done|]. split; [done|]. intros i Hi. destruct (decide (i = j)) as [->|]; [|apply Hold; [exact Hb1|lia]].
    intros k Hkk. rewrite (proj2 (Z.ltb_lt k (sfilesz data j))) by lia. rewrite Hi1 by lia. f_equal. lia.
Qed.

Lemma boot_segments_spec n : forall j s, kernel_ok data -> on_disk (bt_hw s) -> scratch data (bt_mem s) -> 0 <= j -> j + Z.of_nat n = phnum data -> (forall i, 0 <= i < j -> loaded data (bt_mem s) i) ->
  runs (boot_segments fuel n (ph_at data j)) s (fun _ s' => scratch data (bt_mem s') /\ forall i, 0 <= i < phnum data -> loaded data (bt_mem s') i).
Proof.
  induction n as [|n IH]; intros j s Hk Hd Hs Hj Hn Hl; cbn [boot_segments].
  { apply runs_ret. split; [done|]. intros i Hi. apply Hl. lia. }
  pose proof (segment_step j s Hk Hd Hs ltac:(lia) Hl) as Hstep. apply runs_bind_inv in Hstep. unfold runs at 1, gets in Hstep. apply runs_bind_inv in Hstep.
  apply runs_bind, runs_gets. eapply runs_seq; [exact Hstep|]. cbv beta. intros _ s1 H1. apply runs_bind_inv in H1. unfold runs at 1, gets in H1.
  apply runs_bind, runs_gets. eapply runs_seq; [exact H1|]. cbv beta. intros _ s2 (Hd2 & Hs2 & Hl2).
  replace (ph_at data j + PROGHDR_SZ) with (ph_at data (j + 1)) by (unfold ph_at, PROGHDR_SZ; lia). apply IH; (done || lia).
Qed.
End Boot.


(** ** A disk with a small kernel *)

Module BootDemo.
Record drive := mkdrive { dr_data : list Z; dr_regs : Z -> Z; dr_asked : option Z }.

Definition named (r : Z -> Z) : Z := r 499 + 256 * r 500 + 65536 * r 501 + 16777216 * Z.land (r 502) 15.
#[export] Instance drive_hw : BootHw drive := {|
  bh_inb _ h := (64, h);
  bh_outb p v h := mkdrive (dr_data h) (fun x => if x =? p then v else dr_regs h x) (if p =? 503 then Some (named (dr_regs h)) else dr_asked h);
  bh_insl h := (match dr_asked h with Some n => slice (dr_data h ++ replicate 512 0) (Z.to_nat (512 * (n - 1))) 512 | None => [] end, h)
|}.

(** The sector of the registers is the one the loader wrote there. *)
Lemma named_sector n : 0 <= n < 268435456 -> u8 n + 256 * u8 (Z.shiftr n 8) + 65536 * u8 (Z.shiftr n 16) + 16777216 * Z.land (u8 (Z.lor (Z.shiftr n 24) 224)) 15 = n.
Proof.
  intros Hn. rewrite !Z.shiftr_div_pow2 by lia. change (2 ^ 8) with 256. change (2 ^ 16) with (256 * 256). change (2 ^ 24) with (256 * 256 * 256).
  rewrite <- !Z.div_div by lia. set (a := n / 256). set (b := a / 256). set (c := b / 256).
  pose proof (Z.div_mod n 256 ltac:(lia)) as E1. pose proof (Z.div_mod a 256 ltac:(lia)) as E2. pose proof (Z.div_mod b 256 ltac:(lia)) as E3. fold a in E1. fold b in E2. fold c in E3.
  pose proof (Z.mod_pos_bound n 256 ltac:(lia)). pose proof (Z.mod_pos_bound a 256 ltac:(lia)). pose proof (Z.mod_pos_bound b 256 ltac:(lia)). assert (Hc : 0 <= c < 16) by lia.
  assert (Hq : forallb (fun k => Z.land (u8 (Z.lor (Z.of_nat k) 224)) 15 =? Z.of_nat k) (seq 0 16) = true) by (by vm_compute).
  rewrite forallb_forall in Hq. specialize (Hq (Z.to_nat c) ltac:(apply in_seq; lia)). rewrite Z2Nat.id in Hq by lia. apply Z.eqb_eq in Hq. rewrite Hq. unfold u8. lia.
Qed.

#[export] Instance drive_ok : BootHwOk drive drive_hw.
Proof.
  refine {| bh_disk h n := slice (dr_data h ++ replicate 512 0) (Z.to_nat (512 * (n - 1))) 512; bh_busy _ := 0%nat; bh_slow := 0%nat; bh_asked := dr_asked |}.
  - lia.
  - intros h. done.
  - intros h n Hn _. split; [done|]. cbn [read_command bh_outb drive_hw dr_asked Z.eqb Pos.eqb]. f_equal. exact (named_sector n Hn).
  - intros h n Ha _. cbn [bh_insl drive_hw fst snd]. by rewrite Ha.
Defined.

Definition kernel : list Z :=
  [127; 69; 76; 70] ++ replicate 20 0 ++ [12; 0; 16; 0] ++ [52; 0; 0; 0] ++ replicate 12 0 ++ [1; 0] ++ replicate 6 0 ++
  [1; 0; 0; 0] ++ [84; 0; 0; 0] ++ [0; 0; 0; 0] ++ [84; 0; 16; 0] ++ [3; 0; 0; 0] ++ [5; 0; 0; 0] ++ replicate 8 0 ++ [7; 8; 9].

Lemma kernel_is_ok : kernel_ok kernel.
Proof.
  assert (Hi : forall i, 0 <= i < phnum kernel -> i = 0) by (intros i Hi; change (phnum kernel) with 1 in Hi; lia). split.
  - apply (bool_decide_unpack _). by vm_compute.
  - by vm_compute.
  - by vm_compute.
  - intros i ->%Hi. by vm_compute.
  - intros i ->%Hi. by vm_compute.
  - intros i ->%Hi. by vm_compute.
  - intros i j Hij Hj. assert (j = 0) by (apply Hi; lia). lia.
Qed.

Lemma kernel_on_disk r a : on_disk kernel (mkdrive kernel r a).
Proof.
  intros n k Hn Hk. cbn [bh_disk drive_ok dr_data]. rewrite nthZ_slice by lia. unfold nthZ. set (j := Z.to_nat _). destruct (decide (j < length kernel)%nat).
  - by rewrite app_nth1.
  - rewrite app_nth2, (nth_overflow kernel) by lia. rewrite nth_lookup. destruct (_ !! _) eqn:E; [|done]. by apply lookup_replicate_1 in E as [-> _].
Qed.

End BootDemo.
