(* ===== verification/SysprocSpec.v ===== *)
(** * sbrk

    sys_sbrk over growproc and the page tables: what the process sees and what
    it is told, for every argument. *)

From S2P Require Import Prelude.
From S2P Require Import Params.
From S2P Require Import Cstr.
From S2P Require Import Mmu.
From S2P Require Import Kalloc.
From S2P Require Import Vm.
From S2P Require Import VmSpec.
From S2P Require Import Uspace.
From S2P Require Import UspaceAlloc.
From S2P Require Import UspaceGrow.
From S2P Require Import UspaceDemo.
From S2P Require Import Syscall.
From S2P Require Import Spinlock.
From S2P Require Import Proc.
From S2P Require Import Sysproc.
From S2P Require Import ExecImage.

(** The lower layer of proc.c when its memory is that of vm.c. *)
Class VmLow (K : Type) {L : ProcLow K} (kend : Z) := {
  vm_mem : K -> kmem;
  vm_set : kmem -> K -> K;
  vm_get_set : forall m k, vm_mem (vm_set m k) = m;
  vm_alloc : forall d a b k, l_allocuvm d a b k = lift vm_mem vm_set (allocuvm kend d a b) k;
  vm_dealloc : forall d a b k, l_deallocuvm d a b k = lift vm_mem vm_set (deallocuvm kend d a b) k;
  vm_switch : forall d ks k, d <> 0 -> runs (l_switchuvm d ks) k (fun _ k' => vm_mem k' = vm_mem k)
}.

(** sbrk(n) of a process of size [sz] whose bytes were [old]: the value
    returned, the size and the bytes after. *)
Definition sbrk_post (n sz : Z) (old new : Z -> option Z) (r sz' : Z) : Prop :=
  if sz + n <? 0 then r = sz /\ sz' = sz /\ forall va, new va = old va
  else if sz + n >=? KERNBASE then r = -1 /\ sz' = sz /\ forall va, new va = old va
  else if (n <? 0) && (sz + n =? 0) then r = -1 /\ sz' = sz /\ forall va, 0 <= va -> new va = None
  else r = sz /\ sz' = sz + n /\ forall va, 0 <= va ->
    new va = if decide (va < 4096 * ceil (sz + n)) then if decide (va < 4096 * ceil sz) then old va else Some 0 else None.

Section Sbrk.
Context {K : Type} {L : ProcLow K} (kend : Z) {V : VmLow K kend} (umem : K -> Z -> mem).
Hypothesis Hend : KERNBASE < kend.
Implicit Types s : tstate K.

Definition smem s : kmem := vm_mem (low (ts_ps s)).

Lemma runs_alloc d a b k Q : runs (allocuvm kend d a b) (vm_mem k) (fun r m => Q r (vm_set m k)) -> runs (l_allocuvm d a b) k Q.
Proof. intros H. unfold runs. rewrite vm_alloc. by apply runs_lift. Qed.
Lemma runs_dealloc d a b k Q : runs (deallocuvm kend d a b) (vm_mem k) (fun r m => Q r (vm_set m k)) -> runs (l_deallocuvm d a b) k Q.
Proof. intros H. unfold runs. rewrite vm_dealloc. by apply runs_lift. Qed.

(** What is left of growproc once the size is known. *)
Lemma grow_end me (y : pstate K) (x : proc) sz' : (me < length (ptab y))%nat -> p_pgdir x <> 0 ->
  runs (modify (upd me (set_vm sz' (p_pgdir x))) ;;; switch_to x ;;; ret 0) y
    (fun r y' => r = 0 /\ vm_mem (low y') = vm_mem (low y) /\ getp y' me = set_vm sz' (p_pgdir x) (getp y me)).
Proof.
  intros Hme Hd. apply runs_bind, runs_modify, runs_bind. unfold switch_to. rewrite (proj2 (Z.eqb_neq _ _) Hd). apply runs_lift. cbn [low upd].
  eapply runs_mono; [by apply vm_switch|]. cbv beta. intros [] k' Ek. apply runs_ret. split_and!; [done|done|].
  unfold getp. cbn [set_low upd ptab]. by rewrite nth_alter_eq.
Qed.

(** The call of growproc on the memory. *)
Definition grow_mem (n d sz : Z) : M kmem Z :=
  if n >? 0 then allocuvm kend d sz (u32 (sz + n)) else if n <? 0 then deallocuvm kend d sz (u32 (sz + n)) else ret sz.

(** It gives the size, 0 for what growproc takes for a failure. *)
Definition grow_post (n sz : Z) (old new : Z -> option Z) (r : Z) : Prop :=
  if sz + n <? 0 then r = sz /\ forall va, new va = old va
  else if sz + n >=? KERNBASE then r = 0 /\ forall va, new va = old va
  else r = sz + n /\ forall va, 0 <= va ->
    new va = if decide (va < 4096 * ceil (sz + n)) then if decide (va < 4096 * ceil sz) then old va else Some 0 else None.

Lemma bytes_upto m um n va : pages_upto um 0 n -> 4096 * n <= va -> 0 <= va -> ubyte m um va = None.
Proof.
  intros Hn Hva H0. unfold ubyte. replace (um !! (va / 4096)) with (None : option (Z * Z)); [done|]. symmetry. apply eq_None_not_Some.
  rewrite (Hn (va / 4096)); [|apply Z.div_pos; lia]. apply Z.le_ngt, Z.div_le_lower_bound; lia.
Qed.

Lemma grow_mem_spec n d sz m l T um : uspace kend m l d T um -> pages_upto um 0 (ceil sz) -> 0 < sz < KERNBASE -> -2147483648 <= n < 2147483648 ->
  2 * (ceil (sz + n) - ceil sz) <= Z.of_nat (length l) ->
  runs (grow_mem n d sz) m (fun r m' => exists l' T' um', uspace kend m' l' d T' um' /\ grow_post n sz (ubyte (km m) um) (ubyte (km m') um') r).
Proof.
  intros Hu Hp Hsz Hn Hfree. pose proof (ceil_bounds sz) as Hcs. pose proof (ceil_bounds (sz + n)) as Hcn. unfold grow_mem, grow_post, KERNBASE in *.
  destruct (Z.gtb_spec n 0) as [Hpos|Hneg]; [|destruct (Z.ltb_spec n 0) as [Hlt|Hge]].
  - rewrite (proj2 (Z.ltb_ge (sz + n) 0)) by lia. rewrite u32_id by lia. destruct (Z.geb_spec (sz + n) 2147483648) as [Hbig|Hsmall].
    + unfold allocuvm, KERNBASE. rewrite (proj2 (Z.geb_le _ _)) by lia. apply runs_ret. by exists l, T, um.
    + assert (Hnone : forall j, ceil sz <= j -> um !! j = None).
      { intros j Hj. apply eq_None_not_Some. rewrite (Hp j) by lia. lia. }
      eapply runs_mono; [apply (allocuvm_spec kend Hend m l d T um sz (sz + n) Hu); [lia|unfold KERNBASE; lia|done|done]|].
      cbv beta zeta. fold (ceil sz) (ceil (sz + n)). intros r m' (-> & um' & Hg). assert (Hg' := Hg). destruct Hg' as [(l' & T' & Hu' & _) G2 G3 _ _].
      exists l', T', um'. split; [done|]. split; [done|]. intros va Hva. case_decide as H1.
      * by rewrite (grown_bytes kend Hend m m' d T um um' l (ceil sz) (ceil (sz + n)) va Hu Hg).
      * apply (bytes_upto _ um' (ceil (sz + n))); [|lia|lia]. intros j Hj. destruct (decide (ceil sz <= j < ceil (sz + n))) as [Hr|Hr].
        { destruct (G3 j Hr) as (v & -> & _). split; [lia|by eexists]. }
        rewrite G2, (Hp j Hj) by lia. pose proof (ceil_mono sz (sz + n)). lia.
  - destruct (Z.ltb_spec (sz + n) 0) as [Hwrap|Hok].
    + assert (Eu : u32 (sz + n) = sz + n + 4294967296) by (unfold u32; symmetry; apply (Z.mod_unique_pos _ _ (-1)); lia). rewrite Eu.
      unfold deallocuvm. rewrite (proj2 (Z.geb_le _ _)) by lia. apply runs_ret. by exists l, T, um.
    + rewrite Z.geb_leb, (proj2 (Z.leb_gt _ _)) by lia. rewrite u32_id by lia. assert (Hc : ceil (sz + n) <= ceil sz) by (apply ceil_mono; lia).
      assert (Hp' : pages_upto um (ceil (sz + n)) (ceil sz)) by (intros j Hj; apply Hp; assert (0 <= ceil (sz + n)) by (apply Z.div_pos; lia); lia).
      eapply runs_mono; [apply (deallocuvm_spec kend Hend m l d T um (ceil sz) sz (sz + n) Hu); [lia|unfold KERNBASE; lia|done|done|left; lia]|].
      cbv beta zeta. fold (ceil (sz + n)). intros r m' (-> & l' & Hr). exists l', T, (below (ceil (sz + n)) um). split; [apply Hr|]. split; [done|].
      intros va Hva. rewrite (released_bytes kend Hend m m' d T um l l' (ceil (sz + n)) (ceil sz) va Hu Hr). case_decide; [|done]. by rewrite decide_True by lia.
  - assert (n = 0) as -> by lia. rewrite Z.add_0_r. rewrite (proj2 (Z.ltb_ge sz 0)) by lia. rewrite Z.geb_leb, (proj2 (Z.leb_gt _ _)) by lia. apply runs_ret. exists l, T, um.
    split; [done|]. split; [done|]. intros va Hva. case_decide; [done|]. apply (bytes_upto _ um (ceil sz)); [done|lia|lia].
Qed.
End Sbrk.


Module SbrkDemo.
Import UspaceDemo.

(** proc.c on the memory of vm.c alone. *)
#[local] Instance vm_only : ProcLow kmem := {
  l_kalloc := kalloc; l_kfree := kfree dend; l_setupkvm := setupkvm ddata; l_inituvm _ := ret tt; l_copyuvm d sz := copyuvm dend ddata d sz;
  l_freevm := freevm dend; l_allocuvm := allocuvm dend; l_deallocuvm := deallocuvm dend; l_switchuvm _ _ := ret tt;
  l_filedup f := ret f; l_fileclose _ := ret tt; l_idup ip := ret ip; l_begin_op := ret tt; l_iput _ := ret tt;
  l_end_op := ret tt; l_namei _ := ret (Some 0%nat); l_fsinit := ret tt; l_mem m := km m
}.

Lemma lift_id {A} (m : M kmem A) s : m s = lift id (fun k _ => k) m s.
Proof. unfold lift, id. by destruct (m s). Qed.

#[local] Program Instance vm_only_ok : VmLow kmem dend := {| vm_mem := id; vm_set := fun k _ => k |}.
Next Obligation. done. Qed.
Next Obligation. intros. apply lift_id. Qed.
Next Obligation. intros. apply lift_id. Qed.
Next Obligation. done. Qed.

(** A process of two pages that asks for 4096 bytes more. *)
Definition stk (a : Z) : Z := if a =? 105 then 16 else 0.
Definition asks (d : Z) (m : kmem) : tstate kmem :=
  mkts (mkps [set_tf (mktf 0 0 0 0 0 0 0 0 0 0 0 0 0 0 0 0 0 100 0) (set_vm 8192 d noproc)] 2 None 0 false [] m) 0 [] 0 [].

End SbrkDemo.
