(* ===== verification/Xvsh.v ===== *)
(** * The xvsh shell (xvsh.c)

    strtok on the line buffer, with pointers as offsets into it; the split of
    a line into the token array; and the process each command runs in, as
    system calls. *)

From S2P Require Import Prelude.
From S2P Require Import Params.
From S2P Require Import User.
From S2P Require Import Printf.

(** ** strtok *)

Definition is_delim (delim : list Z) (c : Z) : bool := existsb (Z.eqb c) delim.

(** [cont:], the leading delimiters. *)
Fixpoint skip_delim (fuel : nat) (buf delim : list Z) (s : nat) : option nat :=
  match fuel with
  | O => None
  | S f => if is_delim delim (nth s buf 0) then skip_delim f buf delim (S s) else Some s
  end.

(** The scan for the end of the token. *)
Fixpoint scan_token (fuel : nat) (buf delim : list Z) (s : nat) : option nat :=
  match fuel with
  | O => None
  | S f => if (nth s buf 0 =? 0) || is_delim delim (nth s buf 0) then Some s else scan_token f buf delim (S s)
  end.

(** The token, the static [last] and the buffer after the call; [None] if a
    scan runs off the buffer. *)
Definition strtok (buf delim : list Z) (last s : option nat) : option (option nat * option nat * list Z) :=
  match (match s with Some _ => s | None => last end) with
  | None => Some (None, None, buf)
  | Some s0 =>
      p ← skip_delim (S (length buf)) buf delim s0;
      if nth p buf 0 =? 0 then Some (None, None, buf)
      else
        e ← scan_token (S (length buf)) buf delim (S p);
        if nth e buf 0 =? 0 then Some (Some p, None, buf)
        else Some (Some p, Some (S e), <[e := 0]> buf)
  end.

(** ** The token array *)

Definition space : list Z := [32].

(** [while(i) if(buf[i--] == ' ') num_tok++;] *)
Definition count_tok (buf : list Z) (len : nat) : Z :=
  1 + Z.of_nat (length (List.filter (Z.eqb 32) (take (len - 1) (drop 1 buf)))).

(** The string a pointer into the buffer points to. *)
Fixpoint until_nul (l : list Z) : list Z :=
  match l with
  | [] => []
  | c :: l' => if c =? 0 then [] else c :: until_nul l'
  end.
Definition str_at (buf : list Z) (p : nat) : list Z := until_nul (drop p buf).

Record flags := mkflags { bg : Z; pip : bool; red : bool; pip_pos : nat; red_pos : nat }.
Definition no_flags : flags := mkflags 0 false false 0 0.

(** The switch on the first byte of a token. *)
Definition special (c : Z) : bool := (c =? 38) || (c =? 124) || (c =? 62).
Definition note_token (i : nat) (c : Z) (f : flags) : flags :=
  if c =? 38 then mkflags (Z.of_nat i) (pip f) (red f) (pip_pos f) (red_pos f)
  else if c =? 124 then mkflags (bg f) true (red f) (S i) (red_pos f)
  else if c =? 62 then mkflags (bg f) (pip f) true (pip_pos f) (S i)
  else f.

(** The tokens after the first: pointers, with NULL for the special ones. *)
Fixpoint more_tokens (fuel : nat) (buf : list Z) (last : option nat) (i : nat) (f : flags) :
  option (list (option nat) * flags * list Z) :=
  match fuel with
  | O => None
  | S n =>
      r ← strtok buf space last None;
      match r with
      | (None, _, b) => Some ([], f, b)
      | (Some p, last', b) =>
          let c := nth p b 0 in
          q ← more_tokens n b last' (S i) (note_token i c f);
          match q with
          | (ts, f', b') => Some ((if special c then None else Some p) :: ts, f', b')
          end
      end
  end.

Definition split_line (buf : list Z) : option (option nat * list (option nat) * flags * list Z) :=
  r ← strtok buf space None (Some 0%nat);
  match r with
  | (t0, last, b) =>
      q ← more_tokens (S (length buf)) b last 1 no_flags;
      match q with (ts, f, b') => Some (t0, ts, f, b') end
  end.

(** An argv: the strings up to the first NULL. *)
Fixpoint argv_of (ts : list (option (list Z))) : list (list Z) :=
  match ts with
  | Some a :: ts' => a :: argv_of ts'
  | _ => []
  end.

Section Xvsh.
Context {W : Type} {OS : Os W}.
(** malloc and free of umalloc.c; the pointer malloc returns is tested for
    NULL only. *)
Context (malloc : Z -> U W bool) (free : U W unit).

(** A NULL path: what exec reads then is not determined by this program. *)
Definition exec_tok (path : option (list Z)) (ts : list (option (list Z))) : U W Z :=
  match path with Some p => exec_ p (argv_of ts) | None => ustuck end.

Definition exit_check (t0 : list Z) : bool := bool_decide (t0 = str "exit").

Definition process_pipe (ts : list (option (list Z))) (pip_pos : nat) : U W unit :=
  r <-- pipe_ ;;
  if fst r =? -1 then exit_
  else
    let fd0 := nth 0 (snd r) 0 in
    let fd1 := nth 1 (snd r) 0 in
    pid1 <-- fork_ ;;
    if pid1 <? 0 then exit_
    else
      (if pid1 =? 0 then
         close_ 1 ;;- dup_ fd1 ;;- close_ fd0 ;;-
         e <-- exec_tok (nth 0 ts None) ts ;;
         if negb (e =? 0) then exit_ else uret tt
       else uret tt) ;;-
      pid2 <-- fork_ ;;
      if pid2 <? 0 then exit_
      else
        (if pid2 =? 0 then
           close_ 0 ;;- dup_ fd0 ;;- close_ fd1 ;;-
           e <-- exec_tok (nth pip_pos ts None) ts ;;
           if negb (e =? 0) then exit_ else uret tt
         else uret tt) ;;-
        close_ fd0 ;;- close_ fd1 ;;- wait_ ;;- wait_ ;;- uret tt.

Definition process_normal (ts : list (option (list Z))) (bg : Z) : U W unit :=
  pid <-- fork_ ;;
  (if pid =? 0 then
     e <-- exec_tok (nth 0 ts None) ts ;;
     if e <? 0 then printf 1 "Cannot run this command: %s
" [AStr (nth 0 ts None)] ;;- exit_ else uret tt
   else uret tt) ;;-
  if bg =? 0 then (if pid >? 0 then wait_ ;;- uret tt else uret tt) else uret tt.

Definition process_redirect (ts : list (option (list Z))) (red_pos : nat) : U W unit :=
  rc <-- fork_ ;;
  if rc <? 0 then exit_
  else if rc =? 0 then
    close_ 1 ;;-
    match nth red_pos ts None with
    | Some file => open_ file (Z.lor O_CREATE O_WRONLY) ;;- exec_tok (nth 0 ts None) ts ;;- uret tt
    | None => ustuck
    end
  else wait_ ;;- uret tt.

(** [while(wait() > 0)] *)
Definition wait_all (fuel : nat) : U W unit :=
  uloop fuel (fun _ => r <-- wait_ ;; uret (if r >? 0 then inl tt else inr tt)) tt.

(** What is done with the tokens. *)
Definition dispatch (fuel : nat) (ts : list (option (list Z))) (f : flags) : U W unit :=
  match ts with
  | Some t0 :: _ =>
      if exit_check t0 then wait_all fuel ;;- exit_
      else if pip f then process_pipe ts (pip_pos f) ;;- free
      else if red f then process_redirect ts (red_pos f) ;;- free
      else process_normal ts (bg f) ;;- free
  | _ => ustuck
  end.

Definition process_one_cmd (fuel : nat) (buf : list Z) : U W unit :=
  let len := length (until_nul buf) in
  if (len =? 0)%nat then ustuck
  else
    ok <-- malloc ((count_tok buf len + 1) * 4) ;;
    if ok : bool then
      match split_line buf with
      | Some (t0, ts, f, b) => dispatch fuel (map (fmap (str_at b)) (t0 :: ts)) f
      | None => ustuck
      end
    else printf 1 "malloc failed
" [] ;;- exit_.

Definition MAXLINE : nat := 256.

(** One turn of the loop of main; the buffer is not cleared before the first
    read nor after a line of one byte. *)
Definition xvsh_body (fuel : nat) (buf : list Z) : U W (list Z + unit) :=
  r <-- read_ 0 (Z.of_nat MAXLINE) ;;
  let n := fst r in
  let buf1 := splice buf 0 (take (Z.to_nat n) (snd r)) in
  if n =? 0 then uret (inr tt)
  else if n =? 1 then printf 1 "xvsh> " [] ;;- uret (inl buf1)
  else
    let len := length (until_nul buf1) in
    if (len =? 0)%nat || (MAXLINE <=? len)%nat then ustuck
    else
      process_one_cmd fuel (<[(len - 1)%nat := 0]> buf1) ;;-
      printf 1 "xvsh> " [] ;;-
      uret (inl (replicate MAXLINE 0)).

Definition xvsh_main (fuel : nat) (buf0 : list Z) : U W unit :=
  printf 1 "xvsh> " [] ;;- uloop fuel (xvsh_body fuel) buf0 ;;- exit_.
End Xvsh.
