(* ===== verification/XvshSpec.v ===== *)
(** * What xvsh does with a line (xvsh.c)

    The pointer-level tokenizer yields the words of the line; from that, what
    each form of command runs, and where that differs from what a shell is
    meant to do. *)

From S2P Require Import Prelude.
From S2P Require Import Params.
From S2P Require Import Sysfile.
From S2P Require Import User.
From S2P Require Import Printf.
From S2P Require Import Xvsh.

(** ** Words *)

Fixpoint words_acc (acc l : list Z) : list (list Z) :=
  match l with
  | [] => if bool_decide (acc = []) then [] else [acc]
  | c :: l' =>
      if c =? 32 then (if bool_decide (acc = []) then [] else [acc]) ++ words_acc [] l'
      else words_acc (acc ++ [c]) l'
  end.
Definition words (l : list Z) : list (list Z) := words_acc [] l.

Definition no_nul (l : list Z) : Prop := Forall (fun c => c <> 0) l.
Definition word (w : list Z) : Prop := w <> [] /\ Forall (fun c => c <> 0 /\ c <> 32) w.

(** A word with its special first byte makes a NULL in the token array. *)
Definition mark (w : list Z) : option (list Z) := if special (nth 0 w 0) then None else Some w.
Fixpoint note_words (i : nat) (ws : list (list Z)) (f : flags) : flags :=
  match ws with
  | [] => f
  | w :: ws' => note_words (S i) ws' (note_token i (nth 0 w 0) f)
  end.

Lemma words_acc_word acc w l : Forall (fun c => c <> 0 /\ c <> 32) w -> words_acc acc (w ++ l) = words_acc (acc ++ w) l.
Proof.
  intros Hw. revert acc. induction Hw as [|c w [_ Hc] Hw IH]; intros acc; [by rewrite app_nil_r|].
  cbn [words_acc app]. rewrite (proj2 (Z.eqb_neq c 32)) by done. rewrite IH, <- app_assoc. done.
Qed.

Lemma words_spaces n l : words (replicate n 32 ++ l) = words l.
Proof. unfold words. induction n as [|n IH]; [done|]. cbn [replicate app words_acc]. rewrite Z.eqb_refl. by rewrite bool_decide_true. Qed.

Lemma words_last w : word w -> words w = [w].
Proof.
  intros [Hn Hw]. unfold words. rewrite <- (app_nil_r w) at 1. rewrite words_acc_word by done. cbn. by rewrite bool_decide_false.
Qed.

Lemma words_cons w l : word w -> words (w ++ 32 :: l) = w :: words l.
Proof.
  intros [Hn Hw]. unfold words. rewrite words_acc_word by done. cbn [words_acc app]. rewrite Z.eqb_refl. by rewrite bool_decide_false.
Qed.

(** A line is spaces, or spaces, a word and the end or a space. *)
Lemma line_cases l : no_nul l -> exists n, l = replicate n 32 \/
  exists w, word w /\ (l = replicate n 32 ++ w \/ exists l', l = replicate n 32 ++ w ++ 32 :: l').
Proof.
  induction 1 as [|c l Hc Hl (n & IH)]; [exists 0%nat; by left|]. destruct (decide (c = 32)) as [->|Hs].
  - exists (S n). destruct IH as [-> |(w & Hw & [-> |(l' & ->)])]; [by left|right; exists w; eauto..].
  - exists 0%nat. right. cbn [replicate app]. destruct IH as [-> |(w & Hw & IH)].
    + exists [c]. split; [split; [done|by repeat constructor]|]. destruct n as [|n]; [by left|right; by exists (replicate n 32)].
    + destruct n as [|n]; cbn [replicate app] in IH.
      * exists (c :: w). split; [split; [done|by constructor; [|apply Hw]]|]. destruct IH as [-> |(l' & ->)]; [by left|right; eauto].
      * exists [c]. split; [split; [done|by repeat constructor]|]. right. destruct IH as [-> |(l' & ->)]; eauto.
Qed.

(** ** strtok *)

Lemma nth_at {A} (pre l : list A) x d : nth (length pre) (pre ++ x :: l) d = x.
Proof. by rewrite app_nth2, Nat.sub_diag by lia. Qed.

Lemma skip_spaces n k pre l : (k < n)%nat -> is_delim space (nth 0 l 0) = false ->
  skip_delim n (pre ++ replicate k 32 ++ l) space (length pre) = Some (length pre + k)%nat.
Proof.
  revert k pre. induction n as [|n IH]; intros k pre Hk Hl; [lia|]. cbn [skip_delim]. destruct k as [|k]; cbn [replicate app].
  - rewrite app_nth2, Nat.sub_diag, Hl by lia. f_equal. lia.
  - rewrite nth_at. change (is_delim space 32) with true. cbv iota.
    specialize (IH k (pre ++ [32])). rewrite length_app, <- app_assoc in IH. cbn [length app] in IH.
    replace (S (length pre)) with (length pre + 1)%nat by lia. rewrite IH by (try done; lia). f_equal. lia.
Qed.

Lemma scan_word n w pre c l : (length w < n)%nat -> Forall (fun c => c <> 0 /\ c <> 32) w -> c = 0 \/ c = 32 ->
  scan_token n (pre ++ w ++ c :: l) space (length pre) = Some (length pre + length w)%nat.
Proof.
  intros Hn Hw Hc. revert n pre Hn. induction Hw as [|x w [Hx0 Hx] Hw IH]; intros n pre Hn; (destruct n as [|n]; [lia|]); cbn [scan_token app length].
  - rewrite nth_at. assert (E : (c =? 0) || is_delim space c = true) by (destruct Hc as [-> | ->]; done). rewrite E. f_equal. lia.
  - rewrite nth_at, (proj2 (Z.eqb_neq x 0)) by done. cbn [is_delim space existsb orb]. rewrite (proj2 (Z.eqb_neq x 32)) by done. cbn [orb].
    specialize (IH n (pre ++ [x])). rewrite length_app, <- app_assoc in IH. cbn [length app] in IH, Hn.
    replace (S (length pre)) with (length pre + 1)%nat by lia. rewrite IH by lia. f_equal. lia.
Qed.

Lemma word_head w : word w -> exists x w', w = x :: w' /\ x <> 0 /\ x <> 32 /\ Forall (fun c => c <> 0 /\ c <> 32) w'.
Proof. intros [Hn Hw]. destruct Hw as [|x w [? ?] ?]; [done|]. eauto 10. Qed.

(** strtok where only spaces are left. *)
Lemma strtok_none pre n junk s last : (match s with Some _ => s | None => last end) = Some (length pre) ->
  strtok (pre ++ replicate n 32 ++ 0 :: junk) space last s = Some (None, None, pre ++ replicate n 32 ++ 0 :: junk).
Proof.
  intros E. unfold strtok. rewrite E. rewrite skip_spaces by (try done; rewrite !length_app, length_replicate; cbn; lia). cbn [mbind option_bind].
  assert (En : nth (length pre + n) (pre ++ replicate n 32 ++ 0 :: junk) 0 = 0).
  { pose proof (nth_at (pre ++ replicate n 32) junk 0 0) as H. rewrite length_app, length_replicate, <- app_assoc in H. exact H. }
  by rewrite En.
Qed.

(** strtok where a word is next: the byte after it becomes NUL. *)
Lemma strtok_word pre n w c rest s last : (match s with Some _ => s | None => last end) = Some (length pre) -> word w -> c = 0 \/ c = 32 ->
  strtok (pre ++ replicate n 32 ++ w ++ c :: rest) space last s =
  Some (Some (length pre + n)%nat, if c =? 0 then None else Some (length pre + n + length w + 1)%nat, pre ++ replicate n 32 ++ w ++ 0 :: rest).
Proof.
  intros E Hw Hc. unfold strtok. rewrite E. destruct (word_head w Hw) as (x & w' & -> & Hx0 & Hx & Hw').
  rewrite skip_spaces; [|rewrite !length_app, length_replicate; cbn; lia|cbn; by rewrite (proj2 (Z.eqb_neq x 32))]. cbn [mbind option_bind].
  set (q := pre ++ replicate n 32). assert (Hq : length q = (length pre + n)%nat) by (unfold q; by rewrite length_app, length_replicate).
  rewrite !(app_assoc pre). fold q. rewrite <- Hq. cbn [app]. rewrite nth_at, (proj2 (Z.eqb_neq x 0)) by done.
  pose proof (scan_word (S (length (q ++ x :: w' ++ c :: rest))) w' (q ++ [x]) c rest) as Hs.
  rewrite (length_app q [x]), <- app_assoc in Hs. cbn [length app] in Hs. replace (S (length q)) with (length q + 1)%nat by lia.
  rewrite Hs by (try done; rewrite !length_app; cbn [length]; rewrite !length_app; cbn; lia). cbn [mbind option_bind].
  assert (Hn : forall y, nth (length q + 1 + length w') (q ++ x :: w' ++ y :: rest) 0 = y).
  { intros y. pose proof (nth_at (q ++ x :: w') rest y 0) as H. rewrite length_app, <- app_assoc in H. cbn [length app] in H.
    by replace (length q + 1 + length w')%nat with (length q + S (length w'))%nat by lia. }
  rewrite Hn. destruct (c =? 0) eqn:Ec; [apply Z.eqb_eq in Ec; subst; done|]. f_equal. f_equal; [f_equal; f_equal; cbn [length]; lia|].
  replace (length q + 1 + length w')%nat with (length (q ++ x :: w') + 0)%nat by (rewrite length_app; cbn [length]; lia).
  change (q ++ x :: w' ++ c :: rest) with (q ++ (x :: w') ++ c :: rest). rewrite app_assoc, insert_app_r. cbn. by rewrite <- app_assoc.
Qed.

(** ** The token array *)

Lemma str_at_word b p w r : drop p b = w ++ 0 :: r -> no_nul w -> str_at b p = w.
Proof. unfold str_at. intros -> Hw. induction Hw as [|c w Hc Hw IH]; [done|]. cbn [until_nul app]. rewrite (proj2 (Z.eqb_neq c 0)), IH by done. done. Qed.

Lemma word_no_nul w : word w -> no_nul w.
Proof. intros [_ H]. eapply Forall_impl; [exact H|]. by intros c [? _]. Qed.

(** The token at the end of [q] in a buffer that starts with it. *)
Lemma token_at q w b : word w -> take (length (q ++ w ++ [0])) b = q ++ w ++ [0] ->
  str_at b (length q) = w /\ nth (length q) b 0 = nth 0 w 0.
Proof.
  intros Hw Hb. rewrite <- (take_drop (length (q ++ w ++ [0])) b), Hb, <- !app_assoc. cbn [app]. split.
  - eapply str_at_word; [by apply drop_app_length|by apply word_no_nul].
  - destruct (word_head w Hw) as (x & w' & -> & _). cbn [app]. by rewrite nth_at.
Qed.

Lemma take_prefix (q r b : list Z) : take (length (q ++ r)) b = q ++ r -> take (length q) b = q.
Proof.
  intros H. assert (E : take (length q) (take (length (q ++ r)) b) = q) by (rewrite H; apply take_app_length).
  rewrite take_take, length_app, Nat.min_l in E by lia. done.
Qed.

(** The tokens of the rest of the line, and the array entries for them. *)
Lemma more_tokens_spec n l pre junk i f : (length l < n)%nat -> no_nul l ->
  exists ts b, more_tokens n (pre ++ l ++ 0 :: junk) (Some (length pre)) i f = Some (ts, note_words i (words l) f, b) /\
    take (length pre) b = pre /\ map (fmap (str_at b)) ts = map mark (words l).
Proof.
  revert l pre i f. induction n as [|n IH]; intros l pre i f Hn Hl; [lia|]. cbn [more_tokens].
  destruct (line_cases l Hl) as (k & [-> |(w & Hw & [-> |(l' & ->)])]).
  - rewrite strtok_none by done. cbn [mbind option_bind]. rewrite <- (app_nil_r (replicate k 32)), words_spaces.
    eexists [], _. split; [done|]. by rewrite take_app_length.
  - rewrite <- !app_assoc. rewrite strtok_word by (try done; by left). rewrite Z.eqb_refl. cbn [mbind option_bind].
    set (q := pre ++ replicate k 32). set (b := pre ++ replicate k 32 ++ w ++ 0 :: junk).
    assert (Hq : length q = (length pre + k)%nat) by (unfold q; by rewrite length_app, length_replicate).
    assert (Hb : take (length (q ++ w ++ [0])) b = q ++ w ++ [0]).
    { replace b with ((q ++ w ++ [0]) ++ junk) by (unfold b, q; rewrite <- !app_assoc; done). apply take_app_length. }
    destruct (token_at q w b Hw Hb) as [H1 H2]. rewrite Hq in H1, H2. rewrite words_spaces, words_last by done.
    assert (Hn' : exists n', n = S n').
    { destruct n; [|eauto]. destruct Hw as [Hw _]. rewrite length_app in Hn. destruct w; [done|]. cbn [length] in Hn. lia. }
    destruct Hn' as [n' ->]. cbn [more_tokens]. change (strtok b space None None) with (Some (@None nat, @None nat, b)). cbn [mbind option_bind].
    eexists _, _. split; [cbn [note_words]; rewrite H2; reflexivity|]. split; [unfold b; apply take_app_length|].
    cbn [map]. unfold mark. destruct (special (nth 0 w 0)); [done|]. cbn. by rewrite H1.
  - rewrite <- !app_assoc. cbn [app]. rewrite strtok_word by (try done; by right). cbn [mbind option_bind Z.eqb].
    set (q := pre ++ replicate k 32). assert (Hq : length q = (length pre + k)%nat) by (unfold q; by rewrite length_app, length_replicate).
    set (p' := q ++ w ++ [0]). assert (Hp' : length p' = (length pre + k + length w + 1)%nat) by (unfold p'; rewrite !length_app, Hq; cbn; lia).
    replace (pre ++ replicate k 32 ++ w ++ 0 :: l' ++ 0 :: junk) with (p' ++ l' ++ 0 :: junk) by (unfold p', q; rewrite <- !app_assoc; done).
    destruct (token_at q w (p' ++ l' ++ 0 :: junk) Hw (take_app_length _ _)) as [_ H2]. rewrite Hq in H2. rewrite H2, <- Hp'.
    apply Forall_app in Hl as [_ Hl]. apply Forall_app in Hl as [_ Hl]. rewrite !length_app in Hn. cbn [length] in Hn.
    destruct (IH l' p' (S i) (note_token i (nth 0 w 0) f)) as (ts & b & -> & Hb & Hm); [lia|by inversion Hl|]. cbn [mbind option_bind].
    destruct (token_at q w b Hw Hb) as [H1 _]. rewrite Hq in H1. rewrite words_spaces, words_cons by done.
    eexists _, _. split; [done|]. split; [apply (take_prefix pre (replicate k 32)); apply (take_prefix q (w ++ [0])); exact Hb|].
    cbn [map]. rewrite Hm. unfold mark at 2. destruct (special (nth 0 w 0)); [done|]. cbn. by rewrite H1.
Qed.

Lemma split_line_spec l junk w0 ws : no_nul l -> words l = w0 :: ws ->
  exists t0 ts b, split_line (l ++ 0 :: junk) = Some (t0, ts, note_words 1 ws no_flags, b) /\
    map (fmap (str_at b)) (t0 :: ts) = Some w0 :: map mark ws.
Proof.
  intros Hl E. unfold split_line. destruct (line_cases l Hl) as (k & [-> |(w & Hw & [-> |(l' & ->)])]).
  - rewrite <- (app_nil_r (replicate k 32)), words_spaces in E. done.
  - rewrite words_spaces, words_last in E by done. injection E as <- <-. rewrite <- app_assoc.
    rewrite (strtok_word [] k w 0 junk) by (try done; by left). rewrite Z.eqb_refl. cbn [mbind option_bind app length more_tokens].
    change (strtok ?b space None None) with (Some (@None nat, @None nat, b)). cbn [mbind option_bind].
    eexists _, _, _. split; [done|]. cbn [map]. f_equal.
    destruct (token_at (replicate k 32) w (replicate k 32 ++ w ++ 0 :: junk) Hw) as [H _]; [|rewrite length_replicate in H; unfold fmap, option_fmap, option_map; f_equal; exact H].
    replace (replicate k 32 ++ w ++ 0 :: junk) with ((replicate k 32 ++ w ++ [0]) ++ junk) by (rewrite <- !app_assoc; done). apply take_app_length.
  - rewrite words_spaces, words_cons in E by done. injection E as <- <-. rewrite <- !app_assoc. cbn [app].
    rewrite (strtok_word [] k w 32 (l' ++ 0 :: junk)) by (try done; by right). cbn [mbind option_bind Z.eqb app length].
    set (p' := replicate k 32 ++ w ++ [0]). assert (Hp' : length p' = (0 + k + length w + 1)%nat) by (unfold p'; rewrite !length_app, length_replicate; cbn; lia).
    replace (replicate k 32 ++ w ++ 0 :: l' ++ 0 :: junk) with (p' ++ l' ++ 0 :: junk) by (unfold p'; rewrite <- !app_assoc; done).
    rewrite <- Hp'. apply Forall_app in Hl as [_ Hl]. apply Forall_app in Hl as [_ Hl].
    match goal with |- context [more_tokens ?n _ _ _ _] => destruct (more_tokens_spec n l' p' junk 1 no_flags) as (ts & b & -> & Hb & Hm) end;
      [rewrite !length_app; cbn; rewrite length_app; lia|by inversion Hl|]. cbn [mbind option_bind].
    eexists _, _, _. split; [done|]. cbn [map]. rewrite Hm. f_equal. destruct (token_at (replicate k 32) w b Hw Hb) as [H _].
    rewrite length_replicate in H. unfold fmap, option_fmap, option_map; f_equal; exact H.
Qed.

(** The array has room for every token and the NULL after them. *)
Lemma words_count acc l : (length (words_acc acc l) <= length (List.filter (Z.eqb 32) l) + 1)%nat /\
  (acc = [] -> head l = Some 32 -> (length (words_acc acc l) <= length (List.filter (Z.eqb 32) l))%nat).
Proof.
  revert acc. induction l as [|c l IH]; intros acc; cbn [words_acc List.filter].
  - split; [case_bool_decide; cbn; lia|done].
  - destruct (c =? 32) eqn:Ec.
    + rewrite Z.eqb_sym, Ec. destruct (IH []) as [H _]. rewrite length_app. cbn [length]. split.
      * case_bool_decide; cbn [length]; lia.
      * intros -> _. rewrite bool_decide_true by done. cbn [length]. lia.
    + rewrite Z.eqb_sym, Ec. destruct (IH (acc ++ [c])) as [H _]. split; [done|]. intros _ [= ->]. done.
Qed.

Lemma count_tok_words l junk : no_nul l -> l <> [] -> Z.of_nat (length (words l)) <= count_tok (l ++ 0 :: junk) (length l).
Proof.
  intros Hl Hn. unfold count_tok. destruct l as [|c l]; [done|]. cbn [length app]. change (drop 1 (c :: l ++ 0 :: junk)) with (l ++ 0 :: junk).
  replace (S (length l) - 1)%nat with (length l) by lia. rewrite take_app_length.
  destruct (words_count [] (c :: l)) as [H1 H2]. unfold words. cbn [List.filter] in *. destruct (Z.eqb 32 c) eqn:Ec.
  - apply Z.eqb_eq in Ec. subst c. specialize (H2 eq_refl eq_refl). cbn [length] in H2. lia.
  - lia.
Qed.

Lemma until_nul_line l junk : no_nul l -> until_nul (l ++ 0 :: junk) = l.
Proof. intros Hl. exact (str_at_word (l ++ 0 :: junk) 0 l junk eq_refl Hl). Qed.

Section Commands.
Context {W : Type} {OS : Os W} (malloc : Z -> U W bool) (free : U W unit).

(** C13: A line is run as its words: process_one_cmd allocates an array with
    room for every word and the closing NULL, and hands on exactly the words,
    those that start with &, | or > after the first replaced by NULL and
    noted in the flags.  The pointers and the NULs strtok writes into the
    buffer leave every word intact. *)
Theorem xvsh_words fuel l junk w0 ws w : no_nul l -> words l = w0 :: ws ->
  exists size, Z.of_nat (length (w0 :: ws) + 1) <= size /\
  process_one_cmd malloc free fuel (l ++ 0 :: junk) w =
  ubind (malloc (size * 4)) (fun ok =>
    if ok : bool then dispatch free fuel (Some w0 :: map mark ws) (note_words 1 ws no_flags)
    else printf 1 "malloc failed
" [] ;;- exit_) w.
Proof.
  intros Hl E. assert (Hn : l <> []) by (by intros ->). exists (count_tok (l ++ 0 :: junk) (length l) + 1). split.
  { pose proof (count_tok_words l junk Hl Hn) as H. rewrite E in H. rewrite Nat2Z.inj_add. lia. }
  unfold process_one_cmd. rewrite until_nul_line by done. destruct l as [|c l]; [done|]. cbn [length Nat.eqb].
  destruct (split_line_spec (c :: l) junk w0 ws Hl E) as (t0 & ts & b & -> & Hm). by rewrite Hm.
Qed.
End Commands.

(** ** Commands, against scripted answers *)

(** A system that answers the calls with the given answers, in order, [None]
    for one that does not return, and records the calls. *)
Record script := mkscript { todo : list (option ans); calls : list sys }.

#[export] Instance script_os : Os script := fun e w =>
  match todo w with
  | [] => (None, mkscript [] (calls w ++ [e]))
  | a :: l => (a, mkscript l (calls w ++ [e]))
  end.

Definition int (z : Z) : option ans := Some (z, []).

Lemma argv_marked ws ts : argv_of (map Some ws ++ None :: ts) = ws.
Proof. induction ws as [|w ws IH]; [done|]. cbn. by rewrite IH. Qed.
Lemma argv_all ws : argv_of (map Some ws) = ws.
Proof. induction ws as [|w ws IH]; [done|]. cbn. by rewrite IH. Qed.

Lemma wait_all_spec n pids r tr : Forall (fun p => 0 < p) pids -> r <= 0 -> (length pids < n)%nat ->
  wait_all n (mkscript (map int pids ++ [int r]) tr) = UDone tt (mkscript [] (tr ++ replicate (S (length pids)) Swait)).
Proof.
  intros Hp Hr. revert n tr. induction Hp as [|p pids Hp0 Hp IH]; intros n tr Hn; (destruct n as [|n]; [cbn in Hn; lia|]).
  - unfold wait_all. cbn. unfold ubind, wait_, call_, call, ubind. cbn. rewrite Z.gtb_ltb, (proj2 (Z.ltb_ge 0 r)) by done. done.
  - cbn [length] in Hn. unfold wait_all in *. cbn [uloop]. unfold ubind at 1, wait_, call_, call, ubind. cbn [os_call script_os todo map app int calls fst].
    unfold uret at 1. unfold uret at 1. rewrite Z.gtb_ltb, (proj2 (Z.ltb_lt 0 p)) by done. rewrite IH by lia. cbn [length replicate].
    by rewrite <- app_assoc.
Qed.

Lemma puts_script t fd l tr : exists l' more,
  ueach t (putc fd) (mkscript l tr) = UDone tt (mkscript l' (tr ++ more)) \/ ueach t (putc fd) (mkscript l tr) = UGone (mkscript l' (tr ++ more)).
Proof.
  revert l tr. induction t as [|c t IH]; intros l tr; [exists l, []; left; by rewrite app_nil_r|]. cbn [ueach].
  unfold putc at 1 3. unfold write_, call_, call, ubind. cbn [os_call script_os todo calls]. destruct l as [|[a|] l]; cbn.
  - exists [], [Swrite fd [c]]. by right.
  - destruct (IH l (tr ++ [Swrite fd [c]])) as (l' & more & [E|E]); rewrite E; exists l', (Swrite fd [c] :: more); rewrite <- app_assoc; [by left|by right].
  - exists l, [Swrite fd [c]]. by right.
Qed.

(** A message and exit. *)
Lemma say_exit {A} fd fmt args l tr : printf_text false (str fmt) args <> None -> exists l' more,
  (printf fd fmt args ;;- @exit_ _ _ A) (mkscript l tr) = UGone (mkscript l' (tr ++ more)).
Proof.
  intros H. unfold printf. destruct (printf_text false (str fmt) args) as [t|]; [|done].
  destruct (puts_script t fd l tr) as (l' & more & [E|E]); unfold ubind; rewrite E; [|eauto].
  unfold exit_. cbn [os_call script_os todo calls]. destruct l' as [|a l']; cbn; rewrite <- app_assoc; eauto.
Qed.

Section Runs.
Context (free : U script unit) (fuel : nat).

(** A command of plain words: the shell forks; the child runs exec on the
    first word with all of them as arguments, and if that fails reports it
    and exits; the parent waits for it unless the command ended in &. *)
Theorem xvsh_normal w0 ws f : exit_check w0 = false -> pip f = false -> red f = false ->
  let run l := dispatch free fuel (Some w0 :: map Some ws) f (mkscript l []) in
  run [int 0; None] = UGone (mkscript [] [Sfork; Sexec w0 (w0 :: ws)]) /\
  (forall l, exists l' more, run (int 0 :: int (-1) :: l) = UGone (mkscript l' ([Sfork; Sexec w0 (w0 :: ws)] ++ more))) /\
  (forall pid r, 0 < pid -> bg f = 0 -> run [int pid; int r] = free (mkscript [] [Sfork; Swait])) /\
  (forall pid, 0 < pid -> bg f <> 0 -> run [int pid] = free (mkscript [] [Sfork])).
Proof.
  intros He Hp Hr. cbv zeta. unfold dispatch. rewrite He, Hp, Hr. cbn [map].
  assert (Ha : argv_of (Some w0 :: map Some ws) = w0 :: ws) by exact (argv_all (w0 :: ws)).
  unfold process_normal, fork_, wait_, call_, call, exec_tok, exec_, call_, call. split_and!.
  - unfold ubind. cbn -[argv_of]. by rewrite Ha.
  - intros l. destruct (@say_exit unit 1 "Cannot run this command: %s
" [AStr (Some w0)] l [Sfork; Sexec w0 (w0 :: ws)]) as (l' & more & E); [done|]. exists l', more.
    unfold ubind in *. cbn -[argv_of printf exit_] in *. rewrite Ha. by rewrite E.
  - intros pid r H0 Hb. unfold ubind. cbn -[Z.ltb Z.gtb Z.eqb]. rewrite Hb.
    rewrite (proj2 (Z.eqb_neq pid 0)), Z.gtb_ltb, (proj2 (Z.ltb_lt 0 pid)) by lia. done.
  - intros pid H0 Hb. unfold ubind. cbn -[Z.ltb Z.gtb Z.eqb].
    rewrite (proj2 (Z.eqb_neq pid 0)), (proj2 (Z.eqb_neq (bg f) 0)) by lia. done.
Qed.

(** exit waits for every child: wait() is called until it fails, and only
    then does the shell exit. *)
Theorem xvsh_exit ts f pids r : Forall (fun p => 0 < p) pids -> r <= 0 -> (length pids < fuel)%nat ->
  dispatch free fuel (Some (str "exit") :: ts) f (mkscript (map int pids ++ [int r]) []) =
  UGone (mkscript [] (replicate (S (length pids)) Swait ++ [Sexit])).
Proof. intros Hp Hr Hf. unfold dispatch. change (exit_check (str "exit")) with true. cbv iota. unfold ubind. by rewrite (wait_all_spec fuel pids r []). Qed.

(** C40: The second command of a pipe is run with the arguments of the first
    one: for a line a x | b y the second child calls exec(b, [a; x]), not
    exec(b, [b; y]). *)
Theorem xvsh_pipe_args w0 ws b ys fd0 fd1 pid : exit_check w0 = false -> 0 < pid ->
  let ts := Some w0 :: map Some ws ++ None :: Some b :: map Some ys in
  dispatch free fuel ts (mkflags 0 true false (length ws + 2) 0)
    (mkscript [Some (0, [fd0; fd1]); int pid; int 0; int 0; int 0; int 0; None] []) =
  UGone (mkscript [] [Spipe; Sfork; Sfork; Sclose 0; Sdup fd0; Sclose fd1; Sexec b (w0 :: ws)]).
Proof.
  intros He Hp ts. assert (Ha : argv_of ts = w0 :: ws) by exact (argv_marked (w0 :: ws) _).
  assert (Hb : nth (length ws + 2) ts None = Some b).
  { unfold ts. rewrite Nat.add_comm. cbn [nth Nat.add]. rewrite app_nth2; rewrite length_map; [|lia].
    by replace (S (length ws) - length ws)%nat with 1%nat by lia. }
  unfold dispatch. unfold ts at 1. rewrite He. cbn [pip pip_pos]. revert Ha Hb. generalize ts. clear ts. intros ts Ha Hb.
  unfold process_pipe, pipe_, fork_, close_, dup_, wait_, call_, call, exec_tok, exec_, call_, call, ubind. cbn -[argv_of Z.ltb Z.eqb nth].
  change (0 =? -1) with false. cbn -[argv_of Z.ltb Z.eqb nth]. rewrite (proj2 (Z.ltb_ge pid 0)), (proj2 (Z.eqb_neq pid 0)) by lia. cbn -[argv_of nth].
  rewrite Hb. cbn -[argv_of]. by rewrite Ha.
Qed.

(** A redirected command that cannot be run does not exit: the child comes
    back from process_one_cmd with its output redirected, and goes on as a
    second shell that reads the same input. *)
Theorem xvsh_redirect_returns w0 ws file ys : exit_check w0 = false ->
  let ts := Some w0 :: map Some ws ++ None :: Some file :: map Some ys in
  dispatch free fuel ts (mkflags 0 false true 0 (length ws + 2)) (mkscript [int 0; int 0; int 1; int (-1)] []) =
  free (mkscript [] [Sfork; Sclose 1; Sopen file (Z.lor O_CREATE O_WRONLY); Sexec w0 (w0 :: ws)]).
Proof.
  intros He ts. assert (Ha : argv_of ts = w0 :: ws) by exact (argv_marked (w0 :: ws) _).
  assert (Hb : nth (length ws + 2) ts None = Some file).
  { unfold ts. rewrite Nat.add_comm. cbn [nth Nat.add]. rewrite app_nth2; rewrite length_map; [|lia].
    by replace (S (length ws) - length ws)%nat with 1%nat by lia. }
  assert (H0 : nth 0 ts None = Some w0) by done.
  unfold dispatch. unfold ts at 1. rewrite He. cbn [pip red red_pos]. revert Ha Hb H0. generalize ts. clear ts. intros ts Ha Hb H0.
  unfold process_redirect, fork_, close_, open_, wait_, call_, call, exec_tok, exec_, call_, call, ubind. cbn -[argv_of nth Z.lor].
  rewrite Hb. cbn -[argv_of nth Z.lor]. rewrite H0. cbn -[argv_of Z.lor]. by rewrite Ha.
Qed.
End Runs.

Module XvshDemo.
Definition mal : Z -> U script bool := fun _ => uret true.
Definition fre : U script unit := uret tt.

Lemma xvsh_words_witness : exists size, 4 <= size /\
  process_one_cmd mal fre 5 (str "ls  -l > out" ++ 0 :: []) (mkscript [] []) =
  ubind (mal (size * 4)) (fun ok =>
    if ok : bool then dispatch fre 5 (Some (str "ls") :: map mark [str "-l"; str ">"; str "out"]) (note_words 1 [str "-l"; str ">"; str "out"] no_flags)
    else printf 1 "malloc failed
" [] ;;- exit_) (mkscript [] []).
Proof.
  destruct (xvsh_words mal fre 5 (str "ls  -l > out") [] (str "ls") [str "-l"; str ">"; str "out"] (mkscript [] [])) as (size & H1 & H2).
  - repeat constructor; discriminate.
  - reflexivity.
  - exists size. split; [cbn in H1; lia|exact H2].
Defined.

Lemma xvsh_normal_witness : dispatch fre 5 (Some (str "ls") :: map Some [str "-l"]) no_flags (mkscript [int 0; None] []) =
  UGone (mkscript [] [Sfork; Sexec (str "ls") [str "ls"; str "-l"]]).
Proof. exact (proj1 (xvsh_normal fre 5 (str "ls") [str "-l"] no_flags eq_refl eq_refl eq_refl)). Defined.

Lemma xvsh_exit_witness : dispatch fre 5 [Some (str "exit")] no_flags (mkscript (map int [7; 9] ++ [int (-1)]) []) =
  UGone (mkscript [] [Swait; Swait; Swait; Sexit]).
Proof. apply (xvsh_exit fre 5 [] no_flags [7; 9] (-1)); [repeat constructor; lia|lia|cbn; lia]. Defined.

Lemma xvsh_pipe_args_witness :
  dispatch fre 5 [Some (str "ls"); None; Some (str "wc"); Some (str "-l")] (mkflags 0 true false 2 0)
    (mkscript [Some (0, [3; 4]); int 5; int 0; int 0; int 0; int 0; None] []) =
  UGone (mkscript [] [Spipe; Sfork; Sfork; Sclose 0; Sdup 3; Sclose 4; Sexec (str "wc") [str "ls"]]).
Proof. apply (xvsh_pipe_args fre 5 (str "ls") [] (str "wc") [str "-l"] 3 4 5); [reflexivity|lia]. Defined.

Lemma xvsh_redirect_returns_witness :
  dispatch fre 5 [Some (str "nope"); None; Some (str "out")] (mkflags 0 false true 0 2) (mkscript [int 0; int 0; int 1; int (-1)] []) =
  UDone tt (mkscript [] [Sfork; Sclose 1; Sopen (str "out") (Z.lor O_CREATE O_WRONLY); Sexec (str "nope") [str "nope"]]).
Proof. exact (xvsh_redirect_returns fre 5 (str "nope") [] (str "out") [] eq_refl). Defined.
End XvshDemo.
