(* ===== verification/Sh.v ===== *)
(** * The shell (sh.c)

    The parser works on one line, which it does not change until
    nulterminate; a [char *] into it is the rest of the line from there on, so
    that [es] is the empty rest.  malloc is taken to succeed, as the
    constructors do not test it. *)

From S2P Require Import Prelude.
From S2P Require Import Params.
From S2P Require Import User.
From S2P Require Import Printf.

Definition MAXARGS : nat := 10.

(** Commands, with strings of type [A]: pairs of pointers as parsed, or the
    strings themselves as exec and open read them. *)
Inductive cmd (A : Type) :=
| EXEC (argv : list A)
| REDIR (c : cmd A) (file : A) (mode fd : Z)
| PIPE (left right : cmd A)
| LIST (left right : cmd A)
| BACK (c : cmd A).
Arguments EXEC {A}.
Arguments REDIR {A}.
Arguments PIPE {A}.
Arguments LIST {A}.
Arguments BACK {A}.

Definition ptr : Type := list Z.
Definition token : Type := ptr * ptr.          (* q, eq *)

Definition whitespace : list Z := [32; 9; 13; 10; 11].
Definition symbols : list Z := [60; 124; 62; 38; 59; 40; 41].
Definition is_in (l : list Z) (c : Z) : bool := existsb (Z.eqb c) l.

(** [while(s < es && strchr(whitespace, *s)) s++;] *)
Fixpoint skip_ws (s : ptr) : ptr :=
  match s with
  | c :: s' => if is_in whitespace c then skip_ws s' else s
  | [] => []
  end.

(** [while(s < es && !strchr(whitespace, *s) && !strchr(symbols, *s)) s++;] *)
Fixpoint skip_word (s : ptr) : ptr :=
  match s with
  | c :: s' => if is_in whitespace c || is_in symbols c then s else skip_word s'
  | [] => []
  end.

(** The token's kind, q, eq and the new *ps. *)
Definition gettoken (s0 : ptr) : Z * token * ptr :=
  let s := skip_ws s0 in
  let '(ret, e) :=
    match s with
    | [] => (0, s)
    | c :: s' =>
        if c =? 62 then
          match s' with
          | d :: s'' => if d =? 62 then (43, s'') else (62, s')
          | [] => (62, s')
          end
        else if is_in symbols c then (c, s')
        else (97, skip_word s)
    end in
  (ret, (s, e), skip_ws e).

Definition peek (s0 : ptr) (toks : list Z) : bool * ptr :=
  let s := skip_ws s0 in
  (match s with c :: _ => is_in toks c | [] => false end, s).

(** The outcome of a parse: a value and where it ended, panic() with its
    message after what is left of the line was printed, if it was, or out of
    fuel. *)
Inductive pres (A : Type) :=
| POk (a : A) (s : ptr)
| PErr (rest : option ptr) (msg : string)
| PFuel.
Arguments POk {A}.
Arguments PErr {A}.
Arguments PFuel {A}.

Definition pbind {A B} (m : pres A) (k : A -> ptr -> pres B) : pres B :=
  match m with
  | POk a s => k a s
  | PErr rest msg => PErr rest msg
  | PFuel => PFuel
  end.

Definition redir : Type := token * Z * Z.      (* file, mode, fd *)
Definition redircmd {A} (c : cmd A) (r : A * Z * Z) : cmd A := REDIR c (fst (fst r)) (snd (fst r)) (snd r).

(** parseredirs: the redirections, for [redircmd] to put around the command
    one after the other. *)
Fixpoint parseredirs (fuel : nat) (s : ptr) : pres (list redir) :=
  match fuel with
  | O => PFuel
  | S n =>
      let '(b, s1) := peek s [60; 62] in
      if b : bool then
        let '(tok, _, s2) := gettoken s1 in
        let '(t, f, s3) := gettoken s2 in
        if negb (t =? 97) then PErr None "missing file for redirection"
        else
          let r := if tok =? 60 then (f, O_RDONLY, 0) else (f, Z.lor O_WRONLY O_CREATE, 1) in
          pbind (parseredirs n s3) (fun rs s4 => POk (r :: rs) s4)
      else POk [] s1
  end.

(** The loop of parseexec with the arguments so far; the redirections among
    them wrap the command that gets the arguments. *)
Fixpoint parseargs (fuel : nat) (s : ptr) (args : list token) (rs : list redir) : pres (cmd token) :=
  match fuel with
  | O => PFuel
  | S n =>
      let '(b, s1) := peek s [124; 41; 38; 59] in
      if b : bool then POk (fold_left redircmd rs (EXEC args)) s1
      else
        let '(tok, t, s2) := gettoken s1 in
        if tok =? 0 then POk (fold_left redircmd rs (EXEC args)) s2
        else if negb (tok =? 97) then PErr None "syntax"
        else if (MAXARGS <=? length args + 1)%nat then PErr None "too many args"
        else
          pbind (parseredirs n s2) (fun rs' s3 => parseargs n s3 (args ++ [t]) (rs ++ rs'))
  end.

(** [while(peek(ps, es, "&"))] of parseline. *)
Fixpoint parseback {A} (fuel : nat) (c : cmd A) (s : ptr) : pres (cmd A) :=
  match fuel with
  | O => PFuel
  | S n =>
      let '(b, s1) := peek s [38] in
      if b : bool then
        let '(_, _, s2) := gettoken s1 in
        parseback n (BACK c) s2
      else POk c s1
  end.

Fixpoint parseline (fuel : nat) (s : ptr) {struct fuel} : pres (cmd token) :=
  match fuel with
  | O => PFuel
  | S n =>
      pbind (parsepipe n s) (fun c s1 =>
      pbind (parseback n c s1) (fun c s2 =>
      let '(b, s3) := peek s2 [59] in
      if b : bool then
        let '(_, _, s4) := gettoken s3 in
        pbind (parseline n s4) (fun r s5 => POk (LIST c r) s5)
      else POk c s3))
  end
with parsepipe (fuel : nat) (s : ptr) {struct fuel} : pres (cmd token) :=
  match fuel with
  | O => PFuel
  | S n =>
      pbind (parseexec n s) (fun c s1 =>
      let '(b, s2) := peek s1 [124] in
      if b : bool then
        let '(_, _, s3) := gettoken s2 in
        pbind (parsepipe n s3) (fun r s4 => POk (PIPE c r) s4)
      else POk c s2)
  end
with parseexec (fuel : nat) (s : ptr) {struct fuel} : pres (cmd token) :=
  match fuel with
  | O => PFuel
  | S n =>
      let '(b, s1) := peek s [40] in
      if b : bool then parseblock n s1
      else pbind (parseredirs n s1) (fun rs s2 => parseargs n s2 [] rs)
  end
with parseblock (fuel : nat) (s : ptr) {struct fuel} : pres (cmd token) :=
  match fuel with
  | O => PFuel
  | S n =>
      let '(b, s1) := peek s [40] in
      if negb b then PErr None "parseblock"
      else
        let '(_, _, s2) := gettoken s1 in
        pbind (parseline n s2) (fun c s3 =>
        let '(b, s4) := peek s3 [41] in
        if negb b then PErr None "syntax - missing )"
        else
          let '(_, _, s5) := gettoken s4 in
          pbind (parseredirs n s5) (fun rs s6 => POk (fold_left redircmd rs c) s6))
  end.

(** ** nulterminate *)

(** The offset of a pointer into [line]. *)
Definition off (line : list Z) (p : ptr) : nat := length line - length p.

(** The efile and eargv pointers, in the order they are cleared. *)
Fixpoint ends (c : cmd token) : list ptr :=
  match c with
  | EXEC argv => map snd argv
  | REDIR c f _ _ => ends c ++ [snd f]
  | PIPE l r => ends l ++ ends r
  | LIST l r => ends l ++ ends r
  | BACK c => ends c
  end.

(** The line with its closing NUL after a NUL is stored at every end. *)
Definition nulterminate (line : list Z) (c : cmd token) : list Z :=
  fold_left (fun buf e => <[off line e := 0]> buf) (ends c) (line ++ [0]).

Fixpoint map_cmd {A B} (f : A -> B) (c : cmd A) : cmd B :=
  match c with
  | EXEC argv => EXEC (map f argv)
  | REDIR c a m fd => REDIR (map_cmd f c) (f a) m fd
  | PIPE l r => PIPE (map_cmd f l) (map_cmd f r)
  | LIST l r => LIST (map_cmd f l) (map_cmd f r)
  | BACK c => BACK (map_cmd f c)
  end.

Fixpoint cstring (l : list Z) : list Z :=
  match l with
  | [] => []
  | c :: l' => if c =? 0 then [] else c :: cstring l'
  end.

(** The string that starts at [q] in the buffer. *)
Definition string_at (buf line : list Z) (t : token) : list Z := cstring (drop (off line (fst t)) buf).

(** parsecmd: the command with the strings exec will find. *)
Definition parsecmd (line : list Z) : pres (cmd (list Z)) :=
  pbind (parseline (8 * length line + 8) line) (fun c s =>
  let '(_, s1) := peek s [] in
  match s1 with
  | [] => POk (map_cmd (string_at (nulterminate line c) line) c) []
  | _ => PErr (Some s1) "syntax"
  end).

(** ** Running commands *)

Section Run.
Context {W : Type} {OS : Os W}.

Definition sh_panic {A} (s : string) : U W A :=
  printf 2 "%s
" [AStr (Some (str s))] ;;- exit_.

Definition fork1 : U W Z :=
  pid <-- fork_ ;;
  if pid =? -1 then sh_panic "fork" else uret pid.

Fixpoint runcmd (c : cmd (list Z)) : U W unit :=
  match c with
  | EXEC argv =>
      match argv with
      | [] => exit_
      | a0 :: _ =>
          exec_ a0 argv ;;-
          printf 2 "exec %s failed
" [AStr (Some a0)] ;;-
          exit_
      end
  | REDIR c file mode fd =>
      close_ fd ;;-
      r <-- open_ file mode ;;
      if r <? 0 then printf 2 "open %s failed
" [AStr (Some file)] ;;- exit_
      else runcmd c ;;- exit_
  | LIST l r =>
      pid <-- fork1 ;;
      (if pid =? 0 then runcmd l else uret tt) ;;-
      wait_ ;;-
      runcmd r ;;- exit_
  | PIPE l r =>
      p <-- pipe_ ;;
      if fst p <? 0 then sh_panic "pipe"
      else
        let p0 := nth 0 (snd p) 0 in
        let p1 := nth 1 (snd p) 0 in
        pid <-- fork1 ;;
        (if pid =? 0 then close_ 1 ;;- dup_ p1 ;;- close_ p0 ;;- close_ p1 ;;- runcmd l else uret tt) ;;-
        pid <-- fork1 ;;
        (if pid =? 0 then close_ 0 ;;- dup_ p0 ;;- close_ p0 ;;- close_ p1 ;;- runcmd r else uret tt) ;;-
        close_ p0 ;;- close_ p1 ;;- wait_ ;;- wait_ ;;- exit_
  | BACK c =>
      pid <-- fork1 ;;
      (if pid =? 0 then runcmd c else uret tt) ;;-
      exit_
  end.

(** getcmd: [None] at the end of the input, else the line. *)
Definition getcmd (nbuf : Z) : U W (option (list Z)) :=
  printf 2 "$ " [] ;;-
  l <-- ugets nbuf ;;
  uret (match cstring l with [] => None | s => Some s end).

Definition run_line (s : list Z) : U W unit :=
  match parsecmd s with
  | POk c _ => runcmd c
  | PErr rest msg =>
      (match rest with Some l => printf 2 "leftovers: %s
" [AStr (Some l)] | None => uret tt end) ;;-
      sh_panic msg
  | PFuel => ustuck
  end.

(** One turn of main's loop. *)
Definition sh_body (_ : unit) : U W (unit + unit) :=
  l <-- getcmd 100 ;;
  match l with
  | None => uret (inr tt)
  | Some s =>
      if bool_decide (take 3 s = str "cd ") then
        let dir := drop 3 (take (length s - 1) s) in
        r <-- chdir_ dir ;;
        (if r <? 0 then printf 2 "cannot cd %s
" [AStr (Some dir)] else uret tt) ;;-
        uret (inl tt)
      else
        pid <-- fork1 ;;
        (if pid =? 0 then run_line s else uret tt) ;;-
        wait_ ;;-
        uret (inl tt)
  end.

(** "Assumes three file descriptors open." *)
Definition open_console (fuel : nat) : U W unit :=
  uloop fuel (fun _ =>
    fd <-- open_ (str "console") O_RDWR ;;
    if fd <? 0 then uret (inr tt)
    else if fd >=? 3 then close_ fd ;;- uret (inr tt)
    else uret (inl tt)) tt.

Definition sh_main (fuel : nat) : U W unit :=
  open_console fuel ;;-
  uloop fuel sh_body tt ;;-
  exit_.
End Run.
