(* ===== verification/ShSpec.v ===== *)
(** * The parser of the shell (sh.c)

    It ends on every line, and the strings exec is given are the words of the
    line. *)

From S2P Require Import Prelude.
From S2P Require Import Sysfile.
From S2P Require Import User.
From S2P Require Import Printf.
From S2P Require Import Sh.

(** ** Scanning *)

Definition wordc (c : Z) : Prop := is_in whitespace c = false /\ is_in symbols c = false /\ c <> 0.
Definition word (w : list Z) : Prop := w <> [] /\ Forall wordc w.

Definition text (t : token) : list Z := take (length (fst t) - length (snd t)) (fst t).

Lemma skip_ws_suffix s : skip_ws s `suffix_of` s.
Proof. induction s as [|c s IH]; [done|]. cbn [skip_ws]. destruct (is_in whitespace c); [by apply suffix_cons_r|done]. Qed.

Lemma skip_ws_idem s : skip_ws (skip_ws s) = skip_ws s.
Proof. induction s as [|c s IH]; [done|]. cbn [skip_ws]. destruct (is_in whitespace c) eqn:E; [done|]. cbn [skip_ws]. by rewrite E. Qed.

Lemma skip_ws_head s c s' : skip_ws s = c :: s' -> is_in whitespace c = false.
Proof. induction s as [|d s IH]; [done|]. cbn [skip_ws]. destruct (is_in whitespace d) eqn:E; [done|]. by intros [= -> ->]. Qed.

Lemma skip_word_spec s : Forall (fun c => c <> 0) s -> exists w, s = w ++ skip_word s /\ Forall wordc w /\
  (forall c, head (skip_word s) = Some c -> is_in whitespace c || is_in symbols c = true).
Proof.
  induction 1 as [|c s Hc Hs (w & E & Hw & Hh)]; [by exists []|]. cbn [skip_word]. destruct (is_in whitespace c || is_in symbols c) eqn:Ec.
  - exists []. split_and!; [done|done|]. by intros ? [= <-].
  - exists (c :: w). cbn [app]. rewrite E at 1. split_and!; [done| |done]. apply orb_false_iff in Ec as [? ?]. by constructor.
Qed.

(** ** Tokens *)

(** The token is a word of the line, and what follows it is not part of one. *)
Definition tok_ok (line : list Z) (t : token) : Prop :=
  fst t `suffix_of` line /\ (exists w, fst t = w ++ snd t /\ word w) /\
  forall c, head (snd t) = Some c -> ~ wordc c.

Lemma suffix_nonul s line : s `suffix_of` line -> Forall (fun c => c <> 0) line -> Forall (fun c => c <> 0) s.
Proof. intros [k ->] H. by apply Forall_app in H as [_ H]. Qed.

Definition shorter (s' s : ptr) : Prop := s' `suffix_of` s /\ (length s' < length s)%nat.

Lemma suffix_shorter s1 s2 s3 : s1 `suffix_of` s2 -> shorter s2 s3 -> shorter s1 s3.
Proof. intros H [H1 H2]. split; [by etrans|]. apply suffix_length in H. lia. Qed.
Lemma shorter_suffix s1 s2 s3 : shorter s1 s2 -> s2 `suffix_of` s3 -> shorter s1 s3.
Proof. intros [H1 H2] H. split; [by etrans|]. apply suffix_length in H. lia. Qed.

Lemma cons_shorter c s : shorter s (c :: s).
Proof. split; [by apply suffix_cons_r|cbn; lia]. Qed.

(** gettoken moves on unless it is at the end, and a word it finds is one. *)
Lemma gettoken_spec line s : s `suffix_of` line -> Forall (fun c => c <> 0) line ->
  let '(tok, t, s') := gettoken s in
  s' `suffix_of` s /\ (tok <> 0 -> shorter s' s) /\ (tok = 97 -> tok_ok line t) /\ (skip_ws s <> [] -> shorter s' s).
Proof.
  intros Hs Hn. unfold gettoken. pose proof (skip_ws_suffix s) as Hw. destruct (skip_ws s) as [|c s1] eqn:E.
  { split_and!; try done. }
  pose proof (skip_ws_head _ _ _ E) as Hc. assert (Hsh : forall e, e `suffix_of` s1 -> skip_ws e `suffix_of` s /\ shorter (skip_ws e) s).
  { intros e He. assert (shorter (skip_ws e) s); [|split; [|done]; by destruct H].
    apply (suffix_shorter _ s1); [etrans; [apply skip_ws_suffix|done]|]. eapply shorter_suffix; [apply cons_shorter|exact Hw]. }
  destruct (c =? 62) eqn:E62.
  { destruct s1 as [|d s2]; [|destruct (d =? 62)]; (destruct (Hsh []) as [? ?]; [apply suffix_nil|]).
    - split_and!; done.
    - destruct (Hsh s2) as [? ?]; [by apply suffix_cons_r|]. split_and!; done.
    - destruct (Hsh (d :: s2)) as [? ?]; [done|]. split_and!; done. }
  destruct (is_in symbols c) eqn:Es.
  { destruct (Hsh s1) as [? ?]; [done|]. split_and!; try done. intros ->. done. }
  assert (Hl : c :: s1 `suffix_of` line) by (by etrans).
  destruct (skip_word_spec (c :: s1)) as (w & Ew & Hww & Hh); [by eapply suffix_nonul|].
  assert (He : skip_word (c :: s1) `suffix_of` s1).
  { cbn [skip_word]. rewrite Hc, Es. cbn [orb]. destruct (skip_word_spec s1) as (w' & Ew' & _).
    - eapply suffix_nonul in Hl; [|done]. by inversion Hl.
    - by exists w'. }
  assert (Hne : w <> []).
  { intros ->. cbn [app] in Ew. apply suffix_length in He. rewrite <- Ew in He. cbn [length] in He. lia. }
  destruct (Hsh _ He) as [? ?]. split_and!; try done. intros _. split_and!; [done| |].
  - exists w. cbn [fst snd]. by split.
  - cbn [snd]. intros x Hx [H1 [H2 _]]. specialize (Hh x Hx). rewrite H1, H2 in Hh. done.
Qed.

Lemma peek_spec s toks : snd (peek s toks) `suffix_of` s /\ (fst (peek s toks) = true -> skip_ws (snd (peek s toks)) <> []).
Proof.
  unfold peek. cbn [fst snd]. split; [apply skip_ws_suffix|]. rewrite skip_ws_idem. by destruct (skip_ws s).
Qed.

Fixpoint all_toks {A} (P : A -> Prop) (c : cmd A) : Prop :=
  match c with
  | EXEC argv => Forall P argv
  | REDIR c f _ _ => all_toks P c /\ P f
  | PIPE l r | LIST l r => all_toks P l /\ all_toks P r
  | BACK c => all_toks P c
  end.

(** ** The parser ends, with tokens of the line *)

(** The parse ends, and if it succeeds does so further on with a result as
    [Q] says. *)
Definition good {A} (Q : A -> Prop) (s : ptr) (r : pres A) : Prop :=
  match r with
  | POk a s' => s' `suffix_of` s /\ Q a
  | PErr _ _ => True
  | PFuel => False
  end.

Lemma good_from {A} (Q : A -> Prop) s s' r : s' `suffix_of` s -> good Q s' r -> good Q s r.
Proof. intros Hs. destruct r as [a s1| |]; [|done..]. intros [H1 H2]. split; [by etrans|done]. Qed.

Lemma good_bind {A B} (Q : A -> Prop) (R : B -> Prop) s m k : good Q s m ->
  (forall a s', s' `suffix_of` s -> Q a -> good R s' (k a s')) -> good R s (pbind m k).
Proof. destruct m as [a s'| |]; [|done..]. intros [H1 H2] Hk. eapply good_from; [exact H1|]. by apply Hk. Qed.

Section Good.
Context (line : list Z) (Hline : Forall (fun c => c <> 0) line).

Definition rd_ok (r : redir) : Prop := tok_ok line (fst (fst r)).

Lemma redirs_cmd rs c : all_toks (tok_ok line) c -> Forall rd_ok rs -> all_toks (tok_ok line) (fold_left redircmd rs c).
Proof. intros Hc Hr. revert c Hc. induction Hr as [|r rs Hr _ IH]; intros c Hc; [done|]. cbn [fold_left]. apply IH. by split. Qed.

(** What peek and gettoken give the loops. *)
Lemma peek_get s toks : s `suffix_of` line -> let s1 := snd (peek s toks) in
  s1 `suffix_of` s /\ s1 `suffix_of` line /\
  (fst (peek s toks) = true -> shorter (snd (gettoken s1)) s /\ snd (gettoken s1) `suffix_of` line) /\
  (fst (fst (gettoken s1)) <> 0 -> shorter (snd (gettoken s1)) s) /\ snd (gettoken s1) `suffix_of` s /\
  (fst (fst (gettoken s1)) = 97 -> tok_ok line (snd (fst (gettoken s1)))).
Proof.
  intros Hs s1. destruct (peek_spec s toks) as [H1 H2]. fold s1 in H1, H2. assert (Hl : s1 `suffix_of` line) by (by etrans).
  pose proof (gettoken_spec line s1 Hl Hline) as H. destruct (gettoken s1) as [[tok t] s2]. cbn [fst snd] in *. destruct H as (G1 & G2 & G3 & G4).
  split_and!; [done|done| | |by etrans|done].
  - intros Hb. specialize (G4 (H2 Hb)). split; [by eapply shorter_suffix|by etrans].
  - intros Ht. by eapply shorter_suffix; [apply G2|].
Qed.

Lemma redirs_good n s : s `suffix_of` line -> (length s < n)%nat -> good (Forall rd_ok) s (parseredirs n s).
Proof.
  revert s. induction n as [|n IH]; intros s Hs Hn; [lia|]. cbn [parseredirs].
  destruct (peek_get s [60; 62] Hs) as (H1 & H2 & H3 & _). destruct (peek s [60; 62]) as [b s1]. cbn [fst snd] in *.
  destruct b; [|by split]. destruct (H3 eq_refl) as [H4 H5]. destruct (gettoken s1) as [[tok t] s2]. cbn [snd] in *.
  pose proof (gettoken_spec line s2 H5 Hline) as H. destruct (gettoken s2) as [[t2 f] s3]. destruct H as (G1 & G2 & G3 & _).
  destruct (t2 =? 97) eqn:E; [|done]. apply Z.eqb_eq in E. cbn [negb].
  assert (Hsh : shorter s3 s) by (by eapply suffix_shorter). destruct Hsh as [Hsuf Hlen].
  eapply good_from; [exact Hsuf|]. eapply good_bind; [apply IH; [by etrans|lia]|]. intros rs s4 _ Hrs. split; [done|]. constructor; [|done].
  unfold rd_ok. destruct (tok =? 60); by apply G3.
Qed.

Lemma args_good n s args rs : s `suffix_of` line -> (length s < n)%nat -> Forall (tok_ok line) args -> Forall rd_ok rs ->
  good (all_toks (tok_ok line)) s (parseargs n s args rs).
Proof.
  revert s args rs. induction n as [|n IH]; intros s args rs Hs Hn Ha Hr; [lia|]. cbn [parseargs].
  destruct (peek_get s [124; 41; 38; 59] Hs) as (H1 & H2 & _ & H4 & H5 & H6). destruct (peek s [124; 41; 38; 59]) as [b s1]. cbn [fst snd] in *.
  destruct b; [split; [done|by apply redirs_cmd]|]. destruct (gettoken s1) as [[tok t] s2]. cbn [fst snd] in *.
  destruct (tok =? 0) eqn:E0; [split; [done|by apply redirs_cmd]|]. apply Z.eqb_neq in E0.
  destruct (tok =? 97) eqn:E; [|done]. apply Z.eqb_eq in E. cbn [negb]. destruct (MAXARGS <=? length args + 1)%nat; [done|].
  destruct (H4 E0) as [Hsuf Hlen]. eapply good_from; [exact Hsuf|]. eapply good_bind; [apply redirs_good; [by etrans|lia]|].
  intros rs' s3 Hs3 Hrs'. apply IH; [by etrans; [|etrans]|apply suffix_length in Hs3; lia|apply Forall_app; split; [done|]; by constructor; [apply H6|]|].
  by apply Forall_app.
Qed.

Lemma back_good n c s : s `suffix_of` line -> (length s < n)%nat -> all_toks (tok_ok line) c ->
  good (all_toks (tok_ok line)) s (parseback n c s).
Proof.
  revert c s. induction n as [|n IH]; intros c s Hs Hn Hc; [lia|]. cbn [parseback].
  destruct (peek_get s [38] Hs) as (H1 & H2 & H3 & _). destruct (peek s [38]) as [b s1]. cbn [fst snd] in *. destruct b; [|by split].
  destruct (H3 eq_refl) as [H4 H5]. destruct (gettoken s1) as [[tok t] s2]. cbn [snd] in *. destruct H4 as [Hsuf Hlen].
  eapply good_from; [exact Hsuf|]. apply IH; [done|lia|done].
Qed.

Lemma parse_good n s : s `suffix_of` line ->
  ((4 * length s + 4 <= n)%nat -> good (all_toks (tok_ok line)) s (parseline n s)) /\
  ((4 * length s + 3 <= n)%nat -> good (all_toks (tok_ok line)) s (parsepipe n s)) /\
  ((4 * length s + 2 <= n)%nat -> good (all_toks (tok_ok line)) s (parseexec n s)) /\
  ((4 * length s + 1 <= n)%nat -> good (all_toks (tok_ok line)) s (parseblock n s)).
Proof.
  revert s. induction n as [|n IH]; intros s Hs; [split_and!; lia|]. split_and!; intros Hn; cbn [parseline parsepipe parseexec parseblock].
  - eapply good_bind; [apply (IH s Hs); lia|]. intros c s1 Hs1 Hc. assert (Hl1 : s1 `suffix_of` line) by (by etrans). pose proof (suffix_length _ _ Hs1).
    eapply good_bind; [apply back_good; [done|lia|done]|]. intros c2 s2 Hs2 Hc2. pose proof (suffix_length _ _ Hs2).
    destruct (peek_get s2 [59]) as (H1 & H2 & H3 & _); [by etrans|]. destruct (peek s2 [59]) as [b s3]. cbn [fst snd] in *. destruct b; [|by split].
    destruct (H3 eq_refl) as [H4 H5]. destruct (gettoken s3) as [[tok t] s4]. cbn [snd] in *. destruct H4 as [Hsuf Hlen].
    eapply good_from; [exact Hsuf|]. eapply good_bind; [apply (IH s4 H5); lia|]. intros r s5 _ Hr. by split.
  - eapply good_bind; [apply (IH s Hs); lia|]. intros c s1 Hs1 Hc. pose proof (suffix_length _ _ Hs1).
    destruct (peek_get s1 [124]) as (H1 & H2 & H3 & _); [by etrans|]. destruct (peek s1 [124]) as [b s2]. cbn [fst snd] in *. destruct b; [|by split].
    destruct (H3 eq_refl) as [H4 H5]. destruct (gettoken s2) as [[tok t] s3]. cbn [snd] in *. destruct H4 as [Hsuf Hlen].
    eapply good_from; [exact Hsuf|]. eapply good_bind; [apply (IH s3 H5); lia|]. intros r s4 _ Hr. by split.
  - destruct (peek_get s [40] Hs) as (H1 & H2 & _). destruct (peek s [40]) as [b s1]. cbn [snd] in *. pose proof (suffix_length _ _ H1).
    eapply good_from; [exact H1|]. destruct b; [apply (IH s1 H2); lia|].
    eapply good_bind; [apply redirs_good; [done|lia]|]. intros rs s2 Hs2 Hrs. pose proof (suffix_length _ _ Hs2).
    apply args_good; [by etrans|lia|constructor|done].
  - destruct (peek_get s [40] Hs) as (H1 & H2 & H3 & _). destruct (peek s [40]) as [b s1]. cbn [fst snd] in *. destruct b; [|done]. cbn [negb].
    destruct (H3 eq_refl) as [H4 H5]. destruct (gettoken s1) as [[tok t] s2]. cbn [snd] in *. destruct H4 as [Hsuf Hlen].
    eapply good_from; [exact Hsuf|]. eapply good_bind; [apply (IH s2 H5); lia|]. intros c s3 Hs3 Hc. pose proof (suffix_length _ _ Hs3).
    destruct (peek_get s3 [41]) as (J1 & J2 & J3 & _); [by etrans|]. destruct (peek s3 [41]) as [b s4]. cbn [fst snd] in *. destruct b; [|done]. cbn [negb].
    destruct (J3 eq_refl) as [J4 J5]. destruct (gettoken s4) as [[tok' t'] s5]. cbn [snd] in *. destruct J4 as [Jsuf Jlen].
    eapply good_from; [exact Jsuf|]. eapply good_bind; [apply redirs_good; [done|lia]|]. intros rs s6 _ Hrs. split; [done|]. by apply redirs_cmd.
Qed.
End Good.

(** ** nulterminate *)

Lemma all_toks_impl {A} (P Q : A -> Prop) c : (forall t, P t -> Q t) -> all_toks P c -> all_toks Q c.
Proof.
  intros H. induction c; cbn [all_toks]; [intros HF; by eapply Forall_impl|intros [? ?]; auto|intros [? ?]; auto|intros [? ?]; auto|done].
Qed.
Lemma all_toks_and {A} (P Q : A -> Prop) c : all_toks P c -> all_toks Q c -> all_toks (fun t => P t /\ Q t) c.
Proof.
  induction c; cbn [all_toks]; [intros; by apply Forall_and|intros [? ?] [? ?]; auto|intros [? ?] [? ?]; auto|intros [? ?] [? ?]; auto|done].
Qed.

Lemma map_cmd_ext {A B} (f g : A -> B) c : all_toks (fun t => f t = g t) c -> map_cmd f c = map_cmd g c.
Proof.
  induction c as [argv|c IH t m fd|l IHl r IHr|l IHl r IHr|c IH]; cbn [all_toks map_cmd].
  - intros H. f_equal. induction H as [|t ts Ht _ IH]; [done|]. cbn. by rewrite Ht, IH.
  - intros [H1 H2]. by rewrite IH, H2.
  - intros [H1 H2]. by rewrite IHl, IHr.
  - intros [H1 H2]. by rewrite IHl, IHr.
  - intros H. by rewrite IH.
Qed.

Lemma ends_in c (E : list ptr) : (forall e, e ∈ ends c -> e ∈ E) -> all_toks (fun t => snd t ∈ E) c.
Proof.
  induction c as [argv|c IH t m fd|l IHl r IHr|l IHl r IHr|c IH]; cbn [all_toks ends]; intros H.
  - apply Forall_forall. intros t Ht. apply H, list_elem_of_fmap. eauto.
  - split; [apply IH|]; intros; apply H; apply elem_of_app; [by left|right; by apply list_elem_of_singleton].
  - split; [apply IHl|apply IHr]; intros; apply H; apply elem_of_app; auto.
  - split; [apply IHl|apply IHr]; intros; apply H; apply elem_of_app; auto.
  - by apply IH.
Qed.

Lemma ends_of c (P : token -> Prop) e : all_toks P c -> e ∈ ends c -> exists t, P t /\ e = snd t.
Proof.
  induction c as [argv|c IH t m fd|l IHl r IHr|l IHl r IHr|c IH]; cbn [all_toks ends].
  - intros HF (t & -> & Ht)%list_elem_of_fmap. rewrite Forall_forall in HF. eauto.
  - intros [H1 H2] [He| ->%list_elem_of_singleton]%elem_of_app; eauto.
  - intros [H1 H2] [He|He]%elem_of_app; eauto.
  - intros [H1 H2] [He|He]%elem_of_app; eauto.
  - eauto.
Qed.

(** The buffer after NULs are stored at the given offsets. *)
Lemma clear_lookup (f : ptr -> nat) es (buf : list Z) i : (i < length buf)%nat ->
  fold_left (fun b e => <[f e := 0]> b) es buf !! i = if decide (i ∈ map f es) then Some 0 else buf !! i.
Proof.
  revert buf. induction es as [|e es IH]; intros buf Hi; [done|]. cbn [fold_left map]. rewrite IH by (by rewrite length_insert).
  destruct (decide (i ∈ map f es)) as [Hin|Hin].
  - rewrite decide_True; [done|]. by constructor.
  - destruct (decide (i = f e)) as [->|Hne].
    + rewrite decide_True by constructor. by rewrite list_lookup_insert_eq.
    + rewrite decide_False by (intros [?|?]%elem_of_cons; done). by rewrite list_lookup_insert_ne.
Qed.

Lemma cstring_app w r : Forall (fun c => c <> 0) w -> cstring (w ++ 0 :: r) = w.
Proof. induction 1 as [|c w Hc _ IH]; [done|]. cbn [cstring app]. rewrite (proj2 (Z.eqb_neq c 0)), IH by done. done. Qed.

Lemma off_app pre s : off (pre ++ s) s = length pre.
Proof. unfold off. rewrite length_app. lia. Qed.

(** A suffix of the line is known by its offset. *)
Lemma suffix_off line s : s `suffix_of` line -> s = drop (off line s) line.
Proof. intros [pre ->]. by rewrite off_app, drop_app_length. Qed.

Lemma drop_word (buf : list Z) n w : (forall k x, w !! k = Some x -> buf !! (n + k)%nat = Some x) -> buf !! (n + length w)%nat = Some 0 ->
  exists r, drop n buf = w ++ 0 :: r.
Proof.
  intros Hw H0. exists (drop (S (n + length w)) buf). rewrite <- (take_drop (length w) (drop n buf)). f_equal.
  - apply list_eq. intros i. destruct (decide (i < length w)%nat) as [Hi|Hi].
    + rewrite lookup_take_lt by done. rewrite lookup_drop. destruct (lookup_lt_is_Some_2 w i Hi) as [x Hx]. rewrite Hx. by apply Hw.
    + rewrite lookup_take_ge, lookup_ge_None_2 by lia. done.
  - rewrite drop_drop. apply drop_S. done.
Qed.

Lemma nulterminate_text line c t : all_toks (tok_ok line) c -> tok_ok line t -> snd t ∈ ends c ->
  string_at (nulterminate line c) line t = text t.
Proof.
  intros Hc ([pre Hq] & (w & Ew & Hw & Hwc) & Hh) Hin. unfold string_at, text. destruct t as [q e]. cbn [fst snd] in *. subst line q.
  rewrite off_app, length_app. replace (length w + length e - length e)%nat with (length w) by lia. rewrite take_app_length.
  set (line := pre ++ w ++ e) in *. assert (Hlen : length line = (length pre + length w + length e)%nat) by (unfold line; rewrite !length_app; lia).
  assert (He : off line e = (length pre + length w)%nat) by (unfold line; rewrite app_assoc, off_app, length_app; done).
  assert (Hends : forall f, f ∈ ends c -> f = drop (off line f) line /\ forall y, head f = Some y -> ~ wordc y).
  { intros f Hf. destruct (ends_of c _ f Hc Hf) as (t & ([p Ht] & (v & Ev & _) & Ht2) & ->). split; [|done].
    apply suffix_off. exists (p ++ v). by rewrite <- app_assoc, <- Ev. }
  destruct (drop_word (nulterminate line c) (length pre) w) as (r & ->).
  - intros k x Hx. pose proof (lookup_lt_Some _ _ _ Hx) as Hk. unfold nulterminate. rewrite clear_lookup by (rewrite length_app; cbn; lia).
    rewrite decide_False.
    + rewrite lookup_app_l by lia. unfold line. rewrite lookup_app_r, lookup_app_l by lia. by replace (length pre + k - length pre)%nat with k by lia.
    + intros (f & Ef & Hf)%list_elem_of_fmap. destruct (Hends f Hf) as (Efd & Hnw). apply (Hnw x).
      * rewrite Efd, <- Ef. unfold line. rewrite <- drop_drop, drop_app_length. rewrite drop_app_le by lia.
        rewrite (drop_S _ x) by done. done.
      * rewrite Forall_forall in Hwc. apply Hwc, list_elem_of_lookup. eauto.
  - unfold nulterminate. rewrite clear_lookup by (rewrite length_app; cbn; lia). rewrite decide_True; [done|].
    apply list_elem_of_fmap. exists e. by rewrite He.
  - apply cstring_app. eapply Forall_impl; [exact Hwc|]. by intros x (_ & _ & ?).
Qed.

(** After nulterminate every string of a parsed command reads as its text. *)
Lemma nulterminate_cmd line c : all_toks (tok_ok line) c -> map_cmd (string_at (nulterminate line c) line) c = map_cmd text c.
Proof.
  intros Hc. apply map_cmd_ext. pose proof (all_toks_and _ _ _ Hc (ends_in c (ends c) ltac:(done))) as Ha.
  eapply all_toks_impl; [|exact Ha]. intros t [H1 H2]. by apply nulterminate_text.
Qed.

Lemma parseline_good line : Forall (fun c => c <> 0) line -> good (all_toks (tok_ok line)) line (parseline (8 * length line + 8) line).
Proof. intros Hn. destruct (parse_good line Hn (8 * length line + 8) line ltac:(done)) as [H _]. apply H. lia. Qed.

(** C30: The parser ends on every line: it reports an error, or it uses up the
    line and yields a command each of whose strings, as exec and open will
    read it from the line after nulterminate, is a word that stands in the
    line: no NUL it stores falls into a word. *)
Theorem sh_parse_sound line : Forall (fun c => c <> 0) line ->
  match parsecmd line with
  | POk c s => s = [] /\ exists ct, all_toks (tok_ok line) ct /\ c = map_cmd text ct
  | PErr _ _ => True
  | PFuel => False
  end.
Proof.
  intros Hn. unfold parsecmd. pose proof (parseline_good line Hn) as H.
  destruct (parseline (8 * length line + 8) line) as [c s|msg|]; cbn [pbind good] in *; [|done..]. destruct H as [Hs Hc].
  destruct (peek s []) as [b s1]. destruct s1 as [|x s1]; [|done]. split; [done|]. exists c. split; [done|]. by apply nulterminate_cmd.
Qed.

Lemma sh_parse_sound_witness : match parsecmd (str "ls -l | (wc > out; x)&") with
  | POk c s => s = [] /\ exists ct, all_toks (tok_ok (str "ls -l | (wc > out; x)&")) ct /\ c = map_cmd text ct
  | PErr _ _ => True
  | PFuel => False
  end.
Proof. apply (sh_parse_sound (str "ls -l | (wc > out; x)&")). repeat constructor; discriminate. Defined.
