(* ===== verification/ShPrint.v ===== *)
(** * Printing commands and parsing them back (sh.c)

    A printer for commands, with parentheses where the grammar asks for them,
    and the parser as its inverse. *)

From S2P Require Import Prelude.
From S2P Require Import Params.
From S2P Require Import Sysfile.
From S2P Require Import User.
From S2P Require Import Printf.
From S2P Require Import Sh.
From S2P Require Import ShSpec.

(** ** The printer *)

(** The place in the grammar: line, command with &, pipe, single command. *)
Definition level {A} (c : cmd A) : nat :=
  match c with
  | EXEC _ | REDIR _ _ _ _ => 3
  | PIPE _ _ => 2
  | BACK _ => 1
  | LIST _ _ => 0
  end.

Definition wrap {A} (lvl : nat) (c : cmd A) (b : list Z) : list Z :=
  if (lvl <=? level c)%nat then b else [32; 40] ++ b ++ [32; 41].

Definition print_args (args : list (list Z)) : list Z := concat (map (cons 32) args).
Definition print_redir (r : list Z * Z * Z) : list Z := [32; if snd (fst r) =? O_RDONLY then 60 else 62; 32] ++ fst (fst r).
Definition print_redirs (rs : list (list Z * Z * Z)) : list Z := concat (map print_redir rs).

Fixpoint body (c : cmd (list Z)) : list Z :=
  match c with
  | EXEC argv => print_args argv
  | REDIR c f m fd => wrap 3 c (body c) ++ print_redir (f, m, fd)
  | PIPE l r => wrap 3 l (body l) ++ [32; 124] ++ wrap 2 r (body r)
  | BACK c => wrap 1 c (body c) ++ [32; 38]
  | LIST l r => wrap 1 l (body l) ++ [32; 59] ++ body r
  end.

Definition redir_ok (r : list Z * Z * Z) : Prop :=
  word (fst (fst r)) /\ (snd (fst r) = O_RDONLY /\ snd r = 0 \/ snd (fst r) = Z.lor O_WRONLY O_CREATE /\ snd r = 1).

(** The commands the shell can express. *)
Fixpoint valid (c : cmd (list Z)) : Prop :=
  match c with
  | EXEC argv => Forall word argv /\ (length argv < MAXARGS)%nat
  | REDIR c f m fd => valid c /\ redir_ok (f, m, fd)
  | PIPE l r | LIST l r => valid l /\ valid r
  | BACK c => valid c
  end.

(** ** Fuel *)

Definition ev {A} (f : nat -> pres A) (r : pres A) : Prop := exists N, forall n, (N <= n)%nat -> f n = r.

Lemma ev_const {A} (r : pres A) : ev (fun _ => r) r.
Proof. by exists 0%nat. Qed.
Lemma ev_step {A} (f g : nat -> pres A) r : (forall n, g (S n) = f n) -> ev f r -> ev g r.
Proof. intros H [N HN]. exists (S N). intros [|n] Hn; [lia|]. rewrite H. apply HN. lia. Qed.
Lemma ev_bind {A B} (f : nat -> pres A) (k : nat -> A -> ptr -> pres B) a s r : ev f (POk a s) -> ev (fun n => k n a s) r ->
  ev (fun n => pbind (f n) (k n)) r.
Proof.
  intros [N HN] [N' HN']. exists (Nat.max N N'). intros n Hn. rewrite HN by lia. cbn [pbind]. apply HN'. lia.
Qed.

Definition fle {A} (r r' : pres A) : Prop := r = PFuel \/ r = r'.
Lemma fle_refl {A} (r : pres A) : fle r r.
Proof. by right. Qed.
Lemma fle_bind {A B} (m m' : pres A) (k k' : A -> ptr -> pres B) : fle m m' -> (forall a s, fle (k a s) (k' a s)) -> fle (pbind m k) (pbind m' k').
Proof. intros [-> | ->] H; [by left|]. destruct m'; cbn [pbind]; [apply H|by right|by right]. Qed.

Lemma redirs_mono n s : fle (parseredirs n s) (parseredirs (S n) s).
Proof.
  revert s. induction n as [|n IH]; intros s; [by left|].
  cbn [parseredirs]. destruct (peek s [60; 62]) as [[] s1]; [|by right]. destruct (gettoken s1) as [[tok t] s2]. destruct (gettoken s2) as [[t2 f] s3].
  destruct (negb (t2 =? 97)); [by right|]. apply fle_bind; [apply IH|]. intros. by right.
Qed.
Lemma args_mono n s args rs : fle (parseargs n s args rs) (parseargs (S n) s args rs).
Proof.
  revert s args rs. induction n as [|n IH]; intros s args rs; [by left|]. cbn [parseargs]. destruct (peek s [124; 41; 38; 59]) as [[] s1]; [by right|].
  destruct (gettoken s1) as [[tok t] s2]. destruct (tok =? 0); [by right|]. destruct (negb (tok =? 97)); [by right|].
  destruct (MAXARGS <=? length args + 1)%nat; [by right|]. apply fle_bind; [apply redirs_mono|]. intros. apply IH.
Qed.
Lemma back_mono {A} n (c : cmd A) s : fle (parseback n c s) (parseback (S n) c s).
Proof.
  revert c s. induction n as [|n IH]; intros c s; [by left|]. cbn [parseback]. destruct (peek s [38]) as [[] s1]; [|by right].
  destruct (gettoken s1) as [[tok t] s2]. apply IH.
Qed.
Lemma parse_mono n s : fle (parseline n s) (parseline (S n) s) /\ fle (parsepipe n s) (parsepipe (S n) s) /\
  fle (parseexec n s) (parseexec (S n) s) /\ fle (parseblock n s) (parseblock (S n) s).
Proof.
  revert s. induction n as [|n IH]; intros s; [split_and!; by left|]. split_and!; cbn [parseline parsepipe parseexec parseblock].
  - apply fle_bind; [apply IH|]. intros c s1. apply fle_bind; [apply back_mono|]. intros c2 s2. destruct (peek s2 [59]) as [[] s3]; [|by right].
    destruct (gettoken s3) as [[tok t] s4]. apply fle_bind; [apply IH|]. intros. by right.
  - apply fle_bind; [apply IH|]. intros c s1. destruct (peek s1 [124]) as [[] s2]; [|by right].
    destruct (gettoken s2) as [[tok t] s3]. apply fle_bind; [apply IH|]. intros. by right.
  - destruct (peek s [40]) as [[] s1]; [apply IH|]. apply fle_bind; [apply redirs_mono|]. intros. apply args_mono.
  - destruct (peek s [40]) as [[] s1]; [|by right]. cbn [negb]. destruct (gettoken s1) as [[tok t] s2]. apply fle_bind; [apply IH|].
    intros c s3. destruct (peek s3 [41]) as [[] s4]; [|by right]. cbn [negb]. destruct (gettoken s4) as [[tok' t'] s5].
    apply fle_bind; [apply redirs_mono|]. intros. by right.
Qed.

Lemma line_mono n m s : (n <= m)%nat -> fle (parseline n s) (parseline m s).
Proof.
  induction 1 as [|m Hm IH]; [by right|]. destruct IH as [->|E]; [by left|]. rewrite E. apply parse_mono.
Qed.

Lemma ev_enough n s r : ev (fun n => parseline n s) r -> parseline n s <> PFuel -> parseline n s = r.
Proof.
  intros [N HN] Hn. destruct (line_mono n (Nat.max n N) s ltac:(lia)) as [?|E]; [done|]. rewrite E. apply HN. lia.
Qed.

(** ** Scanning printed text *)

Definition same (s t : ptr) : Prop := skip_ws s = skip_ws t.
Definition spaced (r : list Z) : Prop := r = [] \/ exists r', r = 32 :: r'.
(** What follows is the end or one of [toks]. *)
Definition stops (toks : list Z) (r : list Z) : Prop := skip_ws r = [] \/ exists c r', skip_ws r = c :: r' /\ is_in toks c = true.

Lemma peek_same s t k : same s t -> peek s k = peek t k.
Proof. unfold same, peek. by intros ->. Qed.
Lemma get_same s t : same s t -> gettoken s = gettoken t.
Proof. unfold same, gettoken. by intros ->. Qed.
Lemma same_skip s : same (skip_ws s) s.
Proof. apply skip_ws_idem. Qed.
Lemma skip_space s : skip_ws (32 :: s) = skip_ws s.
Proof. reflexivity. Qed.

Lemma word_skip w r : word w -> skip_ws (w ++ r) = w ++ r.
Proof. intros [Hn Hw]. destruct Hw as [|c w [Hc _] _]; [done|]. cbn [skip_ws app]. by rewrite Hc. Qed.
Lemma bare_head w : word w -> exists c w', w = c :: w' /\ wordc c.
Proof. intros [Hn Hw]. destruct Hw as [|c w Hc _]; [done|]. eauto. Qed.

Lemma skip_word_app w r : Forall wordc w -> spaced r -> skip_word (w ++ r) = r.
Proof.
  intros Hw Hr. induction Hw as [|c w (H1 & H2 & _) _ IH]; cbn [app].
  - destruct Hr as [->|[r' ->]]; done.
  - cbn [skip_word]. by rewrite H1, H2.
Qed.

Lemma get_word w r : word w -> spaced r -> gettoken (w ++ r) = (97, (w ++ r, r), skip_ws r).
Proof.
  intros Hw Hr. unfold gettoken. rewrite word_skip by done. destruct (bare_head w Hw) as (c & w' & E & H1 & H2 & _).
  pose proof (skip_word_app w r (proj2 Hw) Hr) as Hk. rewrite E in *. cbn [app] in *.
  assert (E62 : (c =? 62) = false) by (apply Z.eqb_neq; intros ->; done). rewrite E62, H2, Hk. done.
Qed.

Lemma text_word w r : text (w ++ r, r) = w.
Proof. unfold text. cbn [fst snd]. rewrite length_app. replace (length w + length r - length r)%nat with (length w) by lia. apply take_app_length. Qed.

Lemma peek_word w r toks : word w -> (forall c, is_in toks c = true -> is_in symbols c = true) -> peek (w ++ r) toks = (false, w ++ r).
Proof.
  intros Hw Ht. unfold peek. rewrite word_skip by done. destruct (bare_head w Hw) as (c & w' & -> & _ & H2 & _). cbn [app].
  destruct (is_in toks c) eqn:E; [|done]. rewrite Ht in H2; done.
Qed.

Lemma get_sym c r : is_in symbols c = true -> is_in whitespace c = false -> spaced r -> gettoken (c :: r) = (c, (c :: r, r), skip_ws r).
Proof.
  intros Hc Hw Hr. unfold gettoken. cbn [skip_ws]. rewrite Hw, Hc. destruct (c =? 62) eqn:E; [|done]. apply Z.eqb_eq in E as ->.
  destruct Hr as [->|[r' ->]]; done.
Qed.

Lemma peek_sym c r toks : is_in whitespace c = false -> peek (32 :: c :: r) toks = (is_in toks c, c :: r).
Proof. intros Hw. unfold peek. rewrite skip_space. cbn [skip_ws]. by rewrite Hw. Qed.

Lemma peek_stops r toks k : stops toks r -> (forall c, is_in toks c = true -> is_in k c = false) -> peek r k = (false, skip_ws r).
Proof.
  intros Hs Hk. unfold peek. destruct Hs as [->|(c & r' & -> & Hc)]; [done|]. by rewrite Hk.
Qed.

(** ** Redirections and arguments *)

Definition rtext (r : redir) : list Z * Z * Z := (text (fst (fst r)), snd (fst r), snd r).
Definition ends_exec : list Z := [124; 41; 38; 59].

Lemma map_cmd_redirs rs (c : cmd token) : map_cmd text (fold_left redircmd rs c) = fold_left redircmd (map rtext rs) (map_cmd text c).
Proof. revert c. induction rs as [|r rs IH]; intros c; [done|]. cbn [fold_left map]. by rewrite IH. Qed.

Lemma redirs_spaced rs r : spaced r -> spaced (print_redirs rs ++ r).
Proof. intros H. destruct rs as [|x rs]; [done|]. right. by eexists. Qed.

(** A place where no redirection starts. *)
Definition no_redir (r : list Z) : Prop := peek r [60; 62] = (false, skip_ws r).

Lemma redirs_print rs s rest : same s (print_redirs rs ++ rest) -> Forall redir_ok rs -> no_redir rest -> spaced rest ->
  exists rs', map rtext rs' = rs /\ ev (fun n => parseredirs n s) (POk rs' (skip_ws rest)).
Proof.
  intros Hs Hr Hn Hsp. revert s Hs. induction Hr as [|[[f m] fd] rs [Hw Hm] Hr IH]; intros s Hs.
  { change (same s rest) in Hs. exists []. split; [done|]. eapply ev_step; [intros n; cbn [parseredirs]; rewrite (peek_same _ _ _ Hs), Hn; reflexivity|]. apply ev_const. }
  cbn [fst snd] in *. set (tl := print_redirs rs ++ rest) in *. set (sy := if m =? O_RDONLY then 60 else 62).
  assert (Hs' : same s (32 :: sy :: 32 :: f ++ tl)).
  { unfold same in Hs |- *. rewrite Hs. unfold print_redirs. cbn [map concat]. unfold print_redir at 1. cbn [fst snd]. rewrite <- !app_assoc. done. }
  assert (Hsy : is_in symbols sy = true /\ is_in whitespace sy = false /\ is_in [60; 62] sy = true) by (unfold sy; by destruct (m =? O_RDONLY)).
  destruct Hsy as (S1 & S2 & S3). destruct (IH (skip_ws tl)) as (rs' & E & Hev); [apply same_skip|].
  exists ((f ++ tl, tl, m, fd) :: rs'). split; [cbn [map]; rewrite E; unfold rtext; cbn [fst snd]; by rewrite text_word|].
  eapply ev_step; [|apply (ev_bind _ (fun n rs s4 => POk ((f ++ tl, tl, m, fd) :: rs) s4) _ _ _ Hev), ev_const].
  intros n. cbn [parseredirs]. rewrite (peek_same _ _ _ Hs'), peek_sym, S3 by done.
  rewrite get_sym by (try done; right; by eexists). rewrite (get_same (skip_ws (32 :: f ++ tl)) (f ++ tl)) by (unfold same; by rewrite skip_ws_idem).
  rewrite get_word by (try done; by apply redirs_spaced). cbn [negb Z.eqb Pos.eqb].
  unfold sy. destruct Hm as [[-> ->]|[-> ->]]; reflexivity.
Qed.

Lemma args_spaced args r : spaced r -> spaced (print_args args ++ r).
Proof. intros H. destruct args as [|x args]; [done|]. right. by eexists. Qed.

Lemma stops_no_redir r : stops ends_exec r -> no_redir r.
Proof.
  intros H. apply (peek_stops r ends_exec); [done|]. intros c Hc. unfold is_in, ends_exec in *. cbn in *.
  destruct (c =? 60) eqn:E1; [apply Z.eqb_eq in E1 as ->; done|]. destruct (c =? 62) eqn:E2; [apply Z.eqb_eq in E2 as ->; done|]. done.
Qed.

Lemma word_no_redir w r : word w -> no_redir (32 :: w ++ r).
Proof.
  intros Hw. unfold no_redir. rewrite (peek_same _ (w ++ r)) by apply skip_space. rewrite skip_space, word_skip by done.
  apply peek_word; [done|]. intros c. unfold is_in. cbn. destruct (c =? 60) eqn:E1; [by apply Z.eqb_eq in E1 as ->|].
  destruct (c =? 62) eqn:E2; [by apply Z.eqb_eq in E2 as ->|done].
Qed.

Lemma ends_exec_symbols c : is_in ends_exec c = true -> is_in symbols c = true.
Proof.
  unfold is_in, ends_exec. cbn. intros H. repeat (apply orb_true_iff in H as [H|H]; [apply Z.eqb_eq in H as ->; done|]). done.
Qed.

(** The end of the arguments. *)
Lemma args_end s acc rs0 rest : same s rest -> stops ends_exec rest ->
  ev (fun n => parseargs n s acc rs0) (POk (fold_left redircmd rs0 (EXEC acc)) (skip_ws rest)).
Proof.
  intros Hs Hst. eapply ev_step; [|apply ev_const]. intros n. cbn [parseargs]. rewrite (peek_same _ _ _ Hs). unfold peek.
  destruct Hst as [->|(c & r' & -> & Hc)]; [done|]. unfold ends_exec in Hc. by rewrite Hc.
Qed.

Lemma args_print args s acc rs0 rs rest : same s (print_args args ++ print_redirs rs ++ rest) -> Forall word args ->
  (length acc + length args < MAXARGS)%nat -> args <> [] -> Forall redir_ok rs -> stops ends_exec rest -> spaced rest ->
  exists c', map_cmd text c' = fold_left redircmd (map rtext rs0 ++ rs) (EXEC (map text acc ++ args)) /\
    ev (fun n => parseargs n s acc rs0) (POk c' (skip_ws rest)).
Proof.
  intros Hs Hw Hl Hne Hr Hst Hsp. revert s acc rs0 Hs Hl. induction Hw as [|w args Hw Hws IH]; intros s acc rs0 Hs Hl; [done|]. clear Hne.
  set (tl := print_args args ++ print_redirs rs ++ rest) in *. cbn [length] in Hl.
  assert (Htl : spaced tl) by (apply args_spaced, redirs_spaced, Hsp).
  assert (Hs' : same s (w ++ tl)).
  { unfold same in Hs |- *. rewrite Hs. unfold print_args. cbn [map concat app]. rewrite skip_space, <- !app_assoc. done. }
  assert (Hstep : forall n, parseargs (S n) s acc rs0 = pbind (parseredirs n (skip_ws tl)) (fun rs' s3 => parseargs n s3 (acc ++ [(w ++ tl, tl)]) (rs0 ++ rs'))).
  { intros n. cbn [parseargs]. change [124; 41; 38; 59] with ends_exec. rewrite (peek_same _ _ _ Hs'), (peek_word w tl _ Hw ends_exec_symbols), get_word by done. cbn [Z.eqb Pos.eqb negb].
    replace (MAXARGS <=? length acc + 1)%nat with false; [done|]. symmetry. apply Nat.leb_gt. lia. }
  destruct args as [|w' args].
  - destruct (redirs_print rs (skip_ws tl) rest) as (rs' & E & Hev); [apply same_skip|done|by apply stops_no_redir|done|].
    exists (fold_left redircmd (rs0 ++ rs') (EXEC (acc ++ [(w ++ tl, tl)]))). split.
    + rewrite map_cmd_redirs, map_app, E. cbn [map_cmd]. rewrite map_app. cbn [map]. by rewrite text_word.
    + eapply ev_step; [exact Hstep|]. eapply (ev_bind _ _ _ _ _ Hev). apply args_end; [apply same_skip|done].
  - destruct (redirs_print [] (skip_ws tl) tl) as (rs' & E & Hev); [apply same_skip|done| |done|].
    { unfold tl, print_args. cbn [map concat app]. rewrite <- app_assoc. apply word_no_redir. by inversion Hws. }
    apply map_eq_nil in E as ->. destruct (IH ltac:(done) (skip_ws tl) (acc ++ [(w ++ tl, tl)]) rs0) as (c' & Ec & Hevc).
    + apply same_skip.
    + rewrite length_app. cbn [length] in *. lia.
    + exists c'. split; [rewrite Ec, map_app, <- app_assoc; cbn [map app]; by rewrite text_word|].
      eapply ev_step; [exact Hstep|]. eapply (ev_bind _ _ _ _ _ Hev). by rewrite app_nil_r.
Qed.

(** ** Commands *)

Definition ends_pipe : list Z := [41; 38; 59].
Definition ends_line : list Z := [41].

Fixpoint amps (k : nat) : list Z := match k with O => [] | S k => [32; 38] ++ amps k end.
Fixpoint backs {A} (k : nat) (c : cmd A) : cmd A := match k with O => c | S k => backs k (BACK c) end.

Definition L3 (c : cmd (list Z)) : Prop := forall s rs rest,
  same s (wrap 3 c (body c) ++ print_redirs rs ++ rest) -> Forall redir_ok rs -> stops ends_exec rest -> spaced rest ->
  exists c', map_cmd text c' = fold_left redircmd rs c /\ ev (fun n => parseexec n s) (POk c' (skip_ws rest)).
Definition L2 (c : cmd (list Z)) : Prop := forall s rest,
  same s (wrap 2 c (body c) ++ rest) -> stops ends_pipe rest -> spaced rest ->
  exists c', map_cmd text c' = c /\ ev (fun n => parsepipe n s) (POk c' (skip_ws rest)).
Definition L1 (c : cmd (list Z)) : Prop := forall s k rest,
  same s (wrap 1 c (body c) ++ amps k ++ rest) -> stops [41; 59] rest -> spaced rest ->
  exists c', map_cmd text c' = backs k c /\
    ev (fun n => pbind (parsepipe n s) (fun c s1 => parseback n c s1)) (POk c' (skip_ws rest)).
Definition L0 (c : cmd (list Z)) : Prop := forall s rest,
  same s (body c ++ rest) -> stops ends_line rest -> spaced rest ->
  exists c', map_cmd text c' = c /\ ev (fun n => parseline n s) (POk c' (skip_ws rest)).

Lemma stops_sub l k r : stops l r -> (forall c, is_in l c = true -> is_in k c = true) -> stops k r.
Proof. intros [H|(c & r' & H1 & H2)] Hk; [by left|right; eauto]. Qed.

Lemma is_in_sub l k : forallb (is_in k) l = true -> forall c, is_in l c = true -> is_in k c = true.
Proof.
  intros H c Hc. unfold is_in in Hc. apply existsb_exists in Hc as (x & Hx & E). apply Z.eqb_eq in E as ->.
  rewrite forallb_forall in H. by apply H.
Qed.
Lemma is_in_dis l k : forallb (fun c => negb (is_in k c)) l = true -> forall c, is_in l c = true -> is_in k c = false.
Proof.
  intros H c Hc. unfold is_in in Hc. apply existsb_exists in Hc as (x & Hx & E). apply Z.eqb_eq in E as ->.
  rewrite forallb_forall in H. by apply negb_true_iff, H.
Qed.

Lemma sym_stops toks c r : is_in toks c = true -> is_in whitespace c = false -> stops toks (32 :: c :: r).
Proof. intros H1 H2. right. exists c, r. rewrite skip_space. cbn [skip_ws]. by rewrite H2. Qed.

(** parsepipe on a single command. *)
Lemma L2_of_L3 c : level c <> 2%nat -> L3 c -> L2 c.
Proof.
  intros Hl H3 s rest Hs Hst Hsp. assert (Ew : wrap 2 c (body c) = wrap 3 c (body c)) by (destruct c; done). rewrite Ew in Hs.
  destruct (H3 s [] rest) as (c' & E & Hev); [done|done|eapply stops_sub; [exact Hst|by apply is_in_sub]|done|]. exists c'. split; [done|].
  eapply ev_step; [intros n; cbn [parsepipe]; reflexivity|]. eapply (ev_bind _ _ _ _ _ Hev). cbv beta.
  rewrite (peek_same _ rest) by apply same_skip. rewrite (peek_stops rest ends_pipe [124]) by (try done; by apply is_in_dis). apply ev_const.
Qed.

(** The & loop. *)
Lemma back_print k (c' : cmd token) rest : stops [41; 59] rest -> spaced rest ->
  ev (fun n => parseback n c' (skip_ws (amps k ++ rest))) (POk (backs k c') (skip_ws rest)).
Proof.
  intros Hst Hsp. revert c'. induction k as [|k IH]; intros c'; cbn [amps backs app].
  - eapply ev_step; [intros n; cbn [parseback]; reflexivity|]. cbv beta. rewrite (peek_same _ rest) by apply same_skip.
    rewrite (peek_stops rest [41; 59] [38]) by (try done; by apply is_in_dis). apply ev_const.
  - eapply ev_step; [|exact (IH (BACK c'))]. intros n. cbn [parseback]. rewrite (peek_same _ (32 :: 38 :: amps k ++ rest)) by apply same_skip.
    rewrite peek_sym by done. cbn [is_in existsb]. change (38 =? 38) with true. cbn [orb].
    rewrite get_sym; [done|done|done|]. destruct k; [done|]. right. by eexists.
Qed.

Lemma backs_text k (c : cmd token) : map_cmd text (backs k c) = backs k (map_cmd text c).
Proof. revert c. induction k as [|k IH]; intros c; [done|]. cbn [backs]. by rewrite IH. Qed.

Lemma L1_of_L2 c : level c <> 1%nat -> L2 c -> L1 c.
Proof.
  intros Hl H2 s k rest Hs Hst Hsp. assert (Ew : wrap 1 c (body c) = wrap 2 c (body c)) by (destruct c; done). rewrite Ew in Hs.
  assert (Hsp' : spaced (amps k ++ rest)) by (destruct k; [done|right; by eexists]).
  destruct (H2 s (amps k ++ rest)) as (c' & E & Hev); [done| |done|].
  { destruct k; [eapply stops_sub; [exact Hst|by apply is_in_sub]|by apply sym_stops]. }
  exists (backs k c'). split; [by rewrite backs_text, E|]. eapply (ev_bind _ _ _ _ _ Hev). by apply back_print.
Qed.

(** parseline on a command that is not a list. *)
Lemma L0_of_L1 c : level c <> 0%nat -> L1 c -> L0 c.
Proof.
  intros Hl H1 s rest Hs Hst Hsp. assert (Ew : body c = wrap 1 c (body c)) by (destruct c; done). rewrite Ew in Hs.
  destruct (H1 s 0%nat rest) as (c' & E & Hev); [done|eapply stops_sub; [exact Hst|by apply is_in_sub]|done|]. exists c'. split; [done|].
  eapply ev_step; [intros n; cbn [parseline]; reflexivity|]. destruct Hev as [N HN]. exists N. intros n Hn. specialize (HN n Hn).
  destruct (parsepipe n s) as [c1 s1| |]; cbn [pbind] in *; [|done..]. rewrite HN. cbn [pbind].
  rewrite (peek_same _ rest) by apply same_skip. rewrite (peek_stops rest ends_line [59]) by (try done; by apply is_in_dis). done.
Qed.

Lemma body_spaced c : spaced (body c).
Proof.
  induction c as [[|a l]|d IH f m fd|l IHl r IHr|l IHl r IHr|d IH]; cbn [body]; [by left|right; by eexists|..].
  all: unfold wrap; case_match; [|right; by eexists]. all: first [destruct IH as [->|[? ->]] | destruct IHl as [->|[? ->]]]; right; by eexists.
Qed.

(** A command in parentheses. *)
Lemma L3_of_L0 c : (level c < 3)%nat -> L0 c -> L3 c.
Proof.
  intros Hl H0 s rs rest Hs Hr Hst Hsp. assert (Ew : wrap 3 c (body c) = 32 :: 40 :: body c ++ [32; 41]) by (destruct c; cbn in Hl |- *; (lia || done)).
  rewrite Ew in Hs. set (tl := print_redirs rs ++ rest) in *. assert (Htl : spaced tl) by (by apply redirs_spaced).
  assert (Hs' : same s (32 :: 40 :: body c ++ 32 :: 41 :: tl)) by (unfold same in *; rewrite Hs; cbn [app]; rewrite <- !app_assoc; done).
  assert (Hb : spaced (body c ++ 32 :: 41 :: tl)).
  { destruct (body_spaced c) as [->|[? ->]]; right; by eexists. }
  destruct (H0 (skip_ws (body c ++ 32 :: 41 :: tl)) (32 :: 41 :: tl)) as (c' & E & Hev); [apply same_skip|by apply sym_stops|right; by eexists|].
  destruct (redirs_print rs (skip_ws tl) rest) as (rs' & Er & Hevr); [apply same_skip|done|by apply stops_no_redir|done|].
  exists (fold_left redircmd rs' c'). split; [by rewrite map_cmd_redirs, E, Er|].
  eapply ev_step; [intros n; cbn [parseexec]; rewrite (peek_same _ _ _ Hs'), peek_sym by done; reflexivity|].
  eapply ev_step; [intros n; cbn [parseblock]; reflexivity|]. cbv beta.
  rewrite (peek_same _ (32 :: 40 :: body c ++ 32 :: 41 :: tl)) by done. rewrite peek_sym by done. change (is_in [40] 40) with true. cbn [negb].
  rewrite get_sym by done. eapply (ev_bind _ _ _ _ _ Hev). cbv beta.
  rewrite (peek_same _ (32 :: 41 :: tl)) by apply same_skip. rewrite peek_sym by done. change (is_in [41] 41) with true. cbn [negb].
  rewrite get_sym by done. eapply (ev_bind _ _ _ _ _ Hevr). apply ev_const.
Qed.

Lemma wrap_spaced l c : spaced (wrap l c (body c)).
Proof. unfold wrap. case_match; [apply body_spaced|right; by eexists]. Qed.
Lemma spaced_app a r : spaced a -> spaced r -> spaced (a ++ r).
Proof. intros [->|[a' ->]] Hr; [done|right; by eexists]. Qed.

(** parseexec at a place where no block starts. *)
Lemma exec_start s t n : same s t -> peek t [40] = (false, skip_ws t) ->
  parseexec (S n) s = pbind (parseredirs n (skip_ws t)) (fun rs s2 => parseargs n s2 [] rs).
Proof. intros Hs Hp. cbn [parseexec]. by rewrite (peek_same _ _ _ Hs), Hp. Qed.

Lemma L3_exec args : Forall word args -> (length args < MAXARGS)%nat -> L3 (EXEC args).
Proof.
  intros Hw Hl s rs rest Hs Hr Hst Hsp. change (wrap 3 (EXEC args) (body (EXEC args))) with (print_args args) in Hs.
  destruct args as [|w args].
  - change (print_args [] ++ print_redirs rs ++ rest) with (print_redirs rs ++ rest) in Hs.
    destruct (redirs_print rs (skip_ws (print_redirs rs ++ rest)) rest) as (rs' & E & Hev); [apply same_skip|done|by apply stops_no_redir|done|].
    exists (fold_left redircmd rs' (EXEC [])). split; [by rewrite map_cmd_redirs, E|].
    eapply ev_step; [intros n; apply (exec_start s _ n Hs)|].
    + destruct rs as [|[[f m] fd] rs]; [apply (peek_stops rest ends_exec); [done|by apply is_in_dis]|].
      unfold print_redirs, print_redir. cbn [map concat app fst snd]. unfold peek. rewrite skip_space. by destruct (m =? O_RDONLY).
    + eapply (ev_bind _ _ _ _ _ Hev). apply args_end; [apply same_skip|done].
  - set (tl := print_args (w :: args) ++ print_redirs rs ++ rest) in *.
    assert (Etl : tl = 32 :: w ++ (print_args args ++ print_redirs rs ++ rest)).
    { unfold tl, print_args. cbn [map concat app]. by rewrite <- !app_assoc. }
    destruct (redirs_print [] (skip_ws tl) tl) as (rs' & E & Hev); [apply same_skip|done|rewrite Etl; apply word_no_redir; by inversion Hw|rewrite Etl; right; by eexists|].
    apply map_eq_nil in E as ->. destruct (args_print (w :: args) (skip_ws tl) [] [] rs rest) as (c' & Ec & Hevc); [apply same_skip|done|done|done|done|done|done|].
    exists c'. split; [done|]. eapply ev_step; [intros n; apply (exec_start s tl n Hs)|].
    + rewrite Etl. rewrite (peek_same _ (w ++ print_args args ++ print_redirs rs ++ rest)) by apply skip_space.
      inversion Hw; subst. rewrite skip_space, word_skip by done. apply peek_word; [done|]. by apply is_in_sub.
    + eapply (ev_bind _ _ _ _ _ Hev). exact Hevc.
Qed.

Lemma L2_pipe l r : L3 l -> L2 r -> L2 (PIPE l r).
Proof.
  intros Hl Hr s rest Hs Hst Hsp. change (wrap 2 (PIPE l r) (body (PIPE l r))) with (wrap 3 l (body l) ++ [32; 124] ++ wrap 2 r (body r)) in Hs.
  rewrite <- !app_assoc in Hs. cbn [app] in Hs. set (tl := wrap 2 r (body r) ++ rest) in *. assert (Htl : spaced tl) by (apply spaced_app; [apply wrap_spaced|done]).
  destruct (Hl s [] (32 :: 124 :: tl)) as (l' & El & Hevl); [done|done|by apply sym_stops|right; by eexists|].
  destruct (Hr (skip_ws tl) rest) as (r' & Er & Hevr); [apply same_skip|done|done|]. exists (PIPE l' r'). split; [cbn [map_cmd]; by rewrite El, Er|].
  eapply ev_step; [intros n; cbn [parsepipe]; reflexivity|]. eapply (ev_bind _ _ _ _ _ Hevl). cbv beta.
  rewrite (peek_same _ (32 :: 124 :: tl)) by apply same_skip. rewrite peek_sym by done. change (is_in [124] 124) with true. cbv iota.
  rewrite get_sym by done. eapply (ev_bind _ _ _ _ _ Hevr). apply ev_const.
Qed.

Lemma L1_back c : L1 c -> L1 (BACK c).
Proof.
  intros Hc s k rest Hs Hst Hsp. apply (Hc s (S k) rest); [|done|done]. unfold same in *. rewrite Hs.
  change (wrap 1 (BACK c) (body (BACK c))) with (wrap 1 c (body c) ++ [32; 38]). by rewrite <- app_assoc.
Qed.

Lemma L0_list l r : L1 l -> L0 r -> L0 (LIST l r).
Proof.
  intros Hl Hr s rest Hs Hst Hsp. change (body (LIST l r)) with (wrap 1 l (body l) ++ [32; 59] ++ body r) in Hs.
  rewrite <- !app_assoc in Hs. cbn [app] in Hs. set (tl := body r ++ rest) in *. assert (Htl : spaced tl) by (apply spaced_app; [apply body_spaced|done]).
  destruct (Hl s 0%nat (32 :: 59 :: tl)) as (l' & El & [N HN]); [done|by apply sym_stops|right; by eexists|].
  destruct (Hr (skip_ws tl) rest) as (r' & Er & Hevr); [apply same_skip|done|done|]. exists (LIST l' r'). split; [cbn [map_cmd]; cbn [backs] in El; by rewrite El, Er|].
  eapply ev_step; [intros n; cbn [parseline]; reflexivity|].
  assert (Hev : ev (fun n => pbind (parseline n (skip_ws tl)) (fun r s5 => POk (LIST l' r) s5)) (POk (LIST l' r') (skip_ws rest))) by (eapply (ev_bind _ _ _ _ _ Hevr); apply ev_const).
  destruct Hev as [N' HN']. exists (Nat.max N N'). intros n Hn. specialize (HN n ltac:(lia)). specialize (HN' n ltac:(lia)).
  destruct (parsepipe n s) as [c1 s1| |]; cbn [pbind] in *; [|done..]. rewrite HN. cbn [pbind].
  rewrite (peek_same _ (32 :: 59 :: tl)) by apply same_skip. rewrite peek_sym by done. change (is_in [59] 59) with true. cbv iota.
  rewrite get_sym by done. exact HN'.
Qed.

Lemma print_parse c : valid c -> L0 c /\ L1 c /\ L2 c /\ L3 c.
Proof.
  induction c as [argv|c IH f m fd|l IHl r IHr|l IHl r IHr|c IH]; cbn [valid].
  - intros [Hw Hl]. assert (H3 := L3_exec argv Hw Hl). assert (H2 : L2 (EXEC argv)) by (by apply L2_of_L3).
    assert (H1 : L1 (EXEC argv)) by (by apply L1_of_L2). split_and!; [by apply L0_of_L1|done..].
  - intros [Hv Hr]. destruct (IH Hv) as (_ & _ & _ & Hc). assert (H3 : L3 (REDIR c f m fd)).
    { intros s rs rest Hs Hrs Hst Hsp. apply (Hc s ((f, m, fd) :: rs) rest); [|by constructor|done|done]. unfold same in *. rewrite Hs.
      change (wrap 3 (REDIR c f m fd) (body (REDIR c f m fd))) with (wrap 3 c (body c) ++ print_redir (f, m, fd)).
      unfold print_redirs. cbn [map concat]. by rewrite <- !app_assoc. }
    assert (H2 : L2 (REDIR c f m fd)) by (by apply L2_of_L3). assert (H1 : L1 (REDIR c f m fd)) by (by apply L1_of_L2). split_and!; [by apply L0_of_L1|done..].
  - intros [Hl Hr]. assert (H2 : L2 (PIPE l r)) by (apply L2_pipe; [by apply IHl|by apply IHr]). assert (H1 : L1 (PIPE l r)) by (by apply L1_of_L2).
    assert (H0 : L0 (PIPE l r)) by (by apply L0_of_L1). split_and!; [done..|]. apply L3_of_L0; [cbn; lia|done].
  - intros [Hl Hr]. assert (H0 : L0 (LIST l r)) by (apply L0_list; [by apply IHl|by apply IHr]). assert (H3 : L3 (LIST l r)) by (apply L3_of_L0; [cbn; lia|done]).
    assert (H2 : L2 (LIST l r)) by (by apply L2_of_L3). split_and!; [done|by apply L1_of_L2|done..].
  - intros Hv. destruct (IH Hv) as (_ & Hc & _). assert (H1 : L1 (BACK c)) by (by apply L1_back). assert (H0 : L0 (BACK c)) by (by apply L0_of_L1).
    assert (H3 : L3 (BACK c)) by (apply L3_of_L0; [cbn; lia|done]). split_and!; [done|done|by apply L2_of_L3|done].
Qed.

Lemma word_nonul w : word w -> Forall (fun c => c <> 0) w.
Proof. intros [_ H]. eapply Forall_impl; [exact H|]. by intros c (_ & _ & ?). Qed.

Lemma wrap_nonul {A} l (c : cmd A) b : Forall (fun c => c <> 0) b -> Forall (fun c => c <> 0) (wrap l c b).
Proof. intros H. unfold wrap. case_match; [done|]. cbn [app]. repeat (constructor; [done|]). apply Forall_app. split; [done|by repeat constructor]. Qed.

Lemma body_nonul c : valid c -> Forall (fun c => c <> 0) (body c).
Proof.
  induction c as [argv|c IH f m fd|l IHl r IHr|l IHl r IHr|c IH]; cbn [valid body].
  - intros [Hw _]. induction Hw as [|w ws Hw _ IH]; [constructor|]. unfold print_args. cbn [map concat app]. constructor; [done|].
    apply Forall_app. split; [by apply word_nonul|done].
  - intros [Hv [Hf _]]. apply Forall_app. split; [by apply wrap_nonul, IH|]. unfold print_redir. cbn [fst snd app].
    constructor; [done|]. constructor; [by destruct (m =? O_RDONLY)|]. constructor; [done|]. by apply word_nonul.
  - intros [Hl Hr]. apply Forall_app. split; [by apply wrap_nonul, IHl|]. cbn [app]. do 2 (constructor; [done|]). by apply wrap_nonul, IHr.
  - intros [Hl Hr]. apply Forall_app. split; [by apply wrap_nonul, IHl|]. cbn [app]. do 2 (constructor; [done|]). by apply IHr.
  - intros Hv. apply Forall_app. split; [by apply wrap_nonul, IH|]. by repeat constructor.
Qed.

(** C29: The parser undoes printing: for every command the shell can express,
    nested in any way and with any words, parsecmd on its text, with
    parentheses where the grammar needs them, gives the command back with the
    same strings. *)
Theorem sh_roundtrip c : valid c -> parsecmd (body c) = POk c [].
Proof.
  intros Hv. pose proof (body_nonul c Hv) as Hn. destruct (print_parse c Hv) as (H0 & _).
  destruct (H0 (body c) []) as (c' & E & Hev); [by rewrite app_nil_r|by left|by left|].
  pose proof (parseline_good (body c) Hn) as Hg. unfold parsecmd.
  rewrite (ev_enough _ _ _ Hev) in * by (intros Ef; by rewrite Ef in Hg). destruct Hg as [_ Hc]. cbn [pbind skip_ws peek].
  by rewrite nulterminate_cmd, E.
Qed.

Lemma sh_roundtrip_witness :
  parsecmd (body (LIST (BACK (PIPE (EXEC [str "ls"; str "-l"]) (LIST (EXEC []) (REDIR (EXEC [str "wc"]) (str "out") 513 1)))) (EXEC [str "echo"]))) =
  POk (LIST (BACK (PIPE (EXEC [str "ls"; str "-l"]) (LIST (EXEC []) (REDIR (EXEC [str "wc"]) (str "out") 513 1)))) (EXEC [str "echo"])) [].
Proof.
  apply (sh_roundtrip (LIST (BACK (PIPE (EXEC [str "ls"; str "-l"]) (LIST (EXEC []) (REDIR (EXEC [str "wc"]) (str "out") 513 1)))) (EXEC [str "echo"]))).
  cbn [valid]. split_and!; try (repeat constructor; discriminate); try (unfold MAXARGS; cbn; lia).
Defined.
