(* ===== verification/FsBlock.v ===== *)
(** * The block allocator (readsb, bzero, balloc, bfree of fs.c) *)

From S2P Require Import Prelude.
From S2P Require Import Params.
From S2P Require Import Cstr.
From S2P Require Import Fsfmt.
From S2P Require Import Txn.
From S2P Require Import Fs.

(** ** Block operations inside the file-system state *)

Section Blk.
Context {B : Type} {BO : BlockOps B} {BS : BlockStore B}.
Implicit Types s : fs B.

Definition fblk s (b : Z) : list Z := bs_blk (fb s) b.

(** Inside a transaction that holds [H], has no unlogged change and has
    logged at most [L]. *)
Definition fok s (H : gmap nat Z) (L : gset Z) : Prop := bs_ok (fb s) H ∅ L.

(** [s'] is [s] with the block contents [v]. *)
Record becomes s s' (v : Z -> list Z) : Prop := {
  bec_sb : fsb s' = fsb s;
  bec_ic : fic s' = fic s;
  bec_woken : fwoken s' = fwoken s;
  bec_out : fout s' = fout s;
  bec_blk : forall b, fblk s' b = v b
}.

Lemma becomes_refl s : becomes s s (fblk s).
Proof. by split. Qed.

Lemma becomes_trans s1 s2 s3 v w : becomes s1 s2 v -> becomes s2 s3 w -> becomes s1 s3 w.
Proof. intros [A1 A2 A3 A4 A5] [B1 B2 B3 B4 B5]. split; congruence || done. Qed.

Lemma becomes_ext s s' v w : becomes s s' v -> (forall b, v b = w b) -> becomes s s' w.
Proof. intros [A1 A2 A3 A4 A5] H. split; try done. intros b. by rewrite A5. Qed.

Lemma runs_blk {A} (m : M B A) s (Q : A -> fs B -> Prop) :
  runs m (fb s) (fun a b => Q a (set_fb b s)) -> runs (blk m) s Q.
Proof. apply runs_lift. Qed.

Lemma runs_blk_seq {A C} (m : M B A) (k : A -> M (fs B) C) s R Q :
  runs m (fb s) R -> (forall a b, R a b -> runs (k a) (set_fb b s) Q) -> runs (x <- blk m ;; k x) s Q.
Proof. intros Hm Hk. apply runs_bind, runs_blk. eapply runs_mono; [exact Hm|]. auto. Qed.

Lemma fblk_ok s H L b : fok s H L -> block_ok (fblk s b).
Proof. apply bs_blk_ok. Qed.

(** Locking block [b] and reading it. *)
Lemma fs_bread {A} s H L b (k : nat -> list Z -> M (fs B) A) Q :
  fok s H L -> bs_disk b -> (forall i, H !! i <> Some b) -> (size L + size H < NBUF)%nat ->
  (forall i s', H !! i = None -> fok s' (<[i := b]> H) L -> becomes s s' (fblk s) -> runs (k i (fblk s b)) s' Q) ->
  runs (bp <- blk (o_bread bs_dev b) ;; d <- blk (o_data bp) ;; k bp d) s Q.
Proof.
  intros Hok Hd Hn Hr Hk. eapply runs_blk_seq; [by apply bread_law|]. cbv beta. intros i b1 (Hi & Hok1 & Hb1).
  eapply runs_blk_seq; [apply (data_law b1 (<[i := b]> H) ∅ L i b Hok1), lookup_insert_eq|].
  cbv beta. intros d b2 [-> ->]. cbn [set_fb fb]. rewrite Hb1. apply Hk; [done|done|]. by split.
Qed.

Lemma fs_bread_panic {A} s H L b (k : nat -> list Z -> M (fs B) A) msg :
  fok s H L -> bs_disk b -> (forall i, H !! i <> Some b) -> (size L + size H < NBUF)%nat ->
  (forall i s', H !! i = None -> fok s' (<[i := b]> H) L -> becomes s s' (fblk s) -> k i (fblk s b) s' = Panic msg) ->
  (bp <- blk (o_bread bs_dev b) ;; d <- blk (o_data bp) ;; k bp d) s = Panic msg.
Proof.
  intros Hok Hd Hn Hr Hk. apply runs_panic, runs_blk. eapply runs_mono; [by apply bread_law|].
  cbv beta. intros i b1 (Hi & Hok1 & Hb1). apply runs_panic, runs_blk.
  eapply runs_mono; [apply (data_law b1 (<[i := b]> H) ∅ L i b Hok1), lookup_insert_eq|].
  cbv beta. intros d b2 [-> ->]. cbn [set_fb fb]. rewrite Hb1. apply Hk; [done|done|]. by split.
Qed.

Lemma fs_brelse {A} s H L i b (k : M (fs B) A) Q :
  fok s (<[i := b]> H) L -> H !! i = None ->
  (forall s', fok s' H L -> becomes s s' (fblk s) -> runs k s' Q) ->
  runs (blk (o_brelse i) ;;; k) s Q.
Proof.
  intros Hok Hi Hk. eapply runs_blk_seq; [apply (brelse_law _ _ _ _ i b Hok); [apply lookup_insert_eq|set_solver]|].
  cbv beta. intros _ b1 [Hok1 Hb1]. rewrite delete_insert_id in Hok1 by done. apply Hk; [done|by split].
Qed.

(** Storing into a locked block, logging it and releasing it. *)
Lemma fs_store {A} s H L i b x (k : M (fs B) A) Q :
  fok s (<[i := b]> H) L -> H !! i = None -> bs_home b -> (size L < bs_cap)%nat -> block_ok x ->
  (forall s', fok s' H ({[b]} ∪ L) -> becomes s s' (fun b' => if decide (b' = b) then x else fblk s b') -> runs k s' Q) ->
  runs (blk (o_set i x) ;;; blk (o_log_write i) ;;; blk (o_brelse i) ;;; k) s Q.
Proof.
  intros Hok Hi Hb Hc Hx Hk. pose proof (lookup_insert_eq H i b) as Hl.
  eapply runs_blk_seq; [by apply (set_law _ _ _ _ i b x Hok)|]. cbv beta. intros _ b1 [Hok1 Hb1].
  eapply runs_blk_seq; [by apply (log_write_law b1 _ _ _ i b Hok1)|]. cbv beta. intros _ b2 [Hok2 Hb2].
  cbn [set_fb fb]. replace (({[b]} ∪ ∅) ∖ {[b]}) with (∅ : gset Z) in Hok2 by set_solver.
  apply (fs_brelse _ H ({[b]} ∪ L) i b); [done|done|]. intros s' Hok' Hs'. apply Hk; [done|].
  destruct Hs' as [A1 A2 A3 A4 A5]. split; try done. intros b'. rewrite A5. unfold fblk at 1. cbn [set_fb fb].
  by rewrite Hb2, Hb1.
Qed.

(** ** readsb and bzero *)

Lemma fs_readsb_spec {A} s H L (k : superblock -> M (fs B) A) Q :
  fok s H L -> bs_disk 1 -> (forall i, H !! i <> Some 1) -> (size L + size H < NBUF)%nat ->
  (forall s', fok s' H L -> becomes s s' (fblk s) -> runs (k (sb_of_bytes (fblk s 1))) s' Q) ->
  runs (x <- fs_readsb bs_dev ;; k x) s Q.
Proof.
  intros Hok Hd Hn Hr Hk. apply runs_bind. unfold fs_readsb. apply (fs_bread s H L 1); try done.
  intros i s1 Hi Hok1 Hs1. apply (fs_brelse s1 H L i 1); [done|done|]. intros s2 Hok2 Hs2. apply runs_ret.
  apply Hk; [done|]. eapply becomes_trans; [done|]. eapply becomes_ext; [done|]. apply Hs1.
Qed.

Lemma bzero_spec {A} s H L b (k : M (fs B) A) Q :
  fok s H L -> bs_home b -> (forall i, H !! i <> Some b) -> (size L + size H < bs_cap)%nat ->
  (forall s', fok s' H ({[b]} ∪ L) ->
     becomes s s' (fun b' => if decide (b' = b) then zero_block else fblk s b') -> runs k s' Q) ->
  runs (bzero bs_dev b ;;; k) s Q.
Proof.
  intros Hok Hb Hn Hc Hk. pose proof bs_cap_small. apply runs_bind. unfold bzero.
  eapply runs_blk_seq; [apply (bread_law (fb s) H ∅ L b); [done|by apply bs_home_disk|done|lia]|].
  cbv beta. intros i b1 (Hi & Hok1 & Hb1). apply runs_tail3.
  apply (fs_store (set_fb b1 s) H L i b zero_block); [done|done|done|lia|apply zero_block_ok|].
  intros s' Hok' [A1 A2 A3 A4 A5]. apply runs_ret. apply Hk; [done|]. split; try done.
  intros b'. rewrite A5. case_decide; [done|]. apply Hb1.
Qed.
End Blk.

(** ** Bitmaps *)

Lemma bit_get_testbit d bi : bit_get d bi = Z.testbit (nthZ d (bi / 8)) (bi mod 8).
Proof.
  unfold bit_get. rewrite Z.shiftl_1_l. apply test_bit. apply Z.mod_pos_bound. lia.
Qed.

Lemma nthZ_insert d i j x : 0 <= i < Z.of_nat (length d) -> 0 <= j ->
  nthZ (<[Z.to_nat i := x]> d) j = if decide (j = i) then x else nthZ d j.
Proof.
  intros Hi Hj. unfold nthZ. rewrite !nth_lookup. case_decide as E.
  - subst j. by rewrite list_lookup_insert_eq by lia.
  - by rewrite list_lookup_insert_ne by lia.
Qed.

Lemma byte_testbit_hi x k : byte_ok x -> 8 <= k -> Z.testbit x k = false.
Proof.
  intros Hx Hk. unfold byte_ok in Hx. apply Z.bits_above_log2; [lia|].
  destruct (Z.eq_dec x 0) as [->|]; [cbn; lia|]. apply Z.log2_lt_pow2; [lia|].
  eapply Z.lt_le_trans; [apply Hx|]. change 256 with (2 ^ 8). apply Z.pow_le_mono_r; lia.
Qed.

Lemma u8_testbit x k : 0 <= k < 8 -> Z.testbit (u8 x) k = Z.testbit x k.
Proof. intros Hk. unfold u8. change 256 with (2 ^ 8). by rewrite Z.mod_pow2_bits_low by lia. Qed.

Lemma u8_byte x : byte_ok (u8 x).
Proof. apply Z.mod_pos_bound. lia. Qed.

Section Bits.
Context (d : list Z) (Hd : block_ok d) (bi : Z) (Hbi : 0 <= bi < BPB).

Lemma bit_index : 0 <= bi / 8 < Z.of_nat (length d).
Proof.
  destruct Hd as [-> _]. unfold BPB in Hbi. split; [apply Z.div_pos; lia|]. apply Z.div_lt_upper_bound; lia.
Qed.

Lemma bit_pos j : 0 <= j < BPB -> j <> bi -> j / 8 = bi / 8 -> j mod 8 <> bi mod 8.
Proof. intros Hj Hne E Em. apply Hne. rewrite (Z.div_mod j 8), (Z.div_mod bi 8) by lia. by rewrite E, Em. Qed.

Lemma bit_get_set j : 0 <= j < BPB -> bit_get (bit_set d bi) j = if decide (j = bi) then true else bit_get d j.
Proof.
  intros Hj. rewrite !bit_get_testbit. unfold bit_set. rewrite nthZ_insert by (apply bit_index || (apply Z.div_pos; lia)).
  pose proof (Z.mod_pos_bound j 8). pose proof (Z.mod_pos_bound bi 8).
  destruct (decide (j / 8 = bi / 8)) as [E|E].
  - rewrite u8_testbit, Z.lor_spec, Z.shiftl_1_l, Z.pow2_bits_eqb by lia. rewrite E.
    case_decide as Ej; [subst j; by rewrite Z.eqb_refl, orb_true_r|].
    pose proof (bit_pos j Hj Ej E). destruct (Z.eqb_spec (bi mod 8) (j mod 8)); [lia|]. apply orb_false_r.
  - rewrite decide_False; [done|]. congruence.
Qed.

Lemma bit_get_clear j : 0 <= j < BPB -> bit_get (bit_clear d bi) j = if decide (j = bi) then false else bit_get d j.
Proof.
  intros Hj. rewrite !bit_get_testbit. unfold bit_clear. rewrite nthZ_insert by (apply bit_index || (apply Z.div_pos; lia)).
  pose proof (Z.mod_pos_bound j 8). pose proof (Z.mod_pos_bound bi 8).
  destruct (decide (j / 8 = bi / 8)) as [E|E].
  - rewrite u8_testbit, Z.land_spec, Z.lnot_spec, Z.shiftl_1_l, Z.pow2_bits_eqb by lia. rewrite E.
    case_decide as Ej; [subst j; by rewrite Z.eqb_refl, andb_false_r|].
    pose proof (bit_pos j Hj Ej E). destruct (Z.eqb_spec (bi mod 8) (j mod 8)); [lia|]. apply andb_true_r.
  - rewrite decide_False; [done|]. congruence.
Qed.

Lemma bit_set_ok : block_ok (bit_set d bi).
Proof. destruct Hd as [H1 H2]. unfold bit_set, bit_clear. split; [by rewrite length_insert|]. apply Forall_insert; [done|apply u8_byte]. Qed.
Lemma bit_clear_ok : block_ok (bit_clear d bi).
Proof. destruct Hd as [H1 H2]. unfold bit_set, bit_clear. split; [by rewrite length_insert|]. apply Forall_insert; [done|apply u8_byte]. Qed.
End Bits.

(** free_bit finds the first clear bit. *)
Lemma free_bit_some n d size b bi r : free_bit n d size b bi = Some r ->
  bi <= r < bi + Z.of_nat n /\ b + r < size /\ bit_get d r = false /\ forall j, bi <= j < r -> bit_get d j = true.
Proof.
  revert bi. induction n as [|n IH]; intros bi; cbn [free_bit]; [done|].
  destruct (Z.ltb_spec (b + bi) size); [|done]. destruct (bit_get d bi) eqn:E; cbn [negb].
  - intros (H1 & H2 & H3 & H4)%IH. split; [lia|]. split; [done|]. split; [done|]. intros j Hj.
    destruct (decide (j = bi)) as [->|]; [done|]. apply H4. lia.
  - intros [= <-]. split_and!; first [done|lia|intros j Hj; lia].
Qed.

Lemma free_bit_none n d size b bi : free_bit n d size b bi = None ->
  forall j, bi <= j < bi + Z.of_nat n -> b + j < size -> bit_get d j = true.
Proof.
  revert bi. induction n as [|n IH]; intros bi; cbn [free_bit]; [intros; lia|].
  destruct (Z.ltb_spec (b + bi) size); [|intros; lia]. destruct (bit_get d bi) eqn:E; cbn [negb]; [|done].
  intros H1 j Hj Hs. destruct (decide (j = bi)) as [->|]; [done|]. apply (IH (bi + 1)); [done|lia|done].
Qed.

(** ** The allocator *)

Section Alloc.
Context {B : Type} {BO : BlockOps B} {BS : BlockStore B}.
Implicit Types s : fs B.

(** The first data block: after the bitmap. *)
Definition dstart (sb : superblock) : Z := sb_bmapstart sb + (sb_size sb + BPB - 1) / BPB.

(** Where a superblock places the inode blocks, the bitmap and the data. *)
Record fs_geom (sb : superblock) : Prop := {
  fg_size : 0 <= sb_size sb < 2147483648;
  fg_start : 1 < sb_inodestart sb <= sb_bmapstart sb;
  fg_data : dstart sb <= sb_size sb;
  fg_ninodes : sb_ninodes sb < 2147483648;
  fg_inodes : forall i, 0 <= i < sb_ninodes sb -> sb_inodestart sb <= IBLOCK i sb < sb_bmapstart sb;
  fg_home : forall b, sb_inodestart sb <= b < sb_size sb -> bs_home b;
  fg_sb : bs_disk 1
}.

(** Block [b] is marked in use. *)
Definition used s (b : Z) : bool := bit_get (fblk s (BBLOCK b (fsb s))) (b mod BPB).

(** The blocks a transaction may hold while the allocator runs: not the
    superblock, not a block of the bitmap and not a free block. *)
Definition holds s (H : gmap nat Z) : Prop := forall i b, H !! i = Some b ->
  b <> 1 /\ ~ (sb_bmapstart (fsb s) <= b < dstart (fsb s)) /\ (0 <= b < sb_size (fsb s) -> used s b = true).

(** The metadata is marked in use. *)
Definition meta_used s : Prop := forall b, 0 <= b < dstart (fsb s) -> used s b = true.

Lemma BBLOCK_range sb b : fs_geom sb -> 0 <= b < sb_size sb ->
  BBLOCK b sb = b / BPB + sb_bmapstart sb /\ sb_bmapstart sb <= BBLOCK b sb < dstart sb.
Proof.
  intros [H1 H2 H3 _ H4 H5 H6] Hb. unfold BBLOCK, dstart, BPB in *.
  assert (Hq : 0 <= b / 4096 < (sb_size sb + 4096 - 1) / 4096).
  { split; [apply Z.div_pos; lia|]. apply Z.div_lt_upper_bound; [lia|].
    pose proof (Z.div_mod (sb_size sb + 4096 - 1) 4096). pose proof (Z.mod_pos_bound (sb_size sb + 4096 - 1) 4096). lia. }
  rewrite u32_id; lia.
Qed.

Lemma BBLOCK_home sb b : fs_geom sb -> 0 <= b < sb_size sb -> bs_home (BBLOCK b sb).
Proof.
  intros Hg Hb. destruct (BBLOCK_range sb b Hg Hb) as [_ Hr]. apply (fg_home _ Hg). pose proof (fg_start _ Hg). pose proof (fg_data _ Hg). lia.
Qed.

(** [s'] is [s] with block [b] allocated and zeroed. *)
Definition allocated s s' (b : Z) : Prop :=
  becomes s s' (fun x => if decide (x = b) then zero_block
                         else if decide (x = BBLOCK b (fsb s)) then bit_set (fblk s x) (b mod BPB) else fblk s x).

Definition least_free s (b : Z) : Prop :=
  0 <= b < sb_size (fsb s) /\ used s b = false /\ forall j, 0 <= j < b -> used s j = true.

(** What is true of the bits the scan has passed. *)
Definition passed s (k : nat) : Prop := forall j, 0 <= j < Z.of_nat k * BPB -> j < sb_size (fsb s) -> used s j = true.

Lemma used_at s k j : fs_geom (fsb s) -> 0 <= j < BPB -> 0 <= Z.of_nat k * BPB + j < sb_size (fsb s) ->
  used s (Z.of_nat k * BPB + j) = bit_get (fblk s (BBLOCK (Z.of_nat k * BPB) (fsb s))) j.
Proof.
  intros Hg Hj Hs. unfold used, BBLOCK. unfold BPB in *.
  replace (Z.of_nat k * 4096 + j) with (j + Z.of_nat k * 4096) by lia.
  by rewrite Z.div_add, Z.mod_add, Z.mod_small, (Z.div_small j), Z.div_mul by lia.
Qed.

(** One round of the scan of [balloc]. *)
Lemma balloc_round s H L k : fs_geom (fsb s) -> fok s H L -> holds s H -> meta_used s ->
  (size L + size H + 2 <= bs_cap)%nat -> passed s k -> Z.of_nat k * BPB < sb_size (fsb s) ->
  let b := Z.of_nat k * BPB in
  runs (bp <- blk (o_bread bs_dev (BBLOCK b (fsb s))) ;;
        d <- blk (o_data bp) ;;
        match free_bit (Z.to_nat BPB) d (sb_size (fsb s)) b 0 with
        | Some bi =>
            blk (o_set bp (bit_set d bi)) ;;;
            blk (o_log_write bp) ;;;
            blk (o_brelse bp) ;;;
            bzero bs_dev (b + bi) ;;;
            ret (Some (b + bi))
        | None => blk (o_brelse bp) ;;; ret None
        end) s (fun r s' =>
    match r with
    | Some x => least_free s x /\ allocated s s' x /\ fok s' H ({[x]} ∪ ({[BBLOCK x (fsb s)]} ∪ L))
    | None => passed s (S k) /\ becomes s s' (fblk s) /\ fok s' H L
    end).
Proof.
  intros Hg Hok Hh Hm Hc Hp Hk b. pose proof bs_cap_small. assert (Hb : 0 <= b < sb_size (fsb s)) by (unfold b, BPB in *; lia).
  destruct (BBLOCK_range _ b Hg Hb) as [_ HBr].
  apply (fs_bread s H L); [done|by apply bs_home_disk, BBLOCK_home| |lia|].
  { intros i Hi. by apply (Hh i) in Hi as (_ & Hi & _). }
  intros i s1 Hi Hok1 Hs1. destruct (free_bit _ _ _ _ _) as [bi|] eqn:E.
  - apply free_bit_some in E as (E1 & E2 & E3 & E4). rewrite Z2Nat.id in E1 by (unfold BPB; lia).
    assert (Hx : 0 <= b + bi < sb_size (fsb s)) by lia.
    assert (Hu : used s (b + bi) = false) by (unfold b; by rewrite used_at by (done || lia)).
    assert (HB : BBLOCK (b + bi) (fsb s) = BBLOCK b (fsb s)).
    { unfold BBLOCK, b. unfold BPB in *. replace (Z.of_nat k * 4096 + bi) with (bi + Z.of_nat k * 4096) by lia.
      by rewrite Z.div_add, (Z.div_small bi), Z.div_mul by lia. }
    assert (Hd : dstart (fsb s) <= b + bi).
    { destruct (Z_lt_le_dec (b + bi) (dstart (fsb s))) as [Hl|]; [|done]. rewrite Hm in Hu by lia. done. }
    assert (Hbit : (b + bi) mod BPB = bi) by (unfold b, BPB in *; rewrite Z.add_comm, Z.mod_add, Z.mod_small by lia; done).
    apply (fs_store s1 H L i (BBLOCK b (fsb s))); [done|done|by apply BBLOCK_home|lia|..].
    { by eapply bit_set_ok, fblk_ok. }
    intros s2 Hok2 Hs2. pose proof (size_add (BBLOCK b (fsb s)) L).
    pose proof (fg_home _ Hg (b + bi)) as Hhome. pose proof (fg_start _ Hg).
    apply (bzero_spec s2 H ({[BBLOCK b (fsb s)]} ∪ L)); [done|apply Hhome; lia| |lia|].
    { intros j Hj. apply (Hh j) in Hj as (_ & _ & Hj). rewrite Hj in Hu; done. }
    intros s3 Hok3 Hs3. apply runs_ret. rewrite HB. split; [|split; [|done]].
    + split_and!; [lia|lia|done|]. intros j Hj. destruct (Z_lt_le_dec j b) as [Hl|Hl]; [apply Hp; unfold b in *; lia|].
      replace j with (Z.of_nat k * BPB + (j - b)) by (unfold b; lia). rewrite used_at by (unfold b in *; done || lia).
      apply E4. lia.
    + unfold allocated. eapply becomes_ext; [eapply becomes_trans; [exact Hs1|eapply becomes_trans; done]|].
      intros x. cbv beta. rewrite HB, Hbit. case_decide; [done|]. rewrite (bec_blk _ _ _ Hs2). cbv beta.
      destruct (decide (x = BBLOCK b (fsb s))) as [->|]; [done|apply Hs1].
  - apply (fs_brelse s1 H L i (BBLOCK b (fsb s))); [done|done|]. intros s2 Hok2 Hs2. apply runs_ret. split_and!; [| |done].
    + intros j Hj Hjs. destruct (Z_lt_le_dec j b) as [Hl|Hl]; [apply Hp; unfold b in *; lia|].
      replace j with (Z.of_nat k * BPB + (j - b)) by (unfold b; lia). rewrite used_at by (unfold b in *; done || lia).
      apply (free_bit_none _ _ _ _ _ E); [|lia]. rewrite Z2Nat.id by (unfold BPB; lia). unfold b. lia.
    + eapply becomes_ext; [by eapply becomes_trans|]. apply Hs1.
Qed.

Lemma becomes_used s s' b : becomes s s' (fblk s) -> used s' b = used s b.
Proof. intros [A1 A2 A3 A4 A5]. unfold used. by rewrite A1, A5. Qed.

(** The whole scan. *)
Lemma balloc_scan s H L : fs_geom (fsb s) -> fok s H L -> holds s H -> meta_used s ->
  (size L + size H + 2 <= bs_cap)%nat ->
  runs (for_ (upto (sb_size (fsb s)) BPB) (fun b =>
    bp <- blk (o_bread bs_dev (BBLOCK b (fsb s))) ;;
    d <- blk (o_data bp) ;;
    match free_bit (Z.to_nat BPB) d (sb_size (fsb s)) b 0 with
    | Some bi =>
        blk (o_set bp (bit_set d bi)) ;;;
        blk (o_log_write bp) ;;;
        blk (o_brelse bp) ;;;
        bzero bs_dev (b + bi) ;;;
        ret (Some (b + bi))
    | None => blk (o_brelse bp) ;;; ret None
    end)) s (fun r s' =>
    match r with
    | Some x => least_free s x /\ allocated s s' x /\ fok s' H ({[x]} ∪ ({[BBLOCK x (fsb s)]} ∪ L))
    | None => forall b, 0 <= b < sb_size (fsb s) -> used s b = true
    end).
Proof.
  intros Hg Hok Hh Hm Hc. set (n := Z.to_nat ((sb_size (fsb s) + BPB - 1) / BPB)).
  assert (Hn : forall k, (k < n)%nat <-> Z.of_nat k * BPB < sb_size (fsb s)).
  { intros k. unfold n, BPB. pose proof (fg_size _ Hg). split; intros Hk.
    - pose proof (Z.mul_div_le (sb_size (fsb s) + 4096 - 1) 4096). nia.
    - apply Nat2Z.inj_lt. rewrite Z2Nat.id by (apply Z.div_pos; lia).
      apply Z.lt_le_trans with (Z.of_nat k + 1); [lia|]. apply Z.div_le_lower_bound; lia. }
  apply (runs_for _ _ (fun rem s1 => exists k, (k <= n)%nat /\ rem = List.map (fun k => Z.of_nat k * BPB) (seq k (n - k)) /\
    passed s k /\ becomes s s1 (fblk s) /\ fok s1 H L)).
  - exists 0%nat. rewrite Nat.sub_0_r. split_and!; [lia|done| |apply becomes_refl|done].
    intros j Hj. unfold BPB in Hj. lia.
  - intros x rem s1 (k & Hk & Hr & Hp & Hs1 & Hok1). destruct (n - k)%nat as [|m] eqn:E; [done|].
    cbn [seq List.map] in Hr. injection Hr as -> ->. assert (Hu : forall b, used s1 b = used s b) by (intros; by apply becomes_used).
    rewrite <- (bec_sb _ _ _ Hs1) in Hg |- *.
    eapply runs_mono; [apply (balloc_round s1 H L k Hg Hok1)|]; rewrite ?(bec_sb _ _ _ Hs1) in *.
    + intros i b Hi. apply Hh in Hi as (? & ? & ?). rewrite (bec_sb _ _ _ Hs1), Hu. done.
    + intros b Hb. rewrite (bec_sb _ _ _ Hs1) in Hb. rewrite Hu. by apply Hm.
    + done.
    + intros j Hj. rewrite (bec_sb _ _ _ Hs1), Hu. by apply Hp.
    + apply Hn. lia.
    + cbv beta. intros [y|] s2.
      * intros ((L1 & L2 & L3) & Ha & Hok2). rewrite (bec_sb _ _ _ Hs1) in *. split_and!; [| |done].
        -- split; [done|]. split; [by rewrite <- Hu|]. intros j Hj. rewrite <- Hu. by apply L3.
        -- unfold allocated in *. eapply becomes_ext; [by eapply becomes_trans|]. intros x. cbv beta.
           by rewrite (bec_sb _ _ _ Hs1), (bec_blk _ _ _ Hs1).
      * intros (Hp2 & Hs2 & Hok2). exists (S k). split_and!; [lia| | | |done].
        -- f_equal. f_equal. lia.
        -- intros j Hj Hjs. rewrite <- Hu. apply Hp2; [done|]. by rewrite (bec_sb _ _ _ Hs1).
        -- eapply becomes_ext; [by eapply becomes_trans|]. apply Hs1.
  - intros s1 (k & Hk & Hr & Hp & _ & _) b Hb. destruct (n - k)%nat eqn:E; [|done].
    assert (k = n) as -> by lia. apply Hp; [|lia].
    destruct (Z_lt_le_dec b (Z.of_nat n * BPB)) as [|Hge]; [lia|].
    exfalso. assert (n < n)%nat; [|lia]. apply Hn. lia.
Qed.

Lemma balloc_spec {A} s H L b (k : Z -> M (fs B) A) Q : fs_geom (fsb s) -> fok s H L -> holds s H -> meta_used s ->
  (size L + size H + 2 <= bs_cap)%nat -> least_free s b ->
  (forall s', allocated s s' b -> fok s' H ({[b]} ∪ ({[BBLOCK b (fsb s)]} ∪ L)) -> runs (k b) s' Q) ->
  runs (x <- balloc bs_dev ;; k x) s Q.
Proof.
  intros Hg Hok Hh Hm Hc (Hb & Hfr & Hlt) Hk. apply runs_bind. unfold balloc. apply runs_bind, runs_gets.
  eapply runs_seq; [by apply balloc_scan|]. cbv beta. intros [x|] s'.
  - intros ((L1 & L2 & L3) & Ha & Hok'). apply runs_ret.
    assert (x = b) as ->.
    { destruct (Z_lt_le_dec x b); [rewrite Hlt in L2 by lia; done|].
      destruct (Z_lt_le_dec b x); [rewrite L3 in Hfr by lia; done|lia]. }
    by apply Hk.
  - intros Hall. rewrite Hall in Hfr; done.
Qed.

(** Freeing a block. *)
Definition freed s s' (b : Z) : Prop :=
  becomes s s' (fun x => if decide (x = BBLOCK b (fsb s)) then bit_clear (fblk s x) (b mod BPB) else fblk s x).

(** The superblock on disk is the one in memory. *)
Definition sb_synced s : Prop := sb_of_bytes (fblk s 1) = fsb s.

Lemma becomes_set_sb s s' v : becomes s s' v -> set_sb (fsb s) s' = s'.
Proof. intros [A1 A2 A3 A4 A5]. rewrite <- A1. by destruct s'. Qed.

Lemma bfree_enter {A} s H L b (k : nat -> list Z -> M (fs B) A) Q :
  fs_geom (fsb s) -> fok s H L -> holds s H -> sb_synced s -> (size L + size H + 1 <= bs_cap)%nat ->
  0 <= b < sb_size (fsb s) ->
  (forall i s', H !! i = None -> fok s' (<[i := BBLOCK b (fsb s)]> H) L -> becomes s s' (fblk s) ->
     runs (k i (fblk s (BBLOCK b (fsb s)))) s' Q) ->
  runs (sb <- fs_readsb bs_dev ;; modify (set_sb sb) ;;; bp <- blk (o_bread bs_dev (BBLOCK b sb)) ;;
        d <- blk (o_data bp) ;; k bp d) s Q.
Proof.
  intros Hg Hok Hh Hsb Hc Hb Hk. pose proof bs_cap_small. destruct (BBLOCK_range _ b Hg Hb) as [_ HBr].
  apply (fs_readsb_spec s H L); [done|apply (fg_sb _ Hg)| |lia|].
  { intros i Hi. by apply (Hh i) in Hi as (Hi & _). }
  intros s1 Hok1 Hs1. unfold sb_synced in Hsb. rewrite Hsb. apply runs_bind, runs_modify.
  rewrite (becomes_set_sb _ _ _ Hs1).
  apply (fs_bread s1 H L); [done|by apply bs_home_disk, BBLOCK_home| |lia|].
  { intros i Hi. by apply (Hh i) in Hi as (_ & Hi & _). }
  intros i s2 Hi Hok2 Hs2. rewrite (bec_blk _ _ _ Hs1). apply Hk; [done|done|].
  eapply becomes_ext; [by eapply becomes_trans|]. apply Hs1.
Qed.

Lemma bfree_spec {A} s H L b (k : M (fs B) A) Q : fs_geom (fsb s) -> fok s H L -> holds s H -> sb_synced s ->
  (size L + size H + 1 <= bs_cap)%nat -> 0 <= b < sb_size (fsb s) -> used s b = true ->
  (forall s', freed s s' b -> fok s' H ({[BBLOCK b (fsb s)]} ∪ L) -> runs k s' Q) ->
  runs (bfree bs_dev b ;;; k) s Q.
Proof.
  intros Hg Hok Hh Hsb Hc Hb Hu Hk. apply runs_bind. unfold bfree. apply (bfree_enter s H L b); try done.
  intros i s1 Hi Hok1 Hs1. cbv zeta. fold (used s b). rewrite Hu. cbn [negb]. apply runs_tail3.
  apply (fs_store s1 H L i (BBLOCK b (fsb s))); [done|done|by apply BBLOCK_home|lia|..].
  { by eapply bit_clear_ok, fblk_ok. }
  intros s2 Hok2 Hs2. apply runs_ret, Hk; [|done]. unfold freed.
  eapply becomes_ext; [by eapply becomes_trans|]. intros x. cbv beta. rewrite (bec_blk _ _ _ Hs1).
  destruct (decide (x = BBLOCK b (fsb s))) as [->|]; done.
Qed.

(** Allocating and freeing change exactly one bit. *)
Lemma same_bit sb b x : fs_geom sb -> 0 <= b < sb_size sb -> 0 <= x < sb_size sb ->
  BBLOCK x sb = BBLOCK b sb -> x mod BPB = b mod BPB -> x = b.
Proof.
  intros Hg Hb Hx EB Em. destruct (BBLOCK_range _ b Hg Hb) as [Eb _], (BBLOCK_range _ x Hg Hx) as [Ex _].
  rewrite (Z.div_mod x BPB), (Z.div_mod b BPB) by (unfold BPB; lia). rewrite Em. do 2 f_equal. lia.
Qed.

Lemma used_allocated s s' H L b x : fs_geom (fsb s) -> fok s H L -> least_free s b -> meta_used s ->
  allocated s s' b -> 0 <= x < sb_size (fsb s) -> used s' x = if decide (x = b) then true else used s x.
Proof.
  intros Hg Hok (Hb & Hf & _) Hm Ha Hx. unfold used. rewrite (bec_sb _ _ _ Ha), (bec_blk _ _ _ Ha).
  destruct (BBLOCK_range _ x Hg Hx) as [_ Hr].
  assert (Hd : dstart (fsb s) <= b).
  { destruct (Z_lt_le_dec b (dstart (fsb s))); [|done]. rewrite Hm in Hf by lia. done. }
  rewrite decide_False by lia. destruct (decide (BBLOCK x (fsb s) = BBLOCK b (fsb s))) as [E|E].
  - rewrite bit_get_set; [|by eapply fblk_ok|apply Z.mod_pos_bound; unfold BPB; lia|apply Z.mod_pos_bound; unfold BPB; lia].
    destruct (decide (x = b)) as [->|Hne]; [by rewrite decide_True|].
    rewrite decide_False; [done|]. intros Em. by apply Hne, (same_bit (fsb s)).
  - rewrite decide_False; [done|]. congruence.
Qed.

Lemma used_freed s s' H L b x : fs_geom (fsb s) -> fok s H L -> 0 <= b < sb_size (fsb s) ->
  freed s s' b -> 0 <= x < sb_size (fsb s) -> used s' x = if decide (x = b) then false else used s x.
Proof.
  intros Hg Hok Hb Ha Hx. unfold used. rewrite (bec_sb _ _ _ Ha), (bec_blk _ _ _ Ha).
  destruct (decide (BBLOCK x (fsb s) = BBLOCK b (fsb s))) as [E|E].
  - rewrite bit_get_clear; [|by eapply fblk_ok|apply Z.mod_pos_bound; unfold BPB; lia|apply Z.mod_pos_bound; unfold BPB; lia].
    destruct (decide (x = b)) as [->|Hne]; [by rewrite decide_True|].
    rewrite decide_False; [done|]. intros Em. by apply Hne, (same_bit (fsb s)).
  - rewrite decide_False; [done|]. congruence.
Qed.

(** A free block, if there is one, has a least one. *)
Lemma least_free_dec s : (exists b, least_free s b) \/ (forall b, 0 <= b < sb_size (fsb s) -> used s b = true).
Proof.
  assert (Hn : forall n : nat, Z.of_nat n <= sb_size (fsb s) ->
    (exists b, least_free s b) \/ (forall b, 0 <= b < Z.of_nat n -> used s b = true)).
  { intros n. induction n as [|n IH]; intros Hn; [right; lia|]. destruct IH as [IH|IH]; [lia|by left|].
    destruct (used s (Z.of_nat n)) eqn:E.
    - right. intros b Hb. destruct (decide (b = Z.of_nat n)) as [->|]; [done|]. apply IH. lia.
    - left. exists (Z.of_nat n). split; [lia|]. split; [done|]. intros j Hj. apply IH. lia. }
  destruct (Z_lt_le_dec (sb_size (fsb s)) 0); [right; lia|].
  specialize (Hn (Z.to_nat (sb_size (fsb s)))). rewrite Z2Nat.id in Hn by lia. by apply Hn.
Qed.

(** balloc returns the lowest-numbered free block, zeroed and marked in
    use; every other bit of the map and every other block but that bitmap
    block is unchanged, and both changed blocks are logged.  With no free
    block it panics. *)
Theorem balloc_correct s H L : fs_geom (fsb s) -> fok s H L -> holds s H -> meta_used s ->
  (size L + size H + 2 <= bs_cap)%nat ->
  (exists b, least_free s b /\
     runs (balloc bs_dev) s (fun r s' => r = b /\ fok s' H ({[b]} ∪ ({[BBLOCK b (fsb s)]} ∪ L)) /\
       fblk s' b = zero_block /\
       (forall x, 0 <= x < sb_size (fsb s) -> used s' x = if decide (x = b) then true else used s x) /\
       (forall x, x <> b -> x <> BBLOCK b (fsb s) -> fblk s' x = fblk s x) /\ fic s' = fic s)) \/
  ((forall b, 0 <= b < sb_size (fsb s) -> used s b = true) /\
     balloc bs_dev s = Panic "balloc: out of blocks").
Proof.
  intros Hg Hok Hh Hm Hc. destruct (least_free_dec s) as [[b Hb]|Hall]; [left; exists b|right].
  - split; [done|]. apply runs_tail_ret. apply (balloc_spec s H L b); try done.
    intros s' Ha Hok'. apply runs_ret. split_and!; try done.
    + rewrite (bec_blk _ _ _ Ha). by rewrite decide_True.
    + intros x Hx. by eapply used_allocated.
    + intros x Hx1 Hx2. rewrite (bec_blk _ _ _ Ha). by rewrite !decide_False by done.
    + apply Ha.
  - split; [done|]. unfold balloc. apply runs_panic, runs_gets. apply runs_panic.
    eapply runs_mono; [by apply balloc_scan|]. cbv beta. intros [x|] s'; [|done].
    intros ((L1 & L2 & _) & _). rewrite Hall in L2; done.
Qed.

(** bfree clears the bit of a block in use and nothing else; on a block
    that is already free it panics. *)
Theorem bfree_correct s H L b : fs_geom (fsb s) -> fok s H L -> holds s H -> sb_synced s ->
  (size L + size H + 1 <= bs_cap)%nat -> 0 <= b < sb_size (fsb s) ->
  if used s b then
    runs (bfree bs_dev b) s (fun _ s' => fok s' H ({[BBLOCK b (fsb s)]} ∪ L) /\
      (forall x, 0 <= x < sb_size (fsb s) -> used s' x = if decide (x = b) then false else used s x) /\
      (forall x, x <> BBLOCK b (fsb s) -> fblk s' x = fblk s x) /\ fic s' = fic s)
  else bfree bs_dev b s = Panic "freeing free block".
Proof.
  intros Hg Hok Hh Hsb Hc Hb. destruct (used s b) eqn:Hu.
  - apply runs_tail. apply (bfree_spec s H L b); try done. intros s' Hf Hok'. apply runs_ret. split_and!; try done.
    + intros x Hx. by eapply used_freed.
    + intros x Hx. rewrite (bec_blk _ _ _ Hf). by rewrite decide_False.
    + apply Hf.
  - pose proof bs_cap_small. destruct (BBLOCK_range _ b Hg Hb) as [_ HBr]. unfold bfree.
    apply runs_panic, runs_tail_ret. apply (fs_readsb_spec s H L); [done|apply (fg_sb _ Hg)| |lia|].
    { intros i Hi. by apply (Hh i) in Hi as (Hi & _). }
    intros s1 Hok1 Hs1. apply runs_ret. unfold sb_synced in Hsb. rewrite Hsb. apply runs_panic, runs_modify.
    rewrite (becomes_set_sb _ _ _ Hs1).
    apply (fs_bread_panic s1 H L); [done|by apply bs_home_disk, BBLOCK_home| |lia|].
    { intros i Hi. by apply (Hh i) in Hi as (_ & Hi & _). }
    intros i s2 _ _ _. cbv zeta. rewrite (bec_blk _ _ _ Hs1). fold (used s b). by rewrite Hu.
Qed.
End Alloc.
