(* ===== verification/FsInode.v ===== *)
(** * The inode cache (iget, idup, ilock, iunlock, iupdate, ialloc of fs.c) *)

From S2P Require Import Prelude.
From S2P Require Import Params.
From S2P Require Import Cstr.
From S2P Require Import Fsfmt.
From S2P Require Import Txn.
From S2P Require Import Fs.
From S2P Require Import FsBlock.

(** ** The cache invariant *)

Definition ikey (ip : inode) : Z * Z := (i_dev ip, i_inum ip).

(** Entries in use have positive counts and are the only one for their inode. *)
Record ic_ok (ic : list inode) : Prop := {
  ic_len : length ic = NINODE;
  ic_ref : forall i x, ic !! i = Some x -> 0 <= i_ref x;
  ic_uniq : forall i j x y, ic !! i = Some x -> ic !! j = Some y -> 0 < i_ref x -> 0 < i_ref y ->
    ikey x = ikey y -> i = j
}.

(** What the loop of iget finds. *)
Lemma iget_scan_spec l i e dev inum :
  match iget_scan l i e dev inum with
  | inl k => exists x, (i <= k)%nat /\ l !! (k - i)%nat = Some x /\ 0 < i_ref x /\ ikey x = (dev, inum)
  | inr r => (forall k x, l !! k = Some x -> 0 < i_ref x -> ikey x <> (dev, inum)) /\
      match e with
      | Some k => r = Some k
      | None => match r with
                | Some k => exists x, (i <= k)%nat /\ l !! (k - i)%nat = Some x /\ i_ref x = 0 /\
                              forall j y, (j < k - i)%nat -> l !! j = Some y -> i_ref y <> 0
                | None => forall k x, l !! k = Some x -> i_ref x <> 0
                end
      end
  end.
Proof.
  revert i e. induction l as [|x l IH]; intros i e; cbn [iget_scan].
  { split; [intros k y; by rewrite lookup_nil|]. destruct e; [done|]. intros k y. by rewrite lookup_nil. }
  destruct ((i_ref x >? 0) && (i_dev x =? dev) && (i_inum x =? inum)) eqn:E.
  - apply andb_true_iff in E as [[E1 E2%Z.eqb_eq]%andb_true_iff E3%Z.eqb_eq]. rewrite Z.gtb_ltb in E1. apply Z.ltb_lt in E1.
    exists x. rewrite Nat.sub_diag. unfold ikey. by rewrite E2, E3.
  - assert (Hx : 0 < i_ref x -> ikey x <> (dev, inum)).
    { intros Hr [= <- <-]. rewrite !Z.eqb_refl, Z.gtb_ltb in E. apply Z.ltb_lt in Hr. by rewrite Hr in E. }
    specialize (IH (S i) (match e with None => if i_ref x =? 0 then Some i else None | Some _ => e end)).
    destruct (iget_scan _ _ _ _ _) as [k|r].
    + destruct IH as (y & Hk & Hy & ?). exists y. split; [lia|]. split; [|done].
      replace (k - i)%nat with (S (k - S i)) by lia. done.
    + destruct IH as [IH1 IH2]. split.
      * intros [|k] y; [intros [= <-]; done|apply IH1].
      * destruct e as [k|]; [done|]. destruct (Z.eqb_spec (i_ref x) 0) as [E0|E0].
        -- subst r. exists x. rewrite Nat.sub_diag. split_and!; try done. intros j y Hj. lia.
        -- destruct r as [k|].
           ++ destruct IH2 as (y & Hk & Hy & Hy0 & Hlt). exists y. replace (k - i)%nat with (S (k - S i)) by lia.
              split_and!; try done; [lia|]. intros [|j] z Hj; [intros [= <-]; done|]. apply Hlt. lia.
           ++ intros [|k] y; [intros [= <-]; done|apply IH2].
Qed.

Section Icache.
Context {B : Type} {BO : BlockOps B}.
Implicit Types s : fs B.

Lemma geti_lookup s i x : fic s !! i = Some x -> geti s i = x.
Proof. intros H. unfold geti. by apply nth_lookup_Some. Qed.

Lemma lookup_geti s i : (i < length (fic s))%nat -> fic s !! i = Some (geti s i).
Proof. intros H. destruct (lookup_lt_is_Some_2 (fic s) i H) as [x Hx]. rewrite Hx. by rewrite (geti_lookup _ _ _ Hx). Qed.

(** The count of references to inode [k]. *)
Definition refs (ic : list inode) (k : Z * Z) : Z :=
  foldr (fun x n => (if decide (ikey x = k) then i_ref x else 0) + n) 0 ic.

Lemma refs_alter ic i x f k : ic !! i = Some x ->
  refs (alter f i ic) k = refs ic k - (if decide (ikey x = k) then i_ref x else 0)
                        + (if decide (ikey (f x) = k) then i_ref (f x) else 0).
Proof.
  unfold refs. revert i. induction ic as [|y ic IH]; intros [|i]; cbn; try done.
  - intros [= ->]. cbn. lia.
  - intros Hi. rewrite (IH _ Hi). lia.
Qed.

(** Changing one entry keeps the invariant if the new entry keeps its key and
    stays counted, or takes a key no other counted entry has. *)
Lemma ic_ok_alter ic i x f : ic_ok ic -> ic !! i = Some x -> 0 <= i_ref (f x) ->
  (forall j y, j <> i -> ic !! j = Some y -> 0 < i_ref y -> 0 < i_ref (f x) -> ikey y <> ikey (f x)) ->
  ic_ok (alter f i ic).
Proof.
  intros [H1 H2 H3] Hi Hr Hk.
  assert (Hl : forall j y, alter f i ic !! j = Some y -> (j = i /\ y = f x) \/ (j <> i /\ ic !! j = Some y)).
  { intros j y. destruct (decide (j = i)) as [->|Hne].
    - rewrite list_lookup_alter_eq, Hi. intros [= <-]. by left.
    - rewrite list_lookup_alter_ne by done. by right. }
  split.
  - by rewrite length_alter.
  - intros j y [[-> ->]|[_ Hj]]%Hl; [done|by eapply H2].
  - intros j j' y y' [[-> ->]|[Hj Ej]]%Hl [[-> ->]|[Hj' Ej']]%Hl Hy Hy' E; [done| | |by eapply H3].
    + exfalso. eapply (Hk j' y'); try done.
    + exfalso. by eapply (Hk j y).
Qed.

(** The three outcomes of iget. *)
Lemma iget_cases s dev inum : ic_ok (fic s) ->
  (exists i x, fic s !! i = Some x /\ 0 < i_ref x /\ ikey x = (dev, inum) /\
     iget dev inum s = Done i (upd_inode i (fun x => set_ref (i_ref x + 1) x) s)) \/
  ((forall i x, fic s !! i = Some x -> 0 < i_ref x -> ikey x <> (dev, inum)) /\
   ((exists i x, fic s !! i = Some x /\ i_ref x = 0 /\
       (forall j y, (j < i)%nat -> fic s !! j = Some y -> i_ref y <> 0) /\
       iget dev inum s = Done i (upd_inode i (fun x => mkinode dev inum 1 0 (i_di x)) s)) \/
    ((forall i x, fic s !! i = Some x -> i_ref x <> 0) /\ iget dev inum s = Panic "iget: no inodes"))).
Proof.
  intros Hic. pose proof (iget_scan_spec (fic s) 0 None dev inum) as Hsc. unfold iget, bind, gets, modify, ret, panic.
  destruct (iget_scan _ _ _ _ _) as [k|[k|]].
  - left. destruct Hsc as (x & _ & Hx & Hr & Hk). rewrite Nat.sub_0_r in Hx. eauto 10.
  - right. destruct Hsc as (Hn & x & _ & Hx & Hr & Hlt). rewrite Nat.sub_0_r in Hx, Hlt. split; [done|]. left. eauto 10.
  - right. destruct Hsc as (Hn & Hr). split; [done|]. right. done.
Qed.

Lemma iget_effect s dev inum : ic_ok (fic s) ->
  match iget dev inum s with
  | Done i s' =>
      ic_ok (fic s') /\ fb s' = fb s /\ fsb s' = fsb s /\
      (exists x, fic s' !! i = Some x /\ ikey x = (dev, inum) /\ 0 < i_ref x /\
         (i_ref x = 1 -> i_flags x = 0)) /\
      (forall k, refs (fic s') k = refs (fic s) k + if decide (k = (dev, inum)) then 1 else 0)
  | Panic msg =>
      msg = "iget: no inodes"%string /\
      forall i x, fic s !! i = Some x -> i_ref x <> 0 /\ ikey x <> (dev, inum)
  | Sleep _ _ => False
  end.
Proof.
  intros Hic. destruct (iget_cases s dev inum Hic) as [(i & x & Hx & Hr & Hk & ->)|(Hn & [(i & x & Hx & Hr & _ & ->)|[Hf ->]])].
  - cbn [upd_inode fic fb fsb]. split_and!; try done.
    + eapply ic_ok_alter; [done|done|cbn; lia|]. intros j y Hj Hy Hry _ E. apply Hj.
      by eapply (ic_uniq _ Hic j i y x).
    + exists (set_ref (i_ref x + 1) x). rewrite list_lookup_alter_eq, Hx. split_and!; try done; cbn; lia.
    + intros k. rewrite (refs_alter _ _ _ _ _ Hx). change (ikey (set_ref _ x)) with (ikey x). rewrite Hk.
      cbn [set_ref i_ref]. repeat case_decide; congruence || lia.
  - cbn [upd_inode fic fb fsb]. split_and!; try done.
    + eapply ic_ok_alter; [done|done|cbn; lia|]. intros j y Hj Hy Hry _ E. by apply (Hn j y Hy Hry).
    + exists (mkinode dev inum 1 0 (i_di x)). rewrite list_lookup_alter_eq, Hx. split_and!; try done.
    + intros k. rewrite (refs_alter _ _ _ _ _ Hx). change (ikey (mkinode dev inum 1 0 (i_di x))) with (dev, inum).
      cbn [i_ref]. rewrite Hr. repeat case_decide; congruence || lia.
  - split; [done|]. intros i x Hx. pose proof (Hf i x Hx). split; [done|]. apply (Hn i x Hx).
    pose proof (ic_ref _ Hic i x Hx). lia.
Qed.

(** iget keeps the cache invariant (one entry per inode in use) and
    returns an entry of the inode; the references to this inode grow by one
    and no other count changes; an entry that was not cached before starts
    unlocked and not valid.  It panics only when the inode is not cached and
    every entry is in use. *)
Theorem iget_correct s dev inum : ic_ok (fic s) ->
  match iget dev inum s with
  | Done i s' =>
      ic_ok (fic s') /\ fb s' = fb s /\ fsb s' = fsb s /\
      (exists x, fic s' !! i = Some x /\ ikey x = (dev, inum) /\ 0 < i_ref x /\
         (i_ref x = 1 -> i_flags x = 0)) /\
      (forall k, refs (fic s') k = refs (fic s) k + if decide (k = (dev, inum)) then 1 else 0)
  | Panic msg =>
      msg = "iget: no inodes"%string /\
      forall i x, fic s !! i = Some x -> i_ref x <> 0 /\ ikey x <> (dev, inum)
  | Sleep _ _ => False
  end.
Proof. apply iget_effect. Qed.

(** iget with an entry to spare. *)
Lemma iget_runs s dev inum : ic_ok (fic s) -> (exists i x, fic s !! i = Some x /\ i_ref x = 0) ->
  runs (iget dev inum) s (fun i s' =>
    ic_ok (fic s') /\ fb s' = fb s /\ fsb s' = fsb s /\
    (exists x, fic s' !! i = Some x /\ ikey x = (dev, inum) /\ 0 < i_ref x) /\
    (forall k, refs (fic s') k = refs (fic s) k + if decide (k = (dev, inum)) then 1 else 0)).
Proof.
  intros Hic (i & x & Hx & Hr). pose proof (iget_effect s dev inum Hic) as H. unfold runs.
  destruct (iget dev inum s) as [j s'|msg|c s']; [|by destruct (proj2 H i x Hx)|done].
  destruct H as (H1 & H2 & H3 & (y & Hy & Hk & Hyr & _) & H5). eauto 10.
Qed.
End Icache.

Lemma ic_ok_empty : ic_ok (replicate NINODE noinode).
Proof.
  split; [done| |].
  - intros i x [-> _]%lookup_replicate. done.
  - intros i j x y [-> _]%lookup_replicate. done.
Qed.

(** ** Inodes on disk *)

Section DiskInode.
Context {B : Type} {BO : BlockOps B} {BS : BlockStore B}.
Implicit Types s : fs B.

(** Inode [n] as the disk (through the transaction) has it. *)
Definition dino s (n : Z) : dinode := dinode_get (fblk s (IBLOCK n (fsb s))) n.

Lemma IBLOCK_home sb n : fs_geom sb -> 0 <= n < sb_ninodes sb -> bs_home (IBLOCK n sb) /\ IBLOCK n sb < sb_bmapstart sb.
Proof.
  intros Hg Hn. pose proof (fg_inodes _ Hg n Hn). pose proof (fg_data _ Hg). unfold dstart in *.
  pose proof (fg_size _ Hg). assert (0 <= (sb_size sb + BPB - 1) / BPB) by (apply Z.div_pos; unfold BPB; lia).
  split; [|lia]. apply (fg_home _ Hg). lia.
Qed.

Lemma same_slot sb n m : fs_geom sb -> 0 <= n < sb_ninodes sb -> 0 <= m < sb_ninodes sb ->
  IBLOCK m sb = IBLOCK n sb -> n mod IPB = m mod IPB -> n = m.
Proof.
  intros Hg Hn Hm E Em. pose proof (fg_ninodes _ Hg). pose proof (fg_start _ Hg). pose proof (fg_data _ Hg) as Hd.
  pose proof (fg_size _ Hg). unfold dstart, IBLOCK, IPB, BPB in *.
  assert (0 <= (sb_size sb + 4096 - 1) / 4096) by (apply Z.div_pos; lia).
  assert (0 <= n / 8 < 268435456) by (split; [apply Z.div_pos; lia|apply Z.div_lt_upper_bound; lia]).
  assert (0 <= m / 8 < 268435456) by (split; [apply Z.div_pos; lia|apply Z.div_lt_upper_bound; lia]).
  rewrite !u32_id in E by lia. rewrite (Z.div_mod n 8), (Z.div_mod m 8) by lia. lia.
Qed.

(** [s'] is [s] with inode [n] written as [di]. *)
Definition inode_written s s' (n : Z) (di : dinode) : Prop :=
  becomes s s' (fun b => if decide (b = IBLOCK n (fsb s)) then dinode_put (fblk s b) n di else fblk s b).

Lemma dino_written s s' H L n m di : fok s H L -> dinode_ok di -> inode_written s s' n di ->
  0 <= n < sb_ninodes (fsb s) -> 0 <= m < sb_ninodes (fsb s) -> fs_geom (fsb s) ->
  dino s' m = if decide (m = n) then di else dino s m.
Proof.
  intros Hok Hdi Hw Hn Hm Hg. unfold dino. rewrite (bec_sb _ _ _ Hw), (bec_blk _ _ _ Hw).
  pose proof (fblk_ok s H L (IBLOCK m (fsb s)) Hok) as Hb.
  destruct (decide (m = n)) as [->|Hne].
  - rewrite decide_True by done. by apply dinode_get_put.
  - destruct (decide (IBLOCK m (fsb s) = IBLOCK n (fsb s))) as [E|E]; [|done].
    apply dinode_get_put_ne; [done|apply Hdi|]. intros Em. apply Hne. symmetry. by eapply same_slot.
Qed.

(** iupdate. *)
Lemma iupdate_spec {A} s H L ip x (k : M (fs B) A) Q :
  fs_geom (fsb s) -> fok s H L -> geti s ip = x -> i_dev x = bs_dev -> 0 <= i_inum x < sb_ninodes (fsb s) ->
  dinode_ok (i_di x) -> (forall i, H !! i <> Some (IBLOCK (i_inum x) (fsb s))) -> (size L + size H < bs_cap)%nat ->
  (forall s', inode_written s s' (i_inum x) (i_di x) -> fok s' H ({[IBLOCK (i_inum x) (fsb s)]} ∪ L) -> runs k s' Q) ->
  runs (iupdate ip ;;; k) s Q.
Proof.
  intros Hg Hok Ex Hdev Hn Hdi HH Hc Hk. pose proof bs_cap_small. destruct (IBLOCK_home _ _ Hg Hn) as [Hh _].
  apply runs_bind. unfold iupdate. apply runs_bind, runs_gets, runs_bind, runs_gets. rewrite Ex, Hdev.
  apply (fs_bread s H L); [done|by apply bs_home_disk|done|lia|]. intros i s1 Hi Hok1 Hs1. apply runs_tail3.
  apply (fs_store s1 H L i (IBLOCK (i_inum x) (fsb s))); [done|done|done|lia|..].
  { apply dinode_put_ok; [by eapply fblk_ok|apply Hdi]. }
  intros s2 Hok2 Hs2. apply runs_ret, Hk; [|done]. unfold inode_written.
  eapply becomes_ext; [by eapply becomes_trans|]. intros b. cbv beta. rewrite (bec_blk _ _ _ Hs1).
  destruct (decide _) as [->|]; done.
Qed.

(** iupdate makes the inode on disk equal to the one in memory: reading
    it back gives every field, each other inode on disk (also those in the
    same block) and every other block are unchanged, and the block is logged. *)
Theorem iupdate_correct s H L ip x :
  fs_geom (fsb s) -> fok s H L -> geti s ip = x -> i_dev x = bs_dev -> 0 <= i_inum x < sb_ninodes (fsb s) ->
  dinode_ok (i_di x) -> (forall i, H !! i <> Some (IBLOCK (i_inum x) (fsb s))) -> (size L + size H < bs_cap)%nat ->
  runs (iupdate ip) s (fun _ s' =>
    (forall n, 0 <= n < sb_ninodes (fsb s) -> dino s' n = if decide (n = i_inum x) then i_di x else dino s n) /\
    (forall b, b <> IBLOCK (i_inum x) (fsb s) -> fblk s' b = fblk s b) /\
    fok s' H ({[IBLOCK (i_inum x) (fsb s)]} ∪ L) /\ fic s' = fic s).
Proof.
  intros Hg Hok Ex Hdev Hn Hdi HH Hc. apply runs_tail, (iupdate_spec s H L ip x); try done.
  intros s' Hw Hok'. apply runs_ret. split_and!; [| |done|apply Hw].
  - intros n Hr. by eapply dino_written.
  - intros b Hb. rewrite (bec_blk _ _ _ Hw). by rewrite decide_False.
Qed.

(** Reading the inode of entry [ip] from disk. *)
Lemma load_spec {A} s H L x (k : nat -> list Z -> M (fs B) A) Q :
  fs_geom (fsb s) -> fok s H L -> i_dev x = bs_dev -> 0 <= i_inum x < sb_ninodes (fsb s) ->
  (forall i, H !! i <> Some (IBLOCK (i_inum x) (fsb s))) -> (size L + size H < NBUF)%nat ->
  (forall i s', H !! i = None -> fok s' (<[i := IBLOCK (i_inum x) (fsb s)]> H) L -> becomes s s' (fblk s) ->
     runs (k i (fblk s (IBLOCK (i_inum x) (fsb s)))) s' Q) ->
  runs (bp <- blk (o_bread (i_dev x) (IBLOCK (i_inum x) (fsb s))) ;; d <- blk (o_data bp) ;; k bp d) s Q.
Proof.
  intros Hg Hok Hdev Hn HH Hc Hk. destruct (IBLOCK_home _ _ Hg Hn) as [Hh _]. rewrite Hdev.
  apply (fs_bread s H L); [done|by apply bs_home_disk|done|done|done].
Qed.

Lemma fok_upd s H L ip f : fok (upd_inode ip f s) H L <-> fok s H L.
Proof. done. Qed.

(** ilock on an entry in use.  If another process has it locked the
    caller sleeps on it; if its copy is valid it is only marked locked;
    otherwise the copy is read from disk, and becomes valid, before ilock
    returns.  An inode whose type on disk is 0 makes it panic. *)
Theorem ilock_correct s H L ip x :
  fs_geom (fsb s) -> fok s H L -> fic s !! ip = Some x -> (ip < NINODE)%nat -> 1 <= i_ref x ->
  i_dev x = bs_dev -> 0 <= i_inum x < sb_ninodes (fsb s) ->
  (forall i, H !! i <> Some (IBLOCK (i_inum x) (fsb s))) -> (size L + size H < NBUF)%nat ->
  if i_busy x then ilock ip s = Sleep (ChInode ip) s
  else if i_valid x then
    ilock ip s = Done tt (upd_inode ip (fun x => set_iflags (Z.lor (i_flags x) I_BUSY) x) s)
  else if di_type (dino s (i_inum x)) =? 0 then ilock ip s = Panic "ilock: no type"
  else runs (ilock ip) s (fun _ s' =>
    fok s' H L /\ (forall b, fblk s' b = fblk s b) /\ fsb s' = fsb s /\
    fic s' = <[ip := mkinode (i_dev x) (i_inum x) (i_ref x) (Z.lor (Z.lor (i_flags x) I_BUSY) I_VALID)
                             (dino s (i_inum x))]> (fic s)).
Proof.
  intros Hg Hok Hx Hip Hr Hdev Hn HH Hc. pose proof (geti_lookup _ _ _ Hx) as Ex.
  assert (Hl : (NINODE <=? ip)%nat = false) by (apply Nat.leb_gt; done).
  assert (Hr' : (i_ref x <? 1) = false) by (apply Z.ltb_ge; done).
  destruct (i_busy x) eqn:Eb; [|destruct (i_valid x) eqn:Ev]; [| |destruct (Z.eqb_spec (di_type (dino s (i_inum x))) 0) as [Et|Et]].
  - unfold ilock, bind, gets. by rewrite Ex, Hl, Hr', Eb.
  - unfold ilock, bind, gets, modify. by rewrite Ex, Hl, Hr', Eb, Ev.
  - unfold ilock. apply runs_panic, runs_gets. rewrite Ex, Hl, Hr', Eb, Ev. cbn [orb negb].
    apply runs_panic, runs_modify, runs_panic, runs_gets. cbn [upd_inode fsb].
    destruct (IBLOCK_home _ _ Hg Hn) as [Hh _]. rewrite Hdev.
    apply (fs_bread_panic _ H L); [done|by apply bs_home_disk|done|done|]. intros i s1 Hi Hok1 Hs1. cbv zeta.
    apply runs_panic, runs_modify, runs_panic, runs_tail.
    apply (fs_brelse _ H L i (IBLOCK (i_inum x) (fsb s))); [done|done|]. intros s2 Hok2 Hs2. apply runs_ret.
    apply runs_panic, runs_modify. change (fblk (upd_inode ip _ s)) with (fblk s) in *. fold (dino s (i_inum x)).
    by rewrite Et.
  - unfold ilock. apply runs_bind, runs_gets. rewrite Ex, Hl, Hr', Eb, Ev. cbn [orb negb].
    apply runs_bind, runs_modify, runs_bind, runs_gets. set (s0 := upd_inode ip _ s).
    apply (load_spec s0 H L x); [done|done|done|done|done|done|]. intros i s1 Hi Hok1 Hs1. cbv zeta.
    change (fblk s0) with (fblk s) in *. change (fsb s0) with (fsb s) in *. fold (dino s (i_inum x)).
    apply runs_bind, runs_modify. apply (fs_brelse _ H L i (IBLOCK (i_inum x) (fsb s))); [done|done|].
    intros s2 Hok2 Hs2. apply runs_bind, runs_modify. destruct (Z.eqb_spec (di_type (dino s (i_inum x))) 0); [done|].
    apply runs_ret. split_and!; [done| | |].
    + intros b. change (fblk (upd_inode ip _ s2) b) with (fblk s2 b). rewrite (bec_blk _ _ _ Hs2). apply Hs1.
    + cbn [upd_inode fsb]. rewrite (bec_sb _ _ _ Hs2). apply Hs1.
    + cbn [upd_inode fic]. rewrite (bec_ic _ _ _ Hs2). cbn [upd_inode fic]. rewrite (bec_ic _ _ _ Hs1).
      unfold s0. cbn [upd_inode fic]. apply list_eq. intros j. destruct (decide (j = ip)) as [->|Hne].
      * rewrite !list_lookup_alter_eq, Hx, list_lookup_insert_eq by (by eapply lookup_lt_Some). done.
      * by rewrite !list_lookup_alter_ne, list_lookup_insert_ne by done.
Qed.

(** The first free inode on disk, from 1 on. *)
Definition least_inum s (n : Z) : Prop :=
  1 <= n < sb_ninodes (fsb s) /\ di_type (dino s n) = 0 /\ forall m, 1 <= m < n -> di_type (dino s m) <> 0.

Definition new_dinode (type : Z) : dinode := set_type type zero_dinode.

Lemma new_dinode_ok type : short_ok type -> dinode_ok (new_dinode type).
Proof.
  intros H. split; cbn; try done; unfold short_ok, uint_ok in *; try lia. repeat constructor; lia.
Qed.

(** One round of the search of ialloc. *)
Lemma ialloc_round s H L type n (Q : option nat -> fs B -> Prop) :
  fs_geom (fsb s) -> fok s H L -> 1 <= n < sb_ninodes (fsb s) -> short_ok type ->
  (forall i m, H !! i <> Some (IBLOCK m (fsb s))) -> (size L + size H < bs_cap)%nat ->
  (forall s', di_type (dino s n) = 0 -> inode_written s s' n (new_dinode type) ->
     fok s' H ({[IBLOCK n (fsb s)]} ∪ L) -> runs (ip <- iget bs_dev n ;; ret (Some ip)) s' Q) ->
  (forall s', di_type (dino s n) <> 0 -> becomes s s' (fblk s) -> fok s' H L -> Q None s') ->
  runs (bp <- blk (o_bread bs_dev (IBLOCK n (fsb s))) ;;
        d <- blk (o_data bp) ;;
        if di_type (dinode_get d n) =? 0 then
          blk (o_set bp (dinode_put d n (set_type type zero_dinode))) ;;;
          blk (o_log_write bp) ;;;
          blk (o_brelse bp) ;;;
          ip <- iget bs_dev n ;;
          ret (Some ip)
        else blk (o_brelse bp) ;;; ret None) s Q.
Proof.
  intros Hg Hok Hn Ht HH Hc Hfree Hused. pose proof bs_cap_small.
  destruct (IBLOCK_home (fsb s) n Hg ltac:(lia)) as [Hh _].
  apply (fs_bread s H L); [done|by apply bs_home_disk|intros i; apply HH|lia|]. intros i s1 Hi Hok1 Hs1.
  fold (dino s n). destruct (Z.eqb_spec (di_type (dino s n)) 0) as [E|E].
  - apply (fs_store s1 H L i (IBLOCK n (fsb s))); [done|done|done|lia|..].
    { apply dinode_put_ok; [by eapply fblk_ok|done]. }
    intros s2 Hok2 Hs2. apply Hfree; [done| |done]. unfold inode_written.
    eapply becomes_ext; [by eapply becomes_trans|]. intros b. cbv beta. rewrite (bec_blk _ _ _ Hs1).
    destruct (decide _) as [->|]; done.
  - apply (fs_brelse s1 H L i (IBLOCK n (fsb s))); [done|done|]. intros s2 Hok2 Hs2. apply runs_ret.
    apply Hused; [done| |done]. eapply becomes_ext; [by eapply becomes_trans|]. apply Hs1.
Qed.

Lemma dino_same s s' n : becomes s s' (fblk s) -> dino s' n = dino s n.
Proof. intros [A1 A2 A3 A4 A5]. unfold dino. by rewrite A1, A5. Qed.

(** The inode numbers that ialloc tries. *)
Definition inums (sb : superblock) (k : nat) : list Z :=
  List.map Z.of_nat (seq (S k) (Z.to_nat (sb_ninodes sb) - 1 - k)).

Lemma inums_0 sb : inums sb 0 = List.map Z.of_nat (seq 1 (Z.to_nat (sb_ninodes sb) - 1)).
Proof. unfold inums. by rewrite Nat.sub_0_r. Qed.

Lemma inums_S sb k : inums sb k = if decide (Z.of_nat (S k) < sb_ninodes sb)
  then Z.of_nat (S k) :: inums sb (S k) else [].
Proof.
  unfold inums. case_decide as E.
  - replace (Z.to_nat (sb_ninodes sb) - 1 - k)%nat with (S (Z.to_nat (sb_ninodes sb) - 1 - S k)) by lia. done.
  - by replace (Z.to_nat (sb_ninodes sb) - 1 - k)%nat with 0%nat by lia.
Qed.

(** What ialloc leaves when it takes the inode [n]. *)
Definition ialloc_post (s : fs B) (H : gmap _ _) L type (n : Z) (ip : nat) (s' : fs B) : Prop :=
  (forall m, 0 <= m < sb_ninodes (fsb s) -> dino s' m = if decide (m = n) then new_dinode type else dino s m) /\
  (forall b, b <> IBLOCK n (fsb s) -> fblk s' b = fblk s b) /\
  fok s' H ({[IBLOCK n (fsb s)]} ∪ L) /\ ic_ok (fic s') /\
  (exists x, fic s' !! ip = Some x /\ ikey x = (bs_dev, n) /\ 0 < i_ref x).

(** The inode was written; iget gives it an entry. *)
Lemma ialloc_take s s1 s2 H L type n : fs_geom (fsb s) -> fok s1 H L -> short_ok type -> ic_ok (fic s) -> (exists i x, fic s !! i = Some x /\ i_ref x = 0) ->
  0 <= n < sb_ninodes (fsb s) -> becomes s s1 (fblk s) -> inode_written s1 s2 n (new_dinode type) ->
  fok s2 H ({[IBLOCK n (fsb s)]} ∪ L) -> runs (iget bs_dev n) s2 (ialloc_post s H L type n).
Proof.
  intros Hg Hok1 Ht Hic Hfree Hn Hs1 Hw Hok2. assert (Hic2 : ic_ok (fic s2)) by (by rewrite (bec_ic _ _ _ Hw), (bec_ic _ _ _ Hs1)).
  eapply runs_mono; [apply (iget_runs s2 bs_dev n Hic2); by rewrite (bec_ic _ _ _ Hw), (bec_ic _ _ _ Hs1)|].
  cbv beta. intros ip s3 (I1 & I2 & I3 & I4 & _). assert (Hb : forall b, fblk s3 b = fblk s2 b) by (intros b; unfold fblk; by rewrite I2).
  split_and!; [| | |done|done].
  - intros m Hm. rewrite <- (dino_same s s1 m Hs1). unfold inode_written in Hw.
    pose proof (dino_written s1 s2 H L n m (new_dinode type) Hok1 (new_dinode_ok _ Ht) Hw) as Ed.
    rewrite (bec_sb _ _ _ Hs1) in Ed. rewrite <- Ed by done. unfold dino. by rewrite I3, Hb.
  - intros b Hbn. rewrite Hb, (bec_blk _ _ _ Hw), (bec_sb _ _ _ Hs1), decide_False by done. apply Hs1.
  - unfold fok. rewrite I2. done.
Qed.

Lemma ialloc_loop s H L type :
  fs_geom (fsb s) -> fok s H L -> short_ok type -> ic_ok (fic s) ->
  (exists i x, fic s !! i = Some x /\ i_ref x = 0) ->
  (forall i m, H !! i <> Some (IBLOCK m (fsb s))) -> (size L + size H < bs_cap)%nat ->
  runs (for_ (inums (fsb s) 0) (fun inum =>
    bp <- blk (o_bread bs_dev (IBLOCK inum (fsb s))) ;;
    d <- blk (o_data bp) ;;
    if di_type (dinode_get d inum) =? 0 then
      blk (o_set bp (dinode_put d inum (set_type type zero_dinode))) ;;;
      blk (o_log_write bp) ;;;
      blk (o_brelse bp) ;;;
      ip <- iget bs_dev inum ;;
      ret (Some ip)
    else blk (o_brelse bp) ;;; ret None)) s (fun r s' =>
      match r with
      | Some ip => exists n, least_inum s n /\ ialloc_post s H L type n ip s'
      | None => forall n, 1 <= n < sb_ninodes (fsb s) -> di_type (dino s n) <> 0
      end).
Proof.
  intros Hg Hok Ht Hic Hfree HH Hc. apply (runs_for _ _ (fun rem s1 => exists k, rem = inums (fsb s) k /\
      (forall m, 1 <= m < Z.of_nat (S k) -> m < sb_ninodes (fsb s) -> di_type (dino s m) <> 0) /\
      becomes s s1 (fblk s) /\ fok s1 H L)).
  - exists 0%nat. split_and!; [done|intros m Hm; lia|apply becomes_refl|done].
  - intros n rem s1 (k & Hr & Hp & Hs1 & Hok1). rewrite inums_S in Hr. case_decide as Hn; [|done].
    injection Hr as -> ->. set (n := Z.of_nat (S k)) in *. rewrite <- (bec_sb _ _ _ Hs1).
    apply (ialloc_round s1 H L type n); rewrite ?(bec_sb _ _ _ Hs1); try done; [unfold n; lia| |].
    + intros s2 E Hw Hok2. rewrite (dino_same _ _ _ Hs1) in E.
      eapply runs_seq; [apply (ialloc_take s s1 s2 H L type n); try done; unfold n; lia|].
      cbv beta. intros ip s3 Hpost. apply runs_ret. exists n. split; [|done]. split_and!; [unfold n; lia|done|done|]. intros m Hm. apply Hp; lia.
    + intros s2 E Hs2 Hok2. rewrite (dino_same _ _ _ Hs1) in E. exists (S k). split_and!; [done| | |done].
      * intros m Hm Hmn. destruct (decide (m = n)) as [->|]; [done|]. apply Hp; unfold n in *; lia.
      * eapply becomes_ext; [by eapply becomes_trans|]. apply Hs1.
  - intros s1 (k & Hr & Hp & _ & _) n Hn. rewrite inums_S in Hr. case_decide; [done|]. apply Hp; lia.
Qed.

(** ialloc takes the lowest-numbered free inode: on disk it becomes an
    otherwise zero inode of the given type, every other inode and every other
    block is unchanged, and an entry of the inode cache refers to it.  With
    no free inode it panics. *)
Theorem ialloc_correct s H L type :
  fs_geom (fsb s) -> fok s H L -> short_ok type -> ic_ok (fic s) ->
  (exists i x, fic s !! i = Some x /\ i_ref x = 0) ->
  (forall i m, H !! i <> Some (IBLOCK m (fsb s))) -> (size L + size H < bs_cap)%nat ->
  (exists n, least_inum s n /\ runs (ialloc bs_dev type) s (ialloc_post s H L type n)) \/
  ((forall n, 1 <= n < sb_ninodes (fsb s) -> di_type (dino s n) <> 0) /\
   ialloc bs_dev type s = Panic "ialloc: no inodes").
Proof.
  intros Hg Hok Ht Hic Hfree HH Hc.
  pose proof (ialloc_loop s H L type Hg Hok Ht Hic Hfree HH Hc) as Hloop. rewrite inums_0 in Hloop.
  apply runs_done in Hloop as ([ip|] & s' & E & HQ).
  - left. destruct HQ as (n & Hl & Hpost). exists n. split; [done|]. unfold ialloc. apply runs_bind, runs_gets, runs_bind, runs_done.
    exists (Some ip), s'. split; [exact E|]. by apply runs_ret.
  - right. split; [done|]. unfold ialloc. apply runs_panic, runs_gets, runs_panic, runs_done.
    exists None, s'. split; [exact E|done].
Qed.
End DiskInode.
