(* ===== verification/FsFile.v ===== *)
(** * Files: bmap, readi and writei of fs.c

    [faddr] is the block map of an inode and [content] the bytes of the file.
    The section shows that bmap, readi and writei implement reading and
    writing that byte sequence, and that other files keep theirs. *)

From S2P Require Import Prelude.
From S2P Require Import Params.
From S2P Require Import Cstr.
From S2P Require Import Fsfmt.
From S2P Require Import Txn.
From S2P Require Import Fs.
From S2P Require Import FsBlock.
From S2P Require Import FsInode.

(** ** Counting free blocks *)

Lemma filter_flip (f g : nat -> bool) (b n : nat) : (b < n)%nat -> f b = true -> g b = false ->
  (forall x, (x < n)%nat -> x <> b -> g x = f x) ->
  S (length (List.filter g (seq 0 n))) = length (List.filter f (seq 0 n)).
Proof.
  induction n as [|n IH]; intros Hb Hf Hg Hx; [lia|]. rewrite seq_S, !List.filter_app, !length_app. cbn [Nat.add].
  destruct (decide (b = n)) as [->|Hne].
  - cbn [List.filter]. rewrite Hf, Hg. cbn [length].
    rewrite (filter_ext_in g f); [lia|]. intros a Ha. apply in_seq in Ha. apply Hx; lia.
  - rewrite <- IH; [|lia|done|done|intros x Hx' Hxb; apply Hx; lia]. cbn [List.filter]. rewrite (Hx n) by lia. lia.
Qed.

Section Frame.
Context {B : Type} {BO : BlockOps B} {BS : BlockStore B}.
Implicit Types s : fs B.

Definition nfree s : nat :=
  length (List.filter (fun b => negb (used s (Z.of_nat b))) (seq 0 (Z.to_nat (sb_size (fsb s))))).

Lemma nfree_least s : (0 < nfree s)%nat -> exists b, least_free s b.
Proof.
  intros H. destruct (least_free_dec s) as [?|Hall]; [done|]. exfalso. unfold nfree in H.
  destruct (List.filter _ _) as [|b l] eqn:E; [cbn in H; lia|].
  assert (Hin : In b (b :: l)) by (by left). rewrite <- E in Hin. apply filter_In in Hin as [Hb Hu]. apply in_seq in Hb.
  rewrite Hall in Hu by lia. done.
Qed.

(** The standing facts about a mounted file system. *)
Record mounted s : Prop := {
  mt_geom : fs_geom (fsb s);
  mt_small : sb_size (fsb s) <= BPB;      (* one bitmap block *)
  mt_meta : meta_used s;
  mt_sb : sb_synced s
}.

Definition bm s : Z := sb_bmapstart (fsb s).

Lemma BBLOCK_bm s b : mounted s -> 0 <= b < sb_size (fsb s) -> BBLOCK b (fsb s) = bm s.
Proof.
  intros [Hg Hs _ _] Hb. destruct (BBLOCK_range _ b Hg Hb) as [-> _]. rewrite Z.div_small by lia. done.
Qed.

Lemma mounted_starts s : mounted s -> 1 < sb_inodestart (fsb s) <= bm s /\ bm s < dstart (fsb s) <= sb_size (fsb s).
Proof.
  intros [Hg Hs Hm _]. pose proof (fg_start _ Hg). pose proof (fg_data _ Hg) as Hd. pose proof (fg_size _ Hg).
  unfold bm, dstart, BPB in *. assert (0 < (sb_size (fsb s) + 4096 - 1) / 4096); [|lia].
  assert (0 <= (sb_size (fsb s) + 4096 - 1) / 4096) by (apply Z.div_pos; lia).
  apply Z.div_str_pos. lia.
Qed.

(** [s'] extends [s]: blocks in use stay in use, and a block that is neither
    free, nor in the bitmap, nor one of [W], keeps its contents. *)
Record ext s s' (W : Z -> Prop) : Prop := {
  ex_sb : fsb s' = fsb s;
  ex_used : forall b, 0 <= b < sb_size (fsb s) -> used s b = true -> used s' b = true;
  ex_blk : forall b, b <> bm s -> (0 <= b < sb_size (fsb s) -> used s b = true) -> ~ W b -> fblk s' b = fblk s b
}.

Lemma ext_refl s W : ext s s W.
Proof. by split. Qed.

Lemma ext_weaken s s' (W W' : Z -> Prop) : ext s s' W -> (forall b, W b -> W' b) -> ext s s' W'.
Proof. intros [H1 H2 H3] HW. split; try done. intros b Hb Hu Hn. apply H3; try done. auto. Qed.

Lemma ext_trans s1 s2 s3 W : ext s1 s2 W -> ext s2 s3 W -> ext s1 s3 W.
Proof.
  intros [A1 A2 A3] [B1 B2 B3]. unfold bm in *. rewrite A1 in *. split; [congruence|auto|].
  intros b Hb Hu Hn. rewrite B3, A3; auto.
Qed.

Lemma becomes_ext_same s s' : becomes s s' (fblk s) -> ext s s' (fun _ => False).
Proof.
  intros Hs. split; [apply Hs| |].
  - intros b Hb Hu. by rewrite (becomes_used _ _ _ Hs).
  - intros b _ _ _. apply Hs.
Qed.

Lemma ext_mounted s s' W : mounted s -> ext s s' W -> ~ W 1 -> mounted s'.
Proof.
  intros Hm He HW. pose proof (mounted_starts s Hm) as Hst. destruct Hm as [Hg Hs Hu Hsb], He as [E1 E2 E3].
  pose proof (fg_size _ Hg). split; rewrite ?E1; try done.
  - intros b Hb. rewrite E1 in Hb. apply E2; [lia|]. by apply Hu.
  - unfold sb_synced in *. rewrite E1, E3; [done|lia| |done]. intros Hb. apply Hu. lia.
Qed.

Lemma allocated_ext s s' L H b : mounted s -> fok s H L -> least_free s b -> allocated s s' b ->
  ext s s' (fun _ => False) /\ used s' b = true /\ nfree s = S (nfree s') /\ fblk s' b = zero_block /\ dstart (fsb s) <= b.
Proof.
  intros Hm Hok Hl Ha. destruct (Hl) as (Hb & Hf & _).
  assert (Hu : forall x, 0 <= x < sb_size (fsb s) -> used s' x = if decide (x = b) then true else used s x).
  { intros x Hx. eapply used_allocated; try done; apply Hm. }
  split_and!.
  - split; [apply Ha| |].
    + intros x Hx Hux. rewrite Hu by done. by case_decide.
    + intros x Hx Hux _. rewrite (bec_blk _ _ _ Ha), (BBLOCK_bm s b Hm Hb), !decide_False; try done.
      intros ->. rewrite Hux in Hf by done. done.
  - rewrite Hu by done. by rewrite decide_True.
  - unfold nfree. rewrite (bec_sb _ _ _ Ha). symmetry. apply (filter_flip _ _ (Z.to_nat b)); [lia| | |].
    + rewrite Z2Nat.id by lia. by rewrite Hf.
    + rewrite Z2Nat.id, Hu, decide_True by (done || lia). done.
    + intros x Hx Hxb. rewrite Hu by lia. rewrite decide_False by lia. done.
  - rewrite (bec_blk _ _ _ Ha). by rewrite decide_True.
  - destruct (Z_lt_le_dec b (dstart (fsb s))); [|done]. rewrite (mt_meta _ Hm) in Hf by lia. done.
Qed.
End Frame.

(** ** The block map of an inode *)

Section Map.
Context {B : Type} {BO : BlockOps B} {BS : BlockStore B}.
Implicit Types s : fs B.

(** The indirect block, and the address of block [n] of the file, 0 if it has
    none. *)
Definition ind (di : dinode) : Z := nthZ (di_addrs di) NDIRECT.
Definition faddr s (di : dinode) (n : Z) : Z :=
  if n <? NDIRECT then nthZ (di_addrs di) n
  else if ind di =? 0 then 0
  else get32 (fblk s (ind di)) (4 * Z.to_nat (n - NDIRECT)).

Definition data_ok s (a : Z) : Prop := dstart (fsb s) <= a < sb_size (fsb s) /\ used s a = true.

(** A well-formed file: its blocks are distinct data blocks in use and cover
    its size. *)
Record file_ok s (di : dinode) : Prop := {
  fo_di : dinode_ok di;
  fo_max : di_size di <= MAXFILE * BSIZE;
  fo_ind : ind di <> 0 -> data_ok s (ind di);
  fo_data : forall n, 0 <= n < MAXFILE -> faddr s di n <> 0 -> data_ok s (faddr s di n) /\ faddr s di n <> ind di;
  fo_inj : forall n m, 0 <= n < MAXFILE -> 0 <= m < MAXFILE -> faddr s di n <> 0 -> faddr s di n = faddr s di m -> n = m;
  fo_full : forall n, 0 <= n * BSIZE < di_size di -> faddr s di n <> 0
}.

Lemma data_ok_pos s a : mounted s -> data_ok s a -> 1 < a /\ a <> bm s /\ 0 <= a < sb_size (fsb s).
Proof. intros Hm [Hr _]. pose proof (mounted_starts s Hm). lia. Qed.

Lemma data_home s a : mounted s -> data_ok s a -> bs_home a.
Proof. intros Hm [Hr _]. pose proof (mounted_starts s Hm). apply (fg_home _ (mt_geom _ Hm)). lia. Qed.

Lemma data_ok_ext s s' W a : mounted s -> ext s s' W -> data_ok s a -> data_ok s' a.
Proof.
  intros Hm He Hd. pose proof (data_ok_pos s a Hm Hd) as Hp. destruct Hd as [Hr Hu].
  split; rewrite ?(ex_sb _ _ _ He); [done|]. apply (ex_used _ _ _ He); [apply Hp|done].
Qed.

Lemma faddr_ext s s' W di n : mounted s -> ext s s' W -> (ind di <> 0 -> data_ok s (ind di)) ->
  (ind di <> 0 -> ~ W (ind di)) -> faddr s' di n = faddr s di n.
Proof.
  intros Hm He Hd HW. unfold faddr. destruct (n <? NDIRECT); [done|]. destruct (Z.eqb_spec (ind di) 0) as [|Hz]; [done|].
  specialize (Hd Hz). pose proof (data_ok_pos _ _ Hm Hd). rewrite (ex_blk _ _ _ He); [done|lia| |auto].
  intros _. apply Hd.
Qed.

(** A file none of whose blocks is written keeps its map. *)
Lemma file_ok_ext s s' W di : mounted s -> ext s s' W -> file_ok s di -> (ind di <> 0 -> ~ W (ind di)) -> file_ok s' di.
Proof.
  intros Hm He Hf HW. destruct (Hf) as [H1 H2 H3 H4 H5 H6].
  assert (E : forall n, faddr s' di n = faddr s di n) by (intros n; by eapply faddr_ext).
  split; try done.
  - intros Hz. eapply data_ok_ext; eauto.
  - intros n Hn. rewrite E. intros Hz. destruct (H4 n Hn Hz) as [Hd Hne]. split; [by eapply data_ok_ext|done].
  - intros n m Hn Hm'. rewrite !E. by apply H5.
  - intros n Hn. rewrite E. by apply H6.
Qed.

(** Reading the map. *)
Lemma bmap_read {A} s L ip x n (k : Z -> M (fs B) A) Q : mounted s -> fok s ∅ L -> geti s ip = x ->
  i_dev x = bs_dev -> file_ok s (i_di x) -> 0 <= n < MAXFILE -> faddr s (i_di x) n <> 0 -> (size L < NBUF)%nat ->
  (forall s', becomes s s' (fblk s) -> fok s' ∅ L -> runs (k (faddr s (i_di x) n)) s' Q) ->
  runs (a <- bmap ip n ;; k a) s Q.
Proof.
  intros Hm Hok Ex Hdev Hf Hn Hz HL Hk. apply runs_bind. unfold bmap. apply runs_bind, runs_gets. rewrite Ex, Hdev.
  unfold faddr in *. unfold i_addr. destruct (Z.ltb_spec n NDIRECT) as [Hd|Hd].
  - destruct (Z.eqb_spec (nthZ (di_addrs (i_di x)) n) 0); [done|]. apply runs_ret, Hk; [apply becomes_refl|done].
  - destruct (Z.ltb_spec (n - NDIRECT) NINDIRECT); [|unfold MAXFILE in Hn; lia]. fold (ind (i_di x)).
    destruct (Z.eqb_spec (ind (i_di x)) 0) as [|Hi]; [done|]. apply runs_bind, runs_ret.
    pose proof (fo_ind _ _ Hf Hi) as Hdi. pose proof (data_ok_pos _ _ Hm Hdi) as Hp. pose proof (mounted_starts _ Hm).
    apply (fs_bread s ∅ L); [done| |by intros i; rewrite lookup_empty|rewrite map_size_empty; lia|].
    { by eapply bs_home_disk, data_home. }
    intros i s1 Hi1 Hok1 Hs1. destruct (Z.eqb_spec (get32 (fblk s (ind (i_di x))) (4 * Z.to_nat (n - NDIRECT))) 0); [done|].
    apply runs_bind, runs_ret. apply (fs_brelse s1 ∅ L i (ind (i_di x))); [done|done|]. intros s2 Hok2 Hs2.
    apply runs_ret, Hk; [|done]. eapply becomes_ext; [by eapply becomes_trans|]. apply Hs1.
Qed.

(** ** Growing the map *)

Lemma alloc_step {A} s H L (k : Z -> M (fs B) A) Q : mounted s -> fok s H L -> holds s H -> (0 < nfree s)%nat ->
  (size L + size H + 2 <= bs_cap)%nat ->
  (forall b s', ext s s' (fun _ => False) -> mounted s' -> data_ok s' b -> used s b = false ->
     nfree s = S (nfree s') -> fblk s' b = zero_block -> fic s' = fic s ->
     fok s' H ({[b]} ∪ ({[bm s]} ∪ L)) -> runs (k b) s' Q) ->
  runs (x <- balloc bs_dev ;; k x) s Q.
Proof.
  intros Hm Hok Hh Hn Hc Hk. destruct (nfree_least s Hn) as [b Hb]. destruct (Hb) as (Hr & Hf & _).
  apply (balloc_spec s H L b); try done; try apply Hm. intros s' Ha Hok'.
  destruct (allocated_ext s s' L H b Hm Hok Hb Ha) as (He & Hu & Hnf & Hz & Hd).
  rewrite (BBLOCK_bm s b Hm Hr) in Hok'. apply Hk; try done.
  - eapply ext_mounted; [done|done|auto].
  - split; [|done]. rewrite (ex_sb _ _ _ He). lia.
  - apply Ha.
Qed.

Lemma nthZ_set_addr n a di m : length (di_addrs di) = 13%nat -> 0 <= n < 13 -> 0 <= m ->
  nthZ (di_addrs (set_addr n a di)) m = if decide (m = n) then a else nthZ (di_addrs di) m.
Proof. intros Hl Hn Hm. cbn [set_addr di_addrs]. apply nthZ_insert; [rewrite Hl; lia|done]. Qed.

Lemma set_addr_ok n a di : dinode_ok di -> uint_ok a -> dinode_ok (set_addr n a di).
Proof.
  intros [H1 H2 H3 H4 H5 H6 H7] Ha. split; cbn; try done; [by rewrite length_insert|by apply Forall_insert].
Qed.

Lemma data_uint s a : mounted s -> data_ok s a -> uint_ok a.
Proof.
  intros Hm Hd. pose proof (data_ok_pos s a Hm Hd). pose proof (fg_size _ (mt_geom _ Hm)). unfold uint_ok. lia.
Qed.

(** The outcome of mapping block [n]: it has an address, the others keep
    theirs, a new block is zero and was free, and nothing but the indirect
    block of the file was written. *)
Record mapped s (di : dinode) (n : Z) s' (di' : dinode) : Prop := {
  mp_addr : faddr s' di' n <> 0;
  mp_other : forall m, 0 <= m < MAXFILE -> m <> n -> faddr s' di' m = faddr s di m;
  mp_old : faddr s di n <> 0 -> faddr s' di' n = faddr s di n;
  mp_new : faddr s di n = 0 -> fblk s' (faddr s' di' n) = zero_block /\ used s (faddr s' di' n) = false;
  mp_ok : file_ok s' di';
  mp_ext : ext s s' (fun b => b = ind di /\ b <> 0);
  mp_type : di_type di' = di_type di /\ di_size di' = di_size di
}.

(** A direct block. *)
Lemma map_direct s s' di n b : mounted s -> file_ok s di -> ext s s' (fun _ => False) -> mounted s' -> data_ok s' b ->
  used s b = false -> fblk s' b = zero_block -> 0 <= n < NDIRECT -> faddr s di n = 0 ->
  mapped s di n s' (set_addr n b di) /\ faddr s' (set_addr n b di) n = b /\ ind (set_addr n b di) = ind di.
Proof.
  intros Hm Hf He Hm' Hb Hu Hz Hn H0. destruct (Hf) as [H1 H2 H3 H4 H5 H6]. pose proof (dk_len _ H1) as Hl.
  unfold NDIRECT in *. pose proof (data_ok_pos _ _ Hm' Hb) as Hbp.
  assert (Ei : ind (set_addr n b di) = ind di).
  { unfold ind, NDIRECT. rewrite nthZ_set_addr, decide_False by lia. done. }
  assert (E : forall m, 0 <= m -> faddr s' (set_addr n b di) m = if decide (m = n) then b else faddr s di m).
  { intros m Hm0. rewrite <- (faddr_ext s s' (fun _ => False) di m) by auto. unfold faddr. rewrite Ei.
    unfold NDIRECT. destruct (Z.ltb_spec m 12).
    - by rewrite nthZ_set_addr by lia.
    - by rewrite decide_False by lia. }
  assert (Hnew : forall m, 0 <= m < MAXFILE -> faddr s di m <> 0 -> faddr s di m <> b).
  { intros m Hm0 Hmz Eb. destruct (H4 m Hm0 Hmz) as [[_ Hum] _]. rewrite Eb in Hum. congruence. }
  assert (Hni : ind di <> 0 -> ind di <> b).
  { intros Hz' Eb. destruct (H3 Hz') as [_ Hui]. rewrite Eb in Hui. congruence. }
  split_and!; [|rewrite E by lia; by rewrite decide_True|done]. split.
  - rewrite E, decide_True by (done || lia). lia.
  - intros m Hm0 Hne. rewrite E by lia. by rewrite decide_False.
  - congruence.
  - intros _. rewrite E, decide_True by (done || lia). done.
  - split; [apply set_addr_ok; [done|by eapply data_uint]|done| | | |].
    + rewrite Ei. intros Hz'. apply (data_ok_ext s s' (fun _ => False)); auto.
    + intros m Hm0. rewrite E, Ei by lia. case_decide as Em.
      * intros _. split; [done|]. destruct (decide (ind di = 0)) as [->|]; [lia|]. intros Eb. by apply Hni.
      * intros Hmz. destruct (H4 m Hm0 Hmz). split; [by apply (data_ok_ext s s' (fun _ => False))|done].
    + intros m m' Hm0 Hm0'. rewrite !E by lia.
      destruct (decide (m = n)) as [->|], (decide (m' = n)) as [->|]; intros Hz' Eb; [done| | |by apply H5].
      * exfalso. apply (Hnew m'); [done|congruence|done].
      * exfalso. by apply (Hnew m).
    + intros m Hm0. rewrite E by (unfold BSIZE in *; lia). case_decide; [lia|]. by apply H6.
  - eapply ext_weaken; [done|done].
  - done.
Qed.

Lemma get32_zero off : get32 zero_block off = 0.
Proof.
  unfold get32, slice, zero_block. rewrite drop_replicate, take_replicate. generalize (4 `min` (512 - off))%nat.
  intros n. induction n as [|n IH]; [done|]. cbn [replicate le_val]. by rewrite IH.
Qed.

(** A new, empty indirect block. *)
Lemma map_ind s s' di b : mounted s -> file_ok s di -> ext s s' (fun _ => False) -> mounted s' -> data_ok s' b ->
  used s b = false -> fblk s' b = zero_block -> ind di = 0 ->
  file_ok s' (set_addr NDIRECT b di) /\ ind (set_addr NDIRECT b di) = b /\
  forall m, 0 <= m -> faddr s' (set_addr NDIRECT b di) m = faddr s di m.
Proof.
  intros Hm Hf He Hm' Hb Hu Hz H0. destruct (Hf) as [H1 H2 H3 H4 H5 H6]. pose proof (dk_len _ H1) as Hl.
  pose proof (data_ok_pos _ _ Hm' Hb) as Hbp. unfold NDIRECT in *.
  assert (Ei : ind (set_addr 12 b di) = b) by (unfold ind, NDIRECT; rewrite nthZ_set_addr, decide_True by lia; done).
  assert (E : forall m, 0 <= m -> faddr s' (set_addr 12 b di) m = faddr s di m).
  { intros m Hm0. unfold faddr. rewrite Ei, H0. unfold NDIRECT. destruct (Z.ltb_spec m 12).
    - by rewrite nthZ_set_addr, decide_False by lia.
    - destruct (Z.eqb_spec b 0); [lia|]. by rewrite Hz, get32_zero. }
  split_and!; [|done|done]. split; [apply set_addr_ok; [done|by eapply data_uint]|done| | | |].
  - by rewrite Ei.
  - intros m Hm0. rewrite E, Ei by lia. intros Hmz. destruct (H4 m Hm0 Hmz) as [Hd _].
    split; [by apply (data_ok_ext s s' (fun _ => False))|]. intros Eb. destruct Hd as [_ Hud]. rewrite Eb in Hud. congruence.
  - intros m m' Hm0 Hm0'. rewrite !E by lia. by apply H5.
  - intros m Hm0. rewrite E by (unfold BSIZE in *; lia). by apply H6.
Qed.

(** Writing a block that was free, or is one of [W]. *)
Lemma ext_write s s2 s3 (W : Z -> Prop) w x : mounted s -> ext s s2 W -> w <> bm s ->
  W w \/ (0 <= w < sb_size (fsb s) /\ used s w = false) ->
  becomes s2 s3 (fun b => if decide (b = w) then x else fblk s2 b) ->
  ext s s3 W /\ (forall b, 0 <= b < sb_size (fsb s) -> used s3 b = used s2 b) /\ nfree s3 = nfree s2.
Proof.
  intros Hm He Hw HW Hs3.
  assert (Hu : forall b, 0 <= b < sb_size (fsb s) -> used s3 b = used s2 b).
  { intros b Hb. unfold used. rewrite (bec_sb _ _ _ Hs3), (bec_blk _ _ _ Hs3), (ex_sb _ _ _ He).
    rewrite (BBLOCK_bm s b Hm Hb), decide_False; [done|congruence]. }
  split_and!; [|done|].
  - split; [by rewrite (bec_sb _ _ _ Hs3), (ex_sb _ _ _ He)| |].
    + intros b Hb Hub. rewrite Hu by done. by apply (ex_used _ _ _ He).
    + intros b Hb Hub Hn. rewrite (bec_blk _ _ _ Hs3), decide_False; [by apply (ex_blk _ _ _ He)|].
      intros ->. destruct HW as [?|[Hr Hf]]; [done|]. rewrite Hub in Hf by done. done.
  - unfold nfree. rewrite (bec_sb _ _ _ Hs3). f_equal. apply filter_ext_in. intros b Hb. apply in_seq in Hb.
    rewrite Hu; [done|]. rewrite <- (ex_sb _ _ _ He). lia.
Qed.

(** An entry of the indirect block. *)
Lemma map_entry s s3 s4 di n b : mounted s -> file_ok s di -> ext s s3 (fun _ => False) -> mounted s3 -> data_ok s3 b ->
  used s b = false -> fblk s3 b = zero_block -> block_ok (fblk s3 (ind di)) ->
  NDIRECT <= n < MAXFILE -> ind di <> 0 -> faddr s di n = 0 ->
  becomes s3 s4 (fun x => if decide (x = ind di) then put32 (fblk s3 (ind di)) (4 * Z.to_nat (n - NDIRECT)) b else fblk s3 x) ->
  mapped s di n s4 di /\ faddr s4 di n = b /\ nfree s4 = nfree s3.
Proof.
  intros Hm Hf He Hm' Hb Hu Hz [Hbl _] Hn Hi H0 Hs4. destruct (Hf) as [H1 H2 H3 H4 H5 H6].
  pose proof (data_ok_pos _ _ Hm' Hb) as Hbp. pose proof (H3 Hi) as Hdi. pose proof (data_ok_pos _ _ Hm Hdi) as Hip.
  change NDIRECT with 12 in *. change MAXFILE with 140 in *.
  assert (He' : ext s s3 (fun x => x = ind di /\ x <> 0)) by (eapply ext_weaken; [done|done]).
  destruct (ext_write s s3 s4 _ (ind di) _ Hm He' ltac:(lia) (or_introl (conj eq_refl Hi)) Hs4) as (He4 & Hu4 & Hn4).
  assert (E : forall m, 0 <= m < 140 -> faddr s4 di m = if decide (m = n) then b else faddr s di m).
  { intros m Hm0. rewrite <- (faddr_ext s s3 (fun _ => False) di m) by auto. unfold faddr. change NDIRECT with 12.
    destruct (Z.ltb_spec m 12); [by rewrite decide_False by lia|]. destruct (Z.eqb_spec (ind di) 0); [done|].
    rewrite (bec_blk _ _ _ Hs4), decide_True by done. case_decide as Em.
    - subst m. rewrite get32_put32_eq by lia. apply u32_id. by eapply data_uint.
    - rewrite get32_put32_ne by lia. done. }
  assert (Hnew : forall m, 0 <= m < 140 -> faddr s di m <> 0 -> faddr s di m <> b).
  { intros m Hm0 Hmz Eb. destruct (H4 m Hm0 Hmz) as [[_ Hum] _]. rewrite Eb in Hum. congruence. }
  assert (Hbi : b <> ind di) by (intros ->; destruct Hdi as [_ Hui]; congruence).
  assert (En : faddr s4 di n = b) by (rewrite E by lia; by rewrite decide_True).
  split_and!; [|done|done]. split.
  - rewrite En. lia.
  - intros m Hm0 Hne. rewrite E by done. by rewrite decide_False.
  - congruence.
  - intros _. rewrite En. split; [|done]. rewrite (bec_blk _ _ _ Hs4). by rewrite decide_False.
  - assert (Hd4 : forall a, data_ok s3 a -> data_ok s4 a).
    { intros a Ha. pose proof (data_ok_pos _ _ Hm' Ha) as Hpa. destruct Ha as [Hra Hua].
      rewrite (ex_sb _ _ _ He) in Hpa. split; rewrite ?(bec_sb _ _ _ Hs4); [done|]. rewrite Hu4; [done|lia]. }
    assert (Hd : forall a, data_ok s a -> data_ok s4 a) by (intros a Ha; by apply Hd4, (data_ok_ext s s3 (fun _ => False))).
    split; try done; change MAXFILE with 140.
    + intros _. by apply Hd.
    + intros m Hm0. rewrite E by done. case_decide; [intros _; split; auto|].
      intros Hmz. destruct (H4 m Hm0 Hmz). split; auto.
    + intros m m' Hm0 Hm0'. rewrite !E by done.
      destruct (decide (m = n)) as [->|], (decide (m' = n)) as [->|]; intros Hz' Eb; [done| | |by apply H5].
      * exfalso. apply (Hnew m'); [done|congruence|done].
      * exfalso. by apply (Hnew m).
    + intros m Hm0. assert (Hmr : 0 <= m < 140) by (unfold BSIZE in *; lia).
      rewrite E by done. case_decide; [lia|]. by apply H6.
  - done.
  - done.
Qed.

(** Changing an entry of the inode cache changes no block. *)
Lemma ext_upd s ip f W : ext s (upd_inode ip f s) W.
Proof. by split. Qed.

Lemma mounted_upd s ip f : mounted s -> mounted (upd_inode ip f s).
Proof. intros Hm. eapply ext_mounted; [done|apply (ext_upd _ _ _ (fun _ => False))|auto]. Qed.

Lemma file_ok_upd s ip f di : mounted s -> file_ok s di -> file_ok (upd_inode ip f s) di.
Proof. intros Hm Hf. eapply file_ok_ext; [done|apply (ext_upd _ _ _ (fun _ => False))|done|auto]. Qed.

Lemma mapped_upd s di n s' di' ip f : mounted s' -> mapped s di n s' di' -> mapped s di n (upd_inode ip f s') di'.
Proof.
  intros Hm [H1 H2 H3 H4 H5 H6 H7]. split; try done; [by apply file_ok_upd|].
  eapply ext_trans; [done|apply ext_upd].
Qed.

(** The new indirect block and then an entry in it. *)
Lemma mapped_two s s1 s4 di n b : mounted s -> file_ok s di -> ext s s1 (fun _ => False) -> mounted s1 -> data_ok s1 b ->
  used s b = false -> fblk s1 b = zero_block -> ind di = 0 -> NDIRECT <= n < MAXFILE ->
  mapped s1 (set_addr NDIRECT b di) n s4 (set_addr NDIRECT b di) -> mapped s di n s4 (set_addr NDIRECT b di).
Proof.
  intros Hm Hf He Hm1 Hb Hu Hz H0 Hn Hmp. destruct (map_ind s s1 di b Hm Hf He Hm1 Hb Hu Hz H0) as (Hf1 & Ei & E).
  destruct Hmp as [P1 P2 P3 P4 P5 P6 P7]. change NDIRECT with 12 in *. change MAXFILE with 140 in *.
  assert (Hz0 : faddr s di n = 0) by (unfold faddr; change NDIRECT with 12; destruct (Z.ltb_spec n 12); [lia|]; by rewrite H0).
  split; try done.
  - intros m Hm0 Hne. rewrite P2 by done. apply E. lia.
  - intros _. destruct P4 as [P4a P4b]; [rewrite E; [done|lia]|]. split; [done|].
    destruct (fo_data _ _ P5 n) as [Hd _]; [change MAXFILE with 140; lia|done|].
    destruct (used s (faddr s4 (set_addr 12 b di) n)) eqn:E'; [|done]. rewrite (ex_used _ _ _ He) in P4b; [done| |done].
    destruct Hd as [Hd _]. rewrite (ex_sb _ _ _ P6), (ex_sb _ _ _ He) in Hd. pose proof (mounted_starts s Hm). lia.
  - destruct He as [A1 A2 A3], P6 as [B1 B2 B3]. unfold bm in *. rewrite A1 in *. split; [congruence|auto|].
    intros x Hx Hux _. rewrite B3; [apply A3; auto|done|auto|]. rewrite Ei. intros [-> _].
    rewrite Hux in Hu; [done|]. destruct Hb as [Hb _]. rewrite A1 in Hb. pose proof (mounted_starts s Hm). lia.
Qed.

Definition icount (di : dinode) : nat := if ind di =? 0 then 0 else 1.
Definition indset (di : dinode) : gset Z := if ind di =? 0 then ∅ else {[ind di]}.

(** What mapping block [n] of the file of [ip] leads to. *)
Record bmapped s (L : gset Z) (ip : nat) (x : inode) (n : Z) s' (di' : dinode) (L' : gset Z) : Prop := {
  bp_mapped : mapped s (i_di x) n s' di';
  bp_mounted : mounted s';
  bp_fok : fok s' ∅ L';
  bp_log : L' ⊆ {[bm s; faddr s' di' n]} ∪ indset di' ∪ L;
  bp_ind : ind di' = ind (i_di x) \/ (ind (i_di x) = 0 /\ used s (ind di') = false);
  bp_ic : fic s' = <[ip := set_di di' x]> (fic s);
  bp_free : (nfree s + icount (i_di x) <= nfree s' + icount di' + 1)%nat;
  bp_keep : faddr s (i_di x) n <> 0 -> di' = i_di x
}.

Lemma alter_insert (ic : list inode) ip x f : ic !! ip = Some x -> alter f ip ic = <[ip := f x]> ic.
Proof.
  intros Hx. apply list_eq. intros j. destruct (decide (j = ip)) as [->|Hne].
  - rewrite list_lookup_alter_eq, Hx, list_lookup_insert_eq by (by eapply lookup_lt_Some). done.
  - by rewrite list_lookup_alter_ne, list_lookup_insert_ne by done.
Qed.

Lemma holds_ind s i a : mounted s -> data_ok s a -> holds s {[i := a]}.
Proof.
  intros Hm Hd j b Hj. apply lookup_singleton_Some in Hj as [_ <-]. pose proof (data_ok_pos s a Hm Hd).
  pose proof (mounted_starts s Hm). destruct Hd as [Hr Hu]. unfold bm in *. split_and!; [lia|lia|done].
Qed.

(** The part of bmap that works in the indirect block, whose address the
    inode of [s] has. *)
Lemma bmap_indirect {A} s L di n (k : Z -> M (fs B) A) Q : mounted s -> fok s ∅ L -> file_ok s di ->
  NDIRECT <= n < MAXFILE -> ind di <> 0 -> faddr s di n = 0 -> (0 < nfree s)%nat -> (size L + 4 <= bs_cap)%nat ->
  (forall s' L', mapped s di n s' di -> mounted s' -> fok s' ∅ L' -> L' ⊆ {[bm s; faddr s' di n; ind di]} ∪ L ->
     fic s' = fic s -> nfree s = S (nfree s') -> runs (k (faddr s' di n)) s' Q) ->
  runs (bp <- blk (o_bread bs_dev (ind di)) ;;
        a <- blk (o_data bp) ;;
        addr <- (if get32 a (4 * Z.to_nat (n - NDIRECT)) =? 0 then
                   addr <- balloc bs_dev ;;
                   a <- blk (o_data bp) ;;
                   blk (o_set bp (put32 a (4 * Z.to_nat (n - NDIRECT)) addr)) ;;;
                   blk (o_log_write bp) ;;;
                   ret addr
                 else ret (get32 a (4 * Z.to_nat (n - NDIRECT)))) ;;
        blk (o_brelse bp) ;;;
        k addr) s Q.
Proof.
  intros Hm Hok Hf Hn Hi H0 Hfr Hc Hk. pose proof bs_cap_small. pose proof (fo_ind _ _ Hf Hi) as Hdi.
  assert (Hz : get32 (fblk s (ind di)) (4 * Z.to_nat (n - NDIRECT)) = 0).
  { unfold faddr in H0. destruct (Z.ltb_spec n NDIRECT); [lia|]. destruct (Z.eqb_spec (ind di) 0); [done|]. done. }
  apply (fs_bread s ∅ L); [done|by eapply bs_home_disk, data_home|by intros i; rewrite lookup_empty|rewrite map_size_empty; lia|].
  intros i s1 Hi1 Hok1 Hs1. rewrite Hz. cbn [Z.eqb]. rewrite insert_empty in Hok1.
  assert (He1 : ext s s1 (fun _ => False)) by (by apply becomes_ext_same).
  assert (Hm1 : mounted s1) by (eapply ext_mounted; [done|done|auto]).
  assert (Hn1 : nfree s1 = nfree s).
  { unfold nfree. rewrite (bec_sb _ _ _ Hs1). f_equal. apply filter_ext. intros b. by rewrite (becomes_used _ _ _ Hs1). }
  apply runs_bind. apply (alloc_step s1 {[i := ind di]} L); [done|done| |lia|rewrite map_size_singleton; lia|].
  { apply holds_ind; [done|]. by apply (data_ok_ext s s1 (fun _ => False)). }
  intros b s2 He2 Hm2 Hb Hu Hnf Hzb Hic2 Hok2.
  assert (He : ext s s2 (fun _ => False)) by (by eapply ext_trans).
  rewrite (becomes_used _ _ _ Hs1) in Hu. rewrite Hn1 in Hnf.
  assert (Hbm : bm s1 = bm s) by (unfold bm; by rewrite (bec_sb _ _ _ Hs1)). rewrite Hbm in Hok2.
  eapply runs_blk_seq; [apply (data_law (fb s2) {[i := ind di]} ∅ _ i (ind di) Hok2), lookup_singleton_eq|].
  cbv beta. intros d b2 [-> ->]. replace (set_fb (fb s2) s2) with s2 by (by destruct s2). fold (fblk s2 (ind di)).
  assert (Hbd : block_ok (fblk s2 (ind di))) by (by eapply fblk_ok).
  assert (Hput : block_ok (put32 (fblk s2 (ind di)) (4 * Z.to_nat (n - NDIRECT)) b)).
  { destruct Hbd as [Hl Hby]. change NDIRECT with 12 in *. change MAXFILE with 140 in *.
    split; [rewrite length_put32; lia|]. unfold put32. apply Forall_splice; [done|apply le_bytes_ok]. }
  set (y := put32 _ _ _) in *. set (L2 := {[b]} ∪ ({[bm s]} ∪ L)) in *.
  assert (HL2 : (size L2 <= size L + 2)%nat).
  { unfold L2. pose proof (size_add b ({[bm s]} ∪ L)). pose proof (size_add (bm s) L). lia. }
  apply runs_assoc_ret. rewrite <- insert_empty in Hok2.
  apply (fs_store s2 ∅ L2 i (ind di)); [done|done|by apply (data_home s)|lia|done|].
  intros s4 Hok4 Hs4. destruct (map_entry s s2 s4 di n b Hm Hf He Hm2 Hb Hu Hzb Hbd Hn Hi H0 Hs4) as (Hmp & Ha & Hn4).
  rewrite <- Ha. apply (Hk s4 ({[ind di]} ∪ L2)); try done.
  - eapply ext_mounted; [exact Hm|apply Hmp|]. pose proof (data_ok_pos _ _ Hm Hdi). cbv beta. lia.
  - rewrite Ha. unfold L2. set_solver.
  - rewrite (bec_ic _ _ _ Hs4), Hic2. apply Hs1.
  - by rewrite Hn4.
Qed.

Lemma set_di_id (x : inode) : set_di (i_di x) x = x.
Proof. by destruct x. Qed.

Lemma nfree_same s s' : becomes s s' (fblk s) -> nfree s' = nfree s.
Proof.
  intros Hs. unfold nfree. rewrite (bec_sb _ _ _ Hs). f_equal. apply filter_ext. intros b. by rewrite (becomes_used _ _ _ Hs).
Qed.

(** A block that is mapped already. *)
Lemma bmapped_read s s' L ip x n : mounted s -> fok s' ∅ L -> fic s !! ip = Some x -> file_ok s (i_di x) ->
  0 <= n < MAXFILE -> faddr s (i_di x) n <> 0 -> becomes s s' (fblk s) ->
  bmapped s L ip x n s' (i_di x) L /\ faddr s' (i_di x) n = faddr s (i_di x) n.
Proof.
  intros Hm Hok Hx Hf Hn Hz Hs. pose proof (becomes_ext_same _ _ Hs) as He.
  assert (E : forall m, faddr s' (i_di x) m = faddr s (i_di x) m) by (intros m; eapply faddr_ext; [done|done|apply Hf|auto]).
  split; [|done]. split; [split| | | | | | |].
  - by rewrite E.
  - intros m _ _. apply E.
  - intros _. apply E.
  - done.
  - eapply file_ok_ext; [exact Hm|exact He|done|auto].
  - eapply ext_weaken; [done|done].
  - done.
  - eapply ext_mounted; [exact Hm|exact He|auto].
  - done.
  - set_solver.
  - by left.
  - rewrite set_di_id, (bec_ic _ _ _ Hs). symmetry. by apply list_insert_id.
  - rewrite (nfree_same _ _ Hs). lia.
  - done.
Qed.

(** bmap: the address of block [n], mapped first if it was not. *)
Lemma bmap_spec {A} s L ip x n (k : Z -> M (fs B) A) Q : mounted s -> fok s ∅ L -> fic s !! ip = Some x ->
  i_dev x = bs_dev -> file_ok s (i_di x) -> 0 <= n < MAXFILE -> (2 <= nfree s + icount (i_di x))%nat ->
  (size L + 6 <= bs_cap)%nat ->
  (forall s' di' L', bmapped s L ip x n s' di' L' -> runs (k (faddr s' di' n)) s' Q) ->
  runs (a <- bmap ip n ;; k a) s Q.
Proof.
  intros Hm Hok Hx Hdev Hf Hn Hfr Hc Hk. pose proof bs_cap_small. pose proof (geti_lookup _ _ _ Hx) as Ex.
  destruct (decide (faddr s (i_di x) n = 0)) as [H0|H0].
  2:{ apply (bmap_read s L ip x n); try done; [lia|]. intros s' Hs Hok'.
      destruct (bmapped_read s s' L ip x n Hm Hok' Hx Hf Hn H0 Hs) as [Hb <-]. by eapply Hk. }
  apply runs_bind. unfold bmap. apply runs_bind, runs_gets. rewrite Ex, Hdev. unfold i_addr.
  unfold icount in Hfr. destruct (Z.ltb_spec n NDIRECT) as [Hd|Hd].
  - assert (Hz : nthZ (di_addrs (i_di x)) n = 0) by (unfold faddr in H0; by destruct (Z.ltb_spec n NDIRECT); [|lia]).
    rewrite Hz. cbn [Z.eqb].
    apply (alloc_step s ∅ L); [done|done|by intros i b; rewrite lookup_empty|destruct (_ =? 0); lia|rewrite map_size_empty; lia|].
    intros b s1 He Hm1 Hb Hu Hnf Hzb Hic Hok1. apply runs_bind, runs_modify, runs_ret.
    destruct (map_direct s s1 (i_di x) n b Hm Hf He Hm1 Hb Hu Hzb ltac:(lia) H0) as (Hmp & Ha & Ei).
    set (s2 := upd_inode ip _ s1). change (faddr s1 ?d ?m) with (faddr s2 d m) in Ha. rewrite <- Ha.
    apply (Hk s2 _ ({[b]} ∪ ({[bm s]} ∪ L))). split; try done.
    + by apply mapped_upd.
    + by apply mounted_upd.
    + rewrite Ha. set_solver.
    + by left.
    + unfold s2. cbn [upd_inode fic]. rewrite Hic. by rewrite (alter_insert _ _ _ _ Hx).
    + change (nfree s2) with (nfree s1). unfold icount. rewrite Ei. lia.
  - destruct (Z.ltb_spec (n - NDIRECT) NINDIRECT); [|unfold MAXFILE in Hn; lia].
    fold (ind (i_di x)). destruct (Z.eqb_spec (ind (i_di x)) 0) as [Ei|Ei].
    + apply runs_bind. apply (alloc_step s ∅ L); [done|done|by intros i b; rewrite lookup_empty|lia|rewrite map_size_empty; lia|].
      intros b s1 He Hm1 Hb Hu Hnf Hzb Hic Hok1. apply runs_bind, runs_modify, runs_ret.
      destruct (map_ind s s1 (i_di x) b Hm Hf He Hm1 Hb Hu Hzb Ei) as (Hf1 & Eb & E).
      set (di1 := set_addr NDIRECT b (i_di x)) in *. set (s2 := upd_inode ip _ s1). cbv zeta.
      set (L1 := {[b]} ∪ ({[bm s]} ∪ L)) in *.
      assert (HL1 : (size L1 <= size L + 2)%nat).
      { unfold L1. pose proof (size_add b ({[bm s]} ∪ L)). pose proof (size_add (bm s) L). lia. }
      rewrite <- Eb. pose proof (data_ok_pos _ _ Hm1 Hb).
      apply (bmap_indirect s2 L1 di1 n); [by apply mounted_upd|done|by apply file_ok_upd|lia|lia| |change (nfree s2) with (nfree s1); lia|lia|].
      { change (faddr s2 di1 n) with (faddr s1 di1 n). rewrite E by lia. done. }
      intros s4 L4 Hmp Hm4 Hok4 HL4 Hic4 Hnf4. change (nfree s2) with (nfree s1) in Hnf4. apply runs_ret.
      assert (Hmp' : mapped s (i_di x) n s4 di1).
      { apply (mapped_two s s1 s4 (i_di x) n b); try done; [lia|]. destruct Hmp as [P1 P2 P3 P4 P5 P6 P7]. split; try done.
        eapply ext_trans; [apply (ext_upd s1 ip)|exact P6]. }
      apply (Hk s4 di1 L4). split; try done.
      * change (bm s2) with (bm s1) in HL4. assert (bm s1 = bm s) by (unfold bm; by rewrite (ex_sb _ _ _ He)).
        unfold L1 in HL4. unfold indset. rewrite Eb in *. destruct (Z.eqb_spec b 0); [lia|]. set_solver.
      * right. by rewrite Eb.
      * rewrite Hic4. unfold s2. cbn [upd_inode fic]. rewrite Hic. by rewrite (alter_insert _ _ _ _ Hx).
      * unfold icount. rewrite Ei, Eb. destruct (Z.eqb_spec b 0); [lia|]. cbn [Z.eqb]. lia.
    + apply runs_bind, runs_ret.
      apply (bmap_indirect s L (i_di x) n); [done|done|done|lia|done|done|lia|lia|].
      intros s4 L4 Hmp Hm4 Hok4 HL4 Hic4 Hnf4. apply runs_ret. apply (Hk s4 (i_di x) L4). split; try done.
      * unfold indset. destruct (Z.eqb_spec (ind (i_di x)) 0); [done|]. set_solver.
      * by left.
      * rewrite set_di_id, Hic4. symmetry. by apply list_insert_id.
      * lia.
Qed.
End Map.

(** ** File contents *)

Section Content.
Context {B : Type} {BO : BlockOps B} {BS : BlockStore B} {DS : DevSw B}.
Implicit Types s : fs B.

Definition fbyte s (di : dinode) (i : Z) : Z := nthZ (fblk s (faddr s di (i / BSIZE))) (i mod BSIZE).

(** [m] bytes of the file from offset [off]. *)
Definition bytes s (di : dinode) (off : Z) (m : nat) : list Z :=
  List.map (fun k => fbyte s di (off + Z.of_nat k)) (seq 0 m).

Definition content s (di : dinode) : list Z := bytes s di 0 (Z.to_nat (di_size di)).

Lemma length_bytes s di off m : length (bytes s di off m) = m.
Proof. unfold bytes. by rewrite length_map, length_seq. Qed.

Lemma bytes_app s di off a b : bytes s di off (a + b) = bytes s di off a ++ bytes s di (off + Z.of_nat a) b.
Proof.
  unfold bytes. rewrite seq_app, map_app. f_equal. rewrite Nat.add_0_l.
  pose proof (fmap_add_seq a 0 b) as E. rewrite Nat.add_0_r in E. rewrite <- E.
  change (Nat.add a <$> seq 0 b) with (List.map (Nat.add a) (seq 0 b)). rewrite map_map.
  apply map_ext. intros k. f_equal. lia.
Qed.

Lemma bytes_ext s s' di di' off m :
  (forall i, off <= i < off + Z.of_nat m -> fbyte s' di' i = fbyte s di i) -> bytes s' di' off m = bytes s di off m.
Proof. intros H. apply map_ext_in. intros k Hk. apply in_seq in Hk. apply H. lia. Qed.

(** Bytes that lie in one block. *)
Lemma bytes_block s di H L off m : fok s H L -> 0 <= off -> (Z.to_nat (off mod BSIZE) + m <= 512)%nat ->
  slice (fblk s (faddr s di (off / BSIZE))) (Z.to_nat (off mod BSIZE)) m = bytes s di off m.
Proof.
  intros Hok Ho Hm. pose proof (fblk_ok s H L (faddr s di (off / BSIZE)) Hok) as [Hl _]. unfold BSIZE in *.
  pose proof (Z.mod_pos_bound off 512). apply list_eq. intros k. unfold slice, bytes.
  destruct (decide (k < m)%nat) as [Hk|Hk].
  - rewrite lookup_take_lt, lookup_drop by done. rewrite list_lookup_fmap, lookup_seq_lt by done. cbn [fmap option_fmap option_map].
    unfold fbyte, BSIZE. assert (Hd : (off + Z.of_nat k) / 512 = off / 512).
    { rewrite (Z.div_mod off 512) at 1 by lia. rewrite <- Z.add_assoc, Z.mul_comm, Z.div_add_l, (Z.div_small (_ + _)) by lia. lia. }
    assert (Hr : (off + Z.of_nat k) mod 512 = off mod 512 + Z.of_nat k).
    { rewrite (Z.div_mod off 512) at 1 by lia. rewrite <- Z.add_assoc, Z.add_comm, Z.mul_comm, Z.mod_add, Z.mod_small by lia. done. }
    rewrite Nat.add_0_l, Hd, Hr. unfold nthZ. rewrite nth_lookup. replace (Z.to_nat (off mod 512 + Z.of_nat k)) with (Z.to_nat (off mod 512) + k)%nat by lia.
    destruct (lookup_lt_is_Some_2 (fblk s (faddr s di (off / 512))) (Z.to_nat (off mod 512) + k)) as [v Hv]; [lia|].
    by rewrite Hv.
  - rewrite !lookup_ge_None_2; [done| |]; rewrite ?length_take, ?length_map, ?length_seq; lia.
Qed.

Lemma fbyte_same s s' di i : becomes s s' (fblk s) -> fbyte s' di i = fbyte s di i.
Proof. intros Hs. unfold fbyte, faddr. by rewrite !(bec_blk _ _ _ Hs). Qed.

(** The loop of readi. *)
Lemma readi_loop_spec fuel s L ip x tot off n acc : mounted s -> fok s ∅ L -> fic s !! ip = Some x ->
  i_dev x = bs_dev -> file_ok s (i_di x) -> (size L < NBUF)%nat ->
  0 <= tot <= n -> 0 <= off -> off + (n - tot) <= i_size x -> n - tot <= Z.of_nat fuel ->
  runs (readi_loop fuel ip tot off n acc) s (fun r s' =>
    r = acc ++ bytes s (i_di x) off (Z.to_nat (n - tot)) /\ becomes s s' (fblk s) /\ fok s' ∅ L).
Proof.
  revert s tot off acc. induction fuel as [|fuel IH]; intros s tot off acc Hm Hok Hx Hdev Hf HL Ht Ho Hsz Hfu; cbn [readi_loop].
  - apply runs_ret. replace (Z.to_nat (n - tot)) with 0%nat by lia. rewrite app_nil_r. split_and!; [done|apply becomes_refl|done].
  - destruct (Z.ltb_spec tot n) as [Hlt|Hge].
    2:{ apply runs_ret. replace (Z.to_nat (n - tot)) with 0%nat by lia. rewrite app_nil_r. split_and!; [done|apply becomes_refl|done]. }
    pose proof (geti_lookup _ _ _ Hx) as Ex. pose proof (fo_max _ _ Hf) as Hmax. fold (i_size x) in Hmax.
    assert (Hb : 0 <= off / BSIZE < MAXFILE).
    { unfold BSIZE in *. split; [apply Z.div_pos; lia|]. apply Z.div_lt_upper_bound; lia. }
    assert (Hz : faddr s (i_di x) (off / BSIZE) <> 0).
    { apply (fo_full _ _ Hf). fold (i_size x). unfold BSIZE in *. pose proof (Z.mul_div_le off 512). lia. }
    apply runs_bind, runs_gets. rewrite Ex, Hdev. apply (bmap_read s L ip x); try done. intros s1 Hs1 Hok1.
    destruct (fo_data _ _ Hf _ Hb Hz) as [Hd _].
    apply (fs_bread s1 ∅ L); [done|by apply bs_home_disk, (data_home s)|by intros i; rewrite lookup_empty|rewrite map_size_empty; lia|].
    intros i s2 Hi Hok2 Hs2. cbv zeta. set (m := Z.min (n - tot) (BSIZE - off mod BSIZE)).
    apply (fs_brelse s2 ∅ L i (faddr s (i_di x) (off / BSIZE))); [done|done|]. intros s3 Hok3 Hs3.
    rewrite (bec_blk _ _ _ Hs1).
    assert (Hs : becomes s s3 (fblk s)).
    { eapply becomes_ext; [eapply becomes_trans; [exact Hs1|eapply becomes_trans; [exact Hs2|exact Hs3]]|].
      intros b. cbv beta. rewrite (bec_blk _ _ _ Hs2). apply Hs1. }
    pose proof (Z.mod_pos_bound off BSIZE ltac:(unfold BSIZE; lia)) as Hmod. assert (Hmr : 0 < m <= n - tot) by (unfold m, BSIZE in *; lia).
    pose proof (becomes_ext_same _ _ Hs) as He.
    eapply runs_mono; [apply (IH s3); try done|].
    + eapply ext_mounted; [exact Hm|exact He|auto].
    + by rewrite (bec_ic _ _ _ Hs).
    + eapply file_ok_ext; [exact Hm|exact He|done|auto].
    + lia.
    + lia.
    + lia.
    + lia.
    + cbv beta. intros r s4 (-> & Hs4 & Hok4). split_and!; [| |done].
      * rewrite <- app_assoc. f_equal. rewrite (bytes_block s (i_di x) ∅ L) by (done || (unfold m, BSIZE in *; lia)).
        replace (Z.to_nat (n - tot)) with (Z.to_nat m + Z.to_nat (n - (tot + m)))%nat by lia. rewrite bytes_app.
        f_equal. rewrite Z2Nat.id by lia. apply bytes_ext. intros j _. by apply fbyte_same.
      * eapply becomes_ext; [by eapply becomes_trans|]. apply Hs.
Qed.

(** ** Writing *)

(** The blocks of the file. *)
Definition fileblk s (di : dinode) (b : Z) : Prop :=
  b <> 0 /\ (b = ind di \/ exists n, 0 <= n < MAXFILE /\ b = faddr s di n).

Lemma ext_trans_new s s2 s3 (W W' : Z -> Prop) : ext s s2 W -> ext s2 s3 W' ->
  (forall b, W' b -> W b \/ (0 <= b < sb_size (fsb s) /\ used s b = false)) -> ext s s3 W.
Proof.
  intros [A1 A2 A3] [B1 B2 B3] HW. unfold bm in *. rewrite A1 in *. split; [congruence|auto|].
  intros b Hb Hu Hn. rewrite B3; [by apply A3|done|auto|]. intros [?|[Hr Hf]]%HW; [done|]. rewrite Hu in Hf; done.
Qed.

Lemma fileblk_mapped s L ip x n s' di' L' b : mounted s -> file_ok s (i_di x) -> 0 <= n < MAXFILE ->
  bmapped s L ip x n s' di' L' -> fileblk s' di' b ->
  fileblk s (i_di x) b \/ (0 <= b < sb_size (fsb s) /\ used s b = false).
Proof.
  intros Hm Hf Hn [[P1 P2 P3 P4 P5 P6 P7] B2 B3 B4 B5 B6 B7 B8] [Hz Hb].
  assert (Hr : forall a, data_ok s' a -> 0 <= a < sb_size (fsb s)).
  { intros a Ha. pose proof (data_ok_pos _ _ B2 Ha) as Hp. rewrite (ex_sb _ _ _ P6) in Hp. lia. }
  destruct Hb as [->|(m & Hmr & ->)].
  - destruct B5 as [Ei|[_ Hu]]; [left; rewrite Ei in *; split; [done|by left]|]. right. split; [|done]. apply Hr, (fo_ind _ _ P5), Hz.
  - destruct (decide (m = n)) as [->|Hne].
    + destruct (decide (faddr s (i_di x) n = 0)) as [E|E].
      * right. split; [|by apply P4]. apply Hr. by apply (fo_data _ _ P5).
      * left. rewrite (P3 E). split; [done|]. right. eauto.
    + left. rewrite P2 in * by done. split; [done|]. right. eauto.
Qed.

(** The number of blocks [len] bytes at [off] touch. *)
Definition nblk (off len : Z) : nat := if len <=? 0 then 0 else Z.to_nat ((off mod BSIZE + len + 511) / BSIZE).

Lemma nblk_step off len : 0 <= off -> 0 < len ->
  let m := Z.min len (BSIZE - off mod BSIZE) in nblk off len = S (nblk (off + m) (len - m)).
Proof.
  intros Ho Hl m. unfold nblk, m, BSIZE. pose proof (Z.mod_pos_bound off 512 ltac:(lia)) as Hr.
  destruct (Z.leb_spec len 0); [lia|]. destruct (Z.leb_spec (len - Z.min len (512 - off mod 512)) 0) as [Hd|Hd].
  - replace ((off mod 512 + len + 511) / 512) with 1; [done|]. apply Z.div_unique with (off mod 512 + len - 1); lia.
  - rewrite Z.min_r in * by lia.
    assert (Hz : (off + (512 - off mod 512)) mod 512 = 0).
    { rewrite (Z.div_mod off 512) at 1 by lia. replace (512 * (off / 512) + off mod 512 + (512 - off mod 512)) with ((off / 512 + 1) * 512) by lia.
      apply Z.mod_mul. lia. }
    rewrite Hz. replace (off mod 512 + len + 511) with (0 + (len - (512 - off mod 512)) + 511 + 1 * 512) by lia.
    rewrite Z.div_add by lia. assert (0 <= (0 + (len - (512 - off mod 512)) + 511) / 512) by (apply Z.div_pos; lia). lia.
Qed.

(** [s'] and [di'] are the file after storing [src] at [off]. *)
Record written s (di : dinode) (off : Z) (src : list Z) s' (di' : dinode) : Prop := {
  wr_bytes : forall i, 0 <= i < MAXFILE * BSIZE -> faddr s di (i / BSIZE) <> 0 \/ off <= i < off + Z.of_nat (length src) ->
    fbyte s' di' i = if decide (off <= i < off + Z.of_nat (length src)) then nthZ src (i - off) else fbyte s di i;
  wr_old : forall n, 0 <= n < MAXFILE -> faddr s di n <> 0 -> faddr s' di' n = faddr s di n;
  wr_new : forall i, off <= i < off + Z.of_nat (length src) -> faddr s' di' (i / BSIZE) <> 0;
  wr_ok : file_ok s' di';
  wr_ext : ext s s' (fileblk s di);
  wr_mounted : mounted s';
  wr_blk : forall b, fileblk s' di' b -> fileblk s di b \/ (0 <= b < sb_size (fsb s) /\ used s b = false);
  wr_type : di_type di' = di_type di /\ di_size di' = di_size di;
  wr_same : (forall i, off <= i < off + Z.of_nat (length src) -> faddr s di (i / BSIZE) <> 0) -> di' = di
}.

Lemma nthZ_splice l off d j : 0 <= j -> (Z.to_nat off + length d <= length l)%nat -> 0 <= off ->
  nthZ (splice l (Z.to_nat off) d) j = if decide (off <= j < off + Z.of_nat (length d)) then nthZ d (j - off) else nthZ l j.
Proof.
  intros Hj Hl Ho. unfold nthZ. rewrite !nth_lookup, lookup_splice by done.
  destruct (decide (off <= j < off + Z.of_nat (length d))) as [E|E].
  - rewrite decide_True by lia. by rewrite Z2Nat.inj_sub by lia.
  - by rewrite decide_False by lia.
Qed.

Lemma block_split i n r : 0 <= r < 512 -> i / BSIZE = n -> i mod BSIZE = r -> i = n * BSIZE + r.
Proof. intros Hr <- <-. unfold BSIZE. pose proof (Z.div_mod i 512). lia. Qed.

(** One round of the loop of writei, once block [n] is mapped: [d] replaces
    the bytes of the block from [o] on. *)
Lemma written_one s L ip x s1 di1 L1 s2 off d : mounted s -> file_ok s (i_di x) -> 0 <= off / BSIZE < MAXFILE -> 0 <= off ->
  bmapped s L ip x (off / BSIZE) s1 di1 L1 -> Forall byte_ok d -> (0 < length d)%nat -> (Z.to_nat (off mod BSIZE) + length d <= 512)%nat ->
  becomes s1 s2 (fun b => if decide (b = faddr s1 di1 (off / BSIZE))
                          then splice (fblk s1 (faddr s1 di1 (off / BSIZE))) (Z.to_nat (off mod BSIZE)) d else fblk s1 b) ->
  written s (i_di x) off d s2 di1 /\ nfree s2 = nfree s1 /\ forall n, faddr s2 di1 n = faddr s1 di1 n.
Proof.
  intros Hm Hf Hn Ho Hb Hd Hlen0 Hlen Hs2. set (n := off / BSIZE) in *. destruct (Hb) as [Hmp B2 B3 B4 B5 B6 B7 B8].
  destruct (Hmp) as [P1 P2 P3 P4 P5 P6 P7]. set (a := faddr s1 di1 n) in *.
  destruct (fo_data _ _ P5 n Hn P1) as [Hda Hai]. fold a in Hda, Hai. pose proof (data_ok_pos _ _ B2 Hda) as Hap.
  assert (Hsb : fsb s1 = fsb s) by apply P6. assert (Hbm : bm s1 = bm s) by (unfold bm; by rewrite Hsb).
  destruct (ext_write s1 s1 s2 (fun b => b = a) a _ B2 (ext_refl _ _) ltac:(lia) (or_introl eq_refl) Hs2) as (He2 & Hu2 & Hn2).
  assert (Hm2 : mounted s2) by (eapply ext_mounted; [exact B2|exact He2|cbv beta; lia]).
  assert (Efa : forall m, faddr s2 di1 m = faddr s1 di1 m).
  { intros m. eapply faddr_ext; [exact B2|exact He2|apply P5|]. intros _ E. by apply Hai. }
  assert (Hf2 : file_ok s2 di1) by (eapply file_ok_ext; [exact B2|exact He2|exact P5|intros _ E; by apply Hai]).
  split_and!; [|done|done]. pose proof (bs_blk_ok (fb s1) ∅ ∅ L1 a B3) as [Hla _]. change (bs_blk (fb s1) a) with (fblk s1 a) in Hla.
  assert (Eb : forall i, 0 <= i -> faddr s1 di1 (i / BSIZE) <> 0 -> i / BSIZE < MAXFILE -> fbyte s2 di1 i =
    if decide (off <= i < off + Z.of_nat (length d)) then nthZ d (i - off) else fbyte s1 di1 i).
  { intros i Hi Hz Hir. unfold fbyte. rewrite Efa, (bec_blk _ _ _ Hs2). unfold BSIZE in *.
    pose proof (Z.mod_pos_bound i 512 ltac:(lia)). pose proof (Z.mod_pos_bound off 512 ltac:(lia)).
    pose proof (Z.div_mod i 512 ltac:(lia)). pose proof (Z.div_mod off 512 ltac:(lia)). fold n in H2.
    destruct (decide (i / 512 = n)) as [E|E].
    - rewrite E. fold a. rewrite decide_True by done. rewrite nthZ_splice by lia.
      rewrite E in *. destruct (decide (off mod 512 <= i mod 512 < off mod 512 + Z.of_nat (length d))) as [D|D].
      + rewrite decide_True by lia. f_equal. lia.
      + rewrite decide_False by lia. done.
    - rewrite decide_False; [|intros Ea; apply E; symmetry; eapply (fo_inj _ _ P5); [done|split; [apply Z.div_pos; lia|done]|exact P1|exact (eq_sym Ea)]].
      rewrite decide_False; [done|]. intros Hr. apply E. unfold n. apply Z.div_unique with (i - 512 * n); nia. }
  assert (Hin : forall i, off <= i < off + Z.of_nat (length d) -> i / BSIZE = n).
  { intros i Hi. unfold n, BSIZE in *. pose proof (Z.div_mod off 512 ltac:(lia)). pose proof (Z.mod_pos_bound off 512 ltac:(lia)).
    symmetry. apply Z.div_unique with (i - 512 * (off / 512)); lia. }
  split; try done.
  - intros i Hi Hc. assert (Hir : 0 <= i / BSIZE < MAXFILE).
    { unfold BSIZE in *. split; [apply Z.div_pos; lia|]. apply Z.div_lt_upper_bound; lia. }
    assert (Ek : faddr s (i_di x) (i / BSIZE) <> 0 -> faddr s1 di1 (i / BSIZE) = faddr s (i_di x) (i / BSIZE)).
    { intros Hz. destruct (decide (i / BSIZE = n)) as [E|E]; [rewrite E in *; by apply P3|by apply P2]. }
    assert (Hz : faddr s1 di1 (i / BSIZE) <> 0).
    { destruct Hc as [Hz|Hr]; [by rewrite Ek|by rewrite Hin]. }
    rewrite Eb by (done || lia). case_decide as Hr; [done|]. destruct Hc as [Hz'|]; [|done].
    unfold fbyte. rewrite Ek by done. destruct (fo_data _ _ Hf _ Hir Hz') as [Hd' Hi'].
    pose proof (data_ok_pos _ _ Hm Hd'). rewrite (ex_blk _ _ _ P6); [done|lia|by intros _; apply Hd'|by intros [? _]].
  - intros m Hmr Hz. rewrite Efa. destruct (decide (m = n)) as [->|]; [by apply P3|by apply P2].
  - intros i Hi. rewrite Efa, Hin by done. done.
  - eapply ext_trans_new; [eapply ext_weaken; [exact P6|]|exact He2|].
    + intros b [-> Hz]. split; [done|by left].
    + cbv beta. intros b ->. eapply fileblk_mapped; try done. split; [done|]. right. eauto.
  - intros b [Hz [->|(m & Hmr & ->)]].
    + eapply fileblk_mapped; try done. split; [done|by left].
    + rewrite Efa in Hz |- *. apply (fileblk_mapped s L ip x n s1 di1 L1); [done|done|done|done|].
      split; [done|]. right. eauto.
  - intros Hz. apply B8. apply (Hz off). lia.
Qed.

Lemma written_trans s di off d1 s1 di1 d2 s2 di2 : 0 <= off -> off + Z.of_nat (length d1 + length d2) <= MAXFILE * BSIZE ->
  written s di off d1 s1 di1 -> written s1 di1 (off + Z.of_nat (length d1)) d2 s2 di2 -> written s di off (d1 ++ d2) s2 di2.
Proof.
  intros Ho Hmax [A1 A2 A3 A4 A5 A6 A7 A8 A9] [B1 B2 B3 B4 B5 B6 B7 B8 B9].
  assert (Hrg : forall i, 0 <= i < MAXFILE * BSIZE -> 0 <= i / BSIZE < MAXFILE).
  { intros i Hi. unfold BSIZE in *. split; [apply Z.div_pos; lia|]. apply Z.div_lt_upper_bound; lia. }
  assert (Hr1 : forall i, off <= i < off + Z.of_nat (length d1) -> 0 <= i < MAXFILE * BSIZE) by (intros i Hi; lia).
  split; try done.
  - intros i Hi Hc. rewrite length_app in *.
    assert (Hc' : faddr s1 di1 (i / BSIZE) <> 0 \/
      off + Z.of_nat (length d1) <= i < off + Z.of_nat (length d1) + Z.of_nat (length d2)).
    { destruct Hc as [Hz|Hr]; [left; rewrite A2; auto|].
      destruct (Z_lt_le_dec i (off + Z.of_nat (length d1))); [left; apply A3; lia|right; lia]. }
    rewrite B1 by done. unfold nthZ. rewrite !nth_lookup. case_decide as D.
    + rewrite decide_True by lia. rewrite lookup_app_r by lia. do 2 f_equal. lia.
    + rewrite A1; [|done|destruct Hc as [?|?]; [by left|right; lia]]. case_decide as D'.
      * rewrite decide_True by lia. unfold nthZ. rewrite nth_lookup, lookup_app_l by lia. done.
      * by rewrite decide_False by lia.
  - intros n Hn Hz. rewrite B2; [by apply A2|done|]. by rewrite A2.
  - intros i. rewrite length_app. intros Hi. destruct (Z_lt_le_dec i (off + Z.of_nat (length d1))).
    + rewrite B2; [apply A3; lia|apply Hrg; lia|apply A3; lia].
    + apply B3. lia.
  - by eapply ext_trans_new.
  - intros b [Hb|[Hr Hf]]%B7; [by apply A7|]. rewrite (ex_sb _ _ _ A5) in Hr. right. split; [done|].
    destruct (used s b) eqn:E; [|done]. rewrite (ex_used _ _ _ A5) in Hf by done. done.
  - destruct A8, B8. split; congruence.
  - rewrite length_app. intros Hz. rewrite B9; [apply A9; intros i Hi; apply Hz; lia|].
    intros i Hi. rewrite A2; [apply Hz; lia|apply Hrg; lia|apply Hz; lia].
Qed.

(** What a write leaves in the log and the free list: [K] bounds the blocks
    logged before, besides the bitmap and the indirect block. *)
Record logged_in s (di : dinode) (L K : gset Z) : Prop := {
  lg_fok : fok s ∅ L;
  lg_sub : L ⊆ {[bm s]} ∪ indset di ∪ K
}.

Lemma logged_size s di L K : logged_in s di L K -> (size L <= size K + 2)%nat.
Proof.
  intros [_ Hs]. apply subseteq_size in Hs. unfold indset in Hs. pose proof (size_add (bm s) K).
  destruct (ind di =? 0).
  - rewrite union_empty_r_L in Hs. lia.
  - replace ({[bm s]} ∪ {[ind di]} ∪ K) with ({[ind di]} ∪ ({[bm s]} ∪ K)) in Hs by set_solver.
    pose proof (size_add (ind di) ({[bm s]} ∪ K)). lia.
Qed.

Lemma indset_mapped s L ip x n s' di' L' : bmapped s L ip x n s' di' L' -> indset (i_di x) ⊆ indset di'.
Proof.
  intros Hb. unfold indset. destruct (bp_ind _ _ _ _ _ _ _ _ Hb) as [->|[-> _]]; [done|]. cbn [Z.eqb]. set_solver.
Qed.

Lemma written_nil s di off : mounted s -> file_ok s di -> written s di off [] s di.
Proof.
  intros Hm Hf. split; try done.
  - intros i _ _. cbn [length]. by rewrite decide_False by lia.
  - cbn [length]. intros i Hi. lia.
  - intros b Hb. by left.
Qed.

(** One round of the loop of writei. *)
Lemma writei_round {A} s L K ip x off (d : list Z) (k : M (fs B) A) Q : mounted s -> logged_in s (i_di x) L K -> fic s !! ip = Some x ->
  i_dev x = bs_dev -> file_ok s (i_di x) -> Forall byte_ok d -> 0 <= off -> off / BSIZE < MAXFILE ->
  (0 < length d)%nat -> (Z.to_nat (off mod BSIZE) + length d <= 512)%nat -> (2 <= nfree s + icount (i_di x))%nat -> (size K + 9 <= bs_cap)%nat ->
  (forall s' di' L' K', written s (i_di x) off d s' di' -> fic s' = <[ip := set_di di' x]> (fic s) ->
     logged_in s' di' L' K' -> (size K' <= S (size K))%nat ->
     (nfree s + icount (i_di x) <= nfree s' + icount di' + 1)%nat -> runs k s' Q) ->
  runs (b <- bmap ip (off / BSIZE) ;;
        bp <- blk (o_bread bs_dev b) ;;
        y <- blk (o_data bp) ;;
        blk (o_set bp (splice y (Z.to_nat (off mod BSIZE)) d)) ;;;
        blk (o_log_write bp) ;;;
        blk (o_brelse bp) ;;;
        k) s Q.
Proof.
  intros Hm HL Hx Hdev Hf Hd Ho Hn Hlen0 Hlen Hfr Hc Hk. pose proof bs_cap_small. pose proof (logged_size _ _ _ _ HL) as HLs.
  assert (Hn' : 0 <= off / BSIZE < MAXFILE) by (split; [apply Z.div_pos; unfold BSIZE; lia|done]).
  apply (bmap_spec s L ip x); try done; [apply HL|lia|]. intros s1 di1 L1 Hb. set (a := faddr s1 di1 (off / BSIZE)).
  destruct (Hb) as [Hmp B2 B3 B4 B5 B6 B7 B8]. destruct (fo_data _ _ (mp_ok _ _ _ _ _ Hmp) _ Hn' (mp_addr _ _ _ _ _ Hmp)) as [Hda _].
  fold a in Hda. assert (Hbm : bm s1 = bm s) by (unfold bm; by rewrite (ex_sb _ _ _ (mp_ext _ _ _ _ _ Hmp))).
  assert (HL1 : logged_in s1 di1 L1 ({[a]} ∪ K)).
  { split; [done|]. pose proof (indset_mapped _ _ _ _ _ _ _ _ Hb). pose proof (lg_sub _ _ _ _ HL). rewrite Hbm. fold a in B4. set_solver. }
  pose proof (logged_size _ _ _ _ HL1). pose proof (size_add a K).
  apply (fs_bread s1 ∅ L1); [done|by apply bs_home_disk, (data_home s1)|by intros i; rewrite lookup_empty|rewrite map_size_empty; lia|].
  intros i s2 Hi Hok2 Hs2. pose proof (fblk_ok s1 ∅ L1 a B3) as [Hla Hya].
  apply (fs_store s2 ∅ L1 i a); [done|done|by apply (data_home s1)|lia| |].
  { split; [rewrite length_splice; lia|by apply Forall_splice]. }
  intros s3 Hok3 Hs3.
  assert (Hs : becomes s1 s3 (fun b => if decide (b = a) then splice (fblk s1 a) (Z.to_nat (off mod BSIZE)) d else fblk s1 b)).
  { eapply becomes_ext; [by eapply becomes_trans|]. intros b. cbv beta. case_decide; [done|]. apply Hs2. }
  destruct (written_one s L ip x s1 di1 L1 s3 off d Hm Hf Hn' Ho Hb Hd Hlen0 Hlen Hs) as (Hw & Hnf & _).
  apply (Hk s3 di1 ({[a]} ∪ L1) ({[a]} ∪ K)); [done| | |lia|lia].
  - by rewrite (bec_ic _ _ _ Hs).
  - split; [done|]. assert (bm s3 = bm s1) as -> by (unfold bm; by rewrite (bec_sb _ _ _ Hs)).
    pose proof (lg_sub _ _ _ _ HL1). set_solver.
Qed.

(** The loop of writei. *)
Lemma writei_loop_spec fuel s L K ip x src tot off n : mounted s -> logged_in s (i_di x) L K -> fic s !! ip = Some x ->
  i_dev x = bs_dev -> file_ok s (i_di x) -> Forall byte_ok src -> n = Z.of_nat (length src) ->
  0 <= tot <= n -> 0 <= off -> off + (n - tot) <= MAXFILE * BSIZE -> n - tot <= Z.of_nat fuel ->
  (nblk off (n - tot) + 1 <= nfree s + icount (i_di x))%nat -> (size K + nblk off (n - tot) + 8 <= bs_cap)%nat ->
  runs (writei_loop fuel ip src tot off n) s (fun r s' => r = off + (n - tot) /\ exists di' L' K',
    written s (i_di x) off (drop (Z.to_nat tot) src) s' di' /\ fic s' = <[ip := set_di di' x]> (fic s) /\
    logged_in s' di' L' K' /\ (size K' <= size K + nblk off (n - tot))%nat).
Proof.
  revert s L K x tot off. induction fuel as [|fuel IH]; intros s L K x tot off Hm HL Hx Hdev Hf Hsrc En Ht Ho Hmax Hfu Hfr Hc;
    cbn [writei_loop].
  - apply runs_ret. assert (tot = n) as -> by lia. split; [lia|]. exists (i_di x), L, K.
    rewrite drop_ge by lia. split_and!; [by apply written_nil| |done|lia]. rewrite set_di_id. symmetry. by apply list_insert_id.
  - destruct (Z.ltb_spec tot n) as [Hlt|Hge].
    2:{ apply runs_ret. assert (tot = n) as -> by lia. split; [lia|]. exists (i_di x), L, K.
        rewrite drop_ge by lia. split_and!; [by apply written_nil| |done|lia]. rewrite set_di_id. symmetry. by apply list_insert_id. }
    pose proof (geti_lookup _ _ _ Hx) as Ex. apply runs_bind, runs_gets. rewrite Ex, Hdev. cbv zeta.
    pose proof (nblk_step off (n - tot) Ho ltac:(lia)) as Hnb. cbv zeta in Hnb.
    set (m := Z.min (n - tot) (BSIZE - off mod BSIZE)) in *.
    pose proof (Z.mod_pos_bound off BSIZE ltac:(unfold BSIZE; lia)) as Hmod. assert (Hmr : 0 < m <= n - tot) by (unfold m, BSIZE in *; lia).
    set (d := slice src (Z.to_nat tot) (Z.to_nat m)).
    assert (Hld : length d = Z.to_nat m) by (unfold d; apply length_slice; lia).
    apply (writei_round s L K ip x off d); try done.
    + unfold d, slice. by apply Forall_take, Forall_drop.
    + unfold BSIZE in *. apply Z.div_lt_upper_bound; lia.
    + lia.
    + rewrite Hld. unfold m, BSIZE in *. lia.
    + lia.
    + lia.
    + intros s1 di1 L1 K1 Hw Hic HL1 HK1 Hnf.
      assert (Hip : (ip < length (fic s))%nat) by (by eapply lookup_lt_Some).
      eapply runs_mono; [apply (IH s1 L1 K1 (set_di di1 x)); try done|].
      * apply Hw.
      * rewrite Hic. by apply list_lookup_insert_eq.
      * apply Hw.
      * lia.
      * lia.
      * lia.
      * lia.
      * replace (n - (tot + m)) with (n - tot - m) by lia. cbn [set_di i_di]. lia.
      * replace (n - (tot + m)) with (n - tot - m) by lia. lia.
      * cbv beta. intros r s2 (-> & di2 & L2 & K2 & Hw2 & Hic2 & HL2 & HK2). split; [lia|]. exists di2, L2, K2.
        split_and!; [| |done|].
        -- replace (drop (Z.to_nat tot) src) with (d ++ drop (Z.to_nat (tot + m)) src).
           ++ eapply written_trans; [done| |exact Hw|]; rewrite Hld; [rewrite length_drop; lia|].
              rewrite Z2Nat.id by lia. exact Hw2.
           ++ unfold d, slice. rewrite Z2Nat.inj_add, <- drop_drop by lia. apply take_drop.
        -- rewrite Hic2, Hic, list_insert_insert_eq. done.
        -- replace (n - (tot + m)) with (n - tot - m) in HK2 by lia. lia.
Qed.

(** ** The claims about file contents *)

Lemma content_lookup s di k : 0 <= k < di_size di -> content s di !! Z.to_nat k = Some (fbyte s di k).
Proof.
  intros Hk. unfold content, bytes. rewrite list_lookup_fmap, lookup_seq_lt by lia.
  cbn [fmap option_fmap option_map]. do 2 f_equal. lia.
Qed.

Lemma length_content s di : length (content s di) = Z.to_nat (di_size di).
Proof. apply length_bytes. Qed.

Lemma slice_content s di off n : 0 <= off -> off + Z.of_nat n <= di_size di ->
  slice (content s di) (Z.to_nat off) n = bytes s di off n.
Proof.
  intros Ho Hn. unfold content, slice.
  replace (Z.to_nat (di_size di)) with (Z.to_nat off + (n + (Z.to_nat (di_size di) - Z.to_nat off - n)))%nat by lia.
  rewrite bytes_app, drop_app_length' by (symmetry; apply length_bytes). rewrite Z.add_0_l, Z2Nat.id, bytes_app by done.
  by rewrite take_app_length' by (symmetry; apply length_bytes).
Qed.

(** C11: readi on a file returns exactly the bytes of its contents from
    [off], as many of the [n] asked for as the file has, and changes no block
    and no inode; an offset beyond the end or an overflowing range returns
    -1. *)
Theorem readi_correct s L ip x off n : mounted s -> fok s ∅ L -> fic s !! ip = Some x -> i_dev x = bs_dev ->
  file_ok s (i_di x) -> i_type x <> T_DEV -> (size L < NBUF)%nat -> uint_ok off -> uint_ok n ->
  if (off >? i_size x) || (4294967296 <=? off + n) then readi ip off n s = Done (-1, []) s
  else runs (readi ip off n) s (fun r s' =>
    r = (Z.min n (i_size x - off), slice (content s (i_di x)) (Z.to_nat off) (Z.to_nat (Z.min n (i_size x - off)))) /\
    becomes s s' (fblk s) /\ fok s' ∅ L).
Proof.
  intros Hm Hok Hx Hdev Hf Hty HL Hoff Hn. pose proof (geti_lookup _ _ _ Hx) as Ex. unfold uint_ok in *.
  assert (Ety : (i_type x =? T_DEV) = false) by (by apply Z.eqb_neq).
  assert (Eov : (u32 (off + n) <? off) = (4294967296 <=? off + n)).
  { unfold u32. destruct (Z.leb_spec 4294967296 (off + n)).
    - rewrite <- (Z.mod_add _ (-1)), Z.mod_small by lia. apply Z.ltb_lt. lia.
    - rewrite Z.mod_small by lia. apply Z.ltb_ge. lia. }
  rewrite <- Eov. destruct ((off >? i_size x) || (u32 (off + n) <? off)) eqn:Eg.
  - unfold readi, bind, gets. rewrite Ex, Ety, Eg. done.
  - unfold readi. apply runs_bind, runs_gets. rewrite Ex, Ety, Eg. cbv zeta.
    apply orb_false_iff in Eg as [Eg Eg2]. rewrite Z.gtb_ltb in Eg. apply Z.ltb_ge in Eg. rewrite Eov in Eg2. apply Z.leb_gt in Eg2.
    pose proof (fo_max _ _ Hf) as Hmax. fold (i_size x) in Hmax. change (MAXFILE * BSIZE) with 71680 in Hmax.
    assert (En : (if u32 (off + n) >? i_size x then i_size x - off else n) = Z.min n (i_size x - off)).
    { rewrite u32_id by lia. destruct (Z.gtb_spec (off + n) (i_size x)); lia. }
    rewrite En. set (m := Z.min n (i_size x - off)).
    eapply runs_seq; [apply (readi_loop_spec (Z.to_nat m) s L ip x 0 off m []); try done; unfold m; lia|].
    cbv beta. intros r s' (-> & Hs & Hok'). apply runs_ret. split_and!; [|done|done].
    rewrite Z.sub_0_r. cbn [app]. rewrite s32_id by (unfold m; lia). f_equal. symmetry. apply slice_content; [lia|].
    unfold i_size in *. unfold m. lia.
Qed.

(** Another file: its blocks are in use and none belongs to the first. *)
Definition disjoint_files s (di di2 : dinode) : Prop := forall b, fileblk s di b -> ~ fileblk s di2 b.

Lemma content_ext s s' W di : mounted s -> file_ok s di -> ext s s' W -> (forall b, fileblk s di b -> ~ W b) ->
  content s' di = content s di.
Proof.
  intros Hm Hf He HW. apply bytes_ext. intros i Hi. unfold fbyte.
  pose proof (fo_max _ _ Hf) as Hmax. assert (Hr : 0 <= i / BSIZE < MAXFILE).
  { unfold BSIZE in *. split; [apply Z.div_pos; lia|]. apply Z.div_lt_upper_bound; lia. }
  assert (Hz : faddr s di (i / BSIZE) <> 0).
  { apply (fo_full _ _ Hf). unfold BSIZE in *. pose proof (Z.mul_div_le i 512). lia. }
  destruct (fo_data _ _ Hf _ Hr Hz) as [Hd _]. pose proof (data_ok_pos _ _ Hm Hd) as Hp.
  rewrite (faddr_ext s s' W di); [|done|done|apply Hf|intros Hi'; apply HW; split; [done|by left]].
  rewrite (ex_blk _ _ _ He); [done|lia|by intros _; apply Hd|]. apply HW. split; [done|]. right. eauto.
Qed.

(** The contents after the bytes [src] are stored at [off], when the size
    becomes [sz]. *)
Lemma written_content s di off src s' di' sz : mounted s -> file_ok s di -> written s di off src s' di' ->
  0 <= off <= di_size di -> off + Z.of_nat (length src) <= MAXFILE * BSIZE -> sz = Z.max (di_size di) (off + Z.of_nat (length src)) ->
  file_ok s' (set_dsize sz di') /\
  content s' (set_dsize sz di') =
    take (Z.to_nat off) (content s di) ++ src ++ drop (Z.to_nat off + length src) (content s di).
Proof.
  intros Hm Hf Hw Ho Hmax Hsz. destruct (Hw) as [W1 W2 W3 W4 W5 W6 W7 [_ W8] _]. pose proof (fo_max _ _ Hf) as Hmx.
  assert (Hrg : forall i, 0 <= i < sz -> 0 <= i < MAXFILE * BSIZE /\ 0 <= i / BSIZE < MAXFILE).
  { intros i Hi. split; [lia|]. unfold BSIZE in *. split; [apply Z.div_pos; lia|]. apply Z.div_lt_upper_bound; lia. }
  assert (Hz : forall i, 0 <= i < di_size di -> faddr s di (i / BSIZE) <> 0).
  { intros i Hi. apply (fo_full _ _ Hf). unfold BSIZE in *. pose proof (Z.mul_div_le i 512).
    assert (0 <= i / 512) by (apply Z.div_pos; lia). lia. }
  split.
  - destruct W4 as [F1 F2 F3 F4 F5 F6]. split; try done.
    + destruct F1. split; try done. unfold uint_ok. cbn. change (MAXFILE * BSIZE) with 71680 in *. lia.
    + cbn. lia.
    + cbn [set_dsize di_size]. intros n Hn. change (faddr s' (set_dsize sz di') n) with (faddr s' di' n).
      destruct (Hrg (n * BSIZE) Hn) as [_ Hr]. unfold BSIZE in *. rewrite Z.div_mul in Hr by lia.
      destruct (Z_lt_le_dec (n * 512) (di_size di)) as [Hl|Hl].
      * rewrite W2; [|done|]; apply (fo_full _ _ Hf); unfold BSIZE; lia.
      * rewrite <- (Z.div_mul n 512) by lia. apply W3. lia.
  - apply list_eq. intros k. pose proof (length_content s di) as Hlc.
    assert (Hls : length (content s' (set_dsize sz di')) = Z.to_nat sz) by apply length_content.
    destruct (decide (Z.of_nat k < sz)) as [Hk|Hk].
    2:{ rewrite !lookup_ge_None_2; [done| |]; rewrite ?length_app, ?length_take, ?length_drop; lia. }
    rewrite <- (Nat2Z.id k) at 1. rewrite content_lookup by (cbn; lia).
    change (fbyte s' (set_dsize sz di') (Z.of_nat k)) with (fbyte s' di' (Z.of_nat k)).
    rewrite W1; [|apply Hrg; lia|]. 2:{ destruct (Z_lt_le_dec (Z.of_nat k) (di_size di)); [left; apply Hz; lia|right; lia]. }
    destruct (decide (k < Z.to_nat off)%nat) as [K1|K1].
    { rewrite decide_False by lia. rewrite lookup_app_l, lookup_take_lt by (rewrite ?length_take; lia).
      rewrite <- (Nat2Z.id k) at 2. by rewrite content_lookup by lia. }
    rewrite lookup_app_r by (rewrite length_take; lia). rewrite length_take, Nat.min_l by lia.
    destruct (decide (k < Z.to_nat off + length src)%nat) as [K2|K2].
    + rewrite decide_True by lia. rewrite lookup_app_l by lia. unfold nthZ. rewrite nth_lookup.
      replace (Z.to_nat (Z.of_nat k - off)) with (k - Z.to_nat off)%nat by lia.
      destruct (lookup_lt_is_Some_2 src (k - Z.to_nat off)) as [v Hv]; [lia|]. by rewrite Hv.
    + rewrite decide_False by lia. rewrite lookup_app_r, lookup_drop by lia.
      replace (Z.to_nat off + length src + (k - Z.to_nat off - length src))%nat with (Z.to_nat (Z.of_nat k)) by lia.
      by rewrite content_lookup by lia.
Qed.
End Content.
