(* ===== verification/FsWrite.v ===== *)
(** * Writing a file (fs.c: writei)

    The loop of writei is in [FsFile]; here are the inode update that follows
    it and what the whole call does to the file, to the other files and to
    the inode on disk. *)

From S2P Require Import Prelude.
From S2P Require Import Params.
From S2P Require Import Fsfmt.
From S2P Require Import Txn.
From S2P Require Import Fs.
From S2P Require Import FsBlock.
From S2P Require Import FsInode.
From S2P Require Import FsFile.

Section Write.
Context {B : Type} {BO : BlockOps B} {BS : BlockStore B} {DS : DevSw B}.
Implicit Types s : fs B.

Lemma inode_written_ext s s' n di : mounted s -> 0 <= n < sb_ninodes (fsb s) -> inode_written s s' n di ->
  ext s s' (fun b => b = IBLOCK n (fsb s)).
Proof.
  intros Hm Hn Hw. destruct (IBLOCK_home _ _ (mt_geom _ Hm) Hn) as [_ Hi]. split; [apply Hw| |].
  - intros b Hb Hu. unfold used in *. rewrite (bec_sb _ _ _ Hw), (bec_blk _ _ _ Hw).
    destruct (BBLOCK_range (fsb s) b (mt_geom _ Hm) Hb). rewrite decide_False by lia. done.
  - intros b _ _ Hb. rewrite (bec_blk _ _ _ Hw). by rewrite decide_False.
Qed.

Lemma fileblk_data s di b : file_ok s di -> fileblk s di b -> data_ok s b.
Proof. intros Hf [Hz [->|(n & Hn & ->)]]; [by apply Hf|by apply (fo_data _ _ Hf)]. Qed.

Lemma fileblk_not_meta s di b n : mounted s -> file_ok s di -> 0 <= n < sb_ninodes (fsb s) ->
  fileblk s di b -> b <> IBLOCK n (fsb s).
Proof.
  intros Hm Hf Hn Hb ->. pose proof (fileblk_data _ _ _ Hf Hb) as [Hr _].
  destruct (IBLOCK_home _ _ (mt_geom _ Hm) Hn) as [_ Hi]. pose proof (mounted_starts _ Hm). unfold bm in *. lia.
Qed.

(** Writing the inode leaves every file's contents as they are. *)
Lemma inode_written_file s s' n di d : mounted s -> 0 <= n < sb_ninodes (fsb s) -> inode_written s s' n di ->
  file_ok s d -> file_ok s' d /\ content s' d = content s d.
Proof.
  intros Hm Hn Hw Hf. pose proof (inode_written_ext _ _ _ _ Hm Hn Hw) as He. split.
  - eapply file_ok_ext; try done. intros Hz. by eapply fileblk_not_meta; [..|split; [done|by left]].
  - eapply content_ext; try done. intros b Hb. by eapply fileblk_not_meta.
Qed.

(** The guards of readi and writei on an unsigned offset and length. *)
Lemma range_overflows off n : uint_ok off -> uint_ok n -> (u32 (off + n) <? off) = (4294967296 <=? off + n).
Proof.
  unfold uint_ok, u32. intros Ho Hn. destruct (Z.leb_spec 4294967296 (off + n)).
  - rewrite <- (Z.mod_add _ (-1)), Z.mod_small by lia. apply Z.ltb_lt. lia.
  - rewrite Z.mod_small by lia. apply Z.ltb_ge. lia.
Qed.

(** What a successful writei leaves: the new inode [di'], its contents, the
    other files and the inodes on disk. *)
Record file_written s (ip : nat) (x : inode) (off : Z) (src : list Z) s' (di' : dinode) : Prop := {
  fw_ic : fic s' = <[ip := set_di di' x]> (fic s);
  fw_size : di_size di' = Z.max (i_size x) (off + Z.of_nat (length src));
  fw_type : di_type di' = i_type x;
  fw_ok : file_ok s' di';
  fw_content : content s' di' =
    take (Z.to_nat off) (content s (i_di x)) ++ src ++ drop (Z.to_nat off + length src) (content s (i_di x));
  fw_mounted : mounted s';
  fw_disk : dino s (i_inum x) = i_di x -> dino s' (i_inum x) = di';
  fw_inodes : forall n, 0 <= n < sb_ninodes (fsb s) -> n <> i_inum x -> dino s' n = dino s n;
  fw_others : forall d, file_ok s d -> disjoint_files s (i_di x) d -> file_ok s' d /\ content s' d = content s d
}.
Lemma dino_ext s s' di n : mounted s -> file_ok s di -> ext s s' (fileblk s di) -> 0 <= n < sb_ninodes (fsb s) ->
  dino s' n = dino s n.
Proof.
  intros Hm Hf He Hn. unfold dino. rewrite (ex_sb _ _ _ He).
  destruct (IBLOCK_home _ _ (mt_geom _ Hm) Hn) as [_ Hi]. pose proof (mounted_starts _ Hm).
  rewrite (ex_blk _ _ _ He); [done|unfold bm; lia| |].
  - intros Hr. apply (mt_meta _ Hm). unfold bm in *. lia.
  - intros Hb. by eapply fileblk_not_meta.
Qed.

Lemma others_ext s s' di d : mounted s -> file_ok s di -> ext s s' (fileblk s di) -> file_ok s d ->
  disjoint_files s di d -> file_ok s' d /\ content s' d = content s d.
Proof.
  intros Hm Hf He Hd Hdj. split.
  - eapply file_ok_ext; try done. intros Hz Hb. apply (Hdj _ Hb). split; [done|by left].
  - eapply content_ext; try done. intros b Hb Hb'. by eapply Hdj.
Qed.

(** The size stays: every block was there, so the inode has not changed. *)
Lemma written_inside s ip x off src s' di' : mounted s -> fic s !! ip = Some x -> file_ok s (i_di x) ->
  0 <= i_inum x < sb_ninodes (fsb s) -> 0 <= off -> off + Z.of_nat (length src) <= i_size x ->
  written s (i_di x) off src s' di' -> fic s' = <[ip := set_di di' x]> (fic s) ->
  file_written s ip x off src s' di'.
Proof.
  intros Hm Hx Hf Hn Ho Hsz Hw Hic. pose proof (fo_max _ _ Hf) as Hmx. unfold i_size in *.
  assert (E : di' = i_di x).
  { apply (wr_same _ _ _ _ _ _ Hw). intros i Hi. apply (fo_full _ _ Hf). unfold BSIZE.
    pose proof (Z.mul_div_le i 512). assert (0 <= i / 512) by (apply Z.div_pos; lia). lia. }
  destruct (written_content s (i_di x) off src s' di' (di_size (i_di x)) Hm Hf Hw) as [H1 H2]; [lia|lia|lia|].
  assert (Ed : set_dsize (di_size (i_di x)) di' = di') by (rewrite E; by destruct (i_di x)). rewrite Ed in *.
  split; try done.
  - rewrite E. unfold i_size. lia.
  - by rewrite E.
  - apply Hw.
  - intros Hd. rewrite E, <- Hd. eapply dino_ext; try done. apply Hw.
  - intros n Hr _. eapply dino_ext; try done. apply Hw.
  - intros d. eapply others_ext; try done. apply Hw.
Qed.

(** The file grows: the new size and addresses go to the inode on disk. *)
Lemma written_grows s ip x off src s1 di1 s2 : mounted s -> fic s !! ip = Some x -> file_ok s (i_di x) ->
  0 <= i_inum x < sb_ninodes (fsb s) -> 0 <= off <= i_size x -> i_size x < off + Z.of_nat (length src) <= MAXFILE * BSIZE ->
  written s (i_di x) off src s1 di1 -> (exists L, fok s1 ∅ L) ->
  inode_written s1 s2 (i_inum x) (set_dsize (off + Z.of_nat (length src)) di1) ->
  fic s2 = <[ip := set_di (set_dsize (off + Z.of_nat (length src)) di1) x]> (fic s) ->
  file_written s ip x off src s2 (set_dsize (off + Z.of_nat (length src)) di1).
Proof.
  intros Hm Hx Hf Hn Ho Hsz Hw [L Hok] Hi Hic. unfold i_size in *. set (sz := off + Z.of_nat (length src)) in *.
  destruct (written_content s (i_di x) off src s1 di1 sz Hm Hf Hw) as [H1 H2]; [lia|lia|unfold sz; lia|].
  pose proof (wr_mounted _ _ _ _ _ _ Hw) as Hm1. pose proof (ex_sb _ _ _ (wr_ext _ _ _ _ _ _ Hw)) as Esb.
  assert (Hn1 : 0 <= i_inum x < sb_ninodes (fsb s1)) by (by rewrite Esb).
  pose proof (inode_written_ext _ _ _ _ Hm1 Hn1 Hi) as He. destruct (IBLOCK_home _ _ (mt_geom _ Hm1) Hn1) as [_ Hib].
  destruct (inode_written_file _ _ _ _ _ Hm1 Hn1 Hi H1) as [H3 H4]. split; try done.
  - cbn. unfold i_size. unfold sz in *. lia.
  - cbn. apply (wr_type _ _ _ _ _ _ Hw).
  - by rewrite H4.
  - eapply ext_mounted; try done. cbv beta. pose proof (fg_start _ (mt_geom _ Hm1)). pose proof (fg_inodes _ (mt_geom _ Hm1) _ Hn1). lia.
  - intros _. rewrite (dino_written s1 s2 ∅ L (i_inum x) (i_inum x) _ Hok (fo_di _ _ H1) Hi Hn1 Hn1 (mt_geom _ Hm1)). by rewrite decide_True.
  - intros n Hr Hne. assert (Hr1 : 0 <= n < sb_ninodes (fsb s1)) by (by rewrite Esb).
    rewrite (dino_written s1 s2 ∅ L (i_inum x) n _ Hok (fo_di _ _ H1) Hi Hn1 Hr1 (mt_geom _ Hm1)), decide_False by done.
    eapply dino_ext; try done. apply Hw.
  - intros d Hd Hdj. destruct (others_ext s s1 (i_di x) d Hm Hf (wr_ext _ _ _ _ _ _ Hw) Hd Hdj) as [D1 D2].
    destruct (inode_written_file _ _ _ _ _ Hm1 Hn1 Hi D1) as [D3 D4]. by rewrite D4.
Qed.
Lemma written_upd s di off src s' di' ip f : written s di off src s' di' -> written s di off src (upd_inode ip f s') di'.
Proof.
  intros [W1 W2 W3 W4 W5 W6 W7 W8 W9]. split; try done; [by apply file_ok_upd| |by apply mounted_upd].
  by destruct W5.
Qed.

(** The end of writei, after its loop. *)
Lemma writei_finish s ip x off src n s1 di1 L1 K1 : mounted s -> fic s !! ip = Some x -> i_dev x = bs_dev ->
  0 <= i_inum x < sb_ninodes (fsb s) -> file_ok s (i_di x) -> n = Z.of_nat (length src) ->
  0 <= off <= i_size x -> off + n <= MAXFILE * BSIZE ->
  written s (i_di x) off src s1 di1 -> fic s1 = <[ip := set_di di1 x]> (fic s) -> logged_in s1 di1 L1 K1 ->
  (size K1 + 8 <= bs_cap)%nat ->
  runs (x <- gets (fun s => geti s ip) ;;
        (if (n >? 0) && (off + n >? i_size x) then
           modify (upd_inode ip (fun x => set_di (set_dsize (off + n) (i_di x)) x)) ;;;
           iupdate ip
         else ret tt) ;;;
        ret (s32 n)) s1 (fun r s' => r = n /\ exists di', file_written s ip x off src s' di').
Proof.
  intros Hm Hx Hdev Hnum Hf En Ho Hmax Hw Hic HL Hc. change (MAXFILE * BSIZE) with 71680 in *.
  assert (Hx1 : fic s1 !! ip = Some (set_di di1 x)).
  { rewrite Hic. apply list_lookup_insert_eq. by eapply lookup_lt_Some. }
  assert (Hsz : i_size (set_di di1 x) = i_size x) by apply (wr_type _ _ _ _ _ _ Hw).
  apply runs_bind, runs_gets. rewrite (geti_lookup _ _ _ Hx1), Hsz, s32_id by lia.
  destruct ((n >? 0) && (off + n >? i_size x)) eqn:Eg.
  - apply andb_true_iff in Eg as [_ Eg]. rewrite Z.gtb_ltb in Eg. apply Z.ltb_lt in Eg.
    apply runs_bind, runs_bind, runs_modify.
    set (f := fun y : inode => set_di (set_dsize (off + n) (i_di y)) y). set (s2 := upd_inode ip f s1).
    destruct (written_content s (i_di x) off src s1 di1 (off + n) Hm Hf Hw) as [Hf1 _]; [unfold i_size in *; lia| |unfold i_size in *; lia|].
    { change (MAXFILE * BSIZE) with 71680. lia. }
    assert (Hx2 : fic s2 !! ip = Some (f (set_di di1 x))) by (unfold s2; cbn; by rewrite list_lookup_alter_eq, Hx1).
    pose proof (logged_size _ _ _ _ HL). pose proof (wr_mounted _ _ _ _ _ _ Hw) as Hm1.
    pose proof (ex_sb _ _ _ (wr_ext _ _ _ _ _ _ Hw)) as Esb.
    apply runs_tail, (iupdate_spec s2 ∅ L1 ip (f (set_di di1 x))); try done.
    + apply Hm1.
    + apply HL.
    + by apply geti_lookup.
    + cbn. by rewrite Esb.
    + apply Hf1.
    + rewrite map_size_empty. lia.
    + intros s3 Hi _. cbn in Hi. apply runs_ret, runs_ret. split; [done|]. subst n. exists (set_dsize (off + Z.of_nat (length src)) di1).
      apply (written_grows s ip x off src s2 di1 s3); try done.
      * by apply written_upd.
      * exists L1. apply HL.
      * rewrite (bec_ic _ _ _ Hi). unfold s2. cbn. rewrite (alter_insert _ _ _ _ Hx1), Hic, list_insert_insert_eq. done.
  - apply runs_bind, runs_ret, runs_ret. split; [done|]. exists di1. apply written_inside; try done; [lia|].
    apply andb_false_iff in Eg. rewrite !Z.gtb_ltb, !Z.ltb_ge in Eg. lia.
Qed.

End Write.
