(* ===== verification/FsWitness.v ===== *)
(** * The file-system theorems on a concrete file system

    [FsDemo] is the disk of [LogCrash.Demo], laid out as mkfs does, inside an
    operation; [FileDemo] has one inode in the cache besides, that of an empty
    file, as the theorems on inodes and files ask for. *)

From S2P Require Import Prelude.
From S2P Require Import Params.
From S2P Require Import Fsfmt.
From S2P Require Import Bio.
From S2P Require Import BioSpec.
From S2P Require Import Log.
From S2P Require Import LogCrash.
From S2P Require Import Txn.
From S2P Require Import Fs.
From S2P Require Import FsBlock.
From S2P Require Import Kalloc.
From S2P Require Import Syscall.
From S2P Require Import File.
From S2P Require Import Sysfile.
From S2P Require Import SysfileSpec.
From S2P Require Import FsInode.
From S2P Require Import FsFile.
From S2P Require Import FsWrite.

Module FsDemo.
#[export] Instance drv : Driver := Memide.driver 1000.
#[export] Instance store : BlockStore lstate := log_store Demo.lg Demo.lg_geom.

Definition fs0 : fs lstate := mkfs Demo.s2 Demo.sb (replicate NINODE noinode) [] [].

Lemma fs0_ok : fok fs0 ∅ ∅.
Proof.
  destruct Demo.s2_log as (Hs & Hq & Hf & Ho & _ & Hn).
  apply (txn_start Demo.lg Demo.lg_geom Demo.s2 Hs Hq Hf); [by rewrite Ho|exact Hn].
Qed.

Lemma view_s2 b : ~ in_log Demo.lg b -> view (lbc Demo.s2) (1, b) = dread Demo.dsk (1, b).
Proof.
  intros Hb. pose proof (begin_op_log _ _ Demo.s2_is) as (Eb & _). rewrite Eb.
  pose proof Demo.s1_booted as (_ & _ & _ & _ & _ & _ & _ & Hv). apply Hv. intros _. exact Hb.
Qed.

Lemma fs0_blk b : ~ (2 <= b < 32) -> fblk fs0 b = dread Demo.dsk (1, b).
Proof. intros Hb. apply view_s2. unfold in_log. cbn. lia. Qed.

Lemma fs0_geom : fs_geom (fsb fs0).
Proof.
  split; cbn [fs0 fsb]; try done.
  - intros i Hi. unfold IBLOCK, IPB, Demo.sb in *. cbn [sb_ninodes sb_inodestart sb_bmapstart] in *.
    assert (0 <= i / 8 < 25) by (split; [apply Z.div_pos; lia|apply Z.div_lt_upper_bound; lia]).
    rewrite u32_id; lia.
  - unfold Demo.sb. cbn [sb_inodestart sb_size]. intros b Hb. unfold bs_home. cbn. unfold home_ok, in_log.
    cbn. split_and!; lia.
Qed.

Lemma fs0_meta : meta_used fs0.
Proof.
  assert (Hc : forallb (fun n => bit_get Demo.bitmap (Z.of_nat n)) (seq 0 59) = true) by by vm_compute.
  rewrite forallb_forall in Hc. intros b Hb. assert (E : dstart (fsb fs0) = 59) by reflexivity. rewrite E in Hb.
  unfold used. cbn [fs0 fsb]. unfold BBLOCK, BPB. rewrite Z.div_small, Z.mod_small by lia.
  change (u32 _) with 58. rewrite fs0_blk by lia. change (dread Demo.dsk (1, 58)) with Demo.bitmap.
  rewrite <- (Z2Nat.id b) by lia. apply Hc. apply in_seq. lia.
Qed.

Lemma fs0_holds : holds fs0 ∅.
Proof. intros i b. by rewrite lookup_empty. Qed.

Lemma fs0_synced : sb_synced fs0.
Proof. unfold sb_synced. rewrite fs0_blk by lia. vm_compute. reflexivity. Qed.

Lemma cap29 : bs_cap = 29%nat.
Proof. done. Qed.
End FsDemo.
Import FsDemo.

Lemma balloc_correct_witness :
  (exists b, least_free fs0 b /\
     runs (balloc bs_dev) fs0 (fun r s' => r = b /\ fok s' ∅ ({[b]} ∪ ({[BBLOCK b (fsb fs0)]} ∪ ∅)) /\
       fblk s' b = zero_block /\
       (forall x, 0 <= x < sb_size (fsb fs0) -> used s' x = if decide (x = b) then true else used fs0 x) /\
       (forall x, x <> b -> x <> BBLOCK b (fsb fs0) -> fblk s' x = fblk fs0 x) /\ fic s' = fic fs0)) \/
  ((forall b, 0 <= b < sb_size (fsb fs0) -> used fs0 b = true) /\
     balloc bs_dev fs0 = Panic "balloc: out of blocks").
Proof.
  apply (balloc_correct fs0 ∅ ∅ fs0_geom fs0_ok fs0_holds fs0_meta).
  rewrite cap29, size_empty, map_size_empty. lia.
Defined.

Lemma bfree_correct_witness :
  if used fs0 58 then
    runs (bfree bs_dev 58) fs0 (fun _ s' => fok s' ∅ ({[BBLOCK 58 (fsb fs0)]} ∪ ∅) /\
      (forall x, 0 <= x < sb_size (fsb fs0) -> used s' x = if decide (x = 58) then false else used fs0 x) /\
      (forall x, x <> BBLOCK 58 (fsb fs0) -> fblk s' x = fblk fs0 x) /\ fic s' = fic fs0)
  else bfree bs_dev 58 fs0 = Panic "freeing free block".
Proof.
  apply (bfree_correct fs0 ∅ ∅ 58 fs0_geom fs0_ok fs0_holds fs0_synced).
  - rewrite cap29, size_empty, map_size_empty. lia.
  - cbn. lia.
Defined.

Module FileDemo.
#[export] Instance nodev : DevSw lstate := { dev_read _ := None; dev_write _ := None }.

Definition empty_file : dinode := mkdinode 2 0 0 1 0 (replicate 13 0).
Definition x1 : inode := mkinode 1 2 1 I_VALID empty_file.
Definition ic1 : list inode := x1 :: replicate 49 noinode.
Definition fs1 : fs lstate := mkfs Demo.s2 Demo.sb ic1 [] [].

(** These depend on the blocks only. *)
Lemma fok_ic (b : lstate) sb ic ic' H L : fok (mkfs b sb ic [] []) H L -> fok (mkfs b sb ic' [] []) H L.
Proof. done. Qed.
Lemma meta_ic (b : lstate) sb ic ic' : meta_used (mkfs b sb ic [] []) -> meta_used (mkfs b sb ic' [] []).
Proof. done. Qed.
Lemma synced_ic (b : lstate) sb ic ic' : sb_synced (mkfs b sb ic [] []) -> sb_synced (mkfs b sb ic' [] []).
Proof. done. Qed.
Lemma fblk_ic (b : lstate) sb ic ic' n : fblk (mkfs b sb ic [] []) n = fblk (mkfs b sb ic' [] []) n.
Proof. done. Qed.

Lemma fs1_ok : fok fs1 ∅ ∅.
Proof. exact (fok_ic Demo.s2 Demo.sb (replicate NINODE noinode) ic1 ∅ ∅ fs0_ok). Qed.
Lemma fs1_mounted : mounted fs1.
Proof.
  split; [exact fs0_geom|discriminate| |].
  - exact (meta_ic Demo.s2 Demo.sb (replicate NINODE noinode) ic1 fs0_meta).
  - exact (synced_ic Demo.s2 Demo.sb (replicate NINODE noinode) ic1 fs0_synced).
Qed.

Lemma ic1_one i x : ic1 !! i = Some x -> 0 < i_ref x -> i = 0%nat.
Proof.
  destruct i as [|i]; [done|]. intros Hx. change (replicate 49 noinode !! i = Some x) in Hx. apply lookup_replicate in Hx as [-> _]. cbn. lia.
Qed.
Lemma ic1_ok : ic_ok ic1.
Proof.
  split; [done| |].
  - intros [|i] x Hx; [by injection Hx as <-|]. change (replicate 49 noinode !! i = Some x) in Hx. apply lookup_replicate in Hx as [-> _]. done.
  - intros i j x y Hx Hy H1 H2 _. rewrite (ic1_one i x Hx H1). symmetry. by apply (ic1_one j y Hy H2).
Qed.

Lemma faddr_empty s n : faddr s empty_file n = 0.
Proof.
  unfold faddr. destruct (n <? NDIRECT); [|done]. unfold nthZ, empty_file. cbn [di_addrs].
  destruct (Z.to_nat n) as [|k]; [done|]. do 13 (destruct k as [|k]; [done|]). done.
Qed.
Lemma empty_ok s : file_ok s empty_file.
Proof.
  split.
  - split; try (unfold short_ok, uint_ok; cbn; lia); try done. cbn. repeat constructor; cbn; lia.
  - discriminate.
  - intros H. by destruct H.
  - intros n _. rewrite faddr_empty. done.
  - intros n m _ _. rewrite faddr_empty. done.
  - intros n Hn. unfold BSIZE in Hn. cbn [di_size empty_file] in Hn. lia.
Qed.

Lemma none_held i b : (∅ : gmap nat Z) !! i <> Some b.
Proof. by rewrite lookup_empty. Qed.
Lemma small_log : (size (∅ : gset Z) + size (∅ : gmap nat Z) < 29)%nat.
Proof. rewrite size_empty, map_size_empty. lia. Qed.

Lemma fs1_used b : 0 <= b < 4096 -> used fs1 b = bit_get Demo.bitmap b.
Proof.
  intros Hb. unfold used. change (fsb fs1) with Demo.sb. unfold BBLOCK, BPB. rewrite Z.div_small, Z.mod_small by lia.
  change (u32 _) with 58. change Demo.bitmap with (dread Demo.dsk (1, 58)).
  exact (f_equal (fun d => bit_get d b) (eq_trans (fblk_ic Demo.s2 Demo.sb ic1 (replicate NINODE noinode) 58) (fs0_blk 58 ltac:(lia)))).
Qed.
Lemma fs1_free : (100 <= nfree fs1)%nat.
Proof.
  assert (H : length (List.filter (fun b => negb (bit_get Demo.bitmap (Z.of_nat b))) (seq 0 1000)) = 941%nat) by by vm_compute.
  unfold nfree. change (Z.to_nat (sb_size (fsb fs1))) with 1000%nat.
  rewrite (List.filter_ext_in _ (fun b => negb (bit_get Demo.bitmap (Z.of_nat b)))); [rewrite H; lia|].
  intros b Hb%in_seq. rewrite fs1_used by lia. done.
Qed.
End FileDemo.
Import FileDemo.

Lemma iget_correct_witness : exists i s', iget 1 2 fs1 = Done i s' /\ ic_ok (fic s') /\ refs (fic s') (1, 2) = refs ic1 (1, 2) + 1.
Proof.
  pose proof (iget_correct fs1 1 2 ic1_ok) as H. destruct (iget 1 2 fs1) as [i s'|m|c s'].
  - destruct H as (H1 & _ & _ & _ & H2). exists i, s'. split; [reflexivity|]. split; [exact H1|]. rewrite H2. reflexivity.
  - destruct H as [_ H]. destruct (H 0%nat x1 eq_refl) as [_ H2]. by destruct H2.
  - done.
Defined.

Lemma iupdate_correct_witness :
  runs (iupdate 0) fs1 (fun _ s' =>
    (forall n, 0 <= n < sb_ninodes (fsb fs1) -> dino s' n = if decide (n = 2) then empty_file else dino fs1 n) /\
    (forall b, b <> IBLOCK 2 (fsb fs1) -> fblk s' b = fblk fs1 b) /\
    fok s' ∅ ({[IBLOCK 2 (fsb fs1)]} ∪ ∅) /\ fic s' = fic fs1).
Proof.
  apply (iupdate_correct fs1 ∅ ∅ 0 x1 fs0_geom fs1_ok eq_refl eq_refl).
  - cbn. lia.
  - exact (fo_di _ _ (empty_ok fs1)).
  - intros i. apply none_held.
  - exact small_log.
Defined.

Lemma ilock_correct_witness : ilock 0 fs1 = Done tt (upd_inode 0 (fun x => set_iflags (Z.lor (i_flags x) I_BUSY) x) fs1).
Proof.
  apply (ilock_correct fs1 ∅ ∅ 0 x1 fs0_geom fs1_ok eq_refl).
  - unfold NINODE. lia.
  - cbn. lia.
  - reflexivity.
  - cbn. lia.
  - intros i. apply none_held.
  - unfold NBUF. cbn. rewrite size_empty, map_size_empty. lia.
Defined.

Lemma ialloc_correct_witness :
  (exists n, least_inum fs1 n /\ runs (ialloc bs_dev 2) fs1 (ialloc_post fs1 ∅ ∅ 2 n)) \/
  ((forall n, 1 <= n < sb_ninodes (fsb fs1) -> di_type (dino fs1 n) <> 0) /\
   ialloc bs_dev 2 fs1 = Panic "ialloc: no inodes").
Proof.
  apply (ialloc_correct fs1 ∅ ∅ 2 fs0_geom fs1_ok).
  - unfold short_ok. lia.
  - exact ic1_ok.
  - exists 1%nat, noinode. split; reflexivity.
  - intros i m. apply none_held.
  - exact small_log.
Defined.

Lemma readi_correct_witness :
  runs (readi 0 0 10) fs1 (fun r s' =>
    r = (Z.min 10 (i_size x1 - 0), slice (content fs1 (i_di x1)) (Z.to_nat 0) (Z.to_nat (Z.min 10 (i_size x1 - 0)))) /\
    becomes fs1 s' (fblk fs1) /\ fok s' ∅ ∅).
Proof.
  apply (readi_correct fs1 ∅ 0 x1 0 10 fs1_mounted fs1_ok eq_refl eq_refl (empty_ok fs1)).
  - discriminate.
  - rewrite size_empty. unfold NBUF. cbn. lia.
  - unfold uint_ok. lia.
  - unfold uint_ok. lia.
Defined.


Module KernDemo.
#[export] Instance log_txn : TxnOps lstate := { o_begin_op := begin_op; o_end_op := end_op }.

Definition proc1 : uproc := mkuproc 8192 (fun _ => 0) 4096 0 (replicate NOFILE None) 0 false 1.
Definition k1 : kern lstate := mkkern fs1 (replicate NFILE nofile) ∅ (mkkmem (fun _ => 0) 0 false []) proc1 [].

Lemma nth_nofile f n : nth f (replicate n nofile) nofile = nofile.
Proof. revert f. induction n as [|n IH]; intros [|f]; cbn; try done. Qed.
Lemma k1_refs : refs_ok (fun _ => 0) k1.
Proof.
  split; [done| | |].
  - intros f _. unfold getf. cbn [k1 ftable]. by rewrite nth_nofile.
  - intros f Hf. cbn [k1 kproc proc1 u_ofile] in Hf. apply elem_of_replicate in Hf as [? _]. done.
  - intros f _ _. unfold getf. cbn [k1 ftable]. by rewrite nth_nofile.
Qed.
End KernDemo.
Import KernDemo.

Lemma calls_keep_refs_witness :
  match run_call 2148564992 Open k1 with Done _ s' => refs_ok (fun _ => 0) s' | _ => True end.
Proof. apply (calls_keep_refs 2148564992 (fun _ => 0) Open k1); [intros f; lia|exact k1_refs]. Defined.
