(* ===== verification/MkfsSpec.v ===== *)
(** * The image mkfs builds

    The invariant of the image under construction: which block belongs to which
    file, and what each file holds. *)

From S2P Require Import Prelude.
From S2P Require Import Params.
From S2P Require Import Cstr.
From S2P Require Import Fsfmt.
From S2P Require Import Txn.
From S2P Require Import Fs.
From S2P Require Import FsBlock.
From S2P Require Import FsInode.
From S2P Require Import FsFile.
From S2P Require Import Mkfs.

(** ** Files on an image *)

Section Image.
Implicit Types blk : Z -> list Z.

(** The address of block [n] of a file, as [faddr] has it for a mounted file
    system. *)
Definition baddr blk (di : dinode) (n : Z) : Z :=
  if n <? NDIRECT then nthZ (di_addrs di) n
  else if ind di =? 0 then 0
  else get32 (blk (ind di)) (4 * Z.to_nat (n - NDIRECT)).

(** The sectors a file of [na] blocks takes, with its indirect block. *)
Definition cost (na : Z) : Z := na + Z.b2z (12 <? na).

(** [own b] is the file and the block of it that sector [b] holds, [-1] for the
    indirect block. *)
Definition owner : Type := Z -> option (Z * Z).

(** File [i] with inode [di] has [na] blocks, which hold [c] and then zeros;
    [h] says whether it has its indirect block. *)
Record holds_file blk (own : owner) (i : Z) (di : dinode) (na : Z) (h : bool) (c : list Z) : Prop := {
  hf_ok : dinode_ok di;
  hf_max : 0 <= na <= 140;
  hf_len : Z.of_nat (length c) <= 512 * na;
  hf_ind : ind di <> 0 <-> h = true;
  hf_h : 12 < na -> h = true;
  hf_ind_own : ind di <> 0 -> own (ind di) = Some (i, -1);
  hf_addr : forall n, 0 <= n < 140 -> baddr blk di n <> 0 <-> n < na;
  hf_own : forall n, 0 <= n < na -> own (baddr blk di n) = Some (i, n);
  hf_bytes : forall n k, 0 <= n < na -> 0 <= k < 512 -> nthZ (blk (baddr blk di n)) k = nthZ c (512 * n + k)
}.

(** The image: every sector is a block, those from [fb] on are untouched, and
    the sectors before that belong to at most one file each. *)
Record image_ok blk (own : owner) (fb : Z) : Prop := {
  mi_block : forall b, block_ok (blk b);
  mi_fb : nmeta <= fb <= FSSIZE;
  mi_zero : forall b, fb <= b -> blk b = zero_block;
  mi_own : forall b i n, own b = Some (i, n) -> nmeta <= b < fb
}.

Lemma baddr_same blk blk' di n : (12 <= n -> ind di <> 0 -> blk' (ind di) = blk (ind di)) -> baddr blk' di n = baddr blk di n.
Proof. intros H. unfold baddr, NDIRECT. destruct (Z.ltb_spec n 12); [done|]. destruct (Z.eqb_spec (ind di) 0); [done|]. by rewrite H. Qed.

(** The image after wsect. *)
Definition bput blk (a : Z) (v : list Z) : Z -> list Z := fun b => if b =? a then v else blk b.

Lemma bput_eq blk a v : bput blk a v a = v.
Proof. unfold bput. by rewrite Z.eqb_refl. Qed.
Lemma bput_ne blk a v b : b <> a -> bput blk a v b = blk b.
Proof. intros H. unfold bput. by destruct (Z.eqb_spec b a). Qed.

(** A file whose sectors are not written keeps its contents. *)
Lemma holds_frame blk blk' own own' i di na h c : (forall b n, own b = Some (i, n) -> blk' b = blk b) -> (forall b x, own b = Some x -> own' b = Some x) ->
  holds_file blk own i di na h c -> holds_file blk' own' i di na h c.
Proof.
  intros Hb Ho [H1 H2 H3 H4 H4' H5 H6 H7 H8]. assert (E : forall n, baddr blk' di n = baddr blk di n).
  { intros n. apply baddr_same. intros _ Hz. apply (Hb _ (-1)). auto. }
  split; try done.
  - intros Hz. apply Ho. auto.
  - intros n Hn. rewrite E. auto.
  - intros n Hn. rewrite E. auto.
  - intros n k Hn Hk. rewrite E, (Hb _ n) by auto. auto.
Qed.

(** Bytes put after the contents, inside the last block. *)
Lemma holds_append blk own i di na h c d x : holds_file blk own i di na h c -> x = baddr blk di (Z.of_nat (length c) / 512) -> Z.of_nat (length c) / 512 < na ->
  block_ok (blk x) -> Z.of_nat (length c) mod 512 + Z.of_nat (length d) <= 512 ->
  holds_file (bput blk x (splice (blk x) (Z.to_nat (Z.of_nat (length c) mod 512)) d)) own i di na h (c ++ d).
Proof.
  intros [H1 H2 H3 H4 H4' H5 H6 H7 H8] -> Hna [Hxl _] Hd. set (blk' := bput _ _ _). pose proof (Z.div_mod (Z.of_nat (length c)) 512 ltac:(lia)) as Hdm.
  pose proof (Z.mod_pos_bound (Z.of_nat (length c)) 512 ltac:(lia)) as Hmb. assert (Hq : 0 <= Z.of_nat (length c) / 512) by (apply Z.div_pos; lia).
  set (f := Z.of_nat (length c) / 512) in *. set (o := Z.of_nat (length c) mod 512) in *. set (x := baddr blk di f) in *.
  assert (Eind : ind di <> 0 -> blk' (ind di) = blk (ind di)).
  { intros Hz. unfold blk', bput. destruct (Z.eqb_spec (ind di) x) as [E|]; [|done]. exfalso. specialize (H5 Hz). rewrite E in H5. unfold x in H5. rewrite H7 in H5 by lia. injection H5 as H5. lia. }
  assert (E : forall n, baddr blk' di n = baddr blk di n) by (intros n; apply baddr_same; auto).
  split; try done.
  - rewrite length_app. lia.
  - intros n Hn. rewrite E. auto.
  - intros n Hn. rewrite E. auto.
  - intros n k Hn Hk. rewrite E. unfold blk', bput. destruct (Z.eqb_spec (baddr blk di n) x) as [Ex|Ex].
    + assert (n = f) as ->. { pose proof (H7 n Hn) as A1. rewrite Ex in A1. unfold x in A1. rewrite H7 in A1 by lia. by injection A1. }
      rewrite nthZ_splice by (unfold o in *; lia). specialize (H8 f k Hn Hk). fold x in H8. rewrite H8. unfold nthZ. case_decide as Hin.
      * rewrite app_nth2 by lia. f_equal. lia.
      * destruct (decide (k < o)); [by rewrite app_nth1 by lia|]. rewrite !nth_overflow; [done|rewrite length_app; lia|lia].
    + rewrite H8 by done. unfold nthZ. destruct (decide (512 * n + k < Z.of_nat (length c))); [by rewrite app_nth1 by lia|].
      assert (n <> f) by (intros ->; done). rewrite !nth_overflow; [done|rewrite length_app; lia|lia].
Qed.

(** ** Allocating a sector *)

Definition own_set (own : owner) (b : Z) (v : Z * Z) : owner := fun x => if x =? b then Some v else own x.

Lemma own_set_eq own b v : own_set own b v b = Some v.
Proof. unfold own_set. by rewrite Z.eqb_refl. Qed.

Lemma own_fresh blk own fb b x : image_ok blk own fb -> own b = Some x -> b <> fb.
Proof. intros Him Ho ->. destruct x. pose proof (mi_own _ _ _ Him _ _ _ Ho). lia. Qed.

Lemma own_set_old blk own fb v b x : image_ok blk own fb -> own b = Some x -> own_set own fb v b = Some x.
Proof. intros Him Ho. unfold own_set. destruct (Z.eqb_spec b fb); [|done]. by destruct (own_fresh _ _ _ _ _ Him Ho). Qed.

Lemma image_alloc blk own fb v : image_ok blk own fb -> fb < FSSIZE -> image_ok blk (own_set own fb v) (fb + 1).
Proof.
  intros [H1 H2 H3 H4] Hfb. split; [done|lia|intros; apply H3; lia|]. intros b i n. unfold own_set.
  destruct (Z.eqb_spec b fb) as [->|]; [lia|]. intros Ho. apply H4 in Ho. lia.
Qed.

Lemma fresh_pos blk own fb : image_ok blk own fb -> 0 < fb < 4294967296.
Proof. intros Him. pose proof (mi_fb _ _ _ Him) as H. unfold FSSIZE in H. assert (2 < nmeta) by (vm_compute; done). lia. Qed.

Lemma fresh_uint blk own fb : image_ok blk own fb -> uint_ok fb.
Proof. intros Him. apply fresh_pos in Him. unfold uint_ok. lia. Qed.

Lemma nthZ_zero k : nthZ zero_block k = 0.
Proof. unfold nthZ, zero_block. rewrite nth_lookup. destruct (_ !! _) eqn:E; [|done]. by apply lookup_replicate_1 in E as [-> _]. Qed.

Lemma nthZ_past (c : list Z) k : Z.of_nat (length c) <= k -> nthZ c k = 0.
Proof. intros. unfold nthZ. apply nth_overflow. lia. Qed.

Lemma baddr_set_lt blk di k a n : length (di_addrs di) = 13%nat -> 0 <= k < 12 -> 0 <= n ->
  baddr blk (set_addr k a di) n = if decide (n = k) then a else baddr blk di n.
Proof.
  intros Hl Hk Hn. unfold baddr, ind, NDIRECT. rewrite !nthZ_set_addr by lia. rewrite (decide_False (P := 12 = k)) by lia.
  destruct (Z.ltb_spec n 12); [done|]. by rewrite decide_False by lia.
Qed.

Lemma ind_set_lt di k a : length (di_addrs di) = 13%nat -> 0 <= k < 12 -> ind (set_addr k a di) = ind di.
Proof. intros Hl Hk. unfold ind, NDIRECT. rewrite nthZ_set_addr by lia. by rewrite decide_False by lia. Qed.

Lemma holds_direct blk own fb i di na h c : image_ok blk own fb -> holds_file blk own i di na h c -> na < 12 ->
  holds_file blk (own_set own fb (i, na)) i (set_addr na fb di) (na + 1) h c.
Proof.
  intros Him [H1 H2 H3 H4 H4' H5 H6 H7 H8] Hna. pose proof (fresh_pos _ _ _ Him) as Hp. pose proof (dk_len _ H1) as Hl.
  assert (Hnz : forall n, 0 <= n -> baddr blk (set_addr na fb di) n = if decide (n = na) then fb else baddr blk di n) by (intros; apply baddr_set_lt; lia || done).
  assert (Ei : ind (set_addr na fb di) = ind di) by (apply ind_set_lt; lia || done). split.
  - apply set_addr_ok; [done|]. unfold uint_ok. lia.
  - lia.
  - lia.
  - by rewrite Ei.
  - intros; lia.
  - rewrite Ei. intros Hz. by eapply own_set_old, H5.
  - intros n Hn. rewrite Hnz by lia. case_decide; [lia|]. rewrite H6 by done. lia.
  - intros n Hn. rewrite Hnz by lia. case_decide as E; [subst; apply own_set_eq|]. eapply own_set_old; [done|]. apply H7. lia.
  - intros n k Hn Hk. rewrite Hnz by lia. case_decide as E; [|apply H8; lia]. subst. rewrite (mi_zero _ _ _ Him), nthZ_zero, nthZ_past by lia. done.
Qed.

Lemma zero_entry k : get32 zero_block k = 0.
Proof.
  unfold get32, slice, zero_block. rewrite drop_replicate, take_replicate.
  generalize (4 `min` (512 - k))%nat. intros m. induction m as [|m IH]; [done|]. cbn [replicate le_val]. rewrite IH. done.
Qed.

Lemma ind_set_12 di a : length (di_addrs di) = 13%nat -> ind (set_addr 12 a di) = a.
Proof. intros Hl. unfold ind, NDIRECT. rewrite nthZ_set_addr by lia. by rewrite decide_True. Qed.

Lemma holds_indirect blk own fb i di na c : image_ok blk own fb -> holds_file blk own i di na false c ->
  holds_file blk (own_set own fb (i, -1)) i (set_addr 12 fb di) na true c.
Proof.
  intros Him [H1 H2 H3 H4 H4' H5 H6 H7 H8]. pose proof (fresh_pos _ _ _ Him) as Hp. pose proof (dk_len _ H1) as Hl.
  assert (Ei : ind (set_addr 12 fb di) = fb) by by apply ind_set_12. assert (Ez : ind di = 0) by (destruct (decide (ind di = 0)) as [|E]; [done|by apply H4 in E]).
  assert (Hnz : forall n, 0 <= n -> baddr blk (set_addr 12 fb di) n = baddr blk di n).
  { intros n Hn. unfold baddr, NDIRECT. rewrite Ei, Ez, nthZ_set_addr by (lia || done). destruct (Z.ltb_spec n 12); [by rewrite decide_False by lia|].
    cbn [Z.eqb]. destruct (Z.eqb_spec fb 0); [done|]. rewrite (mi_zero _ _ _ Him) by lia. apply zero_entry. }
  assert (Hle : na <= 12) by (destruct (decide (12 < na)) as [E|]; [by apply H4' in E|lia]). split.
  - apply set_addr_ok; [done|]. unfold uint_ok. lia.
  - lia.
  - lia.
  - rewrite Ei. split; [done|lia].
  - done.
  - rewrite Ei. intros _. apply own_set_eq.
  - intros n Hn. rewrite Hnz by lia. by apply H6.
  - intros n Hn. rewrite Hnz by lia. eapply own_set_old; [done|]. by apply H7.
  - intros n k Hn Hk. rewrite Hnz by lia. by apply H8.
Qed.

Lemma img_put blk own fb a v x : image_ok blk own fb -> own a = Some x -> block_ok v -> image_ok (bput blk a v) own fb.
Proof.
  intros [H1 H2 H3 H4] Ho Hv. destruct x as [i n]. apply H4 in Ho. split; [|done| |done].
  - intros b. unfold bput. destruct (b =? a); [done|apply H1].
  - intros b Hb. rewrite bput_ne by lia. by apply H3.
Qed.

Lemma put32_ok l off v : block_ok l -> (off + 4 <= 512)%nat -> block_ok (put32 l off v).
Proof. intros [Hl Hb] Ho. split; [rewrite length_put32; lia|]. apply Forall_splice; [done|apply le_bytes_ok]. Qed.

Lemma holds_entry blk own fb i di na c : image_ok blk own fb -> holds_file blk own i di na true c -> 12 <= na < 140 ->
  holds_file (bput blk (ind di) (put32 (blk (ind di)) (4 * Z.to_nat (na - 12)) fb)) (own_set own fb (i, na)) i di (na + 1) true c.
Proof.
  intros Him [H1 H2 H3 H4 H4' H5 H6 H7 H8] Hna. pose proof (fresh_pos _ _ _ Him) as Hp.
  assert (Hz : ind di <> 0) by by apply H4. specialize (H5 Hz). pose proof (mi_block _ _ _ Him (ind di)) as [Hl _].
  set (blk' := bput _ _ _). assert (Hnz : forall n, 0 <= n < 140 -> baddr blk' di n = if decide (n = na) then fb else baddr blk di n).
  { intros n Hn. unfold baddr, NDIRECT. destruct (Z.ltb_spec n 12); [by rewrite decide_False by lia|]. destruct (Z.eqb_spec (ind di) 0); [done|].
    unfold blk'. rewrite bput_eq. case_decide as E.
    - subst. rewrite get32_put32_eq by lia. apply u32_id. lia.
    - apply get32_put32_ne; lia. }
  split; try done; try lia.
  - intros _. by eapply own_set_old.
  - intros n Hn. rewrite Hnz by lia. case_decide; [lia|]. rewrite H6 by done. lia.
  - intros n Hn. rewrite Hnz by lia. case_decide as E; [subst; apply own_set_eq|]. eapply own_set_old; [done|]. apply H7. lia.
  - intros n k Hn Hk. rewrite Hnz by lia. assert (Hni : forall b, own b <> Some (i, -1) -> blk' b = blk b) by (intros b Hb; apply bput_ne; intros ->; done).
    case_decide as E.
    + subst. rewrite Hni, (mi_zero _ _ _ Him), nthZ_zero, nthZ_past by (lia || (intros E; by destruct (own_fresh _ _ _ _ _ Him E))). done.
    + rewrite Hni by (rewrite H7 by lia; intros [=]; lia). apply H8; lia.
Qed.

Lemma entry_addr blk own fb i di na c : image_ok blk own fb -> holds_file blk own i di na true c -> uint_ok fb -> 12 <= na < 140 ->
  baddr (bput blk (ind di) (put32 (blk (ind di)) (4 * Z.to_nat (na - 12)) fb)) di na = fb.
Proof.
  intros Him Hf Hu Hna. pose proof (mi_block _ _ _ Him (ind di)) as [Hl _]. unfold baddr, NDIRECT. destruct (Z.ltb_spec na 12); [lia|].
  rewrite (proj2 (Z.eqb_neq _ _) (proj2 (hf_ind _ _ _ _ _ _ _ Hf) eq_refl)), bput_eq, get32_put32_eq by lia. by apply u32_id.
Qed.

(** ** Files next to the one that grows *)

(** Between two images only file [i] gets sectors, and only its sectors are
    written. *)
Record later (i : Z) blk (own : owner) blk' (own' : owner) : Prop := {
  lt_own : forall b x, own b = Some x -> own' b = Some x;
  lt_new : forall b j n, own' b = Some (j, n) -> j <> i -> own b = Some (j, n);
  lt_blk : forall b, (forall n, own' b <> Some (i, n)) -> blk' b = blk b
}.

Lemma later_refl i blk own : later i blk own blk own.
Proof. by split. Qed.

Lemma later_trans i blk own blk1 own1 blk2 own2 : later i blk own blk1 own1 -> later i blk1 own1 blk2 own2 -> later i blk own blk2 own2.
Proof.
  intros [A1 A2 A3] [B1 B2 B3]. split; [auto|auto|]. intros b Hb. rewrite B3 by done. apply A3. intros n Hn. by eapply Hb, B1.
Qed.

Lemma later_alloc i blk own fb n : image_ok blk own fb -> later i blk own blk (own_set own fb (i, n)).
Proof.
  intros Him. split; [intros; by eapply own_set_old| |done]. intros b j m. unfold own_set. destruct (b =? fb); [|done]. intros [=]. done.
Qed.

Lemma later_put i blk own a v n : own a = Some (i, n) -> later i blk own (bput blk a v) own.
Proof. intros Ho. split; [done|done|]. intros b Hb. apply bput_ne. intros ->. by eapply Hb. Qed.

(** Another file is as it was. *)
Lemma later_holds i j blk own blk' own' di na h c : later i blk own blk' own' -> j <> i -> holds_file blk own j di na h c -> holds_file blk' own' j di na h c.
Proof.
  intros [H1 H2 H3] Hne Hh. eapply holds_frame; [|done|done]. intros b n Ho. apply H3. intros m Hm. apply H1 in Ho. congruence.
Qed.

(** So are the sectors of the file system's own structures. *)
Lemma later_meta i blk own blk' own' fb b : later i blk own blk' own' -> image_ok blk' own' fb -> b < nmeta -> blk' b = blk b.
Proof. intros Hlt Him Hb. apply (lt_blk _ _ _ _ _ Hlt). intros n Ho. apply (mi_own _ _ _ Him) in Ho. lia. Qed.
End Image.

(** ** iappend *)

(** The image file is laid out and the counter is its first free sector. *)
Record built (st : mk) (own : owner) : Prop := {
  bd_img : image_ok (m_img st) own (m_freeblock st);
  bd_size : m_size st = FSSIZE
}.

(** What an inode holds besides its addresses. *)
Definition di_meta (di : dinode) : Z * Z * Z * Z * Z := (di_type di, di_major di, di_minor di, di_nlink di, di_size di).

(** File [i] has got from [na] blocks to [na'], and from [c] to [c']. *)
Record grown (i : Z) (st : mk) (own : owner) (di : dinode) (na : Z) (h : bool)
    (st' : mk) (own' : owner) (di' : dinode) (na' : Z) (h' : bool) (c' : list Z) : Prop := {
  gr_built : built st' own';
  gr_later : later i (m_img st) own (m_img st') own';
  gr_inode : m_freeinode st' = m_freeinode st;
  gr_free : m_freeblock st' = m_freeblock st + (na' + Z.b2z h') - (na + Z.b2z h);
  gr_meta : di_meta di' = di_meta di;
  gr_holds : holds_file (m_img st') own' i di' na' h' c'
}.

Lemma fgrown_trans i st own di na h st1 own1 di1 na1 h1 c1 st2 own2 di2 na2 h2 c2 :
  grown i st own di na h st1 own1 di1 na1 h1 c1 -> grown i st1 own1 di1 na1 h1 st2 own2 di2 na2 h2 c2 ->
  grown i st own di na h st2 own2 di2 na2 h2 c2.
Proof. intros [A1 A2 A3 A4 A5 A6] [B1 B2 B3 B4 B5 B6]. split; [done|by eapply later_trans|congruence|lia|congruence|done]. Qed.

Lemma xint_id x : uint_ok x -> xint x = x.
Proof. intros H. unfold xint. rewrite le_val_bytes. by apply u32_id. Qed.

Section Append.
Context (i : Z) (st : mk) (own : owner) (di : dinode) (na : Z) (h : bool) (c : list Z).
Hypothesis Hb : built st own.
Hypothesis Hf : holds_file (m_img st) own i di na h c.

Lemma fgrown_refl : grown i st own di na h st own di na h c.
Proof. split; [done|apply later_refl|done|lia|done|done]. Qed.

(** The state after freeblock++. *)
Definition bumped : mk := mkmk (m_img st) (m_size st) (m_freeinode st) (m_freeblock st + 1).

Lemma next_block_eq : next_block st = Done (m_freeblock st) bumped.
Proof.
  pose proof (fresh_pos _ _ _ (bd_img _ _ Hb)). pose proof (mi_fb _ _ _ (bd_img _ _ Hb)). unfold FSSIZE in *.
  unfold next_block, bumped. by rewrite u32_id by lia.
Qed.

Lemma bumped_built v : m_freeblock st < FSSIZE -> built bumped (own_set own (m_freeblock st) v).
Proof. intros Hlt. split; [|apply Hb]. apply image_alloc; [apply Hb|done]. Qed.

Lemma grown_direct : m_freeblock st < FSSIZE -> na < 12 ->
  grown i st own di na h bumped (own_set own (m_freeblock st) (i, na)) (set_addr na (m_freeblock st) di) (na + 1) h c.
Proof.
  intros Hlt Hna. split; [by apply bumped_built|eapply later_alloc, Hb|done|cbn [bumped m_freeblock]; lia|done|].
  eapply holds_direct; [apply Hb|done|done].
Qed.

Lemma grown_indirect : m_freeblock st < FSSIZE -> h = false ->
  grown i st own di na h bumped (own_set own (m_freeblock st) (i, -1)) (set_addr 12 (m_freeblock st) di) na true c.
Proof.
  intros Hlt ->. split; [by apply bumped_built|eapply later_alloc, Hb|done|cbn [bumped m_freeblock Z.b2z]; lia|done|].
  eapply holds_indirect; [apply Hb|done].
Qed.

(** The state after the indirect block has been written back as well. *)
Definition entered : mk :=
  mkmk (bput (m_img st) (ind di) (put32 (m_img st (ind di)) (4 * Z.to_nat (na - 12)) (m_freeblock st))) FSSIZE (m_freeinode st) (m_freeblock st + 1).

Lemma grown_entry : m_freeblock st < FSSIZE -> h = true -> 12 <= na < 140 ->
  grown i st own di na h entered (own_set own (m_freeblock st) (i, na)) di (na + 1) true c.
Proof.
  intros Hlt -> Hna. assert (Ho : own_set own (m_freeblock st) (i, na) (ind di) = Some (i, -1)).
  { eapply own_set_old; [apply Hb|]. apply (hf_ind_own _ _ _ _ _ _ _ Hf). by apply (hf_ind _ _ _ _ _ _ _ Hf). }
  split.
  - split; [|done]. eapply img_put; [apply image_alloc; [apply Hb|done]|exact Ho|]. apply put32_ok; [apply (bd_img _ _ Hb)|lia].
  - eapply later_trans; [eapply later_alloc, Hb|]. by eapply later_put.
  - done.
  - cbn [entered m_freeblock Z.b2z]. lia.
  - done.
  - eapply holds_entry; [apply Hb|done|done].
Qed.
End Append.

Section Block.
Context (i : Z) (st : mk) (own : owner) (di : dinode) (na : Z) (h : bool) (c : list Z).
Hypothesis Hb : built st own.
Hypothesis Hf : holds_file (m_img st) own i di na h c.

Lemma owned_lt b x : own b = Some x -> 0 < b < FSSIZE /\ b <? m_size st = true.
Proof.
  destruct x as [j n]. intros Ho. apply (mi_own _ _ _ (bd_img _ _ Hb)) in Ho. pose proof (mi_fb _ _ _ (bd_img _ _ Hb)).
  assert (2 < nmeta) by (vm_compute; done). rewrite (bd_size _ _ Hb). split; [lia|]. apply Z.ltb_lt. lia.
Qed.

Lemma owned_xint b x : own b = Some x -> xint b = b.
Proof. intros Ho. apply owned_lt in Ho as [Ho _]. apply xint_id. unfold uint_ok, FSSIZE in *. lia. Qed.

Lemma rsect_owned b x : own b = Some x -> rsect b st = Done (m_img st b) st.
Proof. intros Ho. unfold rsect, bind, get. by rewrite (proj2 (owned_lt _ _ Ho)). Qed.

(** The block is there. *)
Lemma append_there fbn : 0 <= fbn < na -> append_block di fbn st = Done (di, baddr (m_img st) di fbn) st.
Proof.
  intros Hn. pose proof (hf_own _ _ _ _ _ _ _ Hf fbn Hn) as Ho. pose proof (owned_lt _ _ Ho) as [Hp _]. pose proof (owned_xint _ _ Ho) as Hx.
  unfold append_block. unfold baddr in *. unfold NDIRECT in *. destruct (Z.ltb_spec fbn 12) as [Hd|Hd].
  - rewrite Hx. by destruct (Z.eqb_spec (nthZ (di_addrs di) fbn) 0); [lia|].
  - destruct (Z.eqb_spec (ind di) 0) as [|Hi]; [lia|]. pose proof (hf_ind_own _ _ _ _ _ _ _ Hf Hi) as Hio.
    change (nthZ (di_addrs di) 12) with (ind di). rewrite (owned_xint _ _ Hio). rewrite (proj2 (Z.eqb_neq _ _) Hi). unfold bind at 1, ret at 1. change (nthZ (di_addrs di) 12) with (ind di). rewrite (owned_xint _ _ Hio).
    unfold bind. rewrite (rsect_owned _ _ Hio), (proj2 (Z.eqb_neq _ 0)) by lia. by rewrite Hx.
Qed.

Lemma append_direct : m_freeblock st < FSSIZE -> na < 12 ->
  append_block di na st = Done (set_addr na (m_freeblock st) di, m_freeblock st) (bumped st).
Proof.
  intros Hlt Hna. pose proof (fresh_uint _ _ _ (bd_img _ _ Hb)) as Hp. pose proof (hf_max _ _ _ _ _ _ _ Hf) as Hmx.
  assert (Hz : nthZ (di_addrs di) na = 0).
  { pose proof (hf_addr _ _ _ _ _ _ _ Hf na ltac:(lia)) as Ha. unfold baddr, NDIRECT in Ha. destruct (Z.ltb_spec na 12); lia. }
  unfold append_block, NDIRECT. rewrite (proj2 (Z.ltb_lt na 12) Hna), Hz. change (xint 0 =? 0) with true. cbv iota. unfold bind. rewrite (next_block_eq st own Hb).
  rewrite !(xint_id (m_freeblock st)) by done. rewrite nthZ_set_addr by (lia || apply (hf_ok _ _ _ _ _ _ _ Hf)). rewrite decide_True by done. by rewrite (xint_id (m_freeblock st)).
Qed.

(** The indirect block is there and gets an entry. *)
Lemma append_entry : m_freeblock st < FSSIZE -> h = true -> 12 <= na < 140 ->
  append_block di na st = Done (di, m_freeblock st) (entered st di na).
Proof.
  intros Hlt -> Hna. pose proof (fresh_uint _ _ _ (bd_img _ _ Hb)) as Hp. assert (Hi : ind di <> 0) by by apply (hf_ind _ _ _ _ _ _ _ Hf).
  pose proof (hf_ind_own _ _ _ _ _ _ _ Hf Hi) as Hio. pose proof (owned_lt _ _ Hio) as [Hir _]. pose proof (mi_block _ _ _ (bd_img _ _ Hb) (ind di)) as [Hl _].
  assert (Hz : get32 (m_img st (ind di)) (4 * Z.to_nat (na - 12)) = 0).
  { pose proof (hf_addr _ _ _ _ _ _ _ Hf na ltac:(lia)) as Ha. unfold baddr, NDIRECT in Ha. destruct (Z.ltb_spec na 12); [lia|]. destruct (Z.eqb_spec (ind di) 0); [done|lia]. }
  unfold append_block, NDIRECT. rewrite (proj2 (Z.ltb_ge na 12)) by lia. change (nthZ (di_addrs di) 12) with (ind di). rewrite (owned_xint _ _ Hio), (proj2 (Z.eqb_neq _ _) Hi).
  unfold bind at 1, ret at 1. change (nthZ (di_addrs di) 12) with (ind di). rewrite (owned_xint _ _ Hio). unfold bind. rewrite (rsect_owned _ _ Hio), Hz.
  cbn [Z.eqb]. rewrite (next_block_eq st own Hb). rewrite (xint_id (m_freeblock st)) by done. rewrite get32_put32_eq by lia. rewrite u32_id by exact Hp. rewrite xint_id by done.
  unfold wsect, modify, entered, ret, bput, bumped. cbn [m_img m_size m_freeinode m_freeblock]. rewrite (bd_size _ _ Hb), Z.max_l by lia. done.
Qed.

(** The indirect block is allocated and the rest runs as if it had been
    there. *)
Lemma append_indirect : m_freeblock st < FSSIZE -> h = false -> 12 <= na < 140 ->
  append_block di na st = append_block (set_addr 12 (m_freeblock st) di) na (bumped st).
Proof.
  intros Hlt -> Hna. pose proof (fresh_uint _ _ _ (bd_img _ _ Hb)) as Hu. pose proof (fresh_pos _ _ _ (bd_img _ _ Hb)) as Hp.
  assert (Hz : ind di = 0) by (destruct (decide (ind di = 0)) as [|E]; [done|by apply (hf_ind _ _ _ _ _ _ _ Hf) in E]).
  assert (Hi : nthZ (di_addrs (set_addr 12 (m_freeblock st) di)) 12 = m_freeblock st) by (apply ind_set_12, (hf_ok _ _ _ _ _ _ _ Hf)).
  unfold append_block, NDIRECT. rewrite (proj2 (Z.ltb_ge na 12)) by lia. change (nthZ (di_addrs di) 12) with (ind di). rewrite Hz, Hi.
  change (xint 0 =? 0) with true. rewrite (xint_id (m_freeblock st)) by done. rewrite (proj2 (Z.eqb_neq (m_freeblock st) 0)) by lia.
  unfold bind. rewrite (next_block_eq st own Hb).
  by rewrite !(xint_id (m_freeblock st)).
Qed.
End Block.

(** The whole of the allocation, by case. *)
Lemma append_block_spec i st own di na c fbn : built st own -> holds_file (m_img st) own i di na (12 <? na) c -> 0 <= fbn <= na -> fbn < 140 ->
  m_freeblock st + cost (Z.max na (fbn + 1)) - cost na <= FSSIZE ->
  runs (append_block di fbn) st (fun r st' => exists own', snd r = baddr (m_img st') (fst r) fbn /\
    grown i st own di na (12 <? na) st' own' (fst r) (Z.max na (fbn + 1)) (12 <? Z.max na (fbn + 1)) c).
Proof.
  intros Hb Hf Hn Hm Hfree. unfold cost in Hfree. apply runs_done. destruct (decide (fbn < na)) as [Hlt|Hge].
  { rewrite (append_there i st own di na (12 <? na) c) by (done || lia). do 2 eexists. split; [done|]. exists own.
    rewrite Z.max_l by lia. split; [done|]. by apply fgrown_refl. }
  assert (fbn = na) as -> by lia. rewrite Z.max_r in * by lia. pose proof (fresh_uint _ _ _ (bd_img _ _ Hb)) as Hp. destruct (decide (na < 12)) as [Hd|Hd].
  { rewrite (proj2 (Z.ltb_ge 12 na)), (proj2 (Z.ltb_ge 12 (na + 1))) in * by lia. cbn [Z.b2z] in Hfree. rewrite (append_direct i st own di na false c) by (done || lia).
    do 2 eexists. split; [done|]. eexists. split; [|apply (grown_direct i st own di na false c); done || lia].
    cbn [fst snd]. rewrite baddr_set_lt by (lia || apply (hf_ok _ _ _ _ _ _ _ Hf)). by rewrite decide_True. }
  rewrite (proj2 (Z.ltb_lt 12 (na + 1))) in * by lia. assert (Hentry : forall st1 own1 di1, built st1 own1 -> m_freeblock st1 < FSSIZE ->
    holds_file (m_img st1) own1 i di1 na true c -> grown i st own di na (12 <? na) st1 own1 di1 na true c ->
    exists a s', append_block di1 na st1 = Done a s' /\ exists own', snd a = baddr (m_img s') (fst a) na /\ grown i st own di na (12 <? na) s' own' (fst a) (na + 1) true c).
  { intros st1 own1 di1 Hb1 Hlt1 Hf1 Hg1. rewrite (append_entry i st1 own1 di1 na true c) by (done || lia). do 2 eexists. split; [done|].
    eexists. split; [|eapply fgrown_trans; [done|]; apply (grown_entry i st1 own1 di1 na true c); done || lia]. cbn [fst snd entered m_img].
    symmetry. eapply entry_addr; [apply Hb1|done|apply (fresh_uint _ _ _ (bd_img _ _ Hb1))|lia]. }
  destruct (decide (na = 12)) as [->|].
  - change (12 <? 12) with false in *. cbn [Z.b2z] in Hfree. rewrite (append_indirect i st own di 12 false c) by (done || lia).
    pose proof (grown_indirect i st own di 12 false c Hb Hf ltac:(lia) eq_refl) as Hg. apply (Hentry _ _ _ (gr_built _ _ _ _ _ _ _ _ _ _ _ _ Hg)); [cbn; lia|apply Hg|done].
  - rewrite (proj2 (Z.ltb_lt 12 na)) in * by lia. cbn [Z.b2z] in Hfree. apply (Hentry st own di); [done|lia|done|]. by apply fgrown_refl.
Qed.

(** The blocks of a file of [l] bytes. *)
Definition nblk_of (l : nat) : Z := (Z.of_nat l + 511) / 512.

Lemma nblk_split (c : list Z) : let sz := Z.of_nat (length c) in
  0 <= sz / 512 <= nblk_of (length c) /\ (0 < sz mod 512 -> nblk_of (length c) = sz / 512 + 1) /\ (sz mod 512 = 0 -> nblk_of (length c) = sz / 512).
Proof.
  intros sz. unfold nblk_of. fold sz. pose proof (Z.div_mod sz 512 ltac:(lia)) as H. pose proof (Z.mod_pos_bound sz 512 ltac:(lia)).
  assert (0 <= sz) by lia. Z.to_euclidean_division_equations. lia.
Qed.

(** One round of the loop. *)
Lemma append_round i st own di c d : built st own -> holds_file (m_img st) own i di (nblk_of (length c)) (12 <? nblk_of (length c)) c ->
  (0 < length d)%nat -> Forall byte_ok d -> Z.of_nat (length c) mod 512 + Z.of_nat (length d) <= 512 -> Z.of_nat (length c) / 512 < 140 ->
  m_freeblock st + cost (nblk_of (length (c ++ d))) - cost (nblk_of (length c)) <= FSSIZE ->
  runs (r <- append_block di (Z.of_nat (length c) / 512) ;; buf <- rsect (snd r) ;;
        wsect (snd r) (splice buf (Z.to_nat (Z.of_nat (length c) mod 512)) d) ;;; ret (fst r)) st
    (fun di' st' => exists own', grown i st own di (nblk_of (length c)) (12 <? nblk_of (length c)) st' own' di' (nblk_of (length (c ++ d))) (12 <? nblk_of (length (c ++ d))) (c ++ d)).
Proof.
  intros Hb Hf Hd Hdb Hfit Hmax Hfree. pose proof (nblk_split c) as (Hq & Hpart & Hfull). pose proof (Z.mod_pos_bound (Z.of_nat (length c)) 512 ltac:(lia)) as Hmb.
  assert (En : nblk_of (length (c ++ d)) = Z.max (nblk_of (length c)) (Z.of_nat (length c) / 512 + 1)).
  { pose proof (Z.div_mod (Z.of_nat (length c)) 512 ltac:(lia)). replace (nblk_of (length (c ++ d))) with (Z.of_nat (length c) / 512 + 1); [lia|].
    unfold nblk_of. rewrite length_app. apply Z.div_unique with (Z.of_nat (length c) mod 512 + Z.of_nat (length d) - 1); lia. }
  rewrite En in *. eapply runs_seq; [apply (append_block_spec i st own di (nblk_of (length c)) c); done || lia|]. intros [di1 x] st1 (own1 & Hx & Hg). cbn [fst snd] in *. subst x.
  pose proof (gr_holds _ _ _ _ _ _ _ _ _ _ _ _ Hg) as Hf1. pose proof (gr_built _ _ _ _ _ _ _ _ _ _ _ _ Hg) as Hb1.
  pose proof (hf_own _ _ _ _ _ _ _ Hf1 (Z.of_nat (length c) / 512) ltac:(lia)) as Ho. pose proof (mi_block _ _ _ (bd_img _ _ Hb1)) as Hbk.
  set (x := baddr _ _ _) in *. apply runs_done. unfold bind. rewrite (rsect_owned st1 own1 Hb1 _ _ Ho). unfold wsect, modify, ret. do 2 eexists. split; [done|].
  exists own1. eapply fgrown_trans; [exact Hg|]. pose proof (owned_lt st1 own1 Hb1 _ _ Ho) as [Hlt _]. split.
  - split; [|cbn [m_size]; rewrite (bd_size _ _ Hb1); lia]. cbn [m_img m_freeblock]. destruct (Hbk x) as [Hl Hbx]. eapply (img_put (m_img st1)); [apply Hb1|done|].
    split; [rewrite length_splice; lia|by apply Forall_splice].
  - eapply (later_put i (m_img st1)), Ho.
  - done.
  - cbn [m_freeblock]. lia.
  - done.
  - apply (holds_append (m_img st1)); [done|done|lia|apply Hbk|done].
Qed.

Lemma cost_mono a b : (a <= b)%nat -> cost (nblk_of a) <= cost (nblk_of b).
Proof.
  intros H. unfold cost. assert (nblk_of a <= nblk_of b) by (unfold nblk_of; apply Z.div_le_mono; lia).
  destruct (Z.ltb_spec 12 (nblk_of a)), (Z.ltb_spec 12 (nblk_of b)); cbn; lia.
Qed.

Lemma runs_round {S A B C D E} (m1 : M S A) (m2 : A -> M S B) (m3 : A -> B -> M S C) (f : A -> D) (k : D -> M S E) s P Q :
  runs (a <- m1 ;; b <- m2 a ;; m3 a b ;;; ret (f a)) s P -> (forall d s', P d s' -> runs (k d) s' Q) ->
  runs (a <- m1 ;; b <- m2 a ;; m3 a b ;;; k (f a)) s Q.
Proof.
  unfold runs, bind, ret. destruct (m1 s) as [a s1| |]; [|done|done]. destruct (m2 a s1) as [b s2| |]; [|done|done].
  destruct (m3 a b s2) as [? s3| |]; [|done|done]. intros H Hk. exact (Hk _ _ H).
Qed.

(** The loop appends all of [p]. *)
Lemma iappend_loop_spec i fuel : forall st own di c p, (length p <= fuel)%nat -> built st own ->
  holds_file (m_img st) own i di (nblk_of (length c)) (12 <? nblk_of (length c)) c -> Forall byte_ok p -> Z.of_nat (length (c ++ p)) <= 71680 ->
  m_freeblock st + cost (nblk_of (length (c ++ p))) - cost (nblk_of (length c)) <= FSSIZE ->
  runs (iappend_loop fuel di (Z.of_nat (length c)) p) st (fun r st' => snd r = Z.of_nat (length (c ++ p)) /\
    exists own', grown i st own di (nblk_of (length c)) (12 <? nblk_of (length c)) st' own' (fst r) (nblk_of (length (c ++ p))) (12 <? nblk_of (length (c ++ p))) (c ++ p)).
Proof.
  induction fuel as [|fuel IH]; intros st own di c p Hlen Hb Hf Hp Hmax Hfree.
  { destruct p; [|cbn in Hlen; lia]. rewrite app_nil_r in *. apply runs_ret. split; [done|]. exists own. by apply fgrown_refl. }
  cbn [iappend_loop]. destruct (Nat.ltb_spec 0 (length p)) as [Hp0|]; [|destruct p; [|cbn in *; lia]; rewrite app_nil_r in *; apply runs_ret; split; [done|]; exists own; by apply fgrown_refl].
  change BSIZE with 512. change MAXFILE with 140. rewrite length_app in Hmax. pose proof (Z.div_mod (Z.of_nat (length c)) 512 ltac:(lia)) as Hdm.
  pose proof (Z.mod_pos_bound (Z.of_nat (length c)) 512 ltac:(lia)) as Hmb. set (f := Z.of_nat (length c) / 512) in *. set (o := Z.of_nat (length c) mod 512) in *.
  rewrite (proj2 (Z.ltb_lt f 140)) by lia. cbn [negb]. replace (Z.of_nat (length c) - f * 512) with o by lia.
  set (n1 := Z.min (Z.of_nat (length p)) ((f + 1) * 512 - Z.of_nat (length c))). set (d := take (Z.to_nat n1) p).
  assert (Hd : Z.of_nat (length d) = n1) by (unfold d; rewrite length_take; lia). rewrite <- (take_drop (Z.to_nat n1) p) in Hfree |- *. fold d in Hfree |- *.
  rewrite drop_app_length' by lia. rewrite (app_assoc c) in Hfree |- *.
  pose proof (cost_mono (length (c ++ d)) (length ((c ++ d) ++ drop (Z.to_nat n1) p)) ltac:(rewrite !length_app; lia)) as Hmono.
  eapply (runs_round (append_block di f) (fun r => rsect (snd r)) (fun r buf => wsect (snd r) (splice buf (Z.to_nat o) d)) fst (fun di' => iappend_loop fuel di' _ _));
    [apply (append_round i st own di c d); try done; try (unfold o in *; lia); by apply Forall_take|]. intros di1 st1 (own1 & Hg).
  replace (Z.of_nat (length c) + n1) with (Z.of_nat (length (c ++ d))) by (rewrite length_app; lia).
  pose proof (gr_free _ _ _ _ _ _ _ _ _ _ _ _ Hg) as Hfr. eapply runs_mono; [apply (IH st1 own1 di1 (c ++ d)); try apply Hg|].
  - rewrite length_drop. lia.
  - by apply Forall_drop.
  - rewrite !length_app, length_drop. lia.
  - unfold cost in *. lia.
  - intros r st2 (-> & own2 & Hg2). split; [done|]. exists own2. by eapply fgrown_trans.
Qed.
