(* ===== verification/MkfsImage.v ===== *)
(** * What mkfs leaves on the disk

    The files mkfs was given are on the image it builds, under the inode
    numbers it gave them, and the kernel's file system mounts the image. *)

From S2P Require Import Prelude.
From S2P Require Import Params.
From S2P Require Import Cstr.
From S2P Require Import Fsfmt.
From S2P Require Import Txn.
From S2P Require Import Fs.
From S2P Require Import FsBlock.
From S2P Require Import FsInode.
From S2P Require Import FsFile.
From S2P Require Import Mkfs.
From S2P Require Import MkfsSpec.

(** ** The inode table *)

Lemma IBLOCK_mk n : 0 <= n < NINODES -> IBLOCK n mk_sb = n / 8 + 32 /\ 32 <= IBLOCK n mk_sb < 58.
Proof.
  intros Hn. unfold NINODES in Hn. unfold IBLOCK, IPB. change (sb_inodestart mk_sb) with 32.
  assert (0 <= n / 8 < 25) by (split; [apply Z.div_pos; lia|apply Z.div_lt_upper_bound; lia]). rewrite u32_id; lia.
Qed.

Definition inode_of (blk : Z -> list Z) (n : Z) : dinode := dinode_get (blk (IBLOCK n mk_sb)) n.

(** The image after winode. *)
Definition iput_blk (blk : Z -> list Z) (n : Z) (di : dinode) : Z -> list Z := bput blk (IBLOCK n mk_sb) (dinode_put (blk (IBLOCK n mk_sb)) n di).

Lemma inode_of_put blk n di : (forall b, block_ok (blk b)) -> dinode_ok di -> inode_of (iput_blk blk n di) n = di.
Proof. intros Hb Hd. unfold inode_of, iput_blk. rewrite bput_eq. by apply dinode_get_put. Qed.

Lemma inode_of_put_ne blk n di m : (forall b, block_ok (blk b)) -> dinode_ok di -> 0 <= n < NINODES -> 0 <= m < NINODES -> m <> n ->
  inode_of (iput_blk blk n di) m = inode_of blk m.
Proof.
  intros Hb Hd Hn Hm Hne. unfold inode_of, iput_blk. destruct (decide (IBLOCK m mk_sb = IBLOCK n mk_sb)) as [E|E]; [|by rewrite bput_ne].
  rewrite E, bput_eq. apply dinode_get_put_ne; [done|apply Hd|]. destruct (IBLOCK_mk n Hn) as [E1 _], (IBLOCK_mk m Hm) as [E2 _].
  unfold IPB. pose proof (Z.div_mod n 8 ltac:(lia)). pose proof (Z.div_mod m 8 ltac:(lia)). lia.
Qed.

Lemma meta_free blk own fb b x : image_ok blk own fb -> own b = Some x -> 59 <= b.
Proof. intros Him Ho. destruct x. apply (mi_own _ _ _ Him) in Ho. change nmeta with 59 in Ho. lia. Qed.

(** A write below the data blocks changes no file. *)
Lemma holds_meta blk own fb a v i di na h c : image_ok blk own fb -> a < 59 -> holds_file blk own i di na h c -> holds_file (bput blk a v) own i di na h c.
Proof. intros Him Ha. apply holds_frame; [|done]. intros b n Ho. apply (meta_free _ _ _ _ _ Him) in Ho. apply bput_ne. lia. Qed.

Lemma image_meta blk own fb a v : image_ok blk own fb -> a < 59 -> block_ok v -> image_ok (bput blk a v) own fb.
Proof.
  intros Him Ha Hv. pose proof (mi_fb _ _ _ Him) as Hfb. change nmeta with 59 in Hfb. destruct Him as [H1 H2 H3 H4]. split; [|done| |done].
  - intros b. unfold bput. destruct (b =? a); [done|apply H1].
  - intros b Hb. rewrite bput_ne by lia. by apply H3.
Qed.

(** ** The image under construction *)

(** The sectors the files take. *)
Definition total (fl : list (Z * list Z)) : Z := foldr (fun f a => cost (nblk_of (length (snd f))) + a) 0 fl.

(** The image holds the files [fl], each a type and its contents; the first
    has inode number 1. *)
Record image (st : mk) (own : owner) (fl : list (Z * list Z)) : Prop := {
  ig_built : built st own;
  ig_next : m_freeinode st = Z.of_nat (length fl) + 1;
  ig_few : Z.of_nat (length fl) < NINODES;
  ig_free : m_freeblock st = nmeta + total fl;
  ig_sb : m_img st 1 = splice zero_block 0 (sb_bytes mk_sb);
  ig_log : forall b, 2 <= b < 32 -> m_img st b = zero_block;
  ig_file : forall k ty c, fl !! k = Some (ty, c) -> let i := Z.of_nat k + 1 in
    di_meta (inode_of (m_img st) i) = (ty, 0, 0, 1, Z.of_nat (length c)) /\
    holds_file (m_img st) own i (inode_of (m_img st) i) (nblk_of (length c)) (12 <? nblk_of (length c)) c;
  ig_rest : forall i, Z.of_nat (length fl) < i < NINODES -> di_type (inode_of (m_img st) i) = 0
}.

Lemma fl_total_cons f fl : total (f :: fl) = cost (nblk_of (length (snd f))) + total fl.
Proof. done. Qed.

Lemma total_insert fl k x y : fl !! k = Some x -> total (<[k := y]> fl) = total fl - cost (nblk_of (length (snd x))) + cost (nblk_of (length (snd y))).
Proof.
  revert k. induction fl as [|f fl IH]; intros [|k] H; cbn in H; [done|done| |].
  - injection H as ->. change (<[0%nat := y]> (x :: fl)) with (y :: fl). rewrite !fl_total_cons. lia.
  - change (<[S k := y]> (f :: fl)) with (f :: <[k := y]> fl). rewrite !fl_total_cons, (IH k H). lia.
Qed.

Lemma fl_total_app fl fl' : total (fl ++ fl') = total fl + total fl'.
Proof. induction fl as [|f fl IH]; [done|]. cbn [app]. rewrite !fl_total_cons, IH. lia. Qed.

Lemma cost_pos n : 0 <= cost (nblk_of n).
Proof. pose proof (cost_mono 0 n ltac:(lia)) as H. done. Qed.

Lemma total_pos fl : 0 <= total fl.
Proof. induction fl as [|f fl IH]; [done|]. rewrite fl_total_cons. pose proof (cost_pos (length (snd f))). lia. Qed.

Lemma rsect_lt st own b : built st own -> b < FSSIZE -> rsect b st = Done (m_img st b) st.
Proof. intros Hb Hlt. unfold rsect, bind, get. rewrite (bd_size _ _ Hb). by rewrite (proj2 (Z.ltb_lt _ _) Hlt). Qed.

Lemma wsect_lt st own b d : built st own -> b < FSSIZE -> wsect b d st = Done tt (mkmk (bput (m_img st) b d) FSSIZE (m_freeinode st) (m_freeblock st)).
Proof. intros Hb Hlt. unfold wsect, modify. rewrite (bd_size _ _ Hb), Z.max_l by lia. done. Qed.

(** winode and rinode on a laid-out image. *)
Lemma winode_eq st own n di : built st own -> 0 <= n < NINODES ->
  winode n di st = Done tt (mkmk (iput_blk (m_img st) n di) FSSIZE (m_freeinode st) (m_freeblock st)).
Proof.
  intros Hb Hn. destruct (IBLOCK_mk n Hn) as [_ Hr]. assert (IBLOCK n mk_sb < FSSIZE) by (unfold FSSIZE; lia).
  unfold winode, bind. rewrite (rsect_lt _ _ _ Hb) by done. by rewrite (wsect_lt _ _ _ _ Hb).
Qed.

Lemma rinode_eq st own n : built st own -> 0 <= n < NINODES -> rinode n st = Done (inode_of (m_img st) n) st.
Proof.
  intros Hb Hn. destruct (IBLOCK_mk n Hn) as [_ Hr]. assert (IBLOCK n mk_sb < FSSIZE) by (unfold FSSIZE; lia).
  unfold rinode, bind. by rewrite (rsect_lt _ _ _ Hb).
Qed.

Lemma built_put st own n di : built st own -> 0 <= n < NINODES -> dinode_ok di -> built (mkmk (iput_blk (m_img st) n di) FSSIZE (m_freeinode st) (m_freeblock st)) own.
Proof.
  intros Hb Hn Hd. destruct (IBLOCK_mk n Hn) as [_ Hr]. split; [|done]. apply image_meta; [apply Hb|lia|]. apply dinode_put_ok; [apply (bd_img _ _ Hb)|apply Hd].
Qed.

Lemma holds_dsize blk own i di na h c z : holds_file blk own i di na h c -> uint_ok z -> holds_file blk own i (set_dsize z di) na h c.
Proof.
  intros [H1 H2 H3 H4 H4' H5 H6 H7 H8] Hz. split; try done. destruct H1. by split.
Qed.

(** The inode blocks are not touched while a file grows. *)
Lemma later_inode i blk own blk' own' fb n : later i blk own blk' own' -> image_ok blk' own' fb -> 0 <= n < NINODES -> inode_of blk' n = inode_of blk n.
Proof.
  intros Hl Him Hn. destruct (IBLOCK_mk n Hn) as [_ Hr]. unfold inode_of. f_equal. eapply later_meta; [done|done|]. change nmeta with 59. lia.
Qed.

(** The grown file's inode is written back. *)
Lemma image_grown st own fl k ty c st1 own1 di1 c' : image st own fl -> fl !! k = Some (ty, c) ->
  grown (Z.of_nat k + 1) st own (inode_of (m_img st) (Z.of_nat k + 1)) (nblk_of (length c)) (12 <? nblk_of (length c))
    st1 own1 di1 (nblk_of (length c')) (12 <? nblk_of (length c')) c' ->
  image (mkmk (iput_blk (m_img st1) (Z.of_nat k + 1) (set_dsize (Z.of_nat (length c')) di1)) FSSIZE (m_freeinode st1) (m_freeblock st1)) own1 (<[k := (ty, c')]> fl).
Proof.
  intros Hig Hk [Hb1 Hl1 Hi1 Hf1 Hm1 Hh1]. pose proof (lookup_lt_Some _ _ _ Hk) as Hkl. pose proof (ig_few _ _ _ Hig) as Hfew.
  assert (Hkn : 0 <= Z.of_nat k + 1 < NINODES) by lia. destruct (IBLOCK_mk _ Hkn) as [_ Hr]. pose proof (bd_img _ _ Hb1) as Him. pose proof (mi_block _ _ _ Him) as Hbk.
  assert (Hz : uint_ok (Z.of_nat (length c'))).
  { pose proof (hf_max _ _ _ _ _ _ _ Hh1). pose proof (hf_len _ _ _ _ _ _ _ Hh1). unfold uint_ok. lia. }
  pose proof (holds_dsize _ _ _ _ _ _ _ _ Hh1 Hz) as Hh2. pose proof (hf_ok _ _ _ _ _ _ _ Hh2) as Hd2. destruct Hig as [H1 H2 H3 H4 H5 H6 H7 H8].
  assert (Hne : forall n, 0 <= n < NINODES -> n <> Z.of_nat k + 1 -> inode_of (iput_blk (m_img st1) (Z.of_nat k + 1) (set_dsize (Z.of_nat (length c')) di1)) n = inode_of (m_img st) n).
  { intros n Hn Hnk. rewrite inode_of_put_ne by done. by eapply later_inode. }
  assert (Hlow : forall b, b < 32 -> iput_blk (m_img st1) (Z.of_nat k + 1) (set_dsize (Z.of_nat (length c')) di1) b = m_img st b).
  { intros b Hb. unfold iput_blk. rewrite bput_ne by lia. eapply later_meta; [done|done|]. change nmeta with 59. lia. }
  split.
  - by apply built_put.
  - rewrite length_insert. cbn [m_freeinode]. lia.
  - by rewrite length_insert.
  - cbn [m_freeblock]. rewrite (total_insert _ _ _ _ Hk). cbn [snd]. unfold cost. lia.
  - cbn [m_img]. by rewrite Hlow by lia.
  - intros b Hb. cbn [m_img]. rewrite Hlow by lia. by apply H6.
  - intros k' ty' c0 Hk'. cbn [m_img]. destruct (decide (k' = k)) as [->|Hkk].
    + rewrite list_lookup_insert_eq in Hk' by done. injection Hk' as <- <-. rewrite inode_of_put by done. split; [|by eapply holds_meta; [|lia|]].
      destruct (H7 _ _ _ Hk) as [Hm _]. rewrite Hm in Hm1. unfold di_meta in *. cbn [set_dsize di_type di_major di_minor di_nlink di_size]. by injection Hm1 as -> -> -> -> _.
    + rewrite list_lookup_insert_ne in Hk' by done. pose proof (lookup_lt_Some _ _ _ Hk'). rewrite Hne by lia. destruct (H7 _ _ _ Hk') as [Hm Hh]. split; [done|].
      eapply holds_meta; [done|lia|]. eapply later_holds; [done|lia|done].
  - rewrite length_insert. intros i Hi. cbn [m_img]. rewrite Hne by lia. by apply H8.
Qed.

(** iappend adds to the end of one file. *)
Lemma iappend_spec st own fl k ty c p : image st own fl -> fl !! k = Some (ty, c) -> Forall byte_ok p -> Z.of_nat (length (c ++ p)) <= 71680 ->
  nmeta + total (<[k := (ty, c ++ p)]> fl) <= FSSIZE ->
  runs (iappend (Z.of_nat k + 1) p) st (fun _ st' => exists own', image st' own' (<[k := (ty, c ++ p)]> fl)).
Proof.
  intros Hig Hk Hp Hmax Htot. pose proof (lookup_lt_Some _ _ _ Hk) as Hkl. pose proof (ig_few _ _ _ Hig) as Hfew.
  assert (Hkn : 0 <= Z.of_nat k + 1 < NINODES) by lia. destruct (ig_file _ _ _ Hig _ _ _ Hk) as [Hm Hh]. rewrite (total_insert _ _ _ _ Hk) in Htot. cbn [snd] in Htot.
  unfold iappend. apply runs_bind. unfold runs at 1. rewrite (rinode_eq _ _ _ (ig_built _ _ _ Hig) Hkn).
  assert (Hsz : di_size (inode_of (m_img st) (Z.of_nat k + 1)) = Z.of_nat (length c)) by (unfold di_meta in Hm; by injection Hm).
  rewrite Hsz, xint_id by (rewrite length_app in Hmax; unfold uint_ok; lia).
  eapply runs_seq; [apply (iappend_loop_spec (Z.of_nat k + 1) (length p) st own _ c p); try done|].
  - apply Hig.
  - rewrite (ig_free _ _ _ Hig). lia.
  - intros [di1 sz] st1 (Hsz1 & own1 & Hg). cbn [fst snd] in *. subst sz. rewrite xint_id by (unfold uint_ok; lia).
    unfold runs. rewrite (winode_eq _ own1) by (done || apply Hg). exists own1. by eapply image_grown.
Qed.

(** ** ialloc *)

Definition new_inode (ty : Z) : dinode := mkdinode ty 0 0 1 0 (replicate 13 0).

Lemma new_inode_ok ty : short_ok ty -> dinode_ok (new_inode ty).
Proof.
  intros Hty. split; cbn [new_inode di_type di_major di_minor di_nlink di_size di_addrs]; unfold short_ok, uint_ok in *; try lia.
  - by rewrite length_replicate.
  - apply Forall_replicate. lia.
Qed.

Lemma new_addr blk ty n : baddr blk (new_inode ty) n = 0.
Proof.
  unfold baddr, ind, new_inode. cbn [di_addrs]. assert (E : forall k, nthZ (replicate 13 0) k = 0).
  { intros k. unfold nthZ. rewrite nth_lookup. destruct (_ !! _) eqn:E; [|done]. by apply lookup_replicate_1 in E as [-> _]. }
  rewrite !E. by destruct (n <? NDIRECT).
Qed.

(** A new inode is a file with nothing in it. *)
Lemma holds_new blk own i ty : short_ok ty -> holds_file blk own i (new_inode ty) 0 false [].
Proof.
  intros Hty. split; try done.
  - by apply new_inode_ok.
  - intros n Hn. rewrite new_addr. lia.
  - intros; lia.
  - intros; lia.
Qed.

Lemma image_new st own fl ty : image st own fl -> Z.of_nat (length fl) + 1 < NINODES -> short_ok ty ->
  image (mkmk (iput_blk (m_img st) (Z.of_nat (length fl) + 1) (new_inode ty)) FSSIZE (m_freeinode st + 1) (m_freeblock st)) own (fl ++ [(ty, [])]).
Proof.
  intros [H1 H2 H3 H4 H5 H6 H7 H8] Hn Hty. pose proof (new_inode_ok ty Hty) as Hd. pose proof (bd_img _ _ H1) as Him. pose proof (mi_block _ _ _ Him) as Hbk.
  set (i := Z.of_nat (length fl) + 1) in *. assert (Hi : 0 <= i < NINODES) by lia. destruct (IBLOCK_mk _ Hi) as [_ Hr].
  assert (Hlow : forall b, b < 32 -> iput_blk (m_img st) i (new_inode ty) b = m_img st b) by (intros; apply bput_ne; lia).
  split; rewrite ?length_app; cbn [length m_img m_freeinode m_freeblock].
  - pose proof (built_put st own i (new_inode ty) H1 Hi Hd) as Hb. split; apply Hb.
  - lia.
  - lia.
  - rewrite fl_total_app. change (total [(ty, [])]) with 0. lia.
  - by rewrite Hlow by lia.
  - intros b Hb. rewrite Hlow by lia. by apply H6.
  - intros k ty' c Hk. cbn zeta. destruct (decide (k < length fl)%nat) as [Hlt|Hge].
    + rewrite lookup_app_l in Hk by done. rewrite inode_of_put_ne by (done || lia). destruct (H7 _ _ _ Hk) as [Hm Hh]. split; [done|]. eapply holds_meta; [done|lia|done].
    + rewrite lookup_app_r in Hk by lia. apply list_lookup_singleton_Some in Hk as [E Hk]. injection Hk as <- <-. replace (Z.of_nat k + 1) with i by lia.
      rewrite inode_of_put by done. split; [done|]. by apply holds_new.
  - intros j Hj. rewrite inode_of_put_ne by (done || lia). apply H8. lia.
Qed.

Lemma mk_ialloc_spec st own fl ty : image st own fl -> Z.of_nat (length fl) + 1 < NINODES -> ty = T_DIR \/ ty = T_FILE ->
  runs (mk_ialloc ty) st (fun r st' => r = Z.of_nat (length fl) + 1 /\ image st' own (fl ++ [(ty, [])])).
Proof.
  intros Hig Hn Hty. assert (Ens : s16 (xshort ty) = ty) by (by destruct Hty as [-> | ->]). assert (Hs : short_ok ty) by (destruct Hty as [-> | ->]; done).
  pose proof (ig_next _ _ _ Hig) as Hnx. unfold mk_ialloc, bind, next_inode. rewrite Ens. change (s16 (xshort 1)) with 1. change (xint 0) with 0. fold (new_inode ty).
  unfold runs. rewrite Hnx, u32_id by (unfold NINODES in Hn; lia). rewrite (winode_eq _ own); [|split; apply (ig_built _ _ _ Hig)|lia].
  split; [done|]. cbn [m_img m_freeinode m_freeblock]. pose proof (image_new st own fl ty Hig Hn Hs) as H. by rewrite Hnx in H.
Qed.

(** ** The files *)

Definition name_ok (name : list Z) : Prop := Forall byte_ok name /\ ~ 47 ∈ name.

Definition pieces_of (f : hostfile) : list (list Z) := default [] (snd f).
Definition body_of (f : hostfile) : list Z := concat (pieces_of f).

(** A file mkfs can copy: it is there, its name has no slash, and it has at
    most 140 blocks. *)
Definition file_fits (f : hostfile) : Prop :=
  snd f <> None /\ name_ok (fst f) /\ Forall (Forall byte_ok) (pieces_of f) /\ Z.of_nat (length (body_of f)) <= 71680.

(** The host's files [files] as the image will hold them: the root directory
    with its entries, then the files, from inode number 2 on. *)
Fixpoint entries (n : Z) (files : list hostfile) : list Z :=
  match files with
  | [] => []
  | f :: files' => mk_dirent n (skip_underscore (fst f)) ++ entries (n + 1) files'
  end.
Definition root_bytes (files : list hostfile) : list Z := mk_dirent 1 ROOT_DOT ++ mk_dirent 1 ROOT_DOTDOT ++ entries 2 files.
Definition image_of (files : list hostfile) : list (Z * list Z) :=
  (T_DIR, root_bytes files) :: List.map (fun f => (T_FILE, body_of f)) files.

Lemma total_grow fl k ty c p : fl !! k = Some (ty, c) -> total fl <= total (<[k := (ty, c ++ p)]> fl).
Proof. intros Hk. rewrite (total_insert _ _ _ _ Hk). cbn [snd]. pose proof (cost_mono (length c) (length (c ++ p)) ltac:(rewrite length_app; lia)). lia. Qed.

(** A file is copied piece by piece. *)
Lemma each_append ps : forall st own fl k ty c, image st own fl -> fl !! k = Some (ty, c) -> Forall (Forall byte_ok) ps ->
  Z.of_nat (length (c ++ concat ps)) <= 71680 -> nmeta + total (<[k := (ty, c ++ concat ps)]> fl) <= FSSIZE ->
  runs (each ps (iappend (Z.of_nat k + 1))) st (fun _ st' => exists own', image st' own' (<[k := (ty, c ++ concat ps)]> fl)).
Proof.
  induction ps as [|p ps IH]; intros st own fl k ty c Hig Hk Hps Hmax Htot; cbn [each concat] in *.
  { rewrite app_nil_r in *. apply runs_ret. exists own. by rewrite list_insert_id. }
  apply Forall_cons in Hps as [Hp Hps]. pose proof (lookup_lt_Some _ _ _ Hk) as Hkl. rewrite app_assoc in *.
  assert (Hk' : <[k := (ty, c ++ p)]> fl !! k = Some (ty, c ++ p)) by (by apply list_lookup_insert_eq).
  pose proof (total_grow _ _ _ _ (concat ps) Hk') as Hg. rewrite list_insert_insert_eq in Hg.
  eapply runs_seq; [apply (iappend_spec st own fl k ty c p); try done; [rewrite length_app in Hmax; lia|lia]|].
  intros _ st1 [own1 Hig1]. eapply runs_mono; [apply (IH st1 own1 _ k ty (c ++ p) Hig1); try done; by rewrite list_insert_insert_eq|].
  cbv beta. intros _ st2. by rewrite list_insert_insert_eq.
Qed.

Lemma mk_dirent_ok n name : Forall byte_ok name -> Forall byte_ok (mk_dirent n name) /\ length (mk_dirent n name) = 16%nat.
Proof.
  intros Hn. unfold mk_dirent, dirent_bytes, name_field. cbn [de_inum de_name]. split.
  - apply Forall_app. split; [apply le_bytes_ok|]. apply Forall_take, Forall_app. split; [done|]. apply Forall_replicate. unfold byte_ok. lia.
  - rewrite length_app, length_le_bytes, length_take, length_app, length_replicate. unfold DIRSIZ. lia.
Qed.

Lemma no_slash name : ~ 47 ∈ name -> existsb (Z.eqb 47) name = false.
Proof.
  intros H. destruct (existsb _ _) eqn:E; [|done]. apply existsb_exists in E as (x & Hx & Ex). apply Z.eqb_eq in Ex as <-. by apply list_elem_of_In in Hx.
Qed.

Lemma skip_ok name : Forall byte_ok name -> Forall byte_ok (skip_underscore name).
Proof. intros H. destruct H as [|x name Hx H]; [done|]. cbn [skip_underscore]. case_match; [done|by constructor]. Qed.

(** One file: an inode, a directory entry, and the contents. *)
Lemma add_file_spec st own R fs f : image st own ((T_DIR, R) :: fs) -> file_fits f ->
  Z.of_nat (length fs) + 2 < NINODES -> Z.of_nat (length R) + 16 <= 71680 ->
  let fl' := (T_DIR, R ++ mk_dirent (Z.of_nat (length fs) + 2) (skip_underscore (fst f))) :: fs ++ [(T_FILE, body_of f)] in
  nmeta + total fl' <= FSSIZE -> runs (add_file 1 f) st (fun _ st' => exists own', image st' own' fl').
Proof.
  intros Hig (Hop & [Hnb Hns] & Hpb & Hbody) Hfew HR fl' Htot. unfold add_file. rewrite (no_slash _ Hns). destruct (snd f) as [ps|] eqn:Ep; [clear Hop|done].
  assert (Eps : pieces_of f = ps) by (unfold pieces_of; by rewrite Ep). destruct (mk_dirent_ok (Z.of_nat (length fs) + 2) (skip_underscore (fst f)) (skip_ok _ Hnb)) as [Hdb Hdl].
  set (e := mk_dirent _ _) in *. eapply runs_seq; [apply (mk_ialloc_spec st own ((T_DIR, R) :: fs)); [done|cbn [length]; lia|by right]|]. intros inum st1 [-> Hig1].
  replace (Z.of_nat (length ((T_DIR, R) :: fs)) + 1) with (Z.of_nat (length fs) + 2) by (cbn [length]; lia). fold e.
  set (fl1 := (T_DIR, R ++ e) :: fs ++ [(T_FILE, [])]). assert (Hk : fl1 !! S (length fs) = Some (T_FILE, [])) by (cbn; by apply list_lookup_middle).
  assert (Efl : <[S (length fs) := (T_FILE, [] ++ body_of f)]> fl1 = fl').
  { change (<[S (length fs) := (T_FILE, [] ++ body_of f)]> fl1) with ((T_DIR, R ++ e) :: <[length fs := (T_FILE, body_of f)]> (fs ++ [(T_FILE, [])])). unfold fl'. f_equal.
    rewrite <- (Nat.add_0_r (length fs)), insert_app_r. done. }
  pose proof (total_grow fl1 _ _ _ (body_of f) Hk) as Hg. rewrite Efl in Hg.
  eapply runs_seq; [apply (iappend_spec st1 own _ 0 T_DIR R e Hig1); [done|done|rewrite length_app; lia|]|].
  { change (nmeta + total fl1 <= FSSIZE). lia. }
  intros _ st2 [own2 Hig2]. change (image st2 own2 fl1) in Hig2. replace (Z.of_nat (length fs) + 2) with (Z.of_nat (S (length fs)) + 1) by lia.
  eapply runs_mono; [rewrite <- Eps; apply (each_append (pieces_of f) st2 own2 fl1 (S (length fs)) T_FILE [] Hig2 Hk Hpb); [done|]|].
  - fold (body_of f). by rewrite Efl.
  - cbv beta. intros _ st3. fold (body_of f). by rewrite Efl.
Qed.

(** ** main *)

(** A fresh image: every sector zero and nothing allocated. *)
Record blank_image (st : mk) : Prop := {
  bl_img : forall b, m_img st b = zero_block;
  bl_inode : m_freeinode st = 1;
  bl_block : m_freeblock st = nmeta
}.

Lemma zero_image : runs (each (seq 0 (Z.to_nat FSSIZE)) (fun i => wsect (Z.of_nat i) zero_block)) mk0
  (fun _ st => blank_image st /\ m_size st = FSSIZE).
Proof.
  apply (runs_each _ _ (fun l st => blank_image st /\ (l = seq (Z.to_nat (m_size st)) (length l)) /\ 0 <= m_size st /\ m_size st + Z.of_nat (length l) = FSSIZE)).
  - split; [done|]. split; [by rewrite length_seq|]. split; [done|]. rewrite length_seq. done.
  - intros n l st ([Hi Hn Hb] & Hl & H0 & Hsz). cbn [length seq] in *. injection Hl as -> Hl. unfold wsect, modify, runs. rewrite Z2Nat.id by done.
    cbn [m_img m_size m_freeinode m_freeblock]. split; [|rewrite Z.max_r by lia; split; [|lia]].
    + split; cbn [m_img m_freeinode m_freeblock]; [|done|done]. intros b. by destruct (b =? m_size st).
    + replace (Z.to_nat (m_size st + 1)) with (S (Z.to_nat (m_size st))) by lia. done.
  - intros st (Hb & _ & _ & Hs). cbn in Hs. split; [done|lia].
Qed.

(** The first image, with the superblock and no file. *)
Lemma image_blank st : blank_image st -> m_size st = FSSIZE ->
  image (mkmk (bput (m_img st) 1 (splice zero_block 0 (sb_bytes mk_sb))) FSSIZE (m_freeinode st) (m_freeblock st)) (fun _ => None) [].
Proof.
  intros [Hi Hn Hb] Hs. assert (Hsb : block_ok (splice zero_block 0 (sb_bytes mk_sb))).
  { split; [by vm_compute|]. apply Forall_splice; [apply zero_block_ok|]. unfold sb_bytes. rewrite !Forall_app. split_and!; apply le_bytes_ok. }
  split; cbn [m_img m_freeinode m_freeblock length].
  - split; [|done]. cbn [m_img m_freeblock]. rewrite Hb. split.
    + intros b. unfold bput. destruct (b =? 1); [done|]. rewrite Hi. apply zero_block_ok.
    + by vm_compute.
    + intros b Hge. rewrite bput_ne by (change nmeta with 59 in Hge; lia). apply Hi.
    + done.
  - rewrite Hn. done.
  - done.
  - rewrite Hb. done.
  - apply bput_eq.
  - intros b Hlt. rewrite bput_ne by lia. apply Hi.
  - intros k ty c Hk. by rewrite lookup_nil in Hk.
  - intros i Hi'. assert (Hr : 0 <= i < NINODES) by lia. destruct (IBLOCK_mk _ Hr) as [_ Hlt]. unfold inode_of. rewrite bput_ne, Hi by lia.
    unfold dinode_get, dinode_of_bytes, slice, zero_block. cbn [di_type]. rewrite drop_replicate, take_replicate.
    assert (Hlen : (DINODE_SZ `min` (512 - Z.to_nat (i mod IPB) * DINODE_SZ) = 64)%nat) by (pose proof (slot_bound i); unfold DINODE_SZ in *; lia). by rewrite Hlen.
Qed.

(** The entries of the files come after those of the root itself. *)
Lemma add_files_spec files : forall st own R fs, image st own ((T_DIR, R) :: fs) ->
  Forall file_fits files ->
  Z.of_nat (length fs) + Z.of_nat (length files) + 1 < NINODES -> Z.of_nat (length R) <= 16 * (Z.of_nat (length fs) + 2) ->
  let fl' := (T_DIR, R ++ entries (Z.of_nat (length fs) + 2) files) :: fs ++ List.map (fun f => (T_FILE, body_of f)) files in
  nmeta + total fl' <= FSSIZE -> runs (each files (add_file 1)) st (fun _ st' => exists own', image st' own' fl').
Proof.
  induction files as [|f files IH]; intros st own R fs Hig Hok Hn HR fl' Htot; subst fl'; cbn [entries List.map each length] in *.
  { apply runs_ret. exists own. by rewrite !app_nil_r. }
  apply Forall_cons in Hok as [Hfit Hok]. pose proof Hfit as (_ & Hnm & _ & _). set (e := mk_dirent _ _) in *. destruct (mk_dirent_ok (Z.of_nat (length fs) + 2) (skip_underscore (fst f)) (skip_ok _ (proj1 Hnm))) as [_ Hel]. fold e in Hel.
  assert (Efl : (T_DIR, R ++ e ++ entries (Z.of_nat (length fs) + 2 + 1) files) :: fs ++ (T_FILE, body_of f) :: List.map (fun f => (T_FILE, body_of f)) files =
    (T_DIR, (R ++ e) ++ entries (Z.of_nat (length (fs ++ [(T_FILE, body_of f)])) + 2) files) :: (fs ++ [(T_FILE, body_of f)]) ++ List.map (fun f => (T_FILE, body_of f)) files).
  { rewrite <- !app_assoc, length_app. cbn [app length]. do 5 f_equal. lia. }
  rewrite Efl in *. unfold NINODES in *. pose proof (total_pos (List.map (fun f => (T_FILE, body_of f)) files)).
  eapply runs_seq; [apply (add_file_spec st own R fs f Hig Hfit); [unfold NINODES; lia|lia|]|].
  - fold e. rewrite fl_total_cons, fl_total_app in Htot |- *. cbn [snd] in *. pose proof (cost_mono (length (R ++ e)) (length ((R ++ e) ++ entries (Z.of_nat (length (fs ++ [(T_FILE, body_of f)])) + 2) files)) ltac:(rewrite (length_app (R ++ e)); lia)).
    rewrite fl_total_app in Htot. lia.
  - intros _ st1 [own1 Hig1]. fold e in Hig1. apply (IH st1 own1 (R ++ e) (fs ++ [(T_FILE, body_of f)]) Hig1 Hok); [rewrite length_app; cbn [length]; lia|rewrite !length_app; cbn [length]; lia|done].
Qed.

(** The host's files fit: names without a slash, at most 140 blocks each,
    inodes and sectors for all, and a root directory that does not end on a
    block boundary. *)
Record host_ok (files : list hostfile) : Prop := {
  ho_files : Forall file_fits files;
  ho_few : Z.of_nat (length files) + 1 < NINODES;
  ho_room : nmeta + total (image_of files) <= FSSIZE;
  ho_dir : (Z.of_nat (length files) + 2) mod 32 <> 0
}.

Lemma length_entries n files : Forall file_fits files ->
  length (entries n files) = (16 * length files)%nat.
Proof.
  intros H. revert n. induction H as [|f files (_ & (Hn & _) & _) _ IH]; intros n; [done|]. cbn [entries length]. rewrite length_app, IH.
  rewrite (proj2 (mk_dirent_ok n _ (skip_ok _ Hn))). lia.
Qed.

Lemma length_root files : host_ok files -> length (root_bytes files) = (16 * (length files + 2))%nat.
Proof.
  intros [H _ _ _]. unfold root_bytes. rewrite !length_app, (length_entries _ _ H).
  change (length (mk_dirent 1 ROOT_DOT)) with 16%nat. change (length (mk_dirent 1 ROOT_DOTDOT)) with 16%nat. lia.
Qed.

(** Zeros that the blocks have room for can be counted as contents. *)
Lemma holds_pad blk own i di na h c m : holds_file blk own i di na h c -> Z.of_nat (length c) + Z.of_nat m <= 512 * na ->
  holds_file blk own i di na h (c ++ replicate m 0).
Proof.
  intros [H1 H2 H3 H4 H4' H5 H6 H7 H8] Hm. split; try done; [rewrite length_app, length_replicate; lia|].
  intros n k Hn Hk. rewrite H8 by done. unfold nthZ. destruct (decide (512 * n + k < Z.of_nat (length c))); [by rewrite app_nth1 by lia|].
  rewrite (nth_overflow c) by lia. rewrite app_nth2 by lia. rewrite nth_lookup. destruct (_ !! _) eqn:E; [|done]. by apply lookup_replicate_1 in E as [-> _].
Qed.

(** The root directory as its inode has it in the end: whole blocks. *)
Definition root_pad (n : nat) : nat := Z.to_nat ((Z.of_nat n / 512 + 1) * 512 - Z.of_nat n).
Definition root_final (files : list hostfile) : list Z := root_bytes files ++ replicate (root_pad (length (root_bytes files))) 0.
Definition image_final (files : list hostfile) : list (Z * list Z) :=
  (T_DIR, root_final files) :: List.map (fun f => (T_FILE, body_of f)) files.

Lemma root_round files : host_ok files -> let n := length (root_bytes files) in
  Z.of_nat (length (root_final files)) = (Z.of_nat n / 512 + 1) * 512 /\ nblk_of (length (root_final files)) = nblk_of n /\ Z.of_nat (length (root_final files)) = 512 * nblk_of n.
Proof.
  intros Hok. pose proof (length_root _ Hok) as Hl. cbn zeta. unfold root_final. rewrite length_app, length_replicate, Nat2Z.inj_add. set (n := length (root_bytes files)) in *.
  assert (Hn : Z.of_nat n mod 512 <> 0).
  { rewrite Hl. replace (Z.of_nat (16 * (length files + 2))) with (16 * (Z.of_nat (length files) + 2)) by lia. change 512 with (16 * 32). rewrite Z.mul_mod_distr_l by lia. pose proof (ho_dir _ Hok). lia. }
  unfold root_pad, nblk_of. pose proof (Z.div_mod (Z.of_nat n) 512 ltac:(lia)). pose proof (Z.mod_pos_bound (Z.of_nat n) 512 ltac:(lia)).
  rewrite !Z2Nat.id by lia. rewrite Nat2Z.inj_add, Z2Nat.id by lia. split; [lia|]. Z.to_euclidean_division_equations. lia.
Qed.

(** The root inode's size is rounded up. *)
Lemma image_root st own files : host_ok files -> image st own (image_of files) ->
  image (mkmk (iput_blk (m_img st) 1 (set_dsize (Z.of_nat (length (root_final files))) (inode_of (m_img st) 1))) FSSIZE (m_freeinode st) (m_freeblock st)) own (image_final files).
Proof.
  intros Hok Hig. destruct (root_round _ Hok) as (_ & Hn & Hl). destruct (ig_file _ _ _ Hig 0 T_DIR (root_bytes files) eq_refl) as [_ Hh].
  apply (image_grown st own (image_of files) 0 T_DIR (root_bytes files) st own _ (root_final files) Hig eq_refl). rewrite Hn.
  split; [apply Hig|apply later_refl|done|lia|done|]. apply holds_pad; [exact Hh|]. unfold root_final in Hl. rewrite length_app, length_replicate in Hl. lia.
Qed.

(** The bitmap's sector belongs to no file and to no inode. *)
Lemma image_bitmap st own fl v : image st own fl -> block_ok v -> image (mkmk (bput (m_img st) 58 v) FSSIZE (m_freeinode st) (m_freeblock st)) own fl.
Proof.
  intros [H1 H2 H3 H4 H5 H6 H7 H8] Hv. pose proof (bd_img _ _ H1) as Him.
  assert (Hino : forall i, 0 <= i < NINODES -> inode_of (bput (m_img st) 58 v) i = inode_of (m_img st) i).
  { intros i Hi. destruct (IBLOCK_mk i Hi) as [_ Hr]. unfold inode_of. by rewrite bput_ne by lia. }
  split; cbn [m_img m_freeinode m_freeblock]; try done.
  - split; [|done]. by apply image_meta.
  - intros b Hb. rewrite bput_ne by lia. by apply H6.
  - intros k ty c Hk. cbn zeta. pose proof (lookup_lt_Some _ _ _ Hk). rewrite Hino by lia. destruct (H7 _ _ _ Hk) as [Hm Hh]. split; [done|]. by eapply holds_meta.
  - intros i Hi. rewrite Hino by lia. by apply H8.
Qed.

Lemma mark_used_ok n : forall buf i, block_ok buf -> block_ok (mark_used n buf i).
Proof. induction n as [|n IH]; intros buf i Hb; [done|]. cbn [mark_used]. apply IH. by apply bit_set_ok. Qed.

Lemma mark_used_get n : forall buf i j, block_ok buf -> 0 <= i -> i + Z.of_nat n <= BPB -> 0 <= j < BPB ->
  bit_get (mark_used n buf i) j = if decide (i <= j < i + Z.of_nat n) then true else bit_get buf j.
Proof.
  induction n as [|n IH]; intros buf i j Hb Hi Hn Hj; cbn [mark_used]; [by rewrite decide_False by lia|].
  assert (Hok : block_ok (bit_set buf i)) by by apply bit_set_ok. rewrite IH by (done || lia).
  destruct (decide (i + 1 <= j < i + 1 + Z.of_nat n)); [by rewrite decide_True by lia|]. rewrite bit_get_set by (done || lia).
  destruct (decide (j = i)); [by rewrite decide_True by lia|]. by rewrite decide_False by lia.
Qed.

(** The image when main ends: the files, and a bitmap with the sectors in use. *)
Definition finished (files : list hostfile) (st : mk) : Prop := exists own, image st own (image_final files) /\
  m_img st 58 = mark_used (Z.to_nat (m_freeblock st)) zero_block 0.

(** The end of main: the root's size and the bitmap. *)
Lemma finish_spec st own files : host_ok files -> image st own (image_of files) ->
  runs (din <- rinode 1 ;;
        let off := (xint (di_size din) / BSIZE + 1) * BSIZE in
        winode 1 (set_dsize (xint off) din) ;;;
        used <- gets m_freeblock ;;
        mk_balloc used) st (fun _ st' => finished files st').
Proof.
  intros Hok Hig. destruct (root_round _ Hok) as (Hrl & _ & _). destruct (ig_file _ _ _ Hig 0 T_DIR (root_bytes files) eq_refl) as [Hm _].
  apply runs_bind. unfold runs at 1. rewrite (rinode_eq _ own) by (apply Hig || by vm_compute). change (Z.of_nat 0 + 1) with 1 in Hm.
  assert (Hsz : di_size (inode_of (m_img st) 1) = Z.of_nat (length (root_bytes files))) by (unfold di_meta in Hm; by injection Hm). rewrite Hsz.
  pose proof (length_root _ Hok) as Hlr. pose proof (ho_few _ Hok) as Hfew. unfold NINODES in Hfew. rewrite (xint_id (Z.of_nat _)) by (unfold uint_ok; lia). change BSIZE with 512. rewrite <- Hrl.
  rewrite (xint_id (Z.of_nat _)).
  2:{ unfold uint_ok. rewrite Hrl. assert (0 <= Z.of_nat (length (root_bytes files)) / 512 <= 4000) by (split; [apply Z.div_pos; lia|apply Z.div_le_upper_bound; lia]). lia. }
  apply runs_bind. unfold runs at 1. rewrite (winode_eq _ own) by (apply Hig || by vm_compute). pose proof (image_root st own files Hok Hig) as Hig5. set (st5 := mkmk _ _ _ _) in *.
  pose proof (mi_fb _ _ _ (bd_img _ _ (ig_built _ _ _ Hig5))) as Hfb. change FSSIZE with 1000 in Hfb. apply runs_bind. unfold runs at 1, gets.
  unfold mk_balloc. change (BSIZE * 8) with 4096. rewrite (proj2 (Z.ltb_lt (m_freeblock st5) 4096)) by lia. cbn [negb]. unfold runs. change (sb_bmapstart mk_sb) with 58.
  rewrite (wsect_lt _ own) by (apply Hig5 || by vm_compute). exists own. split; [apply image_bitmap; [done|apply mark_used_ok, zero_block_ok]|]. cbn [m_img m_freeblock]. apply bput_eq.
Qed.

Lemma mkfs_runs files : host_ok files -> runs (mkfs_main files) mk0 (fun _ st => finished files st).
Proof.
  intros Hok. pose proof Hok as [Hfs Hfew Hroom Hdir]. unfold mkfs_main. eapply runs_seq; [apply zero_image|]. intros _ st0 [Hbl Hsz].
  apply runs_bind. unfold wsect at 1, modify, runs at 1. rewrite Hsz, Z.max_l by (by vm_compute). fold (bput (m_img st0) 1 (splice zero_block 0 (sb_bytes mk_sb))).
  pose proof (image_blank st0 Hbl Hsz) as Hig0. eapply runs_seq; [apply (mk_ialloc_spec _ _ [] T_DIR Hig0); [by vm_compute|by left]|].
  intros r st1 [-> Hig1]. cbn [length app] in Hig1 |- *. change (Z.of_nat 0 + 1 =? ROOTINO) with true. cbn [negb].
  destruct (mk_dirent_ok 1 ROOT_DOT ltac:(by repeat constructor)) as [Hb1 _]. destruct (mk_dirent_ok 1 ROOT_DOTDOT ltac:(by repeat constructor)) as [Hb2 _].
  eapply runs_seq; [apply (iappend_spec st1 _ _ 0 T_DIR [] (mk_dirent 1 ROOT_DOT) Hig1 eq_refl Hb1); by vm_compute|]. intros _ st2 [own2 Hig2].
  eapply runs_seq; [apply (iappend_spec st2 _ _ 0 T_DIR (mk_dirent 1 ROOT_DOT) (mk_dirent 1 ROOT_DOTDOT) Hig2 eq_refl Hb2); by vm_compute|]. intros _ st3 [own3 Hig3].
  eapply runs_seq; [apply (add_files_spec files st3 own3 (mk_dirent 1 ROOT_DOT ++ mk_dirent 1 ROOT_DOTDOT) [] Hig3 Hfs)|].
  - cbn [length Z.of_nat]. lia.
  - by vm_compute.
  - cbn [length Z.of_nat app]. rewrite <- app_assoc. exact Hroom.
  - intros _ st4 [own4 Hig4]. cbn [length Z.of_nat app] in Hig4. rewrite <- app_assoc in Hig4. by apply (finish_spec st4 own4).
Qed.
