(* ===== verification/MkfsMount.v ===== *)
(** * Booting from the image mkfs builds

    The kernel's log recovers from the image and its file system finds the
    files there. *)

From S2P Require Import Prelude.
From S2P Require Import Params.
From S2P Require Import Cstr.
From S2P Require Import Fsfmt.
From S2P Require Import Bio.
From S2P Require Import BioSpec.
From S2P Require Import Log.
From S2P Require Import LogCrash.
From S2P Require Import Txn.
From S2P Require Import Fs.
From S2P Require Import FsBlock.
From S2P Require Import FsWitness.
From S2P Require Import FsInode.
From S2P Require Import FsFile.
From S2P Require Import Mkfs.
From S2P Require Import MkfsSpec.
From S2P Require Import MkfsImage.

(** ** A file system whose blocks are the image *)

Section Mount.
Context {B : Type} {BO : BlockOps B} {BS : BlockStore B}.
Variables (s : fs B) (st : mk) (own : owner) (fl : list (Z * list Z)).
Hypothesis Hig : image st own fl.
Hypothesis Hbm : m_img st 58 = mark_used (Z.to_nat (m_freeblock st)) zero_block 0.
Hypothesis Hsb : fsb s = mk_sb.
Hypothesis Hblk : forall b, b = 1 \/ 32 <= b < FSSIZE -> fblk s b = m_img st b.

Lemma img_used b : 0 <= b < FSSIZE -> used s b = true <-> b < m_freeblock st.
Proof.
  intros Hb. unfold FSSIZE in *. pose proof (mi_fb _ _ _ (bd_img _ _ (ig_built _ _ _ Hig))) as Hfb. change nmeta with 59 in Hfb. unfold FSSIZE in Hfb.
  unfold used. rewrite Hsb. unfold BBLOCK, BPB. rewrite Z.div_small, Z.mod_small by lia. change (u32 _) with 58. rewrite Hblk by lia. rewrite Hbm.
  rewrite mark_used_get by (apply zero_block_ok || unfold BPB; lia). case_decide; [split; [lia|done]|]. split; [|lia].
  rewrite bit_get_testbit, nthZ_zero, Z.bits_0. done.
Qed.

Lemma img_mounted : (forall b, 32 <= b < FSSIZE -> bs_home b) -> bs_disk 1 -> mounted s.
Proof.
  intros Hh Hd. pose proof (mi_fb _ _ _ (bd_img _ _ (ig_built _ _ _ Hig))) as Hfb. change nmeta with 59 in Hfb. split.
  - rewrite Hsb. split; try done. intros i Hi. change (sb_ninodes mk_sb) with NINODES in Hi. destruct (IBLOCK_mk i Hi) as [_ Hr].
    change (sb_inodestart mk_sb) with 32. change (sb_bmapstart mk_sb) with 58. lia.
  - rewrite Hsb. by vm_compute.
  - intros b Hb. rewrite Hsb in Hb. change (dstart mk_sb) with 59 in Hb. apply img_used; [unfold FSSIZE; lia|lia].
  - unfold sb_synced. rewrite Hblk by lia. rewrite (ig_sb _ _ _ Hig), Hsb. by vm_compute.
Qed.

Lemma img_owned b x : own b = Some x -> data_ok s b /\ fblk s b = m_img st b /\ 59 <= b < FSSIZE.
Proof.
  destruct x as [i n]. intros Ho. apply (mi_own _ _ _ (bd_img _ _ (ig_built _ _ _ Hig))) in Ho. change nmeta with 59 in Ho.
  pose proof (mi_fb _ _ _ (bd_img _ _ (ig_built _ _ _ Hig))) as Hfb. unfold FSSIZE in *. split; [|split; [apply Hblk; lia|lia]].
  split; [rewrite Hsb; change (dstart mk_sb) with 59; change (sb_size mk_sb) with 1000; lia|]. apply img_used; unfold FSSIZE; lia.
Qed.

Section File.
Variables (k : nat) (ty : Z) (c : list Z).
Hypothesis Hk : fl !! k = Some (ty, c).

Let di := dino s (Z.of_nat k + 1).

Lemma img_inode : di = inode_of (m_img st) (Z.of_nat k + 1).
Proof.
  pose proof (lookup_lt_Some _ _ _ Hk). pose proof (ig_few _ _ _ Hig). destruct (IBLOCK_mk (Z.of_nat k + 1)) as [_ Hr]; [lia|].
  unfold di, dino, inode_of. rewrite Hsb, Hblk by (unfold FSSIZE; lia). done.
Qed.

Lemma img_holds : di_meta di = (ty, 0, 0, 1, Z.of_nat (length c)) /\ holds_file (m_img st) own (Z.of_nat k + 1) di (nblk_of (length c)) (12 <? nblk_of (length c)) c.
Proof. rewrite img_inode. exact (ig_file _ _ _ Hig _ _ _ Hk). Qed.

Lemma img_faddr n : faddr s di n = baddr (m_img st) di n.
Proof.
  destruct img_holds as [_ Hh]. unfold faddr, baddr. destruct (n <? NDIRECT); [done|]. destruct (Z.eqb_spec (ind di) 0) as [|Hi]; [done|].
  destruct (img_owned _ _ (hf_ind_own _ _ _ _ _ _ _ Hh Hi)) as (_ & -> & _). done.
Qed.

Lemma img_faddr_own n : 0 <= n < MAXFILE -> faddr s di n <> 0 -> own (faddr s di n) = Some (Z.of_nat k + 1, n).
Proof.
  intros Hn Hz. rewrite img_faddr in *. destruct img_holds as [_ Hh]. apply (hf_own _ _ _ _ _ _ _ Hh). split; [lia|]. by apply (hf_addr _ _ _ _ _ _ _ Hh).
Qed.

Lemma img_size : di_size di = Z.of_nat (length c) /\ Z.of_nat (length c) <= 512 * nblk_of (length c) /\ nblk_of (length c) <= 140.
Proof.
  destruct img_holds as [Hm Hh]. split; [unfold di_meta in Hm; by injection Hm|]. split; [apply Hh|]. apply (hf_max _ _ _ _ _ _ _ Hh).
Qed.

Lemma img_file_ok : file_ok s di.
Proof.
  destruct img_holds as [_ Hh]. destruct img_size as (Hs & Hl & Hn). split.
  - apply Hh.
  - rewrite Hs. change (MAXFILE * BSIZE) with 71680. lia.
  - intros Hi. apply (img_owned _ _ (hf_ind_own _ _ _ _ _ _ _ Hh Hi)).
  - intros n Hr Hz. pose proof (img_faddr_own n Hr Hz) as Ho. split; [apply (img_owned _ _ Ho)|]. intros E.
    assert (Hi : ind di <> 0) by congruence. pose proof (hf_ind_own _ _ _ _ _ _ _ Hh Hi) as Ho'. rewrite <- E, Ho in Ho'. injection Ho' as ->. lia.
  - intros n m Hr Hr' Hz E. pose proof (img_faddr_own n Hr Hz) as Ho. rewrite E in Ho, Hz. rewrite (img_faddr_own m Hr' Hz) in Ho. by injection Ho.
  - intros n Hr. unfold BSIZE in Hr. rewrite Hs in Hr. rewrite img_faddr. pose proof (nblk_split c). unfold nblk_of in *.
    apply (hf_addr _ _ _ _ _ _ _ Hh); [lia|]. assert (n < (Z.of_nat (length c) + 511) / 512); [|done]. apply Z.lt_succ_r in Hn. Z.to_euclidean_division_equations. lia.
Qed.

(** What the kernel reads there. *)
Lemma img_content : content s di = c.
Proof.
  destruct img_holds as [_ Hh]. destruct img_size as (Hs & Hl & Hn). unfold content, bytes. rewrite Hs, Nat2Z.id. apply list_eq. intros j.
  destruct (decide (j < length c)%nat) as [Hj|Hj]; [|rewrite !lookup_ge_None_2; [done|lia|rewrite length_map, length_seq; lia]].
  rewrite list_lookup_fmap, lookup_seq_lt by done. cbn [fmap option_fmap option_map]. rewrite Z.add_0_l, Nat.add_0_l.
  unfold fbyte, BSIZE. set (n := Z.of_nat j / 512). pose proof (Z.div_mod (Z.of_nat j) 512 ltac:(lia)) as Hdm. fold n in Hdm.
  pose proof (Z.mod_pos_bound (Z.of_nat j) 512 ltac:(lia)). assert (Hr : 0 <= n < nblk_of (length c)).
  { split; [apply Z.div_pos; lia|]. unfold n. apply Z.div_lt_upper_bound; lia. }
  rewrite img_faddr. destruct (img_owned _ _ (hf_own _ _ _ _ _ _ _ Hh n Hr)) as (_ & -> & _). rewrite (hf_bytes _ _ _ _ _ _ _ Hh) by (done || lia).
  unfold nthZ. rewrite <- Hdm, Nat2Z.id. rewrite nth_lookup. destruct (lookup_lt_is_Some_2 c j Hj) as [x ->]. done.
Qed.
End File.
End Mount.

(** ** From mkfs to a mounted file system *)

Import FsWitness.FsDemo.

(** The image file as the second disk of the machine. *)
Definition disk_of (st : mk) : disk :=
  mkdisk (list_to_map (List.map (fun n => ((1, Z.of_nat n), m_img st (Z.of_nat n))) (seq 0 (Z.to_nat FSSIZE)))) [].

Lemma disk_of_read st b : 0 <= b < FSSIZE -> dread (disk_of st) (1, b) = m_img st b.
Proof.
  intros Hb. unfold dread, img_get, disk_of. cbn [d_img]. rewrite (elem_of_list_to_map_1 _ (1, b) (m_img st b)); [done| |].
  - change (NoDup ((fun n => ((1, Z.of_nat n), m_img st (Z.of_nat n))) <$> seq 0 (Z.to_nat FSSIZE)).*1). rewrite <- list_fmap_compose.
    apply NoDup_fmap; [intros x y [=]; lia|apply NoDup_seq].
  - apply list_elem_of_In, in_map_iff. exists (Z.to_nat b). rewrite Z2Nat.id by lia. split; [done|]. apply in_seq. lia.
Qed.

Lemma disk_of_ok st own : built st own -> forall k, block_ok (dread (disk_of st) k).
Proof.
  intros Hb k. unfold dread, img_get. destruct (d_img (disk_of st) !! k) as [x|] eqn:E; cbn [default]; [|apply zero_block_ok].
  apply elem_of_list_to_map_2, list_elem_of_In, in_map_iff in E as (n & [= _ <-] & _). apply (bd_img _ _ Hb).
Qed.

(** The log recovers from the image with nothing to install. *)
Lemma image_boots st own fl : image st own fl -> runs (initlog 1) (boot (disk_of st)) (fun _ l => booted Demo.lg (disk_of st) (dread (disk_of st)) l).
Proof.
  intros Hig. change 1 with (lg_dev Demo.lg). apply initlog_spec; [apply Demo.lg_geom|split; cbn; lia| |].
  - unfold sb_places. cbn [Demo.lg lg_dev]. rewrite disk_of_read by (by vm_compute). rewrite (ig_sb _ _ _ Hig). by vm_compute.
  - apply recovers_clear; [apply Demo.lg_geom|by eapply disk_of_ok, Hig| |done].
    change (hdr Demo.lg) with (1, 2). rewrite disk_of_read by (by vm_compute). rewrite (ig_log _ _ _ Hig) by lia. by vm_compute.
Qed.

(** The kernel's file system on the blocks of [l]. *)
Definition mount_of (l : lstate) : fs lstate := mkfs l mk_sb (replicate NINODE noinode) [] [].


