(* ===== verification/KernOs.v ===== *)
(** * The system tests on the kernel

    The system calls on files, dispatched by syscall() to sysfile.c, over the
    log, the buffer cache and a disk that mkfs made, are a system a user program
    can run on.  Fourteen tests of usertests.c that need one process run on it
    and pass. *)

From S2P Require Import Prelude.
From S2P Require Import Params.
From S2P Require Import Cstr.
From S2P Require Import Kalloc.
From S2P Require Import Syscall.
From S2P Require Import Fsfmt.
From S2P Require Import Bio.
From S2P Require Import Log.
From S2P Require Import LogCrash.
From S2P Require Import Txn.
From S2P Require Import Fs.
From S2P Require Import Mkfs.
From S2P Require Import File.
From S2P Require Import Sysfile.
From S2P Require Import MkfsMount.
From S2P Require Import User.
From S2P Require Import Printf.
From S2P Require Import Usertests.

Module KernOs.
#[export] Instance disk1 : Driver := Memide.driver 1000.
#[export] Instance txn1 : TxnOps lstate := { o_begin_op := begin_op; o_end_op := end_op }.
(** The console: what is written to it is kept in the order it came. *)
#[export] Instance con1 : DevSw lstate := {|
  dev_read m := None;
  dev_write m := if m =? 1 then Some (fun _ d n => modify (cprintf (take (Z.to_nat n) d)) ;;; ret n) else None
|}.
Definition kend : Z := 2148564992.

(** The process's memory as a call finds it: the argument words above the
    return address, and what they point to. *)
Definition ESP : Z := 1000.
Definition STR1 : Z := 4096.
Definition STR2 : Z := 8192.
Definition DATA : Z := 12288.
Record cargs := mkcargs { c_words : list Z; c_str1 : list Z; c_str2 : list Z; c_data : list Z }.
Definition umem (c : cargs) : mem := fun x =>
  if x <? STR1 then nthZ (concat (List.map (le_bytes 4) (c_words c))) (x - (ESP + 4))
  else if x <? STR2 then nthZ (c_str1 c) (x - STR1)
  else if x <? DATA then nthZ (c_str2 c) (x - STR2)
  else nthZ (c_data c) (x - DATA).

(** The running system, or the message of the panic that stopped it. *)
Definition world : Type := kern lstate + string.

Definition set_tf_eax (v : Z) (s : kern lstate) : kern lstate :=
  let p := kproc s in
  set_kproc (mkuproc (u_sz p) (u_mem p) (u_esp p) v (u_ofile p) (u_cwd p) (u_killed p) (u_pid p)) s.
Definition unknown_call (num : Z) (s : kern lstate) : kern lstate := set_kfs (cprintf [u_pid (kproc s); num] (kfs s)) s.

(** The table of system calls: those on files are the ones of sysfile.c.  The
    others belong to other parts and stop the run, and so does a write to a full
    pipe, which would wait for a reader. *)
Definition elsewhere : M (kern lstate) Z := panic "call of another part".
Definition write_now : M (kern lstate) Z := r <- sys_write ;; match r with inl n => ret n | inr _ => panic "write waits" end.
Definition table : list (option (M (kern lstate) Z)) := syscalls (mkhandlers
  elsewhere elsewhere elsewhere (sys_pipe kend) sys_read elsewhere elsewhere sys_fstat sys_chdir sys_dup elsewhere elsewhere elsewhere elsewhere
  (sys_open kend) write_now sys_mknod sys_unlink sys_link sys_mkdir (sys_close kend) elsewhere elsewhere).

(** A trap into the kernel with the call's number in eax, and the number of
    bytes to look at in the process's memory afterwards. *)
Definition enter (e : sys) (c : cargs) (s : kern lstate) : kern lstate :=
  let p := kproc s in
  set_kproc (mkuproc 32768 (umem c) ESP (sysnum e) (u_ofile p) (u_cwd p) (u_killed p) (u_pid p)) s.
Definition do_call (e : sys) (c : cargs) (w : world) : option ans * world :=
  match w with
  | inr msg => (None, inr msg)
  | inl s =>
      match syscall kproc set_tf_eax unknown_call table (enter e c s) with
      | Done _ s' =>
          let r := s32 (u_eax (kproc s')) in
          (Some (r, match e with Sread _ _ => uread (kproc s') DATA (Z.to_nat r) | _ => [] end), inl s')
      | Panic msg => (None, inr msg)
      | Sleep _ s' => (None, inl s')
      end
  end.

(** The words and strings of each call. *)
Definition args_of (e : sys) : cargs :=
  match e with
  | Sopen p m => mkcargs [STR1; m] p [] []
  | Smkdir p | Schdir p | Sunlink p => mkcargs [STR1] p [] []
  | Slink p q => mkcargs [STR1; STR2] p q []
  | Smknod p x y => mkcargs [STR1; x; y] p [] []
  | Sclose fd | Sdup fd => mkcargs [fd] [] [] []
  | Sread fd n => mkcargs [fd; DATA; n] [] [] []
  | Swrite fd d => mkcargs [fd; DATA; Z.of_nat (length d)] [] [] d
  | _ => mkcargs [] [] [] []
  end.
#[export] Instance kern_os : Os world := fun e => do_call e (args_of e).

(** The machine as it starts: a disk made by mkfs of two files, the log
    recovered, the superblock read, and a process in the root directory. *)
Definition files : list hostfile := [(str "README", Some [str "xv6 is a re-implementation"]); (str "_echo", Some [[127; 69; 76; 70]])].
Definition image : disk := disk_of (final (mkfs_main files) mk0).
Definition mounted0 : fs lstate := final (iinit 1) (mount_of (final (initlog 1) (boot image))).
Definition proc0 : uproc := mkuproc 32768 (fun _ => 0) ESP 0 (replicate NOFILE None) 0 false 1.
Definition enter_root : M (kern lstate) unit :=
  r <- kf (namei 0 (str "/")) ;;
  match r with
  | Some ip => upd_proc (set_cwd ip)
  | None => panic "no root"
  end.
Definition kern0 : kern lstate := final enter_root (mkkern mounted0 (replicate NFILE nofile) ∅ (mkkmem (fun _ => 0) 0 false []) proc0 []).

(** What init does before it starts a shell. *)
Definition open_console : U world unit :=
  call_ (Smknod (str "console") 1 1) ;;- open_ (str "console") O_RDWR ;;- dup_ 0 ;;- dup_ 0 ;;- uret tt.

(** What the console shows; the blocks of inodes and the bitmap on disk. *)
Definition shown (s : kern lstate) : list Z := concat (drop 1 (fout (kfs s))).
Definition metadata (s : kern lstate) : list (list Z) := List.map (fun n => dread (bdisk (lbc (fb (kfs s)))) (1, Z.of_nat n)) (seq 32 27).
Definition lines (l : list string) : list Z := concat (List.map (fun x => str x ++ [10]) l).

Definition outcome (m : U world unit) : option (list Z * list (list Z)) :=
  match m (inl kern0) with
  | UDone _ (inl s) => Some (shown s, metadata s)
  | _ => None
  end.

(** The tests that remove what they made, and some that leave files behind, in
    the order of main. *)
Definition clean_tests : U world unit :=
  let buf := replicate (Z.to_nat BUFSZ) 0 in
  opentest ;;-
  buf <-- writetest buf ;;
  iputtest ;;- dirtest ;;- rmdot ;;-
  buf <-- bigfile 41 buf ;;
  buf <-- subdir buf ;;
  buf <-- linktest buf ;;
  _ <-- unlinkread buf ;;
  dirfile.
Definition other_tests : U world unit :=
  _ <-- writetest1 141 (replicate (Z.to_nat BUFSZ) 0) ;;
  createtest ;;- fourteen ;;- iref.

Definition clean_lines : list string :=
  ["open test"; "open test ok"; "small file test"; "creat small succeeded; ok"; "writes ok"; "open small succeeded ok"; "read succeeded ok"; "small file test ok";
   "iput test"; "iput test ok"; "mkdir test"; "mkdir test ok"; "rmdot test"; "rmdot ok"; "bigfile test"; "bigfile test ok"; "subdir test"; "subdir ok";
   "linktest"; "linktest ok"; "unlinkread test"; "unlinkread ok"; "dir vs file"; "dir vs file OK"]%string.
Definition other_lines : list string :=
  ["big files test"; "big files ok"; "many creates, followed by unlink test"; "many creates, followed by unlink; ok"; "fourteen test"; "fourteen ok";
   "empty file name"; "empty file name OK"]%string.

Definition result : Type := option (list Z * list (list Z)).
Definition passed (r0 r1 r2 : result) : bool :=
  match r0, r1, r2 with
  | Some (o0, m0), Some (o1, m1), Some (o2, _) =>
      bool_decide (o0 = []) && bool_decide (o1 = lines clean_lines) && bool_decide (m1 = m0) && bool_decide (o2 = lines other_lines)
  | _, _, _ => false
  end.
Lemma passed_spec (r0 r1 r2 : result) : passed r0 r1 r2 = true ->
  exists m, r0 = Some ([], m) /\ r1 = Some (lines clean_lines, m) /\ exists m', r2 = Some (lines other_lines, m').
Proof.
  destruct r0 as [[o0 m0]|], r1 as [[o1 m1]|], r2 as [[o2 m2]|]; try discriminate. unfold passed.
  rewrite !andb_true_iff, !bool_decide_eq_true. intros [[[-> ->] ->] ->]. eexists. split; [reflexivity|]. split; [reflexivity|]. eexists. reflexivity.
Qed.
Lemma all_passed : passed (outcome open_console) (outcome (open_console ;;- clean_tests)) (outcome (open_console ;;- other_tests)) = true.
Proof. vm_cast_no_check (eq_refl true). Qed.
End KernOs.
Import KernOs.

